(* ===== verification/_CoqProject ===== *)
-Q . S2P
Prelude.v
Machine.v
Segments.v
Cstring.v
Kalloc.v
Vm.v
VmInv.v
VmMap.v
VmUser.v
VmAlloc.v
VmKern.v
VmCopy.v
VmProps.v
Spaces.v
Kstate.v
Shm.v
ShmInv.v
ShmRem.v
ShmGet.v
ShmFork.v
ShmProps.v
Proc.v
Sched.v
ProcFamily.v
ProcAlloc.v
Sem.v
Spinlock.v
FsState.v
Bio.v
BioInv.v
Ide.v
IdeProps.v
Log.v
LogInv.v
LogTx.v
LogCrash.v
Fs.v
Console.v
ConsoleProps.v
FsInode.v
FsAlloc.v
FsFile.v
FsIo.v
FsIoProps.v
FsDir.v
Mkfs.v
MkfsProps.v
MkfsImage.v
Pipe.v
PipeProps.v
Ksys.v
File.v
Syscall.v
SyscallProps.v
Sysfile.v
Exec.v
ExecProps.v
Frame.v
FsFrame.v
KFrame.v
Devices.v
Refs.v
RefLogic.v
RefFiles.v
RefCalls.v
RefProcs.v
RefProps.v
Ulib.v
Umalloc.v
UmallocProps.v
UmallocSpec.v
Mp.v
Apic.v
Boot.v
Grep.v
Sh.v
Programs.v
GrepRun.v
ShProps.v
ShRun.v
