(* ===== verification/Prelude.v ===== *)
(** * A verification library for xv6 with shared pages and semaphores

    The program is the teaching kernel xv6 for the x86, written in C, with two
    additions: pages that processes share under a key ([shm.c]) and semaphores
    ([semaphores.c]), and some user programs.  This library translates the
    sources under [src/] into computations and proves what they do.

    ** The parts of the program and the files that model them

    - Foundations.  [Prelude] (this file): the monad of kernel computations,
      its rules, machine integers.  [Machine]: constants and address macros of
      [param.h], [memlayout.h], [mmu.h], the byte memory, the string
      instructions of [x86.h].  [Segments]: segment and gate descriptors of
      [mmu.h], [seginit] of [vm.c], [tvinit] of [trap.c].  [Cstring]:
      [string.c].  [Frame]: what a computation leaves alone.
    - Memory.  [Kalloc]: [kalloc.c].  [Vm]: [vm.c]; its theorems in [VmProps],
      over the invariants of [VmInv], [VmMap], [VmUser], [VmAlloc], [VmKern]
      and [VmCopy].  [Spaces]: several address spaces share out one pool.
    - Processes.  [Kstate]: [struct proc], the process table and the state of
      the kernel.  [Proc]: [proc.c] and the context switches of [vm.c];
      theorems in [Sched], [ProcFamily] ([exit], [wait]) and [ProcAlloc]
      ([allocproc], [growproc], [kill]).
    - Shared pages.  [Shm]: [shm.c]; [ShmInv] has the invariant, [ShmRem],
      [ShmGet] and [ShmFork] the laws, [ShmProps] the theorems.
    - Synchronisation.  [Spinlock]: [spinlock.c] on several processors.
      [Sem]: [semaphores.c].  Sleep locks ([sleeplock.c]) are in [FsState].
    - File system.  [FsState]: its state and on-disk encodings.  [Bio]:
      [bio.c] and [memide.c].  [Log]: [log.c].  [Fs]: [fs.c].  Theorems in
      [LogCrash], [FsIoProps] and [FsDir], over [BioInv], [LogInv], [LogTx],
      [FsInode], [FsAlloc], [FsFile] and [FsIo].  [Mkfs]: [mkfs.c], which
      builds the image; [MkfsProps] and [MkfsImage].
    - Devices.  [Ide], [IdeProps]: the disk driver [ide.c].  [Console],
      [ConsoleProps]: [console.c], [kbd.c], [kbd.h] and [uart.c].  [Devices]:
      their interrupt handlers in the kernel, and [procdump].  [Apic]:
      [lapic.c], [ioapic.c], [picirq.c].
    - Boot.  [Boot]: the loader [bootmain.c].  [Mp]: [mp.c], and of [main.c] the
      boot page table and [startothers].
    - Files and system calls.  [Pipe]: [pipe.c] and user memory;
      [PipeProps].  [Ksys]: the whole kernel state, and the file system
      run by a process.  [File]: [file.c].  [Syscall]: [syscall.c],
      [sysproc.c]; [SyscallProps].  [Sysfile]: [sysfile.c].  [Exec]:
      [exec.c], the dispatch of [syscall] and [trap]; [ExecProps].  [FsFrame],
      [KFrame], [Refs], [RefLogic], [RefFiles], [RefCalls], [RefProcs] and
      [RefProps] count the references to open files across all of it.
    - User programs.  [Ulib]: [ulib.c], [printf.c] and the system calls as
      an interface ([Usys]).  [Umalloc]: [umalloc.c]; [UmallocProps] and
      [UmallocSpec].  [Programs]: [cat.c], [wc.c], [echo.c], [kill.c], [ln.c],
      [mkdir.c], [rm.c], [ls.c], [init.c], [zombie.c].  [Grep], [GrepRun]:
      [grep.c].  [Sh], [ShProps]: the parser of [sh.c]; [ShRun]: the rest of it.

    ** How code is modelled

    A function of the kernel is a computation [M S A] over a state [S], built
    with [bind] ([x <- m ;; k]) the way the C statements follow each other.
    Its outcome ([res]) is a value, a [panic] with its message, the exit of
    the process, a sleep with the rest of the computation, behaviour C leaves
    undefined ([Fault]), or a loop that ran out of fuel.  Other processes run
    while one sleeps, so the rest of a computation is a function of the state
    it is resumed in.  Unsigned arithmetic wraps ([u32]), [int] is [i32].

    Memory is a function from addresses to bytes: free list, page tables, trap
    frames, kernel stacks and pipes are bytes of it, and user memory is reached
    through the page tables ([translate]).  Process table, tables of [shm.c],
    buffers, inodes and files are lists of records; a pointer into such a
    table is an index, or an address where the code stores or compares it.  A
    spin lock is a flag whose misuse panics as in the source; [Spinlock] shows
    on the model of several processors that this is what locks give.  Code of
    one component runs in the state of another by [lift] ([on_mem], [run_fs]).

    What the linker decides (addresses, literals, the initial program) and
    what a component takes from another or from hardware are parameters, in
    classes such as [KernelImage], [Literals], [FsImage], [FsPtrs], [DevSw]
    and [Drivers].  A device is a class of operations on a state of its own
    ([Ata], [Ports], [Mmio]) with a class of laws, what its documentation
    promises ([AtaOk], [BootDisk], [RtcOk], [IoapicOk]); the system calls a user
    program makes are treated the same way ([Usys] with [Stream], [Pieces]
    and [Desk]).  For each of them an instance shows that the laws can hold.

    ** What the theorems show

    - [ShmProps]: [shmget] gives a process the page of a key and counts it,
      [shmrem] and the exit of a process give pages up, [manage_fork] gives the
      child its parent's pages; counts are exact, and two processes see the same page
      exactly when they hold it under the same key.  Two theorems show how this
      breaks from any such state: [shmrem] leaves a bit set that makes a later
      [manage_fork] and the child's exit stop the kernel, and the last user of
      a page keeps a key with which it can free another process's page.
    - [RefProps]: in every interleaving of all traps and system calls the
      count of an open file is the number of its descriptors, but for one that
      an exiting process is closing.
    - [LogCrash]: transactions are atomic under crashes, also while recovering.
      [FsIoProps], [FsDir]: writing and reading files, inodes and directories.
      [MkfsImage]: the image [mkfs] builds satisfies the invariants those
      theorems start from, and holds the files it was given.
    - [IdeProps]: the driver with its queue and interrupts is a disk that
      serves one request at a time.  [ConsoleProps]: the console is a line
      editor.  [Apic]: [cmostime] reads a clock that counts 24 hours whole, and
      the I/O APIC is programmed entry by entry.
    - [Boot]: the loader puts the kernel where its headers say.  [Mp]: the
      processors of the firmware's tables are found, and an unknown entry makes
      [mpinit] loop.  Every other processor gets its own stack.
    - [PipeProps]: a pipe is a bounded queue.  [SyscallProps]: which arguments
      a call accepts.  [ExecProps]: the stack a new program starts with.
    - [Spinlock]: mutual exclusion on several processors.  [Sem]: a semaphore
      admits as many as its value and wakes who waits; two theorems show that
      one initialised with 0 never blocks, and that processes which see it at
      different addresses lose wake-ups.  [ProcFamily], [ProcAlloc]: children are reaped, no wake-up
      is lost, new processes are set up, and what [kill(0)] does.
    - [Kalloc], [VmProps]: the pool of pages and the address spaces built from
      it, on every path, with exact accounts of the pages, also of the one that
      [copyuvm] loses.
    - [Segments], [Cstring]: descriptors, string and memory routines.
    - [UmallocSpec]: [malloc] and [free] keep the heap tiled.  [Ulib]: numbers
      printed read back.  [Programs]: [cat] and [wc] do not depend on how
      [read] cuts the input.
    - [ShProps]: the parser ends on every line, with commands that are well
      formed.  [ShRun]: the shell runs exactly the jobs of the command typed,
      with the right descriptors.  [Grep]: the matcher decides the language of
      the expression; [GrepRun]: [grep] prints the lines that match, and which
      it loses.

    ** Fuel

    Loops over tables run their length.  Page loops get the number of pages
    between their bounds, modulo the address space; [copyout], path names and
    directory scans the length of their data; the theorems about them show
    that it is enough.  A loop that waits ([begin_op], sleep locks, pipes,
    [wait], [sem_down], [sys_sleep]) gets one round per time it is woken, the
    parameter [wakeups]; theorems about such loops hold for every value.  The
    parser of the shell gets a bound from the length of the line, shown to be
    enough.  User programs that read to the end of their input get more fuel
    than there is input; [runcmd] the number of nodes of its command.  Loops
    that poll a device get the bound its laws give ([polls], the [period] of
    the clock).  [mpinit] takes its fuel as an argument: one round per entry of the
    table is enough, and with an unknown entry none is.

    ** Not modelled

    Assembly code ([swtch.S], [trapasm.S], [entry.S], [entryother.S],
    [bootasm.S], [initcode.S], [usys.S]) and the inline assembly of [x86.h]
    other than the string instructions: what they leave in memory and registers
    is part of the state or a parameter.  Of [main.c], [main], which calls in
    order the initialisations modelled with their components, and [mpmain], which
    ends in the scheduler.  The settings of the serial line in [uartinit].
    Messages the kernel prints on its way, such as those of [trap].  The test
    programs ([usertests.c], [forktest.c], [stressfs.c], [test11.c] to
    [test15.c]), which are inputs to the code modelled here and not part of
    what it promises. *)
From Stdlib Require Import ZArith Lia Bool.
From stdpp Require Import base list strings gmap.

#[global] Open Scope Z_scope.

(** ** Kernel computations

    A piece of kernel C code is a computation over a state [S].  It may
    return, stop the machine ([panic]), end the calling process ([exit]),
    give up the processor on a channel ([sleep]), run into behaviour the C
    language leaves undefined ([Fault]), or use up the fuel of a loop.  A
    computation that sleeps carries what it does when it is resumed, as a
    function of the state it then finds: other processes have run meanwhile. *)
Inductive res (S A : Type) : Type :=
| Ok (a : A) (s : S)
| Panic (msg : string) (s : S)
| Exited (s : S)
| Sleeping (chan : Z) (s : S) (resume : S -> res S A)
| Fault (why : string) (s : S)
| NoFuel (s : S).
Arguments Ok {S A} a s.
Arguments Panic {S A} msg s.
Arguments Exited {S A} s.
Arguments Sleeping {S A} chan s resume.
Arguments Fault {S A} why s.
Arguments NoFuel {S A} s.

Definition M (S A : Type) : Type := S -> res S A.

Definition ret {S A} (a : A) : M S A := fun s => Ok a s.

Fixpoint bind_res {S A B} (r : res S A) (k : A -> M S B) : res S B :=
  match r with
  | Ok a s' => k a s'
  | Panic w s' => Panic w s'
  | Exited s' => Exited s'
  | Sleeping c s' resume => Sleeping c s' (fun s'' => bind_res (resume s'') k)
  | Fault w s' => Fault w s'
  | NoFuel s' => NoFuel s'
  end.

Definition bind {S A B} (m : M S A) (k : A -> M S B) : M S B := fun s => bind_res (m s) k.

Definition gets {S A} (f : S -> A) : M S A := fun s => Ok (f s) s.
Definition modify {S} (f : S -> S) : M S unit := fun s => Ok tt (f s).
Definition panic {S A} (msg : string) : M S A := fun s => Panic msg s.
Definition fault {S A} (why : string) : M S A := fun s => Fault why s.
Definition nofuel {S A} : M S A := fun s => NoFuel s.
Definition exited {S A} : M S A := fun s => Exited s.
(** Give up the processor on [chan]; [modify] the state when resumed. *)
Definition sleep_on {S} (chan : Z) : M S unit := fun s => Sleeping chan s (fun s' => Ok tt s').
Definition when {S} (b : bool) (m : M S unit) : M S unit :=
  if b then m else ret tt.

Declare Scope kernel_scope.
Delimit Scope kernel_scope with kernel.
Notation "x <- c1 ;; c2" := (bind c1 (fun x => c2))
  (at level 100, c1 at next level, right associativity) : kernel_scope.
Notation "c1 ;;; c2" := (bind c1 (fun _ => c2))
  (at level 100, right associativity) : kernel_scope.
#[global] Open Scope kernel_scope.

(** [for (i = lo; i < lo + n; i++) body(i)]. *)
Fixpoint for_range {S} (n : nat) (lo : nat) (body : nat -> M S unit) : M S unit :=
  match n with
  | O => ret tt
  | Datatypes.S n' => body lo ;;; for_range n' (Datatypes.S lo) body
  end.

(** The same with a [break] or [return]: the body may deliver a result. *)
Fixpoint for_find {S A} (n : nat) (lo : nat) (body : nat -> M S (option A)) : M S (option A) :=
  match n with
  | O => ret None
  | Datatypes.S n' =>
      r <- body lo ;;
      match r with Some a => ret (Some a) | None => for_find n' (Datatypes.S lo) body end
  end.

(** The first element of a list for which a test answers yes. *)
Fixpoint first_in {S A} (l : list A) (test : A -> M S bool) : M S (option A) :=
  match l with
  | [] => ret None
  | a :: l' => b <- test a ;; if b : bool then ret (Some a) else first_in l' test
  end.

(** Running a component's computation inside a larger state. *)
Fixpoint lift_res {S T A} (get : T -> S) (put : S -> T -> T) (r : res S A) (t : T) : res T A :=
  match r with
  | Ok a s => Ok a (put s t)
  | Panic w s => Panic w (put s t)
  | Exited s => Exited (put s t)
  | Sleeping c s resume =>
      Sleeping c (put s t) (fun t' => lift_res get put (resume (get t')) t')
  | Fault w s => Fault w (put s t)
  | NoFuel s => NoFuel (put s t)
  end.

Definition lift {S T A} (get : T -> S) (put : S -> T -> T) (m : M S A) : M T A :=
  fun t => lift_res get put (m (get t)) t.

(** ** Total correctness

    [wp m Q s]: run from [s], the computation returns, without sleeping, and
    its result satisfies [Q]. *)
Definition wp {S A} (m : M S A) (Q : A -> S -> Prop) (s : S) : Prop :=
  match m s with Ok a s' => Q a s' | _ => False end.

(** [wpx m Q P s]: the computation returns with [Q], or stops the machine with
    a message and a state that satisfy [P]. *)
Definition wpx {S A} (m : M S A) (Q : A -> S -> Prop) (P : string -> S -> Prop) (s : S) : Prop :=
  match m s with Ok a s' => Q a s' | Panic w s' => P w s' | _ => False end.

(** [wpb n I m Q s]: the same for computations that may sleep.  Each time the
    computation sleeps it leaves a state satisfying [I]; resumed in any such
    state, up to [n] times, it goes on.  It never stops in another way. *)
Fixpoint wpb_res {S A} (n : nat) (I : S -> Prop) (r : res S A) (Q : nat -> A -> S -> Prop) {struct r} : Prop :=
  match r with
  | Ok a s' => Q n a s'
  | Sleeping _ s' resume =>
      I s' /\ match n with
              | O => True
              | Datatypes.S n' => forall s'', I s'' -> wpb_res n' I (resume s'') Q
              end
  | _ => False
  end.

Definition wpb {S A} (n : nat) (I : S -> Prop) (m : M S A) (Q : nat -> A -> S -> Prop) (s : S) : Prop :=
  wpb_res n I (m s) Q.

(** [after m Q R s]: partial correctness.  If the computation returns, [Q]
    holds; if it goes to sleep, [R] holds of the channel, the state it leaves
    and the continuation. *)
Definition after {S A} (m : M S A) (Q : A -> S -> Prop) (R : Z -> S -> (S -> res S A) -> Prop) (s : S) : Prop :=
  match m s with Ok a s' => Q a s' | Sleeping c s' k => R c s' k | _ => True end.

Section Wp.
Context {S : Type}.
Implicit Types s : S.

Lemma wp_ret {A} (a : A) (Q : A -> S -> Prop) s : Q a s -> wp (ret a) Q s.
Proof. exact id. Qed.

Lemma wp_bind {A B} (m : M S A) (k : A -> M S B) (Q : B -> S -> Prop) s :
  wp m (fun a s' => wp (k a) Q s') s -> wp (bind m k) Q s.
Proof. unfold wp, bind. by destruct (m s). Qed.

Lemma wp_gets {A} (f : S -> A) (Q : A -> S -> Prop) s : Q (f s) s -> wp (gets f) Q s.
Proof. exact id. Qed.

Lemma wp_modify (f : S -> S) (Q : unit -> S -> Prop) s : Q tt (f s) -> wp (modify f) Q s.
Proof. exact id. Qed.

Lemma wp_when (b : bool) (m : M S unit) (Q : unit -> S -> Prop) s :
  (b = true -> wp m Q s) -> (b = false -> Q tt s) -> wp (when b m) Q s.
Proof. destruct b; intros H1 H2; [by apply H1|by apply H2]. Qed.

Lemma wp_mono {A} (m : M S A) (Q Q' : A -> S -> Prop) s :
  wp m Q s -> (forall a s', Q a s' -> Q' a s') -> wp m Q' s.
Proof. unfold wp. destruct (m s); auto. Qed.

Lemma wp_and {A} (m : M S A) (Q Q' : A -> S -> Prop) s :
  wp m Q s -> wp m Q' s -> wp m (fun a s' => Q a s' /\ Q' a s') s.
Proof. unfold wp. by destruct (m s). Qed.

Lemma wp_ok {A} (m : M S A) (Q : A -> S -> Prop) s :
  wp m Q s <-> exists a s', m s = Ok a s' /\ Q a s'.
Proof.
  unfold wp. destruct (m s) as [a0 s0| | | | |]; split; try done;
    try (by intros (a & s' & ? & _)).
  - intros HQ. by exists a0, s0.
  - intros (a & s' & [= <- <-] & HQ). done.
Qed.

Lemma wp_elim {A} (m : M S A) (Q : A -> S -> Prop) s a s' : wp m Q s -> m s = Ok a s' -> Q a s'.
Proof. unfold wp. intros H E. by rewrite E in H. Qed.

Lemma bind_ok {A B} (m : M S A) (k : A -> M S B) s a s' :
  m s = Ok a s' -> bind m k s = k a s'.
Proof. unfold bind. by intros ->. Qed.

Lemma wp_for_range (P : nat -> S -> Prop) n : forall lo body (Q : unit -> S -> Prop) s,
  P lo s ->
  (forall i s', (lo <= i < lo + n)%nat -> P i s' -> wp (body i) (fun _ => P (Datatypes.S i)) s') ->
  (forall s', P (lo + n)%nat s' -> Q tt s') ->
  wp (for_range n lo body) Q s.
Proof.
  induction n as [|n IH]; intros lo body Q s HP Hb HQ; cbn [for_range].
  { apply wp_ret, HQ. by rewrite Nat.add_0_r. }
  apply wp_bind. eapply wp_mono; [apply Hb; [lia|done]|]. intros [] s' HP'.
  apply IH; [done|intros; apply Hb; [lia|done]|]. intros s'' Hs''. apply HQ.
  by replace (lo + Datatypes.S n)%nat with (Datatypes.S lo + n)%nat by lia.
Qed.

Lemma wp_for_find {A} (P : nat -> S -> Prop) n : forall lo body (Q : option A -> S -> Prop) s,
  P lo s ->
  (forall i s', (lo <= i < lo + n)%nat -> P i s' ->
     wp (body i) (fun r s'' => match r with Some a => Q (Some a) s'' | None => P (Datatypes.S i) s'' end) s') ->
  (forall s', P (lo + n)%nat s' -> Q None s') ->
  wp (for_find n lo body) Q s.
Proof.
  induction n as [|n IH]; intros lo body Q s HP Hb HQ; cbn [for_find].
  { apply wp_ret, HQ. by rewrite Nat.add_0_r. }
  apply wp_bind. eapply wp_mono; [apply Hb; [lia|done]|]. intros [a|] s' HP'; [by apply wp_ret|].
  apply IH; [done|intros; apply Hb; [lia|done]|]. intros s'' Hs''. apply HQ.
  by replace (lo + Datatypes.S n)%nat with (Datatypes.S lo + n)%nat by lia.
Qed.

Lemma wp_first_in {A} (test : A -> bool) (body : A -> M S bool) (l : list A) (Q : option A -> S -> Prop) s :
  (forall a, a ∈ l -> wp (body a) (fun b s' => b = test a /\ s' = s) s) ->
  Q (head (filter (fun a => test a) l)) s -> wp (first_in l body) Q s.
Proof.
  revert Q. induction l as [|a l IH]; intros Q Hb HQ; cbn [first_in]; [by apply wp_ret|].
  apply wp_bind. eapply wp_mono; [apply Hb; by left|]. intros b s' [-> ->].
  rewrite filter_cons in HQ. destruct (test a); [by apply wp_ret|].
  apply IH; [intros; apply Hb; by right|done].
Qed.

Lemma wpx_of_wp {A} (m : M S A) (Q : A -> S -> Prop) P s : wp m Q s -> wpx m Q P s.
Proof. unfold wp, wpx. by destruct (m s). Qed.

Lemma wpx_bind {A B} (m : M S A) (k : A -> M S B) (Q : B -> S -> Prop) P s :
  wpx m (fun a s' => wpx (k a) Q P s') P s -> wpx (bind m k) Q P s.
Proof. unfold wpx, bind. by destruct (m s). Qed.

Lemma wpx_mono {A} (m : M S A) (Q Q' : A -> S -> Prop) (P P' : string -> S -> Prop) s :
  wpx m Q P s -> (forall a s', Q a s' -> Q' a s') -> (forall w s', P w s' -> P' w s') -> wpx m Q' P' s.
Proof. unfold wpx. destruct (m s); auto. Qed.

Lemma wpx_for_range (J : nat -> S -> Prop) (P : string -> S -> Prop) n :
  forall lo body (Q : unit -> S -> Prop) s,
  J lo s ->
  (forall i s', (lo <= i < lo + n)%nat -> J i s' -> wpx (body i) (fun _ => J (Datatypes.S i)) P s') ->
  (forall s', J (lo + n)%nat s' -> Q tt s') ->
  wpx (for_range n lo body) Q P s.
Proof.
  induction n as [|n IH]; intros lo body Q s HJ Hb HQ; cbn [for_range].
  { apply wpx_of_wp, wp_ret, HQ. by rewrite Nat.add_0_r. }
  apply wpx_bind. eapply wpx_mono; [apply Hb; [lia|done]| |done]. intros [] s' HJ'.
  apply IH; [done|intros; apply Hb; [lia|done]|]. intros s'' Hs''. apply HQ.
  by replace (lo + Datatypes.S n)%nat with (Datatypes.S lo + n)%nat by lia.
Qed.

Lemma wpb_of_wp {A} n I (m : M S A) (Q : nat -> A -> S -> Prop) s : wp m (Q n) s -> wpb n I m Q s.
Proof. unfold wp, wpb. by destruct (m s). Qed.

Lemma wpb_bind {A B} n I (m : M S A) (k : A -> M S B) (Q : nat -> B -> S -> Prop) s :
  wpb n I m (fun n' a s' => wpb n' I (k a) Q s') s -> wpb n I (bind m k) Q s.
Proof.
  unfold wpb, bind. generalize (m s). intros r. revert n.
  induction r as [| | |c s' resume IH| |]; intros n; simpl; try done.
  destruct n as [|n]; [done|]. intros [H1 H2]. split; [done|]. intros s'' Hs''. apply IH, H2, Hs''.
Qed.

Lemma wpb_sleep n I c (Q : nat -> unit -> S -> Prop) s :
  I s -> (forall n' s', n = Datatypes.S n' -> I s' -> Q n' tt s') -> wpb n I (sleep_on c) Q s.
Proof. intros Hi HQ. split; [done|]. destruct n; [done|]. intros s' Hs'. by apply HQ. Qed.

Lemma wpb_mono {A} n I (m : M S A) (Q Q' : nat -> A -> S -> Prop) s :
  wpb n I m Q s -> (forall n' a s', Q n' a s' -> Q' n' a s') -> wpb n I m Q' s.
Proof.
  unfold wpb. generalize (m s). intros r. revert n.
  induction r as [| | |c s' resume IH| |]; intros n; simpl; auto.
  destruct n as [|n]; [done|]. intros [H1 H2] HQ. split; [done|]. intros s'' Hs''. by apply IH; [apply H2|].
Qed.

Lemma after_of_wp {A} (m : M S A) (Q : A -> S -> Prop) R s : wp m Q s -> after m Q R s.
Proof. unfold wp, after. by destruct (m s). Qed.

Lemma after_bind {A B} (m : M S A) (k : A -> M S B) (Q : B -> S -> Prop) R s :
  after m (fun a s' => after (k a) Q R s') (fun c s' r => R c s' (fun s'' => bind_res (r s'') k)) s ->
  after (bind m k) Q R s.
Proof. unfold after, bind. by destruct (m s). Qed.

Lemma after_mono {A} (m : M S A) (Q Q' : A -> S -> Prop) (R R' : Z -> S -> (S -> res S A) -> Prop) s :
  after m Q R s -> (forall a s', Q a s' -> Q' a s') -> (forall c s' k, R c s' k -> R' c s' k) -> after m Q' R' s.
Proof. unfold after. destruct (m s); auto. Qed.

Lemma after_ok {A} (m : M S A) (Q : A -> S -> Prop) R s a s' : after m Q R s -> m s = Ok a s' -> Q a s'.
Proof. unfold after. intros H E. by rewrite E in H. Qed.
Lemma after_asleep {A} (m : M S A) (Q : A -> S -> Prop) R s c s' k :
  after m Q R s -> m s = Sleeping c s' k -> R c s' k.
Proof. unfold after. intros H E. by rewrite E in H. Qed.
End Wp.

Lemma wp_lift {S T A} (get : T -> S) put (m : M S A) (Q : A -> T -> Prop) t :
  wp m (fun a s' => Q a (put s' t)) (get t) -> wp (lift get put m) Q t.
Proof. unfold wp, lift. by destruct (m (get t)). Qed.

(** [wp_step] takes one step through a computation in normal form. *)
Ltac wp_step :=
  lazymatch goal with
  | |- wp (bind _ _) _ _ => apply wp_bind
  | |- wp (ret _) _ _ => apply wp_ret
  | |- wp (gets _) _ _ => apply wp_gets
  | |- wp (modify _) _ _ => apply wp_modify
  | |- wpx (bind _ _) _ _ _ => apply wpx_bind
  | |- wpx (ret _) _ _ _ => apply wpx_of_wp, wp_ret
  | |- wpx (gets _) _ _ _ => apply wpx_of_wp, wp_gets
  | |- wpx (modify _) _ _ _ => apply wpx_of_wp, wp_modify
  | |- after (bind _ _) _ _ _ => apply after_bind
  | |- after (ret _) _ _ _ => apply after_of_wp, wp_ret
  | |- after (gets _) _ _ _ => apply after_of_wp, wp_gets
  | |- after (modify _) _ _ _ => apply after_of_wp, wp_modify
  | |- wpb _ _ (bind _ _) _ _ => apply wpb_bind
  | |- wpb _ _ (ret _) _ _ => apply wpb_of_wp, wp_ret
  | |- wpb _ _ (gets _) _ _ => apply wpb_of_wp, wp_gets
  | |- wpb _ _ (modify _) _ _ => apply wpb_of_wp, wp_modify
  end.
Ltac wp_steps := repeat wp_step.

(** A search below a bound finds a first index or none. *)
Lemma first_below (P : nat -> Prop) `{!forall i, Decision (P i)} n :
  (exists i, (i < n)%nat /\ P i /\ forall z, (z < i)%nat -> ~ P z) \/ (forall i, (i < n)%nat -> ~ P i).
Proof.
  induction n as [|n [(i & Hi & Hp & Hno)|Hno]]; [right; intros; lia|left; exists i; split; [lia|done]|].
  destruct (decide (P n)) as [Hp|Hn]; [left; by exists n; split; [lia|]|].
  right. intros i Hi. destruct (decide (i = n)) as [->|]; [done|]. apply Hno. lia.
Qed.

(** ** Components of a larger state *)
Class Lens (F T : Type) : Type := { lget : F -> T; lput : T -> F -> F }.
Class LensOk {F T} (l : Lens F T) : Prop := {
  lget_lput : forall t f, lget (lput t f) = t;
  lput_lget : forall f, lput (lget f) f = f;
  lput_lput : forall t t' f, lput t (lput t' f) = lput t f;
}.
#[export] Instance lens_id {T} : Lens T T := {| lget := id; lput := fun t _ => t |}.
#[export] Instance lens_id_ok {T} : LensOk (@lens_id T).
Proof. by constructor. Qed.

(** ** Machine integers *)
Definition u32 (x : Z) : Z := x mod 2 ^ 32.
Definition u16 (x : Z) : Z := x mod 2 ^ 16.
Definition u8 (x : Z) : Z := x mod 2 ^ 8.
(** Conversion of a 32-bit pattern to [int] (two's complement). *)
Definition i32 (x : Z) : Z := (x + 2 ^ 31) mod 2 ^ 32 - 2 ^ 31.
(** Conversion of a 16-bit pattern to [short]. *)
Definition i16 (x : Z) : Z := (x + 2 ^ 15) mod 2 ^ 16 - 2 ^ 15.

Definition is_u32 (x : Z) : Prop := 0 <= x < 2 ^ 32.

Lemma pow2_32 : 2 ^ 32 = 4294967296. Proof. reflexivity. Qed.
Lemma pow2_31 : 2 ^ 31 = 2147483648. Proof. reflexivity. Qed.
Lemma pow2_16 : 2 ^ 16 = 65536. Proof. reflexivity. Qed.
Lemma pow2_15 : 2 ^ 15 = 32768. Proof. reflexivity. Qed.
Lemma pow2_8 : 2 ^ 8 = 256. Proof. reflexivity. Qed.

(** [zlia]: linear arithmetic with division and modulus by constants. *)
Ltac zlia := Z.div_mod_to_equations; lia.
(** [i32lia]: the same, seeing through the machine-integer wrappers. *)
Ltac i32lia :=
  unfold is_u32, u32, u16, u8, i32, i16 in *;
  rewrite ?pow2_32, ?pow2_31, ?pow2_16, ?pow2_15, ?pow2_8 in *; zlia.

Lemma u32_small x : 0 <= x < 2 ^ 32 -> u32 x = x.
Proof. apply Z.mod_small. Qed.
Lemma u32_range x : 0 <= u32 x < 2 ^ 32.
Proof. by apply Z.mod_pos_bound. Qed.
Lemma u32_idemp x : u32 (u32 x) = u32 x.
Proof. apply u32_small, u32_range. Qed.
Lemma u8_small x : 0 <= x < 256 -> u8 x = x.
Proof. apply Z.mod_small. Qed.
Lemma u8_range x : 0 <= u8 x < 256.
Proof. by apply Z.mod_pos_bound. Qed.
Lemma i32_range x : - 2 ^ 31 <= i32 x < 2 ^ 31.
Proof. i32lia. Qed.
Lemma i32_small x : - 2 ^ 31 <= x < 2 ^ 31 -> i32 x = x.
Proof. intros. i32lia. Qed.

(** Masking the low bits off, as [PGROUNDDOWN] and [PTE_ADDR] do. *)
Lemma land_ones_mod x k : 0 <= k -> Z.land x (2 ^ k - 1) = x mod 2 ^ k.
Proof. intros. rewrite <- Z.land_ones by lia. f_equal. rewrite Z.ones_equiv. lia. Qed.

Lemma land_high_mask x k : 0 <= k < 32 -> 0 <= x < 2 ^ 32 ->
  Z.land x (u32 (Z.lnot (2 ^ k - 1))) = x - x mod 2 ^ k.
Proof.
  intros Hk Hx.
  assert (u32 (Z.lnot (2 ^ k - 1)) = Z.ldiff (Z.ones 32) (Z.ones k)) as ->.
  { unfold u32. rewrite <- Z.land_ones by lia.
    replace (2 ^ k - 1) with (Z.ones k) by (rewrite Z.ones_equiv; lia).
    rewrite Z.land_comm. apply Z.bits_inj'. intros n Hn.
    by rewrite Z.land_spec, Z.ldiff_spec, Z.lnot_spec. }
  rewrite <- Z.land_ones by lia.
  apply Z.bits_inj'. intros n Hn.
  assert (x - Z.land x (Z.ones k) = Z.ldiff x (Z.ones k)) as ->.
  { rewrite Z.sub_nocarry_ldiff; [|apply Z.bits_inj'; intros m Hm;
      rewrite Z.ldiff_spec, Z.land_spec, Z.bits_0;
      by destruct (Z.testbit x m), (Z.testbit (Z.ones k) m)].
    apply Z.bits_inj'. intros m Hm. rewrite !Z.ldiff_spec, Z.land_spec.
    by destruct (Z.testbit x m), (Z.testbit (Z.ones k) m). }
  rewrite Z.land_spec, !Z.ldiff_spec, Z.testbit_ones_nonneg by lia.
  destruct (Z.ltb_spec n 32); [by destruct (Z.testbit x n)|].
  replace (Z.testbit x n) with false; [done|].
  symmetry. rewrite <- (Z.mod_small x (2 ^ 32)) by done.
  by apply Z.mod_pow2_bits_high.
Qed.

(** Disjoint bit patterns add. *)
Lemma lor_disjoint_add a b k :
  0 <= k -> a mod 2 ^ k = 0 -> 0 <= b < 2 ^ k -> Z.lor a b = a + b.
Proof.
  intros Hk Ha Hb. symmetry. rewrite <- Z.lxor_lor; [apply Z.add_nocarry_lxor|].
  all: apply Z.bits_inj'; intros n Hn; rewrite Z.land_spec, Z.bits_0.
  all: destruct (Z.ltb_spec n k);
    [assert (Z.testbit a n = false) as ->;
      [rewrite <- (Z.mod_pow2_bits_low a k n) by lia; by rewrite Ha, Z.bits_0 | done]
    |assert (Z.testbit b n = false) as ->; [|apply andb_false_r];
      rewrite <- (Z.mod_small b (2 ^ k)) by done; by apply Z.mod_pow2_bits_high].
Qed.

(** One bit of a word. *)
Lemma land_pow2 x m : 0 <= m -> (Z.land x (2 ^ m) =? 0) = negb (Z.testbit x m).
Proof.
  intros Hm. destruct (Z.testbit x m) eqn:Hx; cbn [negb].
  - apply Z.eqb_neq. intros H. assert (Z.testbit (Z.land x (2 ^ m)) m = false) as Hf by (by rewrite H, Z.bits_0).
    by rewrite Z.land_spec, Hx, Z.pow2_bits_true in Hf.
  - apply Z.eqb_eq, Z.bits_inj'. intros n Hn. rewrite Z.land_spec, Z.bits_0, Z.pow2_bits_eqb by done.
    destruct (Z.eqb_spec m n) as [<-|]; [by rewrite Hx|apply andb_false_r].
Qed.
