(* ===== verification/Machine.v ===== *)
(** * The machine: layout constants, 32-bit address macros, byte memory

    Constants of [param.h], [memlayout.h] and [mmu.h], the address macros of
    [mmu.h] written with the bit operations of the source, a byte-addressed
    memory, and the x86 string instructions of [x86.h].  The lemmas give the
    arithmetic meaning of the macros and the frame laws of loads and stores. *)
From Stdlib Require Import ZArith Lia Bool.
From stdpp Require Import base list.
From S2P Require Import Prelude.

(** ** Constants *)
Definition NPROC : Z := 64.
Definition NOFILE : Z := 16.
Definition KSTACKSIZE : Z := 4096.
Definition EXTMEM : Z := 0x100000.
Definition PHYSTOP : Z := 0xE000000.
Definition DEVSPACE : Z := 0xFE000000.
Definition KERNBASE : Z := 0x80000000.
Definition KERNLINK : Z := KERNBASE + EXTMEM.
Definition PGSIZE : Z := 4096.
Definition NPDENTRIES : Z := 1024.
Definition NPTENTRIES : Z := 1024.
Definition PTXSHIFT : Z := 12.
Definition PDXSHIFT : Z := 22.
Definition PTE_P : Z := 0x001.
Definition PTE_W : Z := 0x002.
Definition PTE_U : Z := 0x004.

(** Unfolds every layout constant before arithmetic. *)
Ltac kconst :=
  unfold NPROC, NOFILE, KSTACKSIZE, KERNLINK, EXTMEM, PHYSTOP, DEVSPACE,
    KERNBASE, PGSIZE, NPDENTRIES, NPTENTRIES, PTXSHIFT, PDXSHIFT, PTE_P,
    PTE_W, PTE_U in *.
(** Linear arithmetic over addresses. *)
Ltac klia := kconst; i32lia.

(** ** Address macros *)
Definition V2P (a : Z) : Z := u32 (a - KERNBASE).
Definition P2V (a : Z) : Z := u32 (a + KERNBASE).
Definition PDX (va : Z) : Z := Z.land (Z.shiftr va PDXSHIFT) 0x3FF.
Definition PTX (va : Z) : Z := Z.land (Z.shiftr va PTXSHIFT) 0x3FF.
Definition PGADDR (d t o : Z) : Z :=
  u32 (Z.lor (Z.lor (Z.shiftl d PDXSHIFT) (Z.shiftl t PTXSHIFT)) o).
Definition PGROUNDUP (sz : Z) : Z := Z.land (u32 (sz + PGSIZE - 1)) (u32 (Z.lnot (PGSIZE - 1))).
Definition PGROUNDDOWN (a : Z) : Z := Z.land a (u32 (Z.lnot (PGSIZE - 1))).
Definition PTE_ADDR (pte : Z) : Z := Z.land pte (u32 (Z.lnot 0xFFF)).
Definition PTE_FLAGS (pte : Z) : Z := Z.land pte 0xFFF.

(** ** Arithmetic meaning of the macros *)
Lemma PDX_eq va : PDX va = (va / 2 ^ 22) mod 1024.
Proof.
  unfold PDX, PDXSHIFT. change 0x3FF with (2 ^ 10 - 1).
  by rewrite land_ones_mod, Z.shiftr_div_pow2 by lia.
Qed.

Lemma PTX_eq va : PTX va = (va / 2 ^ 12) mod 1024.
Proof.
  unfold PTX, PTXSHIFT. change 0x3FF with (2 ^ 10 - 1).
  by rewrite land_ones_mod, Z.shiftr_div_pow2 by lia.
Qed.

Lemma PGROUNDDOWN_eq a : 0 <= a < 2 ^ 32 -> PGROUNDDOWN a = a - a mod 4096.
Proof. intros. unfold PGROUNDDOWN, PGSIZE. by apply (land_high_mask a 12). Qed.

Lemma PGROUNDUP_eq a : 0 <= a < 2 ^ 32 - 4095 ->
  PGROUNDUP a = (a + 4095) - (a + 4095) mod 4096.
Proof.
  intros. unfold PGROUNDUP, PGSIZE. replace (a + 4096 - 1) with (a + 4095) by lia.
  rewrite (u32_small (a + 4095)) by lia. apply (land_high_mask _ 12); lia.
Qed.

Lemma PTE_ADDR_eq pte : 0 <= pte < 2 ^ 32 -> PTE_ADDR pte = pte - pte mod 4096.
Proof. intros. unfold PTE_ADDR. by apply (land_high_mask pte 12). Qed.

Lemma PTE_FLAGS_eq pte : PTE_FLAGS pte = pte mod 4096.
Proof. unfold PTE_FLAGS. by apply (land_ones_mod pte 12). Qed.

Lemma PDX_range va : 0 <= PDX va < 1024.
Proof. rewrite PDX_eq. zlia. Qed.
Lemma PTX_range va : 0 <= PTX va < 1024.
Proof. rewrite PTX_eq. zlia. Qed.

(** A page-aligned address is determined by its two indices. *)
Lemma PDX_PTX_inj a b :
  0 <= a < 2 ^ 32 -> 0 <= b < 2 ^ 32 -> a mod 4096 = 0 -> b mod 4096 = 0 ->
  PDX a = PDX b -> PTX a = PTX b -> a = b.
Proof. rewrite !PDX_eq, !PTX_eq. intros. zlia. Qed.

(** [PGADDR (PDX a + 1) 0 0] is the start of the next 4 MB region, wrapping
    to 0 after the last one. *)
Lemma PGADDR_next a : 0 <= a < 2 ^ 32 ->
  PGADDR (PDX a + 1) 0 0 = u32 ((a / 2 ^ 22 + 1) * 2 ^ 22).
Proof.
  intros. unfold PGADDR, PDXSHIFT, PTXSHIFT.
  rewrite Z.shiftl_0_l, !Z.lor_0_r, Z.shiftl_mul_pow2 by lia.
  rewrite PDX_eq, (Z.mod_small (a / 2 ^ 22) 1024) by zlia. done.
Qed.

Lemma V2P_P2V a : 0 <= a < 2 ^ 32 -> V2P (P2V a) = a.
Proof. unfold V2P, P2V. intros. klia. Qed.
Lemma P2V_V2P a : 0 <= a < 2 ^ 32 -> P2V (V2P a) = a.
Proof. unfold V2P, P2V. intros. klia. Qed.

(** A page table entry is a frame address with flag bits in the low 12 bits. *)
Lemma pte_lor pa flags :
  0 <= pa < 2 ^ 32 -> pa mod 4096 = 0 -> 0 <= flags < 4096 ->
  Z.lor pa flags = pa + flags.
Proof. intros. by apply (lor_disjoint_add pa flags 12). Qed.

(** ** Byte memory

    Memory is addressed by kernel virtual addresses: physical RAM is mapped
    at [KERNBASE], so a frame at physical address [pa] is read and written at
    [P2V pa]. *)
Definition memory : Type := Z -> Z.

Definition load8 (m : memory) (a : Z) : Z := u8 (m a).
Definition store8 (m : memory) (a v : Z) : memory :=
  fun x => if x =? a then u8 v else m x.

(** Little-endian 32-bit accesses. *)
Definition load32 (m : memory) (a : Z) : Z :=
  load8 m a + 2 ^ 8 * load8 m (a + 1) + 2 ^ 16 * load8 m (a + 2) + 2 ^ 24 * load8 m (a + 3).
Definition store32 (m : memory) (a v : Z) : memory :=
  store8 (store8 (store8 (store8 m a v) (a + 1) (Z.shiftr v 8)) (a + 2) (Z.shiftr v 16))
    (a + 3) (Z.shiftr v 24).

(** The string instructions: [rep stosb] and [rep stosl]. *)
Definition stosb (m : memory) (addr data cnt : Z) : memory :=
  fun x => if (addr <=? x) && (x <? addr + cnt) then u8 data else m x.
Definition stosl (m : memory) (addr data cnt : Z) : memory :=
  fun x => if (addr <=? x) && (x <? addr + 4 * cnt)
           then u8 (Z.shiftr data (8 * ((x - addr) mod 4))) else m x.

(** ** Laws of loads and stores *)
Definition agree_on (P : Z -> Prop) (m m' : memory) : Prop := forall a, P a -> m' a = m a.

Lemma load8_range m a : 0 <= load8 m a < 256.
Proof. apply u8_range. Qed.

Lemma load32_range m a : 0 <= load32 m a < 2 ^ 32.
Proof.
  unfold load32. pose proof (load8_range m a). pose proof (load8_range m (a + 1)).
  pose proof (load8_range m (a + 2)). pose proof (load8_range m (a + 3)). lia.
Qed.

Lemma store8_eq m a v : store8 m a v a = u8 v.
Proof. unfold store8. by rewrite Z.eqb_refl. Qed.
Lemma store8_ne m a v x : x <> a -> store8 m a v x = m x.
Proof. intros. unfold store8. by destruct (Z.eqb_spec x a). Qed.

Lemma load32_agree m m' a :
  (forall x, a <= x < a + 4 -> m' x = m x) -> load32 m' a = load32 m a.
Proof. intros H. unfold load32, load8. by rewrite !H by lia. Qed.

Lemma store32_out m a v x : (x < a \/ a + 4 <= x) -> store32 m a v x = m x.
Proof. intros. unfold store32. by rewrite !store8_ne by lia. Qed.

Lemma load32_store32_eq m a v : load32 (store32 m a v) a = u32 v.
Proof.
  unfold load32, store32, load8.
  rewrite !(store8_ne _ (a + 3)), !(store8_ne _ (a + 2)), !(store8_ne _ (a + 1)) by lia.
  rewrite !store8_eq, !Z.shiftr_div_pow2 by lia. unfold u8, u32.
  rewrite !Z.mod_mod by lia. rewrite pow2_32, pow2_8, pow2_16.
  change (2 ^ 24) with 16777216. zlia.
Qed.

Lemma load32_store32_ne m a b v : (b + 4 <= a \/ a + 4 <= b) ->
  load32 (store32 m a v) b = load32 m b.
Proof. intros. apply load32_agree. intros. apply store32_out. lia. Qed.

Lemma stosl_stosb_byte m addr c cnt x : 0 <= cnt ->
  stosl m addr (Z.lor (Z.lor (Z.lor (Z.shiftl (Z.land c 255) 24) (Z.shiftl (Z.land c 255) 16))
                  (Z.shiftl (Z.land c 255) 8)) (Z.land c 255)) cnt x
  = stosb m addr c (4 * cnt) x.
Proof.
  intros. unfold stosl, stosb.
  destruct ((addr <=? x) && (x <? addr + 4 * cnt)); [|done].
  change 255 with (2 ^ 8 - 1). rewrite land_ones_mod by lia. fold (u8 c).
  pose proof (u8_range c). set (b := u8 c) in *.
  assert (Z.lor (Z.lor (Z.lor (Z.shiftl b 24) (Z.shiftl b 16)) (Z.shiftl b 8)) b
          = b * 16777216 + b * 65536 + b * 256 + b) as ->.
  { rewrite !Z.shiftl_mul_pow2 by lia.
    rewrite (lor_disjoint_add (b * 2 ^ 24) _ 24) by zlia.
    rewrite (lor_disjoint_add (b * 2 ^ 24 + b * 2 ^ 16) _ 16) by zlia.
    rewrite (lor_disjoint_add _ b 8) by zlia. lia. }
  rewrite Z.shiftr_div_pow2 by zlia.
  assert ((x - addr) mod 4 = 0 \/ (x - addr) mod 4 = 1 \/ (x - addr) mod 4 = 2
          \/ (x - addr) mod 4 = 3) as [->|[->|[->| ->]]] by zlia;
    unfold u8 at 1;
    [change (2 ^ (8 * 0)) with 1 | change (2 ^ (8 * 1)) with 256
    |change (2 ^ (8 * 2)) with 65536 | change (2 ^ (8 * 3)) with 16777216];
    change (2 ^ 8) with 256; zlia.
Qed.
