(* ===== verification/Segments.v ===== *)
(** * Segment and gate descriptors ([mmu.h]), the tables of [seginit] and [tvinit]

    The descriptors are records of the bit fields of [struct segdesc] and
    [struct gatedesc], packed into the 64-bit words the processor reads.  The
    theorems decode the packed words as the processor does. *)
From Stdlib Require Import ZArith Lia Bool.
From stdpp Require Import base list.
From S2P Require Import Prelude Machine.

Definition SEG_KCODE : Z := 1.
Definition SEG_KDATA : Z := 2.
Definition SEG_UCODE : Z := 3.
Definition SEG_UDATA : Z := 4.
Definition SEG_TSS : Z := 5.
Definition DPL_USER : Z := 3.
Definition STA_X : Z := 0x8.
Definition STA_W : Z := 0x2.
Definition STA_R : Z := 0x2.
Definition STS_T32A : Z := 0x9.
Definition STS_IG32 : Z := 0xE.
Definition STS_TG32 : Z := 0xF.
Definition FL_IF : Z := 0x200.

(** Bit fields in declaration order; an assignment keeps the field's width. *)
Record segdesc : Type := mk_seg {
  lim_15_0 : Z; base_15_0 : Z; base_23_16 : Z; sd_type : Z; sd_s : Z; sd_dpl : Z; sd_p : Z;
  lim_19_16 : Z; sd_avl : Z; sd_rsv1 : Z; sd_db : Z; sd_g : Z; base_31_24 : Z;
}.

Definition field (w v : Z) : Z := v mod 2 ^ w.

Definition SEG (type base lim dpl : Z) : segdesc :=
  mk_seg (field 16 (Z.land (Z.shiftr lim 12) 0xffff)) (field 16 (Z.land base 0xffff))
    (field 8 (Z.land (Z.shiftr base 16) 0xff)) (field 4 type) 1 (field 2 dpl) 1
    (field 4 (Z.shiftr lim 28)) 0 0 1 1 (field 8 (Z.shiftr base 24)).
Definition SEG16 (type base lim dpl : Z) : segdesc :=
  mk_seg (field 16 (Z.land lim 0xffff)) (field 16 (Z.land base 0xffff))
    (field 8 (Z.land (Z.shiftr base 16) 0xff)) (field 4 type) 1 (field 2 dpl) 1
    (field 4 (Z.shiftr lim 16)) 0 0 1 0 (field 8 (Z.shiftr base 24)).
Definition set_system (d : segdesc) : segdesc :=
  mk_seg (lim_15_0 d) (base_15_0 d) (base_23_16 d) (sd_type d) 0 (sd_dpl d) (sd_p d)
    (lim_19_16 d) (sd_avl d) (sd_rsv1 d) (sd_db d) (sd_g d) (base_31_24 d).

(** The two words of the descriptor in memory, low bits first. *)
Definition seg_lo (d : segdesc) : Z := lim_15_0 d + Z.shiftl (base_15_0 d) 16.
Definition seg_hi (d : segdesc) : Z :=
  base_23_16 d + Z.shiftl (sd_type d) 8 + Z.shiftl (sd_s d) 12 + Z.shiftl (sd_dpl d) 13 + Z.shiftl (sd_p d) 15
  + Z.shiftl (lim_19_16 d) 16 + Z.shiftl (sd_avl d) 20 + Z.shiftl (sd_rsv1 d) 21 + Z.shiftl (sd_db d) 22
  + Z.shiftl (sd_g d) 23 + Z.shiftl (base_31_24 d) 24.

(** What the processor makes of the words. *)
Definition hw_bits (w lo n : Z) : Z := Z.land (Z.shiftr w lo) (2 ^ n - 1).
Definition hw_base (lo hi : Z) : Z := hw_bits lo 16 16 + hw_bits hi 0 8 * 2 ^ 16 + hw_bits hi 24 8 * 2 ^ 24.
Definition hw_limit (lo hi : Z) : Z :=
  let raw := hw_bits lo 0 16 + hw_bits hi 16 4 * 2 ^ 16 in
  if hw_bits hi 23 1 =? 1 then raw * 4096 + 4095 else raw.
Definition hw_type (hi : Z) : Z := hw_bits hi 8 4.
Definition hw_system (hi : Z) : bool := hw_bits hi 12 1 =? 0.
Definition hw_dpl (hi : Z) : Z := hw_bits hi 13 2.
Definition hw_present (hi : Z) : bool := hw_bits hi 15 1 =? 1.

(** The table [seginit] loads, entry 0 being the null descriptor. *)
Definition null_seg : segdesc := mk_seg 0 0 0 0 0 0 0 0 0 0 0 0 0.
Definition seginit_gdt (tss : segdesc) : list segdesc :=
  [null_seg; SEG (Z.lor STA_X STA_R) 0 0xffffffff 0; SEG STA_W 0 0xffffffff 0;
   SEG (Z.lor STA_X STA_R) 0 0xffffffff DPL_USER; SEG STA_W 0 0xffffffff DPL_USER; tss].
(** The task-state descriptor of [switchuvm], for a task state at [ts] of 104 bytes. *)
Definition tss_desc (ts : Z) : segdesc := set_system (SEG16 STS_T32A ts (104 - 1) 0).

(** ** Gates *)
Record gatedesc : Type := mk_gate {
  off_15_0 : Z; gd_cs : Z; gd_args : Z; gd_rsv1 : Z; gd_type : Z; gd_s : Z; gd_dpl : Z; gd_p : Z; off_31_16 : Z;
}.
Definition SETGATE (istrap : bool) (sel off d : Z) : gatedesc :=
  mk_gate (field 16 (Z.land off 0xffff)) (field 16 sel) 0 0 (field 4 (if istrap then STS_TG32 else STS_IG32)) 0
    (field 2 d) 1 (field 16 (Z.shiftr off 16)).
Definition gate_lo (g : gatedesc) : Z := off_15_0 g + Z.shiftl (gd_cs g) 16.
Definition gate_hi (g : gatedesc) : Z :=
  gd_args g + Z.shiftl (gd_rsv1 g) 5 + Z.shiftl (gd_type g) 8 + Z.shiftl (gd_s g) 12 + Z.shiftl (gd_dpl g) 13
  + Z.shiftl (gd_p g) 15 + Z.shiftl (off_31_16 g) 16.
Definition hw_offset (lo hi : Z) : Z := hw_bits lo 0 16 + hw_bits hi 16 16 * 2 ^ 16.
Definition hw_selector (lo : Z) : Z := hw_bits lo 16 16.

Definition T_SYSCALL : Z := 64.
(** [tvinit]: interrupt gates to the vectors, and the trap gate user code may use. *)
Definition tvinit (vectors : list Z) : list gatedesc :=
  imap (fun i v => if Z.of_nat i =? T_SYSCALL then SETGATE true (Z.shiftl SEG_KCODE 3) v DPL_USER
                   else SETGATE false (Z.shiftl SEG_KCODE 3) v 0) vectors.

(** ** Decoding *)
Lemma hw_bits_eq w lo n : 0 <= lo -> 0 <= n -> hw_bits w lo n = (w / 2 ^ lo) mod 2 ^ n.
Proof. intros. unfold hw_bits. by rewrite land_ones_mod, Z.shiftr_div_pow2 by lia. Qed.

Ltac seg_arith :=
  cbn [lim_15_0 base_15_0 base_23_16 sd_type sd_s sd_dpl sd_p lim_19_16 sd_avl sd_rsv1 sd_db sd_g base_31_24
       off_15_0 gd_cs gd_args gd_rsv1 gd_type gd_s gd_dpl gd_p off_31_16];
  rewrite ?hw_bits_eq by lia; rewrite ?Z.shiftl_mul_pow2 by lia;
  unfold field; change 0xffff with (2 ^ 16 - 1); change 0xff with (2 ^ 8 - 1);
  rewrite ?land_ones_mod by lia; rewrite ?Z.shiftr_div_pow2 by lia;
  change (2 ^ 0) with 1; change (2 ^ 1) with 2; change (2 ^ 2) with 4; change (2 ^ 4) with 16; change (2 ^ 5) with 32;
  change (2 ^ 8) with 256; change (2 ^ 12) with 4096; change (2 ^ 13) with 8192; change (2 ^ 15) with 32768;
  change (2 ^ 16) with 65536; change (2 ^ 20) with 1048576; change (2 ^ 21) with 2097152; change (2 ^ 22) with 4194304;
  change (2 ^ 23) with 8388608; change (2 ^ 24) with 16777216; change (2 ^ 28) with 268435456.

(** What the processor reads off a descriptor. *)
Definition decodes (d : segdesc) (base limit type dpl : Z) (system : bool) : Prop :=
  hw_base (seg_lo d) (seg_hi d) = base /\ hw_limit (seg_lo d) (seg_hi d) = limit /\
  hw_type (seg_hi d) = type /\ hw_dpl (seg_hi d) = dpl /\ hw_present (seg_hi d) = true /\
  hw_system (seg_hi d) = system.

Ltac decode := unfold hw_base, hw_limit, hw_type, hw_dpl, hw_present, hw_system, hw_offset, hw_selector,
  seg_lo, seg_hi, gate_lo, gate_hi; seg_arith.

Lemma seg_decode type base lim dpl : 0 <= type < 16 -> 0 <= base < 2 ^ 32 -> 0 <= lim < 2 ^ 32 -> 0 <= dpl < 4 ->
  decodes (SEG type base lim dpl) base (lim / 4096 * 4096 + 4095) type dpl false.
Proof.
  intros Ht Hb Hl Hd. unfold SEG. rewrite pow2_32 in *. split_and!; decode; try zlia.
  rewrite (proj2 (Z.eqb_eq _ 1)) by zlia. zlia.
Qed.

Lemma tss_decode ts : 0 <= ts < 2 ^ 32 -> decodes (tss_desc ts) ts 103 STS_T32A 0 true.
Proof.
  intros Hb. unfold tss_desc, SEG16, set_system, STS_T32A. rewrite pow2_32 in *.
  split_and!; decode; try zlia.
  rewrite (proj2 (Z.eqb_neq _ 1)) by zlia. zlia.
Qed.

Lemma gate_decode istrap sel off d : 0 <= sel < 2 ^ 16 -> 0 <= off < 2 ^ 32 -> 0 <= d < 4 ->
  let g := SETGATE istrap sel off d in
  hw_offset (gate_lo g) (gate_hi g) = off /\ hw_selector (gate_lo g) = sel /\ hw_dpl (gate_hi g) = d /\
  hw_type (gate_hi g) = (if istrap then STS_TG32 else STS_IG32) /\ hw_present (gate_hi g) = true /\
  hw_system (gate_hi g) = true.
Proof.
  intros Hs Ho Hd g. unfold g, SETGATE, STS_TG32, STS_IG32. rewrite pow2_32, pow2_16 in *.
  assert (0 <= (if istrap then 15 else 14) < 16) as Ht by (destruct istrap; lia).
  revert Ht. generalize (if istrap then 15 else 14). intros t Ht. split_and!; decode; zlia.
Qed.

(** The tables the kernel loads say what [mmu.h] and [trap.c] mean.  For
    any task state and any 256 vectors: the kernel and user code and data
    segments are flat, the user ones at privilege 3; the task-state descriptor
    is a system segment of 104 bytes at the task state; every gate leads to
    its vector in the kernel code segment, and only the system-call gate can
    be used from user code and leaves interrupts enabled. *)
Theorem descriptor_tables (ts : Z) (vectors : list Z) :
  0 <= ts < 2 ^ 32 -> Forall is_u32 vectors ->
  (exists kc kd uc ud t, seginit_gdt (tss_desc ts) = [null_seg; kc; kd; uc; ud; t] /\
     decodes kc 0 0xffffffff (Z.lor STA_X STA_R) 0 false /\ decodes kd 0 0xffffffff STA_W 0 false /\
     decodes uc 0 0xffffffff (Z.lor STA_X STA_R) DPL_USER false /\ decodes ud 0 0xffffffff STA_W DPL_USER false /\
     decodes t ts 103 STS_T32A 0 true) /\
  (forall i v, vectors !! i = Some v -> exists g, tvinit vectors !! i = Some g /\
     hw_offset (gate_lo g) (gate_hi g) = v /\ hw_selector (gate_lo g) = SEG_KCODE * 8 /\
     hw_present (gate_hi g) = true /\
     hw_dpl (gate_hi g) = (if Z.of_nat i =? T_SYSCALL then DPL_USER else 0) /\
     hw_type (gate_hi g) = (if Z.of_nat i =? T_SYSCALL then STS_TG32 else STS_IG32)).
Proof.
  intros Hts Hv. split.
  - eexists _, _, _, _, _. split; [reflexivity|].
    split_and!; [apply seg_decode; vm_compute; split; congruence..|by apply tss_decode].
  - intros i v Hi. pose proof (Forall_lookup_1 _ _ _ _ Hv Hi) as Hr. unfold tvinit. rewrite list_lookup_imap, Hi. simpl.
    eexists. split; [reflexivity|].
    replace (if Z.of_nat i =? T_SYSCALL then _ else _) with (SETGATE (Z.of_nat i =? T_SYSCALL) (Z.shiftl SEG_KCODE 3) v
      (if Z.of_nat i =? T_SYSCALL then DPL_USER else 0)) by (by destruct (Z.of_nat i =? T_SYSCALL)).
    destruct (gate_decode (Z.of_nat i =? T_SYSCALL) (Z.shiftl SEG_KCODE 3) v
      (if Z.of_nat i =? T_SYSCALL then DPL_USER else 0)) as (H1 & H2 & H3 & H4 & H5 & _);
      [by vm_compute|done|by destruct (Z.of_nat i =? T_SYSCALL); vm_compute|].
    split_and!; [done|by rewrite H2|done..].
Qed.

Lemma descriptor_tables_witness :
  exists g, tvinit (replicate 256 0x80105000) !! 64%nat = Some g /\ hw_dpl (gate_hi g) = 3.
Proof.
  destruct (descriptor_tables 0x80112780 (replicate 256 0x80105000)) as [_ H].
  - rewrite pow2_32. lia.
  - apply Forall_replicate. unfold is_u32. rewrite pow2_32. lia.
  - destruct (H 64%nat 0x80105000) as (g & Hg & _ & _ & _ & Hd & _); [reflexivity|]. by exists g.
Defined.
