(* ===== verification/Cstring.v ===== *)
(** * [string.c]: memory and string routines

    The memory routines work on the byte memory of [Machine]; the string
    routines work on [list Z], the bytes readable from a pointer up to the end
    of the object it points into, and return [None] where the C code would
    read or write past that end.  [memmove] is shown to be a simultaneous copy
    also when source and destination overlap, [memset] to fill bytes whichever
    instruction it uses, and the string routines are related to C strings. *)
From Stdlib Require Import ZArith Lia Bool.
From stdpp Require Import base list.
From S2P Require Import Prelude Machine.

(** ** Memory routines *)
Definition memset (m : memory) (dst c n : Z) : memory :=
  if (dst mod 4 =? 0) && (n mod 4 =? 0) then
    let c := Z.land c 0xFF in
    stosl m dst (Z.lor (Z.lor (Z.lor (Z.shiftl c 24) (Z.shiftl c 16)) (Z.shiftl c 8)) c) (n / 4)
  else stosb m dst c n.

Fixpoint copy_forward (n : nat) (m : memory) (d s : Z) : memory :=
  match n with
  | O => m
  | S n' => copy_forward n' (store8 m d (load8 m s)) (d + 1) (s + 1)
  end.

Fixpoint copy_backward (n : nat) (m : memory) (d s : Z) : memory :=
  match n with
  | O => m
  | S n' => copy_backward n' (store8 m (d - 1) (load8 m (s - 1))) (d - 1) (s - 1)
  end.

Definition memmove (m : memory) (dst src n : Z) : memory :=
  if (src <? dst) && (dst <? src + n)
  then copy_backward (Z.to_nat n) m (dst + n) (src + n)
  else copy_forward (Z.to_nat n) m dst src.

(** ** String routines *)
Fixpoint memcmp (v1 v2 : list Z) (n : nat) {struct n} : option Z :=
  match n with
  | O => Some 0
  | S n' =>
      match v1, v2 with
      | a :: s1, b :: s2 => if negb (a =? b) then Some (a - b) else memcmp s1 s2 n'
      | _, _ => None
      end
  end.

Fixpoint strncmp (p q : list Z) (n : nat) {struct n} : option Z :=
  match n with
  | O => Some 0
  | S n' =>
      match p, q with
      | a :: p', b :: q' =>
          if negb (a =? 0) && (a =? b) then strncmp p' q' n' else Some (u8 a - u8 b)
      | _, _ => None
      end
  end.

Fixpoint strlen (s : list Z) : option Z :=
  match s with
  | [] => None
  | c :: s' => if c =? 0 then Some 0 else option_map Z.succ (strlen s')
  end.

(** [memmove] between two distinct arrays. *)
Fixpoint memmove_arr (d s : list Z) (n : nat) {struct n} : option (list Z) :=
  match n with
  | O => Some d
  | S n' =>
      match d, s with
      | _ :: d', c :: s' => option_map (cons c) (memmove_arr d' s' n')
      | _, _ => None
      end
  end.

(** The second loop of [strncpy]. *)
Fixpoint pad_zero (s : list Z) (n : nat) {struct n} : option (list Z) :=
  match n with
  | O => Some s
  | S n' => match s with _ :: s' => option_map (cons 0) (pad_zero s' n') | [] => None end
  end.

Fixpoint strncpy (s t : list Z) (n : nat) {struct n} : option (list Z) :=
  match n with
  | O => Some s
  | S n' =>
      match s, t with
      | _ :: s', c :: t' =>
          if negb (c =? 0) then option_map (cons c) (strncpy s' t' n')
          else option_map (cons c) (pad_zero s' n')
      | _, _ => None
      end
  end.

Definition put_nul (s : list Z) : option (list Z) :=
  match s with _ :: s' => Some (0 :: s') | [] => None end.

(** The loop of [safestrcpy]; [k] is the value of [n] after [--n]. *)
Fixpoint safestrcpy_loop (s t : list Z) (k : nat) {struct k} : option (list Z) :=
  match k with
  | O => put_nul s
  | S k' =>
      match s, t with
      | _ :: s', c :: t' =>
          if negb (c =? 0) then option_map (cons c) (safestrcpy_loop s' t' k')
          else option_map (cons c) (put_nul s')
      | _, _ => None
      end
  end.

Definition safestrcpy (s t : list Z) (n : Z) : option (list Z) :=
  if n <=? 0 then Some s else safestrcpy_loop s t (Z.to_nat (n - 1)).

(** ** Specifications of the memory routines *)
Lemma memset_eq m dst c n x : 0 <= n ->
  memset m dst c n x = if (dst <=? x) && (x <? dst + n) then u8 c else m x.
Proof.
  intros Hn. unfold memset.
  destruct (Z.eqb_spec (dst mod 4) 0), (Z.eqb_spec (n mod 4) 0); simpl; try done.
  change 0xFF with 255. rewrite stosl_stosb_byte by zlia.
  unfold stosb. by replace (4 * (n / 4)) with n by zlia.
Qed.

Lemma copy_forward_eq n : forall m d s x,
  d <= s \/ s + Z.of_nat n <= d ->
  copy_forward n m d s x =
    if (d <=? x) && (x <? d + Z.of_nat n) then load8 m (s + (x - d)) else m x.
Proof.
  induction n as [|n IH]; intros m d s x Hov; simpl.
  { destruct (Z.leb_spec d x), (Z.ltb_spec x (d + Z.of_nat 0)); simpl; try done; lia. }
  rewrite IH by lia.
  destruct (Z.leb_spec (d + 1) x), (Z.ltb_spec x (d + 1 + Z.of_nat n)),
    (Z.leb_spec d x), (Z.ltb_spec x (d + Z.of_nat (S n))); simpl; try lia.
  - unfold load8. rewrite store8_ne by lia. by replace (s + 1 + (x - (d + 1))) with (s + (x - d)) by lia.
  - by rewrite store8_ne by lia.
  - replace x with d by lia. rewrite store8_eq, Z.sub_diag, Z.add_0_r.
    apply u8_small, load8_range.
  - by rewrite store8_ne by lia.
Qed.

Lemma copy_backward_eq n : forall m d s x,
  s <= d ->
  copy_backward n m d s x =
    if (d - Z.of_nat n <=? x) && (x <? d) then load8 m (s + (x - d)) else m x.
Proof.
  induction n as [|n IH]; intros m d s x Hov; simpl.
  { destruct (Z.leb_spec (d - Z.of_nat 0) x), (Z.ltb_spec x d); simpl; try done; lia. }
  rewrite IH by lia.
  destruct (Z.leb_spec (d - 1 - Z.of_nat n) x), (Z.ltb_spec x (d - 1)),
    (Z.leb_spec (d - Z.of_nat (S n)) x), (Z.ltb_spec x d); simpl; try lia.
  - unfold load8. rewrite store8_ne by lia. by replace (s - 1 + (x - (d - 1))) with (s + (x - d)) by lia.
  - replace x with (d - 1) by lia. rewrite store8_eq.
    replace (s + (d - 1 - d)) with (s - 1) by lia. apply u8_small, load8_range.
  - by rewrite store8_ne by lia.
  - by rewrite store8_ne by lia.
Qed.

Lemma memmove_eq m dst src n x : 0 <= n ->
  memmove m dst src n x =
    if (dst <=? x) && (x <? dst + n) then load8 m (src + (x - dst)) else m x.
Proof.
  intros Hn. unfold memmove.
  destruct (Z.ltb_spec src dst), (Z.ltb_spec dst (src + n)); simpl.
  - rewrite copy_backward_eq by lia. rewrite Z2Nat.id by done.
    replace (dst + n - n) with dst by lia.
    by replace (src + n + (x - (dst + n))) with (src + (x - dst)) by lia.
  - rewrite copy_forward_eq by lia. by rewrite Z2Nat.id.
  - rewrite copy_forward_eq by lia. by rewrite Z2Nat.id.
  - rewrite copy_forward_eq by lia. by rewrite Z2Nat.id.
Qed.

(** ** C strings *)

(** The C string held in the first [n] bytes: what precedes the first NUL. *)
Fixpoint cstr (n : nat) (l : list Z) : list Z :=
  match n, l with
  | S n', c :: l' => if c =? 0 then [] else c :: cstr n' l'
  | _, _ => []
  end.

Definition bytes (l : list Z) : Prop := Forall (fun c => 0 <= c < 256) l.

Lemma strncmp_Some_0 n : forall p q, bytes p -> bytes q ->
  strncmp p q n = Some 0 -> cstr n p = cstr n q.
Proof.
  induction n as [|n IH]; intros p q Hp Hq; [done|].
  destruct p as [|a p], q as [|b q]; simpl; try done.
  apply Forall_cons in Hp as [Ha Hp], Hq as [Hb Hq].
  destruct (Z.eqb_spec a 0) as [->|Ha0]; simpl.
  - intros [= H]. rewrite !u8_small in H by lia. by replace b with 0 by lia.
  - destruct (Z.eqb_spec a b) as [<-|Hab]; simpl.
    + rewrite (proj2 (Z.eqb_neq a 0)) by done. intros H. f_equal. eauto.
    + intros [= H]. rewrite !u8_small in H by lia. lia.
Qed.

(** Enough readable bytes: a NUL within the object or [n] bytes. *)
Fixpoint readable (n : nat) (l : list Z) : Prop :=
  match n, l with
  | O, _ => True
  | S _, [] => False
  | S n', c :: l' => c = 0 \/ readable n' l'
  end.

Lemma strncmp_defined n : forall p q, bytes p -> bytes q ->
  readable n p -> readable n q ->
  exists r, strncmp p q n = Some r /\ (r = 0 <-> cstr n p = cstr n q).
Proof.
  induction n as [|n IH]; intros p q Hp Hq Rp Rq; [by exists 0|].
  destruct p as [|a p], q as [|b q]; simpl in *; try done.
  apply Forall_cons in Hp as [Ha Hp], Hq as [Hb Hq].
  destruct (Z.eqb_spec a 0) as [->|Ha0]; simpl.
  - eexists; split; [done|]. rewrite !u8_small by lia.
    destruct (Z.eqb_spec b 0) as [->|]; split; [done|lia|lia|done].
  - destruct (Z.eqb_spec a b) as [<-|Hab]; simpl.
    + destruct (Z.eqb_spec a 0); [done|].
      destruct (IH p q Hp Hq) as (r & Hr & Hiff); [by destruct Rp|by destruct Rq|].
      exists r. split; [done|]. rewrite Hiff. split; [by intros ->|by intros [= ->]].
    + eexists; split; [done|]. rewrite !u8_small by lia.
      destruct (Z.eqb_spec b 0) as [->|]; split; [lia|done|lia|congruence].
Qed.

Lemma strlen_nonneg s n : strlen s = Some n -> 0 <= n.
Proof.
  revert n. induction s as [|c s IH]; simpl; [done|]. intros n.
  destruct (c =? 0); [by intros [= <-]|].
  destruct (strlen s) as [k|]; simpl; [|done]. intros [= <-]. specialize (IH k eq_refl). lia.
Qed.

Lemma strlen_spec s n : strlen s = Some n ->
  exists t, s = take (Z.to_nat n) s ++ 0 :: t /\ Forall (fun c => c <> 0) (take (Z.to_nat n) s).
Proof.
  revert n. induction s as [|c s IH]; simpl; [done|]. intros n.
  destruct (Z.eqb_spec c 0) as [->|Hc].
  - intros [= <-]. exists s. by simpl.
  - destruct (strlen s) as [k|] eqn:E; simpl; [|done]. intros [= <-].
    pose proof (strlen_nonneg _ _ E).
    destruct (IH k eq_refl) as (t & Ht & Hall). exists t.
    rewrite Z2Nat.inj_succ by lia. simpl. split; [by rewrite <- Ht|by constructor].
Qed.

Lemma memmove_arr_spec n : forall d s, (n <= length d)%nat -> (n <= length s)%nat ->
  memmove_arr d s n = Some (take n s ++ drop n d).
Proof.
  induction n as [|n IH]; intros d s Hd Hs; [done|].
  destruct d as [|x d], s as [|c s]; simpl in *; try lia. by rewrite IH by lia.
Qed.

(** [safestrcpy] stays inside an [n]-byte destination and leaves a C string
    there: the longest prefix of the source string that fits with its NUL. *)
Lemma safestrcpy_loop_spec k : forall s t, (k < length s)%nat -> readable k t ->
  exists s', safestrcpy_loop s t k = Some s' /\ length s' = length s /\
    cstr (S k) s' = cstr k t /\ drop (S k) s' = drop (S k) s.
Proof.
  induction k as [|k IH]; intros s t Hs Ht.
  { destruct s as [|x s]; simpl in *; [lia|]. by exists (0 :: s). }
  destruct s as [|x s]; [simpl in Hs; lia|]. destruct t as [|c t]; [done|].
  cbn [safestrcpy_loop length] in *. destruct (Z.eqb_spec c 0) as [->|Hc]; cbn [negb].
  - destruct s as [|y s]; [simpl in Hs; lia|]. by eexists.
  - destruct (IH s t) as (s' & Hs' & Hl & Hc' & Hd); [lia|by destruct Ht|].
    rewrite Hs'. eexists; split; [done|]. cbn [length drop].
    split_and!; [by rewrite Hl| |done].
    change (cstr (S (S k)) (c :: s')) with (if c =? 0 then [] else c :: cstr (S k) s').
    cbn [cstr]. rewrite (proj2 (Z.eqb_neq c 0)) by done. by f_equal.
Qed.

Lemma strncpy_spec n : forall s t, (n <= length s)%nat -> readable n t ->
  exists s', strncpy s t n = Some s' /\ length s' = length s /\
    cstr n s' = cstr n t /\ drop n s' = drop n s /\
    forall i, (length (cstr n t) <= i < n)%nat -> s' !! i = Some 0.
Proof.
  assert (forall k s, (k <= length s)%nat ->
    pad_zero s k = Some (replicate k 0 ++ drop k s)) as Hpad.
  { induction k as [|k IHk]; intros s Hk; [done|].
    destruct s; simpl in *; [lia|]. by rewrite IHk by lia. }
  induction n as [|n IH]; intros s t Hs Ht.
  { exists s. split_and!; try done. intros; simpl in *; lia. }
  destruct s as [|x s]; [simpl in Hs; lia|]. destruct t as [|c t]; [done|].
  cbn [strncpy cstr length drop] in *. destruct (Z.eqb_spec c 0) as [->|Hc]; cbn [negb].
  - rewrite Hpad by lia. eexists; split; [done|]. cbn [length cstr drop]. split_and!.
    + rewrite length_app, length_replicate, length_drop. lia.
    + done.
    + rewrite drop_app_le, drop_ge by (rewrite length_replicate; lia). done.
    + intros [|i] Hi; [done|]. cbn in Hi. rewrite lookup_cons_ne_0 by done. simpl.
      rewrite lookup_app_l by (rewrite length_replicate; lia).
      apply lookup_replicate_2. lia.
  - destruct (IH s t) as (s' & Hs' & Hl & Hc' & Hd & Hz); [lia|by destruct Ht|].
    rewrite Hs'. eexists; split; [done|]. cbn [length cstr drop].
    rewrite (proj2 (Z.eqb_neq c 0)) by done. split_and!; [lia|by f_equal|done|].
    intros [|i] Hi; cbn in Hi; [lia|]. apply Hz. lia.
Qed.

(** ** Properties *)

(** [memmove] copies as if the source were read before anything is
    written, whatever the overlap of the two ranges, and changes no byte
    outside the destination; [memset] fills the range with the low byte of
    [c], whether it stores words or bytes. *)
Theorem memmove_memset_spec (m : memory) (dst src c n x : Z) :
  0 <= n ->
  memmove m dst src n x =
    (if (dst <=? x) && (x <? dst + n) then load8 m (src + (x - dst)) else m x) /\
  memset m dst c n x = (if (dst <=? x) && (x <? dst + n) then u8 c else m x).
Proof. intros Hn. split; [by apply memmove_eq|by apply memset_eq]. Qed.

Lemma memmove_memset_spec_witness :
  memmove (fun x => x) 101 100 8 105 = 104 /\ memset (fun x => x) 100 258 8 105 = 2.
Proof. destruct (memmove_memset_spec (fun x => x) 101 100 258 8 105) as [-> _]; [lia|].
  destruct (memmove_memset_spec (fun x => x) 100 100 258 8 105) as [_ ->]; [lia|]. done.
Defined.

(** The bounded string routines stay inside their arguments.  [strncmp]
    reads no byte past a NUL or past [n] and returns 0 exactly when the two C
    strings agree within [n] bytes.  [safestrcpy] with a positive [n] writes
    only the first [n] bytes of the destination and leaves a NUL-terminated
    string there, the source string cut to [n - 1] bytes.  [strncpy] writes
    only [n] bytes, the source string padded with NULs. *)
Theorem bounded_strings (p q s t : list Z) (n : nat) (k : Z) :
  bytes p -> bytes q -> readable n p -> readable n q ->
  0 < k -> k <= Z.of_nat (length s) -> readable (Z.to_nat (k - 1)) t ->
  (n <= length s)%nat -> readable n t ->
  (exists r, strncmp p q n = Some r /\ (r = 0 <-> cstr n p = cstr n q)) /\
  (exists s', safestrcpy s t k = Some s' /\ length s' = length s /\
     cstr (Z.to_nat k) s' = cstr (Z.to_nat (k - 1)) t /\ drop (Z.to_nat k) s' = drop (Z.to_nat k) s) /\
  (exists s', strncpy s t n = Some s' /\ length s' = length s /\ cstr n s' = cstr n t /\
     drop n s' = drop n s /\ forall i, (length (cstr n t) <= i < n)%nat -> s' !! i = Some 0).
Proof.
  intros Hp Hq Rp Rq Hk1 Hk2 Rt Hn Rn. split_and!; [by apply strncmp_defined| |by apply strncpy_spec].
  unfold safestrcpy. rewrite (proj2 (Z.leb_gt _ _)) by lia.
  destruct (safestrcpy_loop_spec (Z.to_nat (k - 1)) s t) as (s' & H); [lia|done|].
  replace (S (Z.to_nat (k - 1))) with (Z.to_nat k) in H by lia. by exists s'.
Qed.

Lemma bounded_strings_witness :
  (exists r, strncmp [97; 0; 98] [97; 0; 99] 3 = Some r) /\
  exists s', safestrcpy [9; 9; 9; 9] [97; 98; 99; 100; 0] 3 = Some s' /\ length s' = 4%nat.
Proof.
  destruct (bounded_strings [97; 0; 98] [97; 0; 99] [9; 9; 9; 9] [97; 98; 99; 100; 0] 3 3) as
    ((r & Hr & _) & (s' & Hs & Hl & _) & _); try (simpl; tauto || lia).
  - repeat constructor; lia.
  - repeat constructor; lia.
  - split; [by exists r|by exists s'].
Defined.
