(* ===== verification/Kalloc.v ===== *)
(** * [kalloc.c]: the physical page allocator

    The free list is threaded through the free pages themselves: the first
    word of a free page holds the address of the next one.  The state is the
    [kmem] structure together with the byte memory.  The abstract
    specification is a stack of page addresses; [kalloc] pops it and [kfree]
    pushes on it, and both are shown to refine it. *)
From Stdlib Require Import ZArith Lia Bool.
From stdpp Require Import base list strings.
From S2P Require Import Prelude Machine Cstring.

(** ** Linker symbols

    [end] and [data] are placed by [kernel.ld]; the laws say where. *)
Class KernelImage : Type := { kernel_data : Z; kernel_end : Z }.

Class KernelImageOk (I : KernelImage) : Prop := {
  image_data : KERNLINK < kernel_data;
  image_order : kernel_data <= kernel_end;
  image_fits : kernel_end <= KERNBASE + 0x400000;
  image_data_aligned : kernel_data mod PGSIZE = 0;
}.

(** ** Spin locks as seen by straight-line kernel code

    One flag per lock, set while the running processor holds it: [acquire]
    panics on a lock the processor already holds and [release] on one it does
    not hold. *)
Definition acquire_flag {S} (get : S -> bool) (set : bool -> S -> S) : M S unit :=
  held <- gets get ;; if (held : bool) then panic "acquire" else modify (set true).
Definition release_flag {S} (get : S -> bool) (set : bool -> S -> S) : M S unit :=
  held <- gets get ;; if negb held then panic "release" else modify (set false).

(** ** State *)
Record kmem_t : Type := mk_kmem {
  kmem_lock : bool;
  use_lock : bool;
  freelist : Z;
  mem : memory;
}.

Definition set_kmem_lock (b : bool) (s : kmem_t) : kmem_t :=
  mk_kmem b (use_lock s) (freelist s) (mem s).
Definition set_use_lock (b : bool) (s : kmem_t) : kmem_t :=
  mk_kmem (kmem_lock s) b (freelist s) (mem s).
Definition set_freelist (p : Z) (s : kmem_t) : kmem_t :=
  mk_kmem (kmem_lock s) (use_lock s) p (mem s).
Definition set_mem (m : memory) (s : kmem_t) : kmem_t :=
  mk_kmem (kmem_lock s) (use_lock s) (freelist s) m.

Definition read32 (a : Z) : M kmem_t Z := gets (fun s => load32 (mem s) a).
Definition write32 (a v : Z) : M kmem_t unit := modify (fun s => set_mem (store32 (mem s) a v) s).
Definition memsetM (dst c n : Z) : M kmem_t unit :=
  modify (fun s => set_mem (memset (mem s) dst c n) s).
Definition memmoveM (dst src n : Z) : M kmem_t unit :=
  modify (fun s => set_mem (memmove (mem s) dst src n) s).

Section Kalloc.
Context {I : KernelImage}.

(** ** Operations *)
Definition kfree (v : Z) : M kmem_t unit :=
  if negb (v mod PGSIZE =? 0) || (v <? kernel_end) || (PHYSTOP <=? V2P v)
  then panic "kfree"
  else
    memsetM v 1 PGSIZE ;;;
    (l <- gets use_lock ;;
     when l (acquire_flag kmem_lock set_kmem_lock) ;;;
     (next <- gets freelist ;;
      write32 v next ;;;
      modify (set_freelist v) ;;;
      (l' <- gets use_lock ;;
       when l' (release_flag kmem_lock set_kmem_lock)))).

Definition kalloc : M kmem_t Z :=
  l <- gets use_lock ;;
  when l (acquire_flag kmem_lock set_kmem_lock) ;;;
  (r <- gets freelist ;;
   when (negb (r =? 0)) (next <- read32 r ;; modify (set_freelist next)) ;;;
   (l' <- gets use_lock ;;
    when l' (release_flag kmem_lock set_kmem_lock) ;;;
    ret r)).

Fixpoint freerange_loop (fuel : nat) (p vend : Z) : M kmem_t unit :=
  match fuel with
  | O => nofuel
  | S fuel' =>
      if p + PGSIZE <=? vend then kfree p ;;; freerange_loop fuel' (p + PGSIZE) vend
      else ret tt
  end.

Definition freerange (vstart vend : Z) : M kmem_t unit :=
  let p := PGROUNDUP vstart in
  freerange_loop (S (Z.to_nat ((vend - p) / PGSIZE))) p vend.

Definition kinit1 (vstart vend : Z) : M kmem_t unit :=
  modify (set_kmem_lock false) ;;; modify (set_use_lock false) ;;; freerange vstart vend.

Definition kinit2 (vstart vend : Z) : M kmem_t unit :=
  freerange vstart vend ;;; modify (set_use_lock true).

(** ** Abstract specification: a stack of free pages *)
Definition spec_kalloc (pool : list Z) : Z * list Z :=
  match pool with [] => (0, []) | p :: pool' => (p, pool') end.
Definition spec_kfree (v : Z) (pool : list Z) : list Z := v :: pool.

(** ** Representation invariant *)
Definition valid_page (v : Z) : Prop :=
  v mod PGSIZE = 0 /\ kernel_end <= v < KERNBASE + PHYSTOP.

Inductive fl_rep (m : memory) : Z -> list Z -> Prop :=
| fl_nil : fl_rep m 0 []
| fl_cons p l : p <> 0 -> fl_rep m (load32 m p) l -> fl_rep m p (p :: l).

Record kmem_inv (s : kmem_t) (fl : list Z) : Prop := {
  inv_unlocked : kmem_lock s = false;
  inv_list : fl_rep (mem s) (freelist s) fl;
  inv_valid : Forall valid_page fl;
  inv_nodup : NoDup fl;
}.

(** Memory may change anywhere but in the pages of [ps]. *)
Definition pages_kept (ps : list Z) (m m' : memory) : Prop :=
  forall p x, p ∈ ps -> p <= x < p + PGSIZE -> m' x = m x.

Context `{!KernelImageOk I}.

Lemma valid_page_bounds v : valid_page v ->
  v mod 4096 = 0 /\ 0x80100000 <= v < 0x8E000000.
Proof.
  intros [Ha Hb]. pose proof image_data. pose proof image_order. klia.
Qed.

Lemma valid_page_sep p q x : valid_page p -> valid_page q -> p <> q ->
  p <= x < p + PGSIZE -> x < q \/ q + PGSIZE <= x.
Proof.
  intros Hp%valid_page_bounds Hq%valid_page_bounds. klia.
Qed.

Lemma kfree_check v : valid_page v ->
  negb (v mod PGSIZE =? 0) || (v <? kernel_end) || (PHYSTOP <=? V2P v) = false.
Proof.
  intros Hv. pose proof (valid_page_bounds v Hv). destruct Hv as [Ha Hb].
  rewrite Ha, Z.eqb_refl. simpl.
  destruct (Z.ltb_spec v kernel_end); [lia|]. simpl.
  apply Z.leb_gt. unfold V2P. klia.
Qed.

Lemma valid_page_dec v : {valid_page v} + {~ valid_page v}.
Proof.
  destruct (Z.eq_dec (v mod PGSIZE) 0), (Z_le_dec kernel_end v),
    (Z_lt_dec v (KERNBASE + PHYSTOP)); [left; by split|right; unfold valid_page; lia..].
Qed.

Lemma kfree_check_bad v : 0 <= v < 2 ^ 32 -> ~ valid_page v ->
  negb (v mod PGSIZE =? 0) || (v <? kernel_end) || (PHYSTOP <=? V2P v) = true.
Proof.
  intros Hr Hv. pose proof image_data. pose proof image_order.
  destruct (Z.eqb_spec (v mod PGSIZE) 0) as [Ha|]; simpl; [|done].
  destruct (Z.ltb_spec v kernel_end); simpl; [done|].
  apply Z.leb_le. unfold V2P. unfold valid_page in Hv. klia.
Qed.

Lemma fl_rep_frame m m' h fl :
  fl_rep m h fl -> pages_kept fl m m' -> fl_rep m' h fl.
Proof.
  induction 1 as [|p l Hp Hrep IH]; intros Hk; constructor; [done|].
  rewrite (load32_agree m m').
  - apply IH. intros q x Hq. apply Hk. by right.
  - intros x Hx. apply (Hk p); [by left|]. klia.
Qed.

Lemma kmem_inv_write (k : kmem_t) fl (m' : memory) : kmem_inv k fl ->
  (forall q x, q ∈ fl -> q <= x < q + PGSIZE -> m' x = mem k x) -> kmem_inv (set_mem m' k) fl.
Proof.
  intros [H1 H2 H3 H4] Hm. constructor; [done| |done|done]. simpl.
  eapply fl_rep_frame; [exact H2|]. done.
Qed.

(** The list of free pages is what memory says. *)
Lemma fl_rep_unique m h fl fl' : fl_rep m h fl -> fl_rep m h fl' -> fl = fl'.
Proof.
  intros H. revert fl'. induction H as [|p l Hp H IH]; intros fl' H'; inversion H'; subst; try done. f_equal. by apply IH.
Qed.

Lemma fl_rep_nonzero m h fl : fl_rep m h fl -> Forall valid_page fl ->
  h = match fl with [] => 0 | p :: _ => p end.
Proof. by intros []. Qed.

(** ** Behaviour of the operations *)
Lemma unlock_lock s : kmem_lock s = false ->
  set_kmem_lock false (set_kmem_lock true s) = s.
Proof. destruct s. simpl. by intros ->. Qed.

Lemma kalloc_nil s : kmem_inv s [] -> kalloc s = Ok 0 s.
Proof.
  intros [Hl Hr _ _]. destruct s as [lk ul f m]; simpl in *. subst.
  inversion Hr; subst. by destruct ul.
Qed.

Lemma kalloc_cons s p fl : kmem_inv s (p :: fl) ->
  kalloc s = Ok p (set_freelist (load32 (mem s) p) s).
Proof.
  intros [Hl Hr _ _]. destruct s as [lk ul f m]; simpl in *. subst.
  inversion Hr; subst. unfold kalloc, bind, gets, when.
  destruct ul; simpl;
    by rewrite (proj2 (Z.eqb_neq p 0)) by done.
Qed.

Lemma kmem_inv_kalloc s p fl : kmem_inv s (p :: fl) ->
  kmem_inv (set_freelist (load32 (mem s) p) s) fl.
Proof.
  intros [Hl Hr Hv Hn]. inversion Hr; subst. apply Forall_cons in Hv as [? ?].
  apply NoDup_cons in Hn as [? ?]. by constructor.
Qed.

(** The memory after [kfree v] when the list head was [next]. *)
Definition kfree_mem (m : memory) (v next : Z) : memory :=
  store32 (memset m v 1 PGSIZE) v next.

Lemma kfree_ok s v : kmem_lock s = false -> valid_page v ->
  kfree v s = Ok tt (set_freelist v (set_mem (kfree_mem (mem s) v (freelist s)) s)).
Proof.
  intros Hl Hv. unfold kfree. rewrite kfree_check by done.
  destruct s as [lk ul f m]; simpl in *. subst. by destruct ul.
Qed.

Lemma kfree_mem_out m v next x : x < v \/ v + PGSIZE <= x ->
  kfree_mem m v next x = m x.
Proof.
  intros. unfold kfree_mem. rewrite store32_out by klia.
  rewrite memset_eq by klia.
  destruct (Z.leb_spec v x), (Z.ltb_spec x (v + PGSIZE)); simpl; try done; lia.
Qed.

Lemma kfree_mem_next m v next : is_u32 next -> load32 (kfree_mem m v next) v = next.
Proof. intros. unfold kfree_mem. by rewrite load32_store32_eq, u32_small. Qed.

Lemma kmem_inv_kfree s v fl : kmem_inv s fl -> valid_page v -> v ∉ fl ->
  kmem_inv (set_freelist v (set_mem (kfree_mem (mem s) v (freelist s)) s)) (v :: fl).
Proof.
  intros [Hl Hr Hv Hn] Hpv Hnin. constructor; simpl; [done| |by constructor|by constructor].
  pose proof (valid_page_bounds v Hpv) as Hb.
  constructor; [lia|].
  assert (is_u32 (freelist s)) as Hfl.
  { destruct fl as [|p fl']; inversion Hr; subst; [i32lia|].
    apply Forall_cons in Hv as [Hp _]. apply valid_page_bounds in Hp. i32lia. }
  rewrite kfree_mem_next by done.
  apply (fl_rep_frame (mem s)); [done|]. intros p x Hp Hx.
  apply kfree_mem_out, (valid_page_sep p v x); [|done| |done].
  - rewrite Forall_forall in Hv. by apply Hv.
  - by intros ->.
Qed.

Lemma kfree_panic s v : 0 <= v < 2 ^ 32 -> ~ valid_page v -> kfree v s = Panic "kfree" s.
Proof. intros. unfold kfree. by rewrite kfree_check_bad. Qed.

(** ** Refinement of the stack specification *)
Lemma wp_kalloc s fl (Q : Z -> kmem_t -> Prop) :
  kmem_inv s fl ->
  (forall s', kmem_inv s' (spec_kalloc fl).2 -> mem s' = mem s ->
     use_lock s' = use_lock s -> Q (spec_kalloc fl).1 s') ->
  wp kalloc Q s.
Proof.
  intros Hi HQ. destruct fl as [|p fl]; unfold wp.
  - rewrite kalloc_nil by done. by apply HQ.
  - rewrite (kalloc_cons s p fl) by done. apply HQ; [by eapply kmem_inv_kalloc|done..].
Qed.

Lemma wp_kfree s v fl (Q : unit -> kmem_t -> Prop) :
  kmem_inv s fl -> valid_page v -> v ∉ fl ->
  (forall s', kmem_inv s' (spec_kfree v fl) ->
     (forall x, x < v \/ v + PGSIZE <= x -> mem s' x = mem s x) ->
     use_lock s' = use_lock s -> Q tt s') ->
  wp (kfree v) Q s.
Proof.
  intros Hi Hv Hn HQ. unfold wp. rewrite kfree_ok by (done || apply Hi).
  apply HQ; [by apply kmem_inv_kfree| |done].
  intros. by apply kfree_mem_out.
Qed.

(** ** Building the free list at boot *)

(** The [n] consecutive pages starting at [p]. *)
Definition page_run (p : Z) (n : nat) : list Z :=
  (fun i => p + PGSIZE * Z.of_nat i) <$> seq 0 n.

Lemma elem_of_page_run p n q :
  q ∈ page_run p n <-> exists i : nat, (i < n)%nat /\ q = p + PGSIZE * Z.of_nat i.
Proof.
  unfold page_run. rewrite list_elem_of_fmap. split.
  - intros (i & -> & Hi%elem_of_seq). exists i. lia.
  - intros (i & Hi & ->). exists i. split; [done|]. apply elem_of_seq. lia.
Qed.

Lemma page_run_S p n : page_run p (S n) = p :: page_run (p + PGSIZE) n.
Proof.
  unfold page_run. cbn [seq]. rewrite fmap_cons. f_equal; [lia|].
  rewrite <- fmap_S_seq, <- list_fmap_compose. apply list_fmap_ext. intros. simpl. lia.
Qed.

Lemma wp_freerange_loop n : forall s p vend fl fuel (Q : unit -> kmem_t -> Prop),
  kmem_inv s fl -> (n < fuel)%nat ->
  (forall q, q ∈ page_run p n -> valid_page q /\ q ∉ fl) ->
  p + PGSIZE * Z.of_nat n <= vend < p + PGSIZE * Z.of_nat n + PGSIZE ->
  (forall s', kmem_inv s' (reverse (page_run p n) ++ fl) -> use_lock s' = use_lock s -> Q tt s') ->
  wp (freerange_loop fuel p vend) Q s.
Proof.
  induction n as [|n IH]; intros s p vend fl fuel Q Hi Hf Hrun Hend HQ;
    (destruct fuel as [|fuel]; [lia|]); simpl.
  - rewrite (proj2 (Z.leb_gt _ _)) by lia. by apply wp_ret, HQ.
  - rewrite page_run_S in *. rewrite (proj2 (Z.leb_le _ _)) by klia.
    destruct (Hrun p) as [Hv Hn]; [by left|].
    apply wp_bind, (wp_kfree s p fl); [done..|].
    intros s' Hi' _ Hul. apply (IH s' (p + PGSIZE) vend (p :: fl)); [done|lia| | |].
    + intros q Hq. destruct (Hrun q) as [Hvq Hnq]; [by right|].
      split; [done|]. rewrite not_elem_of_cons. split; [|done].
      apply elem_of_page_run in Hq as (i & _ & ->). klia.
    + klia.
    + intros s'' Hi'' Hul'. apply HQ; [|congruence].
      by rewrite reverse_cons, <- app_assoc.
Qed.

Lemma wp_freerange s fl vstart vend n (Q : unit -> kmem_t -> Prop) :
  kmem_inv s fl ->
  (forall q, q ∈ page_run (PGROUNDUP vstart) n -> valid_page q /\ q ∉ fl) ->
  PGROUNDUP vstart + PGSIZE * Z.of_nat n <= vend
    < PGROUNDUP vstart + PGSIZE * Z.of_nat n + PGSIZE ->
  (forall s', kmem_inv s' (reverse (page_run (PGROUNDUP vstart) n) ++ fl) ->
     use_lock s' = use_lock s -> Q tt s') ->
  wp (freerange vstart vend) Q s.
Proof.
  intros Hi Hrun Hend HQ. unfold freerange.
  eapply (wp_freerange_loop n); [done| |done|done|done].
  replace ((vend - PGROUNDUP vstart) / PGSIZE) with (Z.of_nat n) by klia. lia.
Qed.

(** The page-aligned runs of two adjacent ranges cover exactly the valid pages. *)
Definition boot_limit : Z := P2V (4 * 1024 * 1024).

Lemma boot_limit_eq : boot_limit = 0x80400000.
Proof. reflexivity. Qed.

Lemma kernel_end_roundup :
  PGROUNDUP kernel_end = kernel_end + 4095 - (kernel_end + 4095) mod 4096.
Proof.
  pose proof image_data. pose proof image_order. pose proof image_fits.
  apply PGROUNDUP_eq. klia.
Qed.

Lemma early_run_valid q :
  q ∈ page_run (PGROUNDUP kernel_end) (Z.to_nat ((boot_limit - PGROUNDUP kernel_end) / PGSIZE))
  <-> valid_page q /\ q < boot_limit.
Proof.
  pose proof image_data. pose proof image_order. pose proof image_fits.
  pose proof kernel_end_roundup as Hp0. set (p0 := PGROUNDUP kernel_end) in *. clearbody p0.
  rewrite boot_limit_eq, elem_of_page_run. unfold valid_page. split.
  - intros (i & Hi & ->). kconst. zlia.
  - intros [[Ha Hb] Hlt]. exists (Z.to_nat ((q - p0) / PGSIZE)). kconst. zlia.
Qed.

Lemma late_run_valid q :
  q ∈ page_run (PGROUNDUP boot_limit) (Z.to_nat ((P2V PHYSTOP - boot_limit) / PGSIZE))
  <-> valid_page q /\ boot_limit <= q.
Proof.
  pose proof image_data. pose proof image_order. pose proof image_fits.
  change (PGROUNDUP boot_limit) with 0x80400000. change (P2V PHYSTOP) with 0x8E000000.
  rewrite boot_limit_eq, elem_of_page_run. unfold valid_page. split.
  - intros (i & Hi & ->). kconst. zlia.
  - intros [[Ha Hb] Hlt]. exists (Z.to_nat ((q - 0x80400000) / PGSIZE)). kconst. zlia.
Qed.

Lemma wp_kinit1 s (Q : unit -> kmem_t -> Prop) :
  freelist s = 0 ->
  (forall s' fl, kmem_inv s' fl -> use_lock s' = false ->
     (forall q, q ∈ fl <-> valid_page q /\ q < boot_limit) -> Q tt s') ->
  wp (kinit1 kernel_end boot_limit) Q s.
Proof.
  intros Hf HQ. unfold kinit1.
  apply wp_bind, wp_modify, wp_bind, wp_modify.
  eapply (wp_freerange _ [] _ _ (Z.to_nat ((boot_limit - PGROUNDUP kernel_end) / PGSIZE))).
  - constructor; simpl; [done| |by constructor|by constructor]. rewrite Hf. constructor.
  - intros q Hq%early_run_valid. split; [tauto|]. apply not_elem_of_nil.
  - pose proof image_fits. rewrite kernel_end_roundup, boot_limit_eq. klia.
  - intros s' Hi Hul. eapply HQ; [done|done|]. intros q.
    by rewrite app_nil_r, elem_of_reverse, early_run_valid.
Qed.

Lemma wp_kinit2 s fl (Q : unit -> kmem_t -> Prop) :
  kmem_inv s fl -> (forall q, q ∈ fl -> q < boot_limit) ->
  (forall s' fl', kmem_inv s' fl' -> use_lock s' = true ->
     (forall q, q ∈ fl' <-> q ∈ fl \/ (valid_page q /\ boot_limit <= q)) -> Q tt s') ->
  wp (kinit2 boot_limit (P2V PHYSTOP)) Q s.
Proof.
  intros Hi Hlow HQ. unfold kinit2. apply wp_bind.
  eapply (wp_freerange s fl _ _ (Z.to_nat ((P2V PHYSTOP - boot_limit) / PGSIZE))); [done| | |].
  - intros q Hq%late_run_valid. split; [tauto|]. intros Hin%Hlow. lia.
  - rewrite boot_limit_eq. change (P2V PHYSTOP) with 0x8E000000.
    change (PGROUNDUP 0x80400000) with 0x80400000. klia.
  - intros s' Hi' Hul. apply wp_modify. eapply (HQ _ (reverse _ ++ fl)).
    + destruct Hi' as [? ? ? ?]. by constructor.
    + done.
    + intros q. rewrite elem_of_app, elem_of_reverse, late_run_valid. tauto.
Qed.

(** ** Properties *)

(** C32: [kalloc] pops the abstract stack of free pages and [kfree] pushes on
    it.  From a state that represents the stack [fl], [kalloc] returns the top
    page, or 0 when there is none, leaves memory alone and represents the rest
    of the stack; [kfree] of a valid page that is not free represents the
    stack with that page on top, fills the page behind the link word with 1
    bytes and changes no byte outside the page. *)
Theorem kalloc_kfree_refine (s : kmem_t) (fl : list Z) (v : Z) :
  kmem_inv s fl -> valid_page v -> v ∉ fl ->
  (exists s', kalloc s = Ok (spec_kalloc fl).1 s' /\
     kmem_inv s' (spec_kalloc fl).2 /\ mem s' = mem s) /\
  (exists s', kfree v s = Ok tt s' /\ kmem_inv s' (spec_kfree v fl) /\
     (forall x, v + 4 <= x < v + PGSIZE -> mem s' x = 1) /\
     (forall x, x < v \/ v + PGSIZE <= x -> mem s' x = mem s x)).
Proof.
  intros Hi Hv Hn. split.
  - assert (wp kalloc (fun r s' => r = (spec_kalloc fl).1 /\
      kmem_inv s' (spec_kalloc fl).2 /\ mem s' = mem s) s) as Hwp
      by (eapply wp_kalloc; eauto).
    apply wp_ok in Hwp as (r & s' & Hr & -> & ? & ?). eauto.
  - eexists. split; [by apply kfree_ok; [apply Hi|]|].
    split; [by apply kmem_inv_kfree|]. split; intros x Hx; simpl.
    + unfold kfree_mem. rewrite store32_out, memset_eq by klia.
      by rewrite (proj2 (Z.leb_le _ _)), (proj2 (Z.ltb_lt _ _)) by lia.
    + by apply kfree_mem_out.
Qed.

(** [kfree] stops the machine, leaving the state as it was, on every
    address that is not a page-aligned address between the end of the kernel
    image and the top of physical memory. *)
Theorem kfree_rejects (s : kmem_t) (v : Z) :
  0 <= v < 2 ^ 32 -> ~ valid_page v -> kfree v s = Panic "kfree" s.
Proof. apply kfree_panic. Qed.

(** The two boot phases put every page of physical memory above the
    kernel image on the free list, once.  [kinit1], called by [main] on an
    empty allocator, returns with the free list holding exactly the valid
    pages below 4 MB; [kinit2] adds to any state whose free pages all lie
    below 4 MB exactly the valid pages above and turns locking on. *)
Theorem kinit_fills_pool (s s2 : kmem_t) (fl2 : list Z) :
  freelist s = 0 -> kmem_inv s2 fl2 -> (forall q, q ∈ fl2 -> q < boot_limit) ->
  (exists s' fl, kinit1 kernel_end boot_limit s = Ok tt s' /\ kmem_inv s' fl /\
     forall q, q ∈ fl <-> valid_page q /\ q < boot_limit) /\
  (exists s' fl, kinit2 boot_limit (P2V PHYSTOP) s2 = Ok tt s' /\ kmem_inv s' fl /\
     use_lock s' = true /\
     forall q, q ∈ fl <-> q ∈ fl2 \/ (valid_page q /\ boot_limit <= q)).
Proof.
  intros Hf Hi Hlow. split.
  - assert (wp (kinit1 kernel_end boot_limit) (fun _ s' => exists fl, kmem_inv s' fl /\
      forall q, q ∈ fl <-> valid_page q /\ q < boot_limit) s) as Hwp
      by (apply wp_kinit1; eauto).
    apply wp_ok in Hwp as ([] & s' & Hs' & fl & ? & ?). eauto.
  - assert (wp (kinit2 boot_limit (P2V PHYSTOP)) (fun _ s' => exists fl, kmem_inv s' fl /\
      use_lock s' = true /\ forall q, q ∈ fl <-> q ∈ fl2 \/ (valid_page q /\ boot_limit <= q)) s2)
      as Hwp by (eapply wp_kinit2; eauto).
    apply wp_ok in Hwp as ([] & s' & Hs' & fl & ? & ? & ?). eauto 6.
Qed.
End Kalloc.

(** ** A concrete image, for the witnesses *)
Definition demo_image : KernelImage := {| kernel_data := 0x80108000; kernel_end := 0x801154a8 |}.

Lemma demo_image_ok : KernelImageOk demo_image.
Proof. by constructor. Qed.

Definition kmem_boot : kmem_t := mk_kmem false false 0 (fun _ => 0).

Lemma kmem_boot_inv : @kmem_inv demo_image kmem_boot [].
Proof. constructor; simpl; [done|constructor..]. Qed.

Lemma kalloc_kfree_refine_witness :
  @valid_page demo_image 0x80200000 /\
  exists s', @kfree demo_image 0x80200000 kmem_boot = Ok tt s'.
Proof.
  assert (@valid_page demo_image 0x80200000) as Hv by by split.
  split; [done|].
  destruct (@kalloc_kfree_refine demo_image demo_image_ok kmem_boot [] 0x80200000) as
    (_ & s' & Hs' & _); [apply kmem_boot_inv|done|apply not_elem_of_nil|].
  by exists s'.
Defined.

Lemma kfree_rejects_witness :
  ~ @valid_page demo_image 0 /\ @kfree demo_image 0 kmem_boot = Panic "kfree" kmem_boot.
Proof.
  assert (~ @valid_page demo_image 0) as Hv by (unfold valid_page; cbn; lia).
  split; [done|]. by apply (@kfree_rejects demo_image demo_image_ok).
Defined.

Lemma kinit_fills_pool_witness :
  exists s', @kinit1 demo_image (@kernel_end demo_image) boot_limit kmem_boot = Ok tt s'.
Proof.
  destruct (@kinit_fills_pool demo_image demo_image_ok kmem_boot kmem_boot []) as
    ((s' & fl & Hs' & _) & _); [done|apply kmem_boot_inv|by intros ? ?%not_elem_of_nil|].
  by exists s'.
Defined.
