(* ===== verification/Vm.v ===== *)
(** * [vm.c]: page tables and user address spaces (definitions)

    A page directory and its page tables are pages of the byte memory; every
    routine reads and writes them there, with the 32-bit arithmetic and bit
    operations of the source.  [walkpgdir] and [mappages] occur twice in the
    program, as static functions of [vm.c] and of [shm.c], with the same text.
    A dereference of a null [pte] is a [Fault]. *)
From Stdlib Require Import ZArith Lia Bool.
From stdpp Require Import base list strings.
From S2P Require Import Prelude Machine Cstring Kalloc.

Section Vm.
Context {I : KernelImage}.

(** Bit test [x & mask]. *)
Definition has (x mask : Z) : bool := negb (Z.land x mask =? 0).

Definition walkpgdir (pgdir va : Z) (alloc : bool) : M kmem_t Z :=
  let pde := pgdir + 4 * PDX va in
  v <- read32 pde ;;
  if has v PTE_P then ret (P2V (PTE_ADDR v) + 4 * PTX va)
  else if negb alloc then ret 0
  else
    pgtab <- kalloc ;;
    if pgtab =? 0 then ret 0
    else
      memsetM pgtab 0 PGSIZE ;;;
      write32 pde (Z.lor (Z.lor (Z.lor (V2P pgtab) PTE_P) PTE_W) PTE_U) ;;;
      ret (pgtab + 4 * PTX va).

(** The loop of [mappages]; it ends when [a] reaches [last]. *)
Fixpoint mappages_loop (fuel : nat) (pgdir a last pa perm : Z) : M kmem_t Z :=
  match fuel with
  | O => nofuel
  | S fuel' =>
      pte <- walkpgdir pgdir a true ;;
      if pte =? 0 then ret (-1)
      else
        v <- read32 pte ;;
        if has v PTE_P then panic "remap"
        else
          write32 pte (Z.lor (Z.lor pa perm) PTE_P) ;;;
          if a =? last then ret 0
          else mappages_loop fuel' pgdir (u32 (a + PGSIZE)) last (u32 (pa + PGSIZE)) perm
  end.

(** [fuel]: the number of pages from [a] up to [last], modulo the address
    space, which is how often the source's loop runs. *)
Definition mappages (pgdir va size pa perm : Z) : M kmem_t Z :=
  let a := PGROUNDDOWN va in
  let last := PGROUNDDOWN (u32 (va + size - 1)) in
  mappages_loop (S (Z.to_nat (u32 (last - a) / PGSIZE))) pgdir a last pa perm.

Fixpoint deallocuvm_loop (fuel : nat) (pgdir a oldsz : Z) : M kmem_t unit :=
  match fuel with
  | O => nofuel
  | S fuel' =>
      if a <? oldsz then
        pte <- walkpgdir pgdir a false ;;
        if pte =? 0 then
          deallocuvm_loop fuel' pgdir (u32 (u32 (PGADDR (PDX a + 1) 0 0 - PGSIZE) + PGSIZE)) oldsz
        else
          v <- read32 pte ;;
          (if has v PTE_P then
             (let pa := PTE_ADDR v in
              if pa =? 0 then panic "kfree"
              else kfree (P2V pa) ;;; write32 pte 0)
           else ret tt) ;;;
          deallocuvm_loop fuel' pgdir (u32 (a + PGSIZE)) oldsz
      else ret tt
  end.

Definition deallocuvm (pgdir oldsz newsz : Z) : M kmem_t Z :=
  if oldsz <=? newsz then ret oldsz
  else
    let a := PGROUNDUP newsz in
    deallocuvm_loop (S (Z.to_nat ((oldsz - a) / PGSIZE + 1))) pgdir a oldsz ;;;
    ret newsz.

(** The loop of [freevm] over the page directory, from entry [i] on. *)
Fixpoint freevm_loop (fuel : nat) (pgdir i : Z) : M kmem_t unit :=
  match fuel with
  | O => ret tt
  | S fuel' =>
      v <- read32 (pgdir + 4 * i) ;;
      when (has v PTE_P) (kfree (P2V (PTE_ADDR v))) ;;;
      freevm_loop fuel' pgdir (i + 1)
  end.

Definition freevm (pgdir : Z) : M kmem_t unit :=
  if pgdir =? 0 then panic "freevm: no pgdir"
  else
    deallocuvm pgdir KERNBASE 0 ;;;
    freevm_loop (Z.to_nat NPDENTRIES) pgdir 0 ;;;
    kfree pgdir.

(** ** Kernel mappings *)
Record kmap_t : Type := mk_kmap { virt : Z; phys_start : Z; phys_end : Z; kperm : Z }.

Definition kmap : list kmap_t :=
  [ mk_kmap KERNBASE 0 EXTMEM PTE_W;
    mk_kmap KERNLINK (V2P KERNLINK) (V2P kernel_data) 0;
    mk_kmap kernel_data (V2P kernel_data) PHYSTOP PTE_W;
    mk_kmap DEVSPACE DEVSPACE 0 PTE_W ].

Fixpoint setupkvm_loop (ks : list kmap_t) (pgdir : Z) : M kmem_t Z :=
  match ks with
  | [] => ret pgdir
  | k :: ks' =>
      r <- mappages pgdir (virt k) (u32 (phys_end k - phys_start k)) (phys_start k) (kperm k) ;;
      if r <? 0 then freevm pgdir ;;; ret 0
      else setupkvm_loop ks' pgdir
  end.

Definition setupkvm : M kmem_t Z :=
  pgdir <- kalloc ;;
  if pgdir =? 0 then ret 0
  else
    memsetM pgdir 0 PGSIZE ;;;
    if DEVSPACE <? P2V PHYSTOP then panic "PHYSTOP too high"
    else setupkvm_loop kmap pgdir.

(** ** User memory *)

(** [init] are the [sz] bytes of the initial program. *)
Fixpoint write_bytes (a : Z) (bs : list Z) : M kmem_t unit :=
  match bs with
  | [] => ret tt
  | b :: bs' => modify (fun s => set_mem (store8 (mem s) a b) s) ;;; write_bytes (a + 1) bs'
  end.

Definition inituvm (pgdir : Z) (init : list Z) (sz : Z) : M kmem_t unit :=
  if PGSIZE <=? sz then panic "inituvm: more than a page"
  else
    page <- kalloc ;;
    if page =? 0 then fault "inituvm: null page"
    else
      memsetM page 0 PGSIZE ;;;
      mappages pgdir 0 PGSIZE (V2P page) (Z.lor PTE_W PTE_U) ;;;
      write_bytes page (take (Z.to_nat sz) init).

(** [loaduvm] runs in a state that also holds the file: [lft] runs memory
    operations there, and [readi dst off n] reads [n] bytes at offset [off] of
    the file into [dst]. *)
Fixpoint loaduvm_loop {S} (lft : forall A, M kmem_t A -> M S A) (readi : Z -> Z -> Z -> M S Z) (fuel : nat)
    (pgdir addr offset sz i : Z) : M S Z :=
  match fuel with
  | O => nofuel
  | Datatypes.S fuel' =>
      if i <? sz then
        pte <- lft _ (walkpgdir pgdir (u32 (addr + i)) false) ;;
        if pte =? 0 then panic "loaduvm: address should exist"
        else
          v <- lft _ (read32 pte) ;;
          let pa := PTE_ADDR v in
          let n := if sz - i <? PGSIZE then sz - i else PGSIZE in
          r <- readi (P2V pa) (u32 (offset + i)) n ;;
          if negb (r =? n) then ret (-1)
          else loaduvm_loop lft readi fuel' pgdir addr offset sz (u32 (i + PGSIZE))
      else ret 0
  end.

Definition loaduvm {S} (lft : forall A, M kmem_t A -> M S A) (readi : Z -> Z -> Z -> M S Z) (pgdir addr offset sz : Z) : M S Z :=
  if negb (addr mod PGSIZE =? 0) then panic "loaduvm: addr must be page aligned"
  else loaduvm_loop lft readi (Datatypes.S (Z.to_nat (sz / PGSIZE + 1))) pgdir addr offset sz 0.

Fixpoint allocuvm_loop (fuel : nat) (pgdir a oldsz newsz : Z) : M kmem_t Z :=
  match fuel with
  | O => nofuel
  | S fuel' =>
      if a <? newsz then
        page <- kalloc ;;
        if page =? 0 then deallocuvm pgdir newsz oldsz ;;; ret 0
        else
          memsetM page 0 PGSIZE ;;;
          (r <- mappages pgdir a PGSIZE (V2P page) (Z.lor PTE_W PTE_U) ;;
           if r <? 0 then deallocuvm pgdir newsz oldsz ;;; kfree page ;;; ret 0
           else allocuvm_loop fuel' pgdir (u32 (a + PGSIZE)) oldsz newsz)
      else ret newsz
  end.

Definition allocuvm (pgdir oldsz newsz : Z) : M kmem_t Z :=
  if KERNBASE <=? newsz then ret 0
  else if newsz <? oldsz then ret oldsz
  else
    let a := PGROUNDUP oldsz in
    allocuvm_loop (S (Z.to_nat ((newsz - a) / PGSIZE + 1))) pgdir a oldsz newsz.

Definition clearpteu (pgdir uva : Z) : M kmem_t unit :=
  pte <- walkpgdir pgdir uva false ;;
  if pte =? 0 then panic "clearpteu"
  else v <- read32 pte ;; write32 pte (Z.land v (u32 (Z.lnot PTE_U))).

Fixpoint copyuvm_loop (fuel : nat) (pgdir d i sz : Z) : M kmem_t Z :=
  match fuel with
  | O => nofuel
  | S fuel' =>
      if i <? sz then
        pte <- walkpgdir pgdir i false ;;
        if pte =? 0 then panic "copyuvm: pte should exist"
        else
          v <- read32 pte ;;
          if negb (has v PTE_P) then panic "copyuvm: page not present"
          else
            let pa := PTE_ADDR v in
            let flags := PTE_FLAGS v in
            page <- kalloc ;;
            if page =? 0 then freevm d ;;; ret 0
            else
              memmoveM page (P2V pa) PGSIZE ;;;
              (r <- mappages d i PGSIZE (V2P page) flags ;;
               if r <? 0 then freevm d ;;; ret 0
               else copyuvm_loop fuel' pgdir d (u32 (i + PGSIZE)) sz)
      else ret d
  end.

Definition copyuvm (pgdir sz : Z) : M kmem_t Z :=
  d <- setupkvm ;;
  if d =? 0 then ret 0
  else copyuvm_loop (S (Z.to_nat (sz / PGSIZE + 1))) pgdir d 0 sz.

Definition uva2ka (pgdir uva : Z) : M kmem_t Z :=
  pte <- walkpgdir pgdir uva false ;;
  if pte =? 0 then fault "uva2ka: null pte"
  else
    v <- read32 pte ;;
    if negb (has v PTE_P) then ret 0
    else if negb (has v PTE_U) then ret 0
    else ret (P2V (PTE_ADDR v)).

(** [copyout] of the bytes [p]; each round copies up to the end of a page. *)
Fixpoint copyout_loop (fuel : nat) (pgdir va : Z) (buf : list Z) : M kmem_t Z :=
  match buf with
  | [] => ret 0
  | _ =>
      match fuel with
      | O => nofuel
      | S fuel' =>
          let va0 := PGROUNDDOWN va in
          pa0 <- uva2ka pgdir va0 ;;
          if pa0 =? 0 then ret (-1)
          else
            let n0 := PGSIZE - (va - va0) in
            let len := Z.of_nat (length buf) in
            let n := if len <? n0 then len else n0 in
            write_bytes (pa0 + (va - va0)) (take (Z.to_nat n) buf) ;;;
            copyout_loop fuel' pgdir (u32 (va0 + PGSIZE)) (drop (Z.to_nat n) buf)
      end
  end.

Definition copyout (pgdir va : Z) (p : list Z) : M kmem_t Z :=
  copyout_loop (S (length p)) pgdir va p.

(** The MMU: the physical address of the byte at [va] under the page tables
    rooted at [pgdir] (given by its kernel address), when both levels are
    present. *)
Definition translate (m : memory) (pgdir va : Z) : option Z :=
  let pde := load32 m (pgdir + 4 * PDX va) in
  if has pde PTE_P then
    let pte := load32 m (P2V (PTE_ADDR pde) + 4 * PTX va) in
    if has pte PTE_P then Some (PTE_ADDR pte + va mod PGSIZE) else None
  else None.
End Vm.
