(* ===== verification/VmInv.v ===== *)
(** * Address spaces: invariant and page-table updates

    The abstract view of a page directory is the function [pte_val] from
    virtual addresses to page table entries (0 where the page table is
    missing).  [as_inv] says that the directory, its page tables and the free
    pages are pairwise distinct pages; [vm_step] collects what every
    page-table update guarantees: pages come from the free list only, and no
    byte outside the directory and its tables changes. *)
From Stdlib Require Import ZArith Lia Bool.
From stdpp Require Import base list strings.
From S2P Require Import Prelude Machine Cstring Kalloc Vm.

Lemma has_P v : has v PTE_P = negb (v mod 2 =? 0).
Proof. unfold has, PTE_P. change 0x001 with (2 ^ 1 - 1). by rewrite land_ones_mod. Qed.

Lemma has_P_lor v : has (Z.lor v PTE_P) PTE_P = true.
Proof.
  rewrite has_P. unfold PTE_P. rewrite <- Z.bit0_mod, Z.lor_spec.
  change (Z.testbit 1 0) with true. by rewrite orb_true_r.
Qed.

Lemma has_P_0 : has 0 PTE_P = false.
Proof. done. Qed.

Section VmInv.
Context {I : KernelImage}.

Definition pde (m : memory) (pgdir i : Z) : Z := load32 m (pgdir + 4 * i).
Definition ptpage (m : memory) (pgdir i : Z) : Z := P2V (PTE_ADDR (pde m pgdir i)).
Definition pte_val (m : memory) (pgdir va : Z) : Z :=
  if has (pde m pgdir (PDX va)) PTE_P
  then load32 m (ptpage m pgdir (PDX va) + 4 * PTX va) else 0.

Lemma pte_val_range m pgdir va : 0 <= pte_val m pgdir va < 2 ^ 32.
Proof. unfold pte_val. destruct (has _ _); [apply load32_range|lia]. Qed.

(** The pages a page directory is made of. *)
Definition table_page (m : memory) (pgdir q : Z) : Prop :=
  q = pgdir \/ exists i, 0 <= i < 1024 /\ has (pde m pgdir i) PTE_P = true /\ q = ptpage m pgdir i.

Record wf_pgdir (m : memory) (pgdir : Z) : Prop := {
  wf_dir : valid_page pgdir;
  wf_tables : forall i, 0 <= i < 1024 -> has (pde m pgdir i) PTE_P = true ->
    valid_page (ptpage m pgdir i) /\ ptpage m pgdir i <> pgdir;
  wf_inj : forall i j, 0 <= i < 1024 -> 0 <= j < 1024 ->
    has (pde m pgdir i) PTE_P = true -> has (pde m pgdir j) PTE_P = true ->
    ptpage m pgdir i = ptpage m pgdir j -> i = j;
}.

Record as_inv (s : kmem_t) (pgdir : Z) (fl : list Z) : Prop := {
  as_kmem : kmem_inv s fl;
  as_wf : wf_pgdir (mem s) pgdir;
  as_disj : forall q, table_page (mem s) pgdir q -> q ∉ fl;
}.

(** The byte [x] lies in none of the table pages. *)
Definition outside (m : memory) (pgdir x : Z) : Prop :=
  forall q, table_page m pgdir q -> x < q \/ q + PGSIZE <= x.

Record vm_step (s s' : kmem_t) (pgdir : Z) (fl fl' : list Z) : Prop := {
  vs_inv : as_inv s' pgdir fl';
  vs_used : exists used, fl = used ++ fl' /\
    forall q, table_page (mem s') pgdir q <-> q ∈ used \/ table_page (mem s) pgdir q;
  vs_frame : forall x, outside (mem s') pgdir x -> mem s' x = mem s x;
  vs_use_lock : use_lock s' = use_lock s;
}.

Context `{!KernelImageOk I}.

Lemma vs_mono s s' pgdir fl fl' q : vm_step s s' pgdir fl fl' ->
  table_page (mem s) pgdir q -> table_page (mem s') pgdir q.
Proof. intros [_ (used & _ & H) _ _] Hq. apply H. by right. Qed.

Lemma vm_step_refl s pgdir fl : as_inv s pgdir fl -> vm_step s s pgdir fl fl.
Proof.
  intros. constructor; try done. exists []. split; [done|]. intros q. split; [by right|].
  by intros [?%not_elem_of_nil|?].
Qed.

Lemma vm_step_trans s1 s2 s3 pgdir fl1 fl2 fl3 :
  vm_step s1 s2 pgdir fl1 fl2 -> vm_step s2 s3 pgdir fl2 fl3 -> vm_step s1 s3 pgdir fl1 fl3.
Proof.
  intros [I1 (u1 & -> & U1) F1 L1] [I2 (u2 & -> & U2) F2 L2]. constructor.
  - done.
  - exists (u1 ++ u2). split; [by rewrite app_assoc|]. intros q.
    rewrite U2, U1, elem_of_app. tauto.
  - intros x Hx. rewrite F2 by done. apply F1. intros q Hq. apply Hx, U2. by right.
  - congruence.
Qed.

Lemma in_dir i pgdir : 0 <= i < 1024 -> pgdir <= pgdir + 4 * i /\ pgdir + 4 * i + 4 <= pgdir + PGSIZE.
Proof. klia. Qed.

Lemma pages_apart p q i j : valid_page p -> valid_page q -> p <> q ->
  0 <= i < 1024 -> 0 <= j < 1024 -> q + 4 * j + 4 <= p + 4 * i \/ p + 4 * i + 4 <= q + 4 * j.
Proof. intros Hp%valid_page_bounds Hq%valid_page_bounds. klia. Qed.

Lemma words_apart p q i j : valid_page p -> valid_page q -> (p <> q \/ i <> j) ->
  0 <= i < 1024 -> 0 <= j < 1024 -> q + 4 * j + 4 <= p + 4 * i \/ p + 4 * i + 4 <= q + 4 * j.
Proof. intros Hp%valid_page_bounds Hq%valid_page_bounds. klia. Qed.

(** ** Walking *)
Lemma walk_present s pgdir va alloc :
  has (pde (mem s) pgdir (PDX va)) PTE_P = true ->
  walkpgdir pgdir va alloc s = Ok (ptpage (mem s) pgdir (PDX va) + 4 * PTX va) s.
Proof. intros H. unfold walkpgdir. erewrite bind_ok by reflexivity. fold (pde (mem s) pgdir (PDX va)). by rewrite H. Qed.

Lemma walk_absent s pgdir va :
  has (pde (mem s) pgdir (PDX va)) PTE_P = false -> walkpgdir pgdir va false s = Ok 0 s.
Proof. intros H. unfold walkpgdir. erewrite bind_ok by reflexivity. fold (pde (mem s) pgdir (PDX va)). by rewrite H. Qed.

(** Memory after a new page table [p] is installed for [va]. *)
Definition install_mem (m : memory) (pgdir va p : Z) : memory :=
  store32 (memset m p 0 PGSIZE) (pgdir + 4 * PDX va)
    (Z.lor (Z.lor (Z.lor (V2P p) PTE_P) PTE_W) PTE_U).

Lemma walk_alloc_nil s pgdir va :
  kmem_inv s [] -> has (pde (mem s) pgdir (PDX va)) PTE_P = false ->
  walkpgdir pgdir va true s = Ok 0 s.
Proof.
  intros Hi H. unfold walkpgdir. erewrite bind_ok by reflexivity. fold (pde (mem s) pgdir (PDX va)).
  rewrite H. cbn [negb]. erewrite bind_ok by by apply kalloc_nil. done.
Qed.

Lemma walk_alloc_cons s pgdir va p fl :
  kmem_inv s (p :: fl) -> has (pde (mem s) pgdir (PDX va)) PTE_P = false ->
  walkpgdir pgdir va true s = Ok (p + 4 * PTX va)
    (set_mem (install_mem (mem s) pgdir va p) (set_freelist (load32 (mem s) p) s)).
Proof.
  intros Hi H. unfold walkpgdir. erewrite bind_ok by reflexivity. fold (pde (mem s) pgdir (PDX va)).
  rewrite H. cbn [negb]. erewrite bind_ok by by eapply kalloc_cons.
  destruct Hi as [_ _ Hv _]. apply Forall_cons in Hv as [Hv%valid_page_bounds _].
  by rewrite (proj2 (Z.eqb_neq p 0)) by lia.
Qed.

(** ** Installing a page table *)
Lemma new_pde p : valid_page p ->
  Z.lor (Z.lor (Z.lor (V2P p) PTE_P) PTE_W) PTE_U = V2P p + 7.
Proof.
  intros Hp%valid_page_bounds. rewrite <- !Z.lor_assoc. change (Z.lor PTE_P (Z.lor PTE_W PTE_U)) with 7.
  apply pte_lor; unfold V2P; klia.
Qed.

Lemma new_pde_page p : valid_page p ->
  has (V2P p + 7) PTE_P = true /\ P2V (PTE_ADDR (V2P p + 7)) = p.
Proof.
  intros Hp%valid_page_bounds. assert (V2P p = p - 0x80000000) as -> by (unfold V2P; klia).
  rewrite has_P, PTE_ADDR_eq by lia. split.
  - apply negb_true_iff, Z.eqb_neq. zlia.
  - unfold P2V. klia.
Qed.

Section Install.
Context (m : memory) (pgdir va p : Z).
Hypothesis Hwf : wf_pgdir m pgdir.
Hypothesis Hp : valid_page p.
Hypothesis Hfresh : forall q, table_page m pgdir q -> q <> p.
Hypothesis Habs : has (pde m pgdir (PDX va)) PTE_P = false.
Let m' := install_mem m pgdir va p.

Lemma install_dir_ne : p <> pgdir.
Proof. intros ->. by apply (Hfresh pgdir); [left|]. Qed.

Lemma install_out x : (x < p \/ p + PGSIZE <= x) -> (x < pgdir \/ pgdir + PGSIZE <= x) -> m' x = m x.
Proof.
  intros H1 H2. unfold m', install_mem. pose proof (PDX_range va).
  rewrite store32_out by klia. rewrite memset_eq by klia.
  destruct (Z.leb_spec p x), (Z.ltb_spec x (p + PGSIZE)); simpl; try done; lia.
Qed.

Lemma install_table_word j : 0 <= j < 1024 -> load32 m' (p + 4 * j) = 0.
Proof.
  intros Hj. unfold m', install_mem. pose proof (PDX_range va).
  rewrite load32_store32_ne.
  - transitivity (load32 (fun _ => 0) (p + 4 * j)); [|done]. apply load32_agree. intros x Hx.
    rewrite memset_eq by klia. rewrite (proj2 (Z.leb_le _ _)), (proj2 (Z.ltb_lt _ _)) by klia. done.
  - apply pages_apart; try done; [apply Hwf|]. apply not_eq_sym, install_dir_ne.
Qed.

Lemma install_pde i : 0 <= i < 1024 ->
  pde m' pgdir i = if i =? PDX va then V2P p + 7 else pde m pgdir i.
Proof.
  intros Hi. unfold pde, m', install_mem. pose proof (PDX_range va).
  rewrite new_pde by done. destruct (Z.eqb_spec i (PDX va)) as [->|Hne].
  - rewrite load32_store32_eq, u32_small; [done|].
    apply valid_page_bounds in Hp. unfold V2P. klia.
  - rewrite load32_store32_ne by lia. apply load32_agree. intros x Hx.
    rewrite memset_eq by klia. pose proof install_dir_ne as Hne'.
    pose proof (wf_dir _ _ Hwf) as Hd.
    destruct (valid_page_sep pgdir p x) as [?|?]; [done..|by apply not_eq_sym|klia| |].
    + by rewrite (proj2 (Z.leb_gt _ _)) by lia.
    + by rewrite (proj2 (Z.ltb_ge _ _)), andb_false_r by lia.
Qed.

Lemma install_ptpage i : 0 <= i < 1024 ->
  ptpage m' pgdir i = if i =? PDX va then p else ptpage m pgdir i.
Proof.
  intros Hi. unfold ptpage. rewrite install_pde by done.
  destruct (i =? PDX va); [|done]. by apply new_pde_page.
Qed.

Lemma install_present i : 0 <= i < 1024 ->
  has (pde m' pgdir i) PTE_P = (i =? PDX va) || has (pde m pgdir i) PTE_P.
Proof.
  intros Hi. rewrite install_pde by done. destruct (i =? PDX va); [|done].
  by apply new_pde_page.
Qed.

Lemma install_table_page q : table_page m' pgdir q <-> q = p \/ table_page m pgdir q.
Proof.
  unfold table_page. split.
  - intros [->|(i & Hi & Hpr & ->)]; [by right; left|].
    rewrite install_present in Hpr by done. rewrite install_ptpage by done.
    destruct (Z.eqb_spec i (PDX va)); [by left|]. right; right. by exists i.
  - intros [->|[->|(i & Hi & Hpr & ->)]]; [right|by left|right].
    + exists (PDX va). pose proof (PDX_range va). split; [done|].
      rewrite install_present, install_ptpage, Z.eqb_refl by done. done.
    + exists i. rewrite install_present, install_ptpage by done.
      destruct (Z.eqb_spec i (PDX va)); [congruence|]. done.
Qed.

Lemma install_wf : wf_pgdir m' pgdir.
Proof.
  destruct Hwf as [Hd Ht Hinj]. pose proof install_dir_ne. constructor; [done| |].
  - intros i Hi. rewrite install_present, install_ptpage by done.
    destruct (Z.eqb_spec i (PDX va)); [done|]. auto.
  - intros i j Hi Hj. rewrite !install_present, !install_ptpage by done.
    destruct (Z.eqb_spec i (PDX va)), (Z.eqb_spec j (PDX va)); simpl; try congruence.
    + intros _ Hpj He. exfalso. apply (Hfresh (ptpage m pgdir j)); [|done].
      right. by exists j.
    + intros Hpi _ He. exfalso. apply (Hfresh (ptpage m pgdir i)); [|done].
      right. by exists i.
    + auto.
Qed.

Lemma install_pte_val va' : pte_val m' pgdir va' = pte_val m pgdir va'.
Proof.
  unfold pte_val. pose proof (PDX_range va'). pose proof (PTX_range va').
  rewrite install_present, install_ptpage by done.
  destruct (Z.eqb_spec (PDX va') (PDX va)) as [->|Hne]; simpl.
  - rewrite Habs. by apply install_table_word.
  - destruct (has (pde m pgdir (PDX va')) PTE_P) eqn:E; [|done].
    apply load32_agree. intros x Hx. destruct Hwf as [Hd Ht _].
    destruct (Ht (PDX va')) as [Hv Hn]; [done..|].
    apply install_out; eapply (valid_page_sep (ptpage m pgdir (PDX va'))); try done; try klia.
    apply Hfresh. right. by exists (PDX va').
Qed.
End Install.

(** ** Writing a page table entry *)
Section WritePte.
Context (m : memory) (pgdir va v : Z).
Hypothesis Hwf : wf_pgdir m pgdir.
Hypothesis Hpres : has (pde m pgdir (PDX va)) PTE_P = true.
Let slot := ptpage m pgdir (PDX va) + 4 * PTX va.
Let m' := store32 m slot v.

Lemma slot_page : valid_page (ptpage m pgdir (PDX va)) /\ ptpage m pgdir (PDX va) <> pgdir.
Proof. apply Hwf; [apply PDX_range|done]. Qed.

Lemma write_pte_out x : outside m pgdir x -> m' x = m x.
Proof.
  intros Hx. unfold m', slot. pose proof (PTX_range va). apply store32_out.
  destruct (Hx (ptpage m pgdir (PDX va))); [|klia..].
  right. exists (PDX va). split; [apply PDX_range|done].
Qed.

Lemma write_pte_pde i : 0 <= i < 1024 -> pde m' pgdir i = pde m pgdir i.
Proof.
  intros Hi. unfold pde, m', slot. apply load32_store32_ne.
  destruct slot_page as [Hv Hn]. apply pages_apart; try done; [apply Hwf|apply PTX_range].
Qed.

Lemma write_pte_table_page q : table_page m' pgdir q <-> table_page m pgdir q.
Proof.
  unfold table_page, ptpage. split; (intros [->|(i & Hi & Hp & ->)]; [by left|right; exists i]).
  - rewrite write_pte_pde in Hp by done. by rewrite write_pte_pde by done.
  - by rewrite write_pte_pde by done.
Qed.

Lemma write_pte_wf : wf_pgdir m' pgdir.
Proof.
  destruct Hwf as [Hd Ht Hi]. constructor; [done| |].
  - intros i Hi'. unfold ptpage. rewrite write_pte_pde by done. by apply Ht.
  - intros i j ? ?. unfold ptpage. rewrite !write_pte_pde by done. by apply Hi.
Qed.

Lemma write_pte_val va' :
  pte_val m' pgdir va' =
    if (PDX va' =? PDX va) && (PTX va' =? PTX va) then u32 v else pte_val m pgdir va'.
Proof.
  pose proof (PDX_range va). pose proof (PTX_range va).
  pose proof (PDX_range va'). pose proof (PTX_range va').
  unfold pte_val, ptpage. rewrite write_pte_pde by done.
  destruct (Z.eqb_spec (PDX va') (PDX va)) as [He|Hne]; simpl.
  - rewrite He, Hpres. destruct (Z.eqb_spec (PTX va') (PTX va)) as [He'|Hne'].
    + rewrite He'. apply load32_store32_eq.
    + apply load32_store32_ne. unfold slot, ptpage. lia.
  - destruct (has (pde m pgdir (PDX va')) PTE_P) eqn:E; [|done].
    apply load32_store32_ne. unfold slot.
    destruct slot_page as [Hv _]. fold (ptpage m pgdir (PDX va')).
    apply pages_apart; try done; [by apply Hwf|].
    intros Heq. apply Hne. symmetry. by eapply (wf_inj _ _ Hwf).
Qed.
End WritePte.
End VmInv.
