(* ===== verification/VmMap.v ===== *)
(** * [walkpgdir] and [mappages]: specifications *)
From Stdlib Require Import ZArith Lia Bool.
From stdpp Require Import base list strings.
From S2P Require Import Prelude Machine Cstring Kalloc Vm VmInv.

(** The entry [mappages] writes. *)
Definition mkpte (pa perm : Z) : Z := Z.lor (Z.lor pa perm) PTE_P.

Lemma mkpte_eq pa perm :
  0 <= pa <= 2 ^ 32 - 4096 -> pa mod 4096 = 0 -> 0 <= perm < 4096 ->
  mkpte pa perm = pa + Z.lor perm PTE_P /\ 0 <= Z.lor perm PTE_P < 4096.
Proof.
  intros Hpa Hal Hperm. unfold mkpte. rewrite <- Z.lor_assoc.
  assert (0 <= Z.lor perm PTE_P < 4096) as Hr.
  { split; [apply Z.lor_nonneg; unfold PTE_P; lia|].
    change 4096 with (2 ^ 12).
    destruct (Z.eq_dec (Z.lor perm PTE_P) 0) as [->|Hn]; [lia|].
    assert (0 <= Z.lor perm PTE_P) by (apply Z.lor_nonneg; unfold PTE_P; lia).
    apply Z.log2_lt_pow2; [lia|]. rewrite Z.log2_lor by (unfold PTE_P; lia).
    apply Z.max_lub_lt; [|done].
    destruct (Z.eq_dec perm 0) as [->|]; [done|]. apply Z.log2_lt_pow2; lia. }
  split; [|done]. apply pte_lor; lia.
Qed.

Lemma mkpte_props pa perm :
  0 <= pa <= 2 ^ 32 - 4096 -> pa mod 4096 = 0 -> 0 <= perm < 4096 ->
  u32 (mkpte pa perm) = mkpte pa perm /\ has (mkpte pa perm) PTE_P = true /\
  PTE_ADDR (mkpte pa perm) = pa.
Proof.
  intros Hpa Hal Hperm. pose proof (has_P_lor (Z.lor pa perm)) as HP.
  destruct (mkpte_eq pa perm Hpa Hal Hperm) as [He Hr].
  split_and!; [|done|]; rewrite He.
  - apply u32_small. lia.
  - rewrite PTE_ADDR_eq by lia. zlia.
Qed.

Section VmMap.
Context {I : KernelImage} `{!KernelImageOk I}.

Lemma install_as_inv s pgdir va p fl :
  as_inv s pgdir (p :: fl) -> has (pde (mem s) pgdir (PDX va)) PTE_P = false ->
  let s' := set_mem (install_mem (mem s) pgdir va p) (set_freelist (load32 (mem s) p) s) in
  vm_step s s' pgdir (p :: fl) fl /\ has (pde (mem s') pgdir (PDX va)) PTE_P = true /\
  ptpage (mem s') pgdir (PDX va) = p /\
  forall va', pte_val (mem s') pgdir va' = pte_val (mem s) pgdir va'.
Proof.
  intros [Hk Hwf Hdis] Habs s'.
  pose proof (inv_valid _ _ Hk) as Hv. apply Forall_cons in Hv as [Hp Hv].
  pose proof (inv_nodup _ _ Hk) as Hnd. apply NoDup_cons in Hnd as [Hpn Hnd].
  assert (forall q, table_page (mem s) pgdir q -> q <> p) as Hfresh.
  { intros q Hq ->. apply (Hdis p Hq). by left. }
  pose proof (PDX_range va) as Hr.
  assert (forall q, table_page (mem s') pgdir q <-> q = p \/ table_page (mem s) pgdir q) as Htp
    by (intros; by apply install_table_page).
  split_and!.
  - constructor.
    + constructor; [|by apply install_wf|].
      * pose proof (kmem_inv_kalloc _ _ _ Hk) as [H1 H2 H3 H4]. constructor; [done| |done|done].
        eapply fl_rep_frame; [exact H2|]. intros q x Hq Hx. simpl.
        rewrite Forall_forall in Hv.
        apply install_out; eapply (valid_page_sep q); eauto; try (by apply Hwf).
        -- by intros ->.
        -- intros ->. apply (Hdis pgdir); [by left|by right].
      * intros q [->|Hq]%Htp; [done|]. intros Hin. apply (Hdis q Hq). by right.
    + exists [p]. split; [done|]. intros q. by rewrite Htp, list_elem_of_singleton.
    + intros x Hx. apply install_out.
      * apply Hx, Htp. by left.
      * apply Hx. by left.
    + done.
  - simpl. rewrite install_present by done. by rewrite Z.eqb_refl.
  - simpl. rewrite install_ptpage by done. by rewrite Z.eqb_refl.
  - intros va'. by apply install_pte_val.
Qed.

Lemma wp_walk_alloc s pgdir va fl (Q : Z -> kmem_t -> Prop) :
  as_inv s pgdir fl ->
  (fl = [] -> Q 0 s) ->
  (forall s' fl', vm_step s s' pgdir fl fl' ->
     has (pde (mem s') pgdir (PDX va)) PTE_P = true ->
     (forall va', pte_val (mem s') pgdir va' = pte_val (mem s) pgdir va') ->
     (forall j, 0 <= j < 1024 -> j <> PDX va -> pde (mem s') pgdir j = pde (mem s) pgdir j) ->
     Q (ptpage (mem s') pgdir (PDX va) + 4 * PTX va) s') ->
  wp (walkpgdir pgdir va true) Q s.
Proof.
  intros Hi Hnil HQ. unfold wp.
  destruct (has (pde (mem s) pgdir (PDX va)) PTE_P) eqn:E.
  - rewrite walk_present by done. apply (HQ s fl); [by apply vm_step_refl|done|done|done].
  - destruct fl as [|p fl].
    + rewrite walk_alloc_nil; [by apply Hnil|apply Hi|done].
    + rewrite (walk_alloc_cons s pgdir va p fl); [|apply Hi|done].
      destruct (install_as_inv s pgdir va p fl Hi E) as (H1 & H2 & H3 & H4).
      specialize (HQ _ fl H1 H2 H4). rewrite H3 in HQ. apply HQ. intros j Hj Hne. pose proof (inv_valid _ _ (as_kmem _ _ _ Hi)) as Hv.
      apply Forall_cons in Hv as [Hp _]. cbn [mem set_mem]. rewrite install_pde; [by rewrite (proj2 (Z.eqb_neq _ _))|apply Hi|done| |done].
      intros q Hq ->. apply (as_disj _ _ _ Hi p Hq). by left.
Qed.

(** A slot address is never null. *)
Lemma slot_nonzero m pgdir va : wf_pgdir m pgdir ->
  has (pde m pgdir (PDX va)) PTE_P = true ->
  ptpage m pgdir (PDX va) + 4 * PTX va <> 0.
Proof.
  intros Hwf Hp. destruct (wf_tables _ _ Hwf (PDX va)) as [Hv%valid_page_bounds _];
    [apply PDX_range|done|]. pose proof (PTX_range va). lia.
Qed.

Lemma slot_val m pgdir va : has (pde m pgdir (PDX va)) PTE_P = true ->
  load32 m (ptpage m pgdir (PDX va) + 4 * PTX va) = pte_val m pgdir va.
Proof. intros H. unfold pte_val. by rewrite H. Qed.

(** Writing the entry of [va]. *)
Lemma write_pte_step s pgdir va v fl :
  as_inv s pgdir fl -> has (pde (mem s) pgdir (PDX va)) PTE_P = true ->
  let s' := set_mem (store32 (mem s) (ptpage (mem s) pgdir (PDX va) + 4 * PTX va) v) s in
  vm_step s s' pgdir fl fl /\
  forall va', 0 <= va < 2 ^ 32 -> va mod 4096 = 0 -> 0 <= va' < 2 ^ 32 -> va' mod 4096 = 0 ->
    pte_val (mem s') pgdir va' = if va' =? va then u32 v else pte_val (mem s) pgdir va'.
Proof.
  intros [Hk Hwf Hdis] Hp s'. split.
  - constructor; [| | |done].
    + constructor; simpl.
      * destruct Hk as [H1 H2 H3 H4]. constructor; [done| |done|done]. simpl.
        eapply fl_rep_frame; [exact H2|]. intros q x Hq Hx. apply write_pte_out; [done|].
        intros t Ht. rewrite Forall_forall in H3. apply (valid_page_sep q); auto.
        -- destruct Ht as [->|(i & Hi & Hpi & ->)]; [apply Hwf|by apply Hwf].
        -- intros ->. by apply (Hdis t).
      * by apply write_pte_wf.
      * intros q Hq%write_pte_table_page; [by apply Hdis|done..].
    + exists []. split; [done|]. intros q. rewrite elem_of_nil. simpl.
      rewrite (write_pte_table_page (mem s) pgdir va v) by done. tauto.
    + intros x Hx. apply write_pte_out; [done|]. intros q Hq. apply Hx.
      by apply write_pte_table_page.
  - intros va' H1 H2 H3 H4. simpl. rewrite write_pte_val by done.
    destruct (Z.eqb_spec va' va) as [->|Hne]; [by rewrite !Z.eqb_refl|].
    destruct (Z.eqb_spec (PDX va') (PDX va)), (Z.eqb_spec (PTX va') (PTX va)); try done.
    exfalso. apply Hne. by apply PDX_PTX_inj.
Qed.

Definition aligned (va : Z) : Prop := 0 <= va < 2 ^ 32 /\ va mod 4096 = 0.

(** One round of the loop: map the page at [a]. *)
Lemma mappages_round fuel s pgdir a last pa perm fl (Q : Z -> kmem_t -> Prop) :
  as_inv s pgdir fl -> aligned a ->
  0 <= pa <= 2 ^ 32 - 4096 -> pa mod 4096 = 0 -> 0 <= perm < 4096 ->
  has (pte_val (mem s) pgdir a) PTE_P = false ->
  (fl = [] -> Q (-1) s) ->
  (forall s' fl', vm_step s s' pgdir fl fl' ->
     (forall va', aligned va' ->
        pte_val (mem s') pgdir va' = if va' =? a then mkpte pa perm else pte_val (mem s) pgdir va') ->
     (forall j, 0 <= j < 1024 -> j <> PDX a -> pde (mem s') pgdir j = pde (mem s) pgdir j) ->
     wp (if a =? last then ret 0
         else mappages_loop fuel pgdir (u32 (a + PGSIZE)) last (u32 (pa + PGSIZE)) perm) Q s') ->
  wp (mappages_loop (S fuel) pgdir a last pa perm) Q s.
Proof.
  intros Hi [Ha1 Ha2] Hpa Hpal Hperm Hnp Hnil HQ. cbn [mappages_loop].
  apply wp_bind, (wp_walk_alloc s pgdir a fl); [done|by intros; apply Hnil|].
  intros s1 fl1 H1 Hp1 Hv1 Hd1. pose proof (vs_inv _ _ _ _ _ H1) as Hi1.
  rewrite (proj2 (Z.eqb_neq _ 0)) by (apply slot_nonzero; [apply Hi1|done]).
  apply wp_bind, wp_gets. rewrite slot_val, Hv1, Hnp by done.
  apply wp_bind, wp_modify. fold (mkpte pa perm).
  destruct (write_pte_step s1 pgdir a (mkpte pa perm) fl1 Hi1 Hp1) as [H2 Hv2].
  apply (HQ _ fl1); [by eapply vm_step_trans| |].
  - intros va' [Hb1 Hb2]. rewrite Hv2, Hv1 by done.
    by destruct (mkpte_props pa perm Hpa Hpal Hperm) as (-> & _ & _).
  - intros j Hj Hne. rewrite <- Hd1 by done. apply write_pte_pde; [apply Hi1|done|done].
Qed.

Lemma wp_mappages_loop n : forall fuel s pgdir a pa perm fl (Q : Z -> kmem_t -> Prop),
  as_inv s pgdir fl -> (n < fuel)%nat -> aligned a ->
  a + 4096 * Z.of_nat n + 4096 <= 2 ^ 32 ->
  0 <= pa -> pa mod 4096 = 0 -> pa + 4096 * Z.of_nat n + 4096 <= 2 ^ 32 -> 0 <= perm < 4096 ->
  (forall va, aligned va -> a <= va <= a + 4096 * Z.of_nat n ->
     has (pte_val (mem s) pgdir va) PTE_P = false) ->
  (forall s' fl', vm_step s s' pgdir fl fl' ->
     (forall va, aligned va -> pte_val (mem s') pgdir va =
        if (a <=? va) && (va <=? a + 4096 * Z.of_nat n)
        then mkpte (pa + (va - a)) perm else pte_val (mem s) pgdir va) ->
     (forall j, 0 <= j < a / 2 ^ 22 -> pde (mem s') pgdir j = pde (mem s) pgdir j) -> Q 0 s') ->
  (forall s' k, vm_step s s' pgdir fl [] -> 0 <= k <= Z.of_nat n ->
     (forall va, aligned va -> pte_val (mem s') pgdir va =
        if (a <=? va) && (va <? a + 4096 * k)
        then mkpte (pa + (va - a)) perm else pte_val (mem s) pgdir va) -> Q (-1) s') ->
  wp (mappages_loop fuel pgdir a (a + 4096 * Z.of_nat n) pa perm) Q s.
Proof.
  induction n as [|n IH]; intros fuel s pgdir a pa perm fl Q Hi Hf Ha Hend Hp1 Hp2 Hp3 Hperm Hnp HQ0 HQ1;
    (destruct fuel as [|fuel]; [lia|]); pose proof Ha as [Ha1 Ha2];
    (apply (mappages_round fuel s pgdir a _ pa perm fl); [done|done|lia|done|done|by apply Hnp; [|lia]| |]).
  - intros ->. apply (HQ1 s 0); [by apply vm_step_refl|lia|]. intros va [Hv1 Hv2].
    destruct (Z.leb_spec a va), (Z.ltb_spec va (a + 4096 * 0)); simpl; try done; lia.
  - intros s' fl' H1 Hv Hd. rewrite (proj2 (Z.eqb_eq _ _)) by lia. apply wp_ret, (HQ0 s' fl' H1).
    + intros va Hva. rewrite Hv by done. pose proof Hva as [Hva1 Hva2].
      destruct (Z.eqb_spec va a), (Z.leb_spec a va), (Z.leb_spec va (a + 4096 * Z.of_nat 0));
        simpl; try done; try lia. f_equal. lia.
    + intros j Hj. apply Hd; rewrite ?PDX_eq; zlia.
  - intros ->. apply (HQ1 s 0); [by apply vm_step_refl|lia|]. intros va [Hv1 Hv2].
    destruct (Z.leb_spec a va), (Z.ltb_spec va (a + 4096 * 0)); simpl; try done; lia.
  - intros s1 fl1 H1 Hv1 Hd1. rewrite (proj2 (Z.eqb_neq _ _)) by lia.
    rewrite !u32_small by klia.
    replace (a + 4096 * Z.of_nat (S n)) with (a + PGSIZE + 4096 * Z.of_nat n) by klia.
    apply (IH fuel s1 pgdir (a + PGSIZE) (pa + PGSIZE) perm fl1);
      [apply (vs_inv _ _ _ _ _ H1)|lia|split; klia|klia..| | |].
    + intros va Hva Hr. rewrite Hv1 by done.
      rewrite (proj2 (Z.eqb_neq _ _)) by klia. apply Hnp; [done|klia].
    + intros s2 fl2 H2 Hv2 Hd2. apply (HQ0 s2 fl2); [by eapply vm_step_trans| |].
      2: { intros j Hj. rewrite Hd2 by klia. apply Hd1; rewrite ?PDX_eq; klia. }
      intros va Hva. rewrite Hv2, Hv1 by done. pose proof Hva as [Hva1 Hva2].
      destruct (Z.eqb_spec va a), (Z.leb_spec a va), (Z.leb_spec va (a + 4096 * Z.of_nat (S n))),
        (Z.leb_spec (a + PGSIZE) va), (Z.leb_spec va (a + PGSIZE + 4096 * Z.of_nat n));
        simpl; try done; try klia; f_equal; lia.
    + intros s2 k H2 Hk Hv2. apply (HQ1 s2 (k + 1)); [by eapply vm_step_trans|lia|].
      intros va Hva. rewrite Hv2, Hv1 by done. pose proof Hva as [Hva1 Hva2].
      destruct (Z.eqb_spec va a), (Z.leb_spec a va), (Z.ltb_spec va (a + 4096 * (k + 1))),
        (Z.leb_spec (a + PGSIZE) va), (Z.ltb_spec va (a + PGSIZE + 4096 * k));
        simpl; try done; try klia; f_equal; lia.
Qed.

(** [mappages] on a range given in any alignment: [n+1] pages are touched,
    from [a = PGROUNDDOWN va] on. *)
Lemma wp_mappages s pgdir va size pa perm fl (Q : Z -> kmem_t -> Prop) :
  let a := va - va mod 4096 in
  let n := (va + size - 1) / 4096 - va / 4096 in
  as_inv s pgdir fl -> 0 <= va -> 0 < size -> va + size <= 2 ^ 32 ->
  0 <= pa -> pa mod 4096 = 0 -> pa + 4096 * n + 4096 <= 2 ^ 32 -> 0 <= perm < 4096 ->
  (forall va', aligned va' -> a <= va' <= a + 4096 * n ->
     has (pte_val (mem s) pgdir va') PTE_P = false) ->
  (forall s' fl', vm_step s s' pgdir fl fl' ->
     (forall va', aligned va' -> pte_val (mem s') pgdir va' =
        if (a <=? va') && (va' <=? a + 4096 * n)
        then mkpte (pa + (va' - a)) perm else pte_val (mem s) pgdir va') ->
     (forall j, 0 <= j < a / 2 ^ 22 -> pde (mem s') pgdir j = pde (mem s) pgdir j) -> Q 0 s') ->
  (forall s' k, vm_step s s' pgdir fl [] -> 0 <= k <= n ->
     (forall va', aligned va' -> pte_val (mem s') pgdir va' =
        if (a <=? va') && (va' <? a + 4096 * k)
        then mkpte (pa + (va' - a)) perm else pte_val (mem s) pgdir va') -> Q (-1) s') ->
  wp (mappages pgdir va size pa perm) Q s.
Proof.
  intros a n Hi Hva Hsz Hend Hp1 Hp2 Hp3 Hperm Hnp HQ0 HQ1. unfold mappages.
  rewrite (u32_small (va + size - 1)), !PGROUNDDOWN_eq by lia. fold a.
  replace (va + size - 1 - (va + size - 1) mod 4096) with (a + 4096 * n) by (unfold a, n; zlia).
  assert (0 <= n) as Hn by (unfold n; zlia).
  assert (a + 4096 * n + 4096 <= 2 ^ 32) as Hlast by (unfold a, n; zlia).
  assert (aligned a) as Ha by (unfold a; split; zlia).
  replace (a + 4096 * n - a) with (4096 * n) by lia.
  rewrite (u32_small (4096 * n)) by (destruct Ha; lia).
  replace (4096 * n / PGSIZE) with n by (kconst; zlia).
  rewrite <- (Z2Nat.id n) at 2 by done.
  apply (wp_mappages_loop (Z.to_nat n) _ _ _ _ _ _ fl); rewrite ?Z2Nat.id by done;
    try done; try lia; auto.
Qed.

(** ** The tables one page needs *)

(** The table for [va] was there, or the next free page has become it. *)
Definition tabled (s s' : kmem_t) (pgdir va : Z) (fl fl' : list Z) : Prop :=
  kmem_inv s' fl' /\
  length fl = ((if has (pde (mem s) pgdir (PDX va)) PTE_P then 0 else 1) + length fl')%nat /\
  forall j, 0 <= j < 1024 -> has (pde (mem s') pgdir j) PTE_P = (j =? PDX va) || has (pde (mem s) pgdir j) PTE_P.

Lemma wp_set_entry fuel s pgdir a pa perm fl :
  as_inv s pgdir fl -> aligned a -> has (pde (mem s) pgdir (PDX a)) PTE_P = true -> has (pte_val (mem s) pgdir a) PTE_P = false ->
  wp (let pte := ptpage (mem s) pgdir (PDX a) + 4 * PTX a in
      if pte =? 0 then ret (-1)
      else
        v <- read32 pte ;;
        if has v PTE_P then panic "remap"
        else
          write32 pte (Z.lor (Z.lor pa perm) PTE_P) ;;;
          if a =? a then ret 0
          else mappages_loop fuel pgdir (u32 (a + PGSIZE)) a (u32 (pa + PGSIZE)) perm)
    (fun r s' => r = 0 /\ kmem_inv s' fl /\ forall j, 0 <= j < 1024 -> pde (mem s') pgdir j = pde (mem s) pgdir j) s.
Proof.
  intros Hi Ha Hp Hnp. cbv zeta. rewrite (proj2 (Z.eqb_neq _ 0)) by (apply slot_nonzero; [apply Hi|done]).
  apply wp_bind, wp_gets. rewrite slot_val, Hnp by done. apply wp_bind, wp_modify. rewrite Z.eqb_refl. apply wp_ret.
  destruct (write_pte_step s pgdir a (Z.lor (Z.lor pa perm) PTE_P) fl Hi Hp) as [H2 _].
  split; [done|]. split; [apply (vs_inv _ _ _ _ _ H2)|]. intros j Hj. apply write_pte_pde; [apply Hi|done|done].
Qed.

(** [mappages] of one page takes a page from the pool when the directory has no
    table for it, and fails only when there is none. *)
Lemma wp_page_tables s pgdir a pa perm fl :
  as_inv s pgdir fl -> aligned a -> has (pte_val (mem s) pgdir a) PTE_P = false ->
  wp (mappages pgdir a PGSIZE pa perm) (fun r s' => r = 0 /\ (exists fl', tabled s s' pgdir a fl fl') \/
    r = -1 /\ fl = [] /\ has (pde (mem s) pgdir (PDX a)) PTE_P = false) s.
Proof.
  intros Hi Ha Hnp. pose proof Ha as [Ha1 Ha2]. unfold mappages. rewrite (u32_small (a + PGSIZE - 1)), !PGROUNDDOWN_eq by klia.
  replace (a - a mod 4096) with a by lia. replace (a + PGSIZE - 1 - (a + PGSIZE - 1) mod 4096) with a by klia.
  cbn [mappages_loop]. apply wp_bind. unfold wp at 1. destruct (has (pde (mem s) pgdir (PDX a)) PTE_P) eqn:E.
  - rewrite walk_present by done. eapply wp_mono; [by apply (wp_set_entry _ s pgdir a pa perm fl)|]. intros r s' (-> & Hk & Hd). left. split; [done|].
    exists fl. unfold tabled. rewrite E. split_and!; [done|done|]. intros j Hj. rewrite Hd by done. destruct (Z.eqb_spec j (PDX a)) as [->|]; done.
  - destruct fl as [|p fl]; [rewrite walk_alloc_nil; [by right|apply Hi|done]|].
    rewrite (walk_alloc_cons s pgdir a p fl); [|apply Hi|done].
    destruct (install_as_inv s pgdir a p fl Hi E) as (H1 & H2 & H3 & H4).
    set (s1 := set_mem _ _) in *. rewrite <- H3. eapply wp_mono; [apply (wp_set_entry _ s1 pgdir a pa perm fl)|].
    + apply (vs_inv _ _ _ _ _ H1).
    + done.
    + done.
    + by rewrite H4.
    + intros r s' (-> & Hk & Hd). left. split; [done|]. exists fl. unfold tabled. rewrite E. split_and!; [done|done|]. intros j Hj. rewrite Hd by done.
      pose proof (inv_valid _ _ (as_kmem _ _ _ Hi)) as Hv. apply Forall_cons in Hv as [Hp _].
      apply install_present; [apply Hi|done| |done]. intros q Hq ->. apply (as_disj _ _ _ Hi p Hq). by left.
Qed.
End VmMap.
