(* ===== verification/VmUser.v ===== *)
(** * User memory: [deallocuvm], [freevm], [allocuvm]

    [uvm_inv] adds to [as_inv] that the frames mapped below [KERNBASE] are
    distinct valid pages, neither free nor used as page tables.  Under it,
    [deallocuvm] frees exactly the frames of the range, [freevm] gives every
    page of the address space back to the allocator, and [allocuvm] either
    maps fresh zeroed frames over the whole range or undoes what it did. *)
From Stdlib Require Import ZArith Lia Bool.
From stdpp Require Import base list strings.
From S2P Require Import Prelude Machine Cstring Kalloc Vm VmInv VmMap.

Section VmUser.
Context {I : KernelImage}.

Definition frame_of (m : memory) (pgdir va : Z) : Z := P2V (PTE_ADDR (pte_val m pgdir va)).
Definition mapped (m : memory) (pgdir va : Z) : bool := has (pte_val m pgdir va) PTE_P.
(** Page-aligned user addresses. *)
Definition upage (va : Z) : Prop := 0 <= va < KERNBASE /\ va mod 4096 = 0.

Record uvm_inv (s : kmem_t) (pgdir : Z) (fl : list Z) : Prop := {
  uvm_as : as_inv s pgdir fl;
  uvm_frames : forall va, upage va -> mapped (mem s) pgdir va = true ->
    valid_page (frame_of (mem s) pgdir va) /\ (frame_of (mem s) pgdir va ∉ fl) /\
    ~ table_page (mem s) pgdir (frame_of (mem s) pgdir va);
  uvm_inj : forall va va', upage va -> upage va' ->
    mapped (mem s) pgdir va = true -> mapped (mem s) pgdir va' = true ->
    frame_of (mem s) pgdir va = frame_of (mem s) pgdir va' -> va = va';
}.

(** The user frames of the pages from [lo] up to [hi]. *)
Definition frame_in (m : memory) (pgdir lo hi q : Z) : Prop :=
  exists va, upage va /\ lo <= va < hi /\ mapped m pgdir va = true /\ q = frame_of m pgdir va.

Context `{!KernelImageOk I}.

Lemma upage_aligned va : upage va -> aligned va.
Proof. unfold upage, aligned. klia. Qed.

(** ** Memory changes away from the tables *)
Section TablesAgree.
Context (m m' : memory) (pgdir : Z).
Hypothesis Hagree : forall q x, table_page m pgdir q -> q <= x < q + PGSIZE -> m' x = m x.

Lemma agree_pde i : 0 <= i < 1024 -> pde m' pgdir i = pde m pgdir i.
Proof.
  intros Hi. apply load32_agree. intros x Hx. apply (Hagree pgdir); [by left|]. klia.
Qed.

Lemma agree_ptpage i : 0 <= i < 1024 -> ptpage m' pgdir i = ptpage m pgdir i.
Proof. intros. unfold ptpage. by rewrite agree_pde. Qed.

Lemma agree_pte_val va : pte_val m' pgdir va = pte_val m pgdir va.
Proof.
  pose proof (PDX_range va). pose proof (PTX_range va). unfold pte_val.
  rewrite agree_pde, agree_ptpage by done.
  destruct (has (pde m pgdir (PDX va)) PTE_P) eqn:E; [|done].
  apply load32_agree. intros x Hx. apply (Hagree (ptpage m pgdir (PDX va))).
  - right. by exists (PDX va).
  - klia.
Qed.

Lemma agree_table_page q : table_page m' pgdir q <-> table_page m pgdir q.
Proof.
  unfold table_page. split; (intros [->|(i & Hi & Hp & ->)]; [by left|right; exists i]).
  - rewrite agree_pde in Hp by done. by rewrite agree_ptpage by done.
  - by rewrite agree_pde, agree_ptpage by done.
Qed.

Lemma agree_wf : wf_pgdir m pgdir -> wf_pgdir m' pgdir.
Proof.
  intros [Hd Ht Hi]. constructor; [done| |].
  - intros i Hi'. rewrite agree_pde, agree_ptpage by done. by apply Ht.
  - intros i j ? ?. rewrite !agree_pde, !agree_ptpage by done. by apply Hi.
Qed.
End TablesAgree.

Lemma table_page_valid m pgdir q : wf_pgdir m pgdir -> table_page m pgdir q -> valid_page q.
Proof. intros Hwf [->|(i & Hi & Hp & ->)]; by apply Hwf. Qed.

(** Freeing a page that is not a table page. *)
Lemma wp_kfree_frame s pgdir fl f (Q : unit -> kmem_t -> Prop) :
  as_inv s pgdir fl -> valid_page f -> f ∉ fl -> ~ table_page (mem s) pgdir f ->
  (forall s', as_inv s' pgdir (f :: fl) ->
     (forall va, pte_val (mem s') pgdir va = pte_val (mem s) pgdir va) ->
     (forall q, table_page (mem s') pgdir q <-> table_page (mem s) pgdir q) ->
     (forall i, 0 <= i < 1024 -> pde (mem s') pgdir i = pde (mem s) pgdir i) ->
     (forall x, x < f \/ f + PGSIZE <= x -> mem s' x = mem s x) ->
     use_lock s' = use_lock s -> Q tt s') ->
  wp (kfree f) Q s.
Proof.
  intros [Hk Hwf Hdis] Hv Hn Ht HQ. apply (wp_kfree s f fl); [done..|].
  intros s' Hk' Hm Hul.
  assert (forall q x, table_page (mem s) pgdir q -> q <= x < q + PGSIZE -> mem s' x = mem s x) as Ha.
  { intros q x Hq Hx. apply Hm. apply (valid_page_sep q); auto.
    - by eapply table_page_valid.
    - by intros ->. }
  apply HQ; try done.
  - constructor; [done|by eapply agree_wf|].
    intros q Hq%(agree_table_page _ _ _ Ha) [->|?]%elem_of_cons; [done|].
    by apply (Hdis q).
  - intros. by apply agree_pte_val.
  - intros. by apply agree_table_page.
  - intros. by apply agree_pde.
Qed.

Lemma frame_pa m pgdir va : valid_page (frame_of m pgdir va) -> PTE_ADDR (pte_val m pgdir va) <> 0.
Proof.
  unfold frame_of. intros Hv%valid_page_bounds He. rewrite He in Hv.
  change (P2V 0) with 0x80000000 in Hv. lia.
Qed.

(** ** One present page of [deallocuvm] *)
Lemma wp_dealloc_page s pgdir fl a (Q : unit -> kmem_t -> Prop) :
  uvm_inv s pgdir fl -> upage a -> mapped (mem s) pgdir a = true ->
  let f := frame_of (mem s) pgdir a in
  (forall s', uvm_inv s' pgdir (f :: fl) ->
     (forall va, aligned va -> pte_val (mem s') pgdir va =
        if va =? a then 0 else pte_val (mem s) pgdir va) ->
     (forall q, table_page (mem s') pgdir q <-> table_page (mem s) pgdir q) ->
     (forall x, outside (mem s) pgdir x -> x < f \/ f + PGSIZE <= x -> mem s' x = mem s x) ->
     use_lock s' = use_lock s -> Q tt s') ->
  wp (kfree f ;;; write32 (ptpage (mem s) pgdir (PDX a) + 4 * PTX a) 0) Q s.
Proof.
  intros [Has Hfr Hinj] Hup Hm f HQ.
  destruct (Hfr a Hup Hm) as (Hv & Hn & Ht). pose proof (upage_aligned a Hup) as Hal.
  assert (has (pde (mem s) pgdir (PDX a)) PTE_P = true) as Hp.
  { unfold mapped, pte_val in Hm. by destruct (has (pde _ _ _) _). }
  apply wp_bind, (wp_kfree_frame s pgdir fl f); [done..|].
  intros s1 Has1 Hpv1 Htp1 Hpde1 Hm1 Hul1. apply wp_modify.
  assert (ptpage (mem s) pgdir (PDX a) = ptpage (mem s1) pgdir (PDX a)) as ->.
  { unfold ptpage. by rewrite Hpde1 by apply PDX_range. }
  assert (has (pde (mem s1) pgdir (PDX a)) PTE_P = true) as Hp1 by (by rewrite Hpde1 by apply PDX_range).
  destruct (write_pte_step s1 pgdir a 0 (f :: fl) Has1 Hp1) as [Hstep Hpv2].
  set (s2 := set_mem _ s1) in *.
  assert (forall va, aligned va -> pte_val (mem s2) pgdir va =
      if va =? a then 0 else pte_val (mem s) pgdir va) as Hpv.
  { intros va [? ?]. rewrite Hpv2, Hpv1 by (done || apply Hal). done. }
  assert (forall q, table_page (mem s2) pgdir q <-> table_page (mem s) pgdir q) as Htp.
  { intros q. rewrite <- Htp1. apply write_pte_table_page; [apply Has1|done]. }
  assert (forall va, upage va -> mapped (mem s2) pgdir va = true ->
      va <> a /\ mapped (mem s) pgdir va = true /\
      frame_of (mem s2) pgdir va = frame_of (mem s) pgdir va) as Hsame.
  { intros va Hva. unfold mapped, frame_of. rewrite Hpv by by apply upage_aligned.
    destruct (Z.eqb_spec va a); [done|]. auto. }
  apply HQ; [|done|done| |done].
  - constructor; [apply Hstep| |].
    + intros va Hva Hma. destruct (Hsame va Hva Hma) as (Hne & Hma' & ->).
      destruct (Hfr va Hva Hma') as (? & ? & ?). split_and!; [done| |by rewrite Htp].
      apply not_elem_of_cons. split; [|done]. intros He. apply Hne. by apply Hinj.
    + intros va va' Hva Hva' Hma Hma'.
      destruct (Hsame va Hva Hma) as (_ & ? & ->), (Hsame va' Hva' Hma') as (_ & ? & ->). auto.
  - intros x Hx Hxf. rewrite <- Hm1 by done. apply (vs_frame _ _ _ _ _ Hstep).
    intros q Hq. by apply Hx, Htp.
Qed.

(** What deallocation of the pages from [lo] up to [hi] does. *)
Record dealloc_rel (s s' : kmem_t) (pgdir lo hi : Z) (fl fl' : list Z) : Prop := {
  dr_inv : uvm_inv s' pgdir fl';
  dr_pte : forall va, aligned va -> pte_val (mem s') pgdir va =
    if (lo <=? va) && (va <? hi) && mapped (mem s) pgdir va then 0 else pte_val (mem s) pgdir va;
  dr_free : forall q, q ∈ fl' <-> q ∈ fl \/ frame_in (mem s) pgdir lo hi q;
  dr_tables : forall q, table_page (mem s') pgdir q <-> table_page (mem s) pgdir q;
  dr_mem : forall x, outside (mem s) pgdir x ->
    (forall q, frame_in (mem s) pgdir lo hi q -> x < q \/ q + PGSIZE <= x) -> mem s' x = mem s x;
  dr_use_lock : use_lock s' = use_lock s;
}.

Lemma dealloc_rel_none s pgdir lo hi fl :
  uvm_inv s pgdir fl ->
  (forall va, aligned va -> lo <= va < hi -> mapped (mem s) pgdir va = false) ->
  dealloc_rel s s pgdir lo hi fl fl.
Proof.
  intros Hi Hno.
  assert (forall q, ~ frame_in (mem s) pgdir lo hi q) as Hnf.
  { intros q (va & Hup & Hr & Hm & _). rewrite Hno in Hm by (by apply upage_aligned || done). done. }
  constructor; try done.
  - intros va Hva. destruct (Z.leb_spec lo va), (Z.ltb_spec va hi); simpl; try done.
    by rewrite Hno.
  - intros q. split; [by left|]. intros [?|Hq]; [done|by apply Hnf in Hq].
Qed.

(** Composition of two adjacent ranges. *)
Lemma dealloc_rel_trans s1 s2 s3 pgdir lo mid hi fl1 fl2 fl3 :
  lo <= mid ->
  dealloc_rel s1 s2 pgdir lo (Z.min mid hi) fl1 fl2 -> dealloc_rel s2 s3 pgdir mid hi fl2 fl3 ->
  dealloc_rel s1 s3 pgdir lo hi fl1 fl3.
Proof.
  intros Hle [I1 P1 F1 T1 M1 L1] [I2 P2 F2 T2 M2 L2].
  assert (forall va, aligned va -> mid <= va ->
    pte_val (mem s2) pgdir va = pte_val (mem s1) pgdir va) as Hkeep.
  { intros va Hva Hge. rewrite P1 by done.
    destruct (Z.ltb_spec va (Z.min mid hi)); [lia|]. by rewrite andb_false_r. }
  assert (forall q, frame_in (mem s2) pgdir mid hi q <-> frame_in (mem s1) pgdir mid hi q) as Hfi.
  { intros q. unfold frame_in, mapped, frame_of.
    split; intros (va & Hup & Hr & Hm & ->); exists va; pose proof (upage_aligned va Hup);
      by rewrite (Hkeep va) in * by (done || lia). }
  assert (forall q, frame_in (mem s1) pgdir lo hi q <->
    frame_in (mem s1) pgdir lo (Z.min mid hi) q \/ frame_in (mem s1) pgdir mid hi q) as Hsplit.
  { intros q. unfold frame_in. split.
    - intros (va & Hup & Hr & Hm & ->).
      destruct (Z_lt_dec va mid); [left|right]; exists va; (split; [done|split; [lia|done]]).
    - intros [(va & Hup & Hr & Hm & ->)|(va & Hup & Hr & Hm & ->)]; exists va;
        (split; [done|split; [lia|done]]). }
  constructor; [done| | | | |congruence].
  - intros va Hva. rewrite P2 by done. unfold mapped. rewrite P1 by done. unfold mapped.
    destruct (Z.leb_spec lo va), (Z.ltb_spec va (Z.min mid hi)), (Z.leb_spec mid va),
      (Z.ltb_spec va hi), (has (pte_val (mem s1) pgdir va) PTE_P) eqn:E;
      simpl; try done; try lia; by rewrite ?E.
  - intros q. rewrite F2, F1, Hsplit, Hfi. tauto.
  - intros q. by rewrite T2, T1.
  - intros x Hx Hq. rewrite M2.
    + apply M1; [done|]. intros q Hfq. apply Hq, Hsplit. by left.
    + intros q Hq'%T1. by apply Hx.
    + intros q Hfq%Hfi. apply Hq, Hsplit. by right.
Qed.

(** ** The loop of [deallocuvm] *)
Lemma absent_table_unmapped m pgdir a va :
  has (pde m pgdir (PDX a)) PTE_P = false -> 0 <= a < 2 ^ 32 -> 0 <= va < 2 ^ 32 ->
  a / 2 ^ 22 = va / 2 ^ 22 -> mapped m pgdir va = false.
Proof.
  intros Hp Ha Hva He. unfold mapped, pte_val.
  assert (PDX va = PDX a) as -> by (rewrite !PDX_eq; by rewrite He). by rewrite Hp.
Qed.

Lemma wp_deallocuvm_loop fuel : forall s pgdir a oldsz fl (Q : unit -> kmem_t -> Prop),
  uvm_inv s pgdir fl -> 0 <= a -> a mod 4096 = 0 -> a <= KERNBASE -> oldsz <= KERNBASE ->
  Z.max 0 ((oldsz - a) / 4096 + 1) < Z.of_nat fuel ->
  (forall s' fl', dealloc_rel s s' pgdir a oldsz fl fl' -> Q tt s') ->
  wp (deallocuvm_loop fuel pgdir a oldsz) Q s.
Proof.
  induction fuel as [|fuel IH]; intros s pgdir a oldsz fl Q Hi Ha0 Hal Hak Hold Hf HQ.
  { lia. }
  cbn [deallocuvm_loop]. destruct (Z.ltb_spec a oldsz) as [Hlt|Hge].
  2: { apply wp_ret, (HQ s fl), dealloc_rel_none; [done|]. intros. lia. }
  assert (upage a) as Hup by (unfold upage; lia).
  pose proof (upage_aligned a Hup) as Haal. pose proof Haal as [Har _].
  pose proof (uvm_as _ _ _ Hi) as Has.
  apply wp_bind. unfold wp at 1.
  destruct (has (pde (mem s) pgdir (PDX a)) PTE_P) eqn:E.
  - rewrite walk_present by done.
    rewrite (proj2 (Z.eqb_neq _ 0)) by (apply slot_nonzero; [apply Has|done]).
    apply wp_bind, wp_gets. rewrite slot_val by done.
    rewrite (u32_small (a + PGSIZE)) by klia. apply wp_bind.
    fold (mapped (mem s) pgdir a). destruct (mapped (mem s) pgdir a) eqn:Em.
    + destruct (uvm_frames _ _ _ Hi a Hup Em) as (Hv & _).
      rewrite (proj2 (Z.eqb_neq _ 0)) by by apply frame_pa.
      apply (wp_dealloc_page s pgdir fl a); [done..|].
      intros s1 Hi1 Hpv1 Htp1 Hm1 Hul1.
      apply (IH s1 pgdir (a + PGSIZE) oldsz (frame_of (mem s) pgdir a :: fl));
        [done|klia|klia|klia|done|klia|].
      intros s2 fl2 H2. apply (HQ s2 fl2).
      apply (dealloc_rel_trans s s1 s2 pgdir a (a + PGSIZE) oldsz fl
               (frame_of (mem s) pgdir a :: fl) fl2); [klia| |done].
      assert (forall q, frame_in (mem s) pgdir a (Z.min (a + PGSIZE) oldsz) q
                        <-> q = frame_of (mem s) pgdir a) as Hfi.
      { intros q. split.
        - intros (va & Hva & Hr & Hmv & ->). f_equal. unfold upage in Hva. klia.
        - intros ->. exists a. split_and!; [done|klia..|done|done]. }
      constructor; [done| | |done| |done].
      * intros va Hva. rewrite Hpv1 by done. pose proof Hva as [Hva1 Hva2].
        destruct (Z.eqb_spec va a) as [->|Hne].
        -- rewrite Em, (proj2 (Z.leb_le _ _)), (proj2 (Z.ltb_lt _ _)) by klia. done.
        -- destruct (Z.leb_spec a va), (Z.ltb_spec va (Z.min (a + PGSIZE) oldsz)); simpl; try done. klia.
      * intros q. rewrite Hfi, elem_of_cons. tauto.
      * intros x Hx Hq. apply Hm1; [done|]. apply Hq. by apply Hfi.
    + apply wp_ret. apply (IH s pgdir (a + PGSIZE) oldsz fl); [done|klia|klia|klia|done|klia|].
      intros s2 fl2 H2. apply (HQ s2 fl2).
      apply (dealloc_rel_trans s s s2 pgdir a (a + PGSIZE) oldsz fl fl fl2); [klia| |done].
      apply dealloc_rel_none; [done|]. intros va [Hva1 Hva2] Hr.
      replace va with a by klia. done.
  - rewrite walk_absent by done. rewrite Z.eqb_refl.
    rewrite PGADDR_next by done.
    set (nxt := (a / 2 ^ 22 + 1) * 2 ^ 22).
    assert (a < nxt <= KERNBASE /\ nxt mod 4096 = 0 /\ a / 2 ^ 22 = (nxt - 1) / 2 ^ 22) as (Hn1 & Hn2 & Hn3)
      by (unfold nxt; klia).
    replace (u32 (u32 (u32 nxt - PGSIZE) + PGSIZE)) with nxt by klia.
    apply (IH s pgdir nxt oldsz fl); [done|lia|lia|lia|done|zlia|].
    intros s2 fl2 H2. apply (HQ s2 fl2).
    apply (dealloc_rel_trans s s s2 pgdir a nxt oldsz fl fl fl2); [lia| |done].
    apply dealloc_rel_none; [done|]. intros va [Hva1 Hva2] Hr.
    eapply absent_table_unmapped; [exact E|done|done|]. zlia.
Qed.

Lemma wp_deallocuvm s pgdir oldsz newsz fl (Q : Z -> kmem_t -> Prop) :
  uvm_inv s pgdir fl -> 0 <= newsz -> oldsz <= KERNBASE ->
  (oldsz <= newsz -> Q oldsz s) ->
  (newsz < oldsz -> forall s' fl',
     dealloc_rel s s' pgdir (newsz + 4095 - (newsz + 4095) mod 4096) oldsz fl fl' -> Q newsz s') ->
  wp (deallocuvm pgdir oldsz newsz) Q s.
Proof.
  intros Hi Hnew Hold HQ1 HQ2. unfold deallocuvm.
  destruct (Z.leb_spec oldsz newsz); [by apply wp_ret, HQ1|].
  rewrite PGROUNDUP_eq by klia. apply wp_bind.
  apply (wp_deallocuvm_loop _ s pgdir _ oldsz fl); [done|klia|klia|klia|done| |].
  - kconst. zlia.
  - intros s' fl' H'. apply wp_ret. eauto.
Qed.

(** ** [freevm] *)
Lemma wp_freevm_loop m0 pgdir n : forall s i fl (Q : unit -> kmem_t -> Prop),
  wf_pgdir m0 pgdir -> kmem_inv s fl -> pgdir ∉ fl -> 0 <= i -> i + Z.of_nat n = 1024 ->
  (forall j, 0 <= j < 1024 -> pde (mem s) pgdir j = pde m0 pgdir j) ->
  (forall j, i <= j < 1024 -> has (pde m0 pgdir j) PTE_P = true -> ptpage m0 pgdir j ∉ fl) ->
  (forall s' fl', kmem_inv s' fl' -> pgdir ∉ fl' ->
     (forall q, q ∈ fl' <-> q ∈ fl \/ exists j, i <= j < 1024 /\
        has (pde m0 pgdir j) PTE_P = true /\ q = ptpage m0 pgdir j) ->
     (forall x, outside m0 pgdir x -> mem s' x = mem s x) ->
     use_lock s' = use_lock s -> Q tt s') ->
  wp (freevm_loop n pgdir i) Q s.
Proof.
  induction n as [|n IH]; intros s i fl Q Hwf Hk Hd Hi Hn Hpde Hfree HQ; cbn [freevm_loop].
  { apply wp_ret, (HQ s fl); try done. intros q. split; [by left|].
    intros [?|(j & ? & _)]; [done|lia]. }
  apply wp_bind, wp_gets. fold (pde (mem s) pgdir i). rewrite Hpde by lia.
  apply wp_bind, wp_when; intros Hp.
  - destruct (wf_tables _ _ Hwf i) as [Hv Hne]; [lia|done|].
    assert (ptpage m0 pgdir i ∉ fl) as Hnin by (apply Hfree; [lia|done]).
    fold (ptpage m0 pgdir i). apply (wp_kfree s _ fl); [done..|].
    intros s1 Hk1 Hm1 Hul1. unfold spec_kfree in Hk1.
    apply (IH s1 (i + 1) (ptpage m0 pgdir i :: fl)); [done|done| |lia|lia| | |].
    + rewrite not_elem_of_cons. by split; [apply not_eq_sym|].
    + intros j Hj. rewrite <- Hpde by done. apply load32_agree. intros x Hx. apply Hm1.
      apply (valid_page_sep pgdir); [apply Hwf|done|by apply not_eq_sym|klia].
    + intros j Hj Hpj. rewrite not_elem_of_cons. split; [|apply Hfree; [lia|done]].
      intros He. assert (j = i); [|lia]. by apply (wf_inj _ _ Hwf); [lia|lia|..].
    + intros s2 fl2 Hk2 Hd2 Hq2 Hm2 Hul2. apply (HQ s2 fl2); [done|done| | |congruence].
      * intros q. rewrite Hq2, elem_of_cons. split.
        -- intros [[->|?]|(j & ? & ? & ->)]; [right; exists i; by split; [lia|]|by left|].
           right. exists j. split; [lia|done].
        -- intros [?|(j & Hj & Hpj & ->)]; [by left; right|].
           destruct (Z.eq_dec j i) as [->|]; [by left; left|]. right. exists j. split; [lia|done].
      * intros x Hx. rewrite Hm2 by done. apply Hm1, Hx. right. exists i. split; [lia|done].
  - apply (IH s (i + 1) fl); [done|done|done|lia|lia|done| |].
    + intros j Hj. apply Hfree. lia.
    + intros s2 fl2 Hk2 Hd2 Hq2 Hm2 Hul2. apply (HQ s2 fl2); try done.
      intros q. rewrite Hq2. split; (intros [?|(j & Hj & Hpj & ->)]; [by left|right; exists j]).
      * split; [lia|done].
      * destruct (Z.eq_dec j i) as [->|]; [congruence|]. split; [lia|done].
Qed.

(** The pages that make up an address space: tables and user frames. *)
Definition owned_page (m : memory) (pgdir q : Z) : Prop :=
  table_page m pgdir q \/ frame_in m pgdir 0 KERNBASE q.

Lemma wp_freevm s pgdir fl (Q : unit -> kmem_t -> Prop) :
  uvm_inv s pgdir fl ->
  (forall s' fl', kmem_inv s' fl' ->
     (forall q, q ∈ fl' <-> q ∈ fl \/ owned_page (mem s) pgdir q) ->
     (forall x, (forall q, owned_page (mem s) pgdir q -> x < q \/ q + PGSIZE <= x) ->
        mem s' x = mem s x) ->
     use_lock s' = use_lock s -> Q tt s') ->
  wp (freevm pgdir) Q s.
Proof.
  intros Hi HQ. unfold freevm. pose proof (uvm_as _ _ _ Hi) as [Hk Hwf Hdis].
  pose proof (valid_page_bounds _ (wf_dir _ _ Hwf)).
  rewrite (proj2 (Z.eqb_neq pgdir 0)) by lia.
  apply wp_bind, (wp_deallocuvm s pgdir KERNBASE 0 fl); [done|done|done|klia|].
  intros _ s1 fl1 [I1 _ F1 T1 M1 L1]. change (0 + 4095 - (0 + 4095) mod 4096) with 0 in *.
  pose proof (uvm_as _ _ _ I1) as [Hk1 Hwf1 Hdis1].
  apply wp_bind, (wp_freevm_loop (mem s1) pgdir (Z.to_nat NPDENTRIES) s1 0 fl1); try done.
  - apply Hdis1. by left.
  - intros j Hj Hp. apply Hdis1. right. by exists j.
  - intros s2 fl2 Hk2 Hd2 Hq2 Hm2 Hul2.
    apply (wp_kfree s2 pgdir fl2); [done|apply Hwf|done|].
    intros s3 Hk3 Hm3 Hul3. apply (HQ s3 (pgdir :: fl2)); [done| | |congruence].
    + intros q. rewrite elem_of_cons, Hq2, F1. unfold owned_page.
      assert (table_page (mem s) pgdir q <-> q = pgdir \/ exists j, 0 <= j < 1024 /\
        has (pde (mem s1) pgdir j) PTE_P = true /\ q = ptpage (mem s1) pgdir j) as ->
        by (rewrite <- T1; done). tauto.
    + intros x Hx. rewrite Hm3, Hm2.
      * apply M1; intros q Hq; apply Hx; [by left|by right].
      * intros q Hq%T1. apply Hx. by left.
      * apply Hx. left. by left.
Qed.
End VmUser.
