(* ===== verification/VmAlloc.v ===== *)
(** * [allocuvm]: growing user memory *)
From Stdlib Require Import ZArith Lia Bool.
From stdpp Require Import base list strings.
From S2P Require Import Prelude Machine Cstring Kalloc Vm VmInv VmMap VmUser.

Section VmAlloc.
Context {I : KernelImage} `{!KernelImageOk I}.

Definition user_perm : Z := Z.lor PTE_W PTE_U.

(** What mapping fresh pages over [lo, hi) does.  [ar_acct]: the pages taken
    from the free list are now tables or frames of the range, none is lost. *)
Record alloc_rel (s s' : kmem_t) (pgdir lo hi : Z) (fl fl' : list Z) : Prop := {
  ar_inv : uvm_inv s' pgdir fl';
  ar_same : forall va, aligned va -> va < lo \/ hi <= va ->
    pte_val (mem s') pgdir va = pte_val (mem s) pgdir va;
  ar_new : forall va, aligned va -> lo <= va < hi ->
    exists f, valid_page f /\ pte_val (mem s') pgdir va = mkpte (V2P f) user_perm /\
      forall x, f <= x < f + PGSIZE -> mem s' x = 0;
  ar_acct : forall q, (q ∈ fl \/ table_page (mem s) pgdir q) <->
    (q ∈ fl' \/ table_page (mem s') pgdir q \/ frame_in (mem s') pgdir lo hi q);
  ar_tables : forall q, table_page (mem s) pgdir q -> table_page (mem s') pgdir q;
  ar_mem : forall x, outside (mem s') pgdir x ->
    (forall q, q ∈ fl -> x < q \/ q + PGSIZE <= x) -> mem s' x = mem s x;
  ar_use_lock : use_lock s' = use_lock s;
}.

(** What a failed [allocuvm] leaves: the range is unmapped and no page is lost. *)
Record alloc_undone (s s' : kmem_t) (pgdir lo hi : Z) (fl fl' : list Z) : Prop := {
  au_inv : uvm_inv s' pgdir fl';
  au_same : forall va, aligned va -> va < lo \/ hi <= va ->
    pte_val (mem s') pgdir va = pte_val (mem s) pgdir va;
  au_none : forall va, aligned va -> lo <= va < hi -> mapped (mem s') pgdir va = false;
  au_acct : forall q, (q ∈ fl \/ table_page (mem s) pgdir q) <->
    (q ∈ fl' \/ table_page (mem s') pgdir q);
  au_use_lock : use_lock s' = use_lock s;
}.

Lemma mkpte_frame f perm : valid_page f -> 0 <= perm < 4096 ->
  has (mkpte (V2P f) perm) PTE_P = true /\ P2V (PTE_ADDR (mkpte (V2P f) perm)) = f.
Proof.
  intros Hf%valid_page_bounds Hp.
  assert (V2P f = f - 0x80000000) as Hv by (unfold V2P; klia).
  destruct (mkpte_props (V2P f) perm) as (_ & -> & ->); [lia|zlia|done|].
  rewrite Hv. unfold P2V. split; [done|klia].
Qed.

Lemma alloc_rel_refl s pgdir lo fl : uvm_inv s pgdir fl -> alloc_rel s s pgdir lo lo fl fl.
Proof.
  intros Hi. constructor; try done; [intros; lia|].
  intros q. split; [tauto|]. intros [?|[?|(va & _ & Hr & _)]]; [tauto..|lia].
Qed.

(** Writing a page that is neither free nor a table. *)
Lemma page_write_as s pgdir fl p (m' : memory) :
  as_inv s pgdir fl -> valid_page p -> p ∉ fl -> ~ table_page (mem s) pgdir p ->
  (forall x, x < p \/ p + PGSIZE <= x -> m' x = mem s x) ->
  let s' := set_mem m' s in
  as_inv s' pgdir fl /\
  (forall va, pte_val (mem s') pgdir va = pte_val (mem s) pgdir va) /\
  (forall q, table_page (mem s') pgdir q <-> table_page (mem s) pgdir q).
Proof.
  intros [Hk Hwf Hdis] Hp Hn Ht Hm s'.
  assert (forall q x, table_page (mem s) pgdir q -> q <= x < q + PGSIZE -> mem s' x = mem s x) as Ha.
  { intros q x Hq Hx. apply Hm. apply (valid_page_sep q); auto.
    - by eapply table_page_valid.
    - by intros ->. }
  split_and!; [constructor| |].
  - destruct Hk as [H1 H2 H3 H4]. constructor; [done| |done|done].
    eapply fl_rep_frame; [exact H2|]. intros q x Hq Hx. apply Hm.
    rewrite Forall_forall in H3. apply (valid_page_sep q); auto. by intros ->.
  - by eapply agree_wf.
  - intros q Hq%(agree_table_page _ _ _ Ha). by apply Hdis.
  - intros. by apply agree_pte_val.
  - intros. by apply agree_table_page.
Qed.

(** A popped page is not a table page and no frame. *)
Lemma kalloc_uvm s pgdir p fl :
  uvm_inv s pgdir (p :: fl) ->
  let s' := set_freelist (load32 (mem s) p) s in
  uvm_inv s' pgdir fl /\ valid_page p /\ (p ∉ fl) /\ ~ table_page (mem s) pgdir p /\
  forall va, upage va -> mapped (mem s) pgdir va = true -> frame_of (mem s) pgdir va <> p.
Proof.
  intros [[Hk Hwf Hdis] Hfr Hinj] s'.
  pose proof (inv_valid _ _ Hk) as Hv. apply Forall_cons in Hv as [Hp Hv].
  pose proof (inv_nodup _ _ Hk) as Hnd. apply NoDup_cons in Hnd as [Hpn Hnd].
  split_and!; [|done|done| |].
  - constructor; [constructor; [by apply kmem_inv_kalloc|done|]| |done].
    + intros q Hq Hin. apply (Hdis q Hq). by right.
    + intros va Hva Hm. destruct (Hfr va Hva Hm) as (? & Hn & ?). split_and!; [done| |done].
      intros Hin. apply Hn. by right.
  - intros Ht. apply (Hdis p Ht). by left.
  - intros va Hva Hm He. destruct (Hfr va Hva Hm) as (_ & Hn & _). apply Hn. rewrite He. by left.
Qed.

(** [uvm_inv] survives any change that keeps tables and free pages. *)
Lemma uvm_inv_keep s s' pgdir fl fl' :
  uvm_inv s pgdir fl -> as_inv s' pgdir fl' ->
  (forall va, aligned va -> pte_val (mem s') pgdir va = pte_val (mem s) pgdir va) ->
  (forall q, q ∈ fl' \/ table_page (mem s') pgdir q -> q ∈ fl \/ table_page (mem s) pgdir q) ->
  uvm_inv s' pgdir fl'.
Proof.
  intros [_ Hfr Hinj] Has Hpv Hacct.
  assert (forall va, upage va -> mapped (mem s') pgdir va = mapped (mem s) pgdir va /\
    frame_of (mem s') pgdir va = frame_of (mem s) pgdir va) as Hs.
  { intros va Hva%upage_aligned. unfold mapped, frame_of. by rewrite Hpv. }
  constructor; [done| |].
  - intros va Hva. destruct (Hs va Hva) as [-> ->]. intros Hm.
    destruct (Hfr va Hva Hm) as (? & Hn & Ht). split_and!; [done|..]; intros Hx.
    + destruct (Hacct (frame_of (mem s) pgdir va)); [by left|done..].
    + destruct (Hacct (frame_of (mem s) pgdir va)); [by right|done..].
  - intros va va' Hva Hva'. destruct (Hs va Hva) as [-> ->], (Hs va' Hva') as [-> ->]. auto.
Qed.

(** Adding one mapping whose frame is a fresh page. *)
Lemma uvm_inv_add s s' pgdir fl fl' a p perm :
  uvm_inv s pgdir fl -> as_inv s' pgdir fl' -> upage a -> 0 <= perm < 4096 ->
  (forall va, aligned va -> pte_val (mem s') pgdir va =
     if va =? a then mkpte (V2P p) perm else pte_val (mem s) pgdir va) ->
  (forall q, q ∈ fl' \/ table_page (mem s') pgdir q -> q ∈ fl \/ table_page (mem s) pgdir q) ->
  valid_page p -> (p ∉ fl) -> ~ table_page (mem s) pgdir p ->
  (forall va, upage va -> mapped (mem s) pgdir va = true -> frame_of (mem s) pgdir va <> p) ->
  uvm_inv s' pgdir fl'.
Proof.
  intros [_ Hfr Hinj] Has Ha Hperm Hpv Hacct Hp Hpf Hpt Hfresh.
  destruct (mkpte_frame p perm Hp Hperm) as [_ Hpfr].
  assert (forall va, upage va -> mapped (mem s') pgdir va = true ->
    (va = a /\ frame_of (mem s') pgdir va = p) \/
    (va <> a /\ mapped (mem s) pgdir va = true /\
     frame_of (mem s') pgdir va = frame_of (mem s) pgdir va)) as Hs.
  { intros va Hva. unfold mapped, frame_of. rewrite Hpv by by apply upage_aligned.
    destruct (Z.eqb_spec va a) as [->|]; auto. }
  constructor; [done| |].
  - intros va Hva Hm. destruct (Hs va Hva Hm) as [(-> & ->)|(Hne & Hm' & ->)].
    + split_and!; [done|..]; intros Hx; (destruct (Hacct p); [by (left + right)|done..]).
    + destruct (Hfr va Hva Hm') as (? & Hn & Ht).
      split_and!; [done|..]; intros Hx;
        (destruct (Hacct (frame_of (mem s) pgdir va)); [by (left + right)|done..]).
  - intros va va' Hva Hva' Hm Hm'.
    destruct (Hs va Hva Hm) as [(-> & ->)|(Hne & Hm1 & ->)],
      (Hs va' Hva' Hm') as [(-> & ->)|(Hne' & Hm1' & ->)]; auto.
    + intros He. by destruct (Hfresh va' Hva' Hm1').
    + intros He. by destruct (Hfresh va Hva Hm1).
Qed.

Lemma vm_step_acct s s' pgdir fl fl' : vm_step s s' pgdir fl fl' ->
  forall q, (q ∈ fl \/ table_page (mem s) pgdir q) <-> (q ∈ fl' \/ table_page (mem s') pgdir q).
Proof.
  intros [_ (used & -> & H) _ _] q. rewrite H, elem_of_app. tauto.
Qed.

(** Mapping the fresh page [p], whose bytes were set to those of [m1], at [a]. *)
Record page_rel (s s' : kmem_t) (pgdir a p perm : Z) (m1 : memory) (fl fl' : list Z) : Prop := {
  pr_inv : uvm_inv s' pgdir fl';
  pr_pte : forall va, aligned va -> pte_val (mem s') pgdir va =
    if va =? a then mkpte (V2P p) perm else pte_val (mem s) pgdir va;
  pr_bytes : forall x, p <= x < p + PGSIZE -> mem s' x = m1 x;
  pr_acct : forall q, (q ∈ p :: fl \/ table_page (mem s) pgdir q) <->
    (q ∈ fl' \/ table_page (mem s') pgdir q \/ q = p);
  pr_tables : forall q, table_page (mem s) pgdir q -> table_page (mem s') pgdir q;
  pr_mem : forall x, outside (mem s') pgdir x -> x < p \/ p + PGSIZE <= x -> mem s' x = mem s x;
  pr_use_lock : use_lock s' = use_lock s;
}.

(** [mappages] ran out of memory: the page [p] is still in the caller's hands. *)
Record page_failed (s s' : kmem_t) (pgdir p : Z) (fl : list Z) : Prop := {
  pf_inv : uvm_inv s' pgdir [];
  pf_table : ~ table_page (mem s') pgdir p;
  pf_frame : forall va, upage va -> mapped (mem s') pgdir va = true -> frame_of (mem s') pgdir va <> p;
  pf_pte : forall va, aligned va -> pte_val (mem s') pgdir va = pte_val (mem s) pgdir va;
  pf_acct : forall q, (q ∈ fl \/ table_page (mem s) pgdir q) <-> table_page (mem s') pgdir q;
  pf_mem : forall x, outside (mem s') pgdir x -> x < p \/ p + PGSIZE <= x -> mem s' x = mem s x;
  pf_use_lock : use_lock s' = use_lock s;
}.

Lemma wp_map_page s pgdir p fl a perm (m1 : memory) (Q : Z -> kmem_t -> Prop) :
  uvm_inv s pgdir (p :: fl) -> upage a -> mapped (mem s) pgdir a = false -> 0 <= perm < 4096 ->
  (forall x, x < p \/ p + PGSIZE <= x -> m1 x = mem s x) ->
  (forall s' fl', page_rel s s' pgdir a p perm m1 fl fl' -> Q 0 s') ->
  (forall s', page_failed s s' pgdir p fl -> Q (-1) s') ->
  wp (mappages pgdir a PGSIZE (V2P p) perm) Q (set_mem m1 (set_freelist (load32 (mem s) p) s)).
Proof.
  intros Hi Ha Hnm Hperm Hm1 HQ0 HQ1.
  destruct (kalloc_uvm s pgdir p fl Hi) as (Hi1 & Hp & Hpn & Hpt & Hpf).
  set (s1 := set_freelist (load32 (mem s) p) s) in *.
  pose proof (valid_page_bounds p Hp) as Hpb.
  destruct (page_write_as s1 pgdir fl p m1) as (Has2 & Hpv2 & Htp2); [apply Hi1|done..|].
  set (s2 := set_mem m1 s1) in *. change (mem s1) with (mem s) in *.
  assert (V2P p = p - 0x80000000) as HV by (unfold V2P; klia).
  pose proof Ha as [Ha1 Ha2].
  assert (uvm_inv s2 pgdir fl) as Hi2.
  { eapply uvm_inv_keep; [exact Hi1|done|auto|]. intros q. by rewrite Htp2. }
  apply (wp_mappages s2 pgdir a PGSIZE (V2P p) perm fl); try done; try klia.
  - intros va' Hal Hr. rewrite Hpv2. destruct Hal. replace va' with a by klia. exact Hnm.
  - intros s3 fl3 H3 Hpv3 _. pose proof (vm_step_acct _ _ _ _ _ H3) as Hacct3.
    assert (forall va, aligned va -> pte_val (mem s3) pgdir va =
      if va =? a then mkpte (V2P p) perm else pte_val (mem s2) pgdir va) as Hpv.
    { intros va Hva. rewrite Hpv3 by done. destruct Hva. destruct (Z.eqb_spec va a) as [->|].
      - rewrite (proj2 (Z.leb_le _ _)), (proj2 (Z.leb_le _ _)) by klia. f_equal. klia.
      - destruct (Z.leb_spec (a - a mod 4096) va),
          (Z.leb_spec va (a - a mod 4096 + 4096 * ((a + PGSIZE - 1) / 4096 - a / 4096)));
          simpl; try done. klia. }
    assert (uvm_inv s3 pgdir fl3) as Hi3.
    { eapply (uvm_inv_add s2 s3 pgdir fl fl3 a p perm); try done.
      - apply H3.
      - intros q Hq. by apply Hacct3.
      - by rewrite Htp2.
      - intros va Hva. unfold mapped, frame_of. rewrite Hpv2. by apply Hpf. }
    assert (~ table_page (mem s3) pgdir p) as Hpt3.
    { intros Ht. destruct (proj2 (Hacct3 p)) as [?|?]; [by right|done|]. by apply Hpt, Htp2. }
    apply (HQ0 s3 fl3). constructor; [done| | | | | |].
    + intros va Hva. by rewrite Hpv, Hpv2.
    + intros x Hx. rewrite (vs_frame _ _ _ _ _ H3); [done|]. intros q Hq.
      apply (valid_page_sep p); [done|eapply table_page_valid; [apply Hi3|done]|by intros ->|done].
    + intros q. rewrite elem_of_cons. specialize (Hacct3 q). rewrite Htp2 in Hacct3. tauto.
    + intros q Hq. apply (vs_mono _ _ _ _ _ q H3). by apply Htp2.
    + intros x Hx Hxp. rewrite (vs_frame _ _ _ _ _ H3) by done. by apply Hm1.
    + apply (vs_use_lock _ _ _ _ _ H3).
  - intros s3 k H3 Hk Hpv3. pose proof (vm_step_acct _ _ _ _ _ H3) as Hacct3.
    assert (k = 0) as -> by klia.
    assert (forall va, aligned va -> pte_val (mem s3) pgdir va = pte_val (mem s) pgdir va) as Hpv.
    { intros va Hva. rewrite Hpv3, Hpv2 by done.
      destruct (Z.leb_spec (a - a mod 4096) va), (Z.ltb_spec va (a - a mod 4096 + 4096 * 0));
        simpl; try done. lia. }
    apply HQ1. constructor; [| | |done| | |].
    + eapply uvm_inv_keep; [exact Hi2|apply H3| |].
      * intros va Hva. by rewrite Hpv, Hpv2.
      * intros q Hq. by apply Hacct3.
    + intros Ht. destruct (proj2 (Hacct3 p)) as [?|?]; [by right|done|]. by apply Hpt, Htp2.
    + intros va Hva. unfold mapped, frame_of. rewrite Hpv by by apply upage_aligned. by apply Hpf.
    + intros q. specialize (Hacct3 q). rewrite Htp2, elem_of_nil in Hacct3. tauto.
    + intros x Hx Hxp. rewrite (vs_frame _ _ _ _ _ H3) by done. by apply Hm1.
    + apply (vs_use_lock _ _ _ _ _ H3).
Qed.

Lemma page_rel_frame s s' pgdir a p perm m1 fl fl' :
  page_rel s s' pgdir a p perm m1 fl fl' -> upage a -> valid_page p -> 0 <= perm < 4096 ->
  mapped (mem s') pgdir a = true /\ frame_of (mem s') pgdir a = p.
Proof.
  intros H Ha Hp Hperm. destruct (mkpte_frame p perm Hp Hperm).
  unfold mapped, frame_of. rewrite (pr_pte _ _ _ _ _ _ _ _ _ H) by by apply upage_aligned.
  by rewrite Z.eqb_refl.
Qed.

(** One page of [allocuvm]: clear and map. *)
Lemma page_rel_alloc s s' pgdir a p fl fl' :
  page_rel s s' pgdir a p user_perm (memset (mem s) p 0 PGSIZE) fl fl' -> upage a -> valid_page p ->
  alloc_rel s s' pgdir a (a + 4096) (p :: fl) fl'.
Proof.
  intros H Ha Hp. destruct (page_rel_frame _ _ _ _ _ _ _ _ _ H Ha Hp) as [Hm Hf]; [done|].
  destruct H as [I1 P1 B1 A1 T1 M1 L1]. pose proof Ha as [Ha1 Ha2].
  assert (forall q, frame_in (mem s') pgdir a (a + 4096) q <-> q = p) as Hfi.
  { intros q. split.
    - intros (va & [Hva1 Hva2] & Hr & _ & ->). replace va with a by zlia. done.
    - intros ->. exists a. by split_and!; [|lia|lia| |]. }
  constructor; [done| | | |done| |done].
  - intros va Hva Hr. rewrite P1 by done. by rewrite (proj2 (Z.eqb_neq _ _)) by lia.
  - intros va Hva Hr. exists p. destruct Hva as [Hva1 Hva2]. replace va with a in * by zlia.
    rewrite P1, Z.eqb_refl by done. split_and!; [done|done|]. intros x Hx.
    rewrite B1, memset_eq by (done || klia).
    by rewrite (proj2 (Z.leb_le _ _)), (proj2 (Z.ltb_lt _ _)) by lia.
  - intros q. rewrite A1, Hfi. tauto.
  - intros x Hx Hq. apply M1; [done|]. apply Hq. by left.
Qed.

(** A frame keeps its contents while more memory is allocated. *)
Lemma alloc_rel_trans s1 s2 s3 pgdir lo mid hi fl1 fl2 fl3 :
  lo <= mid <= hi -> 0 <= lo -> hi <= KERNBASE ->
  alloc_rel s1 s2 pgdir lo mid fl1 fl2 -> alloc_rel s2 s3 pgdir mid hi fl2 fl3 ->
  alloc_rel s1 s3 pgdir lo hi fl1 fl3.
Proof.
  intros Hle Hlo Hhi [I1 S1 N1 A1 T1 M1 L1] [I2 S2 N2 A2 T2 M2 L2].
  assert (forall q, frame_in (mem s2) pgdir lo mid q <-> frame_in (mem s3) pgdir lo mid q) as Hfi.
  { intros q. unfold frame_in, mapped, frame_of. split; intros (va & Hup & Hr & Hm & ->); exists va;
      pose proof (upage_aligned va Hup); by rewrite S2 in * by (done || lia). }
  assert (forall q, frame_in (mem s3) pgdir lo hi q <->
    frame_in (mem s3) pgdir lo mid q \/ frame_in (mem s3) pgdir mid hi q) as Hsplit.
  { intros q. unfold frame_in. split.
    - intros (va & Hup & Hr & Hm & ->).
      destruct (Z_lt_dec va mid); [left|right]; exists va; (split; [done|split; [lia|done]]).
    - intros [(va & Hup & Hr & Hm & ->)|(va & Hup & Hr & Hm & ->)]; exists va;
        (split; [done|split; [lia|done]]). }
  constructor; [done| | | | | |congruence].
  - intros va Hva Hr. rewrite S2, S1 by (done || lia). done.
  - intros va Hva Hr. destruct (Z_lt_dec va mid); [|apply N2; [done|lia]].
    destruct (N1 va Hva) as (f & Hf & Hpv & Hz); [lia|]. exists f.
    rewrite S2 by (done || lia). split_and!; [done|done|]. intros x Hx.
    assert (upage va) as Hup by (destruct Hva; split; [klia|done]).
    destruct (mkpte_frame f user_perm Hf) as [HmP HmF]; [done|].
    assert (frame_of (mem s2) pgdir va = f) as Hfr2 by (unfold frame_of; by rewrite Hpv).
    assert (mapped (mem s2) pgdir va = true) as Hm2 by (unfold mapped; by rewrite Hpv).
    assert (frame_of (mem s3) pgdir va = f /\ mapped (mem s3) pgdir va = true) as [Hfr3 Hm3].
    { unfold frame_of, mapped. by rewrite S2, Hpv by (done || lia). }
    rewrite <- (Hz x Hx). apply M2.
    + intros q Hq. apply (valid_page_sep f); [done|eapply table_page_valid; [apply I2|done]| |done].
      intros ->. destruct (uvm_frames _ _ _ I2 va Hup Hm3) as (_ & _ & Hnt). by rewrite Hfr3 in Hnt.
    + intros q Hq. apply (valid_page_sep f); [done| | |done].
      * pose proof (inv_valid _ _ (as_kmem _ _ _ (uvm_as _ _ _ I1))) as Hv.
        rewrite Forall_forall in Hv. by apply Hv.
      * intros ->. destruct (uvm_frames _ _ _ I1 va Hup Hm2) as (_ & Hnf & _). by rewrite Hfr2 in Hnf.
  - intros q. rewrite A1, Hsplit. specialize (A2 q). rewrite <- Hfi. tauto.
  - auto.
  - intros x Hx Hq. rewrite M2; [|done|].
    + apply M1; [|done]. intros q Hq'. by apply Hx, T2.
    + intros q Hq'. destruct (proj2 (A1 q)) as [?|?]; [by left|by apply Hq|]. by apply Hx, T2, T1.
Qed.

(** Rounding the end of the range up to a page boundary changes nothing. *)
Lemma alloc_rel_round s s' pgdir lo hi hi' fl fl' :
  hi <= hi' -> (forall va, aligned va -> ~ hi <= va < hi') ->
  alloc_rel s s' pgdir lo hi' fl fl' -> alloc_rel s s' pgdir lo hi fl fl'.
Proof.
  intros Hle Hno [I1 S1 N1 A1 T1 M1 L1].
  constructor; [done| | | |done|done|done].
  - intros va Hva Hr. apply S1; [done|]. specialize (Hno va Hva). lia.
  - intros va Hva Hr. apply N1; [done|lia].
  - intros q. rewrite A1.
    assert (frame_in (mem s') pgdir lo hi' q <-> frame_in (mem s') pgdir lo hi q) as ->; [|done].
    split; intros (va & Hup & Hr & Hm & ->); exists va; (split; [done|split; [|done]]); [|lia].
    specialize (Hno va (upage_aligned va Hup)). lia.
Qed.

(** The error path: [deallocuvm] of the range, with the page [x] (if any)
    taken from the free list but not mapped. *)
Lemma wp_undo s0 s pgdir lo a oldsz newsz (fl0 fl X : list Z) (Q : Z -> kmem_t -> Prop) :
  uvm_inv s pgdir fl -> 0 <= oldsz -> lo = oldsz + 4095 - (oldsz + 4095) mod 4096 ->
  lo <= a <= newsz -> oldsz < newsz <= KERNBASE ->
  (forall va, aligned va -> va < lo \/ newsz <= va -> pte_val (mem s) pgdir va = pte_val (mem s0) pgdir va) ->
  (forall va, aligned va -> a <= va < newsz -> mapped (mem s) pgdir va = false) ->
  (forall q, (q ∈ fl0 \/ table_page (mem s0) pgdir q) <->
     (q ∈ fl \/ q ∈ X \/ table_page (mem s) pgdir q \/ frame_in (mem s) pgdir lo a q)) ->
  use_lock s = use_lock s0 ->
  (forall s' fl', uvm_inv s' pgdir fl' ->
     (forall va, aligned va -> va < lo \/ newsz <= va ->
        pte_val (mem s') pgdir va = pte_val (mem s0) pgdir va) ->
     (forall va, aligned va -> lo <= va < newsz -> mapped (mem s') pgdir va = false) ->
     (forall q, (q ∈ fl0 \/ table_page (mem s0) pgdir q) <->
        (q ∈ fl' \/ q ∈ X \/ table_page (mem s') pgdir q)) ->
     (forall q, q ∈ fl' \/ table_page (mem s') pgdir q ->
        q ∈ fl \/ table_page (mem s) pgdir q \/ frame_in (mem s) pgdir lo newsz q) ->
     (forall va, upage va -> mapped (mem s') pgdir va = true ->
        mapped (mem s) pgdir va = true /\ frame_of (mem s') pgdir va = frame_of (mem s) pgdir va) ->
     use_lock s' = use_lock s0 -> Q oldsz s') ->
  wp (deallocuvm pgdir newsz oldsz) Q s.
Proof.
  intros Hi Ho Hlo Hla Hnew Hsame Hun Hacct Hul HQ.
  apply (wp_deallocuvm s pgdir newsz oldsz fl); [done|done|lia|lia|].
  rewrite <- Hlo. intros _ s' fl' [I1 P1 F1 T1 _ L1].
  assert (forall q, frame_in (mem s) pgdir lo newsz q <-> frame_in (mem s) pgdir lo a q) as Hfi.
  { intros q. split; intros (va & Hup & Hr & Hm & ->); exists va; (split; [done|split; [|done]]); [|lia].
    destruct (Z_lt_dec va a); [lia|]. rewrite Hun in Hm; [done|by apply upage_aligned|lia]. }
  apply (HQ s' fl'); [done| | | | | |congruence].
  - intros va Hva Hr. rewrite P1 by done.
    destruct (Z.leb_spec lo va), (Z.ltb_spec va newsz); simpl; try lia; by apply Hsame; [|lia].
  - intros va Hva Hr. unfold mapped at 1. rewrite P1 by done.
    rewrite (proj2 (Z.leb_le _ _)), (proj2 (Z.ltb_lt _ _)) by lia. simpl.
    destruct (mapped (mem s) pgdir va) eqn:E; [done|exact E].
  - intros q. rewrite Hacct, F1, T1, Hfi. tauto.
  - intros q. rewrite F1, T1. tauto.
  - intros va Hup. unfold mapped, frame_of. rewrite P1 by by apply upage_aligned. unfold mapped.
    destruct ((lo <=? va) && (va <? newsz) && has (pte_val (mem s) pgdir va) PTE_P); [done|auto].
Qed.

(** The second error path: the page [p] was taken but could not be mapped. *)
Lemma wp_undo_page s0 s s1 pgdir lo a oldsz newsz p (fl0 fl : list Z) (Q : Z -> kmem_t -> Prop) :
  alloc_rel s0 s pgdir lo a fl0 (p :: fl) -> page_failed s s1 pgdir p fl -> valid_page p ->
  0 <= oldsz -> lo = oldsz + 4095 - (oldsz + 4095) mod 4096 ->
  lo <= a <= newsz -> oldsz < newsz <= KERNBASE ->
  (forall va, aligned va -> a <= va -> va < newsz -> mapped (mem s) pgdir va = false) ->
  (forall s' fl', alloc_undone s0 s' pgdir lo newsz fl0 fl' -> Q 0 s') ->
  wp (deallocuvm pgdir newsz oldsz ;;; kfree p ;;; ret 0) Q s1.
Proof.
  intros Har [Hi1 Hpt1 Hpf1 Hpv1 Ha1 _ Hul1] Hp Ho Hlo Hla Hnew Hun HQ.
  apply wp_bind. apply (wp_undo s0 s1 pgdir lo a oldsz newsz fl0 [] [p]); try done.
  - intros va Hva Hr. rewrite Hpv1 by done. apply (ar_same _ _ _ _ _ _ _ Har); [done|lia].
  - intros va Hva [? ?]. unfold mapped. rewrite Hpv1 by done. by apply Hun.
  - intros q. rewrite (ar_acct _ _ _ _ _ _ _ Har), list_elem_of_singleton, elem_of_cons, elem_of_nil.
    rewrite <- Ha1.
    assert (frame_in (mem s) pgdir lo a q <-> frame_in (mem s1) pgdir lo a q) as ->; [|tauto].
    unfold frame_in, mapped, frame_of.
    split; intros (va & Hup & Hr & Hm & ->); exists va; pose proof (upage_aligned va Hup);
      by rewrite Hpv1 in * by done.
  - rewrite Hul1. apply Har.
  - intros s2 fl2 Hi2 Hs2 Hn2 Ha2 Hb2 Hc2 Hul2.
    assert ((p ∉ fl2) /\ ~ table_page (mem s2) pgdir p) as [Hpn Hpt2].
    { split; intros Hx; (destruct (Hb2 p) as [?%elem_of_nil|[?|(va & Hup & Hr & Hm & He)]];
        [by (left + right)|done|done|]; by apply (Hpf1 va)). }
    apply wp_bind, (wp_kfree_frame s2 pgdir fl2 p); [apply Hi2|done|done|done|].
    intros s3 Has3 Hpv3 Htp3 _ _ Hul3. apply wp_ret, (HQ s3 (p :: fl2)).
    constructor; [| | | |congruence].
    + destruct Hi2 as [_ Hfr2 Hinj2]. constructor; [done| |].
      * intros va Hup. unfold mapped, frame_of. rewrite Hpv3. intros Hm.
        destruct (Hfr2 va Hup Hm) as (? & ? & ?). split_and!; [done| |by rewrite Htp3].
        apply not_elem_of_cons. split; [|done].
        destruct (Hc2 va Hup Hm) as [Hm1 He]. unfold frame_of in He. rewrite He. by apply Hpf1.
      * intros va va' ? ?. unfold mapped, frame_of. rewrite !Hpv3. by apply Hinj2.
    + intros va Hva Hr. rewrite Hpv3. by apply Hs2.
    + intros va Hva Hr. unfold mapped. rewrite Hpv3. by apply Hn2.
    + intros q. rewrite Ha2, Htp3, list_elem_of_singleton, elem_of_cons. tauto.
Qed.

Lemma wp_allocuvm_loop fuel : forall s0 s pgdir lo a oldsz newsz fl0 fl (Q : Z -> kmem_t -> Prop),
  alloc_rel s0 s pgdir lo a fl0 fl -> lo <= a -> a mod 4096 = 0 ->
  0 <= oldsz -> lo = oldsz + 4095 - (oldsz + 4095) mod 4096 -> newsz < KERNBASE -> a < newsz + 4096 ->
  (forall va, aligned va -> lo <= va < newsz -> mapped (mem s0) pgdir va = false) ->
  Z.max 0 ((newsz - a) / 4096 + 1) < Z.of_nat fuel ->
  (forall s' fl', alloc_rel s0 s' pgdir lo newsz fl0 fl' -> Q newsz s') ->
  (forall s' fl', alloc_undone s0 s' pgdir lo newsz fl0 fl' -> Q 0 s') ->
  wp (allocuvm_loop fuel pgdir a oldsz newsz) Q s.
Proof.
  induction fuel as [|fuel IH];
    intros s0 s pgdir lo a oldsz newsz fl0 fl Q Har Hla Hal Ho Hlo Hnew Han Hun Hf HQ1 HQ2; [lia|].
  cbn [allocuvm_loop]. destruct (Z.ltb_spec a newsz) as [Hlt|Hge].
  2: { apply wp_ret, (HQ1 s fl). apply (alloc_rel_round s0 s pgdir lo newsz a); [done| |done].
       intros va [? ?]. zlia. }
  pose proof (ar_inv _ _ _ _ _ _ _ Har) as Hi. pose proof (ar_acct _ _ _ _ _ _ _ Har) as Hacct.
  assert (0 <= lo /\ oldsz < newsz) as [Hlo0 Hon] by zlia.
  assert (upage a) as Hua by (split; [klia|done]).
  assert (forall va, aligned va -> a <= va -> va < newsz -> mapped (mem s) pgdir va = false) as Hun'.
  { intros va Hva ? ?. unfold mapped. rewrite (ar_same _ _ _ _ _ _ _ Har) by (done || lia).
    apply Hun; [done|lia]. }
  assert (forall va, aligned va -> va < lo \/ newsz <= va ->
    pte_val (mem s) pgdir va = pte_val (mem s0) pgdir va) as Hsame.
  { intros va Hva Hr. apply (ar_same _ _ _ _ _ _ _ Har); [done|lia]. }
  apply wp_bind. unfold wp at 1. destruct fl as [|p fl].
  - rewrite kalloc_nil by apply Hi. rewrite Z.eqb_refl. apply wp_bind.
    apply (wp_undo s0 s pgdir lo a oldsz newsz fl0 [] []); try done; try klia.
    + intros va Hva [? ?]. by apply Hun'.
    + intros q. rewrite Hacct. rewrite elem_of_nil. tauto.
    + apply Har.
    + intros s' fl' Hi' Hs' Hn' Ha' _ _ Hul'. apply wp_ret, (HQ2 s' fl').
      constructor; try done. intros q. rewrite Ha', elem_of_nil. tauto.
  - rewrite (kalloc_cons s p fl) by apply Hi.
    destruct (kalloc_uvm s pgdir p fl Hi) as (_ & Hp & _).
    pose proof (valid_page_bounds p Hp). rewrite (proj2 (Z.eqb_neq p 0)) by lia.
    fold user_perm. apply wp_bind, wp_modify, wp_bind.
    apply (wp_map_page s pgdir p fl a user_perm (memset (mem s) p 0 PGSIZE)); try done.
    + apply Hun'; [by apply upage_aligned|lia|lia].
    + intros x Hx. rewrite memset_eq by klia.
      destruct (Z.leb_spec p x), (Z.ltb_spec x (p + PGSIZE)); simpl; try done; lia.
    + intros s1 fl1 H1. rewrite (proj2 (Z.ltb_ge 0 0)) by lia.
      rewrite u32_small by klia.
      apply (IH s0 s1 pgdir lo (a + PGSIZE) oldsz newsz fl0 fl1); try done; try klia.
      apply (alloc_rel_trans s0 s s1 pgdir lo a (a + PGSIZE) fl0 (p :: fl) fl1); [klia|lia|klia|done|].
      by apply page_rel_alloc.
    + intros s1 H1. rewrite (proj2 (Z.ltb_lt (-1) 0)) by lia.
      by apply (wp_undo_page s0 s s1 pgdir lo a oldsz newsz p fl0 fl); try (lia || done).
Qed.

Lemma wp_allocuvm s pgdir oldsz newsz fl (Q : Z -> kmem_t -> Prop) :
  let lo := oldsz + 4095 - (oldsz + 4095) mod 4096 in
  uvm_inv s pgdir fl -> 0 <= oldsz <= newsz -> newsz < KERNBASE ->
  (forall va, aligned va -> lo <= va < newsz -> mapped (mem s) pgdir va = false) ->
  (forall s' fl', alloc_rel s s' pgdir lo newsz fl fl' -> Q newsz s') ->
  (forall s' fl', alloc_undone s s' pgdir lo newsz fl fl' -> Q 0 s') ->
  wp (allocuvm pgdir oldsz newsz) Q s.
Proof.
  intros lo Hi Ho Hn Hun HQ1 HQ2. unfold allocuvm.
  rewrite (proj2 (Z.leb_gt _ _)) by lia. rewrite (proj2 (Z.ltb_ge _ _)) by lia.
  rewrite PGROUNDUP_eq by klia. fold lo.
  apply (wp_allocuvm_loop _ s s pgdir lo lo oldsz newsz fl fl); try done; try (unfold lo; zlia).
  - by apply alloc_rel_refl.
  - kconst. unfold lo. zlia.
Qed.
End VmAlloc.
