(* ===== verification/VmKern.v ===== *)
(** * [setupkvm]: the kernel half of an address space *)
From Stdlib Require Import ZArith Lia Bool.
From stdpp Require Import base list strings.
From S2P Require Import Prelude Machine Cstring Kalloc Vm VmInv VmMap VmUser VmAlloc.

Section VmKern.
Context {I : KernelImage} `{!KernelImageOk I}.

(** The range of one row of [kmap] and the entry it installs. *)
Definition kmap_size (k : kmap_t) : Z := u32 (phys_end k - phys_start k).
Definition kmap_has (k : kmap_t) (va : Z) : bool :=
  (virt k <=? va) && (va <? virt k + kmap_size k).
Definition kmap_pte (k : kmap_t) (va : Z) : Z := mkpte (phys_start k + (va - virt k)) (kperm k).

(** The kernel mapping as a function: the first row that contains [va]. *)
Fixpoint kern_pte (ks : list kmap_t) (va : Z) : Z :=
  match ks with
  | [] => 0
  | k :: ks' => if kmap_has k va then kmap_pte k va else kern_pte ks' va
  end.

Record kmap_ok (k : kmap_t) : Prop := {
  ko_virt : KERNBASE <= virt k /\ virt k mod 4096 = 0;
  ko_size : 0 < kmap_size k /\ kmap_size k mod 4096 = 0 /\ virt k + kmap_size k <= 2 ^ 32;
  ko_phys : 0 <= phys_start k /\ phys_start k mod 4096 = 0 /\ phys_start k + kmap_size k <= 2 ^ 32;
  ko_perm : 0 <= kperm k < 4096;
}.

Lemma kmap_rows_ok : Forall kmap_ok kmap.
Proof.
  pose proof image_data. pose proof image_order. pose proof image_fits.
  pose proof image_data_aligned.
  repeat constructor; unfold kmap_size, V2P; simpl; klia.
Qed.

Definition kmap_disjoint (k k' : kmap_t) : Prop :=
  forall va, kmap_has k va = true -> kmap_has k' va = false.

Lemma kmap_rows_disjoint : ForallOrdPairs kmap_disjoint kmap.
Proof.
  pose proof image_data. pose proof image_order. pose proof image_fits.
  assert (u32 (EXTMEM - 0) = EXTMEM) as E1 by klia.
  assert (u32 (V2P kernel_data - V2P KERNLINK) = kernel_data - KERNLINK) as E2 by (unfold V2P; klia).
  assert (u32 (PHYSTOP - V2P kernel_data) = KERNBASE + PHYSTOP - kernel_data) as E3 by (unfold V2P; klia).
  assert (u32 (0 - DEVSPACE) = 0x2000000) as E4 by klia.
  repeat constructor; intros va; unfold kmap_has, kmap_size; simpl;
    rewrite ?E1, ?E2, ?E3, ?E4; rewrite andb_true_iff, andb_false_iff, !Z.leb_le, !Z.ltb_lt,
      !Z.leb_gt, !Z.ltb_ge; klia.
Qed.

(** The loop of [setupkvm] over rows still to be mapped. *)
Lemma wp_setupkvm_loop ks : forall s pgdir fl (Q : Z -> kmem_t -> Prop),
  as_inv s pgdir fl -> Forall kmap_ok ks -> ForallOrdPairs kmap_disjoint ks ->
  (forall va, aligned va -> va < KERNBASE -> pte_val (mem s) pgdir va = 0) ->
  (forall va, aligned va -> Exists (fun k => kmap_has k va = true) ks ->
     has (pte_val (mem s) pgdir va) PTE_P = false) ->
  (forall s' fl', vm_step s s' pgdir fl fl' ->
     (forall va, aligned va -> pte_val (mem s') pgdir va =
        if decide (Exists (fun k => kmap_has k va = true) ks) then kern_pte ks va
        else pte_val (mem s) pgdir va) ->
     (forall j, 0 <= j < 512 -> pde (mem s') pgdir j = pde (mem s) pgdir j) -> Q pgdir s') ->
  (forall s1 fl1 s' fl', vm_step s s1 pgdir fl fl1 -> kmem_inv s' fl' ->
     (forall va, aligned va -> va < KERNBASE -> pte_val (mem s1) pgdir va = 0) ->
     (forall q, q ∈ fl' <-> q ∈ fl1 \/ table_page (mem s1) pgdir q) ->
     (forall x, (forall q, table_page (mem s1) pgdir q -> x < q \/ q + PGSIZE <= x) -> mem s' x = mem s1 x) ->
     use_lock s' = use_lock s1 -> Q 0 s') ->
  wp (setupkvm_loop ks pgdir) Q s.
Proof.
  induction ks as [|k ks IH]; intros s pgdir fl Q Hi Hok Hdis Hu Hnp HQ HQ0; cbn [setupkvm_loop].
  { apply wp_ret, (HQ s fl); [by apply vm_step_refl| |done]. intros va _.
    destruct (decide _) as [He|]; [by inversion He|done]. }
  apply Forall_cons in Hok as [Hk Hok]. inversion Hdis as [|? ? Hd1 Hd2]; subst.
  destruct Hk as [[Hv1 Hv2] (Hs1 & Hs2 & Hs3) (Hp1 & Hp2 & Hp3) Hperm].
  assert (virt k mod 4096 = 0 /\ (virt k + kmap_size k - 1) / 4096 - virt k / 4096
            = kmap_size k / 4096 - 1) as [_ Hn] by (split; [done|zlia]).
  assert (forall va, aligned va -> (virt k - virt k mod 4096 <=? va) &&
     (va <=? virt k - virt k mod 4096 + 4096 * ((virt k + kmap_size k - 1) / 4096 - virt k / 4096))
     = kmap_has k va) as Hrange.
  { intros va [Ha1 Ha2]. unfold kmap_has. rewrite Hn, Hv2, Z.sub_0_r. f_equal.
    apply eq_true_iff_eq. rewrite Z.leb_le, Z.ltb_lt. zlia. }
  apply wp_bind. fold (kmap_size k).
  apply (wp_mappages s pgdir (virt k) (kmap_size k) (phys_start k) (kperm k) fl);
    try done; try klia.
  - intros va Hal Hr. apply Hnp; [done|]. left. rewrite <- Hrange by done.
    by rewrite (proj2 (Z.leb_le _ _)), (proj2 (Z.leb_le _ _)) by lia.
  - intros s1 fl1 H1 Hpv1 Hd. rewrite (proj2 (Z.ltb_ge 0 0)) by lia.
    assert (forall va, aligned va -> pte_val (mem s1) pgdir va =
      if kmap_has k va then kmap_pte k va else pte_val (mem s) pgdir va) as Hpv.
    { intros va Hva. rewrite Hpv1, Hrange by done. unfold kmap_pte. by rewrite Hv2, Z.sub_0_r. }
    apply (IH s1 pgdir fl1); [apply H1|done|done| | | |].
    + intros va Hva Hlt. rewrite Hpv by done. unfold kmap_has.
      rewrite (proj2 (Z.leb_gt _ _)) by lia. by apply Hu.
    + intros va Hva Hex. rewrite Hpv by done. destruct (kmap_has k va) eqn:E.
      * exfalso. rewrite Forall_forall in Hd1. rewrite Exists_exists in Hex.
        destruct Hex as (k' & Hk' & He'). rewrite (Hd1 k' Hk' va E) in He'. done.
      * apply Hnp; [done|]. by right.
    + intros s2 fl2 H2 Hpv2 Hpd. apply (HQ s2 fl2); [by eapply vm_step_trans| |].
      2: { intros j Hj. rewrite Hpd by done. apply Hd. klia. }
      intros va Hva. rewrite Hpv2, Hpv by done. cbn [kern_pte].
      destruct (decide (Exists _ ks)) as [He|He], (decide (Exists _ (k :: ks))) as [He'|He'].
      * destruct (kmap_has k va) eqn:E; [|done]. exfalso.
        rewrite Forall_forall in Hd1. rewrite Exists_exists in He.
        destruct He as (k' & Hk' & Hx). rewrite (Hd1 k' Hk' va E) in Hx. done.
      * exfalso. apply He'. by right.
      * inversion He' as [? ? Hh|]; subst; [by rewrite Hh|done].
      * destruct (kmap_has k va) eqn:E; [|done]. exfalso. apply He'. by left.
    + intros s2 fl2 s' fl' H2. apply (HQ0 s2 fl2). by eapply vm_step_trans.
  - intros s1 kk H1 Hkk Hpv1. rewrite (proj2 (Z.ltb_lt (-1) 0)) by lia.
    assert (forall va, aligned va -> va < KERNBASE -> pte_val (mem s1) pgdir va = 0) as Hu1.
    { intros va Hva Hlt. rewrite Hpv1 by done. rewrite Hv2, Z.sub_0_r.
      rewrite (proj2 (Z.leb_gt _ _)) by lia. by apply Hu. }
    assert (forall va, upage va -> mapped (mem s1) pgdir va = false) as Hum.
    { intros va Hva. unfold mapped. rewrite Hu1; [done|by apply upage_aligned|apply Hva]. }
    assert (uvm_inv s1 pgdir []) as Hi1.
    { constructor; [apply H1| |]; intros va; [|intros va']; intros Hva; rewrite Hum by done; done. }
    apply wp_bind, (wp_freevm s1 pgdir []); [done|].
    intros s' fl' Hk' Hq' Hm' Hul'.
    assert (forall q, owned_page (mem s1) pgdir q <-> table_page (mem s1) pgdir q) as Hown.
    { intros q. split; [|by left]. intros [?|(va & Hva & _ & Hm & _)]; [done|].
      by rewrite Hum in Hm. }
    apply wp_ret, (HQ0 s1 [] s' fl'); try done.
    + intros q. by rewrite Hq', Hown.
    + intros x Hx. apply Hm'. intros q Hq%Hown. by apply Hx.
Qed.

Lemma kern_pte_none ks va : ~ Exists (fun k => kmap_has k va = true) ks -> kern_pte ks va = 0.
Proof.
  induction ks as [|k ks IH]; intros Hn; [done|]. cbn [kern_pte].
  destruct (kmap_has k va) eqn:E.
  - exfalso. apply Hn. by left.
  - apply IH. intros He. apply Hn. by right.
Qed.

Lemma kern_pte_user ks va : Forall kmap_ok ks -> va < KERNBASE -> kern_pte ks va = 0.
Proof.
  intros Hok Hva. apply kern_pte_none. intros He. apply Exists_exists in He as (k & Hk & Hh).
  rewrite Forall_forall in Hok. destruct (Hok k Hk) as [[Hv _] _ _ _].
  unfold kmap_has in Hh. apply andb_true_iff in Hh as [Hh%Z.leb_le _]. lia.
Qed.

(** A cleared page is an empty page directory. *)
Lemma fresh_dir s p fl : kmem_inv s (p :: fl) ->
  let s' := set_mem (memset (mem s) p 0 PGSIZE) (set_freelist (load32 (mem s) p) s) in
  as_inv s' p fl /\ (forall va, pte_val (mem s') p va = 0) /\ (forall i, 0 <= i < 1024 -> pde (mem s') p i = 0) /\
  (forall q, table_page (mem s') p q <-> q = p) /\
  (forall x, x < p \/ p + PGSIZE <= x -> mem s' x = mem s x).
Proof.
  intros Hk s'. pose proof (kmem_inv_kalloc _ _ _ Hk) as Hk1.
  pose proof (inv_valid _ _ Hk) as Hv. apply Forall_cons in Hv as [Hp Hv].
  pose proof (inv_nodup _ _ Hk) as Hnd. apply NoDup_cons in Hnd as [Hpn Hnd].
  assert (forall x, x < p \/ p + PGSIZE <= x -> mem s' x = mem s x) as Hout.
  { intros x Hx. simpl. rewrite memset_eq by klia.
    destruct (Z.leb_spec p x), (Z.ltb_spec x (p + PGSIZE)); simpl; try done; lia. }
  assert (forall i, 0 <= i < 1024 -> pde (mem s') p i = 0) as Hz.
  { intros i Hi. unfold pde. transitivity (load32 (fun _ => 0) (p + 4 * i)); [|done].
    apply load32_agree. intros x Hx. simpl. rewrite memset_eq by klia.
    by rewrite (proj2 (Z.leb_le _ _)), (proj2 (Z.ltb_lt _ _)) by klia. }
  assert (forall q, table_page (mem s') p q <-> q = p) as Htp.
  { intros q. split; [|by left]. intros [?|(i & Hi & Hpi & _)]; [done|]. by rewrite Hz in Hpi. }
  split_and!; [constructor| |done|done|done].
  - destruct Hk1 as [H1 H2 H3 H4]. constructor; [done| |done|done].
    eapply fl_rep_frame; [exact H2|]. intros q x Hq Hx. apply Hout.
    rewrite Forall_forall in Hv. apply (valid_page_sep q); auto. by intros ->.
  - constructor; [done|..]; intros i; [|intros j]; intros Hi; rewrite (Hz i Hi); done.
  - by intros q ->%Htp.
  - intros va. unfold pte_val. by rewrite Hz by apply PDX_range.
Qed.

Lemma wp_setupkvm s fl (Q : Z -> kmem_t -> Prop) :
  kmem_inv s fl ->
  (forall s' pgdir fl', as_inv s' pgdir fl' ->
     (forall va, aligned va -> pte_val (mem s') pgdir va = kern_pte kmap va) ->
     (forall j, 0 <= j < 512 -> pde (mem s') pgdir j = 0) ->
     (forall q, q ∈ fl <-> q ∈ fl' \/ table_page (mem s') pgdir q) ->
     (forall x, (forall q, q ∈ fl -> x < q \/ q + PGSIZE <= x) -> mem s' x = mem s x) ->
     use_lock s' = use_lock s -> Q pgdir s') ->
  (forall s' fl', kmem_inv s' fl' -> (forall q, q ∈ fl' <-> q ∈ fl) ->
     (forall x, (forall q, q ∈ fl -> x < q \/ q + PGSIZE <= x) -> mem s' x = mem s x) ->
     use_lock s' = use_lock s -> Q 0 s') ->
  wp setupkvm Q s.
Proof.
  intros Hk HQ HQ0. unfold setupkvm. apply wp_bind. unfold wp at 1. destruct fl as [|p fl].
  { rewrite kalloc_nil by done. by apply (HQ0 s []). }
  rewrite (kalloc_cons s p fl) by done.
  pose proof (inv_valid _ _ Hk) as Hv. apply Forall_cons in Hv as [Hp%valid_page_bounds _].
  rewrite (proj2 (Z.eqb_neq p 0)) by lia.
  destruct (fresh_dir s p fl Hk) as (Has & Hpv & Hpd & Htp & Hout).
  apply wp_bind, wp_modify. set (s2 := set_mem _ _) in *.
  assert (forall s' fl', vm_step s2 s' p fl fl' ->
    (forall q, q ∈ p :: fl <-> q ∈ fl' \/ table_page (mem s') p q) /\
    (forall x, (forall q, q ∈ p :: fl -> x < q \/ q + PGSIZE <= x) -> mem s' x = mem s x)) as Hstep.
  { intros s' fl' H1.
    assert (forall q, q ∈ p :: fl <-> q ∈ fl' \/ table_page (mem s') p q) as Ha.
    { intros q. rewrite <- (vm_step_acct _ _ _ _ _ H1), Htp, elem_of_cons. tauto. }
    split; [done|]. intros x Hx. rewrite (vs_frame _ _ _ _ _ H1).
    - apply Hout, Hx. by left.
    - intros q Hq. apply Hx, Ha. by right. }
  apply (wp_setupkvm_loop kmap s2 p fl); [done|apply kmap_rows_ok|apply kmap_rows_disjoint| | | |].
  - intros. apply Hpv.
  - intros. by rewrite Hpv.
  - intros s' fl' H1 Hpv1 Hpd1. destruct (Hstep s' fl' H1) as [Ha Hm].
    apply (HQ s' p fl'); [apply H1| |intros j Hj; rewrite Hpd1 by done; apply Hpd; lia|done|done|apply H1].
    intros va Hva. rewrite Hpv1 by done. destruct (decide _) as [|Hn]; [done|].
    by rewrite Hpv, kern_pte_none.
  - intros s1 fl1 s' fl' H1 Hk' _ Hq' Hm' Hul'. destruct (Hstep s1 fl1 H1) as [Ha Hm].
    apply (HQ0 s' fl'); [done| | |rewrite Hul'; apply H1].
    + intros q. by rewrite Hq', Ha.
    + intros x Hx. rewrite Hm'; [by apply Hm|]. intros q Hq. apply Hx, Ha. by right.
Qed.
End VmKern.
