(* ===== verification/VmCopy.v ===== *)
(** * [copyuvm]: the child's copy of the parent's memory *)
From Stdlib Require Import ZArith Lia Bool.
From stdpp Require Import base list strings.
From S2P Require Import Prelude Machine Cstring Kalloc Vm VmInv VmMap VmUser VmAlloc VmKern.

Section VmCopy.
Context {I : KernelImage} `{!KernelImageOk I}.

(** The page at [va] of the copy holds the bytes and the flags of the page at
    [va] of the original. *)
Definition page_copied (m0 : memory) (pd : Z) (m : memory) (d va : Z) : Prop :=
  exists f, valid_page f /\
    pte_val m d va = mkpte (V2P f) (PTE_FLAGS (pte_val m0 pd va)) /\
    forall k, 0 <= k < 4096 -> load8 m (f + k) = load8 m0 (frame_of m0 pd va + k).

(** State of the loop before page [i]. *)
Record copy_rel (s0 s : kmem_t) (pd d i : Z) (fl0 fl : list Z) : Prop := {
  cr_inv : uvm_inv s d fl;
  cr_acct : forall q, q ∈ fl0 <-> q ∈ fl \/ owned_page (mem s) d q;
  cr_mem : forall x, (forall q, q ∈ fl0 -> x < q \/ q + PGSIZE <= x) -> mem s x = mem s0 x;
  cr_copied : forall va, upage va -> va < i -> page_copied (mem s0) pd (mem s) d va;
  cr_rest : forall va, upage va -> i <= va -> pte_val (mem s) d va = 0;
  cr_kern : forall va, aligned va -> KERNBASE <= va -> pte_val (mem s) d va = kern_pte kmap va;
  cr_use_lock : use_lock s = use_lock s0;
}.

(** Tables and frames of the parent are not touched. *)
Lemma parent_kept s0 s pd d i fl0 fl :
  uvm_inv s0 pd fl0 -> copy_rel s0 s pd d i fl0 fl ->
  (forall va, pte_val (mem s) pd va = pte_val (mem s0) pd va) /\
  (forall j, 0 <= j < 1024 -> pde (mem s) pd j = pde (mem s0) pd j) /\
  (forall va x, upage va -> mapped (mem s0) pd va = true ->
     frame_of (mem s0) pd va <= x < frame_of (mem s0) pd va + PGSIZE -> mem s x = mem s0 x).
Proof.
  intros Hi Hc. pose proof (uvm_as _ _ _ Hi) as [Hk Hwf Hdis].
  pose proof (inv_valid _ _ Hk) as Hv. rewrite Forall_forall in Hv.
  assert (forall q x, table_page (mem s0) pd q -> q <= x < q + PGSIZE -> mem s x = mem s0 x) as Ha.
  { intros q x Hq Hx. apply (cr_mem _ _ _ _ _ _ _ Hc). intros q' Hq'.
    apply (valid_page_sep q); auto; [by eapply table_page_valid|]. intros ->. by apply (Hdis q'). }
  split_and!.
  - intros va. by apply agree_pte_val.
  - intros j Hj. by apply agree_pde.
  - intros va x Hva Hm Hx. apply (cr_mem _ _ _ _ _ _ _ Hc). intros q' Hq'.
    destruct (uvm_frames _ _ _ Hi va Hva Hm) as (Hvf & Hnf & _).
    apply (valid_page_sep (frame_of (mem s0) pd va)); auto. intros <-. done.
Qed.

Lemma PTE_FLAGS_range v : 0 <= PTE_FLAGS v < 4096.
Proof. rewrite PTE_FLAGS_eq. zlia. Qed.

(** One page. *)
Lemma copy_step s0 s s1 pd d i p fl0 fl fl1 :
  uvm_inv s0 pd fl0 -> copy_rel s0 s pd d i fl0 (p :: fl) -> upage i ->
  mapped (mem s0) pd i = true -> valid_page p ->
  page_rel s s1 d i p (PTE_FLAGS (pte_val (mem s0) pd i))
    (memmove (mem s) p (frame_of (mem s0) pd i) PGSIZE) fl fl1 ->
  copy_rel s0 s1 pd d (i + PGSIZE) fl0 fl1.
Proof.
  intros Hi0 Hc Hi Hm Hp Hpr.
  destruct (parent_kept _ _ _ _ _ _ _ Hi0 Hc) as (_ & _ & Hbytes).
  destruct (page_rel_frame _ _ _ _ _ _ _ _ _ Hpr Hi Hp (PTE_FLAGS_range _)) as [Hm1 Hf1].
  destruct Hpr as [I1 P1 B1 A1 T1 M1 L1]. destruct Hc as [I0 A0 M0 C0 R0 K0 L0].
  pose proof Hi as [Hi1 Hi2].
  assert (forall va, upage va -> va <> i -> pte_val (mem s1) d va = pte_val (mem s) d va) as Hold.
  { intros va Hva Hne. rewrite P1 by by apply upage_aligned. by rewrite (proj2 (Z.eqb_neq _ _)). }
  constructor; [done| | | | | |congruence].
  - intros q. rewrite A0. unfold owned_page.
    assert (frame_in (mem s1) d 0 KERNBASE q <-> frame_in (mem s) d 0 KERNBASE q \/ q = p) as ->.
    { unfold frame_in, mapped, frame_of. split.
      - intros (va & Hva & Hr & Hmv & ->). destruct (Z.eq_dec va i) as [->|Hne]; [by right|].
        left. exists va. by rewrite Hold in * by done.
      - intros [(va & Hva & Hr & Hmv & ->)| ->].
        + exists va. destruct (Z.eq_dec va i) as [->|Hne]; [by rewrite R0 in Hmv by (done || lia)|].
          by rewrite Hold by done.
        + by exists i. }
    specialize (A1 q). tauto.
  - intros x Hx. rewrite M1; [by apply M0| |].
    + intros q Hq. apply Hx, A0. destruct (proj2 (A1 q)) as [?|?]; [tauto|by left|by right; left].
    + apply Hx, A0. left. by left.
  - intros va Hva Hlt. destruct (Z.eq_dec va i) as [->|Hne].
    + exists p. split; [done|]. rewrite P1, Z.eqb_refl by by apply upage_aligned. split; [done|].
      intros k Hk. unfold load8. rewrite B1 by klia. rewrite memmove_eq by klia.
      rewrite (proj2 (Z.leb_le _ _)), (proj2 (Z.ltb_lt _ _)) by klia. simpl.
      replace (frame_of (mem s0) pd i + (p + k - p)) with (frame_of (mem s0) pd i + k) by lia.
      unfold load8. rewrite (Hbytes i) by (done || klia). by rewrite u8_small by apply u8_range.
    + assert (va < i) as Hlt' by (destruct Hva; klia).
      destruct (C0 va Hva Hlt') as (f & Hf & Hpv & Hb). exists f.
      rewrite Hold by done. split_and!; [done|done|]. intros k Hk. rewrite <- Hb by done.
      unfold load8. f_equal.
      destruct (mkpte_frame f (PTE_FLAGS (pte_val (mem s0) pd va)) Hf (PTE_FLAGS_range _)) as [HmP HmF].
      assert (mapped (mem s1) d va = true /\ frame_of (mem s1) d va = f) as [Hmv Hfv].
      { unfold mapped, frame_of. by rewrite Hold, Hpv by done. }
      apply M1.
      * intros q Hq. apply (valid_page_sep f); [done|eapply table_page_valid; [apply I1|done]| |klia].
        intros ->. destruct (uvm_frames _ _ _ I1 va Hva Hmv) as (_ & _ & Hnt). by rewrite Hfv in Hnt.
      * apply (valid_page_sep f); [done|done| |klia]. intros ->.
        apply Hne. apply (uvm_inj _ _ _ I1); [done|done|done|done|congruence].
  - intros va Hva Hge. rewrite Hold by (done || klia). apply R0; [done|klia].
  - intros va Hva Hge. rewrite P1 by done. rewrite (proj2 (Z.eqb_neq _ _)) by lia. by apply K0.
Qed.

(** Outcomes of [copyuvm]. *)
Record copy_done (s0 s : kmem_t) (pd d sz : Z) (fl0 fl : list Z) : Prop := {
  cd_inv : uvm_inv s d fl;
  cd_acct : forall q, q ∈ fl0 <-> q ∈ fl \/ owned_page (mem s) d q;
  cd_mem : forall x, (forall q, q ∈ fl0 -> x < q \/ q + PGSIZE <= x) -> mem s x = mem s0 x;
  cd_user : forall va, upage va -> if va <? sz then page_copied (mem s0) pd (mem s) d va
                                   else pte_val (mem s) d va = 0;
  cd_kern : forall va, aligned va -> KERNBASE <= va -> pte_val (mem s) d va = kern_pte kmap va;
}.

(** Failure: nothing is lost when [kalloc] fails, but when [mappages] fails
    ([lost]) the page just allocated is neither free nor mapped anywhere. *)
Definition copy_failed (lost : bool) (s0 s : kmem_t) (fl0 fl : list Z) : Prop :=
  kmem_inv s fl /\
  (forall x, (forall q, q ∈ fl0 -> x < q \/ q + PGSIZE <= x) -> mem s x = mem s0 x) /\
  if lost then exists p, (p ∈ fl0) /\ (p ∉ fl) /\ forall q, q ∈ fl0 <-> q ∈ fl \/ q = p
  else forall q, q ∈ fl0 <-> q ∈ fl.

(** ** What the copy costs

    Every page takes a frame, and the first of each 4 megabytes a table as
    well.  So the pool runs out between frame and table, and that frame is
    lost, exactly when it held one page more than a number of full tables. *)
Definition pages (sz : Z) : Z := (sz + 4095) / 4096.
Definition copy_cost (k : Z) : Z := k + (k + 1023) / 1024.
Definition strands (n : Z) : bool := n mod 1025 =? 1.

(** The pool held [n] pages when the copy began. *)
Record copy_used (n : Z) (s : kmem_t) (d i : Z) (fl : list Z) : Prop := {
  cu_count : Z.of_nat (length fl) + copy_cost (i / 4096) = n;
  cu_tables : forall j, 0 <= j < 512 -> has (pde (mem s) d j) PTE_P = (j * 2 ^ 22 <? i);
}.

Lemma PDX_user i : upage i -> PDX i = i / 2 ^ 22 /\ 0 <= PDX i < 512.
Proof. intros [Hi _]. rewrite PDX_eq. split; klia. Qed.

Lemma used_present n s d i fl : copy_used n s d i fl -> upage i ->
  has (pde (mem s) d (PDX i)) PTE_P = negb (i / 4096 mod 1024 =? 0).
Proof.
  intros [_ H] Hi. destruct (PDX_user i Hi) as [HP Hr]. rewrite H, HP by done. destruct Hi as [Hi1 Hi2].
  destruct (Z.ltb_spec (i / 2 ^ 22 * 2 ^ 22) i), (Z.eqb_spec (i / 4096 mod 1024) 0); try done; klia.
Qed.

Lemma cost_next k : 0 <= k -> copy_cost (k + 1) = copy_cost k + 1 + (if k mod 1024 =? 0 then 1 else 0).
Proof. intros Hk. unfold copy_cost. destruct (Z.eqb_spec (k mod 1024) 0); zlia. Qed.
Lemma copy_cost_mono k l : 0 <= k <= l -> copy_cost k <= copy_cost l.
Proof. intros H. unfold copy_cost. zlia. Qed.
Lemma strands_frame k : 0 <= k -> strands (copy_cost k) = false.
Proof. intros Hk. apply Z.eqb_neq. unfold copy_cost. zlia. Qed.
Lemma strands_table k : 0 <= k -> k mod 1024 = 0 -> strands (copy_cost k + 1) = true.
Proof. intros Hk H. apply Z.eqb_eq. unfold copy_cost. zlia. Qed.

Lemma used_step n s s' d i p fl fl' : copy_used n s d i (p :: fl) -> upage i -> tabled s s' d i fl fl' ->
  copy_used n s' d (i + 4096) fl'.
Proof.
  intros Hu Hi (Hk & Hl & Hd). pose proof (used_present _ _ _ _ _ Hu Hi) as Hp. destruct Hu as [Hc Ht]. rewrite Hp in Hl.
  pose proof (PDX_user i Hi) as [HP Hr]. destruct Hi as [Hi1 Hi2]. constructor.
  - replace ((i + 4096) / 4096) with (i / 4096 + 1) by zlia. rewrite cost_next by zlia. cbn [length] in Hc.
    destruct (i / 4096 mod 1024 =? 0); cbn [negb] in Hl; lia.
  - intros j Hj. rewrite Hd, Ht by lia. rewrite HP. destruct (Z.eqb_spec j (i / 2 ^ 22)); cbn [orb].
    + symmetry. apply Z.ltb_lt. zlia.
    + destruct (Z.ltb_spec (j * 2 ^ 22) i), (Z.ltb_spec (j * 2 ^ 22) (i + 4096)); try done; zlia.
Qed.

(** [mappages] failed: the copy is taken down, the new page stays lost. *)
Lemma wp_copy_unmapped s0 s s1 pd d i p fl0 fl (Q : Z -> kmem_t -> Prop) :
  copy_rel s0 s pd d i fl0 (p :: fl) ->
  page_failed s s1 d p fl ->
  (forall s' fl', copy_failed true s0 s' fl0 fl' -> Q 0 s') ->
  wp (freevm d ;;; ret 0) Q s1.
Proof.
  intros Hc H1 HQ. apply wp_bind, (wp_freevm s1 d []); [apply H1|]. intros s' fl' Hk' Hq' Hm' _.
  assert (forall q, frame_in (mem s1) d 0 KERNBASE q <-> frame_in (mem s) d 0 KERNBASE q) as Hfi.
  { intros q. unfold frame_in, mapped, frame_of.
    split; intros (va & Hva & Hr & Hmv & ->); exists va; pose proof (upage_aligned va Hva);
      by rewrite (pf_pte _ _ _ _ _ H1) in * by done. }
  assert (forall q, q ∈ fl0 <-> q ∈ fl' \/ q = p) as Hacct.
  { intros q. rewrite (cr_acct _ _ _ _ _ _ _ Hc), Hq'. unfold owned_page. rewrite Hfi, elem_of_cons.
    pose proof (pf_acct _ _ _ _ _ H1 q). rewrite elem_of_nil. tauto. }
  assert (~ owned_page (mem s1) d p) as Hnp.
  { intros [Ht|(va & Hva & _ & Hmv & He)]; [by apply (pf_table _ _ _ _ _ H1)|].
    by apply (pf_frame _ _ _ _ _ H1 va). }
  apply wp_ret, (HQ s' fl'). split; [done|]. split.
  - intros x Hx. rewrite Hm', (pf_mem _ _ _ _ _ H1).
    + by apply (cr_mem _ _ _ _ _ _ _ Hc).
    + intros q Hq. apply Hx, Hacct. left. apply Hq'. right. by left.
    + apply Hx, Hacct. by right.
    + intros q Hq. apply Hx, Hacct. left. apply Hq'. by right.
  - exists p. split; [apply Hacct; by right|]. split; [|done].
    rewrite Hq', elem_of_nil. tauto.
Qed.

(** Mapping the new page, with what it takes from the pool. *)
Lemma wp_copy_page s d p fl a perm (m1 : memory) (Q : Z -> kmem_t -> Prop) :
  uvm_inv s d (p :: fl) -> upage a -> mapped (mem s) d a = false -> 0 <= perm < 4096 ->
  (forall x, x < p \/ p + PGSIZE <= x -> m1 x = mem s x) ->
  (forall s' fl', page_rel s s' d a p perm m1 fl fl' -> tabled s s' d a fl fl' -> Q 0 s') ->
  (forall s', page_failed s s' d p fl -> fl = [] -> has (pde (mem s) d (PDX a)) PTE_P = false -> Q (-1) s') ->
  wp (mappages d a PGSIZE (V2P p) perm) Q (set_mem m1 (set_freelist (load32 (mem s) p) s)).
Proof.
  intros Hi Ha Hnm Hperm Hm1 HQ0 HQ1. destruct (kalloc_uvm s d p fl Hi) as (Hi1 & Hp & Hpn & Hpt & _).
  set (s1 := set_freelist (load32 (mem s) p) s) in *.
  destruct (page_write_as s1 d fl p m1) as (Has2 & Hpv2 & _); [apply Hi1|done..|]. pose proof (uvm_as _ _ _ Hi1) as [_ Hwf _].
  assert (forall j, 0 <= j < 1024 -> pde m1 d j = pde (mem s) d j) as Hpde.
  { intros j Hj. apply agree_pde; [|done]. intros q x Hq Hx. apply Hm1. apply (valid_page_sep q); [by eapply table_page_valid|done| |done].
    by intros ->. }
  assert (has (pte_val (mem (set_mem m1 s1)) d a) PTE_P = false) as Hn2 by (rewrite Hpv2; exact Hnm).
  pose proof (wp_page_tables (set_mem m1 s1) d a (V2P p) perm fl Has2 (upage_aligned a Ha) Hn2) as Hw.
  eapply wp_mono; [eapply wp_and; [exact Hw|]|].
  - apply (wp_map_page s d p fl a perm m1 (fun r s' => r = 0 /\ (exists fl', page_rel s s' d a p perm m1 fl fl') \/
      r = -1 /\ page_failed s s' d p fl)); try done; intros; eauto.
  - intros r s' [[(-> & fl1 & Ht)|(-> & He & Hab)] [(Hr & H)|(Hr & H)]]; try done.
    + destruct H as [fl' H]. apply (HQ0 s' fl'); [done|].
      assert (fl' = fl1) as -> by (eapply fl_rep_unique; [apply (pr_inv _ _ _ _ _ _ _ _ _ H)|apply Ht]).
      unfold tabled in *. cbn [mem set_mem] in Ht. pose proof (PDX_range a). rewrite Hpde in Ht by done.
      split; [apply Ht|]. split; [apply Ht|]. intros j Hj. rewrite <- (Hpde j Hj). by apply Ht.
    + apply (HQ1 s'); [done|done|]. rewrite <- Hpde by apply PDX_range. exact Hab.
Qed.

Lemma wp_copyuvm_loop fuel : forall n s0 s pd d i sz fl0 fl (Q : Z -> kmem_t -> Prop),
  uvm_inv s0 pd fl0 -> copy_rel s0 s pd d i fl0 fl -> copy_used n s d i fl -> 0 <= i -> i mod 4096 = 0 ->
  sz <= KERNBASE -> i < sz + 4096 -> 0 <= sz ->
  (forall va, upage va -> va < sz -> mapped (mem s0) pd va = true) ->
  Z.max 0 ((sz - i) / 4096 + 1) < Z.of_nat fuel ->
  (forall s' fl', copy_cost (pages sz) <= n -> copy_done s0 s' pd d sz fl0 fl' -> Q d s') ->
  (forall s' fl', n < copy_cost (pages sz) -> copy_failed (strands n) s0 s' fl0 fl' -> Q 0 s') ->
  wp (copyuvm_loop fuel pd d i sz) Q s.
Proof.
  induction fuel as [|fuel IH];
    intros n s0 s pd d i sz fl0 fl Q Hi0 Hc Hu Hi1 Hi2 Hsz Hisz Hsz0 Hmap Hf HQ HQ0; [lia|].
  cbn [copyuvm_loop]. destruct (Z.ltb_spec i sz) as [Hlt|Hge].
  2: { apply wp_ret, (HQ s fl).
       - pose proof (cu_count _ _ _ _ _ Hu). replace (pages sz) with (i / 4096) by (unfold pages; zlia). lia.
       - destruct Hc as [I0 A0 M0 C0 R0 K0 L0]. constructor; try done.
         intros va Hva. destruct (Z.ltb_spec va sz); [by apply C0; [|lia]|].
         destruct (Z_lt_dec va i); [destruct Hva; zlia|]. by apply R0; [|lia]. }
  assert (upage i) as Hup by (split; [klia|done]).
  pose proof (Hmap i Hup Hlt) as Hm.
  destruct (parent_kept _ _ _ _ _ _ _ Hi0 Hc) as (Hpv & Hpde & _).
  assert (has (pde (mem s) pd (PDX i)) PTE_P = true) as Hp.
  { rewrite Hpde by apply PDX_range. unfold mapped, pte_val in Hm. by destruct (has (pde _ _ _) _). }
  pose proof (uvm_as _ _ _ Hi0) as Has0.
  apply wp_bind. unfold wp at 1. rewrite walk_present by done.
  assert (ptpage (mem s) pd (PDX i) = ptpage (mem s0) pd (PDX i)) as Hpt
    by (unfold ptpage; by rewrite Hpde by apply PDX_range).
  rewrite (proj2 (Z.eqb_neq _ 0)).
  2: { rewrite Hpt. apply slot_nonzero; [apply Has0|]. by rewrite <- Hpde by apply PDX_range. }
  apply wp_bind, wp_gets. rewrite slot_val, Hpv by done. fold (mapped (mem s0) pd i). rewrite Hm.
  cbn [negb]. fold (frame_of (mem s0) pd i). pose proof (cr_inv _ _ _ _ _ _ _ Hc) as Hid.
  pose proof (uvm_as _ _ _ Hid) as [Hkd _ _]. pose proof (cu_count _ _ _ _ _ Hu) as Hn.
  assert (copy_cost (i / 4096) + 1 + (if i / 4096 mod 1024 =? 0 then 1 else 0) <= copy_cost (pages sz)) as Hmore.
  { rewrite <- cost_next by zlia. apply copy_cost_mono. unfold pages. zlia. }
  apply wp_bind. unfold wp at 1. destruct fl as [|p fl].
  - rewrite kalloc_nil by done. rewrite Z.eqb_refl. cbn [length] in Hn. change (Z.of_nat 0) with 0 in Hn.
    apply wp_bind, (wp_freevm s d []); [done|]. intros s' fl' Hk' Hq' Hm' Hul'.
    apply wp_ret, (HQ0 s' fl'); [destruct (_ =? 0); lia|].
    rewrite <- Hn, Z.add_0_l, strands_frame by zlia. split; [done|]. split.
    + intros x Hx. rewrite Hm'; [by apply (cr_mem _ _ _ _ _ _ _ Hc)|].
      intros q Hq. apply Hx, (cr_acct _ _ _ _ _ _ _ Hc). by right.
    + intros q. by rewrite (cr_acct _ _ _ _ _ _ _ Hc), Hq'.
  - rewrite (kalloc_cons s p fl) by done.
    destruct (kalloc_uvm s d p fl Hid) as (_ & Hvp & _).
    pose proof (valid_page_bounds p Hvp). rewrite (proj2 (Z.eqb_neq p 0)) by lia.
    apply wp_bind, wp_modify, wp_bind.
    apply (wp_copy_page s d p fl i (PTE_FLAGS (pte_val (mem s0) pd i))
             (memmove (mem s) p (frame_of (mem s0) pd i) PGSIZE)); try done.
    + unfold mapped. by rewrite (cr_rest _ _ _ _ _ _ _ Hc) by (done || lia).
    + apply PTE_FLAGS_range.
    + intros x Hx. rewrite memmove_eq by klia.
      destruct (Z.leb_spec p x), (Z.ltb_spec x (p + PGSIZE)); simpl; try done; lia.
    + intros s1 fl1 H1 Ht. rewrite (proj2 (Z.ltb_ge 0 0)) by lia. rewrite u32_small by klia.
      apply (IH n s0 s1 pd d (i + PGSIZE) sz fl0 fl1); try done; try klia.
      * by apply (copy_step s0 s s1 pd d i p fl0 fl fl1).
      * by eapply used_step.
    + intros s1 H1 -> Hab. rewrite (proj2 (Z.ltb_lt (-1) 0)) by lia.
      rewrite (used_present _ _ _ _ _ Hu Hup) in Hab. apply negb_false_iff in Hab. rewrite Hab in Hmore. apply Z.eqb_eq in Hab.
      apply (wp_copy_unmapped s0 s s1 pd d i p fl0 []); [done|done|]. cbn [length] in Hn. change (Z.of_nat 1) with 1 in Hn.
      intros s' fl' Hfail. apply (HQ0 s' fl'); [lia|]. rewrite <- Hn, Z.add_comm, strands_table by zlia. done.
Qed.

(** The pool before the copy is what [setupkvm] has left. *)
Definition copied (s : kmem_t) (pd sz : Z) (fl : list Z) (d n r : Z) (s' : kmem_t) : Prop :=
  exists fl',
    if d =? 0 then r = 0 /\ copy_failed false s s' fl fl'
    else if copy_cost (pages sz) <=? n then r = d /\ copy_done s s' pd r sz fl fl'
    else r = 0 /\ copy_failed (strands n) s s' fl fl'.

Lemma wp_copyuvm s pd sz fl :
  uvm_inv s pd fl -> 0 <= sz <= KERNBASE ->
  (forall va, upage va -> va < sz -> mapped (mem s) pd va = true) ->
  wp setupkvm (fun d s1 => (d = 0 \/ valid_page d) /\ exists fl1, kmem_inv s1 fl1 /\
    wp (if d =? 0 then ret 0 else copyuvm_loop (S (Z.to_nat (sz / PGSIZE + 1))) pd d 0 sz)
      (copied s pd sz fl d (Z.of_nat (length fl1))) s1) s.
Proof.
  intros Hi Hsz Hmap. apply (wp_setupkvm s fl); [apply Hi| |].
  - intros s1 d fl1 Has Hpv Hpd Hacct Hm Hul.
    pose proof (wf_dir _ _ (as_wf _ _ _ Has)) as Hd. pose proof (valid_page_bounds d Hd).
    split; [by right|]. exists fl1. split; [apply Has|]. unfold copied. rewrite (proj2 (Z.eqb_neq d 0)) by lia.
    assert (forall va, upage va -> pte_val (mem s1) d va = 0) as Hz.
    { intros va Hva. rewrite Hpv by by apply upage_aligned.
      apply kern_pte_user; [apply kmap_rows_ok|apply Hva]. }
    assert (forall va, upage va -> mapped (mem s1) d va = false) as Hum.
    { intros va Hva. unfold mapped. by rewrite Hz. }
    apply (wp_copyuvm_loop _ (Z.of_nat (length fl1)) s s1 pd d 0 sz fl fl1); try done; try klia.
    + constructor; try done.
      * constructor; [done| |]; intros va; [|intros va']; intros Hva; rewrite Hum by done; done.
      * intros q. rewrite Hacct. unfold owned_page. split; [tauto|].
        intros [?|[?|(va & Hva & _ & Hmv & _)]]; [tauto..|]. by rewrite Hum in Hmv.
      * intros va Hva. destruct Hva. lia.
      * intros. by apply Hz.
      * intros. by apply Hpv.
    + constructor; [change (copy_cost (0 / 4096)) with 0; lia|]. intros j Hj. rewrite Hpd by done. symmetry. apply Z.ltb_ge. lia.
    + intros s' fl' Hle Hd'. exists fl'. by rewrite (proj2 (Z.leb_le _ _)).
    + intros s' fl' Hlt Hd'. exists fl'. by rewrite (proj2 (Z.leb_gt _ _)).
  - intros s' fl' Hk' Hq' Hm' Hul'. split; [by left|]. exists fl'. split; [done|]. rewrite Z.eqb_refl. apply wp_ret. exists fl'.
    rewrite Z.eqb_refl. split; [done|]. split; [done|]. split; [done|]. intros q. by rewrite Hq'.
Qed.
End VmCopy.
