(* ===== verification/VmProps.v ===== *)
(** * Properties of [vm.c]

    The main theorems on page tables and user memory, each with a run on a
    small concrete address space. *)
From Stdlib Require Import ZArith Lia Bool ZifyBool.
From stdpp Require Import base list strings.
From S2P Require Import Prelude Machine Cstring Kalloc Vm VmInv VmMap VmUser VmAlloc VmKern VmCopy.

Section VmProps.
Context {I : KernelImage} `{!KernelImageOk I}.

(** What the MMU sees is the abstract entry [pte_val]. *)
Lemma translate_pte_val m pgdir va :
  translate m pgdir va =
  if has (pte_val m pgdir va) PTE_P
  then Some (PTE_ADDR (pte_val m pgdir va) + va mod PGSIZE) else None.
Proof. unfold translate, pte_val, ptpage, pde. by destruct (has (load32 m (pgdir + 4 * PDX va)) PTE_P). Qed.

(** A byte address has the entry of its page. *)
Lemma pte_val_page m pgdir va : 0 <= va < 2 ^ 32 -> pte_val m pgdir (va - va mod 4096) = pte_val m pgdir va.
Proof.
  intros Hva. unfold pte_val.
  assert (PDX (va - va mod 4096) = PDX va) as ->.
  { rewrite !PDX_eq. f_equal. change (2 ^ 22) with (4096 * 1024). rewrite <- !Z.div_div by lia. f_equal. zlia. }
  assert (PTX (va - va mod 4096) = PTX va) as ->.
  { rewrite !PTX_eq. f_equal. change (2 ^ 12) with 4096. zlia. }
  done.
Qed.

(** [mappages] maps a range page by page, or refuses.  If the first page
    of the range is mapped already it stops with "remap" and writes nothing.
    If no page of the range is mapped it returns; with 0, every page of the
    range has the entry [pa + offset | perm | PTE_P]; with -1, the free list
    was used up and a proper prefix of the pages is mapped.  No other entry of
    the address space changes, new page tables come from the free list, and
    no byte outside the page tables is written. *)
Theorem mappages_maps (s : kmem_t) (pgdir va size pa perm : Z) (fl : list Z) :
  let a := va - va mod 4096 in
  let n := (va + size - 1) / 4096 - va / 4096 in
  as_inv s pgdir fl -> 0 <= va -> 0 < size -> va + size <= 2 ^ 32 ->
  0 <= pa -> pa mod 4096 = 0 -> pa + 4096 * n + 4096 <= 2 ^ 32 -> 0 <= perm < 4096 ->
  (has (pte_val (mem s) pgdir a) PTE_P = true ->
     mappages pgdir va size pa perm s = Panic "remap" s) /\
  ((forall va', aligned va' -> a <= va' <= a + 4096 * n -> has (pte_val (mem s) pgdir va') PTE_P = false) ->
   exists r s' fl' k, mappages pgdir va size pa perm s = Ok r s' /\ vm_step s s' pgdir fl fl' /\
     (r = 0 /\ k = n + 1 \/ r = -1 /\ fl' = [] /\ 0 <= k <= n) /\
     forall va', aligned va' -> pte_val (mem s') pgdir va' =
       if (a <=? va') && (va' <? a + 4096 * k)
       then mkpte (pa + (va' - a)) perm else pte_val (mem s) pgdir va').
Proof.
  intros a n Hi Hva Hsz Hend Hp1 Hp2 Hp3 Hperm. split.
  - intros Hp. unfold mappages. rewrite (PGROUNDDOWN_eq va) by lia. fold a. cbn [mappages_loop].
    assert (has (pde (mem s) pgdir (PDX a)) PTE_P = true) as Hd.
    { unfold pte_val in Hp. by destruct (has (pde _ _ _) _). }
    erewrite bind_ok by by apply walk_present.
    rewrite (proj2 (Z.eqb_neq _ 0)) by by apply slot_nonzero; [apply Hi|].
    erewrite bind_ok by reflexivity. by rewrite slot_val, Hp.
  - intros Hnp.
    assert (wp (mappages pgdir va size pa perm) (fun r s' => exists fl' k, vm_step s s' pgdir fl fl' /\
     (r = 0 /\ k = n + 1 \/ r = -1 /\ fl' = [] /\ 0 <= k <= n) /\
     forall va', aligned va' -> pte_val (mem s') pgdir va' =
       if (a <=? va') && (va' <? a + 4096 * k)
       then mkpte (pa + (va' - a)) perm else pte_val (mem s) pgdir va') s) as Hwp.
    { apply (wp_mappages s pgdir va size pa perm fl); try done.
      - intros s' fl' Hst Hpv _. exists fl', (n + 1). split_and!; [done|by left|].
        intros va' Hal. rewrite Hpv by done. fold a n.
        replace (va' <=? a + 4096 * n) with (va' <? a + 4096 * (n + 1)); [done|].
        apply eq_true_iff_eq. rewrite Z.leb_le, Z.ltb_lt. destruct Hal. unfold a. zlia.
      - intros s' k Hst Hk Hpv. exists [], k. split_and!; [done|by right|done]. }
    apply wp_ok in Hwp as (r & s' & Hr & fl' & k & H). by exists r, s', fl', k.
Qed.

(** The rows of [kmap], read through [kern_pte]. *)
Lemma kern_pte_row ks k va : ForallOrdPairs kmap_disjoint ks -> k ∈ ks ->
  kmap_has k va = true -> kern_pte ks va = kmap_pte k va.
Proof.
  induction ks as [|k' ks IH]; intros Hd Hin Hh; [by apply not_elem_of_nil in Hin|].
  inversion Hd as [|? ? Hd1 Hd2]; subst. cbn [kern_pte].
  apply elem_of_cons in Hin as [->|Hin]; [by rewrite Hh|].
  destruct (kmap_has k' va) eqn:E; [|by apply IH].
  rewrite Forall_forall in Hd1. by rewrite (Hd1 k Hin va E) in Hh.
Qed.

Lemma has_flags pa perm mask : 0 <= pa <= 2 ^ 32 - 4096 -> pa mod 4096 = 0 -> 0 <= perm < 4096 ->
  Z.land 0xFFF mask = mask -> has (mkpte pa perm) mask = has (Z.lor perm PTE_P) mask.
Proof.
  intros Hpa Hal Hp Hm. destruct (mkpte_eq pa perm Hpa Hal Hp) as [-> Hr]. unfold has.
  rewrite <- Hm, Z.land_assoc. do 3 f_equal; [|done].
  change 0xFFF with (Z.ones 12). rewrite Z.land_ones by lia. change (2 ^ 12) with 4096. zlia.
Qed.

Lemma kmap_row_pte k va : k ∈ kmap -> virt k <= va < virt k + kmap_size k ->
  aligned (va - va mod 4096) /\ kern_pte kmap (va - va mod 4096) = kmap_pte k (va - va mod 4096).
Proof.
  intros Hin Hr. pose proof kmap_rows_ok as Hok. rewrite Forall_forall in Hok.
  destruct (Hok k Hin) as [[Hv1 Hv2] (Hs1 & Hs2 & Hs3) _ _].
  split; [split; klia|]. apply kern_pte_row; [apply kmap_rows_disjoint|done|].
  unfold kmap_has. rewrite (proj2 (Z.leb_le _ _)), (proj2 (Z.ltb_lt _ _)) by zlia. done.
Qed.

Lemma kmap_pte_props k va : k ∈ kmap -> virt k <= va < virt k + kmap_size k ->
  let e := kmap_pte k (va - va mod 4096) in
  (if has e PTE_P then Some (PTE_ADDR e + va mod PGSIZE) else None) = Some (phys_start k + (va - virt k)) /\
  has e PTE_W = has (kperm k) PTE_W /\ has e PTE_U = false.
Proof.
  intros Hin Hr e. pose proof kmap_rows_ok as Hok. rewrite Forall_forall in Hok.
  destruct (Hok k Hin) as [[Hv1 Hv2] (Hs1 & Hs2 & Hs3) (Hp1 & Hp2 & Hp3) Hp].
  set (pa := phys_start k + (va - va mod 4096 - virt k)).
  assert (0 <= pa <= 2 ^ 32 - 4096 /\ pa mod 4096 = 0) as [Hpa Hal] by (unfold pa; split; zlia).
  assert (kperm k = 0 \/ kperm k = PTE_W) as Hperm.
  { unfold kmap in Hin. rewrite !elem_of_cons, elem_of_nil in Hin.
    destruct Hin as [->|[->|[->|[->|[]]]]]; simpl; auto. }
  destruct (mkpte_props pa (kperm k)) as (_ & HP & HA); [done..|].
  unfold e, kmap_pte. fold pa. rewrite HP, HA. split; [f_equal; unfold pa; klia|].
  rewrite !has_flags by done. destruct Hperm as [-> | ->]; done.
Qed.

(** [setupkvm] builds the kernel half of an address space or leaves the
    pool as it was.  When it returns a page directory, the MMU maps each byte
    of each row of [kmap] to its physical address, writable exactly where the
    row says, never accessible to user code, and maps nothing else; the pages
    it took are exactly the tables of the new directory.  When it returns 0,
    every page is back on the free list. *)
Theorem setupkvm_kernel_map (s : kmem_t) (fl : list Z) :
  kmem_inv s fl ->
  exists r s' fl', setupkvm s = Ok r s' /\
  (r = 0 /\ kmem_inv s' fl' /\ (forall q, q ∈ fl' <-> q ∈ fl) \/
   valid_page r /\ as_inv s' r fl' /\
   (forall q, q ∈ fl <-> q ∈ fl' \/ table_page (mem s') r q) /\
   (forall k va, k ∈ kmap -> virt k <= va < virt k + kmap_size k ->
      translate (mem s') r va = Some (phys_start k + (va - virt k)) /\
      has (pte_val (mem s') r va) PTE_W = has (kperm k) PTE_W /\
      has (pte_val (mem s') r va) PTE_U = false) /\
   (forall va, 0 <= va < 2 ^ 32 -> (forall k, k ∈ kmap -> va < virt k \/ virt k + kmap_size k <= va) ->
      translate (mem s') r va = None)).
Proof.
  intros Hk.
  assert (wp setupkvm (fun r s' => exists fl',
    (r = 0 /\ kmem_inv s' fl' /\ (forall q, q ∈ fl' <-> q ∈ fl) \/
     valid_page r /\ as_inv s' r fl' /\
     (forall q, q ∈ fl <-> q ∈ fl' \/ table_page (mem s') r q) /\
     (forall va, aligned va -> pte_val (mem s') r va = kern_pte kmap va))) s) as Hwp.
  { apply (wp_setupkvm s fl); [done| |].
    - intros s' d fl' Has Hpv _ Hacct _ _. exists fl'. right. split_and!; try done. apply Has.
    - intros s' fl' Hk' Hq _ _. exists fl'. by left. }
  apply wp_ok in Hwp as (r & s' & Hr & fl' & H). exists r, s', fl'. split; [done|].
  destruct H as [H|(Hv & Has & Hacct & Hpv)]; [by left|right]. split_and!; try done.
  - intros k va Hin Hr'. pose proof kmap_rows_ok as Hok. rewrite Forall_forall in Hok.
    destruct (kmap_row_pte k va Hin Hr') as (Hal & He).
    rewrite translate_pte_val, <- pte_val_page, Hpv, He by (done || (destruct (Hok k Hin); klia)).
    by apply kmap_pte_props.
  - intros va Hva Hno. rewrite translate_pte_val, <- pte_val_page, Hpv by (done || (split; zlia)).
    rewrite kern_pte_none; [done|]. intros (k & Hin & Hh)%Exists_exists.
    pose proof kmap_rows_ok as Hok. rewrite Forall_forall in Hok. destruct (Hok k Hin).
    unfold kmap_has in Hh. destruct (Hno k Hin); zlia.
Qed.

(** [deallocuvm] frees exactly the frames of the whole pages of
    [newsz, oldsz) and clears their entries; every other entry, every page
    table and every byte outside the freed frames stays, and it returns the
    new size ([oldsz] when there is nothing to shrink). *)
Theorem deallocuvm_frees (s : kmem_t) (pgdir oldsz newsz : Z) (fl : list Z) :
  uvm_inv s pgdir fl -> 0 <= newsz -> oldsz <= KERNBASE ->
  exists s' fl', deallocuvm pgdir oldsz newsz s = Ok (Z.min oldsz newsz) s' /\
    dealloc_rel s s' pgdir (newsz + 4095 - (newsz + 4095) mod 4096) oldsz fl fl'.
Proof.
  intros Hi Hn Ho.
  assert (wp (deallocuvm pgdir oldsz newsz) (fun r s' => exists fl', r = Z.min oldsz newsz /\
    dealloc_rel s s' pgdir (newsz + 4095 - (newsz + 4095) mod 4096) oldsz fl fl') s) as Hwp.
  { apply (wp_deallocuvm s pgdir oldsz newsz fl); try done.
    - intros Hle. exists fl. split; [lia|]. apply dealloc_rel_none; [done|]. intros. zlia.
    - intros Hlt s' fl' Hd. exists fl'. split; [lia|done]. }
  apply wp_ok in Hwp as (r & s' & Hr & fl' & -> & Hd). by exists s', fl'.
Qed.

(** C35: [freevm] returns every page of an address space to the pool: after it,
    the free list holds the pages that were free, the user frames and the
    page tables, each once, and no byte outside the freed pages has changed. *)
Theorem freevm_returns_all (s : kmem_t) (pgdir : Z) (fl : list Z) :
  uvm_inv s pgdir fl ->
  exists s' fl', freevm pgdir s = Ok tt s' /\ kmem_inv s' fl' /\
    (forall q, q ∈ fl' <-> q ∈ fl \/ owned_page (mem s) pgdir q) /\
    (forall x, (forall q, owned_page (mem s) pgdir q -> x < q \/ q + PGSIZE <= x) -> mem s' x = mem s x).
Proof.
  intros Hi.
  assert (wp (freevm pgdir) (fun _ s' => exists fl', kmem_inv s' fl' /\
    (forall q, q ∈ fl' <-> q ∈ fl \/ owned_page (mem s) pgdir q) /\
    (forall x, (forall q, owned_page (mem s) pgdir q -> x < q \/ q + PGSIZE <= x) -> mem s' x = mem s x)) s)
    as Hwp.
  { apply (wp_freevm s pgdir fl); [done|]. intros s' fl' Hk Hq Hm _. by exists fl'. }
  apply wp_ok in Hwp as ([] & s' & Hr & fl' & H). by exists s', fl'.
Qed.

(** C34: [allocuvm] is all or nothing.  On an unmapped range it either returns
    the new size, with a fresh, zeroed, user-writable frame behind every page
    of the range, or returns 0 with the range unmapped again; in both cases no
    other entry changes and no page is lost: every page that was free is free
    again, a page table of this address space, or a frame of the new range.
    A size at or above [KERNBASE] is refused and a shrinking request returns
    [oldsz], with the state unchanged. *)
Theorem allocuvm_all_or_nothing (s : kmem_t) (pgdir oldsz newsz : Z) (fl : list Z) :
  let lo := oldsz + 4095 - (oldsz + 4095) mod 4096 in
  uvm_inv s pgdir fl -> 0 <= oldsz < KERNBASE ->
  (forall va, aligned va -> lo <= va < newsz -> mapped (mem s) pgdir va = false) ->
  (KERNBASE <= newsz -> allocuvm pgdir oldsz newsz s = Ok 0 s) /\
  (newsz < oldsz -> allocuvm pgdir oldsz newsz s = Ok oldsz s) /\
  (oldsz <= newsz < KERNBASE -> exists r s' fl', allocuvm pgdir oldsz newsz s = Ok r s' /\
     (r = newsz /\ alloc_rel s s' pgdir lo newsz fl fl' \/
      r = 0 /\ alloc_undone s s' pgdir lo newsz fl fl')).
Proof.
  intros lo Hi Ho Hun. split_and!.
  - intros Hn. unfold allocuvm. by rewrite (proj2 (Z.leb_le _ _)) by lia.
  - intros Hn. unfold allocuvm.
    by rewrite (proj2 (Z.leb_gt _ _)), (proj2 (Z.ltb_lt _ _)) by lia.
  - intros Hn.
    assert (wp (allocuvm pgdir oldsz newsz) (fun r s' => exists fl',
      (r = newsz /\ alloc_rel s s' pgdir lo newsz fl fl' \/
       r = 0 /\ alloc_undone s s' pgdir lo newsz fl fl')) s) as Hwp.
    { apply (wp_allocuvm s pgdir oldsz newsz fl); try done; try lia;
        intros s' fl' H; exists fl'; auto. }
    apply wp_ok in Hwp as (r & s' & Hr & fl' & H). by exists r, s', fl'.
Qed.

(** C33: [copyuvm] gives the child a copy of the parent's memory.  It begins
    with [setupkvm], which may fail or leaves [n] pages in the pool.  When that
    is enough for a frame per page of the parent and a table per 4 megabytes
    ([copy_cost]) it returns the new directory: every page below [sz] of the
    child has the flags and the bytes of the parent's page in a frame of its
    own, the rest of user space is unmapped, the kernel half is [setupkvm]'s,
    and the pages taken from the pool are exactly those the child owns.
    Otherwise it returns 0.  Then the pool is as before when [setupkvm] or the
    [kalloc] of a frame failed; when [mappages] failed, which is exactly when
    the pool ran out right after the frame that needed a new table
    ([strands n]), that frame is lost: it is neither in the pool nor mapped.
    Nothing but pages of the pool is written. *)
Theorem copyuvm_copies (s : kmem_t) (pgdir sz : Z) (fl : list Z) :
  uvm_inv s pgdir fl -> 0 <= sz <= KERNBASE ->
  (forall va, upage va -> va < sz -> mapped (mem s) pgdir va = true) ->
  exists d s1 fl1, setupkvm s = Ok d s1 /\ kmem_inv s1 fl1 /\ (d = 0 \/ valid_page d) /\
    exists r s' fl', copyuvm pgdir sz s = Ok r s' /\
      let n := Z.of_nat (length fl1) in
      if d =? 0 then r = 0 /\ copy_failed false s s' fl fl'
      else if copy_cost (pages sz) <=? n then r = d /\ copy_done s s' pgdir r sz fl fl'
      else r = 0 /\ copy_failed (strands n) s s' fl fl'.
Proof.
  intros Hi Hsz Hm. pose proof (wp_copyuvm s pgdir sz fl Hi Hsz Hm) as Hwp.
  apply wp_ok in Hwp as (d & s1 & Hd & Hv & fl1 & Hk & Hwp). apply wp_ok in Hwp as (r & s' & Hr & fl' & H).
  exists d, s1, fl1. split_and!; [done|done|done|]. exists r, s', fl'. split; [|done].
  unfold copyuvm. by erewrite bind_ok by exact Hd.
Qed.

(** ** [copyout] *)

(** The kernel address of the byte user code sees at [va]. *)
Definition ubyte (m : memory) (pgdir va : Z) : Z := frame_of m pgdir (va - va mod 4096) + va mod 4096.
Definition user_page (m : memory) (pgdir va : Z) : Prop :=
  mapped m pgdir va = true /\ has (pte_val m pgdir va) PTE_U = true.

Lemma wp_write_bytes bs : forall a s (Q : unit -> kmem_t -> Prop),
  (forall m', (forall x, m' x = if (a <=? x) && (x <? a + Z.of_nat (length bs))
                then u8 (nth (Z.to_nat (x - a)) bs 0) else mem s x) -> Q tt (set_mem m' s)) ->
  wp (write_bytes a bs) Q s.
Proof.
  induction bs as [|b bs IH]; intros a s Q HQ; cbn [write_bytes].
  { apply wp_ret. replace s with (set_mem (mem s) s) by by destruct s. apply HQ. intros x.
    by replace ((a <=? x) && (x <? a + Z.of_nat (length (@nil Z)))) with false by (simpl; lia). }
  apply wp_bind, wp_modify, IH. intros m' Hm'. apply (HQ m'). intros x. rewrite Hm'. simpl.
  destruct (Z.eq_dec x a) as [->|Hne].
  - rewrite store8_eq. replace (Z.to_nat (a - a)) with 0%nat by lia.
    by replace (a + 1 <=? a) with false by lia; replace ((a <=? a) && (a <? _)) with true by lia.
  - rewrite store8_ne by done.
    destruct (Z.leb_spec (a + 1) x), (Z.ltb_spec x (a + 1 + Z.of_nat (length bs))),
      (Z.leb_spec a x), (Z.ltb_spec x (a + Z.of_nat (S (length bs)))); simpl; try done; try lia.
    by replace (Z.to_nat (x - a)) with (S (Z.to_nat (x - (a + 1)))) by lia.
Qed.

Lemma ubyte_inj s pgdir fl v w : uvm_inv s pgdir fl -> 0 <= v < KERNBASE -> 0 <= w < KERNBASE ->
  mapped (mem s) pgdir (v - v mod 4096) = true -> mapped (mem s) pgdir (w - w mod 4096) = true ->
  ubyte (mem s) pgdir v = ubyte (mem s) pgdir w -> v = w.
Proof.
  intros Hi Hv Hw Mv Mw He. unfold ubyte in He.
  assert (upage (v - v mod 4096) /\ upage (w - w mod 4096)) as [Uv Uw] by (split; split; klia).
  destruct (uvm_frames _ _ _ Hi _ Uv Mv) as ([Av _] & _). destruct (uvm_frames _ _ _ Hi _ Uw Mw) as ([Aw _] & _).
  pose proof (uvm_inj _ _ _ Hi _ _ Uv Uw Mv Mw). unfold PGSIZE in *. zlia.
Qed.

(** One page's share of the copy. *)
Lemma copyout_write s pgdir fl va seg (m' : memory) :
  let f := frame_of (mem s) pgdir (va - va mod 4096) in
  let n := Z.of_nat (length seg) in
  uvm_inv s pgdir fl -> 0 <= va < KERNBASE -> mapped (mem s) pgdir (va - va mod 4096) = true ->
  va mod 4096 + n <= 4096 ->
  (forall x, m' x = if (f + va mod 4096 <=? x) && (x <? f + va mod 4096 + n)
     then u8 (nth (Z.to_nat (x - (f + va mod 4096))) seg 0) else mem s x) ->
  uvm_inv (set_mem m' s) pgdir fl /\
  (forall v, pte_val m' pgdir v = pte_val (mem s) pgdir v) /\
  (forall i, 0 <= i < n -> m' (ubyte (mem s) pgdir (va + i)) = u8 (nth (Z.to_nat i) seg 0)) /\
  (forall x, (forall i, 0 <= i < n -> x <> ubyte (mem s) pgdir (va + i)) -> m' x = mem s x).
Proof.
  intros f n Hi Hva Hm Hn Hm'.
  assert (upage (va - va mod 4096)) as Hup by (split; klia).
  destruct (uvm_frames _ _ _ Hi _ Hup Hm) as (Hf & Hfn & Hft).
  destruct (page_write_as s pgdir fl f m') as (Has & Hpv & Htp); [apply Hi|done..| |].
  { intros x Hx. rewrite Hm'. by replace ((f + va mod 4096 <=? x) && _) with false by klia. }
  assert (forall i, 0 <= i < n -> ubyte (mem s) pgdir (va + i) = f + va mod 4096 + i) as Hub.
  { intros i Hin. unfold ubyte. replace (va + i - (va + i) mod 4096) with (va - va mod 4096) by zlia.
    fold f. zlia. }
  split_and!; [|done| |].
  - apply (uvm_inv_keep s _ pgdir fl fl); [done..|]. intros q. by rewrite Htp.
  - intros i Hin. rewrite Hub, Hm' by done.
    replace ((_ <=? _) && _) with true by lia. do 2 f_equal. lia.
  - intros x Hx. rewrite Hm'. destruct (_ && _) eqn:E; [|done].
    exfalso. apply (Hx (x - (f + va mod 4096))); [lia|]. rewrite Hub by lia. lia.
Qed.

Definition copied_out (s s' : kmem_t) (pgdir va : Z) (buf fl : list Z) : Prop :=
  uvm_inv s' pgdir fl /\
  (forall v, pte_val (mem s') pgdir v = pte_val (mem s) pgdir v) /\
  (forall i, 0 <= i < Z.of_nat (length buf) ->
     mem s' (ubyte (mem s) pgdir (va + i)) = u8 (nth (Z.to_nat i) buf 0)) /\
  (forall x, (forall i, 0 <= i < Z.of_nat (length buf) -> x <> ubyte (mem s) pgdir (va + i)) ->
     mem s' x = mem s x).

Lemma copied_out_app s s1 s2 pgdir va seg rest fl :
  uvm_inv s pgdir fl -> 0 <= va ->
  (forall i, 0 <= i < Z.of_nat (length (seg ++ rest)) -> va + i < KERNBASE /\
     mapped (mem s) pgdir (va + i - (va + i) mod 4096) = true) ->
  copied_out s s1 pgdir va seg fl -> copied_out s1 s2 pgdir (va + Z.of_nat (length seg)) rest fl ->
  copied_out s s2 pgdir va (seg ++ rest) fl.
Proof.
  intros Hi Hva Hall (I1 & P1 & B1 & O1) (I2 & P2 & B2 & O2).
  assert (forall v, ubyte (mem s1) pgdir v = ubyte (mem s) pgdir v) as Hub.
  { intros v. unfold ubyte, frame_of. by rewrite P1. }
  rewrite length_app, Nat2Z.inj_add in Hall.
  split_and!; [done|by intros v; rewrite P2| |].
  - rewrite length_app, Nat2Z.inj_add. intros i Hin.
    destruct (Z_lt_dec i (Z.of_nat (length seg))) as [Hl|Hl].
    + assert (forall j, 0 <= j < Z.of_nat (length rest) ->
        ubyte (mem s) pgdir (va + i) <> ubyte (mem s1) pgdir (va + Z.of_nat (length seg) + j)) as Hne.
      { intros j Hj He. rewrite Hub, <- Z.add_assoc in He.
        destruct (Hall i) as [Hi1 Hi2]; [lia|].
        destruct (Hall (Z.of_nat (length seg) + j)) as [Hj1 Hj2]; [lia|].
        apply (ubyte_inj s pgdir fl) in He; [lia|done|lia|lia|done|done]. }
      rewrite O2, B1 by first [done|lia].
      by rewrite app_nth1 by lia.
    + rewrite app_nth2 by lia. replace (va + i) with (va + Z.of_nat (length seg) + (i - Z.of_nat (length seg))) by lia.
      rewrite <- Hub, B2 by lia. do 2 f_equal. lia.
  - rewrite length_app, Nat2Z.inj_add. intros x Hx. rewrite O2, O1; [done| |].
    + intros i Hin. apply Hx. lia.
    + intros i Hin. rewrite Hub, <- Z.add_assoc. apply Hx. lia.
Qed.

Lemma wp_uva2ka s pgdir fl va (Q : Z -> kmem_t -> Prop) :
  uvm_inv s pgdir fl -> mapped (mem s) pgdir va = true -> has (pte_val (mem s) pgdir va) PTE_U = true ->
  Q (frame_of (mem s) pgdir va) s -> wp (uva2ka pgdir va) Q s.
Proof.
  intros Hi Hm Hu HQ. unfold uva2ka. apply wp_bind.
  assert (has (pde (mem s) pgdir (PDX va)) PTE_P = true) as Hd.
  { unfold mapped, pte_val in Hm. by destruct (has (pde _ _ _) _). }
  unfold wp at 1. rewrite walk_present by done.
  rewrite (proj2 (Z.eqb_neq _ 0)) by by apply slot_nonzero; [apply Hi|].
  apply wp_bind, wp_gets. rewrite slot_val by done. fold (mapped (mem s) pgdir va).
  rewrite Hm, Hu. by apply wp_ret.
Qed.

Lemma wp_copyout_loop fuel : forall s pgdir va buf fl (Q : Z -> kmem_t -> Prop),
  uvm_inv s pgdir fl -> 0 <= va -> va + Z.of_nat (length buf) <= KERNBASE -> (length buf <= fuel)%nat ->
  (forall i, 0 <= i < Z.of_nat (length buf) -> user_page (mem s) pgdir (va + i - (va + i) mod 4096)) ->
  (forall s', copied_out s s' pgdir va buf fl -> Q 0 s') ->
  wp (copyout_loop fuel pgdir va buf) Q s.
Proof.
  induction fuel as [|fuel IH]; intros s pgdir va buf fl Q Hi Hva Hend Hf Hup HQ;
    (destruct buf as [|b buf']; [apply wp_ret, HQ; split_and!; try done; simpl; intros; lia|]);
    [simpl in Hf; lia|].
  cbn [copyout_loop]. set (buf := b :: buf') in *. set (n0 := PGSIZE - (va - PGROUNDDOWN va)).
  assert (PGROUNDDOWN va = va - va mod 4096) as Hrd by (apply PGROUNDDOWN_eq; klia).
  assert (0 < Z.of_nat (length buf)) as Hlen by (simpl; lia).
  destruct (Hup 0) as [Hm Hu]; [lia|]. rewrite Z.add_0_r in Hm, Hu.
  apply wp_bind. rewrite Hrd. apply (wp_uva2ka s pgdir fl); [done..|].
  assert (upage (va - va mod 4096)) as Hupg by (split; klia).
  destruct (uvm_frames _ _ _ Hi _ Hupg Hm) as (Hfv%valid_page_bounds & _).
  rewrite (proj2 (Z.eqb_neq _ 0)) by lia. fold n0.
  set (n := if Z.of_nat (length buf) <? n0 then Z.of_nat (length buf) else n0).
  assert (1 <= n <= Z.of_nat (length buf) /\ va mod 4096 + n <= 4096 /\
    (n < Z.of_nat (length buf) -> va + n = va - va mod 4096 + 4096)) as (Hn1 & Hn2 & Hn3).
  { unfold n, n0. rewrite Hrd. kconst. destruct (Z.ltb_spec (Z.of_nat (length buf)) (4096 - (va - (va - va mod 4096)))); zlia. }
  assert (Z.of_nat (length (take (Z.to_nat n) buf)) = n) as Hlt by (rewrite length_take; lia).
  apply wp_bind, wp_write_bytes. intros m' Hm'. rewrite Hlt in Hm'.
  replace (va - (va - va mod 4096)) with (va mod 4096) in Hm' by lia.
  destruct (copyout_write s pgdir fl va (take (Z.to_nat n) buf) m') as (I1 & P1 & B1 & O1);
    rewrite ?Hlt in *; [done|lia|done|lia|done|].
  assert (copied_out s (set_mem m' s) pgdir va (take (Z.to_nat n) buf) fl) as Hc
    by (split_and!; rewrite ?Hlt; done).
  rewrite u32_small by klia.
  apply (IH (set_mem m' s) pgdir (va - va mod 4096 + PGSIZE) (drop (Z.to_nat n) buf) fl).
  - done.
  - kconst. zlia.
  - rewrite length_drop. kconst. zlia.
  - rewrite length_drop. lia.
  - rewrite length_drop. intros i Hin. unfold user_page, mapped. cbn [mem set_mem]. rewrite !P1.
    replace (va - va mod 4096 + PGSIZE + i) with (va + (n + i)) by (kconst; lia).
    apply Hup. lia.
  - intros s' Hs'. apply HQ. rewrite <- (take_drop (Z.to_nat n) buf).
    eapply copied_out_app; [done|done| |exact Hc|].
    + rewrite take_drop. intros i Hin. split; [lia|by apply Hup].
    + destruct (Z_lt_dec n (Z.of_nat (length buf))) as [Hl|Hl].
      * rewrite Hlt, (Hn3 Hl). exact Hs'.
      * rewrite (drop_ge buf) in * by lia. destruct Hs' as (J1 & J2 & _ & J4).
        split_and!; [done|done|simpl; intros; lia|]. intros x _. apply J4. simpl. intros. lia.
Qed.

(** [copyout] stores a buffer where user code will read it: on a user
    range all of whose pages are mapped for the user, it returns 0, byte [i]
    of the buffer is found at user address [va + i], and no entry of the
    address space and no other byte of memory changes. *)
Theorem copyout_delivers (s : kmem_t) (pgdir va : Z) (p fl : list Z) :
  uvm_inv s pgdir fl -> 0 <= va -> va + Z.of_nat (length p) <= KERNBASE ->
  (forall i, 0 <= i < Z.of_nat (length p) -> user_page (mem s) pgdir (va + i - (va + i) mod 4096)) ->
  exists s', copyout pgdir va p s = Ok 0 s' /\ copied_out s s' pgdir va p fl.
Proof.
  intros Hi Hva Hend Hup.
  assert (wp (copyout pgdir va p) (fun r s' => r = 0 /\ copied_out s s' pgdir va p fl) s) as Hwp.
  { apply (wp_copyout_loop _ s pgdir va p fl); auto. }
  apply wp_ok in Hwp as (r & s' & Hr & -> & H). by exists s'.
Qed.
End VmProps.

(** ** A concrete address space

    One user page at address 0: directory [demo_dir], its table [demo_tab] and
    the frame [demo_frame], with three free pages. *)
Definition demo_dir : Z := 0x80400000.
Definition demo_tab : Z := 0x80401000.
Definition demo_frame : Z := 0x80402000.
Definition demo_fl : list Z := [0x80403000; 0x80404000; 0x80406000].
Definition demo_mem : memory :=
  store32 (store32 (store32 (store32 (fun _ => 0) demo_dir (V2P demo_tab + 7))
    demo_tab (V2P demo_frame + 7)) 0x80403000 0x80404000) 0x80404000 0x80406000.
Definition demo_space : kmem_t := mk_kmem false true 0x80403000 demo_mem.

Section Demo.
#[local] Existing Instance demo_image.
#[local] Existing Instance demo_image_ok.

Lemma demo_kmem : kmem_inv demo_space demo_fl.
Proof.
  constructor; [done| | |].
  - constructor; [done|]. change (load32 _ _) with 0x80404000. constructor; [done|].
    change (load32 _ _) with 0x80406000. constructor; [done|]. change (load32 _ _) with 0. constructor.
  - do 2 (apply Forall_cons; split; [by split|]). apply Forall_singleton. by split.
  - apply (bool_decide_unpack _). reflexivity.
Qed.

Lemma demo_load x : x mod 4 = 0 ->
  load32 demo_mem x =
    if x =? demo_dir then 0x401007 else if x =? demo_tab then 0x402007
    else if x =? 0x80403000 then 0x80404000 else if x =? 0x80404000 then 0x80406000 else 0.
Proof.
  intros Hx.
  destruct (Z.eqb_spec x demo_dir) as [->|N1]; [reflexivity|].
  destruct (Z.eqb_spec x demo_tab) as [->|N2]; [reflexivity|].
  destruct (Z.eqb_spec x 0x80403000) as [->|N3]; [reflexivity|].
  destruct (Z.eqb_spec x 0x80404000) as [->|N4]; [reflexivity|].
  unfold demo_mem, demo_dir, demo_tab in *.
  do 4 (rewrite load32_store32_ne by zlia). reflexivity.
Qed.

Lemma demo_pde i : 0 <= i < 1024 -> pde demo_mem demo_dir i = if i =? 0 then 0x401007 else 0.
Proof.
  intros Hi. unfold pde. rewrite demo_load by (unfold demo_dir; zlia). unfold demo_dir, demo_tab.
  destruct (Z.eqb_spec i 0) as [->|Hn]; [done|].
  rewrite !(proj2 (Z.eqb_neq _ _)) by lia. done.
Qed.

Lemma demo_pte va : pte_val demo_mem demo_dir va = if va / 4096 mod (1024 * 1024) =? 0 then 0x402007 else 0.
Proof.
  assert (PDX va = (va / 4096 / 1024) mod 1024) as HP.
  { rewrite PDX_eq. change (2 ^ 22) with (4096 * 1024). by rewrite <- Z.div_div by lia. }
  unfold pte_val, ptpage. rewrite demo_pde, HP by apply PDX_range.
  rewrite (Z.rem_mul_r _ 1024 1024) by lia.
  destruct (Z.eqb_spec ((va / 4096 / 1024) mod 1024) 0) as [E|E].
  - rewrite E, Z.mul_0_r, Z.add_0_r. change (has 4198407 PTE_P) with true. cbn [Z.eqb].
    change (P2V (PTE_ADDR 4198407)) with demo_tab. rewrite PTX_eq. change (2 ^ 12) with 4096.
    set (t := (va / 4096) mod 1024). assert (0 <= t < 1024) by (unfold t; zlia).
    rewrite demo_load by (unfold demo_tab; zlia). unfold demo_dir, demo_tab.
    destruct (Z.eqb_spec t 0) as [->|Hn]; [done|]. rewrite !(proj2 (Z.eqb_neq _ _)) by lia. done.
  - rewrite (proj2 (Z.eqb_neq _ 0)) by zlia. done.
Qed.

Lemma demo_table q : table_page demo_mem demo_dir q <-> q = demo_dir \/ q = demo_tab.
Proof.
  unfold table_page. split.
  - intros [->|(i & Hi & Hp & ->)]; [by left|right]. unfold ptpage. rewrite demo_pde in * by done.
    by destruct (i =? 0).
  - intros [->| ->]; [by left|right]. exists 0. split; [lia|]. unfold ptpage. by rewrite demo_pde.
Qed.

Lemma demo_uvm : uvm_inv demo_space demo_dir demo_fl.
Proof.
  constructor; [constructor; [apply demo_kmem| |]| |].
  - constructor; [by split| |].
    + intros i Hi. unfold ptpage. simpl. rewrite demo_pde by done. destruct (i =? 0); [|done].
      intros _. by split.
    + intros i j Hi Hj. simpl. rewrite !demo_pde by done.
      destruct (Z.eqb_spec i 0), (Z.eqb_spec j 0); try done. by subst.
  - intros q [-> | ->]%demo_table; apply (bool_decide_unpack _); reflexivity.
  - intros va Hva. unfold mapped, frame_of. simpl. rewrite demo_pte. destruct (_ =? 0); [|done].
    intros _. split; [by split|]. split; [apply (bool_decide_unpack _); reflexivity|].
    by intros [?|?]%demo_table.
  - intros va va' [Hva Ha] [Hva' Ha']. unfold mapped. simpl. rewrite !demo_pte.
    destruct (Z.eqb_spec ((va / 4096) mod (1024 * 1024)) 0) as [E|E]; [|done].
    destruct (Z.eqb_spec ((va' / 4096) mod (1024 * 1024)) 0) as [E'|E']; [|done].
    intros _ _ _. unfold KERNBASE in *. zlia.
Qed.

Lemma demo_mapped va : upage va -> mapped demo_mem demo_dir va = (va =? 0).
Proof.
  intros [H1 H2]. unfold mapped. rewrite demo_pte. unfold KERNBASE in *.
  destruct (Z.eqb_spec va 0) as [->|Hn]; [done|]. rewrite (proj2 (Z.eqb_neq _ _)) by zlia. done.
Qed.
End Demo.

Lemma mappages_maps_witness : exists r s',
  mappages demo_dir 0x1000 0x1000 0x405000 PTE_W demo_space = Ok r s'.
Proof.
  destruct (@mappages_maps demo_image demo_image_ok demo_space demo_dir 0x1000 0x1000 0x405000 PTE_W demo_fl)
    as [_ H]; [apply demo_uvm|done..|].
  destruct H as (r & s' & _ & _ & H & _); [|by exists r, s'].
  intros va' Hal Hr. change (0x1000 - 0x1000 mod 4096) with 4096 in Hr.
  change ((0x1000 + 0x1000 - 1) / 4096 - 0x1000 / 4096) with 0 in Hr. destruct Hal.
  change (mapped demo_mem demo_dir va' = false). rewrite demo_mapped by (split; unfold KERNBASE; lia).
  apply Z.eqb_neq. lia.
Defined.

Lemma setupkvm_kernel_map_witness : exists r s', @setupkvm demo_image demo_space = Ok r s'.
Proof.
  destruct (@setupkvm_kernel_map demo_image demo_image_ok demo_space demo_fl demo_kmem)
    as (r & s' & _ & H & _). by exists r, s'.
Defined.

Lemma deallocuvm_frees_witness : exists s', @deallocuvm demo_image demo_dir 4096 0 demo_space = Ok 0 s'.
Proof.
  destruct (@deallocuvm_frees demo_image demo_image_ok demo_space demo_dir 4096 0 demo_fl demo_uvm)
    as (s' & _ & H & _); [done..|]. by exists s'.
Defined.

Lemma freevm_returns_all_witness : exists s', @freevm demo_image demo_dir demo_space = Ok tt s'.
Proof.
  destruct (@freevm_returns_all demo_image demo_image_ok demo_space demo_dir demo_fl demo_uvm)
    as (s' & _ & H & _). by exists s'.
Defined.

Lemma allocuvm_all_or_nothing_witness :
  exists r s', @allocuvm demo_image demo_dir 4096 8192 demo_space = Ok r s'.
Proof.
  destruct (@allocuvm_all_or_nothing demo_image demo_image_ok demo_space demo_dir 4096 8192 demo_fl demo_uvm)
    as (_ & _ & H); [done| |].
  - intros va [Ha1 Ha2] Hr. change (4096 + 4095 - (4096 + 4095) mod 4096) with 4096 in Hr.
    simpl. rewrite demo_mapped by (split; unfold KERNBASE; lia). apply Z.eqb_neq. lia.
  - destruct H as (r & s' & _ & H & _); [done|]. by exists r, s'.
Defined.

Lemma copyuvm_copies_witness : exists d s1 r s', @setupkvm demo_image demo_space = Ok d s1 /\
  @copyuvm demo_image demo_dir 4096 demo_space = Ok r s' /\ (r = 0 \/ r = d /\ @page_copied demo_image (mem demo_space) demo_dir (mem s') d 0).
Proof.
  destruct (@copyuvm_copies demo_image demo_image_ok demo_space demo_dir 4096 demo_fl demo_uvm)
    as (d & s1 & fl1 & Hd & _ & _ & r & s' & fl' & Hr & H).
  - done.
  - intros va Hva Hlt. simpl. rewrite demo_mapped by done. destruct Hva as [? Hm]. apply Z.eqb_eq. zlia.
  - exists d, s1, r, s'. split; [exact Hd|]. split; [exact Hr|]. cbv zeta in H. destruct (d =? 0); [left; apply H|].
    destruct (_ <=? _); [right|left; apply H]. destruct H as [-> H]. split; [done|].
    apply (@cd_user demo_image _ _ _ _ _ _ _ H 0). split; [unfold KERNBASE; lia|done].
Defined.

Lemma copyout_delivers_witness : exists s', copyout demo_dir 16 [104; 105] demo_space = Ok 0 s'.
Proof.
  destruct (@copyout_delivers demo_image demo_image_ok demo_space demo_dir 16 [104; 105] demo_fl demo_uvm)
    as (s' & H & _); [done..| |by exists s'].
  intros i Hi. simpl length in Hi. replace (16 + i - (16 + i) mod 4096) with 0 by zlia. by split.
Defined.
