(* ===== verification/Spaces.v ===== *)
(** * Address spaces side by side

    The pages of the pool are shared out: a page is free, a page-table page of
    one address space, the frame of one private user page, or held by another
    part of the kernel (shared pages, kernel stacks, pipes).  [space_inv] says
    that no page has two owners; the lemmas show what a step on one address
    space, or a page changing hands, leaves of it. *)
From Stdlib Require Import ZArith Lia Bool.
From stdpp Require Import base numbers list strings.
From S2P Require Import Prelude Machine Cstring Kalloc Vm VmInv VmMap VmUser VmAlloc.

(** The shared pages of a process lie in the top 32 pages of user space. *)
Definition SHM_BASE : Z := KERNBASE - 32 * PGSIZE.

Inductive owner : Type := Table (d : Z) | Frame (d va : Z) | Other.

#[export] Instance owner_eq_dec : EqDecision owner.
Proof. solve_decision. Defined.

Section Spaces.
Context {I : KernelImage}.

Definition owns (m : memory) (pds oth : list Z) (o : owner) (q : Z) : Prop :=
  match o with
  | Table d => (d ∈ pds) /\ table_page m d q
  | Frame d va => (d ∈ pds) /\ upage va /\ va < SHM_BASE /\ mapped m d va = true /\ q = frame_of m d va
  | Other => q ∈ oth
  end.

Record space_inv (s : kmem_t) (fl pds oth : list Z) : Prop := {
  si_kmem : kmem_inv s fl;
  si_wf : forall d, d ∈ pds -> wf_pgdir (mem s) d;
  si_own : forall o q, owns (mem s) pds oth o q -> valid_page q /\ (q ∉ fl);
  si_uniq : forall o o' q, owns (mem s) pds oth o q -> owns (mem s) pds oth o' q -> o = o';
}.

Context `{!KernelImageOk I}.

Lemma si_as s fl pds oth d : space_inv s fl pds oth -> d ∈ pds -> as_inv s d fl.
Proof.
  intros Hs Hd. constructor; [apply Hs|by apply Hs|]. intros q Hq.
  by apply (si_own _ _ _ _ Hs (Table d) q).
Qed.

(** A space none of whose shared slots is mapped is a private space. *)
Lemma si_uvm s fl pds oth d : space_inv s fl pds oth -> d ∈ pds ->
  (forall va, upage va -> SHM_BASE <= va -> mapped (mem s) d va = false) ->
  uvm_inv s d fl.
Proof.
  intros Hs Hd Hno.
  assert (forall va, upage va -> mapped (mem s) d va = true ->
    owns (mem s) pds oth (Frame d va) (frame_of (mem s) d va)) as Hf.
  { intros va Hva Hm. split_and!; try done. destruct (Z_lt_dec va SHM_BASE); [done|].
    rewrite Hno in Hm by (done || lia). done. }
  constructor; [by eapply si_as| |].
  - intros va Hva Hm. destruct (si_own _ _ _ _ Hs _ _ (Hf va Hva Hm)) as [? ?]. split_and!; [done..|].
    intros Ht. by assert (Frame d va = Table d) by by eapply (si_uniq _ _ _ _ Hs); [apply Hf|].
  - intros va va' Hva Hva' Hm Hm' He.
    assert (Frame d va = Frame d va') as [= ?]; [|done].
    eapply (si_uniq _ _ _ _ Hs); [by apply Hf|]. rewrite He. by apply Hf.
Qed.

(** The page tables do not change: pages move between the free list and the
    other holders, and only such pages are written. *)
Lemma space_keep s s' fl fl' pds oth oth' :
  space_inv s fl pds oth -> kmem_inv s' fl' ->
  (forall d q x, d ∈ pds -> table_page (mem s) d q -> q <= x < q + PGSIZE -> mem s' x = mem s x) ->
  (forall q, q ∈ fl' \/ q ∈ oth' -> q ∈ fl \/ q ∈ oth) ->
  (forall q, q ∈ oth' -> q ∉ fl') ->
  space_inv s' fl' pds oth' /\
  (forall d va, d ∈ pds -> pte_val (mem s') d va = pte_val (mem s) d va) /\
  (forall d q, d ∈ pds -> table_page (mem s') d q <-> table_page (mem s) d q).
Proof.
  intros Hs Hk Hm Hmove Hdis.
  assert (forall d va, d ∈ pds -> pte_val (mem s') d va = pte_val (mem s) d va) as Hpv
    by (intros d va Hd; apply agree_pte_val; eauto).
  assert (forall d q, d ∈ pds -> table_page (mem s') d q <-> table_page (mem s) d q) as Htp
    by (intros d q Hd; apply agree_table_page; eauto).
  assert (forall o q, o <> Other -> owns (mem s') pds oth' o q -> owns (mem s) pds oth o q) as Hown.
  { intros [d|d va|] q Ho; [| |done]; simpl; unfold mapped, frame_of.
    - intros [Hd Ht]. split; [done|]. by apply Htp.
    - intros (Hd & H). by rewrite Hpv in H by done. }
  assert (forall q, q ∈ oth' -> valid_page q) as Hvo.
  { intros q Hq. destruct (Hmove q) as [Hf|Ho]; [by right| |by apply (si_own _ _ _ _ Hs Other q)].
    pose proof (inv_valid _ _ (si_kmem _ _ _ _ Hs)) as Hv. rewrite Forall_forall in Hv. auto. }
  assert (forall o q, o <> Other -> owns (mem s') pds oth' o q -> ~ (q ∈ fl' \/ q ∈ oth')) as Hno.
  { intros o q Ho Hq Hin. apply Hown in Hq; [|done]. destruct (Hmove q Hin) as [Hf|Hq'].
    - by apply (si_own _ _ _ _ Hs o q).
    - apply Ho. by eapply (si_uniq _ _ _ _ Hs o Other q). }
  split_and!; [constructor|done|done].
  - done.
  - intros d Hd. eapply agree_wf; [|by apply Hs]. eauto.
  - intros o q Hq. destruct (decide (o = Other)) as [->|Ho].
    + split; [by apply Hvo|by apply Hdis].
    + split; [by apply (si_own _ _ _ _ Hs o), Hown|]. intros Hf. apply (Hno o q); auto.
  - intros o o' q Hq Hq'. destruct (decide (o = Other)) as [->|Ho], (decide (o' = Other)) as [->|Ho'].
    + done.
    + exfalso. apply (Hno o' q); auto.
    + exfalso. apply (Hno o q); auto.
    + eapply (si_uniq _ _ _ _ Hs); by apply Hown.
Qed.

(** A step on the page tables of one space that maps no new private page. *)
Lemma space_step s s' fl fl' pds oth d :
  space_inv s fl pds oth -> d ∈ pds -> vm_step s s' d fl fl' ->
  (forall va, upage va -> va < SHM_BASE -> mapped (mem s') d va = true ->
     pte_val (mem s') d va = pte_val (mem s) d va) ->
  space_inv s' fl' pds oth /\
  (forall d' va, d' ∈ pds -> d' <> d -> pte_val (mem s') d' va = pte_val (mem s) d' va).
Proof.
  intros Hs Hd Hst Hpriv. pose proof (vs_inv _ _ _ _ _ Hst) as [Hk Hwf Hdis].
  destruct (vs_used _ _ _ _ _ Hst) as (used & -> & Htp).
  assert (forall q x d', d' ∈ pds -> d' <> d -> table_page (mem s) d' q -> q <= x < q + PGSIZE ->
    mem s' x = mem s x) as Hag.
  { intros q x d' Hd' Hne Hq Hx. apply (vs_frame _ _ _ _ _ Hst). intros t Ht.
    destruct (si_own _ _ _ _ Hs (Table d') q) as [Hvq Hqf]; [done|].
    apply (valid_page_sep q); [done|by eapply table_page_valid| |done]. intros ->.
    apply Htp in Ht as [Hu|Ht]; [apply Hqf, elem_of_app; by left|].
    by assert (Table d = Table d') as [= ->] by by eapply (si_uniq _ _ _ _ Hs _ _ t). }
  assert (forall d' va, d' ∈ pds -> d' <> d -> pte_val (mem s') d' va = pte_val (mem s) d' va) as Hpv
    by (intros; apply agree_pte_val; eauto).
  assert (forall o q, owns (mem s') pds oth o q ->
    (o = Table d /\ q ∈ used) \/ owns (mem s) pds oth o q) as Hown.
  { intros [d'|d' va|] q; simpl.
    - intros [Hd' Ht]. destruct (decide (d' = d)) as [->|Hne].
      + apply Htp in Ht as [?|?]; [by left|by right].
      + right. split; [done|]. apply (agree_table_page (mem s) (mem s') d'); eauto.
    - intros (Hd' & Hu & Hb & Hm & ->). right. unfold mapped, frame_of in *.
      destruct (decide (d' = d)) as [->|Hne].
      + assert (pte_val (mem s') d va = pte_val (mem s) d va) as He by by apply Hpriv.
        by rewrite He in *.
      + by rewrite Hpv in * by done.
    - by right. }
  assert (NoDup (used ++ fl')) as Hnd by apply (si_kmem _ _ _ _ Hs). apply NoDup_app in Hnd as (_ & Hnd & _).
  split; [constructor|done].
  - done.
  - intros d' Hd'. destruct (decide (d' = d)) as [->|Hne]; [done|].
    eapply agree_wf; [|by apply Hs]. eauto.
  - intros o q Hq. destruct (Hown o q Hq) as [[-> Hu]|Ho].
    + split; [|by apply Hnd]. pose proof (inv_valid _ _ (si_kmem _ _ _ _ Hs)) as Hv.
      rewrite Forall_forall in Hv. apply Hv, elem_of_app. by left.
    + destruct (si_own _ _ _ _ Hs o q Ho) as [? Hn]. split; [done|]. intros Hf. apply Hn, elem_of_app. by right.
  - assert (forall o q, owns (mem s) pds oth o q -> q ∉ used) as Hnu.
    { intros o q Ho Hu. apply (si_own _ _ _ _ Hs o q Ho), elem_of_app. by left. }
    intros o o' q Hq Hq'. destruct (Hown o q Hq) as [[-> Hu]|Ho], (Hown o' q Hq') as [[-> Hu']|Ho'].
    + done.
    + by apply Hnu in Ho'.
    + by apply Hnu in Ho.
    + by eapply (si_uniq _ _ _ _ Hs).
Qed.
End Spaces.
