(* ===== verification/Kstate.v ===== *)
(** * Processes and the kernel state

    [struct proc] of [proc.h], the process table, the shared-page table of
    [shm.c] and the state they live in.  A pointer to a process is its index in
    the table; the trap frame and the context of a process are addresses in
    its kernel stack, so their contents are bytes of the memory.  What [proc.c]
    needs of the file system is the interface [FsOps]. *)
From Stdlib Require Import ZArith Lia Bool.
From stdpp Require Import base list strings.
From S2P Require Import Prelude Machine Cstring Kalloc Segments.

Inductive procstate : Type := UNUSED | EMBRYO | SLEEPING | RUNNABLE | RUNNING | ZOMBIE.

#[export] Instance procstate_eq_dec : EqDecision procstate.
Proof. solve_decision. Defined.

(** The fields of [struct proc] for shared pages. *)
Record proc_shm : Type := mk_pshm {
  top : Z;
  phy_shared_page : list Z;
  vm_shared_page : list Z;
  p_key : list (list Z);
  bitmap : list Z;
}.

Record proc : Type := mk_proc {
  sz : Z;
  pgdir : Z;
  kstack : Z;
  state : procstate;
  pid : Z;
  parent : option nat;
  tf : Z;
  context : Z;
  chan : Z;
  killed : bool;
  ofile : list Z;
  cwd : Z;
  name : list Z;
  pshm : proc_shm;
}.

Definition SHMEM_PAGES : nat := 32.
Definition MAX_PROC : Z := 16.

Record shm_info : Type := mk_info { shmem_addr : Z; shmem_counter : Z }.

Record shm_table : Type := mk_shm {
  sh_lock : bool;
  shp_array : list shm_info;
  shp_key : list (list Z);
}.

(** ** Field updates *)
Definition set_top v p := mk_pshm v (phy_shared_page p) (vm_shared_page p) (p_key p) (bitmap p).
Definition set_phy i v p :=
  mk_pshm (top p) (<[i := v]> (phy_shared_page p)) (vm_shared_page p) (p_key p) (bitmap p).
Definition set_vm i v p :=
  mk_pshm (top p) (phy_shared_page p) (<[i := v]> (vm_shared_page p)) (p_key p) (bitmap p).
Definition set_pkey i v p :=
  mk_pshm (top p) (phy_shared_page p) (vm_shared_page p) (<[i := v]> (p_key p)) (bitmap p).
Definition set_bitmap i v p :=
  mk_pshm (top p) (phy_shared_page p) (vm_shared_page p) (p_key p) (<[i := v]> (bitmap p)).

Section ProcSetters.
Implicit Types p : proc.
Definition set_sz v p := mk_proc v (pgdir p) (kstack p) (state p) (pid p) (parent p) (tf p)
  (context p) (chan p) (killed p) (ofile p) (cwd p) (name p) (pshm p).
Definition set_pgdir v p := mk_proc (sz p) v (kstack p) (state p) (pid p) (parent p) (tf p)
  (context p) (chan p) (killed p) (ofile p) (cwd p) (name p) (pshm p).
Definition set_kstack v p := mk_proc (sz p) (pgdir p) v (state p) (pid p) (parent p) (tf p)
  (context p) (chan p) (killed p) (ofile p) (cwd p) (name p) (pshm p).
Definition set_state v p := mk_proc (sz p) (pgdir p) (kstack p) v (pid p) (parent p) (tf p)
  (context p) (chan p) (killed p) (ofile p) (cwd p) (name p) (pshm p).
Definition set_pid v p := mk_proc (sz p) (pgdir p) (kstack p) (state p) v (parent p) (tf p)
  (context p) (chan p) (killed p) (ofile p) (cwd p) (name p) (pshm p).
Definition set_parent v p := mk_proc (sz p) (pgdir p) (kstack p) (state p) (pid p) v (tf p)
  (context p) (chan p) (killed p) (ofile p) (cwd p) (name p) (pshm p).
Definition set_tf v p := mk_proc (sz p) (pgdir p) (kstack p) (state p) (pid p) (parent p) v
  (context p) (chan p) (killed p) (ofile p) (cwd p) (name p) (pshm p).
Definition set_context v p := mk_proc (sz p) (pgdir p) (kstack p) (state p) (pid p) (parent p) (tf p)
  v (chan p) (killed p) (ofile p) (cwd p) (name p) (pshm p).
Definition set_chan v p := mk_proc (sz p) (pgdir p) (kstack p) (state p) (pid p) (parent p) (tf p)
  (context p) v (killed p) (ofile p) (cwd p) (name p) (pshm p).
Definition set_killed v p := mk_proc (sz p) (pgdir p) (kstack p) (state p) (pid p) (parent p) (tf p)
  (context p) (chan p) v (ofile p) (cwd p) (name p) (pshm p).
Definition set_ofile v p := mk_proc (sz p) (pgdir p) (kstack p) (state p) (pid p) (parent p) (tf p)
  (context p) (chan p) (killed p) v (cwd p) (name p) (pshm p).
Definition set_cwd v p := mk_proc (sz p) (pgdir p) (kstack p) (state p) (pid p) (parent p) (tf p)
  (context p) (chan p) (killed p) (ofile p) v (name p) (pshm p).
Definition set_name v p := mk_proc (sz p) (pgdir p) (kstack p) (state p) (pid p) (parent p) (tf p)
  (context p) (chan p) (killed p) (ofile p) (cwd p) v (pshm p).
Definition set_pshm v p := mk_proc (sz p) (pgdir p) (kstack p) (state p) (pid p) (parent p) (tf p)
  (context p) (chan p) (killed p) (ofile p) (cwd p) (name p) v.
End ProcSetters.

(** What the processor is set up for: the registers and task-state fields
    [switchuvm] and [switchkvm] write, and the kernel's own page directory. *)
Record cpu_regs : Type := mk_regs {
  cr3 : Z;
  ts_ss0 : Z;
  ts_esp0 : Z;
  ts_iomb : Z;
  task_reg : Z;
  kpgdir : Z;
  gdt_tss : segdesc;  (* gdt[SEG_TSS] *)
}.

(** ** Kernel state

    [cur] is the process the computation runs for, what [myproc()] returns. *)
Record kst (F : Type) : Type := mk_kst {
  km : kmem_t;
  sh_table : shm_table;
  ptable_lock : bool;
  procs : list proc;
  nextpid : Z;
  initproc : option nat;
  cur : nat;
  hw : cpu_regs;
  fs : F;
}.
Arguments mk_kst {F}.
Arguments km {F}.
Arguments sh_table {F}.
Arguments ptable_lock {F}.
Arguments procs {F}.
Arguments nextpid {F}.
Arguments initproc {F}.
Arguments cur {F}.
Arguments hw {F}.
Arguments fs {F}.

Section Kst.
Context {F : Type}.
Implicit Types s : kst F.

Definition set_km v s := mk_kst v (sh_table s) (ptable_lock s) (procs s) (nextpid s) (initproc s) (cur s) (hw s) (fs s).
Definition set_sh v s := mk_kst (km s) v (ptable_lock s) (procs s) (nextpid s) (initproc s) (cur s) (hw s) (fs s).
Definition set_ptable_lock v s := mk_kst (km s) (sh_table s) v (procs s) (nextpid s) (initproc s) (cur s) (hw s) (fs s).
Definition set_procs v s := mk_kst (km s) (sh_table s) (ptable_lock s) v (nextpid s) (initproc s) (cur s) (hw s) (fs s).
Definition set_nextpid v s := mk_kst (km s) (sh_table s) (ptable_lock s) (procs s) v (initproc s) (cur s) (hw s) (fs s).
Definition set_initproc v s := mk_kst (km s) (sh_table s) (ptable_lock s) (procs s) (nextpid s) v (cur s) (hw s) (fs s).
Definition set_cur v s := mk_kst (km s) (sh_table s) (ptable_lock s) (procs s) (nextpid s) (initproc s) v (hw s) (fs s).
Definition set_fs (v : F) s := mk_kst (km s) (sh_table s) (ptable_lock s) (procs s) (nextpid s) (initproc s) (cur s) (hw s) v.
Definition set_hw v s := mk_kst (km s) (sh_table s) (ptable_lock s) (procs s) (nextpid s) (initproc s) (cur s) v (fs s).

(** Computations of the memory components, and on one process. *)
Definition on_mem {A} (m : M kmem_t A) : M (kst F) A := lift km set_km m.
Definition on_fs {A} (m : M F A) : M (kst F) A := lift fs set_fs m.

Definition get_proc (i : nat) : M (kst F) proc := fun s =>
  match procs s !! i with Some p => Ok p s | None => Fault "no such process" s end.
Definition upd_proc (i : nat) (f : proc -> proc) : M (kst F) unit := fun s =>
  match procs s !! i with
  | Some p => Ok tt (set_procs (<[i := f p]> (procs s)) s)
  | None => Fault "no such process" s
  end.
Definition upd_pshm (i : nat) (f : proc_shm -> proc_shm) : M (kst F) unit :=
  upd_proc i (fun p => set_pshm (f (pshm p)) p).
Definition myproc : M (kst F) nat := gets cur.
(** The same code run for process [j]. *)
Definition run_as {A} (j : nat) (m : M (kst F) A) : M (kst F) A := modify (set_cur j) ;;; m.

Definition sh_locked s : bool := sh_lock (sh_table s).
Definition set_sh_locked (b : bool) s :=
  set_sh (mk_shm b (shp_array (sh_table s)) (shp_key (sh_table s))) s.
Definition sh_acquire : M (kst F) unit := acquire_flag sh_locked set_sh_locked.
Definition sh_release : M (kst F) unit := release_flag sh_locked set_sh_locked.
Definition set_info (i : nat) (v : shm_info) : M (kst F) unit :=
  modify (fun s => set_sh (mk_shm (sh_lock (sh_table s)) (<[i := v]> (shp_array (sh_table s)))
                             (shp_key (sh_table s))) s).
Definition set_shkey (i : nat) (v : list Z) : M (kst F) unit :=
  modify (fun s => set_sh (mk_shm (sh_lock (sh_table s)) (shp_array (sh_table s))
                             (<[i := v]> (shp_key (sh_table s)))) s).

(** ** Rules for the accesses to a process *)
Lemma wp_get_proc s i p (Q : proc -> kst F -> Prop) :
  procs s !! i = Some p -> Q p s -> wp (get_proc i) Q s.
Proof. intros Hp HQ. unfold wp, get_proc. by rewrite Hp. Qed.

Lemma wp_upd_proc s i p f (Q : unit -> kst F -> Prop) :
  procs s !! i = Some p -> Q tt (set_procs (<[i := f p]> (procs s)) s) -> wp (upd_proc i f) Q s.
Proof. intros Hp HQ. unfold wp, upd_proc. by rewrite Hp. Qed.

Lemma wp_upd_pshm s i p f (Q : unit -> kst F -> Prop) :
  procs s !! i = Some p ->
  Q tt (set_procs (<[i := set_pshm (f (pshm p)) p]> (procs s)) s) -> wp (upd_pshm i f) Q s.
Proof. intros Hp HQ. by eapply wp_upd_proc. Qed.
End Kst.

Lemma kst_ext {F} (s s' : kst F) : km s = km s' -> sh_table s = sh_table s' -> ptable_lock s = ptable_lock s' ->
  procs s = procs s' -> nextpid s = nextpid s' -> initproc s = initproc s' -> cur s = cur s' -> hw s = hw s' ->
  fs s = fs s' -> s = s'.
Proof. destruct s, s'; simpl; congruence. Qed.

(** The number of spin locks held among those of the rest of the kernel. *)
Class FsLocks (F : Type) : Type := { fs_locks : F -> Z }.

(** ** What [proc.c] uses of the file system *)
Class FsOps (F : Type) : Type := {
  filedup : Z -> M (kst F) Z;
  fileclose : Z -> M (kst F) unit;
  idup : Z -> M (kst F) Z;
  iput : Z -> M (kst F) unit;
  begin_op : M (kst F) unit;
  end_op : M (kst F) unit;
  namei : list Z -> M (kst F) Z;
}.

(** Array reads; indices are in range wherever the code reads. *)
Definition no_info : shm_info := mk_info 0 0.
Definition phy_at (p : proc) (i : nat) : Z := nth i (phy_shared_page (pshm p)) 0.
Definition vm_at (p : proc) (i : nat) : Z := nth i (vm_shared_page (pshm p)) 0.
Definition pkey_at (p : proc) (i : nat) : list Z := nth i (p_key (pshm p)) [].
Definition bitmap_at (p : proc) (i : nat) : Z := nth i (bitmap (pshm p)) 0.
Definition info_at (t : shm_table) (i : nat) : shm_info := nth i (shp_array t) no_info.
Definition shkey_at (t : shm_table) (i : nat) : list Z := nth i (shp_key t) [].
