(* ===== verification/Shm.v ===== *)
(** * [shm.c]: pages shared between processes (definitions)

    The table [sh_table] has 32 slots: a key, the kernel address of the page
    and the number of uses.  A process maps its [i]th shared page at
    [KERNBASE - (i+1) * PGSIZE] and remembers the page, the address, the key
    and a bit in its [struct proc].

    A key argument is the list of bytes readable at the pointer.  [shmrem]
    compares 16 bytes from the literal "-1" of [shm.c] on; what follows the
    literal in the kernel image, and what follows the literal that [exit]
    passes, are parts of the class [Literals]. *)
From Stdlib Require Import ZArith Lia Bool.
From stdpp Require Import base list strings.
From S2P Require Import Prelude Machine Cstring Kalloc Vm Kstate.

(** The bytes of the kernel image from the two literals "-1" on. *)
Class Literals : Type := {
  lit_shm : list Z;
  lit_exit : list Z;
}.

(** Both begin with the literal, 16 bytes can be read, and the linker keeps
    one copy of equal string literals. *)
Class LiteralsOk (L : Literals) : Prop := {
  lit_long : (16 <= length (lit_shm))%nat;
  lit_text : take 3 lit_shm = [45; 49; 0];
  lit_merged : lit_exit = lit_shm;
}.

Section Shm.
Context {I : KernelImage} {L : Literals} {F : Type}.
Abbreviation K := (M (kst F)).

Definition of_option {A} (o : option A) : K A :=
  match o with Some a => ret a | None => fault "read or write past the end" end.

Definition zero_key : list Z := replicate 16 0.

Definition shmeminit : K unit :=
  sh_acquire ;;;
  for_range SHMEM_PAGES 0 (fun i =>
    set_info i no_info ;;;
    set_shkey i zero_key) ;;;
  sh_release.

Definition find_pos : K Z :=
  r <- for_find SHMEM_PAGES 0 (fun i =>
    me <- myproc ;;
    p <- get_proc me ;;
    if phy_at p i =? 0 then ret (Some (Z.of_nat i)) else ret None) ;;
  ret (default (-1) r).

(** [*temp = 0] for a page-table entry found by [walkpgdir]. *)
Definition clear_pte (temp : Z) : K unit :=
  if temp =? 0 then fault "null pte" else on_mem (write32 temp 0).

(** One round of the inner loop of [shmrem("-1")]: give up slot [i] of the
    process if it holds the page of table slot [y]. *)
Definition shmrem_drop (i y : nat) : K unit :=
  me <- myproc ;;
  p <- get_proc me ;;
  t <- gets sh_table ;;
  let e := info_at t y in
  if phy_at p i =? shmem_addr e then
    if shmem_counter e =? 1 then
      on_mem (kfree (shmem_addr e)) ;;;
      set_info y no_info ;;;
      set_shkey y zero_key ;;;
      upd_pshm me (set_phy i 0) ;;;
      temp <- on_mem (walkpgdir (pgdir p) (vm_at p i) false) ;;
      clear_pte temp
    else if 1 <? shmem_counter e then
      set_info y (mk_info (shmem_addr e) (shmem_counter e - 1)) ;;;
      upd_pshm me (set_phy i 0) ;;;
      temp <- on_mem (walkpgdir (pgdir p) (vm_at p i) false) ;;
      clear_pte temp
    else if shmem_counter e <? 0 then
      sh_release ;;; panic "ERROR negative counter %d"
    else ret tt
  else ret tt.

Definition shmrem_all : K unit :=
  for_range SHMEM_PAGES 0 (fun i =>
    me <- myproc ;;
    p <- get_proc me ;;
    when (bitmap_at p i =? 1) (for_range SHMEM_PAGES 0 (shmrem_drop i))).

(** The page of table slot [i] is the one with the key; [y] is a slot of the
    process. *)
Definition shmrem_slot (key : list Z) (i y : nat) : K (option Z) :=
  me <- myproc ;;
  p <- get_proc me ;;
  r <- of_option (strncmp (pkey_at p y) key 16) ;;
  if r =? 0 then
    t <- gets sh_table ;;
    let e := info_at t i in
    if shmem_counter e =? 1 then
      on_mem (kfree (shmem_addr e)) ;;;
      set_info i no_info ;;;
      set_shkey i zero_key ;;;
      temp <- on_mem (walkpgdir (pgdir p) (vm_at p y) false) ;;
      clear_pte temp ;;;
      upd_pshm me (set_vm y 0) ;;;
      upd_pshm me (set_phy y 0) ;;;
      sh_release ;;;
      ret (Some 0)
    else
      set_info i (mk_info (shmem_addr e) (shmem_counter e - 1)) ;;;
      upd_pshm me (set_phy y 0) ;;;
      temp <- on_mem (walkpgdir (pgdir p) (vm_at p y) false) ;;
      clear_pte temp ;;;
      upd_pshm me (set_vm y 0) ;;;
      upd_pshm me (set_pkey y zero_key) ;;;
      sh_release ;;;
      ret (Some 1)
  else ret None.

Definition shmrem (key : list Z) : K Z :=
  sh_acquire ;;;
  r <- of_option (memcmp key lit_shm 16) ;;
  if r =? 0 then
    shmrem_all ;;;
    sh_release ;;;
    ret 1
  else
    r <- for_find SHMEM_PAGES 0 (fun i =>
      t <- gets sh_table ;;
      c <- of_option (strncmp (shkey_at t i) key 16) ;;
      if c =? 0 then for_find SHMEM_PAGES 0 (shmrem_slot key i) else ret None) ;;
    match r with
    | Some v => ret v
    | None => sh_release ;;; ret (-1)
    end.

(** ** [shmget] and [manage_fork]

    Both call [exit], which [Proc] defines. *)
Context (exit : K unit).

(** The first loop of [shmget]: the slot with the key, if any, and
    [first_free_addr]. *)
Fixpoint shmget_search (n i : nat) (key : list Z) (first_free : option nat) : K (option nat * option nat) :=
  match n with
  | O => ret (None, first_free)
  | S n' =>
      t <- gets sh_table ;;
      match shkey_at t i, first_free with
      | 0 :: _, None => shmget_search n' (S i) key (Some i)
      | _, _ =>
          c <- of_option (strncmp (shkey_at t i) key 16) ;;
          if c =? 0 then ret (Some i, first_free)
          else shmget_search n' (S i) key first_free
      end
  end.

(** [memmove(dst, key, strlen(key))] into a 16-byte array. *)
Definition copy_key (dst key : list Z) : K (list Z) :=
  n <- of_option (strlen key) ;;
  of_option (memmove_arr dst key (Z.to_nat n)).

(** [a\[pos\]] with [pos] an [int]. *)
Definition slot_index (pos : Z) : K nat :=
  if (0 <=? pos) && (pos <? Z.of_nat SHMEM_PAGES) then ret (Z.to_nat pos)
  else fault "array index out of range".

(** Map the page [addr] in the calling process; the address goes to [top]. *)
Definition map_shared (addr : Z) : K Z :=
  pos <- find_pos ;;
  me <- myproc ;;
  upd_pshm me (set_top (u32 (KERNBASE - PGSIZE * (pos + 1)))) ;;;
  p <- get_proc me ;;
  r <- on_mem (mappages (pgdir p) (top (pshm p)) PGSIZE (V2P addr) (Z.lor PTE_W PTE_U)) ;;
  if r <? 0 then panic "Failed to map page." else ret pos.

Definition shmget (key : list Z) : K Z :=
  sh_acquire ;;;
  found <- shmget_search SHMEM_PAGES 0 key None ;;
  me <- myproc ;;
  match fst found with
  | Some i =>
      r <- for_find SHMEM_PAGES 0 (fun y =>
        p <- get_proc me ;;
        c <- of_option (strncmp (pkey_at p y) key 16) ;;
        if c =? 0 then sh_release ;;; ret (Some (vm_at p y)) else ret None) ;;
      match r with
      | Some v => ret v
      | None =>
          t <- gets sh_table ;;
          let e := info_at t i in
          if shmem_counter e <? MAX_PROC then
            pos <- map_shared (shmem_addr e) ;;
            set_info i (mk_info (shmem_addr e) (shmem_counter e + 1)) ;;;
            p <- get_proc me ;;
            let temp := top (pshm p) in
            pos <- slot_index pos ;;
            upd_pshm me (set_bitmap pos 1) ;;;
            upd_pshm me (set_phy pos (shmem_addr e)) ;;;
            upd_pshm me (set_vm pos temp) ;;;
            k <- copy_key (pkey_at p pos) key ;;
            upd_pshm me (set_pkey pos k) ;;;
            sh_release ;;;
            ret temp
          else sh_release ;;; panic "Max processes."
      end
  | None =>
      match snd found with
      | None => exit ;;; fault "exit returned"
      | Some i =>
          t <- gets sh_table ;;
          page <- on_mem kalloc ;;
          set_info i (mk_info page (shmem_counter (info_at t i))) ;;;
          if page =? 0 then panic "Failed to allocate."
          else
            on_mem (memsetM page 0 PGSIZE) ;;;
            pos <- map_shared page ;;
            k <- copy_key (shkey_at t i) key ;;
            set_shkey i k ;;;
            p <- get_proc me ;;
            pos <- slot_index pos ;;
            k <- copy_key (pkey_at p pos) key ;;
            upd_pshm me (set_pkey pos k) ;;;
            set_info i (mk_info page (shmem_counter (info_at t i) + 1)) ;;;
            let temp := top (pshm p) in
            upd_pshm me (set_bitmap pos 1) ;;;
            upd_pshm me (set_phy pos page) ;;;
            upd_pshm me (set_vm pos temp) ;;;
            sh_release ;;;
            ret temp
      end
  end.

(** The child's use of the page in slot [i] is counted. *)
Definition manage_fork_count (c i : nat) : K unit :=
  for_find SHMEM_PAGES 0 (fun y =>
    t <- gets sh_table ;;
    cc <- get_proc c ;;
    let e := info_at t y in
    if shmem_addr e =? phy_at cc i then
      when (shmem_counter e =? 16) (exit ;;; fault "exit returned") ;;;
      set_info y (mk_info (shmem_addr e) (shmem_counter e + 1)) ;;;
      ret (Some tt)
    else ret None) ;;;
  ret tt.

Definition manage_fork (p c : nat) : K unit :=
  for_range SHMEM_PAGES 0 (fun i =>
    pp <- get_proc p ;;
    cc <- get_proc c ;;
    when ((bitmap_at pp i =? 1) && negb (bitmap_at pp i =? bitmap_at cc i))
      (r <- on_mem (mappages (pgdir cc) (u32 (KERNBASE - (Z.of_nat i + 1) * PGSIZE)) PGSIZE
                      (V2P (phy_at pp i)) (Z.lor PTE_W PTE_U)) ;;
       if r <? 0 then panic "Manage Fork"
       else
         upd_pshm c (set_phy i (phy_at pp i)) ;;;
         upd_pshm c (set_vm i (vm_at pp i)) ;;;
         k <- of_option (memmove_arr (pkey_at cc i) (pkey_at pp i) 16) ;;
         upd_pshm c (set_pkey i k) ;;;
         upd_pshm c (set_bitmap i 1) ;;;
         manage_fork_count c i)).
End Shm.
