(* ===== verification/ShmInv.v ===== *)
(** * The invariant of the shared pages

    [shm_inv s fl live oth]: [fl] are the free pages, [live] the processes that
    have an address space and [oth] the pages held by the rest of the kernel.
    Every page of the table is counted once for each use by a live process,
    and the page tables map exactly the uses. *)
From Stdlib Require Import ZArith Lia Bool.
From stdpp Require Import base numbers list strings.
From S2P Require Import Prelude Machine Cstring Kalloc Vm VmInv VmMap VmUser VmAlloc Spaces Kstate Shm.

(** ** Counting uses *)
Definition phys (ps : list proc) (j : nat) : list Z :=
  match ps !! j with Some p => phy_shared_page (pshm p) | None => [] end.
Definition uses (ps : list proc) (live : list nat) : list Z := flat_map (phys ps) live.
Definition refs (ps : list proc) (live : list nat) (a : Z) : Z :=
  Z.of_nat (count_occ Z.eq_dec (uses ps live) a).

Definition ind (b : bool) : Z := if b then 1 else 0.

Lemma count_occ_insert (l : list Z) i v a : (i < length l)%nat ->
  Z.of_nat (count_occ Z.eq_dec (<[i := v]> l) a) + ind (nth i l 0 =? a) =
  Z.of_nat (count_occ Z.eq_dec l a) + ind (v =? a).
Proof.
  revert i. induction l as [|x l IH]; intros i Hi; [simpl in Hi; lia|].
  destruct i as [|i]; simpl in *.
  - destruct (Z.eq_dec v a), (Z.eqb_spec v a), (Z.eq_dec x a), (Z.eqb_spec x a); simpl; lia.
  - specialize (IH i ltac:(lia)). destruct (Z.eq_dec x a); lia.
Qed.

Lemma nth_insert {A} (l : list A) i k v d : (i < length l)%nat ->
  nth k (<[i := v]> l) d = if decide (k = i) then v else nth k l d.
Proof.
  intros Hi. rewrite !nth_lookup. destruct (decide (k = i)) as [->|Hne].
  - by rewrite list_lookup_insert_eq.
  - by rewrite list_lookup_insert_ne.
Qed.

Lemma uses_ext ps ps' live : (forall j, j ∈ live -> phys ps' j = phys ps j) -> uses ps' live = uses ps live.
Proof.
  unfold uses. induction live as [|k live IH]; intros H; [done|]. simpl.
  rewrite H by by left. f_equal. apply IH. intros j Hj. apply H. by right.
Qed.

Lemma refs_update ps ps' live j i v a :
  NoDup live -> j ∈ live -> (i < length (phys ps j))%nat ->
  phys ps' j = <[i := v]> (phys ps j) -> (forall k, k <> j -> phys ps' k = phys ps k) ->
  refs ps' live a = refs ps live a - ind (nth i (phys ps j) 0 =? a) + ind (v =? a).
Proof.
  intros Hnd Hj Hi Hnew Hold. unfold refs.
  assert (Z.of_nat (count_occ Z.eq_dec (uses ps' live) a) + ind (nth i (phys ps j) 0 =? a) =
          Z.of_nat (count_occ Z.eq_dec (uses ps live) a) + ind (v =? a)); [|lia].
  induction live as [|k live IH]; [by apply not_elem_of_nil in Hj|].
  apply NoDup_cons in Hnd as [Hk Hnd]. unfold uses. simpl. rewrite !count_occ_app, !Nat2Z.inj_add.
  fold (uses ps live) (uses ps' live).
  destruct (decide (k = j)) as [->|Hne].
  - rewrite (uses_ext ps ps' live).
    + pose proof (count_occ_insert (phys ps j) i v a Hi). rewrite Hnew. lia.
    + intros k Hk'. apply Hold. by intros ->.
  - apply elem_of_cons in Hj as [->|Hj]; [done|]. rewrite Hold by done. specialize (IH Hnd Hj). lia.
Qed.

Lemma refs_pos ps live j i : j ∈ live -> (i < length (phys ps j))%nat ->
  1 <= refs ps live (nth i (phys ps j) 0).
Proof.
  intros Hj Hi. unfold refs.
  assert (0 < count_occ Z.eq_dec (uses ps live) (nth i (phys ps j) 0%Z))%nat; [|lia].
  apply count_occ_In. apply in_flat_map. exists j. split; [by apply list_elem_of_In|by apply nth_In].
Qed.

Lemma refs_none ps live a :
  (forall j i, j ∈ live -> (i < length (phys ps j))%nat -> nth i (phys ps j) 0 <> a) -> refs ps live a = 0.
Proof.
  intros H. unfold refs. assert (count_occ Z.eq_dec (uses ps live) a = 0%nat) as ->; [|done].
  apply count_occ_not_In. intros (j & Hj & Ha)%in_flat_map. apply (In_nth _ _ 0) in Ha as (i & Hi & Ha).
  by apply (H j i); [apply list_elem_of_In|..].
Qed.

(** ** The invariant *)
Definition win (i : nat) : Z := KERNBASE - (Z.of_nat i + 1) * PGSIZE.
Definition shm_perm : Z := Z.lor PTE_W PTE_U.

Lemma win_upage i : (i < 32)%nat -> upage (win i) /\ SHM_BASE <= win i.
Proof. intros Hi. unfold win, SHM_BASE, upage. kconst. split; [split|]; zlia. Qed.

Lemma win_inj i k : win i = win k -> i = k.
Proof. unfold win. klia. Qed.

(** Every page of the shared window is one of the 32 slots. *)
Lemma win_slot va : upage va -> SHM_BASE <= va -> exists i, (i < 32)%nat /\ va = win i.
Proof.
  intros [H1 H2] H3. unfold SHM_BASE in H3. exists (Z.to_nat ((KERNBASE - va) / 4096 - 1)).
  unfold win. kconst. split; zlia.
Qed.

Record proc_ok (p : proc) : Prop := {
  po_phy : length (phy_shared_page (pshm p)) = 32%nat;
  po_vm : length (vm_shared_page (pshm p)) = 32%nat;
  po_key : length (p_key (pshm p)) = 32%nat;
  po_keys : Forall (fun k => bytes k /\ length k = 16%nat) (p_key (pshm p));
  po_bit : length (bitmap (pshm p)) = 32%nat;
}.

Definition slot_ok (e : shm_info) (k : list Z) : Prop :=
  bytes k /\ length k = 16%nat /\
  if shmem_addr e =? 0 then shmem_counter e = 0 /\ k = zero_key
  else 1 <= shmem_counter e <= MAX_PROC /\ nth 0 k 0 <> 0.

(** A use: what the page table and the process say about slot [i]. *)
Definition use_ok (m : memory) (p : proc) (i : nat) : Prop :=
  if phy_at p i =? 0 then mapped m (pgdir p) (win i) = false
  else mapped m (pgdir p) (win i) = true /\ frame_of m (pgdir p) (win i) = phy_at p i /\
       vm_at p i = win i /\ bitmap_at p i = 1.

Definition shared (t : shm_table) : list Z := filter (fun a => a <> 0) (map shmem_addr (shp_array t)).

Lemma elem_of_shared t q : length (shp_array t) = 32%nat ->
  q ∈ shared t <-> q <> 0 /\ exists y, (y < 32)%nat /\ shmem_addr (info_at t y) = q.
Proof.
  intros Hl. unfold shared. rewrite list_elem_of_filter. apply and_iff_compat_l.
  rewrite list_elem_of_In, in_map_iff. split.
  - intros (e & He & Hin). apply (In_nth _ _ no_info) in Hin as (y & Hy & Hn).
    exists y. split; [lia|]. unfold info_at. by rewrite Hn.
  - intros (y & Hy & He). exists (info_at t y). split; [done|]. apply nth_In. lia.
Qed.

Section ShmInv.
Context {I : KernelImage} {F : Type}.
Implicit Types s : kst F.

Definition dirs (ps : list proc) (live : list nat) : list Z :=
  omap (fun j => pgdir <$> ps !! j) live.

Lemma elem_of_dirs ps live d :
  d ∈ dirs ps live <-> exists j p, (j ∈ live) /\ ps !! j = Some p /\ pgdir p = d.
Proof.
  unfold dirs. rewrite list_elem_of_omap. split.
  - intros (j & Hj & Hd). apply fmap_Some in Hd as (p & Hp & ->). by exists j, p.
  - intros (j & p & Hj & Hp & <-). exists j. by rewrite Hp.
Qed.

Record shm_inv s (fl : list Z) (live : list nat) (oth : list Z) : Prop := {
  sv_space : space_inv (km s) fl (dirs (procs s) live) (shared (sh_table s) ++ oth);
  sv_nodup : NoDup live;
  sv_procs : forall j, j ∈ live -> exists p, procs s !! j = Some p /\ proc_ok p;
  sv_dirs : forall j k p q, j ∈ live -> k ∈ live -> procs s !! j = Some p -> procs s !! k = Some q ->
    pgdir p = pgdir q -> j = k;
  sv_len : length (shp_array (sh_table s)) = 32%nat /\ length (shp_key (sh_table s)) = 32%nat;
  sv_slots : forall y, (y < 32)%nat -> slot_ok (info_at (sh_table s) y) (shkey_at (sh_table s) y);
  sv_inj : forall y z, (y < 32)%nat -> (z < 32)%nat -> shmem_addr (info_at (sh_table s) y) <> 0 ->
    shmem_addr (info_at (sh_table s) y) = shmem_addr (info_at (sh_table s) z) -> y = z;
  sv_keys : forall y z, (y < 32)%nat -> (z < 32)%nat -> shmem_addr (info_at (sh_table s) y) <> 0 ->
    cstr 16 (shkey_at (sh_table s) y) = cstr 16 (shkey_at (sh_table s) z) -> y = z;
  sv_disj : forall q, q ∈ shared (sh_table s) -> q ∉ oth;
  sv_count : forall y, (y < 32)%nat -> shmem_addr (info_at (sh_table s) y) <> 0 ->
    shmem_counter (info_at (sh_table s) y) =
    refs (procs s) live (shmem_addr (info_at (sh_table s) y));
  sv_use : forall j p i, j ∈ live -> procs s !! j = Some p -> (i < 32)%nat -> use_ok (mem (km s)) p i;
  sv_held : forall j p i, j ∈ live -> procs s !! j = Some p -> (i < 32)%nat -> phy_at p i <> 0 ->
    exists y, (y < 32)%nat /\ shmem_addr (info_at (sh_table s) y) = phy_at p i;
}.

(** ** Updating one use

    Slot [i] of process [j] changes from the page [old] to [v] (0 for none),
    and table slot [y0] changes with it. *)
Section SlotUpdate.
Context (s s' : kst F) (fl fl' : list Z) (live : list nat) (oth : list Z).
Context (j i y0 : nat) (p p' : proc) (v : Z) (e' : shm_info) (k' : list Z).
Let t := sh_table s.
Let t' := sh_table s'.
Let e0 := info_at t y0.
Let old := phy_at p i.
Hypothesis Hinv : shm_inv s fl live oth.
Hypothesis Hj : j ∈ live.
Hypothesis Hp : procs s !! j = Some p.
Hypothesis Hi : (i < 32)%nat.
Hypothesis Hy0 : (y0 < 32)%nat.
Hypothesis Hprocs : procs s' = <[j := p']> (procs s).
Hypothesis Hdir : pgdir p' = pgdir p.
Hypothesis Hphy : phy_shared_page (pshm p') = <[i := v]> (phy_shared_page (pshm p)).
Hypothesis Hpok : proc_ok p'.
Hypothesis Hrest : forall i', (i' < 32)%nat -> i' <> i -> vm_at p' i' = vm_at p i' /\ bitmap_at p' i' = bitmap_at p i'.
Hypothesis Harr : shp_array t' = <[y0 := e']> (shp_array t).
Hypothesis Hkey : shp_key t' = <[y0 := k']> (shp_key t).
Hypothesis Hspace : space_inv (km s') fl' (dirs (procs s) live) (shared t' ++ oth).
Hypothesis Hpte : forall d va, d ∈ dirs (procs s) live -> upage va -> SHM_BASE <= va ->
  d <> pgdir p \/ va <> win i -> pte_val (mem (km s')) d va = pte_val (mem (km s)) d va.
Hypothesis Huse : use_ok (mem (km s')) p' i.
Hypothesis Hslot : slot_ok e' k'.
Hypothesis Hnew : shmem_addr e' <> 0 -> forall y, (y < 32)%nat -> y <> y0 ->
  shmem_addr (info_at t y) <> shmem_addr e' /\ cstr 16 (shkey_at t y) <> cstr 16 k'.
Hypothesis Hoth : shmem_addr e' ∉ oth.
Hypothesis Hold : old = 0 \/ old = shmem_addr e0.
Hypothesis Hv : v = 0 \/ v = shmem_addr e'.
Hypothesis Haddr : shmem_addr e' = shmem_addr e0 \/ shmem_addr e0 = 0 \/ shmem_addr e' = 0.
Hypothesis Hcnt : shmem_counter e' = shmem_counter e0 - ind (negb (old =? 0)) + ind (negb (v =? 0)).

Lemma su_info y : (y < 32)%nat -> info_at t' y = if decide (y = y0) then e' else info_at t y.
Proof.
  intros Hy. unfold info_at. rewrite Harr. destruct (sv_len _ _ _ _ Hinv) as [Hl _]. fold t in Hl.
  destruct (decide (y = y0)) as [->|Hne].
  - apply nth_lookup_Some. by rewrite list_lookup_insert_eq by lia.
  - rewrite !nth_lookup. by rewrite list_lookup_insert_ne.
Qed.

Lemma su_key y : (y < 32)%nat -> shkey_at t' y = if decide (y = y0) then k' else shkey_at t y.
Proof.
  intros Hy. unfold shkey_at. rewrite Hkey. destruct (sv_len _ _ _ _ Hinv) as [_ Hl]. fold t in Hl.
  destruct (decide (y = y0)) as [->|Hne].
  - apply nth_lookup_Some. by rewrite list_lookup_insert_eq by lia.
  - rewrite !nth_lookup. by rewrite list_lookup_insert_ne.
Qed.

Lemma su_lookup k : procs s' !! k = if decide (k = j) then Some p' else procs s !! k.
Proof.
  rewrite Hprocs. destruct (decide (k = j)) as [->|Hne].
  - apply list_lookup_insert_eq. by eapply lookup_lt_Some.
  - by rewrite list_lookup_insert_ne.
Qed.

Lemma su_dirs : dirs (procs s') live = dirs (procs s) live.
Proof.
  unfold dirs. apply list_omap_ext. clear -Hprocs Hdir Hp. induction live as [|k l IH]; constructor; [|done].
  rewrite su_lookup. destruct (decide (k = j)) as [->|]; [|done]. rewrite Hp. simpl. by rewrite Hdir.
Qed.

Lemma su_refs a : refs (procs s') live a = refs (procs s) live a - ind (old =? a) + ind (v =? a).
Proof.
  destruct (sv_procs _ _ _ _ Hinv j Hj) as (q & Hq & Hok). rewrite Hp in Hq. injection Hq as <-.
  assert (phys (procs s) j = phy_shared_page (pshm p)) as Hph by (unfold phys; by rewrite Hp).
  rewrite (refs_update (procs s) (procs s') live j i v a).
  - by rewrite Hph.
  - apply Hinv.
  - done.
  - rewrite Hph, (po_phy _ Hok). done.
  - rewrite Hph. unfold phys. rewrite su_lookup. by destruct (decide (j = j)).
  - intros k Hk. unfold phys. rewrite su_lookup. by destruct (decide (k = j)).
Qed.

Lemma su_phy_at i' : phy_at p' i' = if decide (i' = i) then v else phy_at p i'.
Proof.
  destruct (sv_procs _ _ _ _ Hinv j Hj) as (q & Hq & Hok). rewrite Hp in Hq. injection Hq as <-.
  unfold phy_at. rewrite Hphy. destruct (decide (i' = i)) as [->|Hne].
  - apply nth_lookup_Some. rewrite list_lookup_insert_eq; [done|]. by rewrite (po_phy _ Hok).
  - rewrite !nth_lookup. by rewrite list_lookup_insert_ne.
Qed.

(** The table's addresses and keys stay distinct. *)
Lemma su_distinct y z : (y < 32)%nat -> (z < 32)%nat -> shmem_addr (info_at t' y) <> 0 ->
  shmem_addr (info_at t' y) = shmem_addr (info_at t' z) \/
  cstr 16 (shkey_at t' y) = cstr 16 (shkey_at t' z) -> y = z.
Proof.
  intros Hy Hz. rewrite !su_info, !su_key by done.
  destruct (decide (y = y0)) as [->|Hy'], (decide (z = y0)) as [->|Hz']; intros Hn He; try done.
  - destruct (Hnew Hn z Hz Hz') as [Ha Hk]. by destruct He; [destruct Ha|destruct Hk].
  - destruct (Z.eq_dec (shmem_addr e') 0) as [E|E].
    + exfalso. destruct He as [He|He]; [by rewrite He in Hn|].
      destruct Hslot as (_ & _ & Hs). rewrite E in Hs. destruct Hs as [_ ->].
      destruct (sv_slots _ _ _ _ Hinv y Hy) as (_ & Hlen & Hs). fold t in Hs, Hlen.
      rewrite (proj2 (Z.eqb_neq _ _) Hn) in Hs. destruct Hs as [_ Hk].
      destruct (shkey_at t y) as [|c l]; [done|]. simpl in Hk, He. by rewrite (proj2 (Z.eqb_neq _ _) Hk) in He.
    + destruct (Hnew E y Hy Hy') as [Ha Hk]. by destruct He.
  - destruct He; [by apply (sv_inj _ _ _ _ Hinv)|by apply (sv_keys _ _ _ _ Hinv)].
Qed.

Lemma su_counts y : (y < 32)%nat -> shmem_addr (info_at t' y) <> 0 ->
  shmem_counter (info_at t' y) = refs (procs s') live (shmem_addr (info_at t' y)).
Proof.
  intros Hy. rewrite su_info, su_refs by done. destruct (decide (y = y0)) as [->|Hne]; intros Hn.
  - assert (ind (v =? shmem_addr e') = ind (negb (v =? 0))) as ->.
    { destruct Hv as [-> | ->]; [by rewrite (proj2 (Z.eqb_neq 0 _)) by lia|].
      by rewrite Z.eqb_refl, (proj2 (Z.eqb_neq _ 0)). }
    rewrite Hcnt. destruct (Z.eq_dec (shmem_addr e') (shmem_addr e0)) as [E|E].
    + pose proof (sv_count _ _ _ _ Hinv y0 Hy) as Hc. fold t e0 in Hc. rewrite E in *. rewrite Hc by done.
      replace (ind (old =? shmem_addr e0)) with (ind (negb (old =? 0))); [lia|].
      destruct Hold as [-> | ->]; [by rewrite (proj2 (Z.eqb_neq 0 (shmem_addr e0))) by lia|].
      by rewrite Z.eqb_refl, (proj2 (Z.eqb_neq _ 0)).
    + assert (shmem_addr e0 = 0) as E0 by (destruct Haddr as [?|[?|?]]; done).
      destruct (sv_slots _ _ _ _ Hinv y0 Hy) as (_ & _ & Hs). fold t e0 in Hs. rewrite E0 in Hs.
      destruct Hs as [-> _]. assert (old = 0) as -> by (destruct Hold; congruence).
      rewrite refs_none; [by rewrite (proj2 (Z.eqb_neq 0 (shmem_addr e'))) by lia|].
      intros k i' Hk Hi' He.
      destruct (sv_procs _ _ _ _ Hinv k Hk) as (q & Hq & Hok).
      unfold phys in Hi', He. rewrite Hq in Hi', He. rewrite (po_phy _ Hok) in Hi'.
      destruct (sv_held _ _ _ _ Hinv k q i' Hk Hq Hi') as (y & Hy' & Hy''); [unfold phy_at; by rewrite He|].
      unfold phy_at in Hy''. rewrite He in Hy''. fold t in Hy''.
      destruct (decide (y = y0)) as [->|Hny]; [by apply E; rewrite <- Hy''|].
      by destruct (Hnew Hn y Hy' Hny).
  - pose proof (sv_count _ _ _ _ Hinv y Hy) as Hc. fold t in Hc. rewrite Hc by done. rewrite !(proj2 (Z.eqb_neq _ _)); [simpl; lia| |].
    + intros He. destruct Hv as [-> | ->]; [lia|].
      destruct (Z.eq_dec (shmem_addr e') 0); [lia|].
      by destruct (Hnew n y Hy Hne) as [[] _].
    + intros He. destruct Hold as [E|E]; [lia|]. apply Hne.
      apply (sv_inj _ _ _ _ Hinv); [done..|]. fold t e0. congruence.
Qed.

Lemma su_held k q i' : k ∈ live -> procs s' !! k = Some q -> (i' < 32)%nat -> phy_at q i' <> 0 ->
  exists y, (y < 32)%nat /\ shmem_addr (info_at t' y) = phy_at q i'.
Proof.
  intros Hk Hq Hi' Hn.
  assert ((v <> 0 /\ phy_at q i' = v) \/
    exists y, (y < 32)%nat /\ shmem_addr (info_at t y) = phy_at q i') as [[Hv0 ->]|(y & Hy & He)].
  { rewrite su_lookup in Hq. destruct (decide (k = j)) as [->|Hne].
    - injection Hq as <-. rewrite su_phy_at in *. destruct (decide (i' = i)) as [->|]; [by left|].
      right. by apply (sv_held _ _ _ _ Hinv j p).
    - right. by apply (sv_held _ _ _ _ Hinv k q). }
  { exists y0. rewrite su_info by done. destruct (decide (y0 = y0)); [|done].
    split; [done|]. by destruct Hv. }
  destruct (decide (y = y0)) as [->|Hny].
  2: { exists y. rewrite su_info by done. by destruct (decide (y = y0)). }
  fold e0 in He. destruct (Z.eq_dec (shmem_addr e') (shmem_addr e0)) as [E|E].
  { exists y0. rewrite su_info by done. destruct (decide (y0 = y0)); [|done]. split; [done|congruence]. }
  exfalso. assert (shmem_addr e' = 0) as E' by (destruct Haddr as [?|[?|?]]; congruence).
  destruct Hslot as (_ & _ & Hs). rewrite E' in Hs. destruct Hs as [Hc0 _].
  assert (v = 0) as Hv0 by (destruct Hv; congruence).
  pose proof (sv_count _ _ _ _ Hinv y0 Hy) as Hc. fold t e0 in Hc. rewrite He in Hc. specialize (Hc Hn).
  destruct (sv_procs _ _ _ _ Hinv k Hk) as (q0 & Hq0 & Hok0).
  assert (proc_ok q) as Hokq.
  { rewrite su_lookup in Hq. destruct (decide (k = j)); [by injection Hq as <-|]. congruence. }
  assert (1 <= refs (procs s') live (phy_at q i')) as Hpos.
  { unfold phy_at. replace (phy_shared_page (pshm q)) with (phys (procs s') k) by (unfold phys; by rewrite Hq).
    apply refs_pos; [done|]. unfold phys. by rewrite Hq, (po_phy _ Hokq). }
  rewrite su_refs, <- Hc, Hv0 in Hpos. rewrite Hcnt, Hv0 in Hc0. simpl in Hc0.
  rewrite (proj2 (Z.eqb_neq 0 (phy_at q i'))) in Hpos by lia. simpl in Hpos.
  destruct Hold as [E0|E0]; rewrite E0 in *; [simpl in Hc0|].
  - destruct (sv_slots _ _ _ _ Hinv y0 Hy) as (_ & _ & Hs). fold t e0 in Hs. rewrite He in Hs.
    rewrite (proj2 (Z.eqb_neq _ _) Hn) in Hs. lia.
  - rewrite He, Z.eqb_refl in Hpos. rewrite He, (proj2 (Z.eqb_neq _ _) Hn) in Hc0. simpl in *. lia.
Qed.

Lemma su_uses k q i' : k ∈ live -> procs s' !! k = Some q -> (i' < 32)%nat -> use_ok (mem (km s')) q i'.
Proof.
  intros Hk Hq Hi'. destruct (win_upage i' Hi') as [Hw1 Hw2].
  rewrite su_lookup in Hq. destruct (decide (k = j)) as [->|Hne].
  - injection Hq as <-. destruct (decide (i' = i)) as [->|Hn]; [done|].
    pose proof (sv_use _ _ _ _ Hinv j p i' Hk Hp Hi') as Hu. unfold use_ok, mapped, frame_of in *.
    rewrite su_phy_at. destruct (decide (i' = i)); [done|]. destruct (Hrest i' Hi' Hn) as [-> ->].
    rewrite Hdir, Hpte; [done| |done|done|right; by intros ?%win_inj].
    apply elem_of_dirs. eauto.
  - pose proof (sv_use _ _ _ _ Hinv k q i' Hk Hq Hi') as Hu. unfold use_ok, mapped, frame_of in *.
    rewrite Hpte; [done| |done|done|].
    + apply elem_of_dirs. eauto.
    + left. intros He. apply Hne. by eapply (sv_dirs _ _ _ _ Hinv k j q p).
Qed.

Lemma shm_inv_slot : shm_inv s' fl' live oth.
Proof.
  assert (length (shp_array t') = 32%nat) as Hla.
  { rewrite Harr, length_insert. apply (sv_len _ _ _ _ Hinv). }
  constructor.
  - rewrite su_dirs. exact Hspace.
  - apply Hinv.
  - intros k Hk. rewrite su_lookup. destruct (decide (k = j)); [by exists p'|]. by apply (sv_procs _ _ _ _ Hinv).
  - intros k1 k2 q1 q2 H1 H2 Hq1 Hq2 He. rewrite su_lookup in Hq1, Hq2.
    destruct (decide (k1 = j)) as [->|], (decide (k2 = j)) as [->|]; simplify_eq; try done;
      eapply (sv_dirs _ _ _ _ Hinv); eauto; congruence.
  - split; [done|]. fold t'. rewrite Hkey, length_insert. apply (sv_len _ _ _ _ Hinv).
  - intros y Hy. fold t'. rewrite su_info, su_key by done. destruct (decide (y = y0)); [done|].
    by apply (sv_slots _ _ _ _ Hinv).
  - intros y z Hy Hz Hn He. by apply su_distinct; [..|left].
  - intros y z Hy Hz Hn He. by apply su_distinct; [..|right].
  - intros q (Hq0 & y & Hy & <-)%elem_of_shared; [|done]. fold t' in Hq0 |- *. rewrite su_info in * by done.
    destruct (decide (y = y0)); [done|]. apply (sv_disj _ _ _ _ Hinv), elem_of_shared.
    { apply (sv_len _ _ _ _ Hinv). }
    split; [done|by exists y].
  - by apply su_counts.
  - apply su_uses.
  - apply su_held.
Qed.
End SlotUpdate.

(** Every page of the table is in use. *)
Lemma shared_in_use s fl live oth a : shm_inv s fl live oth -> a ∈ shared (sh_table s) ->
  exists k q i, (k ∈ live) /\ procs s !! k = Some q /\ (i < 32)%nat /\ phy_at q i = a.
Proof.
  intros Hinv Ha. apply elem_of_shared in Ha as (Hn & y & Hy & <-); [|apply (sv_len _ _ _ _ Hinv)].
  destruct (sv_slots _ _ _ _ Hinv y Hy) as (_ & _ & Hs). rewrite (proj2 (Z.eqb_neq _ _) Hn) in Hs.
  rewrite (sv_count _ _ _ _ Hinv y Hy Hn) in Hs. unfold refs in Hs.
  assert (0 < count_occ Z.eq_dec (uses (procs s) live) (shmem_addr (info_at (sh_table s) y)))%nat as Hc by lia.
  apply count_occ_In, in_flat_map in Hc as (k & Hk & Hin). apply list_elem_of_In in Hk.
  destruct (sv_procs _ _ _ _ Hinv k Hk) as (q & Hq & Hok). unfold phys in Hin. rewrite Hq in Hin.
  apply (In_nth _ _ 0) in Hin as (i & Hi & He). rewrite (po_phy _ Hok) in Hi. by exists k, q, i.
Qed.
End ShmInv.
