(* ===== verification/ShmRem.v ===== *)
(** * [shmrem]: giving up shared pages *)
From Stdlib Require Import ZArith Lia Bool.
From stdpp Require Import base numbers list strings.
From S2P Require Import Prelude Machine Cstring Kalloc Vm VmInv VmMap VmUser VmAlloc Spaces Kstate Shm ShmInv.

Section ShmRem.
Context {I : KernelImage} `{!KernelImageOk I} {L : Literals} {F : Type}.
Implicit Types s : kst F.

(** ** Unmapping one page of the shared window *)
Lemma wp_unmap s fl pds oth d va (Q : unit -> kst F -> Prop) :
  space_inv (km s) fl pds oth -> d ∈ pds -> upage va -> SHM_BASE <= va ->
  mapped (mem (km s)) d va = true ->
  (forall k', space_inv k' fl pds oth ->
     (forall d' va', d' ∈ pds -> aligned va' -> pte_val (mem k') d' va' =
        if (d' =? d) && (va' =? va) then 0 else pte_val (mem (km s)) d' va') ->
     (forall x, outside (mem (km s)) d x -> mem k' x = mem (km s) x) ->
     Q tt (set_km k' s)) ->
  wp (on_mem (walkpgdir d va false)) (fun temp => wp (clear_pte temp) Q) s.
Proof.
  intros Hs Hd Hva Hb Hm HQ. pose proof (si_as _ _ _ _ _ Hs Hd) as Has.
  assert (has (pde (mem (km s)) d (PDX va)) PTE_P = true) as Hp.
  { unfold mapped, pte_val in Hm. by destruct (has (pde _ _ _) _). }
  apply wp_lift. unfold wp at 1. rewrite walk_present by done.
  unfold clear_pte. rewrite (proj2 (Z.eqb_neq _ 0)) by by apply slot_nonzero; [apply Has|].
  apply wp_lift, wp_modify. destruct s as [k0 ? ? ? ? ? ? ?]; simpl in *.
  destruct (write_pte_step k0 d va 0 fl Has Hp) as [Hst Hpv].
  pose proof (upage_aligned va Hva) as [Ha1 Ha2].
  set (k' := set_mem _ k0) in *.
  assert (forall va', aligned va' -> pte_val (mem k') d va' = if va' =? va then 0 else pte_val (mem k0) d va') as Hpv'.
  { intros va' [? ?]. by apply Hpv. }
  destruct (space_step k0 k' fl fl pds oth d Hs Hd Hst) as [Hs' Hpo].
  { intros va' Hu Hlt Hm'. rewrite Hpv' by by apply upage_aligned.
    destruct (Z.eqb_spec va' va); [lia|done]. }
  apply (HQ k'); [done| |].
  - intros d' va' Hd' Hal. destruct (Z.eqb_spec d' d) as [->|Hne]; simpl; [by apply Hpv'|by apply Hpo].
  - intros x Hx. apply (vs_frame _ _ _ _ _ Hst). intros q Hq. apply Hx.
    destruct (vs_used _ _ _ _ _ Hst) as (used & Hu & Ht).
    assert (used = []) as ->.
    { apply (f_equal length) in Hu. rewrite length_app in Hu. destruct used; simpl in Hu; [done|lia]. }
    rewrite Ht, elem_of_nil in Hq. tauto.
Qed.

(** ** One use is dropped *)
Record drop_rel (s s' : kst F) (me : nat) (p' : proc) (fl fl' : list Z) : Prop := {
  dp_cur : cur s' = cur s;
  dp_lock : sh_locked s' = sh_locked s;
  dp_procs : procs s' = <[me := p']> (procs s);
  dp_shared : forall q, q ∈ shared (sh_table s') -> q ∈ shared (sh_table s);
  dp_free : forall q, q ∈ fl' <-> q ∈ fl \/ (q ∈ shared (sh_table s) /\ q ∉ shared (sh_table s'));
  dp_bytes : forall q x, q ∈ shared (sh_table s') -> q <= x < q + PGSIZE -> mem (km s') x = mem (km s) x;
  dp_slots : forall z, (z < 32)%nat -> shmem_addr (info_at (sh_table s') z) <> 0 ->
    shmem_addr (info_at (sh_table s') z) = shmem_addr (info_at (sh_table s) z) /\
    shkey_at (sh_table s') z = shkey_at (sh_table s) z;
}.

(** Removing the page of slot [y] from the table, or only counting down. *)
Lemma shared_insert t y e q : length (shp_array t) = 32%nat -> (y < 32)%nat ->
  (forall z, (z < 32)%nat -> z <> y -> shmem_addr (info_at t z) <> 0 ->
     shmem_addr (info_at t z) <> shmem_addr (info_at t y)) ->
  shmem_addr e = shmem_addr (info_at t y) \/ shmem_addr e = 0 ->
  let t' := mk_shm (sh_lock t) (<[y := e]> (shp_array t)) (shp_key t) in
  q ∈ shared t' <-> q ∈ shared t /\ (shmem_addr e = 0 -> q <> shmem_addr (info_at t y)).
Proof.
  intros Hl Hy Hinj He t'. rewrite !elem_of_shared by (simpl; rewrite ?length_insert; done).
  assert (forall z, (z < 32)%nat -> info_at t' z = if decide (z = y) then e else info_at t z) as Hinfo.
  { intros z Hz. unfold info_at, t'; simpl. destruct (decide (z = y)) as [->|Hne].
    - apply nth_lookup_Some. by rewrite list_lookup_insert_eq by lia.
    - rewrite !nth_lookup. by rewrite list_lookup_insert_ne. }
  split.
  - intros (Hq & z & Hz & Hzq). rewrite Hinfo in Hzq by done. destruct (decide (z = y)) as [->|Hne].
    + destruct He as [He|He]; [|congruence]. split; [split; [done|]; exists y; split; [done|congruence]|congruence].
    + split; [by split; [|exists z]|]. intros _. rewrite <- Hzq. apply Hinj; [done..|congruence].
  - intros [(Hq & z & Hz & Hzq) Hn]. split; [done|]. destruct (decide (z = y)) as [->|Hne].
    + exists y. rewrite Hinfo by done. destruct (decide (y = y)); [|done]. split; [done|].
      destruct He as [->|He]; [done|]. by destruct (Hn He).
    + exists z. rewrite Hinfo by done. by destruct (decide (z = y)).
Qed.

Definition drop_slot (i : nat) (p : proc) : proc := set_pshm (set_phy i 0 (pshm p)) p.

Lemma drop_slot_ok i p : proc_ok p -> proc_ok (drop_slot i p).
Proof. intros [H1 H2 H3 H4 H5]. constructor; simpl; rewrite ?length_insert; done. Qed.

(** The state after one use of table slot [y] is dropped; [k'] is the memory. *)
Definition use_state s (k' : kmem_t) (me y : nat) (p' : proc) (e : shm_info) (k : list Z) : kst F :=
  set_km k' (set_procs (<[me := p']> (procs s))
    (set_sh (mk_shm (sh_lock (sh_table s)) (<[y := e]> (shp_array (sh_table s)))
                    (<[y := k]> (shp_key (sh_table s)))) s)).

Section Drop.
Context (s : kst F) (fl : list Z) (live : list nat) (oth : list Z) (me i y : nat) (p : proc).
Hypothesis Hinv : shm_inv s fl live oth.
Hypothesis Hme : me ∈ live.
Hypothesis Hp : procs s !! me = Some p.
Hypothesis Hi : (i < 32)%nat.
Hypothesis Hy : (y < 32)%nat.
Hypothesis Hn : phy_at p i <> 0.
Hypothesis Hpy : shmem_addr (info_at (sh_table s) y) = phy_at p i.
(** The process afterwards. *)
Context (p' : proc).
Hypothesis Hdir' : pgdir p' = pgdir p.
Hypothesis Hphy' : phy_shared_page (pshm p') = <[i := 0]> (phy_shared_page (pshm p)).
Hypothesis Hok' : proc_ok p'.
Hypothesis Hrest' : forall i', (i' < 32)%nat -> i' <> i ->
  vm_at p' i' = vm_at p i' /\ bitmap_at p' i' = bitmap_at p i'.

Lemma drop_proc_ok : proc_ok p.
Proof. destruct (sv_procs _ _ _ _ Hinv me Hme) as (q & Hq & Hok). congruence. Qed.

Lemma drop_mapped : mapped (mem (km s)) (pgdir p) (win i) = true /\ vm_at p i = win i.
Proof.
  pose proof (sv_use _ _ _ _ Hinv me p i Hme Hp Hi) as Hu. unfold use_ok in Hu.
  rewrite (proj2 (Z.eqb_neq _ _) Hn) in Hu. tauto.
Qed.

Lemma drop_dir : pgdir p ∈ dirs (procs s) live.
Proof. apply elem_of_dirs. eauto. Qed.

Lemma drop_shared : phy_at p i ∈ shared (sh_table s).
Proof. apply elem_of_shared; [apply (sv_len _ _ _ _ Hinv)|]. split; [done|by exists y]. Qed.

Lemma drop_page : valid_page (phy_at p i) /\ (phy_at p i ∉ fl) /\
  forall d, d ∈ dirs (procs s) live -> ~ table_page (mem (km s)) d (phy_at p i).
Proof.
  pose proof (sv_space _ _ _ _ Hinv) as Hs.
  assert (owns (mem (km s)) (dirs (procs s) live) (shared (sh_table s) ++ oth) Other (phy_at p i)) as Ho
    by (apply elem_of_app; left; apply drop_shared).
  destruct (si_own _ _ _ _ Hs _ _ Ho) as [? ?]. split_and!; [done..|]. intros d Hd Ht.
  assert (Table d = Other) by by eapply (si_uniq _ _ _ _ Hs). done.
Qed.

Let c := shmem_counter (info_at (sh_table s) y).

Lemma drop_count : 1 <= c <= MAX_PROC.
Proof.
  destruct (sv_slots _ _ _ _ Hinv y Hy) as (_ & _ & Hs). rewrite Hpy in Hs.
  rewrite (proj2 (Z.eqb_neq _ _) Hn) in Hs. apply Hs.
Qed.

(** What the two branches leave in the table. *)
Let e' := if c =? 1 then no_info else mk_info (phy_at p i) (c - 1).
Let k' := if c =? 1 then zero_key else shkey_at (sh_table s) y.
Let fl' := if c =? 1 then phy_at p i :: fl else fl.

Lemma drop_shared' q :
  q ∈ shared (mk_shm (sh_lock (sh_table s)) (<[y := e']> (shp_array (sh_table s)))
        (<[y := k']> (shp_key (sh_table s)))) <->
  q ∈ shared (sh_table s) /\ (c = 1 -> q <> phy_at p i).
Proof.
  pose proof (shared_insert (sh_table s) y e' q) as H. rewrite Hpy in H. unfold shared in H |- *.
  simpl in H |- *. rewrite H.
  - unfold e'. destruct (Z.eqb_spec c 1); simpl; tauto.
  - apply (sv_len _ _ _ _ Hinv).
  - done.
  - intros z Hz Hne Hzn He. apply Hne. apply (sv_inj _ _ _ _ Hinv); [done..|congruence].
  - unfold e'. destruct (Z.eqb_spec c 1); simpl; auto.
Qed.

Lemma drop_inv (k2 : kmem_t) :
  space_inv k2 fl' (dirs (procs s) live) (shared (mk_shm (sh_lock (sh_table s))
     (<[y := e']> (shp_array (sh_table s))) (<[y := k']> (shp_key (sh_table s)))) ++ oth) ->
  (forall d va, d ∈ dirs (procs s) live -> aligned va -> pte_val (mem k2) d va =
     if (d =? pgdir p) && (va =? win i) then 0 else pte_val (mem (km s)) d va) ->
  (forall q x, q ∈ shared (sh_table s) -> (c = 1 -> q <> phy_at p i) -> q <= x < q + PGSIZE ->
     mem k2 x = mem (km s) x) ->
  let s' := use_state s k2 me y p' e' k' in
  shm_inv s' fl' live oth /\ drop_rel s s' me p' fl fl'.
Proof.
  intros Hsp Hpte Hbytes s'. pose proof drop_count as Hc. pose proof drop_proc_ok as Hok.
  destruct (sv_slots _ _ _ _ Hinv y Hy) as (Hkb & Hkl & Hks). rewrite Hpy in Hks.
  rewrite (proj2 (Z.eqb_neq _ _) Hn) in Hks. fold c in Hks.
  split.
  - apply (shm_inv_slot s s' fl fl' live oth me i y p p' 0 e' k'); try done.
    + intros d va Hd Hu Hb Hne. simpl. rewrite Hpte by (done || by apply upage_aligned).
      destruct (Z.eqb_spec d (pgdir p)), (Z.eqb_spec va (win i)); simpl; try done. by destruct Hne.
    + unfold use_ok. replace (phy_at p' i) with 0.
      * simpl. unfold mapped. rewrite Hdir', Hpte; [|apply drop_dir|apply upage_aligned, win_upage, Hi].
        by rewrite !Z.eqb_refl.
      * symmetry. apply nth_lookup_Some. rewrite Hphy', list_lookup_insert_eq; [done|]. by rewrite (po_phy _ Hok).
    + unfold slot_ok, e', k'. destruct (Z.eqb_spec c 1) as [E|E]; simpl.
      * split_and!; try done. apply Forall_replicate. lia.
      * rewrite (proj2 (Z.eqb_neq _ _) Hn). split_and!; try done; lia.
    + intros Hne z Hz Hzy. unfold e', k' in *. destruct (Z.eqb_spec c 1) as [E|E]; simpl in *; [done|].
      split; intros He; apply Hzy; symmetry; [apply (sv_inj _ _ _ _ Hinv)|apply (sv_keys _ _ _ _ Hinv)];
        rewrite ?Hpy; (done || congruence).
    + unfold e'. destruct (Z.eqb_spec c 1) as [E|E]; simpl.
      * intros H0. destruct (si_own _ _ _ _ Hsp Other 0) as [Hv%valid_page_bounds _]; [|lia].
        apply elem_of_app. by right.
      * apply (sv_disj _ _ _ _ Hinv), drop_shared.
    + by right.
    + by left.
    + unfold e'. rewrite Hpy. destruct (c =? 1); simpl; auto.
    + unfold e'. fold c. rewrite (proj2 (Z.eqb_neq _ _) Hn). destruct (Z.eqb_spec c 1) as [E|E]; simpl; lia.
  - constructor; try done.
    + intros q Hq. apply (drop_shared' q), Hq.
    + intros q. unfold fl'. pose proof drop_shared as Hsh. simpl. rewrite drop_shared'.
      destruct (Z.eqb_spec c 1) as [E|E].
      * rewrite elem_of_cons. destruct (decide (q = phy_at p i)) as [->|]; [tauto|]. tauto.
      * split; [by left|]. intros [?|[? Hno]]; [done|]. destruct Hno. by split.
    + intros q x Hq Hx. destruct (proj1 (drop_shared' q) Hq) as [Hq1 Hq2]. by apply (Hbytes q).
    + destruct (sv_len _ _ _ _ Hinv) as [Hl1 Hl2]. intros z Hz. unfold info_at, shkey_at. simpl.
      rewrite !nth_insert by lia. destruct (decide (z = y)) as [->|]; [|done].
      fold (info_at (sh_table s) y) (shkey_at (sh_table s) y). rewrite Hpy. unfold e', k'.
      by destruct (c =? 1).
Qed.

(** The memory operations: the last use frees the page, then the entry of the
    process is cleared. *)
Let t' := mk_shm (sh_lock (sh_table s)) (<[y := e']> (shp_array (sh_table s)))
            (<[y := k']> (shp_key (sh_table s))).

Lemma wp_drop_free (Q : unit -> kmem_t -> Prop) : c = 1 ->
  (forall k1, space_inv k1 fl' (dirs (procs s) live) (shared t' ++ oth) ->
     (forall d va, d ∈ dirs (procs s) live -> pte_val (mem k1) d va = pte_val (mem (km s)) d va) ->
     (forall d q, d ∈ dirs (procs s) live -> table_page (mem k1) d q <-> table_page (mem (km s)) d q) ->
     (forall x, x < phy_at p i \/ phy_at p i + PGSIZE <= x -> mem k1 x = mem (km s) x) -> Q tt k1) ->
  wp (kfree (phy_at p i)) Q (km s).
Proof.
  intros Hc1 HQ. destruct drop_page as (Hv & Hnf & Hnt). pose proof (sv_space _ _ _ _ Hinv) as Hs.
  apply (wp_kfree (km s) _ fl); [apply Hs|done..|]. intros k1 Hk1 Hm1 _.
  destruct (space_keep (km s) k1 fl fl' (dirs (procs s) live) (shared (sh_table s) ++ oth) (shared t' ++ oth))
    as (Hs1 & Hpv & Htp); [done| | | | |by apply (HQ k1)].
  - unfold fl'. by rewrite (proj2 (Z.eqb_eq _ _) Hc1).
  - intros d q x Hd Hq Hx. apply Hm1. apply (valid_page_sep q); [|done| |done].
    + by apply (si_own _ _ _ _ Hs (Table d)).
    + intros ->. by apply (Hnt d).
  - unfold fl'. rewrite (proj2 (Z.eqb_eq _ _) Hc1). intros q. rewrite elem_of_cons, !elem_of_app.
    pose proof drop_shared. intros [[->|?]|[[? _]%drop_shared'|?]]; tauto.
  - unfold fl'. rewrite (proj2 (Z.eqb_eq _ _) Hc1). intros q Hq. rewrite elem_of_cons.
    apply elem_of_app in Hq as [[Hq1 Hq2]%drop_shared'|Hq]; intros [->|Hf].
    + by apply Hq2.
    + apply (si_own _ _ _ _ Hs Other q); [apply elem_of_app; by left|done].
    + by apply (sv_disj _ _ _ _ Hinv (phy_at p i)), Hq; apply drop_shared.
    + apply (si_own _ _ _ _ Hs Other q); [apply elem_of_app; by right|done].
Qed.

(** The bytes of the pages that stay shared. *)
Lemma drop_bytes (k1 k2 : kmem_t) :
  (forall d q, d ∈ dirs (procs s) live -> table_page (mem k1) d q <-> table_page (mem (km s)) d q) ->
  (forall x, c = 1 -> x < phy_at p i \/ phy_at p i + PGSIZE <= x -> mem k1 x = mem (km s) x) ->
  (c <> 1 -> mem k1 = mem (km s)) ->
  (forall x, outside (mem k1) (pgdir p) x -> mem k2 x = mem k1 x) ->
  forall q x, q ∈ shared (sh_table s) -> (c = 1 -> q <> phy_at p i) -> q <= x < q + PGSIZE ->
    mem k2 x = mem (km s) x.
Proof.
  intros Htp H1 H1' H2 q x Hq Hqn Hx. pose proof (sv_space _ _ _ _ Hinv) as Hs.
  assert (owns (mem (km s)) (dirs (procs s) live) (shared (sh_table s) ++ oth) Other q) as Ho
    by (apply elem_of_app; by left).
  destruct (si_own _ _ _ _ Hs _ _ Ho) as [Hv _]. rewrite H2.
  - destruct (Z.eq_dec c 1) as [E|E]; [|by rewrite H1'].
    apply H1; [done|]. destruct drop_page as (Hvp & _). apply (valid_page_sep q); auto.
  - intros r Hr%Htp; [|apply drop_dir].
    assert (owns (mem (km s)) (dirs (procs s) live) (shared (sh_table s) ++ oth) (Table (pgdir p)) r) as Hor
      by (split; [apply drop_dir|done]).
    apply (valid_page_sep q); [done|by apply (si_own _ _ _ _ Hs _ _ Hor)| |done]. intros ->.
    assert (Table (pgdir p) = Other) by by eapply (si_uniq _ _ _ _ Hs). done.
Qed.

(** After the page was freed, or not, the entry is cleared. *)
Lemma wp_drop_unmap (k1 : kmem_t) (s1 : kst F) (Q : unit -> kst F -> Prop) :
  km s1 = k1 ->
  space_inv k1 fl' (dirs (procs s) live) (shared t' ++ oth) ->
  (forall d va, d ∈ dirs (procs s) live -> pte_val (mem k1) d va = pte_val (mem (km s)) d va) ->
  (forall d q, d ∈ dirs (procs s) live -> table_page (mem k1) d q <-> table_page (mem (km s)) d q) ->
  (forall x, c = 1 -> x < phy_at p i \/ phy_at p i + PGSIZE <= x -> mem k1 x = mem (km s) x) ->
  (c <> 1 -> mem k1 = mem (km s)) ->
  (forall k2, let s' := use_state s k2 me y p' e' k' in
     shm_inv s' fl' live oth -> drop_rel s s' me p' fl fl' -> Q tt (set_km k2 s1)) ->
  wp (on_mem (walkpgdir (pgdir p) (vm_at p i) false)) (fun temp => wp (clear_pte temp) Q) s1.
Proof.
  intros <- Hsp Hpv Htp Hm1 Hm1' HQ. destruct drop_mapped as [Hm ->].
  destruct (win_upage i Hi) as [Hw1 Hw2].
  apply (wp_unmap s1 fl' (dirs (procs s) live) (shared t' ++ oth)); try done; [apply drop_dir| |].
  { unfold mapped. rewrite Hpv by apply drop_dir. exact Hm. }
  intros k2 Hs2 Hp2 Hb2. destruct (drop_inv k2) as [H1 H2]; [done| | |by apply HQ].
  - intros d va Hd Ha. rewrite Hp2 by done. by rewrite Hpv.
  - by apply (drop_bytes (km s1)).
Qed.

Lemma drop_nochange : c <> 1 ->
  space_inv (km s) fl' (dirs (procs s) live) (shared t' ++ oth).
Proof.
  intros Hc1. pose proof (sv_space _ _ _ _ Hinv) as Hs. unfold fl'. rewrite (proj2 (Z.eqb_neq _ _) Hc1).
  eapply space_keep; [exact Hs|apply Hs|done| |].
  - intros q. unfold t'. rewrite !elem_of_app, drop_shared'. tauto.
  - intros q Hq. apply (si_own _ _ _ _ Hs Other). revert Hq.
    unfold t'. simpl. rewrite !elem_of_app, drop_shared'. tauto.
Qed.

Lemma key_kept : <[y := shkey_at (sh_table s) y]> (shp_key (sh_table s)) = shp_key (sh_table s).
Proof.
  destruct (lookup_lt_is_Some_2 (shp_key (sh_table s)) y) as [k Hk].
  { destruct (sv_len _ _ _ _ Hinv) as [_ ->]. done. }
  apply list_insert_id. unfold shkey_at. by rewrite nth_lookup, Hk.
Qed.

End Drop.

(** The exit path gives up slot [i] and keeps the other fields. *)
Lemma wp_shmrem_drop s fl live oth me i y p (Q : unit -> kst F -> Prop) :
  shm_inv s fl live oth -> me ∈ live -> procs s !! me = Some p -> (i < 32)%nat -> (y < 32)%nat ->
  phy_at p i <> 0 -> shmem_addr (info_at (sh_table s) y) = phy_at p i -> cur s = me ->
  (forall s' fl', shm_inv s' fl' live oth -> drop_rel s s' me (drop_slot i p) fl fl' -> Q tt s') ->
  wp (shmrem_drop i y) Q s.
Proof.
  intros Hinv Hme Hp Hi Hy Hn Hpy Hcur HQ. unfold shmrem_drop. wp_step. apply wp_gets. rewrite Hcur. wp_step.
  apply (wp_get_proc s me p); [done|]. wp_steps. cbn zeta. rewrite Hpy, Z.eqb_refl.
  pose proof (drop_count _ _ _ _ _ _ _ Hinv Hy Hn Hpy) as Hc.
  assert (proc_ok (drop_slot i p)) as Hok by (eapply drop_slot_ok, drop_proc_ok; eauto).
  destruct (Z.eqb_spec (shmem_counter (info_at (sh_table s) y)) 1) as [E|E].
  - wp_step. apply wp_lift. eapply wp_drop_free; try done. intros k1 Hs1 Hpv1 Htp1 Hm1.
    wp_step. apply wp_modify. wp_step. apply wp_modify. wp_step. eapply wp_upd_pshm; [exact Hp|].
    wp_step. eapply (wp_drop_unmap s fl live oth me i y p) with (p' := drop_slot i p); try done; [auto|].
    intros k2 s' H1 H2. specialize (HQ s' _ H1 H2). revert HQ. unfold s', use_state.
    rewrite E. exact id.
  - rewrite (proj2 (Z.ltb_lt 1 _)) by lia. wp_step. apply wp_modify. wp_step.
    eapply wp_upd_pshm; [exact Hp|]. wp_step.
    eapply (wp_drop_unmap s fl live oth me i y p) with (p' := drop_slot i p); try done.
    { by eapply (drop_nochange s). }
    intros k2 s' H1 H2. specialize (HQ s' _ H1 H2). revert HQ. unfold s', use_state.
    rewrite (proj2 (Z.eqb_neq _ _) E), (key_kept s fl live oth) by done. exact id.
Qed.

(** ** All uses of the process are dropped *)
Definition with_phy (l : list Z) (p : proc) : proc :=
  set_pshm (mk_pshm (top (pshm p)) l (vm_shared_page (pshm p)) (p_key (pshm p)) (bitmap (pshm p))) p.

Record rem_rel (s s' : kst F) (me : nat) (p : proc) (l : list Z) (fl fl' : list Z) : Prop := {
  rr_cur : cur s' = cur s;
  rr_lock : sh_locked s' = sh_locked s;
  rr_procs : procs s' = <[me := with_phy l p]> (procs s);
  rr_shared : forall q, q ∈ shared (sh_table s') -> q ∈ shared (sh_table s);
  rr_free : forall q, q ∈ fl' <-> q ∈ fl \/ (q ∈ shared (sh_table s) /\ q ∉ shared (sh_table s'));
  rr_bytes : forall q x, q ∈ shared (sh_table s') -> q <= x < q + PGSIZE -> mem (km s') x = mem (km s) x;
}.

Lemma rem_rel_refl s me p fl : procs s !! me = Some p ->
  rem_rel s s me p (phy_shared_page (pshm p)) fl fl.
Proof.
  intros Hp. constructor; try done.
  - symmetry. apply list_insert_id. rewrite Hp. by destruct p as [? ? ? ? ? ? ? ? ? ? ? ? ? []].
  - intros q. split; [by left|]. tauto.
Qed.

Lemma rem_rel_drop s s1 s2 me p l i fl fl1 fl2 :
  rem_rel s s1 me p l fl fl1 -> drop_rel s1 s2 me (drop_slot i (with_phy l p)) fl1 fl2 ->
  rem_rel s s2 me p (<[i := 0]> l) fl fl2.
Proof.
  intros [A1 A2 A3 A4 A5 A6] [B1 B2 B3 B4 B5 B6 _]. constructor; try congruence.
  - rewrite B3, A3, list_insert_insert_eq. done.
  - auto.
  - intros q. rewrite B5, A5. destruct (decide (q ∈ shared (sh_table s2))) as [H2|H2].
    + pose proof (B4 q H2). tauto.
    + destruct (decide (q ∈ shared (sh_table s1))) as [H1|H1]; [pose proof (A4 q H1)|]; tauto.
  - intros q x Hq Hx. rewrite (B6 q), (A6 q); auto.
Qed.

Lemma wp_shmrem_skip s fl live oth me i y p (Q : unit -> kst F -> Prop) :
  shm_inv s fl live oth -> cur s = me -> procs s !! me = Some p -> (y < 32)%nat ->
  phy_at p i = 0 \/ shmem_addr (info_at (sh_table s) y) <> phy_at p i ->
  Q tt s -> wp (shmrem_drop i y) Q s.
Proof.
  intros Hinv Hcur Hp Hy Hno HQ. unfold shmrem_drop. wp_step. apply wp_gets. rewrite Hcur. wp_step.
  apply (wp_get_proc s me p); [done|]. wp_steps. cbn zeta.
  destruct (Z.eqb_spec (phy_at p i) (shmem_addr (info_at (sh_table s) y))) as [E|E]; [|done].
  destruct Hno as [H0|H0]; [|congruence].
  destruct (sv_slots _ _ _ _ Hinv y Hy) as (_ & _ & Hs). rewrite <- E, H0 in Hs.
  destruct Hs as [-> _]. done.
Qed.

(** The inner loop. *)
Lemma wp_shmrem_inner s fl live oth me i p (Q : unit -> kst F -> Prop) :
  shm_inv s fl live oth -> cur s = me -> me ∈ live -> procs s !! me = Some p -> (i < 32)%nat ->
  (phy_at p i = 0 -> Q tt s) ->
  (forall s' fl', shm_inv s' fl' live oth -> drop_rel s s' me (drop_slot i p) fl fl' -> Q tt s') ->
  wp (for_range SHMEM_PAGES 0 (shmrem_drop i)) Q s.
Proof.
  intros Hinv Hcur Hme Hp Hi HQ0 HQ.
  assert (proc_ok p) as Hok by (destruct (sv_procs _ _ _ _ Hinv me Hme) as (? & ? & ?); congruence).
  apply (wp_for_range (fun y s1 =>
    (s1 = s /\ (phy_at p i <> 0 -> forall z, (z < y)%nat -> shmem_addr (info_at (sh_table s) z) <> phy_at p i)) \/
    (exists fl1, shm_inv s1 fl1 live oth /\ drop_rel s s1 me (drop_slot i p) fl fl1))).
  - left. split; [done|]. intros; lia.
  - intros y s1 Hy Hs1. change (0 + SHMEM_PAGES)%nat with 32%nat in Hy.
    destruct Hs1 as [[-> Hnone]|(fl1 & Hinv1 & Hd1)].
    + destruct (Z.eq_dec (phy_at p i) 0) as [E0|E0].
      { eapply wp_shmrem_skip; [done..|lia|by left|]. left. split; [done|]. by intros. }
      destruct (Z.eq_dec (shmem_addr (info_at (sh_table s) y)) (phy_at p i)) as [E|E].
      * apply (wp_shmrem_drop s fl live oth me i y p); try done; [lia|].
        intros s' fl1 H1 H2. right. eauto.
      * eapply wp_shmrem_skip; [done..|lia|by right|]. left. split; [done|]. intros _ z Hz.
        destruct (decide (z = y)) as [->|]; [done|]. apply Hnone; [done|lia].
    + eapply (wp_shmrem_skip s1 fl1 live oth me i y (drop_slot i p)); [done| | |lia| |].
      * rewrite (dp_cur _ _ _ _ _ _ Hd1). done.
      * rewrite (dp_procs _ _ _ _ _ _ Hd1). apply list_lookup_insert_eq. by eapply lookup_lt_Some.
      * left. apply nth_lookup_Some. simpl. rewrite list_lookup_insert_eq; [done|]. by rewrite (po_phy _ Hok).
      * right. eauto.
  - intros s1 [[-> Hnone]|(fl1 & Hinv1 & Hd1)]; [|by apply (HQ s1 fl1)].
    destruct (Z.eq_dec (phy_at p i) 0) as [E0|E0]; [by apply HQ0|]. exfalso.
    destruct (sv_held _ _ _ _ Hinv me p i Hme Hp Hi E0) as (y & Hy & He).
    by apply (Hnone E0 y Hy).
Qed.

Lemma wp_shmrem_all s fl live oth me p (Q : unit -> kst F -> Prop) :
  shm_inv s fl live oth -> cur s = me -> me ∈ live -> procs s !! me = Some p ->
  (forall s' fl', shm_inv s' fl' live oth -> rem_rel s s' me p (replicate 32 0) fl fl' -> Q tt s') ->
  wp shmrem_all Q s.
Proof.
  intros Hinv Hcur Hme Hp HQ. unfold shmrem_all.
  apply (wp_for_range (fun i s1 => exists l fl1, shm_inv s1 fl1 live oth /\ rem_rel s s1 me p l fl fl1 /\
    length l = 32%nat /\ take i l = replicate i 0)).
  - exists (phy_shared_page (pshm p)), fl. split_and!; [done|by apply rem_rel_refl| |done].
    destruct (sv_procs _ _ _ _ Hinv me Hme) as (q & Hq & Hok). rewrite Hp in Hq. injection Hq as <-. apply Hok.
  - intros i s1 Hi (l & fl1 & Hinv1 & Hr1 & Hl & Ht). change (0 + SHMEM_PAGES)%nat with 32%nat in Hi.
    assert (procs s1 !! me = Some (with_phy l p)) as Hp1.
    { rewrite (rr_procs _ _ _ _ _ _ _ Hr1). apply list_lookup_insert_eq. by eapply lookup_lt_Some. }
    assert (cur s1 = me) as Hc1 by (rewrite (rr_cur _ _ _ _ _ _ _ Hr1); done).
    wp_step. apply wp_gets. rewrite Hc1. wp_step. apply (wp_get_proc s1 me (with_phy l p)); [done|].
    assert (forall l', length l' = 32%nat -> take i l' = replicate i 0 -> nth i l' 0 = 0 ->
      take (S i) l' = replicate (S i) 0) as Htake.
    { intros l' Hl' Ht' Hn'. rewrite (take_S_r l' i 0), Ht'.
      - change [0] with (replicate 1 0). by rewrite <- replicate_add, Nat.add_comm.
      - destruct (lookup_lt_is_Some_2 l' i) as [v Hv]; [lia|]. by rewrite nth_lookup, Hv in Hn'; simpl in Hn'; subst. }
    apply wp_when; intros Hb.
    + apply (wp_shmrem_inner s1 fl1 live oth me i (with_phy l p)); try done; [lia| |].
      * intros H0. exists l, fl1. split_and!; try done. by apply Htake.
      * intros s2 fl2 Hinv2 Hd2. exists (<[i := 0]> l), fl2. split_and!; [done|by eapply rem_rel_drop| |].
        -- by rewrite length_insert.
        -- apply Htake; [by rewrite length_insert| |].
           ++ by rewrite take_insert_ge by lia.
           ++ apply nth_lookup_Some. by rewrite list_lookup_insert_eq by lia.
    + exists l, fl1. split_and!; try done. apply Htake; [done..|].
      pose proof (sv_use _ _ _ _ Hinv1 me (with_phy l p) i Hme Hp1 ltac:(lia)) as Hu. unfold use_ok in Hu.
      destruct (Z.eqb_spec (phy_at (with_phy l p) i) 0) as [E|E]; [done|].
      destruct Hu as (_ & _ & _ & Hu). by rewrite Hu in Hb.
  - intros s1 (l & fl1 & Hinv1 & Hr1 & Hl & Ht). apply (HQ s1 fl1); [done|].
    change (0 + SHMEM_PAGES)%nat with 32%nat in Ht. rewrite take_ge in Ht by lia. by rewrite <- Ht.
Qed.

(** ** Locking and keys *)
Lemma shm_inv_lock s b fl live oth : shm_inv s fl live oth -> shm_inv (set_sh_locked b s) fl live oth.
Proof. intros []. by constructor. Qed.

Lemma wp_sh_acquire s (Q : unit -> kst F -> Prop) :
  sh_locked s = false -> Q tt (set_sh_locked true s) -> wp sh_acquire Q s.
Proof. intros Hl HQ. unfold sh_acquire, acquire_flag. wp_step. apply wp_gets. by rewrite Hl. Qed.

Lemma wp_sh_release s (Q : unit -> kst F -> Prop) :
  sh_locked s = true -> Q tt (set_sh_locked false s) -> wp sh_release Q s.
Proof. intros Hl HQ. unfold sh_release, release_flag. wp_step. apply wp_gets. by rewrite Hl. Qed.

Lemma relock s : sh_locked s = false -> set_sh_locked false (set_sh_locked true s) = s.
Proof.
  destruct s as [? [l ? ?] ? ? ? ? ? ?]. unfold sh_locked, set_sh_locked, set_sh. simpl. by intros ->.
Qed.

Lemma readable_length n (l : list Z) : (n <= length l)%nat -> readable n l.
Proof. revert l. induction n as [|n IH]; intros [|c l] Hl; simpl in *; try done; try lia. right. apply IH. lia. Qed.

(** A key as the system calls pass it: 1 to 16 characters. *)
Record key_ok (key : list Z) : Prop := {
  ko_bytes : bytes key;
  ko_read : readable 16 key;
  ko_text : cstr 16 key <> [];
}.

Lemma wp_strncmp s key k (Q : Z -> kst F -> Prop) :
  key_ok key -> bytes k -> length k = 16%nat ->
  (cstr 16 k = cstr 16 key -> Q 0 s) ->
  (forall r, r <> 0 -> cstr 16 k <> cstr 16 key -> Q r s) ->
  wp (of_option (strncmp k key 16)) Q s.
Proof.
  intros [Hb Hr _] Hkb Hkl HQ0 HQ.
  destruct (strncmp_defined 16 k key) as (r & -> & Hiff); try done; [apply readable_length; lia|].
  apply wp_ret. destruct (Z.eq_dec r 0) as [->|Hn]; [by apply HQ0, Hiff|].
  apply HQ; [done|]. by intros ?%Hiff.
Qed.

(** The keys a process remembers agree with the table, and a slot that holds
    no page holds no key. *)
Definition keys_clean (t : shm_table) (p : proc) : Prop :=
  forall i, (i < 32)%nat ->
    (phy_at p i = 0 -> pkey_at p i = zero_key) /\
    (forall y, (y < 32)%nat -> phy_at p i <> 0 -> shmem_addr (info_at t y) = phy_at p i ->
       cstr 16 (pkey_at p i) = cstr 16 (shkey_at t y)).

Lemma pkey_ok p i : proc_ok p -> (i < 32)%nat -> bytes (pkey_at p i) /\ length (pkey_at p i) = 16%nat.
Proof.
  intros Hok Hi. destruct (lookup_lt_is_Some_2 (p_key (pshm p)) i) as [k Hk].
  { by rewrite (po_key _ Hok). }
  unfold pkey_at. rewrite nth_lookup, Hk. simpl. pose proof (po_keys _ Hok) as Ha.
  rewrite Forall_forall in Ha. apply Ha. by eapply list_elem_of_lookup_2.
Qed.

Lemma cstr_zero_key : cstr 16 zero_key = [].
Proof. done. Qed.

(** A slot of the table and a slot of the process that both have the key
    speak of the same page. *)
Lemma key_slots_agree s fl live oth me p key ty ps :
  shm_inv s fl live oth -> me ∈ live -> procs s !! me = Some p -> keys_clean (sh_table s) p ->
  key_ok key -> (ty < 32)%nat -> (ps < 32)%nat ->
  cstr 16 (shkey_at (sh_table s) ty) = cstr 16 key -> cstr 16 (pkey_at p ps) = cstr 16 key ->
  phy_at p ps <> 0 /\ shmem_addr (info_at (sh_table s) ty) = phy_at p ps.
Proof.
  intros Hinv Hme Hp Hcl Hk Hty Hps Ht Hpk. destruct (Hcl ps Hps) as [Hc1 Hc2].
  assert (phy_at p ps <> 0) as Hn.
  { intros H0. rewrite (Hc1 H0), cstr_zero_key in Hpk. by apply (ko_text _ Hk). }
  split; [done|]. destruct (sv_held _ _ _ _ Hinv me p ps Hme Hp Hps Hn) as (y & Hy & He).
  rewrite <- He. f_equal. f_equal. symmetry. apply (sv_keys _ _ _ _ Hinv); [done..|congruence|].
  rewrite <- (Hc2 y Hy Hn He). congruence.
Qed.

(** The process after [shmrem(key)]; the last user keeps the key. *)
Definition rem_proc (last : bool) (i : nat) (p : proc) : proc :=
  if last then set_pshm (set_phy i 0 (set_vm i 0 (pshm p))) p
  else set_pshm (set_pkey i zero_key (set_vm i 0 (set_phy i 0 (pshm p)))) p.

Lemma rem_proc_ok b i p : proc_ok p -> proc_ok (rem_proc b i p).
Proof.
  intros [H1 H2 H3 H4 H5]. destruct b; constructor; simpl; rewrite ?length_insert; try done.
  apply Forall_insert; [done|]. split; [|done]. apply Forall_replicate. lia.
Qed.

Lemma rem_proc_rest b i p i' : i' <> i ->
  vm_at (rem_proc b i p) i' = vm_at p i' /\ bitmap_at (rem_proc b i p) i' = bitmap_at p i'.
Proof.
  intros Hne. unfold vm_at, bitmap_at. rewrite !nth_lookup.
  destruct b; simpl; rewrite ?list_lookup_insert_ne by done; done.
Qed.

(** ** [shmrem(key)] *)
Lemma wp_shmrem_slot_hit s fl live oth me p key ty ps (Q : option Z -> kst F -> Prop) :
  shm_inv s fl live oth -> cur s = me -> sh_locked s = true -> me ∈ live -> procs s !! me = Some p ->
  key_ok key -> (ty < 32)%nat -> (ps < 32)%nat -> cstr 16 (pkey_at p ps) = cstr 16 key ->
  phy_at p ps <> 0 -> shmem_addr (info_at (sh_table s) ty) = phy_at p ps ->
  let last := shmem_counter (info_at (sh_table s) ty) =? 1 in
  (forall s' fl', shm_inv s' fl' live oth ->
     drop_rel s s' me (rem_proc last ps p) fl fl' ->
     Q (Some (if last then 0 else 1)) (set_sh_locked false s')) ->
  wp (shmrem_slot key ty ps) Q s.
Proof.
  intros Hinv Hcur Hlk Hme Hp Hk Hty Hps Hkey Hn Hpy last HQ.
  assert (proc_ok p) as Hok by (eapply drop_proc_ok; eauto).
  assert (proc_ok (rem_proc last ps p)) as Hok' by by apply rem_proc_ok.
  assert (phy_shared_page (pshm (rem_proc last ps p)) = <[ps := 0]> (phy_shared_page (pshm p))) as Hphy
    by by destruct last.
  assert (pgdir (rem_proc last ps p) = pgdir p) as Hdir by by destruct last.
  assert (forall i', (i' < 32)%nat -> i' <> ps -> vm_at (rem_proc last ps p) i' = vm_at p i' /\
    bitmap_at (rem_proc last ps p) i' = bitmap_at p i') as Hrest by (intros; by apply rem_proc_rest).
  unfold shmrem_slot. wp_step. apply wp_gets. rewrite Hcur. wp_step. apply (wp_get_proc s me p); [done|].
  wp_step. destruct (pkey_ok p ps Hok Hps). apply wp_strncmp; [done..| |done].
  intros _. rewrite Z.eqb_refl. wp_steps. cbn zeta. rewrite Hpy. unfold last in *.
  destruct (Z.eqb_spec (shmem_counter (info_at (sh_table s) ty)) 1) as [E|E].
  - wp_step. apply wp_lift. eapply (wp_drop_free s) with (y := ty); try done. intros k1 Hs1 Hpv1 Htp1 Hm1.
    wp_step. apply wp_modify. wp_step. apply wp_modify. wp_step.
    eapply wp_mono; [|intros temp s1 H1; apply wp_bind, H1].
    eapply (wp_drop_unmap s fl live oth me ps ty p) with (p' := rem_proc true ps p); try done; [auto|].
    intros k2 s' H1 H2. wp_step. eapply wp_upd_pshm; [exact Hp|]. wp_step.
    eapply wp_upd_pshm; [apply list_lookup_insert_eq; by eapply lookup_lt_Some|].
    wp_step. apply wp_sh_release; [done|]. apply wp_ret.
    specialize (HQ s' _ H1 H2). revert HQ. unfold s', use_state. rewrite E.
    unfold set_procs; simpl. rewrite list_insert_insert_eq. exact id.
  - wp_step. apply wp_modify. wp_step. eapply wp_upd_pshm; [exact Hp|]. wp_step.
    eapply wp_mono; [|intros temp s1 H1; apply wp_bind, H1].
    eapply (wp_drop_unmap s fl live oth me ps ty p) with (p' := rem_proc false ps p); try done.
    { by eapply (drop_nochange s). }
    intros k2 s' H1 H2. wp_step.
    eapply wp_upd_pshm; [apply list_lookup_insert_eq; by eapply lookup_lt_Some|]. wp_step.
    eapply wp_upd_pshm.
    { simpl. rewrite list_insert_insert_eq. apply list_lookup_insert_eq. by eapply lookup_lt_Some. }
    wp_step. apply wp_sh_release; [done|]. apply wp_ret.
    specialize (HQ s' _ H1 H2). revert HQ. unfold s', use_state.
    rewrite (proj2 (Z.eqb_neq _ _) E), (key_kept s fl live oth) by done.
    unfold set_procs; simpl. rewrite !list_insert_insert_eq. exact id.
Qed.

Lemma wp_shmrem_slot_miss s me p key ty ps (Q : option Z -> kst F -> Prop) :
  cur s = me -> procs s !! me = Some p -> proc_ok p -> key_ok key -> (ps < 32)%nat ->
  cstr 16 (pkey_at p ps) <> cstr 16 key -> Q None s -> wp (shmrem_slot key ty ps) Q s.
Proof.
  intros Hcur Hp Hok Hk Hps Hne HQ. unfold shmrem_slot. wp_step. apply wp_gets. rewrite Hcur. wp_step.
  apply (wp_get_proc s me p); [done|]. wp_step. destruct (pkey_ok p ps Hok Hps).
  apply wp_strncmp; [done..|]. intros r Hr _. by rewrite (proj2 (Z.eqb_neq _ _) Hr).
Qed.

(** What [shmrem(key)] does for a caller whose keys are clean. *)
Definition shmrem_key_post s (fl : list Z) live oth me p key (r : Z) (s' : kst F) : Prop :=
  (r = -1 /\ s' = s /\
     ((forall ty, (ty < 32)%nat -> cstr 16 (shkey_at (sh_table s) ty) <> cstr 16 key) \/
      (forall ps, (ps < 32)%nat -> cstr 16 (pkey_at p ps) <> cstr 16 key))) \/
  (exists ty ps fl', (ty < 32)%nat /\ (ps < 32)%nat /\
     cstr 16 (shkey_at (sh_table s) ty) = cstr 16 key /\ cstr 16 (pkey_at p ps) = cstr 16 key /\
     phy_at p ps <> 0 /\ shmem_addr (info_at (sh_table s) ty) = phy_at p ps /\
     let last := shmem_counter (info_at (sh_table s) ty) =? 1 in
     r = (if last then 0 else 1) /\ shm_inv s' fl' live oth /\
     drop_rel s s' me (rem_proc last ps p) fl fl').

Lemma wp_shmrem_key s fl live oth me p key d :
  shm_inv s fl live oth -> cur s = me -> sh_locked s = false -> me ∈ live -> procs s !! me = Some p ->
  keys_clean (sh_table s) p -> key_ok key -> memcmp key lit_shm 16 = Some d -> d <> 0 ->
  wp (shmrem key) (shmrem_key_post s fl live oth me p key) s.
Proof.
  intros Hinv Hcur Hlk Hme Hp Hcl Hk Hcmp Hd.
  assert (proc_ok p) as Hok by (destruct (sv_procs _ _ _ _ Hinv me Hme) as (? & ? & ?); congruence).
  unfold shmrem. wp_step. apply wp_sh_acquire; [done|]. wp_step. rewrite Hcmp. apply wp_ret.
  rewrite (proj2 (Z.eqb_neq _ _) Hd). wp_step. set (sl := set_sh_locked true s).
  assert (shm_inv sl fl live oth) as Hinvl by by apply shm_inv_lock.
  apply (wp_for_find (fun ty s1 => s1 = sl /\ ((forall z, (z < ty)%nat ->
      cstr 16 (shkey_at (sh_table s) z) <> cstr 16 key) \/
    (forall ps, (ps < 32)%nat -> cstr 16 (pkey_at p ps) <> cstr 16 key)))).
  - split; [done|]. left. intros; lia.
  - intros ty s1 Hty [-> Hno]. change (0 + SHMEM_PAGES)%nat with 32%nat in Hty.
    wp_step. apply wp_gets. wp_step. destruct (sv_slots _ _ _ _ Hinv ty) as (Hb & Hl & _); [lia|].
    apply wp_strncmp; [done..| |].
    + intros Ht. apply (wp_for_find (fun ps s1 => s1 = sl /\ forall z, (z < ps)%nat ->
        cstr 16 (pkey_at p z) <> cstr 16 key)).
      * split; [done|]. intros; lia.
      * intros ps s1 Hps [-> Hnp]. change (0 + SHMEM_PAGES)%nat with 32%nat in Hps.
        destruct (decide (cstr 16 (pkey_at p ps) = cstr 16 key)) as [E|E].
        -- destruct (key_slots_agree sl fl live oth me p key ty ps) as [Hn Hpy]; try done; try lia.
           apply (wp_shmrem_slot_hit sl fl live oth me p key ty ps); try done; try lia.
           intros s' fl' Hi' [D1 D2 D3 D4 D5 D6 D7]. apply wp_ret. right. exists ty, ps, fl'.
           split_and!; try done; try lia. cbn zeta. split_and!; [done|by apply shm_inv_lock|by constructor].
        -- apply (wp_shmrem_slot_miss sl me p key ty ps); try done; try lia. split; [done|].
           intros z Hz. destruct (decide (z = ps)) as [->|]; [done|]. apply Hnp. lia.
      * intros s1 [-> Hnp]. split; [done|]. by right.
    + intros r Hr Ht. rewrite (proj2 (Z.eqb_neq _ _) Hr). apply wp_ret. split; [done|].
      destruct Hno as [Hno|Hno]; [left|by right]. intros z Hz.
      destruct (decide (z = ty)) as [->|]; [done|]. apply Hno. lia.
  - intros s1 [-> Hno]. wp_step. apply wp_sh_release; [done|]. apply wp_ret. left.
    split_and!; [done|by apply relock|done].
Qed.

(** ** [shmrem("-1")], called by [exit] *)
Lemma memcmp_refl n (l : list Z) : (n <= length l)%nat -> memcmp l l n = Some 0.
Proof.
  revert l. induction n as [|n IH]; intros [|c l] Hl; simpl in *; try done; try lia.
  rewrite Z.eqb_refl. apply IH. lia.
Qed.

Lemma wp_shmrem_exit `{!LiteralsOk L} s fl live oth me p (Q : Z -> kst F -> Prop) :
  shm_inv s fl live oth -> cur s = me -> sh_locked s = false -> me ∈ live -> procs s !! me = Some p ->
  (forall s' fl', shm_inv s' fl' live oth -> rem_rel s s' me p (replicate 32 0) fl fl' -> Q 1 s') ->
  wp (shmrem lit_exit) Q s.
Proof.
  intros Hinv Hcur Hlk Hme Hp HQ. unfold shmrem. wp_step. apply wp_sh_acquire; [done|]. wp_step.
  rewrite lit_merged, memcmp_refl by apply lit_long. apply wp_ret. cbn [Z.eqb]. wp_step.
  apply (wp_shmrem_all (set_sh_locked true s) fl live oth me p); try done; [by apply shm_inv_lock|].
  intros s' fl' Hinv' [A1 A2 A3 A4 A5 A6]. wp_step. apply wp_sh_release; [by rewrite A2|]. apply wp_ret.
  apply (HQ _ fl'); [by apply shm_inv_lock|]. constructor; try done.
Qed.
End ShmRem.
