(* ===== verification/ShmGet.v ===== *)
(** * [shmget] and [manage_fork]: taking shared pages *)
From Stdlib Require Import ZArith Lia Bool.
From stdpp Require Import base numbers list strings.
From S2P Require Import Prelude Machine Cstring Kalloc Vm VmInv VmMap VmUser VmAlloc Spaces Kstate Shm ShmInv ShmRem.

Section ShmGet.
Context {I : KernelImage} `{!KernelImageOk I} {L : Literals} {F : Type}.
Implicit Types s : kst F.

(** ** Mapping one page of the window *)
Lemma wp_map_window k fl pds oth d va a (Q : Z -> kmem_t -> Prop) :
  space_inv k fl pds oth -> d ∈ pds -> upage va -> SHM_BASE <= va -> mapped (mem k) d va = false ->
  valid_page a ->
  (fl = [] -> Q (-1) k) ->
  (forall k' fl', space_inv k' fl' pds oth ->
     (forall d' va', d' ∈ pds -> aligned va' -> pte_val (mem k') d' va' =
        if (d' =? d) && (va' =? va) then mkpte (V2P a) shm_perm else pte_val (mem k) d' va') ->
     (exists used, fl = used ++ fl') ->
     (forall q x, q ∈ oth -> q <= x < q + PGSIZE -> mem k' x = mem k x) -> Q 0 k') ->
  wp (mappages d va PGSIZE (V2P a) shm_perm) Q k.
Proof.
  intros Hs Hd Hva Hb Hm Ha%valid_page_bounds Hnil HQ.
  pose proof (si_as _ _ _ _ _ Hs Hd) as Has. pose proof (upage_aligned va Hva) as Hal.
  assert (V2P a = a - 0x80000000) as HV by (unfold V2P; klia). destruct Hal as [Hal1 Hal2].
  unfold mappages. rewrite (u32_small (va + PGSIZE - 1)), !PGROUNDDOWN_eq by (destruct Hva; klia).
  rewrite Hal2, Z.sub_0_r. replace (va + PGSIZE - 1 - (va + PGSIZE - 1) mod 4096) with va by klia.
  apply (mappages_round _ k d va va (V2P a) shm_perm fl); try done; try klia.
  intros k' fl' Hst Hpv _. rewrite Z.eqb_refl. apply wp_ret.
  destruct (space_step k k' fl fl' pds oth d Hs Hd Hst) as [Hs' Hpo].
  { intros va' Hu Hlt _. rewrite Hpv by by apply upage_aligned. destruct (Z.eqb_spec va' va); [lia|done]. }
  apply (HQ k' fl'); [done| | |].
  - intros d' va' Hd' Ha'. destruct (Z.eqb_spec d' d) as [->|]; simpl; [by apply Hpv|by apply Hpo].
  - destruct (vs_used _ _ _ _ _ Hst) as (used & -> & _). by exists used.
  - intros q x Hq Hx. apply (vs_frame _ _ _ _ _ Hst). intros r Hr.
    assert (owns (mem k') pds oth (Table d) r) as Hor by done.
    assert (owns (mem k') pds oth Other q) as Hoq by done.
    apply (valid_page_sep q); [by apply (si_own _ _ _ _ Hs' _ _ Hoq)|by apply (si_own _ _ _ _ Hs' _ _ Hor)| |done].
    intros ->. assert (Table d = Other) by by eapply (si_uniq _ _ _ _ Hs'). done.
Qed.

(** ** A use is added *)
Section Add.
Context (s : kst F) (fl fl' : list Z) (live : list nat) (oth : list Z) (j i y : nat) (p p' : proc).
Context (a : Z) (key : list Z) (k2 : kmem_t).
Let t := sh_table s.
Let e' := mk_info a (shmem_counter (info_at t y) + 1).
Let t' := mk_shm (sh_lock t) (<[y := e']> (shp_array t)) (<[y := key]> (shp_key t)).
Hypothesis Hinv : shm_inv s fl live oth.
Hypothesis Hj : j ∈ live.
Hypothesis Hp : procs s !! j = Some p.
Hypothesis Hi : (i < 32)%nat.
Hypothesis Hy : (y < 32)%nat.
Hypothesis Hfree : phy_at p i = 0.
Hypothesis Ha : valid_page a.
Hypothesis Haddr : shmem_addr (info_at t y) = a \/ shmem_addr (info_at t y) = 0.
Hypothesis Hcnt : 0 <= shmem_counter (info_at t y) < MAX_PROC.
Hypothesis Hkey : bytes key /\ length key = 16%nat /\ nth 0 key 0 <> 0.
Hypothesis Hnew : forall z, (z < 32)%nat -> z <> y ->
  shmem_addr (info_at t z) <> a /\ cstr 16 (shkey_at t z) <> cstr 16 key.
Hypothesis Hoth : a ∉ oth.
Hypothesis Hdir : pgdir p' = pgdir p.
Hypothesis Hphy : phy_shared_page (pshm p') = <[i := a]> (phy_shared_page (pshm p)).
Hypothesis Hok : proc_ok p'.
Hypothesis Hrest : forall i', (i' < 32)%nat -> i' <> i ->
  vm_at p' i' = vm_at p i' /\ bitmap_at p' i' = bitmap_at p i'.
Hypothesis Hvm : vm_at p' i = win i.
Hypothesis Hbit : bitmap_at p' i = 1.
Hypothesis Hspace : space_inv k2 fl' (dirs (procs s) live) (shared t' ++ oth).
Hypothesis Hpte : forall d va, d ∈ dirs (procs s) live -> aligned va -> pte_val (mem k2) d va =
  if (d =? pgdir p) && (va =? win i) then mkpte (V2P a) shm_perm else pte_val (mem (km s)) d va.

Lemma add_inv : shm_inv (use_state s k2 j y p' e' key) fl' live oth.
Proof.
  pose proof (valid_page_bounds a Ha) as Hab. destruct Hkey as (Hkb & Hkl & Hk0).
  assert (proc_ok p) as Hokp by (destruct (sv_procs _ _ _ _ Hinv j Hj) as (? & ? & ?); congruence).
  assert (a <> 0) as Ha0 by lia.
  apply (shm_inv_slot s _ fl fl' live oth j i y p p' a e' key); try done.
  - intros d va Hd Hu Hb Hne. simpl. rewrite Hpte by (done || by apply upage_aligned).
    destruct (Z.eqb_spec d (pgdir p)), (Z.eqb_spec va (win i)); simpl; try done. by destruct Hne.
  - assert (phy_at p' i = a) as Hpa.
    { apply nth_lookup_Some. rewrite Hphy, list_lookup_insert_eq; [done|]. by rewrite (po_phy _ Hokp). }
    unfold use_ok. rewrite Hpa, (proj2 (Z.eqb_neq _ _) Ha0). simpl. unfold mapped, frame_of. rewrite Hdir, Hpte.
    + rewrite !Z.eqb_refl. cbn [andb]. destruct (mkpte_frame a shm_perm Ha) as [-> ->]; done.
    + apply elem_of_dirs. eauto.
    + apply upage_aligned, win_upage, Hi.
  - unfold slot_ok. simpl. rewrite (proj2 (Z.eqb_neq _ _) Ha0). split_and!; try done; lia.
  - by left.
  - by right.
  - simpl. fold t. destruct Haddr as [->| ->]; auto.
  - simpl. fold t. rewrite Hfree, (proj2 (Z.eqb_neq _ _) Ha0). simpl. lia.
Qed.
End Add.

(** ** The searches *)
Lemma free_slot_key s fl live oth y : shm_inv s fl live oth -> (y < 32)%nat ->
  nth 0 (shkey_at (sh_table s) y) 0 = 0 <-> shmem_addr (info_at (sh_table s) y) = 0.
Proof.
  intros Hinv Hy. destruct (sv_slots _ _ _ _ Hinv y Hy) as (_ & _ & Hs).
  destruct (Z.eqb_spec (shmem_addr (info_at (sh_table s) y)) 0) as [E|E].
  - destruct Hs as [_ ->]. done.
  - destruct Hs as [_ Hn]. done.
Qed.

Definition no_key (t : shm_table) (key : list Z) (n : nat) : Prop :=
  forall z, (z < n)%nat -> cstr 16 (shkey_at t z) <> cstr 16 key.

Lemma wp_shmget_search n : forall s fl live oth key i ff (Q : option nat * option nat -> kst F -> Prop),
  shm_inv s fl live oth -> key_ok key -> (i + n = 32)%nat -> no_key (sh_table s) key i ->
  (ff = None -> forall z, (z < i)%nat -> shmem_addr (info_at (sh_table s) z) <> 0) ->
  (forall f, ff = Some f -> (f < 32)%nat /\ shmem_addr (info_at (sh_table s) f) = 0) ->
  (forall z ff', (z < 32)%nat -> cstr 16 (shkey_at (sh_table s) z) = cstr 16 key -> Q (Some z, ff') s) ->
  (forall f, no_key (sh_table s) key 32 -> (f < 32)%nat -> shmem_addr (info_at (sh_table s) f) = 0 ->
     Q (None, Some f) s) ->
  (no_key (sh_table s) key 32 -> (forall z, (z < 32)%nat -> shmem_addr (info_at (sh_table s) z) <> 0) ->
     Q (None, None) s) ->
  wp (shmget_search n i key ff) Q s.
Proof.
  induction n as [|n IH]; intros s fl live oth key i ff Q Hinv Hk Hin Hno Hff Hff' HQ1 HQ2 HQ3; cbn [shmget_search].
  { replace i with 32%nat in * by lia. apply wp_ret. destruct ff as [f|]; [|by apply HQ3; [|apply Hff]].
    destruct (Hff' f eq_refl). by apply HQ2. }
  wp_step. apply wp_gets. destruct (sv_slots _ _ _ _ Hinv i) as (Hb & Hl & Hs); [lia|].
  pose proof (free_slot_key s fl live oth i Hinv ltac:(lia)) as Hfree.
  assert (forall ff', (ff' = None -> forall z, (z < S i)%nat -> shmem_addr (info_at (sh_table s) z) <> 0) ->
    (forall f, ff' = Some f -> (f < 32)%nat /\ shmem_addr (info_at (sh_table s) f) = 0) ->
    cstr 16 (shkey_at (sh_table s) i) <> cstr 16 key -> wp (shmget_search n (S i) key ff') Q s) as Hgo.
  { intros ff' H1 H2 Hne. apply (IH s fl live oth key (S i) ff'); try done; [lia|].
    intros z Hz. destruct (decide (z = i)) as [->|]; [done|]. apply Hno. lia. }
  assert (wp (c <- of_option (strncmp (shkey_at (sh_table s) i) key 16) ;;
      (if c =? 0 then ret (Some i, ff) else shmget_search n (S i) key ff)) Q s \/
    (nth 0 (shkey_at (sh_table s) i) 0 = 0 /\ ff = None)) as Hcmp.
  { destruct (decide (nth 0 (shkey_at (sh_table s) i) 0 = 0 /\ ff = None)) as [?|Hn]; [by right|left].
    wp_step. apply wp_strncmp; [done..| |].
    - intros He. apply wp_ret, HQ1; [lia|done].
    - intros r Hr Hne. rewrite (proj2 (Z.eqb_neq _ _) Hr). apply Hgo; [|done|done].
      intros -> z Hz. destruct (decide (z = i)) as [->|]; [|apply Hff; [done|lia]].
      intros H0. apply Hn. by rewrite Hfree. }
  assert (nth 0 (shkey_at (sh_table s) i) 0 = 0 -> ff = None -> wp (shmget_search n (S i) key (Some i)) Q s) as Hskip.
  { intros H0 _. apply Hgo; [done| |].
    - intros f [= <-]. split; [lia|]. by apply Hfree.
    - destruct (shkey_at (sh_table s) i) as [|c l]; [done|]. simpl in H0. subst c.
      change (cstr 16 (0 :: l)) with (@nil Z). intros He. by apply (ko_text _ Hk). }
  destruct (shkey_at (sh_table s) i) as [|c l] eqn:Ek; [done|]. destruct c as [|c|c].
  - destruct ff as [f|]; [|by apply Hskip]. destruct Hcmp as [Hcmp|[_ ?]]; [exact Hcmp|done].
  - destruct Hcmp as [Hcmp|[? _]]; [exact Hcmp|done].
  - destruct Hcmp as [Hcmp|[? _]]; [exact Hcmp|done].
Qed.

Lemma wp_find_pos s me p (Q : Z -> kst F -> Prop) :
  cur s = me -> procs s !! me = Some p ->
  (forall i, (i < 32)%nat -> phy_at p i = 0 -> (forall z, (z < i)%nat -> phy_at p z <> 0) -> Q (Z.of_nat i) s) ->
  ((forall i, (i < 32)%nat -> phy_at p i <> 0) -> Q (-1) s) ->
  wp find_pos Q s.
Proof.
  intros Hcur Hp HQ HQ0. unfold find_pos. wp_step.
  apply (wp_for_find (fun i s1 => s1 = s /\ forall z, (z < i)%nat -> phy_at p z <> 0)).
  - split; [done|]. intros; lia.
  - intros i s1 Hi [-> Hno]. change (0 + SHMEM_PAGES)%nat with 32%nat in Hi.
    wp_step. apply wp_gets. rewrite Hcur. wp_step. apply (wp_get_proc s me p); [done|].
    destruct (Z.eqb_spec (phy_at p i) 0) as [E|E]; apply wp_ret.
    + apply wp_ret. simpl. apply HQ; [lia|done|done].
    + split; [done|]. intros z Hz. destruct (decide (z = i)) as [->|]; [done|]. apply Hno. lia.
  - intros s1 [-> Hno]. apply wp_ret. simpl. by apply HQ0.
Qed.

(** ** Copying keys *)

(** The key argument of a system call: [n] characters, [1 <= n <= 16]. *)
Record key_arg (key : list Z) (n : Z) : Prop := {
  ka_bytes : bytes key;
  ka_len : strlen key = Some n;
  ka_range : 1 <= n <= 16;
}.

Lemma cstr_app m : forall (l r : list Z), Forall (fun c => c <> 0) l -> (length l <= m)%nat ->
  length l = m \/ (exists t, r = 0 :: t) \/ r = [] -> cstr m (l ++ r) = l.
Proof.
  induction m as [|m IH]; intros l r Hl Hm Hr; destruct l as [|c l]; simpl in *; try done; try lia.
  - destruct Hr as [?|[(t & ->)| ->]]; [lia|done|done].
  - apply Forall_cons in Hl as [Hc Hl]. rewrite (proj2 (Z.eqb_neq _ _) Hc). f_equal. apply IH; [done|lia|].
    destruct Hr as [?|?]; [left; lia|by right].
Qed.

Lemma key_arg_cstr key n : key_arg key n ->
  let l := take (Z.to_nat n) key in
  cstr 16 key = l /\ length l = Z.to_nat n /\ Forall (fun c => c <> 0) l /\ (Z.to_nat n <= length key)%nat.
Proof.
  intros [Hb Hl Hr] l. destruct (strlen_spec key n Hl) as (t & Hk & Hnz). fold l in Hk, Hnz.
  assert (Z.to_nat n <= length key)%nat as Hlen.
  { destruct (le_lt_dec (Z.to_nat n) (length key)) as [|Hlt]; [done|].
    assert (l = key) as E by (unfold l; apply take_ge; lia). rewrite E in Hk.
    apply (f_equal length) in Hk. rewrite length_app in Hk. simpl in Hk. lia. }
  assert (length l = Z.to_nat n) as Hll by (unfold l; rewrite length_take; lia).
  split_and!; [|done|done|done].
  rewrite Hk. apply cstr_app; [done|lia|]. right. left. by exists t.
Qed.

Lemma key_arg_ok key n : key_arg key n -> key_ok key.
Proof.
  intros Hk. destruct (key_arg_cstr key n Hk) as (Hc & Hl & Hnz & Hlen). destruct Hk as [Hb Hs Hr].
  constructor; [done| |].
  - destruct (strlen_spec key n Hs) as (t & Hkey & _). rewrite Hkey.
    clear -Hl Hr Hnz. remember (take (Z.to_nat n) key) as l eqn:E. clear E.
    assert (forall m (l' : list Z), readable m (l' ++ 0 :: t)) as H; [|apply H].
    induction m as [|m IH]; intros [|c l']; simpl; auto.
  - rewrite Hc. intros E. rewrite E in Hl. simpl in Hl. lia.
Qed.

Lemma wp_copy_key s dst key n (Q : list Z -> kst F -> Prop) :
  key_arg key n -> bytes dst -> length dst = 16%nat ->
  (forall k, bytes k -> length k = 16%nat -> nth 0 k 0 <> 0 ->
     k = take (Z.to_nat n) key ++ drop (Z.to_nat n) dst ->
     (dst = zero_key -> cstr 16 k = cstr 16 key) -> Q k s) ->
  wp (copy_key dst key) Q s.
Proof.
  intros Hk Hdb Hdl HQ. destruct (key_arg_cstr key n Hk) as (Hc & Hl & Hnz & Hlen). destruct Hk as [Hb Hs Hr].
  unfold copy_key. wp_step. rewrite Hs. apply wp_ret. rewrite memmove_arr_spec by lia. apply wp_ret.
  set (l := take (Z.to_nat n) key) in *. apply HQ; [| | |done|].
  - apply Forall_app. split; [by apply Forall_take|by apply Forall_drop].
  - rewrite length_app, length_drop. lia.
  - destruct l as [|c l']; [simpl in Hl; lia|]. by apply Forall_cons in Hnz as [? _].
  - intros ->. rewrite Hc. apply cstr_app; [done|lia|]. unfold zero_key. rewrite drop_replicate.
    destruct (16 - Z.to_nat n)%nat eqn:E; simpl; [by right; right|right; left; eauto].
Qed.

(** ** A slot of the process is free *)
Definition slots_distinct (p : proc) : Prop :=
  forall i k, (i < 32)%nat -> (k < 32)%nat -> phy_at p i <> 0 -> phy_at p i = phy_at p k -> i = k.

(** 32 distinct pages in a table of 32 leave no other entry. *)
Lemma slots_full s fl live oth me p y :
  shm_inv s fl live oth -> me ∈ live -> procs s !! me = Some p -> slots_distinct p -> (y < 32)%nat ->
  (forall i, (i < 32)%nat -> phy_at p i <> 0) ->
  exists i, (i < 32)%nat /\ phy_at p i = shmem_addr (info_at (sh_table s) y).
Proof.
  intros Hinv Hme Hp Hdis Hy Hall.
  assert (proc_ok p) as Hok by (destruct (sv_procs _ _ _ _ Hinv me Hme) as (? & ? & ?); congruence).
  set (l := phy_shared_page (pshm p)). assert (length l = 32%nat) as Hl by apply Hok.
  set (a := shmem_addr (info_at (sh_table s) y)).
  destruct (decide (a ∈ l)) as [Hin|Hnin].
  { apply list_elem_of_In, (In_nth _ _ 0) in Hin as (i & Hi & Hn). exists i. split; [lia|done]. }
  exfalso. destruct (sv_len _ _ _ _ Hinv) as [Hla _].
  assert (NoDup (a :: l)) as Hnd.
  { apply NoDup_cons. split; [done|]. apply NoDup_alt. intros i k x Hi Hk.
    pose proof (lookup_lt_Some _ _ _ Hi). pose proof (lookup_lt_Some _ _ _ Hk).
    assert (phy_at p i = x /\ phy_at p k = x) as [E1 E2].
    { split; apply nth_lookup_Some; done. }
    apply Hdis; [lia|lia|apply Hall; lia|congruence]. }
  assert (a :: l ⊆+ map shmem_addr (shp_array (sh_table s))) as Hsub.
  { apply NoDup_submseteq; [done|]. intros x Hx. apply list_elem_of_In, in_map_iff.
    apply elem_of_cons in Hx as [->|Hx].
    - exists (info_at (sh_table s) y). split; [done|]. apply nth_In. lia.
    - apply list_elem_of_In, (In_nth _ _ 0) in Hx as (i & Hi & Hn).
      destruct (sv_held _ _ _ _ Hinv me p i Hme Hp) as (z & Hz & He); [lia|apply Hall; lia|].
      exists (info_at (sh_table s) z). rewrite He. split; [done|]. apply nth_In. lia. }
  apply submseteq_length in Hsub. rewrite length_map in Hsub. simpl in Hsub. lia.
Qed.

(** ** [map_shared] *)
Definition set_top_of (i : nat) (p : proc) : proc := set_pshm (set_top (win i) (pshm p)) p.

Lemma wp_map_shared s fl pds oth me p a (Q : Z -> kst F -> Prop) :
  cur s = me -> procs s !! me = Some p -> space_inv (km s) fl pds oth -> pgdir p ∈ pds -> valid_page a ->
  fl <> [] -> (exists i, (i < 32)%nat /\ phy_at p i = 0) ->
  (forall i, (i < 32)%nat -> phy_at p i = 0 -> mapped (mem (km s)) (pgdir p) (win i) = false) ->
  (forall i k' fl', (i < 32)%nat -> phy_at p i = 0 -> space_inv k' fl' pds oth ->
     (forall d' va', d' ∈ pds -> aligned va' -> pte_val (mem k') d' va' =
        if (d' =? pgdir p) && (va' =? win i) then mkpte (V2P a) shm_perm else pte_val (mem (km s)) d' va') ->
     (exists used, fl = used ++ fl') ->
     (forall q x, q ∈ oth -> q <= x < q + PGSIZE -> mem k' x = mem (km s) x) ->
     Q (Z.of_nat i) (set_km k' (set_procs (<[me := set_top_of i p]> (procs s)) s))) ->
  wp (map_shared a) Q s.
Proof.
  intros Hcur Hp Hs Hd Ha Hfl (i0 & Hi0 & Hf0) Hwin HQ. unfold map_shared. wp_step.
  apply (wp_find_pos s me p); [done|done| |by intros Hno; destruct (Hno i0 Hi0)].
  intros i Hi Hf _. wp_step. apply wp_gets. rewrite Hcur. wp_step. eapply wp_upd_pshm; [exact Hp|].
  assert (u32 (KERNBASE - PGSIZE * (Z.of_nat i + 1)) = win i) as Hw by (unfold win; rewrite u32_small; klia).
  rewrite Hw. destruct (win_upage i Hi) as [Hw1 Hw2].
  wp_step. eapply wp_get_proc; [apply list_lookup_insert_eq; by eapply lookup_lt_Some|].
  wp_step. apply wp_lift. simpl.
  apply (wp_map_window (km s) fl pds oth (pgdir p) (win i) a); try done; [by apply Hwin|].
  intros k' fl' Hs' Hpv Hu Hb. rewrite (proj2 (Z.ltb_ge 0 0)) by lia. apply wp_ret.
  by apply (HQ i k' fl').
Qed.

(** ** The process with one more shared page *)
Definition add_proc (i : nat) (a : Z) (k : list Z) (p : proc) : proc :=
  set_pshm (mk_pshm (win i) (<[i := a]> (phy_shared_page (pshm p))) (<[i := win i]> (vm_shared_page (pshm p)))
    (<[i := k]> (p_key (pshm p))) (<[i := 1]> (bitmap (pshm p)))) p.

Lemma add_proc_ok i a k p : proc_ok p -> bytes k -> length k = 16%nat -> proc_ok (add_proc i a k p).
Proof.
  intros [H1 H2 H3 H4 H5] Hb Hl. constructor; simpl; rewrite ?length_insert; try done. by apply Forall_insert.
Qed.

Lemma add_proc_at i a k p z : proc_ok p -> (i < 32)%nat ->
  phy_at (add_proc i a k p) z = (if decide (z = i) then a else phy_at p z) /\
  vm_at (add_proc i a k p) z = (if decide (z = i) then win i else vm_at p z) /\
  pkey_at (add_proc i a k p) z = (if decide (z = i) then k else pkey_at p z) /\
  bitmap_at (add_proc i a k p) z = (if decide (z = i) then 1 else bitmap_at p z).
Proof.
  intros [H1 H2 H3 H4 H5] Hi. unfold phy_at, vm_at, pkey_at, bitmap_at. simpl.
  split_and!; apply nth_insert; lia.
Qed.

(** What a call that takes a page does; [y] is the slot of the table. *)
Record got_rel (s s' : kst F) (me i y : nat) (p : proc) (a : Z) (k key : list Z) : Prop := {
  gr_addr : a <> 0;
  gr_cur : cur s' = cur s;
  gr_lock : sh_locked s' = sh_locked s;
  gr_free : phy_at p i = 0;
  gr_procs : procs s' = <[me := add_proc i a k p]> (procs s);
  gr_key : cstr 16 k = cstr 16 key /\ cstr 16 (shkey_at (sh_table s') y) = cstr 16 key;
  gr_slot : info_at (sh_table s') y = mk_info a (shmem_counter (info_at (sh_table s) y) + 1);
  gr_others : forall z, (z < 32)%nat -> z <> y ->
    info_at (sh_table s') z = info_at (sh_table s) z /\ shkey_at (sh_table s') z = shkey_at (sh_table s) z;
  gr_pte : pte_val (mem (km s')) (pgdir p) (win i) = mkpte (V2P a) shm_perm;
  gr_bytes : forall q x, q ∈ shared (sh_table s) -> q <= x < q + PGSIZE -> mem (km s') x = mem (km s) x;
}.

(** The result for a caller with clean slots. *)
Lemma got_clean s s' fl live oth me i y p a k key :
  shm_inv s fl live oth -> me ∈ live -> procs s !! me = Some p -> (i < 32)%nat -> (y < 32)%nat ->
  (shmem_addr (info_at (sh_table s) y) = a /\ cstr 16 (shkey_at (sh_table s) y) = cstr 16 key \/
   shmem_addr (info_at (sh_table s) y) = 0) ->
  (forall z, (z < 32)%nat -> z <> y -> shmem_addr (info_at (sh_table s) z) <> a) ->
  (forall z, (z < 32)%nat -> cstr 16 (pkey_at p z) <> cstr 16 key \/ phy_at p z <> a) -> a <> 0 ->
  keys_clean (sh_table s) p -> slots_distinct p ->
  got_rel s s' me i y p a k key ->
  keys_clean (sh_table s') (add_proc i a k p) /\ slots_distinct (add_proc i a k p).
Proof.
  intros Hinv Hme Hp Hi Hy Hyy Hny Hpk Ha0 Hcl Hdis [_ _ _ _ _ [Hk1 Hk2] Hslot Hoth _ _].
  assert (proc_ok p) as Hok by (destruct (sv_procs _ _ _ _ Hinv me Hme) as (? & ? & ?); congruence).
  assert (forall z, (z < 32)%nat -> phy_at p z <> a) as Hna.
  { intros z Hz He. destruct (Hpk z Hz) as [Hne|]; [|done]. destruct (Hcl z Hz) as [_ Hc].
    destruct Hyy as [[Hya Hyk]|Hy0].
    - apply Hne. rewrite (Hc y Hy); congruence.
    - destruct (sv_held _ _ _ _ Hinv me p z Hme Hp Hz) as (w & Hw & Hwe); [congruence|].
      destruct (decide (w = y)) as [->|Hwy]; [congruence|]. apply (Hny w Hw Hwy). congruence. }
  split.
  - intros z Hz. destruct (add_proc_at i a k p z Hok Hi) as (-> & _ & -> & _).
    destruct (decide (z = i)) as [->|Hzi].
    + split; [done|]. intros w Hw _ He. destruct (decide (w = y)) as [->|Hwy]; [congruence|].
      destruct (Hoth w Hw Hwy) as [Hi' _]. rewrite Hi' in He. by destruct (Hny w Hw Hwy).
    + destruct (Hcl z Hz) as [Hc1 Hc2]. split; [done|]. intros w Hw Hn He.
      destruct (decide (w = y)) as [->|Hwy].
      * rewrite Hslot in He. simpl in He. by destruct (Hna z Hz).
      * destruct (Hoth w Hw Hwy) as [Hi' Hk']. rewrite Hi' in He. rewrite Hk'. by apply Hc2.
  - intros z w Hz Hw. destruct (add_proc_at i a k p z Hok Hi) as (-> & _), (add_proc_at i a k p w Hok Hi) as (-> & _).
    destruct (decide (z = i)) as [->|], (decide (w = i)) as [->|]; intros Hn He; try done.
    + by destruct (Hna w Hw).
    + by destruct (Hna z Hz).
    + by apply Hdis.
Qed.

Context (exit : M (kst F) unit).

Lemma wp_slot_index s i (Q : nat -> kst F -> Prop) : (i < 32)%nat -> Q i s -> wp (slot_index (Z.of_nat i)) Q s.
Proof.
  intros Hi HQ. unfold slot_index. rewrite (proj2 (Z.leb_le _ _)), (proj2 (Z.ltb_lt _ _)); [|unfold SHMEM_PAGES; lia..].
  cbn [andb]. rewrite Nat2Z.id. by apply wp_ret.
Qed.

(** The window of a free slot is not mapped. *)
Lemma free_unmapped s fl live oth me p i : shm_inv s fl live oth -> me ∈ live -> procs s !! me = Some p ->
  (i < 32)%nat -> phy_at p i = 0 -> mapped (mem (km s)) (pgdir p) (win i) = false.
Proof.
  intros Hinv Hme Hp Hi H0. pose proof (sv_use _ _ _ _ Hinv me p i Hme Hp Hi) as Hu.
  unfold use_ok in Hu. by rewrite H0 in Hu.
Qed.

(** The state after a page was taken, from the facts the two branches have. *)
Lemma get_finish s fl fl' live oth me p i y a k tkey key k2 :
  shm_inv s fl live oth -> me ∈ live -> procs s !! me = Some p -> (i < 32)%nat -> (y < 32)%nat ->
  phy_at p i = 0 -> valid_page a -> keys_clean (sh_table s) p -> slots_distinct p ->
  (shmem_addr (info_at (sh_table s) y) = a /\ cstr 16 (shkey_at (sh_table s) y) = cstr 16 key \/
   shmem_addr (info_at (sh_table s) y) = 0) ->
  0 <= shmem_counter (info_at (sh_table s) y) < MAX_PROC ->
  bytes tkey /\ length tkey = 16%nat /\ nth 0 tkey 0 <> 0 -> cstr 16 tkey = cstr 16 key ->
  bytes k -> length k = 16%nat -> cstr 16 k = cstr 16 key ->
  (forall z, (z < 32)%nat -> cstr 16 (pkey_at p z) <> cstr 16 key) ->
  (forall z, (z < 32)%nat -> z <> y -> shmem_addr (info_at (sh_table s) z) <> a /\
     cstr 16 (shkey_at (sh_table s) z) <> cstr 16 tkey) ->
  a ∉ oth ->
  let s' := use_state s k2 me y (add_proc i a k p) (mk_info a (shmem_counter (info_at (sh_table s) y) + 1)) tkey in
  space_inv k2 fl' (dirs (procs s) live) (shared (sh_table s') ++ oth) ->
  (forall d va, d ∈ dirs (procs s) live -> aligned va -> pte_val (mem k2) d va =
     if (d =? pgdir p) && (va =? win i) then mkpte (V2P a) shm_perm else pte_val (mem (km s)) d va) ->
  (forall q x, q ∈ shared (sh_table s) -> q <= x < q + PGSIZE -> mem k2 x = mem (km s) x) ->
  got_rel s s' me i y p a k key /\ shm_inv s' fl' live oth /\
  keys_clean (sh_table s') (add_proc i a k p) /\ slots_distinct (add_proc i a k p).
Proof.
  intros Hinv Hme Hp Hi Hy Hf Ha Hcl Hdis Hyy Hcnt Htk Htk' Hkb Hkl Hkk Hnk Hnew Hoth s' Hs2 Hpte Hb.
  assert (proc_ok p) as Hok by (destruct (sv_procs _ _ _ _ Hinv me Hme) as (? & ? & ?); congruence).
  assert (pgdir p ∈ dirs (procs s) live) as Hd by (apply elem_of_dirs; eauto).
  assert (a <> 0) as Ha0 by (apply valid_page_bounds in Ha; lia).
  assert (got_rel s s' me i y p a k key) as Hgot.
  { destruct (sv_len _ _ _ _ Hinv) as [Hl1 Hl2]. constructor; try done.
    - split; [done|]. unfold s', shkey_at. simpl. rewrite nth_insert by lia. by destruct (decide (y = y)).
    - unfold s', info_at. simpl. rewrite nth_insert by lia. by destruct (decide (y = y)).
    - intros z Hz' Hne. unfold s', info_at, shkey_at. simpl. rewrite !nth_insert by lia.
      by destruct (decide (z = y)).
    - simpl. rewrite Hpte by (done || apply upage_aligned, win_upage, Hi). by rewrite !Z.eqb_refl. }
  split_and!; [done| | |]; [|eapply got_clean; eauto; intros z Hz' Hne; by apply Hnew..].
  apply (add_inv s fl fl' live oth me i y p (add_proc i a k p) a tkey k2); try done.
  - destruct Hyy as [[? _]|?]; auto.
  - by apply add_proc_ok.
  - intros z Hz' Hne. destruct (add_proc_at i a k p z Hok Hi) as (_ & -> & _ & ->). by destruct (decide (z = i)).
  - destruct (add_proc_at i a k p i Hok Hi) as (_ & -> & _). by destruct (decide (i = i)).
  - destruct (add_proc_at i a k p i Hok Hi) as (_ & _ & _ & ->). by destruct (decide (i = i)).
Qed.

(** Taking the slot in the process: the assignments after [map_shared]. *)
Lemma lookup_ins (ps : list proc) me p p' : ps !! me = Some p -> <[me := p']> ps !! me = Some p'.
Proof. intros Hp. apply list_lookup_insert_eq. by eapply lookup_lt_Some. Qed.

(** The page exists: it is mapped and counted. *)
Lemma wp_shmget_share s fl live oth me p key n ty (Q : Z -> kst F -> Prop) :
  shm_inv s fl live oth -> cur s = me -> sh_locked s = true -> me ∈ live -> procs s !! me = Some p ->
  keys_clean (sh_table s) p -> slots_distinct p -> key_arg key n -> (ty < 32)%nat ->
  cstr 16 (shkey_at (sh_table s) ty) = cstr 16 key ->
  (forall z, (z < 32)%nat -> cstr 16 (pkey_at p z) <> cstr 16 key) ->
  shmem_counter (info_at (sh_table s) ty) < MAX_PROC -> fl <> [] ->
  let e := info_at (sh_table s) ty in
  let a := shmem_addr e in
  (forall i k s' fl', (i < 32)%nat -> got_rel s s' me i ty p a k key -> a ∈ shared (sh_table s) ->
     shm_inv s' fl' live oth -> keys_clean (sh_table s') (add_proc i a k p) ->
     slots_distinct (add_proc i a k p) -> (exists used, fl = used ++ fl') -> Q (win i) (set_sh_locked false s')) ->
  wp (pos <- map_shared a ;;
      set_info ty (mk_info a (shmem_counter e + 1)) ;;;
      p <- get_proc me ;;
      let temp := top (pshm p) in
      pos <- slot_index pos ;;
      upd_pshm me (set_bitmap pos 1) ;;;
      upd_pshm me (set_phy pos a) ;;;
      upd_pshm me (set_vm pos temp) ;;;
      k <- copy_key (pkey_at p pos) key ;;
      upd_pshm me (set_pkey pos k) ;;;
      sh_release ;;;
      ret temp) Q s.
Proof.
  intros Hinv Hcur Hlk Hme Hp Hcl Hdis Hka Hty Hkt Hnk Hcnt Hfl e a HQ.
  pose proof (key_arg_ok _ _ Hka) as Hko. fold e in Hcnt. pose proof (sv_space _ _ _ _ Hinv) as Hs.
  assert (a <> 0) as Ha0.
  { intros H0. apply (free_slot_key s fl live oth) in H0; [|done|done].
    apply (ko_text _ Hko). rewrite <- Hkt. destruct (shkey_at (sh_table s) ty) as [|c l]; [done|].
    simpl in H0. by subst c. }
  assert (a ∈ shared (sh_table s)) as Hsh.
  { apply elem_of_shared; [apply (sv_len _ _ _ _ Hinv)|]. split; [done|]. by exists ty. }
  assert (valid_page a) as Ha by (apply (si_own _ _ _ _ Hs Other), elem_of_app; by left).
  destruct (sv_slots _ _ _ _ Hinv ty Hty) as (Hkb & Hkl & Hks). fold e a in Hks.
  rewrite (proj2 (Z.eqb_neq _ _) Ha0) in Hks. destruct Hks as [Hc1 Hk0].
  wp_step. apply (wp_map_shared s fl (dirs (procs s) live) (shared (sh_table s) ++ oth) me p a); try done.
  { apply elem_of_dirs. eauto. }
  { destruct (first_below (fun i => phy_at p i = 0) 32) as [(i & Hi & H0 & _)|Hno]; [by exists i|]. exfalso.
    destruct (slots_full s fl live oth me p ty) as (i & Hi & He); try done.
    fold e a in He. apply (Hnk i Hi). rewrite <- Hkt. destruct (Hcl i Hi) as [_ Hc].
    apply (Hc ty Hty); [by rewrite He|done]. }
  { intros i Hi H0. by eapply free_unmapped. }
  intros i k2 fl' Hi Hf Hs2 Hpte Hu Hb. wp_step. apply wp_modify. wp_step.
  eapply wp_get_proc; [by eapply lookup_ins|]. cbn zeta. wp_step. apply wp_slot_index; [done|].
  do 3 (wp_step; eapply wp_upd_pshm; [simpl; rewrite ?list_insert_insert_eq; by eapply lookup_ins|]).
  assert (pkey_at p i = zero_key) as Hz by by apply (Hcl i Hi).
  wp_step. change (pkey_at (set_top_of i p) i) with (pkey_at p i). rewrite Hz.
  apply (wp_copy_key _ _ key n); [done|by apply Forall_replicate; lia|done|].
  intros k Hkb' Hkl' Hk0' _ Hck. specialize (Hck eq_refl).
  wp_step. eapply wp_upd_pshm; [simpl; rewrite ?list_insert_insert_eq; by eapply lookup_ins|].
  wp_step. apply wp_sh_release; [done|]. apply wp_ret. simpl.
  unfold set_procs; simpl. rewrite !list_insert_insert_eq.
  rewrite <- (key_kept s fl live oth ty Hinv Hty).
  assert (forall z, (z < 32)%nat -> z <> ty -> shmem_addr (info_at (sh_table s) z) <> a /\
    cstr 16 (shkey_at (sh_table s) z) <> cstr 16 (shkey_at (sh_table s) ty)) as Hnew.
  { intros z Hz' Hne. split; intros He; apply Hne; symmetry;
      [apply (sv_inj _ _ _ _ Hinv)|apply (sv_keys _ _ _ _ Hinv)]; done. }
  destruct (get_finish s fl fl' live oth me p i ty a k (shkey_at (sh_table s) ty) key k2)
    as (Hgot & Hinv' & Hcl' & Hdis'); try done; [by left|fold e; lia|by apply (sv_disj _ _ _ _ Hinv)| | |].
  - assert (forall q, q ∈ shared (mk_shm (sh_lock (sh_table s)) (<[ty := mk_info a (shmem_counter e + 1)]>
      (shp_array (sh_table s))) (shp_key (sh_table s))) -> q ∈ shared (sh_table s)) as Hsame.
    { intros q Hq. apply (shared_insert (sh_table s) ty (mk_info a (shmem_counter e + 1))); try done.
      - apply (sv_len _ _ _ _ Hinv).
      - intros z Hz' Hne _. by apply Hnew.
      - by left. }
    eapply space_keep; [exact Hs2|apply Hs2|done| |]; intros q; rewrite ?elem_of_app.
    + intros [?|[Hq%Hsame|?]]; tauto.
    + intros Hq. apply (si_own _ _ _ _ Hs2 Other), elem_of_app. destruct Hq as [Hq%Hsame|?]; tauto.
  - intros q x Hq Hx. apply (Hb q); [apply elem_of_app; by left|done].
  - by apply (HQ i k _ fl' Hi Hgot).
Qed.

(** A page from the pool, cleared, becomes a page held by the table. *)
Lemma space_take k page fl pds oth oth' :
  space_inv k (page :: fl) pds oth -> (forall q, q ∈ oth' <-> q = page \/ q ∈ oth) ->
  let k1 := set_mem (memset (mem k) page 0 PGSIZE) (set_freelist (load32 (mem k) page) k) in
  valid_page page /\ space_inv k1 fl pds oth' /\
  (forall d va, d ∈ pds -> pte_val (mem k1) d va = pte_val (mem k) d va) /\
  (forall x, page <= x < page + PGSIZE -> mem k1 x = 0) /\
  (forall x, x < page \/ page + PGSIZE <= x -> mem k1 x = mem k x).
Proof.
  intros Hs Hoth k1. pose proof (si_kmem _ _ _ _ Hs) as Hk.
  pose proof (inv_valid _ _ Hk) as Hv. apply Forall_cons in Hv as [Hp Hv].
  pose proof (inv_nodup _ _ Hk) as Hnd. apply NoDup_cons in Hnd as [Hpn Hnd].
  assert (forall x, x < page \/ page + PGSIZE <= x -> mem k1 x = mem k x) as Hout.
  { intros x Hx. simpl. rewrite memset_eq by klia.
    destruct (Z.leb_spec page x), (Z.ltb_spec x (page + PGSIZE)); simpl; try done; lia. }
  rewrite Forall_forall in Hv.
  destruct (space_keep k k1 (page :: fl) fl pds oth oth') as (Hs1 & Hpv & _); [done| | | | |].
  - apply kmem_inv_write; [by apply kmem_inv_kalloc|]. intros q x Hq Hx. apply Hout.
    apply (valid_page_sep q); auto. by intros ->.
  - intros d q x Hd Hq Hx. destruct (si_own _ _ _ _ Hs (Table d) q) as [Hvq Hqn]; [done|].
    apply Hout, (valid_page_sep q); auto. intros ->. apply Hqn. by left.
  - intros q. rewrite Hoth, elem_of_cons. tauto.
  - intros q [->|Hq]%Hoth Hin; [done|]. apply (si_own _ _ _ _ Hs Other q); [done|by right].
  - split_and!; try done. intros x Hx. simpl. rewrite memset_eq by klia.
    by rewrite (proj2 (Z.leb_le _ _)), (proj2 (Z.ltb_lt _ _)) by lia.
Qed.

Lemma shared_add t y e q : length (shp_array t) = 32%nat -> (y < 32)%nat ->
  shmem_addr (info_at t y) = 0 -> shmem_addr e <> 0 ->
  q ∈ shared (mk_shm (sh_lock t) (<[y := e]> (shp_array t)) (shp_key t)) <-> q = shmem_addr e \/ q ∈ shared t.
Proof.
  intros Hl Hy H0 He. rewrite !elem_of_shared by (simpl; rewrite ?length_insert; done).
  assert (forall z, info_at (mk_shm (sh_lock t) (<[y := e]> (shp_array t)) (shp_key t)) z =
    if decide (z = y) then e else info_at t z) as Hinfo by (intros z; apply nth_insert; lia).
  split.
  - intros (Hq & z & Hz & Hzq). rewrite Hinfo in Hzq. destruct (decide (z = y)); [by left|].
    right. split; [done|by exists z].
  - intros [->|(Hq & z & Hz & Hzq)].
    + split; [done|]. exists y. rewrite Hinfo. by destruct (decide (y = y)).
    + split; [done|]. exists z. rewrite Hinfo. destruct (decide (z = y)) as [->|]; [congruence|done].
Qed.

(** The key is new: a page is allocated, cleared, mapped and entered. *)
Lemma wp_shmget_new s page fl live oth me p key n y (Q : Z -> kst F -> Prop) :
  shm_inv s (page :: fl) live oth -> cur s = me -> sh_locked s = true -> me ∈ live -> procs s !! me = Some p ->
  keys_clean (sh_table s) p -> slots_distinct p -> key_arg key n -> (y < 32)%nat ->
  shmem_addr (info_at (sh_table s) y) = 0 -> no_key (sh_table s) key 32 ->
  (forall z, (z < 32)%nat -> cstr 16 (pkey_at p z) <> cstr 16 key) -> fl <> [] ->
  (forall i k s' fl', (i < 32)%nat -> got_rel s s' me i y p page k key ->
     shm_inv s' fl' live oth -> keys_clean (sh_table s') (add_proc i page k p) ->
     slots_distinct (add_proc i page k p) -> (exists used, fl = used ++ fl') ->
     (forall x, page <= x < page + PGSIZE -> mem (km s') x = 0) -> Q (win i) (set_sh_locked false s')) ->
  wp (t <- gets sh_table ;;
      page <- on_mem kalloc ;;
      set_info y (mk_info page (shmem_counter (info_at t y))) ;;;
      if page =? 0 then panic "Failed to allocate."
      else
        on_mem (memsetM page 0 PGSIZE) ;;;
        pos <- map_shared page ;;
        k <- copy_key (shkey_at t y) key ;;
        set_shkey y k ;;;
        p <- get_proc me ;;
        pos <- slot_index pos ;;
        k <- copy_key (pkey_at p pos) key ;;
        upd_pshm me (set_pkey pos k) ;;;
        set_info y (mk_info page (shmem_counter (info_at t y) + 1)) ;;;
        let temp := top (pshm p) in
        upd_pshm me (set_bitmap pos 1) ;;;
        upd_pshm me (set_phy pos page) ;;;
        upd_pshm me (set_vm pos temp) ;;;
        sh_release ;;;
        ret temp) Q s.
Proof.
  intros Hinv Hcur Hlk Hme Hp Hcl Hdis Hka Hy Hy0 Hno Hnk Hfl HQ.
  pose proof (key_arg_ok _ _ Hka) as Hko. pose proof (sv_space _ _ _ _ Hinv) as Hs.
  destruct (sv_slots _ _ _ _ Hinv y Hy) as (Hkb & Hkl & Hks). rewrite Hy0 in Hks. destruct Hks as [Hc0 Hkz].
  destruct (sv_len _ _ _ _ Hinv) as [Hl1 Hl2].
  set (tf := mk_shm (sh_lock (sh_table s)) (<[y := mk_info page (shmem_counter (info_at (sh_table s) y) + 1)]>
    (shp_array (sh_table s))) (shp_key (sh_table s))).
  assert (valid_page page) as Hvp.
  { pose proof (inv_valid _ _ (si_kmem _ _ _ _ Hs)) as Hv. by apply Forall_cons in Hv as [? _]. }
  pose proof (valid_page_bounds page Hvp) as Hpb. assert (page <> 0) as Hp0 by lia.
  destruct (space_take (km s) page fl (dirs (procs s) live) (shared (sh_table s) ++ oth) (shared tf ++ oth))
    as (_ & Hs1 & Hpv1 & Hz1 & Ho1); [done| |].
  { intros q. rewrite !elem_of_app. unfold tf. rewrite shared_add by done. simpl. tauto. }
  set (k1 := set_mem _ _) in *.
  assert (forall q, q ∈ shared (sh_table s) ++ oth -> q <> page) as Hnp.
  { intros q Hq ->. apply (si_own _ _ _ _ Hs Other page Hq). by left. }
  wp_step. apply wp_gets. wp_step. apply wp_lift. unfold wp at 1.
  rewrite (kalloc_cons (km s) page fl) by apply Hs. wp_step. apply wp_modify.
  rewrite (proj2 (Z.eqb_neq _ _) Hp0). wp_step. apply wp_lift, wp_modify.
  wp_step. apply (wp_map_shared _ fl (dirs (procs s) live) (shared tf ++ oth) me p page); try done.
  { apply elem_of_dirs. eauto. }
  { destruct (first_below (fun i => phy_at p i = 0) 32) as [(i & Hi & H0 & _)|Hno']; [by exists i|]. exfalso.
    destruct (slots_full s (page :: fl) live oth me p y) as (i & Hi & He); try done.
    apply (Hno' i Hi). congruence. }
  { intros i Hi H0. simpl. unfold mapped. fold k1. rewrite Hpv1 by (apply elem_of_dirs; eauto).
    by eapply (free_unmapped s). }
  intros i k2 fl' Hi Hf Hs2 Hpte Hu Hb. simpl in Hpte, Hb. fold k1 in Hpte, Hb.
  wp_step. rewrite Hkz. apply (wp_copy_key _ _ key n); [done|by apply Forall_replicate; lia|done|].
  intros tk Htkb Htkl Htk0 _ Htk. specialize (Htk eq_refl). wp_step. apply wp_modify.
  wp_step. eapply wp_get_proc; [by eapply lookup_ins|]. wp_step. apply wp_slot_index; [done|].
  assert (pkey_at p i = zero_key) as Hz by by apply (Hcl i Hi).
  wp_step. change (pkey_at (set_top_of i p) i) with (pkey_at p i). rewrite Hz.
  apply (wp_copy_key _ _ key n); [done|by apply Forall_replicate; lia|done|].
  intros k Hkb' Hkl' Hk0' _ Hck. specialize (Hck eq_refl).
  wp_step. eapply wp_upd_pshm; [by eapply lookup_ins|]. wp_step. apply wp_modify. cbn zeta.
  do 3 (wp_step; eapply wp_upd_pshm; [simpl; rewrite ?list_insert_insert_eq; by eapply lookup_ins|]).
  wp_step. apply wp_sh_release; [done|]. apply wp_ret. simpl.
  unfold set_procs; simpl. rewrite !list_insert_insert_eq.
  destruct (get_finish s (page :: fl) fl' live oth me p i y page k tk key k2)
    as (Hgot & Hinv' & Hcl' & Hdis'); try done; [by right|by rewrite Hc0| | | | |].
  - intros z Hz' Hne. split; [|rewrite Htk; by apply Hno]. intros He. apply (Hnp page); [|done].
    apply elem_of_app. left. apply elem_of_shared; [done|]. split; [done|by exists z].
  - intros Hin. apply (Hnp page); [|done]. apply elem_of_app. by right.
  - intros d va Hd Hal. rewrite Hpte by done. by rewrite Hpv1.
  - intros q x Hq Hx. assert (q ∈ shared (sh_table s) ++ oth) as Hq' by (apply elem_of_app; by left).
    rewrite (Hb q); [|apply elem_of_app; left; unfold tf; rewrite shared_add by done; by right|done].
    apply Ho1, (valid_page_sep q); [by apply (si_own _ _ _ _ Hs Other)|done|by apply Hnp|done].
  - apply (HQ i k _ fl' Hi Hgot); try done. intros x Hx. simpl. rewrite (Hb page); [by apply Hz1| |done].
    apply elem_of_app. left. unfold tf. rewrite shared_add by done. by left.
Qed.

(** ** The whole call *)
Definition shmget_post s (live : list nat) oth me p key (r : Z) (s' : kst F) : Prop :=
  (exists ps ty, (ps < 32)%nat /\ (ty < 32)%nat /\ cstr 16 (pkey_at p ps) = cstr 16 key /\
     cstr 16 (shkey_at (sh_table s) ty) = cstr 16 key /\ r = vm_at p ps /\ s' = s) \/
  (exists i y a k fl', (i < 32)%nat /\ (y < 32)%nat /\ r = win i /\ got_rel s s' me i y p a k key /\
     shm_inv s' fl' live oth /\ keys_clean (sh_table s') (add_proc i a k p) /\ slots_distinct (add_proc i a k p) /\
     ((shmem_addr (info_at (sh_table s) y) = a /\ a ∈ shared (sh_table s)) \/
      (shmem_addr (info_at (sh_table s) y) = 0 /\ no_key (sh_table s) key 32 /\
       forall x, a <= x < a + PGSIZE -> mem (km s') x = 0))).

(** Looking for the key among the caller's own. *)
Definition own_key_search me key : M (kst F) (option Z) :=
  for_find SHMEM_PAGES 0 (fun y =>
    p <- get_proc me ;;
    c <- of_option (strncmp (pkey_at p y) key 16) ;;
    if c =? 0 then sh_release ;;; ret (Some (vm_at p y)) else ret None).

Lemma wp_own_key s me p key (Q : option Z -> kst F -> Prop) :
  procs s !! me = Some p -> proc_ok p -> key_ok key -> sh_locked s = true ->
  (forall ps, (ps < 32)%nat -> cstr 16 (pkey_at p ps) = cstr 16 key ->
     Q (Some (vm_at p ps)) (set_sh_locked false s)) ->
  ((forall z, (z < 32)%nat -> cstr 16 (pkey_at p z) <> cstr 16 key) -> Q None s) ->
  wp (own_key_search me key) Q s.
Proof.
  intros Hp Hok Hk Hlk HQ HQ0. unfold own_key_search.
  apply (wp_for_find (fun ps s1 => s1 = s /\ forall z, (z < ps)%nat -> cstr 16 (pkey_at p z) <> cstr 16 key)).
  - split; [done|]. intros; lia.
  - intros ps s1 Hps [-> Hno]. change (0 + SHMEM_PAGES)%nat with 32%nat in Hps.
    wp_step. apply (wp_get_proc s me p); [done|]. wp_step. destruct (pkey_ok p ps Hok) as [Hb Hl]; [lia|].
    apply wp_strncmp; [done..| |].
    + intros He. rewrite Z.eqb_refl. wp_step. apply wp_sh_release; [done|]. apply wp_ret, HQ; [lia|done].
    + intros r Hr He. rewrite (proj2 (Z.eqb_neq _ _) Hr). apply wp_ret. split; [done|].
      intros z Hz. destruct (decide (z = ps)) as [->|]; [done|]. apply Hno. lia.
  - intros s1 [-> Hno]. by apply HQ0.
Qed.

(** A caller with clean slots, enough memory, and no limit in the way. *)
Lemma wp_shmget s page page' fl live oth me p key n :
  shm_inv s (page :: page' :: fl) live oth -> cur s = me -> sh_locked s = false -> me ∈ live ->
  procs s !! me = Some p -> keys_clean (sh_table s) p -> slots_distinct p -> key_arg key n ->
  (exists y, (y < 32)%nat /\ shmem_addr (info_at (sh_table s) y) = 0) ->
  (forall ty, (ty < 32)%nat -> cstr 16 (shkey_at (sh_table s) ty) = cstr 16 key ->
     shmem_counter (info_at (sh_table s) ty) < MAX_PROC) ->
  wp (shmget exit key) (shmget_post s live oth me p key) s.
Proof.
  intros Hinv Hcur Hlk Hme Hp Hcl Hdis Hka (y0 & Hy0 & Hy0') Hmax.
  pose proof (key_arg_ok _ _ Hka) as Hko.
  assert (proc_ok p) as Hok by (destruct (sv_procs _ _ _ _ Hinv me Hme) as (? & ? & ?); congruence).
  unfold shmget. wp_step. apply wp_sh_acquire; [done|]. set (sl := set_sh_locked true s).
  assert (shm_inv sl (page :: page' :: fl) live oth) as Hinvl by by apply shm_inv_lock.
  wp_step. apply (wp_shmget_search _ sl (page :: page' :: fl) live oth key 0 None); try done; try (intros; lia).
  - intros z Hz. lia.
  - intros ty ff Hty Ht. wp_step. apply wp_gets. cbn [fst]. change (cur sl) with (cur s). rewrite Hcur.
    wp_step. apply (wp_own_key sl me p key); try done.
    + intros ps Hps Hkey. apply wp_ret. left. exists ps, ty. split_and!; try done. by apply relock.
    + intros Hnk. wp_step. apply wp_gets. cbn zeta.
      rewrite (proj2 (Z.ltb_lt _ _)) by by apply Hmax.
      apply (wp_shmget_share sl (page :: page' :: fl) live oth me p key n ty); try done; [by apply Hmax|].
      intros i k s' fl' Hi [G0 G1 G2 G3 G4 G5 G6 G7 G8 G9] Hsh Hinv' Hcl' Hdis' _. right.
      eexists i, ty, _, k, fl'. split_and!; try done.
      * by apply shm_inv_lock.
      * by left.
  - intros y Hno Hy Ha. wp_step. apply wp_gets. cbn [fst snd]. change (cur sl) with (cur s). rewrite Hcur.
    apply (wp_shmget_new sl page (page' :: fl) live oth me p key n y); try done.
    + intros z Hz He. destruct (Hcl z Hz) as [Hc1 Hc2].
      destruct (Z.eq_dec (phy_at p z) 0) as [E|E].
      { rewrite (Hc1 E), cstr_zero_key in He. by apply (ko_text _ Hko). }
      destruct (sv_held _ _ _ _ Hinv me p z Hme Hp Hz E) as (w & Hw & Hwe).
      apply (Hno w Hw). transitivity (cstr 16 (pkey_at p z)); [|done]. symmetry. by apply Hc2.
    + intros i k s' fl' Hi [G0 G1 G2 G3 G4 G5 G6 G7 G8 G9] Hinv' Hcl' Hdis' _ Hzero. right.
      eexists i, y, _, k, fl'. split_and!; try done.
      * by apply shm_inv_lock.
      * right. split_and!; done.
  - intros _ Hall. by destruct (Hall y0 Hy0).
Qed.
End ShmGet.
