(* ===== verification/ShmFork.v ===== *)
(** * [manage_fork]: the child's share of the shared pages *)
From Stdlib Require Import ZArith Lia Bool.
From stdpp Require Import base numbers list strings.
From S2P Require Import Prelude Machine Cstring Kalloc Vm VmInv VmMap VmUser VmAlloc Spaces Kstate Shm ShmInv ShmRem ShmGet.

Section ShmFork.
Context {I : KernelImage} `{!KernelImageOk I} {L : Literals} {F : Type}.
Implicit Types s : kst F.
Context (exit : M (kst F) unit).

(** The child [cc] after slot [i] was copied from the parent [pp]. *)
Definition fork_slot (i : nat) (pp cc : proc) : proc :=
  set_pshm (mk_pshm (top (pshm cc)) (<[i := phy_at pp i]> (phy_shared_page (pshm cc)))
    (<[i := vm_at pp i]> (vm_shared_page (pshm cc))) (<[i := pkey_at pp i]> (p_key (pshm cc)))
    (<[i := 1]> (bitmap (pshm cc)))) cc.

(** The first [n] slots of the child are the parent's, the others are empty. *)
Definition forked (n : nat) (pp cc : proc) : Prop :=
  forall i, (i < 32)%nat ->
    phy_at cc i = (if decide (i < n)%nat then phy_at pp i else 0) /\
    bitmap_at cc i = (if decide (i < n)%nat then bitmap_at pp i else 0) /\
    (phy_at cc i <> 0 -> vm_at cc i = vm_at pp i /\ pkey_at cc i = pkey_at pp i).

(** The bitmap says which slots are in use. *)
Definition bitmap_exact (p : proc) : Prop :=
  forall i, (i < 32)%nat -> bitmap_at p i = (if phy_at p i =? 0 then 0 else 1).

Lemma fork_slot_ok i pp cc : proc_ok pp -> proc_ok cc -> (i < 32)%nat -> proc_ok (fork_slot i pp cc).
Proof.
  intros Hpp [H1 H2 H3 H4 H5] Hi. constructor; simpl; rewrite ?length_insert; try done.
  apply Forall_insert; [done|]. by apply pkey_ok.
Qed.

Lemma fork_slot_at i pp cc z : proc_ok cc -> (i < 32)%nat ->
  phy_at (fork_slot i pp cc) z = (if decide (z = i) then phy_at pp i else phy_at cc z) /\
  vm_at (fork_slot i pp cc) z = (if decide (z = i) then vm_at pp i else vm_at cc z) /\
  pkey_at (fork_slot i pp cc) z = (if decide (z = i) then pkey_at pp i else pkey_at cc z) /\
  bitmap_at (fork_slot i pp cc) z = (if decide (z = i) then 1 else bitmap_at cc z).
Proof.
  intros [H1 H2 H3 H4 H5] Hi. unfold phy_at, vm_at, pkey_at, bitmap_at. simpl.
  split_and!; apply nth_insert; lia.
Qed.

Lemma forked_slot i pp cc : proc_ok cc -> bitmap_exact pp -> (i < 32)%nat -> phy_at pp i <> 0 ->
  forked i pp cc -> forked (S i) pp (fork_slot i pp cc).
Proof.
  intros Hok Hex Hi Hn Hf z Hz. destruct (fork_slot_at i pp cc z Hok Hi) as (-> & -> & -> & ->).
  destruct (Hf z Hz) as (H1 & H2 & H3). destruct (decide (z = i)) as [->|Hne].
  - destruct (decide (i < S i)%nat); [|lia]. split_and!; [done| |done].
    rewrite Hex by done. by rewrite (proj2 (Z.eqb_neq _ _) Hn).
  - destruct (decide (z < i)%nat), (decide (z < S i)%nat); try lia; done.
Qed.

Lemma forked_skip i pp cc : bitmap_exact pp -> (i < 32)%nat -> phy_at pp i = 0 ->
  forked i pp cc -> forked (S i) pp cc.
Proof.
  intros Hex Hi H0 Hf z Hz. destruct (Hf z Hz) as (H1 & H2 & H3).
  destruct (decide (z < i)%nat), (decide (z < S i)%nat); try lia; try done.
  replace z with i in * by lia. rewrite Hex, H0 by done. done.
Qed.

(** Counting the child's use: the slot of the page is found and incremented. *)
Lemma wp_fork_count s c cc i y (Q : unit -> kst F -> Prop) :
  procs s !! c = Some cc -> (y < 32)%nat -> shmem_addr (info_at (sh_table s) y) = phy_at cc i ->
  (forall z, (z < y)%nat -> shmem_addr (info_at (sh_table s) z) <> phy_at cc i) ->
  shmem_counter (info_at (sh_table s) y) <> 16 ->
  Q tt (set_sh (mk_shm (sh_lock (sh_table s))
     (<[y := mk_info (phy_at cc i) (shmem_counter (info_at (sh_table s) y) + 1)]> (shp_array (sh_table s)))
     (shp_key (sh_table s))) s) ->
  wp (manage_fork_count exit c i) Q s.
Proof.
  intros Hc Hy Ha Hne Hcnt HQ. unfold manage_fork_count. wp_step.
  apply (wp_for_find (fun z s1 => s1 = s /\ (z <= y)%nat)).
  - split; [done|lia].
  - intros z s1 Hz [-> Hzy]. wp_step. apply wp_gets. wp_step. apply (wp_get_proc s c cc); [done|]. cbn zeta.
    destruct (decide (z = y)) as [->|Hn].
    + rewrite Ha, Z.eqb_refl, (proj2 (Z.eqb_neq _ _) Hcnt). wp_step. apply wp_ret. wp_step. apply wp_modify.
      apply wp_ret, wp_ret. exact HQ.
    + rewrite (proj2 (Z.eqb_neq _ _)) by (apply Hne; lia). apply wp_ret. split; [done|lia].
  - intros s1 [_ Hle]. unfold SHMEM_PAGES in Hle. lia.
Qed.

(** Counting up does not change the set of shared pages. *)
Lemma fork_shared (t : shm_table) y a c ks q : length (shp_array t) = 32%nat -> (y < 32)%nat ->
  shmem_addr (info_at t y) = a -> (forall z, (z < 32)%nat -> z <> y -> shmem_addr (info_at t z) <> a) ->
  q ∈ shared (mk_shm (sh_lock t) (<[y := mk_info a c]> (shp_array t)) ks) -> q ∈ shared t.
Proof.
  intros Hl Hy <- Hna Hq. apply (shared_insert t y (mk_info (shmem_addr (info_at t y)) c)); try done.
  - intros z Hz Hne _. by apply Hna.
  - by left.
Qed.

(** One slot in use is copied. *)
Lemma wpx_fork_slot s fl live oth par c pp cc i (Q : unit -> kst F -> Prop) P :
  shm_inv s fl live oth -> par ∈ live -> c ∈ live -> procs s !! par = Some pp -> procs s !! c = Some cc ->
  (i < 32)%nat -> phy_at pp i <> 0 -> phy_at cc i = 0 ->
  (forall y, (y < 32)%nat -> shmem_addr (info_at (sh_table s) y) = phy_at pp i ->
     shmem_counter (info_at (sh_table s) y) < MAX_PROC) ->
  (forall s' fl', shm_inv s' fl' live oth -> procs s' = <[c := fork_slot i pp cc]> (procs s) ->
     cur s' = cur s -> sh_locked s' = sh_locked s -> (exists used, fl = used ++ fl') ->
     (forall y, (y < 32)%nat -> shkey_at (sh_table s') y = shkey_at (sh_table s) y /\
        info_at (sh_table s') y = mk_info (shmem_addr (info_at (sh_table s) y))
          (shmem_counter (info_at (sh_table s) y) + ind (shmem_addr (info_at (sh_table s) y) =? phy_at pp i))) ->
     Q tt s') ->
  (kmem_inv (km s) [] -> P "Manage Fork" s) ->
  wpx (r <- on_mem (mappages (pgdir cc) (u32 (KERNBASE - (Z.of_nat i + 1) * PGSIZE)) PGSIZE
                 (V2P (phy_at pp i)) (Z.lor PTE_W PTE_U)) ;;
       if r <? 0 then panic "Manage Fork"
       else
         upd_pshm c (set_phy i (phy_at pp i)) ;;;
         upd_pshm c (set_vm i (vm_at pp i)) ;;;
         k <- of_option (memmove_arr (pkey_at cc i) (pkey_at pp i) 16) ;;
         upd_pshm c (set_pkey i k) ;;;
         upd_pshm c (set_bitmap i 1) ;;;
         manage_fork_count exit c i) Q P s.
Proof.
  intros Hinv Hpar Hc Hpp Hcc Hi Hn Hcn Hmax HQ HP. pose proof (sv_space _ _ _ _ Hinv) as Hs.
  assert (proc_ok pp) as Hokp by (destruct (sv_procs _ _ _ _ Hinv par Hpar) as (? & ? & ?); congruence).
  assert (proc_ok cc) as Hokc by (destruct (sv_procs _ _ _ _ Hinv c Hc) as (? & ? & ?); congruence).
  destruct (sv_held _ _ _ _ Hinv par pp i Hpar Hpp Hi Hn) as (y & Hy & Hya).
  destruct (sv_len _ _ _ _ Hinv) as [Hl1 Hl2]. set (a := phy_at pp i) in *.
  assert (a ∈ shared (sh_table s)) as Hsh by (apply elem_of_shared; [done|]; split; [done|by exists y]).
  assert (valid_page a) as Ha by (apply (si_own _ _ _ _ Hs Other), elem_of_app; by left).
  pose proof (sv_use _ _ _ _ Hinv par pp i Hpar Hpp Hi) as Hup. unfold use_ok in Hup. fold a in Hup.
  rewrite (proj2 (Z.eqb_neq _ _) Hn) in Hup. destruct Hup as (_ & _ & Hvm & Hbit).
  destruct (pkey_ok cc i Hokc Hi) as [Hkb Hkl], (pkey_ok pp i Hokp Hi) as [Hkb' Hkl'].
  destruct (sv_slots _ _ _ _ Hinv y Hy) as (Htb & Htl & Hts). rewrite Hya in Hts.
  rewrite (proj2 (Z.eqb_neq _ _) Hn) in Hts. destruct Hts as [Hc1 Ht0].
  replace (u32 (KERNBASE - (Z.of_nat i + 1) * PGSIZE)) with (win i) by (unfold win; rewrite u32_small; klia).
  destruct (win_upage i Hi) as [Hw1 Hw2].
  assert (forall z, (z < 32)%nat -> z <> y -> shmem_addr (info_at (sh_table s) z) <> a) as Hna.
  { intros z Hz Hne He. apply Hne. symmetry. apply (sv_inj _ _ _ _ Hinv); congruence. }
  wp_step. unfold wpx at 1. change (Z.lor PTE_W PTE_U) with shm_perm.
  assert (wp (on_mem (mappages (pgdir cc) (win i) PGSIZE (V2P a) shm_perm)) (fun r s1 =>
    wpx (if r <? 0 then panic "Manage Fork"
         else upd_pshm c (set_phy i a) ;;; upd_pshm c (set_vm i (vm_at pp i)) ;;;
           k <- of_option (memmove_arr (pkey_at cc i) (pkey_at pp i) 16) ;;
           upd_pshm c (set_pkey i k) ;;; upd_pshm c (set_bitmap i 1) ;;; manage_fork_count exit c i) Q P s1) s) as Hgo.
  2: { unfold wp in Hgo. by destruct (on_mem _ s). }
  apply wp_lift, (wp_map_window (km s) fl (dirs (procs s) live) (shared (sh_table s) ++ oth)); try done.
  { apply elem_of_dirs. eauto. }
  { by eapply (free_unmapped s). }
  { intros ->. rewrite (proj2 (Z.ltb_lt (-1) 0)) by lia.
    replace (set_km (km s) s) with s by by destruct s. apply HP, Hs. }
  intros k2 fl' Hs2 Hpte Hu Hb. rewrite (proj2 (Z.ltb_ge 0 0)) by lia. apply wpx_of_wp.
  do 2 (wp_step; eapply wp_upd_pshm; [simpl; rewrite ?list_insert_insert_eq; first [exact Hcc|by eapply lookup_ins]|]).
  wp_step. rewrite memmove_arr_spec, drop_ge, app_nil_r, take_ge by lia. apply wp_ret.
  do 2 (wp_step; eapply wp_upd_pshm; [simpl; rewrite ?list_insert_insert_eq; by eapply lookup_ins|]).
  unfold set_procs; simpl. rewrite !list_insert_insert_eq.
  destruct (fork_slot_at i pp cc i Hokc Hi) as (Hfa & Hfv & _ & Hfb).
  destruct (decide (i = i)) as [_|]; [|done].
  apply (wp_fork_count _ c (fork_slot i pp cc) i y); try done.
  { by eapply lookup_ins. }
  { by rewrite Hfa. }
  { intros z Hz. rewrite Hfa. apply Hna; lia. }
  { simpl. specialize (Hmax y Hy Hya). unfold MAX_PROC in Hmax. lia. }
  rewrite Hfa. fold a. simpl.
  set (s' := use_state s k2 c y (fork_slot i pp cc)
    (mk_info a (shmem_counter (info_at (sh_table s) y) + 1)) (shkey_at (sh_table s) y)).
  rewrite <- (key_kept s fl live oth y Hinv Hy). apply (HQ s' fl'); try done.
  - apply (add_inv s fl fl' live oth c i y cc (fork_slot i pp cc) a (shkey_at (sh_table s) y) k2); try done.
    + by left.
    + specialize (Hmax y Hy Hya). lia.
    + intros z Hz Hne. split; [by apply Hna|]. intros He. apply Hne. symmetry.
      apply (sv_keys _ _ _ _ Hinv); [done..|by rewrite Hya|done].
    + by apply (sv_disj _ _ _ _ Hinv).
    + by apply fork_slot_ok.
    + intros z Hz Hne. destruct (fork_slot_at i pp cc z Hokc Hi) as (_ & -> & _ & ->).
      by destruct (decide (z = i)).
    + by rewrite Hfv.
    + eapply space_keep; [exact Hs2|apply Hs2|done| |]; intros q; rewrite ?elem_of_app.
      * intros [?|[Hq|?]]; [tauto| |tauto]. apply fork_shared in Hq; tauto.
      * intros Hq. apply (si_own _ _ _ _ Hs2 Other), elem_of_app.
        destruct Hq as [Hq|?]; [apply fork_shared in Hq|]; tauto.
  - intros z Hz. unfold s', info_at, shkey_at. simpl. rewrite !nth_insert by lia.
    fold (info_at (sh_table s) z) (shkey_at (sh_table s) z).
    destruct (decide (z = y)) as [->|Hne].
    + rewrite Hya, Z.eqb_refl. done.
    + split; [done|]. rewrite (proj2 (Z.eqb_neq _ _)) by by apply Hna. simpl. rewrite Z.add_0_r.
      by destruct (info_at (sh_table s) z).
Qed.

(** Does one of the first [n] slots of the process hold the page [a]? *)
Definition holds (n : nat) (p : proc) (a : Z) : bool :=
  negb (a =? 0) && existsb (fun z => phy_at p z =? a) (seq 0 n).

Lemma holds_S n p a : slots_distinct p -> (n < 32)%nat ->
  ind (holds (S n) p a) = ind (holds n p a) + (if phy_at p n =? 0 then 0 else ind (a =? phy_at p n)).
Proof.
  intros Hdis Hn. unfold holds. rewrite seq_S, existsb_app. cbn [existsb Nat.add]. rewrite orb_false_r.
  destruct (Z.eqb_spec a 0) as [->|Ha]; cbn [negb andb].
  { destruct (Z.eqb_spec (phy_at p n) 0) as [E|E]; [done|]. by rewrite (proj2 (Z.eqb_neq 0 _)) by lia. }
  destruct (Z.eqb_spec (phy_at p n) a) as [E|E].
  - rewrite E, Z.eqb_refl, (proj2 (Z.eqb_neq _ _) Ha), orb_true_r. simpl.
    assert (existsb (fun z => phy_at p z =? a) (seq 0 n) = false) as ->; [|done].
    apply not_true_iff_false. intros (z & Hz & He)%existsb_exists. apply in_seq in Hz. apply Z.eqb_eq in He.
    assert (n = z); [|lia]. apply Hdis; [lia|lia|congruence|congruence].
  - rewrite orb_false_r. destruct (Z.eqb_spec (phy_at p n) 0); [lia|].
    rewrite (proj2 (Z.eqb_neq a _)) by congruence. simpl. lia.
Qed.

Lemma wpx_manage_fork s fl live oth par c pp cc (Q : unit -> kst F -> Prop) P :
  shm_inv s fl live oth -> par ∈ live -> c ∈ live -> par <> c ->
  procs s !! par = Some pp -> procs s !! c = Some cc ->
  bitmap_exact pp -> slots_distinct pp -> forked 0 pp cc ->
  (forall y, (y < 32)%nat -> holds 32 pp (shmem_addr (info_at (sh_table s) y)) = true ->
     shmem_counter (info_at (sh_table s) y) < MAX_PROC) ->
  (forall s' fl' cc', shm_inv s' fl' live oth -> procs s' = <[c := cc']> (procs s) -> forked 32 pp cc' ->
     pgdir cc' = pgdir cc -> cur s' = cur s -> sh_locked s' = sh_locked s -> (exists used, fl = used ++ fl') ->
     (forall y, (y < 32)%nat -> shkey_at (sh_table s') y = shkey_at (sh_table s) y /\
        info_at (sh_table s') y = mk_info (shmem_addr (info_at (sh_table s) y))
          (shmem_counter (info_at (sh_table s) y) + ind (holds 32 pp (shmem_addr (info_at (sh_table s) y))))) ->
     Q tt s') ->
  (forall s', kmem_inv (km s') [] -> P "Manage Fork" s') ->
  wpx (manage_fork exit par c) Q P s.
Proof.
  intros Hinv Hpar Hc Hne Hpp Hcc Hex Hdis Hf0 Hmax HQ HP. unfold manage_fork.
  apply (wpx_for_range (fun i s1 => exists fl1 cc1, shm_inv s1 fl1 live oth /\
    procs s1 = <[c := cc1]> (procs s) /\ forked i pp cc1 /\ pgdir cc1 = pgdir cc /\ cur s1 = cur s /\
    sh_locked s1 = sh_locked s /\ (exists used, fl = used ++ fl1) /\
    forall y, (y < 32)%nat -> shkey_at (sh_table s1) y = shkey_at (sh_table s) y /\
      info_at (sh_table s1) y = mk_info (shmem_addr (info_at (sh_table s) y))
        (shmem_counter (info_at (sh_table s) y) + ind (holds i pp (shmem_addr (info_at (sh_table s) y)))))).
  - exists fl, cc. split_and!; try done; [by symmetry; apply list_insert_id|by exists []|].
    intros y Hy. split; [done|]. unfold holds. simpl. rewrite andb_false_r. simpl. rewrite Z.add_0_r.
    by destruct (info_at (sh_table s) y).
  - intros i s1 Hi (fl1 & cc1 & Hinv1 & Hps1 & Hf1 & Hd1 & Hcur1 & Hlk1 & (u1 & Hu1) & Ht1).
    change (0 + SHMEM_PAGES)%nat with 32%nat in Hi.
    assert (procs s1 !! par = Some pp) as Hpp1 by (rewrite Hps1; by rewrite list_lookup_insert_ne).
    assert (procs s1 !! c = Some cc1) as Hcc1 by (rewrite Hps1; by eapply lookup_ins).
    assert (proc_ok cc1) as Hok1 by (destruct (sv_procs _ _ _ _ Hinv1 c Hc) as (? & ? & ?); congruence).
    wp_step. apply wpx_of_wp, (wp_get_proc s1 par pp); [done|].
    wp_step. apply wpx_of_wp, (wp_get_proc s1 c cc1); [done|].
    destruct (Hf1 i ltac:(lia)) as (Hphy & Hbit & _). destruct (decide (i < i)%nat); [lia|].
    rewrite Hbit, Hex by lia. destruct (Z.eqb_spec (phy_at pp i) 0) as [E|E].
    + apply wpx_of_wp, wp_ret. exists fl1, cc1. split_and!; try done; [by apply forked_skip; [|lia|..]|by exists u1|].
      intros y Hy. rewrite holds_S by (done || lia). rewrite E. cbn [Z.eqb]. rewrite Z.add_0_r. by apply Ht1.
    + cbn [Z.eqb Pos.eqb negb andb when].
      apply (wpx_fork_slot s1 fl1 live oth par c pp cc1 i); try done; [lia| | |].
      * intros y Hy Hya. destruct (Ht1 y Hy) as [_ Hty]. rewrite Hty in Hya |- *. cbn [shmem_addr shmem_counter] in Hya |- *.
        assert (holds 32 pp (phy_at pp i) = true) as Hh.
        { unfold holds. rewrite (proj2 (Z.eqb_neq _ _) E). cbn [negb andb]. apply existsb_exists. exists i.
          split; [apply in_seq; lia|apply Z.eqb_refl]. }
        assert (ind (holds i pp (phy_at pp i)) = 0) as Hi0.
        { pose proof (holds_S i pp (phy_at pp i) Hdis ltac:(lia)) as HS.
          rewrite (proj2 (Z.eqb_neq _ _) E), Z.eqb_refl in HS. simpl in HS.
          destruct (holds (S i) pp (phy_at pp i)), (holds i pp (phy_at pp i)); simpl in HS |- *; lia. }
        rewrite Hya, Hi0. specialize (Hmax y Hy). rewrite Hya in Hmax. specialize (Hmax Hh). lia.
      * intros s' fl' Hinv' Hps' Hcur' Hlk' (u' & Hu') Ht'. exists fl', (fork_slot i pp cc1).
        split_and!; try done; try congruence.
        -- by rewrite Hps', Hps1, list_insert_insert_eq.
        -- apply forked_slot; [done|done|lia|done|done].
        -- exists (u1 ++ u'). rewrite Hu1, Hu'. by rewrite app_assoc.
        -- intros y Hy. destruct (Ht1 y Hy) as [Hk1 Hi1], (Ht' y Hy) as [Hk2 Hi2].
           split; [congruence|]. rewrite Hi2, Hi1. simpl. rewrite holds_S by (done || lia).
           rewrite (proj2 (Z.eqb_neq _ _) E). f_equal. lia.
      * apply HP.
  - intros s1 (fl1 & cc1 & Hinv1 & Hps1 & Hf1 & Hd1 & Hcur1 & Hlk1 & Hu1 & Ht1).
    by apply (HQ s1 fl1 cc1).
Qed.
End ShmFork.
