(* ===== verification/ShmProps.v ===== *)
(** * Properties of the shared pages

    What the system calls on shared pages guarantee to a process whose slots
    are clean, and the runs in which the code breaks its own invariant. *)
From Stdlib Require Import ZArith Lia Bool.
From stdpp Require Import base numbers list strings.
From S2P Require Import Prelude Machine Cstring Kalloc Segments Vm VmInv VmMap VmUser VmAlloc.
From S2P Require Import VmProps Spaces Kstate Shm ShmInv ShmRem ShmGet ShmFork.

Section ShmProps.
Context {I : KernelImage} `{!KernelImageOk I} {L : Literals} {F : Type}.
Implicit Types s : kst F.

(** The page [a] is in use by a live process other than [me]. *)
Definition used_elsewhere s (live : list nat) (me : nat) (a : Z) : Prop :=
  exists k q i, (k ∈ live) /\ k <> me /\ procs s !! k = Some q /\ (i < 32)%nat /\ phy_at q i = a.

(** C2: [shmrem("-1")], the call [exit] makes, gives up every shared page of
    the process.  It returns 1 with the invariant kept; the process holds no
    shared page and maps nothing in the shared window, so its address space
    can be freed; a page stays in the table exactly when another process
    still uses it, its bytes unchanged, and the other pages go back to the
    pool; no other process changes. *)
Theorem shmrem_exit_releases `{!LiteralsOk L} s fl live oth me p :
  shm_inv s fl live oth -> cur s = me -> sh_locked s = false -> me ∈ live -> procs s !! me = Some p ->
  exists s' fl', shmrem lit_exit s = Ok 1 s' /\ shm_inv s' fl' live oth /\ sh_locked s' = false /\
    procs s' = <[me := with_phy (replicate 32 0) p]> (procs s) /\
    uvm_inv (km s') (pgdir p) fl' /\
    (forall a, a ∈ shared (sh_table s') <-> a ∈ shared (sh_table s) /\ used_elsewhere s live me a) /\
    (forall q, q ∈ fl' <-> q ∈ fl \/ (q ∈ shared (sh_table s) /\ ~ used_elsewhere s live me q)) /\
    (forall q x, q ∈ shared (sh_table s') -> q <= x < q + PGSIZE -> mem (km s') x = mem (km s) x).
Proof.
  intros Hinv Hcur Hlk Hme Hp.
  assert (wp (shmrem lit_exit) (fun r s' => r = 1 /\ exists fl', shm_inv s' fl' live oth /\
    rem_rel s s' me p (replicate 32 0) fl fl') s) as Hwp.
  { apply (wp_shmrem_exit s fl live oth me p); try done. intros s' fl' H1 H2. eauto. }
  apply wp_ok in Hwp as (r & s' & Hr & -> & fl' & Hinv' & [R1 R2 R3 R4 R5 R6]).
  assert (forall k, k <> me -> procs s' !! k = procs s !! k) as Hother.
  { intros k Hk. rewrite R3. by apply list_lookup_insert_ne. }
  assert (procs s' !! me = Some (with_phy (replicate 32 0) p)) as Hp' by (rewrite R3; by eapply lookup_ins).
  assert (forall i, phy_at (with_phy (replicate 32 0) p) i = 0) as Hzero.
  { intros i. unfold phy_at. simpl. destruct (nth_in_or_default i (replicate 32 0) 0) as [Hin|]; [|done].
    by apply list_elem_of_In, elem_of_replicate in Hin as [? _]. }
  assert (forall a, a ∈ shared (sh_table s') <-> a ∈ shared (sh_table s) /\ used_elsewhere s live me a) as Hsh.
  { intros a. split.
    - intros Ha. split; [by apply R4|].
      destruct (shared_in_use s' fl' live oth a Hinv' Ha) as (k & q & i & Hk & Hq & Hi & He).
      exists k, q, i. assert (k <> me) as Hne; [|by rewrite <- Hother].
      intros ->. rewrite Hp' in Hq. injection Hq as <-. rewrite Hzero in He.
      apply elem_of_shared in Ha as [? _]; [by subst|apply (sv_len _ _ _ _ Hinv')].
    - intros [Ha (k & q & i & Hk & Hne & Hq & Hi & <-)]. apply elem_of_shared; [apply (sv_len _ _ _ _ Hinv')|].
      apply elem_of_shared in Ha as [Hn _]; [|apply (sv_len _ _ _ _ Hinv)]. split; [done|].
      apply (sv_held _ _ _ _ Hinv' k q i); try done. by rewrite Hother. }
  exists s', fl'. split_and!; try done; [congruence| |].
  - eapply si_uvm; [apply (sv_space _ _ _ _ Hinv')| |].
    + apply elem_of_dirs. exists me. eauto.
    + intros va Hva Hb. destruct (win_slot va Hva Hb) as (i & Hi & ->).
      pose proof (sv_use _ _ _ _ Hinv' me _ i Hme Hp' Hi) as Hu. unfold use_ok in Hu. by rewrite Hzero in Hu.
  - intros q. rewrite R5, Hsh. split; [intros [?|[? Hn]]|intros [?|[? Hn]]]; [by left| |by left|]; right; tauto.
Qed.

(** [shmrem(key)] gives up one use.  For a caller whose slots are clean it
    returns -1 and changes nothing when the key is not in the table or not
    held; otherwise it drops the use of the slot: it returns 0 and frees the
    page when this was the last use, 1 when the page is still shared, and the
    invariant holds again with every other use untouched. *)
Theorem shmrem_key_drops s fl live oth me p key d :
  shm_inv s fl live oth -> cur s = me -> sh_locked s = false -> me ∈ live -> procs s !! me = Some p ->
  keys_clean (sh_table s) p -> key_ok key -> memcmp key lit_shm 16 = Some d -> d <> 0 ->
  exists r s', shmrem key s = Ok r s' /\ shmrem_key_post s fl live oth me p key r s'.
Proof.
  intros Hinv Hcur Hlk Hme Hp Hcl Hk Hcmp Hd.
  by apply wp_ok, (wp_shmrem_key s fl live oth me p key d).
Qed.

(** C1: [shmget(key)] gives a process with clean slots the page of the key.
    With two free pages, room in the table and fewer than 16 users, it
    returns: the address it had if it holds the key already, and otherwise the
    address of a free slot of the window, mapped user-writable to the page of
    the table, whose count goes up by one, or to a fresh zeroed page entered
    under the key.  The invariant and the cleanness of the caller are kept and
    the bytes of the pages already shared do not change. *)
Theorem shmget_takes_page (exit : M (kst F) unit) s page page' fl live oth me p key n :
  shm_inv s (page :: page' :: fl) live oth -> cur s = me -> sh_locked s = false -> me ∈ live ->
  procs s !! me = Some p -> keys_clean (sh_table s) p -> slots_distinct p -> key_arg key n ->
  (exists y, (y < 32)%nat /\ shmem_addr (info_at (sh_table s) y) = 0) ->
  (forall ty, (ty < 32)%nat -> cstr 16 (shkey_at (sh_table s) ty) = cstr 16 key ->
     shmem_counter (info_at (sh_table s) ty) < MAX_PROC) ->
  exists r s', shmget exit key s = Ok r s' /\ shmget_post s live oth me p key r s'.
Proof.
  intros. by apply wp_ok, (wp_shmget exit s page page' fl live oth me p key n).
Qed.

(** Two processes with clean slots see the same page exactly when they
    hold it under the same key. *)
Theorem same_key_same_page s fl live oth j k p q i i' :
  shm_inv s fl live oth -> j ∈ live -> k ∈ live -> procs s !! j = Some p -> procs s !! k = Some q ->
  keys_clean (sh_table s) p -> keys_clean (sh_table s) q ->
  (i < 32)%nat -> (i' < 32)%nat -> phy_at p i <> 0 -> phy_at q i' <> 0 ->
  cstr 16 (pkey_at p i) = cstr 16 (pkey_at q i') <->
  translate (mem (km s)) (pgdir p) (win i) = translate (mem (km s)) (pgdir q) (win i').
Proof.
  intros Hinv Hj Hk Hp Hq Hcp Hcq Hi Hi' Hn Hn'.
  assert (forall l r z, l ∈ live -> procs s !! l = Some r -> keys_clean (sh_table s) r -> (z < 32)%nat ->
    phy_at r z <> 0 -> exists y, (y < 32)%nat /\ shmem_addr (info_at (sh_table s) y) = phy_at r z /\
      cstr 16 (pkey_at r z) = cstr 16 (shkey_at (sh_table s) y) /\
      translate (mem (km s)) (pgdir r) (win z) = Some (V2P (phy_at r z))) as Hslot.
  { intros l r z Hl Hr Hc Hz Hrn. destruct (sv_held _ _ _ _ Hinv l r z Hl Hr Hz Hrn) as (y & Hy & He).
    exists y. split_and!; [done|done|by apply Hc|].
    pose proof (sv_use _ _ _ _ Hinv l r z Hl Hr Hz) as Hu. unfold use_ok in Hu.
    rewrite (proj2 (Z.eqb_neq _ _) Hrn) in Hu. destruct Hu as (Hm & Hf & _).
    rewrite translate_pte_val. fold (mapped (mem (km s)) (pgdir r) (win z)). rewrite Hm. f_equal.
    destruct (win_upage z Hz) as [[_ Hal] _]. change PGSIZE with 4096. rewrite Hal, Z.add_0_r.
    rewrite <- Hf. unfold frame_of. symmetry. apply V2P_P2V.
    rewrite PTE_ADDR_eq by apply pte_val_range. pose proof (pte_val_range (mem (km s)) (pgdir r) (win z)). zlia. }
  destruct (Hslot j p i) as (y & Hy & Hya & Hyk & ->); try done.
  destruct (Hslot k q i') as (y' & Hy' & Hya' & Hyk' & ->); try done.
  assert (forall z, (z < 32)%nat -> shmem_addr (info_at (sh_table s) z) <> 0 ->
    valid_page (shmem_addr (info_at (sh_table s) z))) as Hv.
  { intros z Hz Hzn. apply (si_own _ _ _ _ (sv_space _ _ _ _ Hinv) Other), elem_of_app. left.
    apply elem_of_shared; [apply (sv_len _ _ _ _ Hinv)|]. split; [done|by exists z]. }
  assert (valid_page (shmem_addr (info_at (sh_table s) y))) as V1%valid_page_bounds by (apply Hv; congruence).
  assert (valid_page (shmem_addr (info_at (sh_table s) y'))) as V2%valid_page_bounds by (apply Hv; congruence).
  assert (shmem_addr (info_at (sh_table s) y) <> 0) as Hyn by congruence.
  rewrite Hyk, Hyk', <- Hya, <- Hya'. split.
  - intros He. do 4 f_equal. by apply (sv_keys _ _ _ _ Hinv).
  - intros He%(inj Some). do 2 f_equal. apply (sv_inj _ _ _ _ Hinv y y' Hy Hy' Hyn).
    unfold V2P in He. klia.
Qed.

(** C3: [manage_fork] gives the child of a parent with an exact bitmap the
    parent's shared pages.  It returns with the invariant kept, the child
    holding the same pages at the same addresses under the same keys, the
    count of each of these pages one higher and the other counts the same,
    and every other process unchanged; or it stops with "Manage Fork" when
    the free list is empty. *)
Theorem manage_fork_shares (exit : M (kst F) unit) s fl live oth par c pp cc :
  shm_inv s fl live oth -> par ∈ live -> c ∈ live -> par <> c ->
  procs s !! par = Some pp -> procs s !! c = Some cc ->
  bitmap_exact pp -> slots_distinct pp -> forked 0 pp cc ->
  (forall y, (y < 32)%nat -> holds 32 pp (shmem_addr (info_at (sh_table s) y)) = true ->
     shmem_counter (info_at (sh_table s) y) < MAX_PROC) ->
  match manage_fork exit par c s with
  | Ok _ s' => exists fl' cc', shm_inv s' fl' live oth /\ procs s' = <[c := cc']> (procs s) /\
      forked 32 pp cc' /\
      forall y, (y < 32)%nat -> shkey_at (sh_table s') y = shkey_at (sh_table s) y /\
        info_at (sh_table s') y = mk_info (shmem_addr (info_at (sh_table s) y))
          (shmem_counter (info_at (sh_table s) y) + ind (holds 32 pp (shmem_addr (info_at (sh_table s) y))))
  | Panic msg s' => msg = "Manage Fork" /\ kmem_inv (km s') []
  | _ => False
  end.
Proof.
  intros Hinv Hpar Hc Hne Hpp Hcc Hex Hdis Hf Hmax.
  apply (wpx_manage_fork exit s fl live oth par c pp cc
    (fun _ s' => exists fl' cc', shm_inv s' fl' live oth /\ procs s' = <[c := cc']> (procs s) /\ forked 32 pp cc' /\
      forall y, (y < 32)%nat -> shkey_at (sh_table s') y = shkey_at (sh_table s) y /\
        info_at (sh_table s') y = mk_info (shmem_addr (info_at (sh_table s) y))
          (shmem_counter (info_at (sh_table s) y) + ind (holds 32 pp (shmem_addr (info_at (sh_table s) y)))))
    (fun msg s' => msg = "Manage Fork" /\ kmem_inv (km s') [])); try done.
  intros s' fl' cc' H1 H2 H3 _ _ _ _ H4. by exists fl', cc'.
Qed.
End ShmProps.

(** ** Runs in which the invariant is lost

    [shmrem(key)] keeps the bit of the slot and, for the last user, the key.
    The two theorems below follow what the other calls make of them. *)
Section Stale.
Context {I : KernelImage} `{!KernelImageOk I} {L : Literals} {F : Type}.
Implicit Types s : kst F.
Context (exit : M (kst F) unit).

Lemma shm_inv_cur s j fl live oth : shm_inv s fl live oth -> shm_inv (set_cur j s) fl live oth.
Proof. intros []. by constructor. Qed.

Lemma kfree_zero k : kfree 0 k = Panic "kfree" k.
Proof. unfold kfree. by rewrite !orb_true_r. Qed.

Lemma shm_proc_ok s fl live oth j p : shm_inv s fl live oth -> j ∈ live -> procs s !! j = Some p -> proc_ok p.
Proof. intros Hinv Hj Hp. destruct (sv_procs _ _ _ _ Hinv j Hj) as (? & ? & ?). congruence. Qed.

(** The least free slot of the table. *)
Lemma first_free (t : shm_table) : (exists y, (y < 32)%nat /\ shmem_addr (info_at t y) = 0) ->
  exists y, (y < 32)%nat /\ shmem_addr (info_at t y) = 0 /\ forall z, (z < y)%nat -> shmem_addr (info_at t z) <> 0.
Proof.
  intros (y & Hy & H0). induction y as [y IH] using lt_wf_ind.
  destruct (existsb (fun z => shmem_addr (info_at t z) =? 0) (seq 0 y)) eqn:E.
  - apply existsb_exists in E as (z & Hz%in_seq & Hz0%Z.eqb_eq). apply (IH z); [lia|lia|done].
  - exists y. split_and!; [done..|]. intros z Hz Hz0. rewrite <- not_true_iff_false in E. apply E, existsb_exists.
    exists z. split; [apply in_seq; lia|by apply Z.eqb_eq].
Qed.

(** The bit of slot [i] is set but the slot holds no page, and no other bit is
    set. *)
Definition only_stale (i : nat) (p : proc) : Prop :=
  bitmap_at p i = 1 /\ phy_at p i = 0 /\ forall z, (z < 32)%nat -> z <> i -> bitmap_at p z <> 1.

(** No bit is set. *)
Definition no_bits (p : proc) : Prop := forall z, (z < 32)%nat -> bitmap_at p z <> 1.

(** The state [manage_fork] leaves for a parent with one stale slot: the child
    has the slot, and the first free entry of the table counts one use of
    address 0. *)
Record stale_use s s' (c i y : nat) (pp cc : proc) : Prop := {
  su_procs : procs s' = <[c := fork_slot i pp cc]> (procs s);
  su_array : shp_array (sh_table s') = <[y := mk_info 0 1]> (shp_array (sh_table s));
  su_lock : sh_locked s' = sh_locked s;
}.

Lemma wpx_fork_stale s fl live oth par c pp cc i y (P : string -> kst F -> Prop) :
  shm_inv s fl live oth -> par ∈ live -> c ∈ live -> procs s !! par = Some pp -> procs s !! c = Some cc ->
  par <> c -> (i < 32)%nat -> only_stale i pp -> no_bits cc -> fl <> [] -> (y < 32)%nat ->
  shmem_addr (info_at (sh_table s) y) = 0 -> (forall z, (z < y)%nat -> shmem_addr (info_at (sh_table s) z) <> 0) ->
  wpx (manage_fork exit par c) (fun _ s' => stale_use s s' c i y pp cc) P s.
Proof.
  intros Hinv Hpar Hc Hpp Hcc Hne Hi (Hbit & Hphy & Hrest) Hno Hfl Hy Hy0 Hlt.
  pose proof (shm_proc_ok _ _ _ _ _ _ Hinv Hpar Hpp) as Hokp. pose proof (shm_proc_ok _ _ _ _ _ _ Hinv Hc Hcc) as Hokc.
  unfold manage_fork. apply wpx_of_wp, (wp_for_range (fun n s1 => ((n <= i)%nat /\ s1 = s) \/ ((i < n)%nat /\ stale_use s s1 c i y pp cc))).
  { left. split; [lia|done]. }
  2: { intros s1 [[Hle _]|[_ H1]]; [unfold SHMEM_PAGES in Hle; lia|done]. }
  intros n s1 Hn H1. change (0 + SHMEM_PAGES)%nat with 32%nat in Hn.
  assert (procs s1 !! par = Some pp /\ exists cc1, procs s1 !! c = Some cc1) as [Hpp1 [cc1 Hcc1]].
  { destruct H1 as [[_ ->]|[_ [Hps _ _]]]; [eauto|]. rewrite Hps. rewrite list_lookup_insert_ne by done.
    split; [done|]. eexists. by eapply lookup_ins. }
  wp_step. apply (wp_get_proc s1 par pp); [done|]. wp_step. apply (wp_get_proc s1 c cc1); [done|].
  destruct (decide (n = i)) as [->|Hni].
  2: { rewrite (proj2 (Z.eqb_neq (bitmap_at pp n) 1)) by (apply Hrest; [lia|done]). apply wp_ret.
       destruct H1 as [[? ->]|[? H1]]; [left; split; [lia|done]|right; split; [lia|done]]. }
  destruct H1 as [[_ ->]|[? _]]; [|lia]. assert (cc1 = cc) as -> by congruence.
  rewrite Hbit. rewrite (proj2 (Z.eqb_neq 1 (bitmap_at cc i))) by (intros E; by apply (Hno i)). cbn [Z.eqb Pos.eqb negb andb when].
  assert (phy_at cc i = 0) as Hcphy.
  { pose proof (sv_use _ _ _ _ Hinv c cc i Hc Hcc Hi) as Hu. unfold use_ok in Hu.
    destruct (Z.eqb_spec (phy_at cc i) 0); [done|]. exfalso. apply (Hno i Hi), Hu. }
  replace (u32 (KERNBASE - (Z.of_nat i + 1) * PGSIZE)) with (win i) by (unfold win; rewrite u32_small; klia).
  wp_step. apply wp_lift. eapply wp_mono.
  { apply (wp_page_tables (km s) (pgdir cc) (win i) (V2P (phy_at pp i)) (Z.lor PTE_W PTE_U) fl).
    - eapply si_as; [apply (sv_space _ _ _ _ Hinv)|]. apply elem_of_dirs. eauto.
    - by apply upage_aligned, win_upage.
    - by eapply (free_unmapped s). }
  intros r k' [[-> _]|(_ & ? & _)]; [|done]. rewrite (proj2 (Z.ltb_ge 0 0)) by lia.
  destruct (pkey_ok cc i Hokc Hi) as [Hkb Hkl], (pkey_ok pp i Hokp Hi) as [Hkb' Hkl'].
  do 2 (wp_step; eapply wp_upd_pshm; [simpl; rewrite ?list_insert_insert_eq; first [exact Hcc|by eapply lookup_ins]|]).
  wp_step. rewrite memmove_arr_spec, drop_ge, app_nil_r, take_ge by lia. apply wp_ret.
  do 2 (wp_step; eapply wp_upd_pshm; [simpl; rewrite ?list_insert_insert_eq; by eapply lookup_ins|]).
  unfold set_procs; simpl. rewrite !list_insert_insert_eq.
  destruct (fork_slot_at i pp cc i Hokc Hi) as (Hfa & _). destruct (decide (i = i)) as [_|]; [|done].
  destruct (sv_slots _ _ _ _ Hinv y Hy) as (_ & _ & Hs). rewrite Hy0 in Hs. destruct Hs as [Hs0 _].
  apply (wp_fork_count exit _ c (fork_slot i pp cc) i y); try done.
  { by eapply lookup_ins. }
  { by rewrite Hfa, Hphy. }
  { intros z Hz. rewrite Hfa, Hphy. by apply Hlt. }
  { simpl. by rewrite Hs0. }
  right. split; [lia|]. constructor; [done| |done]. simpl. by rewrite Hs0, Hfa, Hphy.
Qed.

(** The child's [shmrem("-1")] finds its slot in the entry that counts address
    0 once, and frees it. *)
Lemma wpx_exit_stale `{!LiteralsOk L} s s' fl live oth c i y pp cc :
  shm_inv s fl live oth -> c ∈ live -> procs s !! c = Some cc -> (i < 32)%nat -> only_stale i pp -> no_bits cc ->
  (y < 32)%nat -> (forall z, (z < y)%nat -> shmem_addr (info_at (sh_table s) z) <> 0) -> sh_locked s = false ->
  stale_use s s' c i y pp cc ->
  wpx (run_as c (shmrem lit_exit)) (fun _ _ => False) (fun msg _ => msg = "kfree") s'.
Proof.
  intros Hinv Hc Hcc Hi (Hbit & Hphy & _) Hno Hy Hlt Hlk [Hps Harr Hlk'].
  pose proof (shm_proc_ok _ _ _ _ _ _ Hinv Hc Hcc) as Hokc. destruct (sv_len _ _ _ _ Hinv) as [Hl _].
  unfold run_as, shmrem. do 2 wp_step. wp_step. apply wpx_of_wp, wp_sh_acquire; [by rewrite <- Hlk, <- Hlk'|].
  wp_step. rewrite lit_merged, memcmp_refl by apply lit_long. apply wpx_of_wp, wp_ret. cbn [Z.eqb]. wp_step.
  set (s3 := set_sh_locked true (set_cur c s')).
  assert (procs s3 !! c = Some (fork_slot i pp cc)) as Hcc3.
  { unfold s3. simpl. rewrite Hps. by eapply lookup_ins. }
  assert (forall z, info_at (sh_table s3) z = if decide (z = y) then mk_info 0 1 else info_at (sh_table s) z) as Hinfo.
  { intros z. unfold info_at, s3. simpl. rewrite Harr. apply nth_insert. lia. }
  unfold shmrem_all. apply (wpx_for_range (fun n s1 => (n <= i)%nat /\ s1 = s3)).
  { split; [lia|done]. }
  2: { intros s1 [Hle _]. unfold SHMEM_PAGES in Hle. lia. }
  intros n s1 Hn [Hni ->]. change (0 + SHMEM_PAGES)%nat with 32%nat in Hn.
  wp_step. apply wpx_of_wp, wp_gets. wp_step. apply wpx_of_wp, (wp_get_proc s3 c (fork_slot i pp cc)); [done|].
  destruct (fork_slot_at i pp cc n Hokc Hi) as (Hfa & _ & _ & Hfb). rewrite Hfb.
  destruct (decide (n = i)) as [->|Hne].
  2: { rewrite (proj2 (Z.eqb_neq _ 1)) by (apply Hno; lia). apply wpx_of_wp, wp_ret. split; [lia|done]. }
  cbn [Z.eqb Pos.eqb when]. apply (wpx_for_range (fun z s1 => (z <= y)%nat /\ s1 = s3)).
  { split; [lia|done]. }
  2: { intros s1 [Hle _]. unfold SHMEM_PAGES in Hle. lia. }
  intros z s1 Hz [Hzy ->]. unfold shmrem_drop.
  wp_step. apply wpx_of_wp, wp_gets. wp_step. apply wpx_of_wp, (wp_get_proc s3 c (fork_slot i pp cc)); [done|]. do 2 wp_step. cbn zeta.
  rewrite Hfa, Hphy, Hinfo. destruct (decide (z = y)) as [->|Hzn].
  - cbn [shmem_addr shmem_counter Z.eqb Pos.eqb]. wp_step. unfold wpx at 1, on_mem, lift. by rewrite kfree_zero.
  - rewrite (proj2 (Z.eqb_neq 0 _)) by (intros E; apply (Hlt z); [lia|done]).
    apply wpx_of_wp, wp_ret. split; [lia|done].
Qed.

Lemma wpx_panics {A} (m : M (kst F) A) msg s :
  wpx m (fun _ _ => False) (fun w _ => w = msg) s -> exists s', m s = Panic msg s'.
Proof. unfold wpx. destruct (m s); intros H; try done. subst. eauto. Qed.

(** The slot of a process that gave up its only shared page. *)
Lemma rem_proc_stale b i p : proc_ok p -> (i < 32)%nat -> bitmap_at p i = 1 ->
  (forall z, (z < 32)%nat -> z <> i -> bitmap_at p z <> 1) -> only_stale i (rem_proc b i p).
Proof.
  intros Hok Hi Hbit Hrest. split_and!.
  - by destruct b.
  - apply nth_lookup_Some. destruct b; simpl; (rewrite list_lookup_insert_eq; [done|by rewrite (po_phy _ Hok)]).
  - intros z Hz Hne. destruct (rem_proc_rest b i p z Hne) as [_ ->]. by apply Hrest.
Qed.

(** C39: a process that gives up its only shared page with [shmrem(key)] stops
    the kernel if it then forks and the child exits.  The call leaves the bit
    of the slot set.  In any later state in which the parent's slots are as
    the call left them, the child has none, a page is free and the table has
    a free entry, [manage_fork], which [fork] calls, followed by the child's
    [shmrem("-1")], which [exit] calls, ends in the panic of [kfree]: the
    child inherits a use of address 0, counted in the first free entry of the
    table, and frees it. *)
Theorem fork_after_shmrem_panics `{!LiteralsOk L} s fl live oth par pp key d ty ps :
  shm_inv s fl live oth -> par ∈ live -> procs s !! par = Some pp -> sh_locked s = false ->
  keys_clean (sh_table s) pp -> key_ok key -> memcmp key lit_shm 16 = Some d -> d <> 0 ->
  (ty < 32)%nat -> (ps < 32)%nat -> cstr 16 (shkey_at (sh_table s) ty) = cstr 16 key ->
  cstr 16 (pkey_at pp ps) = cstr 16 key -> (forall z, (z < 32)%nat -> z <> ps -> bitmap_at pp z <> 1) ->
  exists r s1 fl1, run_as par (shmrem key) s = Ok r s1 /\ shm_inv s1 fl1 live oth /\
    procs s1 = <[par := rem_proc (r =? 0) ps pp]> (procs s) /\ sh_locked s1 = false /\
    forall s2 fl2 live2 oth2 c cc pp2, shm_inv s2 fl2 live2 oth2 -> par ∈ live2 -> c ∈ live2 -> par <> c ->
      procs s2 !! par = Some pp2 -> pshm pp2 = pshm (rem_proc (r =? 0) ps pp) -> procs s2 !! c = Some cc -> no_bits cc ->
      sh_locked s2 = false -> fl2 <> [] -> (exists y, (y < 32)%nat /\ shmem_addr (info_at (sh_table s2) y) = 0) ->
      exists s3, (run_as par (manage_fork exit par c) ;;; run_as c (shmrem lit_exit)) s2 = Panic "kfree" s3.
Proof.
  intros Hinv Hpar Hpp Hlk Hcl Hk Hcmp Hd Hty Hps Hkt Hkp Hone.
  pose proof (shm_proc_ok _ _ _ _ _ _ Hinv Hpar Hpp) as Hokp.
  assert (wp (run_as par (shmrem key)) (shmrem_key_post (set_cur par s) fl live oth par pp key) s) as Hwp.
  { unfold run_as. do 2 wp_step. eapply (wp_shmrem_key (set_cur par s)); try done. by apply shm_inv_cur. }
  apply wp_ok in Hwp as (r & s1 & Hr & [(_ & _ & [Hno|Hno])|(ty' & ps' & fl1 & _ & Hps' & _ & _ & Hn & _ & Hr0 & Hinv1 & Hdrop)]).
  { by destruct (Hno ty Hty). }
  { by destruct (Hno ps Hps). }
  set (last := _ =? 1) in Hr0, Hdrop. assert ((r =? 0) = last) as Hlast by (rewrite Hr0; by destruct last).
  assert (bitmap_at pp ps' = 1) as Hbit.
  { pose proof (sv_use _ _ _ _ Hinv par pp ps' Hpar Hpp Hps') as Hu. unfold use_ok in Hu.
    rewrite (proj2 (Z.eqb_neq _ _) Hn) in Hu. apply Hu. }
  assert (ps' = ps) as -> by (destruct (decide (ps' = ps)); [done|]; by destruct (Hone ps')).
  pose proof (rem_proc_stale last ps pp Hokp Hps Hbit Hone) as Hst.
  exists r, s1, fl1. rewrite Hlast. split_and!; [done|done|apply Hdrop| |].
  { by rewrite (dp_lock _ _ _ _ _ _ Hdrop). }
  intros s2 fl2 live2 oth2 c cc pp2 Hinv2 Hpar2 Hc Hne Hpp2 Hsame Hcc Hno Hlk2 Hfl2 Hfree.
  assert (only_stale ps pp2) as Hst2 by (unfold only_stale, bitmap_at, phy_at in *; by rewrite Hsame).
  destruct (first_free _ Hfree) as (y & Hy & Hy0 & Hlt). apply wpx_panics.
  unfold run_as at 1. do 3 wp_step. pose proof (shm_inv_cur s2 par fl2 live2 oth2 Hinv2) as Hinv3.
  eapply wpx_mono; [by apply (wpx_fork_stale (set_cur par s2) fl2 live2 oth2 par c pp2 cc ps y)| |intros w s3 H3; exact H3].
  intros a s3 H3. by apply (wpx_exit_stale (set_cur par s2) s3 fl2 live2 oth2 c ps y pp2 cc).
Qed.

(** The use of a page by its only user is given up: neither the page nor the
    key is in the table any more. *)
Lemma last_use_gone s s1 fl fl1 live oth j p ps ty :
  shm_inv s fl live oth -> shm_inv s1 fl1 live oth -> j ∈ live -> procs s !! j = Some p ->
  (ps < 32)%nat -> (ty < 32)%nat -> phy_at p ps <> 0 -> shmem_addr (info_at (sh_table s) ty) = phy_at p ps ->
  shmem_counter (info_at (sh_table s) ty) = 1 -> drop_rel s s1 j (rem_proc true ps p) fl fl1 ->
  forall z, (z < 32)%nat -> shmem_addr (info_at (sh_table s1) z) <> 0 ->
    cstr 16 (shkey_at (sh_table s1) z) <> cstr 16 (shkey_at (sh_table s) ty).
Proof.
  intros Hinv Hinv1 Hj Hp Hps Hty Hn Hpy Hc Hdrop z Hz Hzn Hk.
  pose proof (shm_proc_ok _ _ _ _ _ _ Hinv Hj Hp) as Hok.
  destruct (dp_slots _ _ _ _ _ _ Hdrop z Hz Hzn) as [Ha Hkz].
  assert (ty = z) as <- by (apply (sv_keys _ _ _ _ Hinv); [done..|congruence|congruence]).
  assert (phys (procs s) j = phy_shared_page (pshm p)) as Hph by (unfold phys; by rewrite Hp).
  assert (refs (procs s1) live (phy_at p ps) = 0) as H0.
  { rewrite (refs_update (procs s) (procs s1) live j ps 0).
    - rewrite Hph. fold (phy_at p ps). rewrite Z.eqb_refl, <- Hpy, <- (sv_count _ _ _ _ Hinv ty Hty) by congruence.
      rewrite Hc, (proj2 (Z.eqb_neq 0 _)) by congruence. done.
    - apply Hinv.
    - done.
    - by rewrite Hph, (po_phy _ Hok).
    - unfold phys at 1. rewrite (dp_procs _ _ _ _ _ _ Hdrop), Hph. erewrite lookup_ins by exact Hp. done.
    - intros l Hl. unfold phys. rewrite (dp_procs _ _ _ _ _ _ Hdrop). by rewrite list_lookup_insert_ne. }
  destruct (sv_slots _ _ _ _ Hinv1 ty Hz) as (_ & _ & Hs). rewrite (proj2 (Z.eqb_neq _ _) Hzn) in Hs.
  rewrite (sv_count _ _ _ _ Hinv1 ty Hz Hzn), Ha, Hpy in Hs. lia.
Qed.

(** What a second [shmrem(key)] of the process [p] leaves when the page of the
    key is in use by process [k] alone, as the page of slot [i] of [q]. *)
Record foreign_freed (s' : kst F) (k i : nat) (p q : proc) (fl : list Z) : Prop := {
  ff_free : kmem_inv (km s') (phy_at q i :: fl);
  ff_mapped : mapped (mem (km s')) (pgdir q) (win i) = true;
  ff_frame : frame_of (mem (km s')) (pgdir q) (win i) = phy_at q i;
  ff_user : procs s' !! k = Some q;
  ff_zero : mapped (mem (km s')) (pgdir p) 0 = false;
}.

Section Foreign.
Context (s : kst F) (fl : list Z) (live : list nat) (oth : list Z) (j k : nat) (p q : proc) (i y ps : nat) (key : list Z).
Hypothesis Hinv : shm_inv s fl live oth.
Hypothesis Hj : j ∈ live.
Hypothesis Hk : k ∈ live.
Hypothesis Hjk : j <> k.
Hypothesis Hp : procs s !! j = Some p.
Hypothesis Hq : procs s !! k = Some q.
Hypothesis Hcur : cur s = j.
Hypothesis Hi : (i < 32)%nat.
Hypothesis Hy : (y < 32)%nat.
Hypothesis Hn : phy_at q i <> 0.
Hypothesis Hqy : shmem_addr (info_at (sh_table s) y) = phy_at q i.
Hypothesis Hc : shmem_counter (info_at (sh_table s) y) = 1.
Hypothesis Hps : (ps < 32)%nat.
Hypothesis Hvm : vm_at p ps = 0.
Hypothesis Hko : key_ok key.
Hypothesis Hkey : cstr 16 (pkey_at p ps) = cstr 16 key.
Hypothesis Htab : has (pde (mem (km s)) (pgdir p) (PDX 0)) PTE_P = true.

(** The entry of address 0 is cleared, after the page was freed. *)
Lemma wp_clear_zero k1 (s1 : kst F) (pds oth' : list Z) fl1 (Q : unit -> kst F -> Prop) :
  km s1 = k1 -> space_inv k1 fl1 pds oth' -> pgdir p ∈ pds ->
  has (pde (mem k1) (pgdir p) (PDX 0)) PTE_P = true ->
  (forall k2, kmem_inv k2 fl1 -> mapped (mem k2) (pgdir p) 0 = false ->
     (forall d va, d ∈ pds -> d <> pgdir p -> pte_val (mem k2) d va = pte_val (mem k1) d va) ->
     Q tt (set_km k2 s1)) ->
  wp (on_mem (walkpgdir (pgdir p) 0 false)) (fun temp => wp (clear_pte temp) Q) s1.
Proof.
  intros <- Hs Hd Ht HQ. pose proof (si_as _ _ _ _ _ Hs Hd) as Has.
  apply wp_lift. unfold wp at 1. rewrite walk_present by done.
  unfold clear_pte. rewrite (proj2 (Z.eqb_neq _ 0)) by by apply slot_nonzero; [apply Has|].
  apply wp_lift, wp_modify. destruct s1 as [k0 ? ? ? ? ? ? ? ?]; simpl in *.
  destruct (write_pte_step k0 (pgdir p) 0 0 fl1 Has Ht) as [Hst Hpv]. set (k' := set_mem _ k0) in *.
  assert (forall va', aligned va' -> pte_val (mem k') (pgdir p) va' = if va' =? 0 then 0 else pte_val (mem k0) (pgdir p) va') as Hpv'.
  { intros va' [? ?]. by apply Hpv. }
  destruct (space_step k0 k' fl1 fl1 pds oth' (pgdir p) Hs Hd Hst) as [Hs' Hpo].
  { intros va' Hu Hlt. unfold mapped. rewrite Hpv' by by apply upage_aligned. by destruct (Z.eqb_spec va' 0). }
  apply (HQ k'); [apply Hs'| |done]. unfold mapped. by rewrite Hpv'.
Qed.

Lemma wp_shmrem_slot_foreign (Q : option Z -> kst F -> Prop) : sh_locked s = true ->
  (forall s', foreign_freed s' k i p q fl -> Q (Some 0) s') ->
  wp (shmrem_slot key y ps) Q s.
Proof.
  intros Hlk HQ. pose proof (shm_proc_ok _ _ _ _ _ _ Hinv Hj Hp) as Hokp.
  destruct (drop_page s fl live oth i y q Hinv Hy Hn Hqy) as (Hv & _ & Hnt).
  assert (pgdir p ∈ dirs (procs s) live) as Hdp by (apply elem_of_dirs; eauto).
  assert (pgdir q ∈ dirs (procs s) live) as Hdq by (apply elem_of_dirs; eauto).
  unfold shmrem_slot. wp_step. apply wp_gets. rewrite Hcur. wp_step. apply (wp_get_proc s j p); [done|].
  wp_step. destruct (pkey_ok p ps Hokp Hps). apply wp_strncmp; [done..| |done].
  intros _. rewrite Z.eqb_refl. wp_steps. cbn zeta. rewrite Hqy, Hc, Z.eqb_refl, Hvm.
  wp_step. apply wp_lift. eapply (wp_drop_free s fl live oth i y q); try done. rewrite Hc, Z.eqb_refl.
  intros k1 Hs1 Hpv1 _ Hm1. wp_step. apply wp_modify. wp_step. apply wp_modify. wp_step.
  eapply wp_mono; [|intros temp s1 H1; apply wp_bind, H1].
  eapply wp_clear_zero; [done|exact Hs1|done| |].
  { rewrite agree_pde with (m := mem (km s)); [done| |apply PDX_range]. intros t x Ht Hx. apply Hm1.
    apply (valid_page_sep t); [|done| |done].
    - by eapply (si_own _ _ _ _ (sv_space _ _ _ _ Hinv) (Table (pgdir p))).
    - intros ->. by apply (Hnt (pgdir p)). }
  intros k2 Hk2 Hz2 Hpo. wp_step. eapply wp_upd_pshm; [exact Hp|]. wp_step.
  eapply wp_upd_pshm; [by eapply lookup_ins|]. wp_step. apply wp_sh_release; [done|]. apply wp_ret. apply HQ.
  assert (pte_val (mem k2) (pgdir q) (win i) = pte_val (mem (km s)) (pgdir q) (win i)) as Hpq.
  { rewrite Hpo, Hpv1; [done|done|done|]. intros E. apply Hjk. by eapply (sv_dirs _ _ _ _ Hinv j k p q). }
  pose proof (sv_use _ _ _ _ Hinv k q i Hk Hq Hi) as Hu. unfold use_ok, mapped, frame_of in Hu.
  rewrite (proj2 (Z.eqb_neq _ _) Hn) in Hu. destruct Hu as (Hm & Hf & _).
  constructor; unfold mapped, frame_of; simpl; rewrite ?Hpq; try done.
  by rewrite !list_lookup_insert_ne by done.
Qed.

End Foreign.

Lemma wp_shmrem_foreign s fl live oth j k p q i y ps key d :
  shm_inv s fl live oth -> j ∈ live -> k ∈ live -> j <> k -> procs s !! j = Some p -> procs s !! k = Some q ->
  cur s = j -> (i < 32)%nat -> (y < 32)%nat -> phy_at q i <> 0 ->
  shmem_addr (info_at (sh_table s) y) = phy_at q i -> shmem_counter (info_at (sh_table s) y) = 1 ->
  (ps < 32)%nat -> vm_at p ps = 0 -> key_ok key -> cstr 16 (pkey_at p ps) = cstr 16 key ->
  has (pde (mem (km s)) (pgdir p) (PDX 0)) PTE_P = true ->
  sh_locked s = false -> memcmp key lit_shm 16 = Some d -> d <> 0 ->
  cstr 16 (shkey_at (sh_table s) y) = cstr 16 key ->
  (forall z, (z < ps)%nat -> cstr 16 (pkey_at p z) <> cstr 16 key) ->
  wp (shmrem key) (fun r s' => r = 0 /\ foreign_freed s' k i p q fl) s.
Proof.
  intros Hinv Hj Hk Hjk Hp Hq Hcur Hi Hy Hn Hqy Hc Hps Hvm Hko Hkey Htab Hlk Hcmp Hd Hky Hfirst.
  pose proof (shm_proc_ok _ _ _ _ _ _ Hinv Hj Hp) as Hokp.
  unfold shmrem. wp_step. apply wp_sh_acquire; [done|]. wp_step. rewrite Hcmp. apply wp_ret.
  rewrite (proj2 (Z.eqb_neq _ _) Hd). wp_step. set (sl := set_sh_locked true s).
  apply (wp_for_find (fun z s1 => s1 = sl /\ (z <= y)%nat)).
  { split; [done|lia]. }
  2: { intros s1 [_ Hle]. unfold SHMEM_PAGES in Hle. lia. }
  intros z s1 Hz [-> Hzy]. change (0 + SHMEM_PAGES)%nat with 32%nat in Hz.
  wp_step. apply wp_gets. wp_step. destruct (sv_slots _ _ _ _ Hinv z) as (Hb & Hl & _); [lia|].
  apply wp_strncmp; [done..| |].
  2: { intros r Hr Hne. rewrite (proj2 (Z.eqb_neq _ _) Hr). apply wp_ret. split; [done|].
       assert (z <> y); [|lia]. intros ->. done. }
  intros Ht. assert (y = z) as <-.
  { apply (sv_keys _ _ _ _ Hinv); [done|lia|congruence|]. rewrite Hky. by symmetry. }
  apply (wp_for_find (fun z s1 => s1 = sl /\ (z <= ps)%nat)).
  { split; [done|lia]. }
  2: { intros s1 [_ Hle]. unfold SHMEM_PAGES in Hle. lia. }
  intros z s1 Hz' [-> Hzp]. change (0 + SHMEM_PAGES)%nat with 32%nat in Hz'.
  destruct (decide (z = ps)) as [->|Hne].
  - apply (wp_shmrem_slot_foreign sl fl live oth j k p q i y ps key); try done. by apply shm_inv_lock.
  - apply (wp_shmrem_slot_miss sl j p key y z); try done; [lia|apply Hfirst; lia|]. split; [done|lia].
Qed.

(** C40: the last user of a page keeps its key.  A process gives up its page
    with [shmrem(key)]: the call returns 0 and the key is gone from the table.
    In any later state in which the slots of the process are as the call left
    them and another process is the only user of a page under the same key, a
    second [shmrem(key)] of the first process, if it has a page table for
    address 0, returns 0 again and frees the page of the other process, which
    still has it mapped; and it unmaps address 0 of the caller. *)
Theorem stale_key_frees_foreign_page s fl live oth j p key d ty ps :
  shm_inv s fl live oth -> j ∈ live -> procs s !! j = Some p -> sh_locked s = false ->
  keys_clean (sh_table s) p -> slots_distinct p -> key_ok key -> memcmp key lit_shm 16 = Some d -> d <> 0 ->
  (ty < 32)%nat -> (ps < 32)%nat -> cstr 16 (shkey_at (sh_table s) ty) = cstr 16 key ->
  cstr 16 (pkey_at p ps) = cstr 16 key -> shmem_counter (info_at (sh_table s) ty) = 1 ->
  exists s1 fl1, run_as j (shmrem key) s = Ok 0 s1 /\ shm_inv s1 fl1 live oth /\
    procs s1 = <[j := rem_proc true ps p]> (procs s) /\ sh_locked s1 = false /\
    (forall z, (z < 32)%nat -> cstr 16 (shkey_at (sh_table s1) z) <> cstr 16 key) /\
    forall s2 fl2 live2 oth2 k p2 q i y, shm_inv s2 fl2 live2 oth2 -> j ∈ live2 -> k ∈ live2 -> j <> k ->
      procs s2 !! j = Some p2 -> pshm p2 = pshm (rem_proc true ps p) -> procs s2 !! k = Some q -> sh_locked s2 = false ->
      (i < 32)%nat -> (y < 32)%nat -> cstr 16 (shkey_at (sh_table s2) y) = cstr 16 key ->
      phy_at q i <> 0 -> info_at (sh_table s2) y = mk_info (phy_at q i) 1 ->
      has (pde (mem (km s2)) (pgdir p2) (PDX 0)) PTE_P = true ->
      exists s3, run_as j (shmrem key) s2 = Ok 0 s3 /\ foreign_freed s3 k i p2 q fl2.
Proof.
  intros Hinv Hj Hp Hlk Hcl Hdis Hk Hcmp Hd Hty Hps Hkt Hkp Hone.
  pose proof (shm_proc_ok _ _ _ _ _ _ Hinv Hj Hp) as Hok.
  pose proof (shm_inv_cur s j fl live oth Hinv) as Hinvj.
  assert (wp (run_as j (shmrem key)) (shmrem_key_post (set_cur j s) fl live oth j p key) s) as Hwp.
  { unfold run_as. do 2 wp_step. by apply (wp_shmrem_key (set_cur j s) fl live oth j p key d). }
  apply wp_ok in Hwp as (r & s1 & Hr & [(_ & _ & [Hno|Hno])|(ty' & ps' & fl1 & Hty' & Hps' & Hkt' & Hkp' & Hn & Hpy & Hr0 & Hinv1 & Hdrop)]).
  { by destruct (Hno ty Hty). }
  { by destruct (Hno ps Hps). }
  assert (forall z, (z < 32)%nat -> cstr 16 (pkey_at p z) = cstr 16 key -> z = ps') as Hslot.
  { intros z Hz Hkz. destruct (key_slots_agree s fl live oth j p key ty' z) as [Hzn Hza]; try done.
    apply Hdis; [done..|]. by rewrite <- Hza. }
  assert (ty = ty') as <-.
  { apply (sv_keys _ _ _ _ Hinv); [done..| |by rewrite Hkt].
    destruct (key_slots_agree s fl live oth j p key ty ps) as [? ->]; done. }
  simpl in Hr0, Hdrop. rewrite Hone in Hr0, Hdrop. simpl in Hr0, Hdrop. subst r.
  assert (ps = ps') as <- by by apply Hslot.
  exists s1, fl1. split_and!; [done|done|apply Hdrop|by rewrite (dp_lock _ _ _ _ _ _ Hdrop)| |].
  - intros z Hz Hkz. destruct (Z.eq_dec (shmem_addr (info_at (sh_table s1) z)) 0) as [E|E].
    + destruct (sv_slots _ _ _ _ Hinv1 z Hz) as (_ & _ & Hs). rewrite E in Hs. destruct Hs as [_ Hs].
      rewrite Hs, cstr_zero_key in Hkz. by apply (ko_text _ Hk).
    + apply (last_use_gone (set_cur j s) s1 fl fl1 live oth j p ps ty Hinvj Hinv1 Hj Hp Hps Hty Hn Hpy Hone Hdrop z Hz E).
      by rewrite Hkz.
  - intros s2 fl2 live2 oth2 k p2 q i y Hinv2 Hj2 Hk2 Hjk Hp2 Hsame Hq Hlk2 Hi Hy Hky Hqn Hinfo Htab.
    assert (forall z, pkey_at p2 z = pkey_at p z) as Hkeys by (intros z; unfold pkey_at; by rewrite Hsame).
    pose proof (shm_inv_cur s2 j fl2 live2 oth2 Hinv2) as Hinv2j.
    assert (wp (run_as j (shmrem key)) (fun r s' => r = 0 /\ foreign_freed s' k i p2 q fl2) s2) as Hwp.
    { unfold run_as. do 2 wp_step.
      apply (wp_shmrem_foreign (set_cur j s2) fl2 live2 oth2 j k p2 q i y ps key d); try done; try (simpl; by rewrite Hinfo).
      - unfold vm_at. rewrite Hsame. apply nth_lookup_Some. simpl. rewrite list_lookup_insert_eq; [done|by rewrite (po_vm _ Hok)].
      - by rewrite Hkeys.
      - intros z Hz. rewrite Hkeys. intros Hkz. assert (z = ps); [|lia]. apply Hslot; [lia|done]. }
    apply wp_ok in Hwp as (r & s3 & Hr3 & -> & Hff). by exists s3.
Qed.
End Stale.

(** ** A concrete kernel with two processes *)
Definition demo_dir2 : Z := 0x80405000.
Definition demo_pshm : proc_shm :=
  mk_pshm 0 (replicate 32 0) (replicate 32 0) (replicate 32 zero_key) (replicate 32 0).
Definition demo_proc (d : Z) : proc :=
  mk_proc 4096 d 0 RUNNING 1 None 0 0 0 false [] 0 [] demo_pshm.
Definition demo_shm_table : shm_table := mk_shm false (replicate 32 no_info) (replicate 32 zero_key).
Definition demo_kst : kst unit :=
  mk_kst demo_space demo_shm_table false [demo_proc demo_dir; demo_proc demo_dir2] 3 None 0 (mk_regs 0 0 0 0 0 0 null_seg) tt.
Definition demo_literals : Literals :=
  {| lit_shm := [45; 49] ++ replicate 14 0; lit_exit := [45; 49] ++ replicate 14 0 |}.
Definition demo_key : list Z := 97 :: replicate 15 0.

Section DemoShm.
#[local] Existing Instance demo_image.
#[local] Existing Instance demo_image_ok.

Lemma demo_pde2 i : 0 <= i < 1024 -> pde demo_mem demo_dir2 i = 0.
Proof.
  intros Hi. unfold pde. rewrite demo_load by (unfold demo_dir2; zlia). unfold demo_dir2, demo_dir, demo_tab.
  by rewrite !(proj2 (Z.eqb_neq _ _)) by lia.
Qed.

Lemma demo_pte2 va : pte_val demo_mem demo_dir2 va = 0.
Proof. unfold pte_val. by rewrite demo_pde2 by apply PDX_range. Qed.

Lemma demo_table2 q : table_page demo_mem demo_dir2 q <-> q = demo_dir2.
Proof.
  split; [|by left]. intros [->|(i & Hi & Hp & _)]; [done|]. by rewrite demo_pde2 in Hp.
Qed.

(** Who owns what. *)
Lemma demo_owns o q : owns demo_mem [demo_dir; demo_dir2] [] o q ->
  (o = Table demo_dir /\ (q = demo_dir \/ q = demo_tab)) \/ (o = Table demo_dir2 /\ q = demo_dir2) \/
  (o = Frame demo_dir 0 /\ q = demo_frame).
Proof.
  destruct o as [d|d va|]; simpl.
  - intros [[->|[->|?%not_elem_of_nil]%elem_of_cons]%elem_of_cons Ht]; [| |done].
    + left. split; [done|]. by apply demo_table.
    + right. left. split; [done|]. by apply demo_table2.
  - intros ([->|[->|?%not_elem_of_nil]%elem_of_cons]%elem_of_cons & Hu & Hb & Hm & ->); [| |done].
    + rewrite demo_mapped in Hm by done. apply Z.eqb_eq in Hm as ->. right. right. split; [done|].
      unfold frame_of. by rewrite demo_pte.
    + unfold mapped in Hm. by rewrite demo_pte2 in Hm.
  - by intros ?%not_elem_of_nil.
Qed.

Lemma demo_space_inv : space_inv demo_space demo_fl [demo_dir; demo_dir2] [].
Proof.
  constructor; [apply demo_kmem| | |].
  - intros d [->|[->|?%not_elem_of_nil]%elem_of_cons]%elem_of_cons; [apply demo_uvm| |done].
    constructor; [by split| |]; intros i; [|intros k]; intros Hi; simpl; rewrite (demo_pde2 i Hi); done.
  - intros o q Ho%demo_owns.
    assert (q ∈ [demo_dir; demo_tab; demo_dir2; demo_frame]) as Hq
      by (destruct Ho as [[_ [->| ->]]|[[_ ->]|[_ ->]]]; apply (bool_decide_unpack _); reflexivity).
    repeat (apply elem_of_cons in Hq as [->|Hq]; [split; [by split|apply (bool_decide_unpack _); reflexivity]|]).
    by apply not_elem_of_nil in Hq.
  - intros o o' q Ho%demo_owns Ho'%demo_owns.
    destruct Ho as [[-> [->| ->]]|[[-> ->]|[-> ->]]], Ho' as [[-> [H|H]]|[[-> H]|[-> H]]]; done.
Qed.

Lemma demo_slot {A} (v d : A) (i : nat) : (i < 32)%nat -> nth i (replicate 32 v) d = v.
Proof. intros Hi. apply nth_lookup_Some, lookup_replicate. by split. Qed.

Lemma demo_free_slot y : (y < 32)%nat -> info_at demo_shm_table y = no_info /\ shkey_at demo_shm_table y = zero_key.
Proof. intros Hy. split; by apply demo_slot. Qed.

Lemma demo_proc_ok d : proc_ok (demo_proc d).
Proof.
  constructor; try done. apply Forall_replicate. split; [|done]. apply Forall_replicate. lia.
Qed.

Lemma demo_lookup j p : demo_kst.(procs) !! j = Some p ->
  (j = 0%nat /\ p = demo_proc demo_dir) \/ (j = 1%nat /\ p = demo_proc demo_dir2).
Proof. destruct j as [|[|j]]; simpl; intros [= <-]; auto. Qed.

Lemma demo_shm_inv : shm_inv demo_kst demo_fl [0; 1]%nat [].
Proof.
  assert (forall j : nat, j ∈ [0; 1]%nat -> exists p, procs demo_kst !! j = Some p /\ proc_ok p) as Hlive.
  { intros j [->|[->|?%not_elem_of_nil]%elem_of_cons]%elem_of_cons; [| |done];
      eexists; (split; [reflexivity|apply demo_proc_ok]). }
  assert (forall y, (y < 32)%nat -> shmem_addr (info_at demo_shm_table y) = 0) as Haddr.
  { intros y Hy. by destruct (demo_free_slot y Hy) as [-> _]. }
  constructor; change (sh_table demo_kst) with demo_shm_table.
  - apply demo_space_inv.
  - apply (bool_decide_unpack _). reflexivity.
  - exact Hlive.
  - intros j k p q _ _ [[-> ->]|[-> ->]]%demo_lookup [[-> ->]|[-> ->]]%demo_lookup; done.
  - done.
  - intros y Hy. unfold slot_ok. destruct (demo_free_slot y Hy) as [-> ->].
    split_and!; [|done..]. apply Forall_replicate. lia.
  - intros y z Hy Hz Hn. by rewrite Haddr in Hn.
  - intros y z Hy Hz Hn. by rewrite Haddr in Hn.
  - intros q Hq. apply not_elem_of_nil.
  - intros y Hy Hn. by rewrite Haddr in Hn.
  - intros j p i _ Hp Hi. unfold use_ok.
    assert (phy_at p i = 0) as -> by (destruct (demo_lookup j p Hp) as [[_ ->]|[_ ->]]; by apply demo_slot).
    destruct (win_upage i Hi) as [Hw Hb].
    destruct (demo_lookup j p Hp) as [[_ ->]|[_ ->]].
    + change (mapped demo_mem demo_dir (win i) = false).
      rewrite demo_mapped by done. apply Z.eqb_neq. unfold SHM_BASE in Hb. klia.
    + change (has (pte_val demo_mem demo_dir2 (win i)) PTE_P = false). by rewrite demo_pte2.
  - intros j p i _ Hp Hi Hn. exfalso. apply Hn.
    destruct (demo_lookup j p Hp) as [[_ ->]|[_ ->]]; by apply demo_slot.
Qed.

Lemma demo_clean t d : keys_clean t (demo_proc d).
Proof.
  intros i Hi. assert (phy_at (demo_proc d) i = 0) as -> by by apply demo_slot. split; [|done].
  intros _. by apply demo_slot.
Qed.

Lemma demo_distinct d : slots_distinct (demo_proc d).
Proof. intros i k Hi Hk Hn. destruct Hn. by apply demo_slot. Qed.

Lemma demo_exact d : bitmap_exact (demo_proc d).
Proof.
  intros i Hi. assert (phy_at (demo_proc d) i = 0) as -> by by apply demo_slot.
  by assert (bitmap_at (demo_proc d) i = 0) as -> by by apply demo_slot.
Qed.

Lemma demo_forked d d' : forked 0 (demo_proc d) (demo_proc d').
Proof.
  intros i Hi. assert (phy_at (demo_proc d') i = 0) as -> by by apply demo_slot.
  by assert (bitmap_at (demo_proc d') i = 0) as -> by by apply demo_slot.
Qed.

Lemma demo_key_arg : key_arg demo_key 1.
Proof. constructor; [|done|lia]. apply Forall_cons. split; [lia|]. apply Forall_replicate. lia. Qed.

End DemoShm.

Lemma demo_literals_ok : LiteralsOk demo_literals.
Proof. constructor; [simpl; lia|done|done]. Qed.

Lemma shmrem_key_drops_witness : exists r s',
  @shmrem demo_image demo_literals unit demo_key demo_kst = Ok r s'.
Proof.
  destruct (@shmrem_key_drops demo_image demo_image_ok demo_literals unit
    demo_kst demo_fl [0; 1]%nat [] 0 (demo_proc demo_dir) demo_key 52) as (r & s' & H & _);
    [apply demo_shm_inv|done|done|by left|done|apply demo_clean|by eapply key_arg_ok, demo_key_arg|done|done|].
  by exists r, s'.
Defined.

Lemma shmget_takes_page_witness : exists r s',
  @shmget unit exited demo_key demo_kst = Ok r s'.
Proof.
  destruct (@shmget_takes_page demo_image demo_image_ok unit exited
    demo_kst 0x80403000 0x80404000 [0x80406000] [0; 1]%nat [] 0 (demo_proc demo_dir) demo_key 1) as (r & s' & H & _);
    [apply demo_shm_inv|done|done|by left|done|apply demo_clean|apply demo_distinct|apply demo_key_arg| | |].
  - exists 0%nat. split; [lia|done].
  - intros ty Hty _. change (sh_table demo_kst) with demo_shm_table. by destruct (demo_free_slot ty Hty) as [-> _].
  - by exists r, s'.
Defined.

(** ** The first user of a key

    [taken]: the state after a call of [shmget] with an empty table. *)
Section Taken.
Context {I : KernelImage} {F : Type}.
Implicit Types s : kst F.

Record taken s s' (fl' : list Z) live oth (me i y : nat) (p : proc) (a : Z) (k key : list Z) : Prop := {
  tk_i : (i < 32)%nat;
  tk_y : (y < 32)%nat;
  tk_got : got_rel s s' me i y p a k key;
  tk_inv : shm_inv s' fl' live oth;
  tk_clean : keys_clean (sh_table s') (add_proc i a k p);
  tk_distinct : slots_distinct (add_proc i a k p);
  tk_info : info_at (sh_table s') y = mk_info a 1;
  tk_others : forall z, (z < 32)%nat -> z <> y -> shmem_addr (info_at (sh_table s') z) = 0;
}.

Lemma first_user s fl live oth me p key r s' :
  shm_inv s fl live oth -> key_ok key -> (forall z, (z < 32)%nat -> shmem_addr (info_at (sh_table s) z) = 0) ->
  shmget_post s live oth me p key r s' ->
  exists i y a k fl', r = win i /\ taken s s' fl' live oth me i y p a k key.
Proof.
  intros Hinv Hko Hempty. assert (forall z, (z < 32)%nat -> shmem_counter (info_at (sh_table s) z) = 0 /\
    shkey_at (sh_table s) z = zero_key) as Hslot.
  { intros z Hz. destruct (sv_slots _ _ _ _ Hinv z Hz) as (_ & _ & Hs). by rewrite Hempty in Hs. }
  intros [(ps & ty & _ & Hty & _ & Hk & _)|(i & y & a & k & fl' & Hi & Hy & Hr & Hg & Hinv' & Hcl & Hdis & _)].
  { destruct (Hslot ty Hty) as [_ E]. rewrite E, cstr_zero_key in Hk. by destruct (ko_text _ Hko). }
  exists i, y, a, k, fl'. split; [done|]. constructor; try done.
  - rewrite (gr_slot _ _ _ _ _ _ _ _ _ Hg). by destruct (Hslot y Hy) as [-> _].
  - intros z Hz Hne. destruct (gr_others _ _ _ _ _ _ _ _ _ Hg z Hz Hne) as [-> _]. by apply Hempty.
Qed.

(** No process holds a page: the table is empty. *)
Lemma no_user s fl live oth : shm_inv s fl live oth ->
  (forall j p i, j ∈ live -> procs s !! j = Some p -> (i < 32)%nat -> phy_at p i = 0) ->
  forall z, (z < 32)%nat -> shmem_addr (info_at (sh_table s) z) = 0.
Proof.
  intros Hinv Hno z Hz. destruct (Z.eq_dec (shmem_addr (info_at (sh_table s) z)) 0) as [|Hn]; [done|].
  destruct (shared_in_use s fl live oth (shmem_addr (info_at (sh_table s) z)) Hinv) as (j & p & i & Hj & Hp & Hi & He).
  - apply elem_of_shared; [apply Hinv|]. split; [done|by exists z].
  - rewrite <- He. by apply (Hno j).
Qed.

(** Two pages are free. *)
Lemma two_free k fl : kmem_inv k fl -> freelist k <> 0 -> load32 (mem k) (freelist k) <> 0 ->
  exists q q' l, fl = q :: q' :: l.
Proof.
  intros [_ Hl _ _] H1 H2. inversion Hl as [E|q l Hq Hl' E]; subst; [by destruct H1|].
  inversion Hl' as [E|q' l' Hq' Hl'' E]; subst; [by destruct H2|]. by exists (freelist k), (load32 (mem k) (freelist k)), l'.
Qed.
End Taken.

(** Process 0 takes a page in [demo_kst]. *)
Lemma demo_taken : exists s' i y a k fl',
  @shmget unit exited demo_key demo_kst = Ok (win i) s' /\
  @taken demo_image unit demo_kst s' fl' [0; 1]%nat [] 0 i y (demo_proc demo_dir) a k demo_key.
Proof.
  assert (wp (shmget exited demo_key) (@shmget_post demo_image unit demo_kst [0; 1]%nat [] 0 (demo_proc demo_dir) demo_key)
    demo_kst) as Hwp.
  { apply (@wp_shmget demo_image demo_image_ok unit exited demo_kst 0x80403000 0x80404000 [0x80406000] [0; 1]%nat [] 0
      (demo_proc demo_dir) demo_key 1);
      [apply demo_shm_inv|done|done|by left|done|apply demo_clean|apply demo_distinct|apply demo_key_arg| |].
    - exists 0%nat. split; [lia|done].
    - intros ty Hty _. change (sh_table demo_kst) with demo_shm_table. by destruct (demo_free_slot ty Hty) as [-> _]. }
  destruct (proj1 (wp_ok _ _ _) Hwp) as (r & s' & Hr & Hpost). clear Hwp. revert Hr.
  apply (@first_user demo_image unit demo_kst demo_fl) in Hpost as (i & y & a & k & fl' & -> & Ht).
  - intros Hr. exists s', i, y, a, k, fl'. split; [exact Hr|exact Ht].
  - apply demo_shm_inv.
  - eapply key_arg_ok, demo_key_arg.
  - intros z Hz. change (sh_table demo_kst) with demo_shm_table. by destruct (demo_free_slot z Hz) as [-> _].
Qed.

Section DemoTaken.
#[local] Existing Instance demo_image.
#[local] Existing Instance demo_image_ok.
Context (s' : kst unit) (i y : nat) (a : Z) (k : list Z) (fl' : list Z).
Hypothesis Ht : taken demo_kst s' fl' [0; 1]%nat [] 0 i y (demo_proc demo_dir) a k demo_key.
Let pp := add_proc i a k (demo_proc demo_dir).

Lemma demo_procs : procs s' = [pp; demo_proc demo_dir2].
Proof. by rewrite (gr_procs _ _ _ _ _ _ _ _ _ (tk_got _ _ _ _ _ _ _ _ _ _ _ _ Ht)). Qed.

Lemma demo_page_nonzero : a <> 0.
Proof. apply (gr_addr _ _ _ _ _ _ _ _ _ (tk_got _ _ _ _ _ _ _ _ _ _ _ _ Ht)). Qed.

Lemma demo_at z : phy_at pp z = (if decide (z = i) then a else phy_at (demo_proc demo_dir) z) /\
  bitmap_at pp z = (if decide (z = i) then 1 else bitmap_at (demo_proc demo_dir) z).
Proof.
  destruct (add_proc_at i a k (demo_proc demo_dir) z (demo_proc_ok _) (tk_i _ _ _ _ _ _ _ _ _ _ _ _ Ht)) as (? & _ & _ & ?).
  done.
Qed.

Lemma demo_key_at : cstr 16 (pkey_at pp i) = cstr 16 demo_key.
Proof.
  destruct (add_proc_at i a k (demo_proc demo_dir) i (demo_proc_ok _) (tk_i _ _ _ _ _ _ _ _ _ _ _ _ Ht)) as (_ & _ & H & _).
  unfold pp. rewrite H. destruct (decide (i = i)); [|done].
  apply (gr_key _ _ _ _ _ _ _ _ _ (tk_got _ _ _ _ _ _ _ _ _ _ _ _ Ht)).
Qed.

Lemma demo_taken_exact : bitmap_exact pp.
Proof.
  intros z Hz. destruct (demo_at z) as [-> ->]. destruct (decide (z = i)); [|by apply demo_exact].
  by rewrite (proj2 (Z.eqb_neq _ _) demo_page_nonzero).
Qed.

Lemma demo_unlocked : sh_locked s' = false.
Proof. by rewrite (gr_lock _ _ _ _ _ _ _ _ _ (tk_got _ _ _ _ _ _ _ _ _ _ _ _ Ht)). Qed.

Lemma demo_shared : a ∈ shared (sh_table s').
Proof.
  apply elem_of_shared; [apply (tk_inv _ _ _ _ _ _ _ _ _ _ _ _ Ht)|]. split; [apply demo_page_nonzero|]. exists y.
  split; [apply Ht|]. by rewrite (tk_info _ _ _ _ _ _ _ _ _ _ _ _ Ht).
Qed.

Lemma demo_other_bits z : (z < 32)%nat -> z <> i -> bitmap_at pp z <> 1.
Proof.
  intros Hz Hne. destruct (demo_at z) as [_ ->]. destruct (decide (z = i)); [done|].
  by assert (bitmap_at (demo_proc demo_dir) z = 0) as -> by by apply demo_slot.
Qed.
End DemoTaken.

Lemma shmrem_exit_releases_witness : exists s' s'' i a,
  @shmget unit exited demo_key demo_kst = Ok (win i) s' /\ a ∈ shared (sh_table s') /\
  @shmrem demo_image demo_literals unit (@lit_exit demo_literals) s' = Ok 1 s'' /\ a ∉ shared (sh_table s'').
Proof.
  destruct demo_taken as (s' & i & y & a & k & fl' & Hr & Ht). revert Hr.
  destruct (@shmrem_exit_releases demo_image demo_image_ok demo_literals unit demo_literals_ok
    s' fl' [0; 1]%nat [] 0 (add_proc i a k (demo_proc demo_dir))) as (s'' & _ & H & _ & _ & _ & _ & Hsh & _).
  - apply Ht.
  - by rewrite (gr_cur _ _ _ _ _ _ _ _ _ (tk_got _ _ _ _ _ _ _ _ _ _ _ _ Ht)).
  - by eapply demo_unlocked.
  - by left.
  - by rewrite (demo_procs _ _ _ _ _ _ Ht).
  - intros Hr. exists s', s'', i, a. split; [exact Hr|]. clear Hr. split_and!; [by eapply demo_shared|exact H|].
    intros [_ (j & q & z & Hj & Hne & Hq & Hz & He)]%Hsh. rewrite (demo_procs _ _ _ _ _ _ Ht) in Hq.
    destruct j as [|[|j]]; [done|injection Hq as <-|done].
    apply (demo_page_nonzero _ _ _ _ _ _ Ht). rewrite <- He. by apply demo_slot.
Defined.

(** The runs of the witnesses below return. *)
Definition returns {S A} (r : res S A) (f : S -> bool) : bool :=
  match r with Ok _ s => f s | _ => false end.

Lemma returns_ok {S A} (r : res S A) f : returns r f = true -> exists a s, r = Ok a s /\ f s = true.
Proof. destruct r; simpl; try done. eauto. Qed.

Lemma demo_fork_returns : returns ((shmget exited demo_key ;;; manage_fork exited 0 1) demo_kst) (fun _ => true) = true.
Proof. vm_compute. reflexivity. Qed.

(** The parent holds one page; afterwards the child has it and it is counted
    twice. *)
Lemma manage_fork_shares_witness : exists s' s'' i y a cc,
  @shmget unit exited demo_key demo_kst = Ok (win i) s' /\ manage_fork exited 0 1 s' = Ok tt s'' /\
  a <> 0 /\ info_at (sh_table s') y = mk_info a 1 /\ info_at (sh_table s'') y = mk_info a 2 /\
  procs s'' !! 1%nat = Some cc /\ phy_at cc i = a.
Proof.
  destruct demo_taken as (s' & i & y & a & k & fl' & Hr & Ht).
  destruct (returns_ok _ _ demo_fork_returns) as ([] & s'' & Hrun & _).
  rewrite (bind_ok _ _ _ _ _ Hr) in Hrun. revert Hr.
  assert (phy_at (add_proc i a k (demo_proc demo_dir)) i = a) as Hphy.
  { destruct (demo_at _ _ _ _ _ _ Ht i) as [-> _]. by destruct (decide (i = i)). }
  pose proof (@manage_fork_shares demo_image demo_image_ok unit exited s' fl' [0; 1]%nat [] 0 1
    (add_proc i a k (demo_proc demo_dir)) (demo_proc demo_dir2)) as H. rewrite Hrun in H.
  destruct H as (fl'' & cc & _ & Hps & Hf & Hcnt).
  - apply Ht.
  - by left.
  - by right; left.
  - done.
  - by rewrite (demo_procs _ _ _ _ _ _ Ht).
  - by rewrite (demo_procs _ _ _ _ _ _ Ht).
  - by eapply demo_taken_exact.
  - apply Ht.
  - intros z Hz. destruct (demo_forked demo_dir demo_dir2 z Hz) as (-> & -> & _). done.
  - intros z Hz Hh. destruct (decide (z = y)) as [->|Hne].
    + by rewrite (tk_info _ _ _ _ _ _ _ _ _ _ _ _ Ht).
    + by rewrite (tk_others _ _ _ _ _ _ _ _ _ _ _ _ Ht z Hz Hne) in Hh.
  - destruct (Hcnt y) as [_ Hy]; [apply Ht|]. rewrite (tk_info _ _ _ _ _ _ _ _ _ _ _ _ Ht) in Hy. simpl in Hy.
    destruct (Hf i) as [Hcc _]; [apply Ht|]. pose proof (tk_i _ _ _ _ _ _ _ _ _ _ _ _ Ht) as Hi.
    destruct (decide (i < 32)%nat); [|lia].
    intros Hr. exists s', s'', i, y, a, cc. split; [exact Hr|]. clear Hr.
    split_and!; [exact Hrun|by eapply demo_page_nonzero|apply Ht| | |by rewrite Hcc].
    + rewrite Hy. f_equal. unfold holds. rewrite (proj2 (Z.eqb_neq _ _) (demo_page_nonzero _ _ _ _ _ _ Ht)).
      rewrite (proj2 (existsb_exists _ _)); [done|]. exists i. split; [apply in_seq; lia|]. rewrite Hphy. apply Z.eqb_refl.
    + rewrite Hps, (demo_procs _ _ _ _ _ _ Ht). done.
Defined.

(** The page of the only process is compared with itself. *)
Lemma same_key_same_page_witness : exists (s : kst unit) p i,
  cstr 16 (pkey_at p i) = cstr 16 (pkey_at p i) <->
  translate (mem (km s)) (pgdir p) (win i) = translate (mem (km s)) (pgdir p) (win i).
Proof.
  destruct demo_taken as (s' & i & y & a & k & fl' & _ & Ht).
  assert (phy_at (add_proc i a k (demo_proc demo_dir)) i <> 0) as Hphy.
  { destruct (demo_at _ _ _ _ _ _ Ht i) as [-> _]. destruct (decide (i = i)); [by eapply demo_page_nonzero|done]. }
  exists s', (add_proc i a k (demo_proc demo_dir)), i.
  apply (@same_key_same_page demo_image demo_image_ok unit s' fl' [0; 1]%nat [] 0 0); try done; try apply Ht;
    try (by left); by rewrite (demo_procs _ _ _ _ _ _ Ht).
Defined.

(** After the page was given up again, two pages are free and so is the table. *)
Definition demo_ready (s : kst unit) : bool :=
  negb (freelist (km s) =? 0) && negb (load32 (mem (km s)) (freelist (km s)) =? 0) &&
  (shmem_addr (info_at (sh_table s) 0) =? 0).

Lemma demo_given_up : returns ((shmget exited demo_key ;;;
  run_as 0 (@shmrem demo_image demo_literals unit demo_key)) demo_kst) demo_ready = true.
Proof. vm_compute. reflexivity. Qed.

Lemma demo_ready_pages s fl : @kmem_inv demo_image (km s) fl -> demo_ready s = true ->
  (exists q q' l, fl = q :: q' :: l) /\ shmem_addr (info_at (sh_table s) 0) = 0.
Proof.
  intros Hk [[H1%negb_true_iff%Z.eqb_neq H2%negb_true_iff%Z.eqb_neq]%andb_true_iff H3%Z.eqb_eq]%andb_true_iff.
  split; [by apply (@two_free demo_image (km s))|done].
Qed.

Lemma demo_no_bits d : no_bits (demo_proc d).
Proof. intros z Hz. by assert (bitmap_at (demo_proc d) z = 0) as -> by by apply demo_slot. Qed.

(** Process 0 takes a page and gives it up; process 1 is its child. *)
Lemma fork_after_shmrem_panics_witness : exists s' s1 s3 r i,
  @shmget unit exited demo_key demo_kst = Ok (win i) s' /\
  run_as 0 (@shmrem demo_image demo_literals unit demo_key) s' = Ok r s1 /\
  (run_as 0 (manage_fork exited 0 1) ;;;
   run_as 1 (@shmrem demo_image demo_literals unit (@lit_exit demo_literals))) s1 = Panic "kfree" s3.
Proof.
  destruct demo_taken as (s' & i & y & a & k & fl' & Hr & Ht).
  destruct (returns_ok _ _ demo_given_up) as (r0 & s0 & Hrun & Hready).
  rewrite (bind_ok _ _ _ _ _ Hr) in Hrun. revert Hr.
  destruct (@fork_after_shmrem_panics demo_image demo_image_ok demo_literals unit exited demo_literals_ok
    s' fl' [0; 1]%nat [] 0 (add_proc i a k (demo_proc demo_dir)) demo_key 52 y i)
    as (r & s1 & fl1 & Hr1 & Hinv1 & Hps1 & Hlk1 & Hpanic); [..|revert Hr1; rewrite Hrun; intros [= <- <-]].
  - apply Ht.
  - by left.
  - by rewrite (demo_procs _ _ _ _ _ _ Ht).
  - by eapply demo_unlocked.
  - apply Ht.
  - eapply key_arg_ok, demo_key_arg.
  - done.
  - done.
  - apply Ht.
  - apply Ht.
  - apply (gr_key _ _ _ _ _ _ _ _ _ (tk_got _ _ _ _ _ _ _ _ _ _ _ _ Ht)).
  - by eapply demo_key_at.
  - intros z. by eapply demo_other_bits.
  - rewrite (demo_procs _ _ _ _ _ _ Ht) in Hps1.
    destruct (demo_ready_pages s0 fl1) as [(q & q' & l & ->) Hfree]; [apply Hinv1|exact Hready|].
    destruct (Hpanic s0 (q :: q' :: l) [0; 1]%nat [] 1%nat (demo_proc demo_dir2)
      (rem_proc (r0 =? 0) i (add_proc i a k (demo_proc demo_dir)))) as (s3 & Hs3).
    + exact Hinv1.
    + by left.
    + by right; left.
    + lia.
    + by rewrite Hps1.
    + reflexivity.
    + by rewrite Hps1.
    + apply demo_no_bits.
    + exact Hlk1.
    + lia || intros [=].
    + exists 0%nat. split; [lia|exact Hfree].
    + intros Hr. exists s', s0, s3, r0, i. split_and!; [exact Hr|exact Hrun|exact Hs3].
Defined.

(** The address space of process 0 keeps its first page table when process 1
    takes a page under the key that process 0 gave up. *)
Lemma demo_retaken : returns ((shmget exited demo_key ;;;
  run_as 0 (@shmrem demo_image demo_literals unit demo_key) ;;; run_as 1 (shmget exited demo_key)) demo_kst)
  (fun s => has (pde (mem (km s)) demo_dir (PDX 0)) PTE_P) = true.
Proof. vm_compute. reflexivity. Qed.

Lemma demo_retake s0 fl q q' l p0 : @shm_inv demo_image unit s0 fl [0; 1]%nat [] -> fl = q :: q' :: l ->
  procs s0 = [p0; demo_proc demo_dir2] -> sh_locked s0 = false -> (forall z, (z < 32)%nat -> phy_at p0 z = 0) ->
  exists s2 i y a k fl', run_as 1 (shmget exited demo_key) s0 = Ok (win i) s2 /\
    @taken demo_image unit (set_cur 1 s0) s2 fl' [0; 1]%nat [] 1 i y (demo_proc demo_dir2) a k demo_key.
Proof.
  intros Hinv -> Hps Hlk H0. pose proof (shm_inv_cur s0 1 _ _ _ Hinv) as Hinv1.
  assert (forall z, (z < 32)%nat -> shmem_addr (info_at (sh_table (set_cur 1 s0)) z) = 0) as Hempty.
  { eapply (@no_user demo_image unit); [exact Hinv1|]. intros [|[|j]] p i _ Hp Hi.
    - simpl in Hp. rewrite Hps in Hp. injection Hp as <-. by apply H0.
    - simpl in Hp. rewrite Hps in Hp. injection Hp as <-. by apply demo_slot.
    - simpl in Hp. by rewrite Hps in Hp. }
  assert (wp (run_as 1 (shmget exited demo_key)) (@shmget_post demo_image unit (set_cur 1 s0) [0; 1]%nat [] 1
    (demo_proc demo_dir2) demo_key) s0) as Hwp.
  { unfold run_as. do 2 wp_step.
    apply (@wp_shmget demo_image demo_image_ok unit exited (set_cur 1 s0) q q' l [0; 1]%nat [] 1 (demo_proc demo_dir2) demo_key 1);
      [done|done|done|by right; left|by simpl; rewrite Hps|apply demo_clean|apply demo_distinct|apply demo_key_arg| |].
    - exists 0%nat. split; [lia|]. apply Hempty. lia.
    - intros ty Hty _. destruct (sv_slots _ _ _ _ Hinv1 ty Hty) as (_ & _ & Hs). rewrite Hempty in Hs by done.
      destruct Hs as [-> _]. done. }
  destruct (proj1 (wp_ok _ _ _) Hwp) as (r & s2 & Hr & Hpost). clear Hwp.
  apply (@first_user demo_image unit (set_cur 1 s0) (q :: q' :: l)) in Hpost as (i & y & a & k & fl' & -> & Ht); [|done| |done].
  - by exists s2, i, y, a, k, fl'.
  - eapply key_arg_ok, demo_key_arg.
Qed.

(** Process 0 takes a page and gives it up, process 1 takes a page under the
    same key, and process 0 calls [shmrem] again. *)
Lemma stale_key_frees_foreign_page_witness : exists s' s1 s2 s3 i i2 a2,
  @shmget unit exited demo_key demo_kst = Ok (win i) s' /\
  run_as 0 (@shmrem demo_image demo_literals unit demo_key) s' = Ok 0 s1 /\
  run_as 1 (shmget exited demo_key) s1 = Ok (win i2) s2 /\
  run_as 0 (@shmrem demo_image demo_literals unit demo_key) s2 = Ok 0 s3 /\
  mapped (mem (km s3)) demo_dir2 (win i2) = true /\ frame_of (mem (km s3)) demo_dir2 (win i2) = a2 /\
  exists fl, @kmem_inv demo_image (km s3) (a2 :: fl).
Proof.
  destruct demo_taken as (s' & i & y & a & k & fl' & Hr & Ht).
  destruct (returns_ok _ _ demo_given_up) as (r0 & s0 & Hrun & Hready).
  destruct (returns_ok _ _ demo_retaken) as (r4 & s4 & Hrun4 & Htab).
  rewrite (bind_ok _ _ _ _ _ Hr) in Hrun. rewrite (bind_ok _ _ _ _ _ Hr) in Hrun4. rewrite (bind_ok _ _ _ _ _ Hrun) in Hrun4. revert Hr.
  destruct (@stale_key_frees_foreign_page demo_image demo_image_ok demo_literals unit
    s' fl' [0; 1]%nat [] 0 (add_proc i a k (demo_proc demo_dir)) demo_key 52 y i)
    as (s1 & fl1 & Hr1 & Hinv1 & Hps1 & Hlk1 & _ & Hfree); [..|revert Hr1; rewrite Hrun; intros [= -> <-]].
  - apply Ht.
  - by left.
  - by rewrite (demo_procs _ _ _ _ _ _ Ht).
  - by eapply demo_unlocked.
  - apply Ht.
  - apply Ht.
  - eapply key_arg_ok, demo_key_arg.
  - done.
  - done.
  - apply Ht.
  - apply Ht.
  - apply (gr_key _ _ _ _ _ _ _ _ _ (tk_got _ _ _ _ _ _ _ _ _ _ _ _ Ht)).
  - by eapply demo_key_at.
  - by rewrite (tk_info _ _ _ _ _ _ _ _ _ _ _ _ Ht).
  - rewrite (demo_procs _ _ _ _ _ _ Ht) in Hps1.
    destruct (demo_ready_pages s0 fl1) as [(q & q' & l & Hfl) _]; [apply Hinv1|exact Hready|].
    destruct (demo_retake s0 fl1 q q' l _ Hinv1 Hfl Hps1 Hlk1) as (s2 & i2 & y2 & a2 & k2 & fl2 & Hr2 & Ht2).
    { intros z Hz. unfold phy_at. simpl. rewrite nth_insert by (simpl; rewrite !length_insert; apply Ht).
      destruct (decide (z = i)); [done|]. destruct (demo_at _ _ _ _ _ _ Ht z) as [H _]. unfold phy_at in H. simpl in H.
      rewrite H. destruct (decide (z = i)); [done|]. by apply demo_slot. }
    rewrite Hr2 in Hrun4. injection Hrun4 as <- <-.
    pose proof (gr_procs _ _ _ _ _ _ _ _ _ (tk_got _ _ _ _ _ _ _ _ _ _ _ _ Ht2)) as Hps2. simpl in Hps2. rewrite Hps1 in Hps2.
    assert (phy_at (add_proc i2 a2 k2 (demo_proc demo_dir2)) i2 = a2) as Hphy.
    { destruct (add_proc_at i2 a2 k2 (demo_proc demo_dir2) i2 (demo_proc_ok _)) as (-> & _); [apply Ht2|]. by destruct (decide (i2 = i2)). }
    destruct (Hfree s2 fl2 [0; 1]%nat [] 1%nat (rem_proc true i (add_proc i a k (demo_proc demo_dir)))
      (add_proc i2 a2 k2 (demo_proc demo_dir2)) i2 y2) as (s3 & Hs3 & [F1 F2 F3 _ _]).
    + apply Ht2.
    + by left.
    + by right; left.
    + lia.
    + by rewrite Hps2.
    + reflexivity.
    + by rewrite Hps2.
    + by rewrite (gr_lock _ _ _ _ _ _ _ _ _ (tk_got _ _ _ _ _ _ _ _ _ _ _ _ Ht2)).
    + apply Ht2.
    + apply Ht2.
    + apply (gr_key _ _ _ _ _ _ _ _ _ (tk_got _ _ _ _ _ _ _ _ _ _ _ _ Ht2)).
    + rewrite Hphy. apply (gr_addr _ _ _ _ _ _ _ _ _ (tk_got _ _ _ _ _ _ _ _ _ _ _ _ Ht2)).
    + rewrite Hphy. apply Ht2.
    + exact Htab.
    + rewrite Hphy in F1, F3. intros Hr. exists s', s0, s2, s3, i, i2, a2.
      split_and!; [exact Hr|exact Hrun|exact Hr2|exact Hs3|exact F2|exact F3|by exists fl2].
Defined.
