(* ===== verification/Proc.v ===== *)
(** * [proc.c]: processes (definitions)

    Operations on the process table, [sleep] and [wakeup], and the process
    system calls.  The code of one process is a computation over [kst]; at
    [sched] it gives up the processor and its continuation waits in the
    process table's place for the scheduler.  The trap frame and the context
    of a process are bytes of its kernel stack.

    [cur] stands for [mycpu()->proc] and is a process whenever kernel code runs
    for one, so the null checks on it ([sleep]'s first) have no counterpart. *)
From Stdlib Require Import ZArith Lia Bool.
From stdpp Require Import base list strings.
From S2P Require Import Prelude Machine Cstring Kalloc Vm Kstate Shm Segments.

(** Addresses fixed by the linker, and the bytes of [initcode.S]. *)
Class ProcImage : Type := {
  ptable_proc : Z;
  trapret_addr : Z;
  forkret_addr : Z;
  initcode : list Z;
  cpu_ts : Z;  (* the task state of the processor *)
}.

(** Some addresses, for examples. *)
Definition demo_proc_image : ProcImage :=
  {| ptable_proc := 0x80112d54; trapret_addr := 0x80105a2f; forkret_addr := 0x80103e50; initcode := []; cpu_ts := 0x80112788 |}.

(** ** Layout *)
Definition sizeof_proc : Z := 928.
Definition sizeof_trapframe : Z := 76.
Definition sizeof_context : Z := 20.
Definition tf_eax : Z := 28.
Definition tf_es : Z := 40.
Definition tf_ds : Z := 44.
Definition tf_eip : Z := 56.
Definition tf_cs : Z := 60.
Definition tf_eflags : Z := 64.
Definition tf_esp : Z := 68.
Definition tf_ss : Z := 72.
Definition ctx_eip : Z := 16.

(** A store to an [ushort] field. *)
Definition write16 (a v : Z) : M kmem_t unit :=
  modify (fun s => set_mem (store8 (store8 (mem s) a v) (a + 1) (Z.shiftr v 8)) s).
Definition read16 (a : Z) : M kmem_t Z := gets (fun s => load8 (mem s) a + 256 * load8 (mem s) (a + 1)).

Definition NPROCS : nat := 64.
Definition NOFILES : nat := 16.

Section Proc.
Context {I : KernelImage} {L : Literals} {P : ProcImage} {F : Type} {FL : FsLocks F} {FO : FsOps F}.
Abbreviation K := (M (kst F)).

(** The address of a process, which [wait] and [exit] use as a channel. *)
Definition proc_addr (i : nat) : Z := ptable_proc + sizeof_proc * Z.of_nat i.
Definition proc_ptr (o : option nat) : Z := match o with Some i => proc_addr i | None => 0 end.

Definition acquire_ptable : K unit := acquire_flag ptable_lock set_ptable_lock.
Definition release_ptable : K unit := release_flag ptable_lock set_ptable_lock.

(** The nesting depth of [pushcli] is the number of locks held. *)
Definition ncli_of (s : kst F) : Z :=
  Z.b2z (ptable_lock s) + Z.b2z (sh_locked s) + Z.b2z (kmem_lock (km s)) + fs_locks (fs s).

(** ** Address-space switches of [vm.c] *)
Definition switchuvm (i : nat) : K unit :=
  p <- get_proc i ;;
  if kstack p =? 0 then panic "switchuvm: no kstack"
  else if pgdir p =? 0 then panic "switchuvm: no pgdir"
  else modify (fun s => set_hw (mk_regs (V2P (pgdir p)) (Z.shiftl SEG_KDATA 3) (u32 (kstack p + KSTACKSIZE))
                                  0xFFFF (Z.shiftl SEG_TSS 3) (kpgdir (hw s)) (tss_desc cpu_ts)) s).
Definition switchkvm : K unit :=
  modify (fun s => let h := hw s in
    set_hw (mk_regs (V2P (kpgdir h)) (ts_ss0 h) (ts_esp0 h) (ts_iomb h) (task_reg h) (kpgdir h) (gdt_tss h)) s).
Definition kvmalloc : K unit :=
  d <- on_mem setupkvm ;;
  modify (fun s => let h := hw s in set_hw (mk_regs (cr3 h) (ts_ss0 h) (ts_esp0 h) (ts_iomb h) (task_reg h) d (gdt_tss h)) s) ;;;
  switchkvm.

(** ** Creating processes *)
Definition clear_shm (i : nat) : K unit :=
  for_range SHMEM_PAGES 0 (fun y =>
    upd_pshm i (set_phy y 0) ;;;
    upd_pshm i (set_vm y 0) ;;;
    upd_pshm i (set_bitmap y 0) ;;;
    upd_pshm i (set_pkey y zero_key)).

Definition allocproc : K (option nat) :=
  acquire_ptable ;;;
  found <- for_find NPROCS 0 (fun i =>
    p <- get_proc i ;;
    ret (if decide (state p = UNUSED) then Some i else None)) ;;
  match found with
  | None => release_ptable ;;; ret None
  | Some i =>
      upd_proc i (set_state EMBRYO) ;;;
      n <- gets nextpid ;;
      upd_proc i (set_pid n) ;;;
      modify (set_nextpid (i32 (n + 1))) ;;;
      release_ptable ;;;
      ks <- on_mem kalloc ;;
      upd_proc i (set_kstack ks) ;;;
      if ks =? 0 then upd_proc i (set_state UNUSED) ;;; ret None
      else
        let sp := ks + KSTACKSIZE - sizeof_trapframe in
        upd_proc i (set_tf sp) ;;;
        let sp := sp - 4 in
        on_mem (write32 sp trapret_addr) ;;;
        let sp := sp - sizeof_context in
        upd_proc i (set_context sp) ;;;
        on_mem (memsetM sp 0 sizeof_context) ;;;
        on_mem (write32 (sp + ctx_eip) forkret_addr) ;;;
        clear_shm i ;;;
        ret (Some i)
  end.

Definition root_path : list Z := [47; 0].
Definition initcode_name : list Z := [105; 110; 105; 116; 99; 111; 100; 101; 0].

Definition userinit : K unit :=
  r <- allocproc ;;
  modify (set_initproc r) ;;;
  match r with
  | None => fault "userinit: null process"
  | Some i =>
      d <- on_mem setupkvm ;;
      upd_proc i (set_pgdir d) ;;;
      if d =? 0 then panic "userinit: out of memory?"
      else
        on_mem (inituvm d initcode (Z.of_nat (length initcode))) ;;;
        upd_proc i (set_sz PGSIZE) ;;;
        p <- get_proc i ;;
        let t := tf p in
        on_mem (memsetM t 0 sizeof_trapframe) ;;;
        on_mem (write16 (t + tf_cs) (Z.lor (Z.shiftl SEG_UCODE 3) DPL_USER)) ;;;
        on_mem (write16 (t + tf_ds) (Z.lor (Z.shiftl SEG_UDATA 3) DPL_USER)) ;;;
        ds <- on_mem (read16 (t + tf_ds)) ;;
        on_mem (write16 (t + tf_es) ds) ;;;
        on_mem (write16 (t + tf_ss) ds) ;;;
        on_mem (write32 (t + tf_eflags) FL_IF) ;;;
        on_mem (write32 (t + tf_esp) PGSIZE) ;;;
        on_mem (write32 (t + tf_eip) 0) ;;;
        nm <- of_option (safestrcpy (name p) initcode_name 16) ;;
        upd_proc i (set_name nm) ;;;
        c <- namei root_path ;;
        upd_proc i (set_cwd c) ;;;
        acquire_ptable ;;;
        upd_proc i (set_state RUNNABLE) ;;;
        release_ptable
  end.

Definition growproc (n : Z) : K Z :=
  me <- myproc ;;
  p <- get_proc me ;;
  r <- (if 0 <? n then on_mem (allocuvm (pgdir p) (sz p) (u32 (sz p + n)))
        else if n <? 0 then on_mem (deallocuvm (pgdir p) (sz p) (u32 (sz p + n)))
        else ret (sz p)) ;;
  if negb (n =? 0) && (r =? 0) then ret (-1)
  else
    upd_proc me (set_sz r) ;;;
    switchuvm me ;;;
    ret 0.

(** ** Sleeping and waking *)
(** The check of the interrupt flag is left out: it is off while a spin lock is
    held, which the invariant of [Spinlock] shows. *)
Definition sched : K unit :=
  me <- myproc ;;
  p <- get_proc me ;;
  l <- gets ptable_lock ;;
  if negb l then panic "sched ptable.lock"
  else
    n <- gets ncli_of ;;
    if negb (n =? 1) then panic "sched locks"
    else if decide (state p = RUNNING) then panic "sched running"
    else sleep_on (chan p).

Definition yield : K unit :=
  acquire_ptable ;;;
  me <- myproc ;;
  upd_proc me (set_state RUNNABLE) ;;;
  sched ;;;
  release_ptable.

(** A lock other than [ptable.lock], by its operations. *)
Record lockref : Type := mk_lockref { lk_acquire : K unit; lk_release : K unit }.

(** [sleep(chan, lk)]; [None] is [&ptable.lock]. *)
Definition sleep (c : Z) (lk : option lockref) : K unit :=
  me <- myproc ;;
  match lk with
  | Some l => acquire_ptable ;;; lk_release l
  | None => ret tt
  end ;;;
  upd_proc me (set_chan c) ;;;
  upd_proc me (set_state SLEEPING) ;;;
  sched ;;;
  upd_proc me (set_chan 0) ;;;
  match lk with
  | Some l => release_ptable ;;; lk_acquire l
  | None => ret tt
  end.

Definition wakeup1 (c : Z) : K unit :=
  for_range NPROCS 0 (fun i =>
    p <- get_proc i ;;
    when (bool_decide (state p = SLEEPING) && (chan p =? c)) (upd_proc i (set_state RUNNABLE))).

Definition wakeup (c : Z) : K unit :=
  acquire_ptable ;;; wakeup1 c ;;; release_ptable.

Definition kill (pd : Z) : K Z :=
  acquire_ptable ;;;
  r <- for_find NPROCS 0 (fun i =>
    p <- get_proc i ;;
    if pid p =? pd then
      upd_proc i (set_killed true) ;;;
      when (bool_decide (state p = SLEEPING)) (upd_proc i (set_state RUNNABLE)) ;;;
      release_ptable ;;;
      ret (Some tt)
    else ret None) ;;
  match r with
  | Some _ => ret 0
  | None => release_ptable ;;; ret (-1)
  end.

(** ** [exit], [fork], [wait] *)
Definition close_files (me : nat) : K unit :=
  for_range NOFILES 0 (fun fd =>
    p <- get_proc me ;;
    let f := nth fd (ofile p) 0 in
    when (negb (f =? 0)) (
      fileclose f ;;;
      upd_proc me (fun p => set_ofile (<[fd := 0]> (ofile p)) p))).

(** The part of [exit] under [ptable.lock]. *)
Definition exit_finish (me : nat) : K unit :=
  acquire_ptable ;;;
  p <- get_proc me ;;
  wakeup1 (proc_ptr (parent p)) ;;;
  for_range NPROCS 0 (fun i =>
    q <- get_proc i ;;
    when (bool_decide (parent q = Some me)) (
      ini <- gets initproc ;;
      upd_proc i (set_parent ini) ;;;
      when (bool_decide (state q = ZOMBIE)) (wakeup1 (proc_ptr ini)))) ;;;
  upd_proc me (set_state ZOMBIE).

(** A zombie's last [sched] is never switched back to; its checks, on the lock
    just taken and the state just set, are left out. *)
Definition exit : K unit :=
  me <- myproc ;;
  ini <- gets initproc ;;
  if decide (ini = Some me) then panic "init exiting"
  else
    close_files me ;;;
    shmrem lit_exit ;;;
    begin_op ;;;
    p <- get_proc me ;;
    iput (cwd p) ;;;
    end_op ;;;
    upd_proc me (set_cwd 0) ;;;
    exit_finish me ;;;
    exited.

Definition copy_files (me np : nat) : K unit :=
  for_range NOFILES 0 (fun i =>
    p <- get_proc me ;;
    let f := nth i (ofile p) 0 in
    when (negb (f =? 0)) (
      g <- filedup f ;;
      upd_proc np (fun p => set_ofile (<[i := g]> (ofile p)) p))).

Definition fork : K Z :=
  me <- myproc ;;
  r <- allocproc ;;
  match r with
  | None => ret (-1)
  | Some np =>
      p <- get_proc me ;;
      d <- on_mem (copyuvm (pgdir p) (sz p)) ;;
      upd_proc np (set_pgdir d) ;;;
      if d =? 0 then
        c <- get_proc np ;;
        on_mem (kfree (kstack c)) ;;;
        upd_proc np (set_kstack 0) ;;;
        upd_proc np (set_state UNUSED) ;;;
        ret (-1)
      else
        upd_proc np (set_sz (sz p)) ;;;
        upd_proc np (set_parent (Some me)) ;;;
        c <- get_proc np ;;
        on_mem (memmoveM (tf c) (tf p) sizeof_trapframe) ;;;
        manage_fork exit me np ;;;
        on_mem (write32 (tf c + tf_eax) 0) ;;;
        copy_files me np ;;;
        i <- idup (cwd p) ;;
        upd_proc np (set_cwd i) ;;;
        nm <- of_option (safestrcpy (name c) (name p) 16) ;;
        upd_proc np (set_name nm) ;;;
        let pd := pid c in
        acquire_ptable ;;;
        upd_proc np (set_state RUNNABLE) ;;;
        release_ptable ;;;
        ret pd
  end.

(** One scan of [wait] for exited children: the pid of one, freed, or whether
    there are any children. *)
Fixpoint wait_scan (n i me : nat) (havekids : bool) : K (option Z * bool) :=
  match n with
  | O => ret (None, havekids)
  | S n' =>
      p <- get_proc i ;;
      if negb (bool_decide (parent p = Some me)) then wait_scan n' (S i) me havekids
      else if decide (state p = ZOMBIE) then
        on_mem (kfree (kstack p)) ;;;
        upd_proc i (set_kstack 0) ;;;
        on_mem (freevm (pgdir p)) ;;;
        upd_proc i (set_pid 0) ;;;
        upd_proc i (set_parent None) ;;;
        upd_proc i (fun p => set_name (<[0%nat := 0]> (name p)) p) ;;;
        upd_proc i (set_killed false) ;;;
        upd_proc i (set_state UNUSED) ;;;
        release_ptable ;;;
        ret (Some (pid p), true)
      else wait_scan n' (S i) me true
  end.

(** The loop of [wait]; a round per time the process is woken. *)
Fixpoint wait_loop (fuel me : nat) : K Z :=
  match fuel with
  | O => nofuel
  | S fuel' =>
      r <- wait_scan NPROCS 0 me false ;;
      match fst r with
      | Some pd => ret pd
      | None =>
          p <- get_proc me ;;
          if negb (snd r) || killed p then release_ptable ;;; ret (-1)
          else
            sleep (proc_addr me) None ;;;
            wait_loop fuel' me
      end
  end.

Definition wait (fuel : nat) : K Z :=
  me <- myproc ;;
  acquire_ptable ;;;
  wait_loop fuel me.

(** ** The scheduler *)

(** The scheduler up to and after [swtch], for process [i]. *)
Definition dispatch (i : nat) : K unit :=
  modify (set_cur i) ;;;
  switchuvm i ;;;
  upd_proc i (set_state RUNNING).

(** One pass of [scheduler] over the table; [run i] is what process [i] does
    from its context until it switches back. *)
Definition scheduler_pass (run : nat -> K unit) : K unit :=
  acquire_ptable ;;;
  for_range NPROCS 0 (fun i =>
    p <- get_proc i ;;
    when (bool_decide (state p = RUNNABLE)) (
      dispatch i ;;;
      run i ;;;
      switchkvm)) ;;;
  release_ptable.

(** A new process starts here; [first] is the static flag. *)
Definition forkret (iinit initlog : K unit) (first : bool) : K bool :=
  release_ptable ;;;
  when first (iinit ;;; initlog) ;;;
  ret false.
End Proc.
