(* ===== verification/Sched.v ===== *)
(** * Time slices of processes, [sleep], [wakeup] and [kill]

    A process runs in slices: the scheduler picks it when it is [RUNNABLE],
    and it runs until it returns to user mode (and is preempted), goes to
    sleep or exits.  The file gives the effect of the primitives of [proc.c]
    on the process table and the definition of a slice, on which the
    interleaving arguments of the other files rest. *)
From Stdlib Require Import ZArith Lia Bool.
From stdpp Require Import base list strings.
From S2P Require Import Prelude Machine Cstring Kalloc Segments Vm Kstate Shm Proc.

Section Sched.
Context {I : KernelImage} {L : Literals} {P : ProcImage} {F : Type} {FL : FsLocks F}.
Abbreviation K := (M (kst F)).
Implicit Types s : kst F.

(** ** The process-table lock *)
Lemma wp_acquire_ptable s (Q : unit -> kst F -> Prop) :
  ptable_lock s = false -> Q tt (set_ptable_lock true s) -> wp acquire_ptable Q s.
Proof. intros Hl HQ. unfold acquire_ptable, acquire_flag. wp_steps. by rewrite Hl. Qed.
Lemma wp_release_ptable s (Q : unit -> kst F -> Prop) :
  ptable_lock s = true -> Q tt (set_ptable_lock false s) -> wp release_ptable Q s.
Proof. intros Hl HQ. unfold release_ptable, release_flag. wp_steps. by rewrite Hl. Qed.

Lemma acquire_ptable_run s :
  acquire_ptable s = if ptable_lock s then Panic "acquire" s else Ok tt (set_ptable_lock true s).
Proof. unfold acquire_ptable, acquire_flag, bind, gets. cbn [bind_res]. by destruct (ptable_lock s). Qed.
Lemma release_ptable_run s :
  release_ptable s = if ptable_lock s then Ok tt (set_ptable_lock false s) else Panic "release" s.
Proof. unfold release_ptable, release_flag, bind, gets. cbn [bind_res]. by destruct (ptable_lock s). Qed.

Lemma after_acquire {S} get set (s : S) (Q : unit -> S -> Prop) R :
  (get s = false -> Q tt (set true s)) -> after (acquire_flag get set) Q R s.
Proof. intros HQ. unfold acquire_flag. wp_steps. destruct (get s); [done|]. by apply after_of_wp, wp_modify, HQ. Qed.
Lemma after_release {S} get set (s : S) (Q : unit -> S -> Prop) R :
  (get s = true -> Q tt (set false s)) -> after (release_flag get set) Q R s.
Proof. intros HQ. unfold release_flag. wp_steps. destruct (get s); [|done]. by apply after_of_wp, wp_modify, HQ. Qed.

Lemma after_get_proc s i (Q : proc -> kst F -> Prop) R :
  (forall p, procs s !! i = Some p -> Q p s) -> after (get_proc i) Q R s.
Proof. intros HQ. unfold after, get_proc. destruct (procs s !! i); [by apply HQ|done]. Qed.
Lemma after_upd_proc s i f (Q : unit -> kst F -> Prop) R :
  (forall p, procs s !! i = Some p -> Q tt (set_procs (<[i := f p]> (procs s)) s)) -> after (upd_proc i f) Q R s.
Proof. intros HQ. unfold after, upd_proc. destruct (procs s !! i); [by apply HQ|done]. Qed.

(** ** [wakeup] *)
Definition wake (c : Z) (p : proc) : proc :=
  if bool_decide (state p = SLEEPING) && (chan p =? c) then set_state RUNNABLE p else p.

Lemma set_procs_set_procs a b s : set_procs a (set_procs b s) = set_procs a s.
Proof. done. Qed.

Lemma wp_wakeup1 c s (Q : unit -> kst F -> Prop) : length (procs s) = NPROCS ->
  Q tt (set_procs (wake c <$> procs s) s) -> wp (wakeup1 c) Q s.
Proof.
  intros Hlen HQ. unfold wakeup1.
  apply (wp_for_range (fun i s' => s' = set_procs ((wake c <$> take i (procs s)) ++ drop i (procs s)) s)).
  - simpl. rewrite drop_0. by destruct s.
  - intros i s' Hi ->. destruct (lookup_lt_is_Some_2 (procs s) i) as [p Hp]; [by rewrite Hlen; lia|].
    assert (procs (set_procs ((wake c <$> take i (procs s)) ++ drop i (procs s)) s) !! i = Some p) as Hp'.
    { simpl. rewrite lookup_app_r; rewrite length_fmap, length_take; [|lia].
      rewrite lookup_drop. rewrite <- Hp. f_equal. lia. }
    wp_step. eapply wp_get_proc; [exact Hp'|].
    assert (forall q, <[i := q]> ((wake c <$> take i (procs s)) ++ p :: drop (S i) (procs s)) =
              ((wake c <$> take i (procs s)) ++ q :: drop (S i) (procs s))) as Hins.
    { intros q. rewrite insert_app_r_alt; rewrite length_fmap, length_take; [|lia].
      by replace (i - i `min` length (procs s))%nat with 0%nat by lia. }
    rewrite (take_S_r _ _ _ Hp), fmap_app, <- app_assoc. cbn [fmap list_fmap app].
    rewrite (drop_S _ _ _ Hp) in Hp' |- *. assert (wake c p = if bool_decide (state p = SLEEPING) && (chan p =? c) then set_state RUNNABLE p else p) as -> by done.
    apply wp_when; intros Hb; rewrite Hb; [|done].
    eapply wp_upd_proc; [exact Hp'|]. cbn [procs set_procs]. by rewrite Hins.
  - intros s' ->. rewrite take_ge, drop_ge by (rewrite Hlen; unfold NPROCS; lia). by rewrite app_nil_r.
Qed.

Lemma wp_wakeup c s (Q : unit -> kst F -> Prop) : length (procs s) = NPROCS -> ptable_lock s = false ->
  Q tt (set_procs (wake c <$> procs s) s) -> wp (wakeup c) Q s.
Proof.
  intros Hlen Hl HQ. unfold wakeup. wp_step. apply wp_acquire_ptable; [done|]. wp_step.
  apply wp_wakeup1; [done|]. apply wp_release_ptable; [done|]. destruct s; simpl in *. by rewrite <- Hl.
Qed.
(** ** [sleep] *)
Definition asleep (c : Z) (p : proc) : proc := set_state SLEEPING (set_chan c p).

(** The code of [sleep] from where the scheduler switches back to the process. *)
Definition woken (me : nat) (lk : option (@lockref F)) : K unit :=
  upd_proc me (set_chan 0) ;;;
  match lk with
  | Some l => release_ptable ;;; lk_acquire l
  | None => ret tt
  end.

Lemma after_sched s (Q : unit -> kst F -> Prop) R p :
  procs s !! cur s = Some p -> (ptable_lock s = true -> R (chan p) s (fun s' => Ok tt s')) -> after sched Q R s.
Proof.
  intros Hp HR. unfold sched, myproc. wp_steps. apply after_of_wp, (wp_get_proc s (cur s) p); [done|]. wp_steps.
  destruct (ptable_lock s); [|done]. simpl. wp_steps. destruct (ncli_of s =? 1); [|done]. simpl.
  destruct (decide _); [done|]. by apply HR.
Qed.

Lemma after_sleep c lk s1 s p (Q : unit -> kst F -> Prop) R :
  match lk with
  | Some l => ptable_lock s = false -> lk_release l (set_ptable_lock true s) = Ok tt s1
  | None => s1 = s
  end ->
  cur s1 = cur s -> procs s1 !! cur s = Some p ->
  (ptable_lock s1 = true -> R c (set_procs (<[cur s := asleep c p]> (procs s1)) s1) (woken (cur s) lk)) ->
  after (sleep c lk) Q R s.
Proof.
  intros Hlk Hcur Hp HR. pose proof (lookup_lt_Some _ _ _ Hp) as Hlt.
  assert (after (upd_proc (cur s) (set_chan c) ;;; upd_proc (cur s) (set_state SLEEPING) ;;; sched ;;; woken (cur s) lk) Q R s1)
    as Hrest.
  { wp_step. apply after_of_wp, (wp_upd_proc s1 (cur s) p); [done|]. wp_step.
    apply after_of_wp, (wp_upd_proc _ (cur s) (set_chan c p)); [by apply list_lookup_insert_eq|]. wp_step.
    cbn [procs set_procs]. rewrite list_insert_insert_eq.
    apply (after_sched _ _ _ (asleep c p)); [cbn; rewrite Hcur; by apply list_lookup_insert_eq|exact HR]. }
  unfold sleep, myproc. wp_step. wp_step. wp_step. destruct lk as [l|]; [|subst s1; wp_step; exact Hrest].
  wp_step. unfold after at 1. rewrite acquire_ptable_run. destruct (ptable_lock s); [done|].
  unfold after at 1. rewrite Hlk by done. exact Hrest.
Qed.

(** With [ptable.lock] the only lock held, [sleep] does go to sleep. *)
Lemma sleep_ptable c s p : ptable_lock s = true -> ncli_of s = 1 -> procs s !! cur s = Some p ->
  exists k, sleep c None s = Sleeping c (set_procs (<[cur s := asleep c p]> (procs s)) s) k /\
    forall t, k t = woken (cur s) None t.
Proof.
  intros Hl Hn Hp. pose proof (lookup_lt_Some _ _ _ Hp) as Hlt.
  unfold sleep, myproc, bind, gets, ret. cbn [bind_res]. unfold upd_proc at 1. rewrite Hp. cbn [bind_res].
  unfold upd_proc at 1. cbn [procs set_procs]. rewrite list_lookup_insert_eq by done. cbn [bind_res].
  rewrite list_insert_insert_eq. unfold sched, myproc, bind, gets. cbn [bind_res].
  unfold get_proc. cbn [procs set_procs cur]. rewrite list_lookup_insert_eq by done. cbn [bind_res ptable_lock set_procs].
  rewrite Hl. cbn [negb]. change (ncli_of (set_procs _ (set_procs _ s))) with (ncli_of s). rewrite Hn. cbn. eexists. split; [reflexivity|]. done.
Qed.

(** The same with another lock, which [sleep] gives up. *)
Lemma sleep_lock c l s s1 p : ptable_lock s = false -> lk_release l (set_ptable_lock true s) = Ok tt s1 ->
  cur s1 = cur s -> ptable_lock s1 = true -> ncli_of s1 = 1 -> procs s1 !! cur s = Some p ->
  exists k, sleep c (Some l) s = Sleeping c (set_procs (<[cur s := asleep c p]> (procs s1)) s1) k /\
    forall t, k t = woken (cur s) (Some l) t.
Proof.
  intros Hl Hrel Hcur Hl1 Hn Hp. pose proof (lookup_lt_Some _ _ _ Hp) as Hlt.
  unfold sleep, myproc. unfold bind at 1, gets. cbn [bind_res]. unfold bind at 1 2. rewrite acquire_ptable_run, Hl.
  cbn [bind_res]. rewrite Hrel. cbn [bind_res]. unfold bind, upd_proc at 1. rewrite Hp. cbn [bind_res].
  unfold upd_proc at 1. cbn [procs set_procs]. rewrite list_lookup_insert_eq by done. cbn [bind_res].
  rewrite list_insert_insert_eq. unfold sched, myproc, bind, gets. cbn [bind_res cur set_procs]. rewrite Hcur.
  unfold get_proc. cbn [procs set_procs]. rewrite list_lookup_insert_eq by done. cbn [bind_res ptable_lock set_procs].
  rewrite Hl1. cbn [negb]. change (ncli_of (set_procs _ (set_procs _ s1))) with (ncli_of s1). rewrite Hn. cbn. eexists.
  split; [reflexivity|]. done.
Qed.

(** ** [kill] *)
Definition killed_proc (p : proc) : proc :=
  let p' := set_killed true p in
  if bool_decide (state p = SLEEPING) then set_state RUNNABLE p' else p'.

Lemma set_ptable_lock_id b s : ptable_lock s = b -> set_ptable_lock b s = s.
Proof. intros <-. by destruct s. Qed.

Lemma wp_kill_found s i p pd (Q : Z -> kst F -> Prop) : length (procs s) = NPROCS -> ptable_lock s = false ->
  procs s !! i = Some p -> pid p = pd -> (forall j q, (j < i)%nat -> procs s !! j = Some q -> pid q <> pd) ->
  Q 0 (set_procs (<[i := killed_proc p]> (procs s)) s) -> wp (kill pd) Q s.
Proof.
  intros Hlen Hl Hp Hpd Hfirst HQ. unfold kill. wp_step. apply wp_acquire_ptable; [done|]. wp_step.
  assert (i < NPROCS)%nat as Hi by (rewrite <- Hlen; by eapply lookup_lt_Some).
  apply (wp_for_find (fun j s' => s' = set_ptable_lock true s /\ (j <= i)%nat)); [split; [done|lia]|..].
  - intros j s' Hj [-> Hle]. destruct (decide (j = i)) as [->|Hne].
    + wp_step. eapply wp_get_proc; [exact Hp|]. rewrite (proj2 (Z.eqb_eq _ _) Hpd). wp_step.
      eapply wp_upd_proc; [exact Hp|]. wp_step.
      assert (i < length (procs s))%nat as Hlt by (by rewrite Hlen).
      apply wp_when; intros Hb.
      * eapply wp_upd_proc; [simpl; by apply list_lookup_insert_eq|]. wp_step. apply wp_release_ptable; [done|].
        wp_steps. revert HQ. unfold killed_proc. rewrite Hb. simpl. rewrite list_insert_insert_eq.
        unfold set_procs, set_ptable_lock. simpl. by rewrite <- Hl.
      * wp_step. apply wp_release_ptable; [done|]. wp_steps. revert HQ. unfold killed_proc. rewrite Hb.
        unfold set_procs, set_ptable_lock. simpl. by rewrite <- Hl.
    + destruct (lookup_lt_is_Some_2 (procs s) j) as [q Hq]; [rewrite Hlen; lia|].
      wp_step. eapply wp_get_proc; [exact Hq|]. rewrite (proj2 (Z.eqb_neq _ _)) by (eapply Hfirst; [|done]; lia).
      wp_steps. split; [done|lia].
  - intros s' [-> Hle]. lia.
Qed.

Lemma wp_kill_none s pd (Q : Z -> kst F -> Prop) : length (procs s) = NPROCS -> ptable_lock s = false ->
  (forall j q, procs s !! j = Some q -> pid q <> pd) -> Q (-1) s -> wp (kill pd) Q s.
Proof.
  intros Hlen Hl Hno HQ. unfold kill. wp_step. apply wp_acquire_ptable; [done|]. wp_step.
  apply (wp_for_find (fun _ s' => s' = set_ptable_lock true s)); [done|..].
  - intros j s' Hj ->. destruct (lookup_lt_is_Some_2 (procs s) j) as [q Hq]; [rewrite Hlen; lia|].
    wp_step. eapply wp_get_proc; [exact Hq|]. rewrite (proj2 (Z.eqb_neq _ _)) by (by eapply Hno). by wp_steps.
  - intros s' ->. wp_step. apply wp_release_ptable; [done|]. wp_steps.
    unfold set_ptable_lock. simpl. rewrite <- Hl. by destruct s.
Qed.

(** ** Slices *)
Inductive outcome : Type :=
| Returned
| Blocked (k : kst F -> res (kst F) unit)
| Gone.

(** The end of a slice: a process back in user mode is preempted ([yield]);
    then the scheduler goes on. *)
Definition preempt (i : nat) : K unit :=
  acquire_ptable ;;; upd_proc i (set_state RUNNABLE) ;;; switchkvm ;;; release_ptable.
Definition unwind : K unit := switchkvm ;;; release_ptable.

(** A slice of process [i]: picked by the scheduler, it returns from its last
    [sched] holding [ptable.lock] and runs [m].  A process that was preempted
    ([fresh]) first releases the lock and then makes the system call [m]. *)
Definition start_slice (i : nat) (fresh : bool) : K unit :=
  acquire_ptable ;;; dispatch i ;;; when fresh release_ptable.
Definition slice (i : nat) (fresh : bool) (m : K unit) (s : kst F) : option (outcome * kst F) :=
  match (start_slice i fresh ;;; m) s with
  | Ok _ s1 => match preempt i s1 with Ok _ s2 => Some (Returned, s2) | _ => None end
  | Sleeping _ s1 k => match unwind s1 with Ok _ s2 => Some (Blocked k, s2) | _ => None end
  | Exited s1 => match unwind s1 with Ok _ s2 => Some (Gone, s2) | _ => None end
  | _ => None
  end.

(** What a slice comes to. *)
Definition dispatched (i : nat) (fresh : bool) (p : proc) (h : cpu_regs) (s : kst F) : kst F :=
  mk_kst (km s) (sh_table s) (negb fresh) (<[i := set_state RUNNING p]> (procs s)) (nextpid s) (initproc s) i h (fs s).
Definition unwound (h : cpu_regs) (s : kst F) : kst F := set_ptable_lock false (set_hw h s).

Lemma start_slice_run i fresh s : ptable_lock s = false ->
  (exists p h, procs s !! i = Some p /\ start_slice i fresh s = Ok tt (dispatched i fresh p h s)) \/
  (exists w s', start_slice i fresh s = Panic w s' \/ start_slice i fresh s = Fault w s').
Proof.
  intros Hl. unfold start_slice. unfold bind at 1 3 5. rewrite acquire_ptable_run, Hl. cbn [bind_res].
  unfold dispatch, switchuvm, get_proc, upd_proc, bind, modify. cbn [bind_res procs set_cur set_ptable_lock].
  destruct (procs s !! i) as [p|] eqn:Hp; cbn [bind_res]; [|right; by eauto].
  destruct (kstack p =? 0); [right; by eauto|]. destruct (pgdir p =? 0); [right; by eauto|].
  left. exists p. cbn [bind_res procs set_hw set_cur set_ptable_lock]. rewrite Hp. cbn [bind_res].
  eexists. split; [done|]. destruct fresh; [|reflexivity]. unfold when. rewrite release_ptable_run. reflexivity.
Qed.

Lemma start_slice_ok i fresh s p : ptable_lock s = false -> procs s !! i = Some p -> kstack p <> 0 -> pgdir p <> 0 ->
  exists h, start_slice i fresh s = Ok tt (dispatched i fresh p h s).
Proof.
  intros Hl Hp Hk Hd. unfold start_slice. unfold bind at 1. rewrite acquire_ptable_run, Hl. cbn [bind_res].
  unfold dispatch, switchuvm, get_proc, upd_proc, bind, modify. cbn [bind_res procs set_cur set_ptable_lock].
  rewrite Hp. cbn [bind_res]. rewrite (proj2 (Z.eqb_neq _ _) Hk), (proj2 (Z.eqb_neq _ _) Hd).
  cbn [bind_res procs set_hw set_cur set_ptable_lock]. rewrite Hp. cbn [bind_res].
  eexists. destruct fresh; [|reflexivity]. unfold when. rewrite release_ptable_run. reflexivity.
Qed.

Lemma slice_start i fresh m s : ptable_lock s = false ->
  (exists p h, procs s !! i = Some p /\ (start_slice i fresh ;;; m) s = m (dispatched i fresh p h s)) \/
  slice i fresh m s = None.
Proof.
  intros Hl. unfold slice. unfold bind.
  destruct (start_slice_run i fresh s Hl) as [(p & h & Hp & ->)|(w & s' & [->| ->])]; [left|by right..].
  by exists p, h.
Qed.

Lemma unwind_run s : unwind s = if ptable_lock s
  then Ok tt (unwound (mk_regs (V2P (kpgdir (hw s))) (ts_ss0 (hw s)) (ts_esp0 (hw s)) (ts_iomb (hw s)) (task_reg (hw s)) (kpgdir (hw s)) (gdt_tss (hw s))) s)
  else unwind s.
Proof.
  destruct (ptable_lock s) eqn:El; [|done]. unfold unwind, switchkvm, modify. unfold bind at 1. cbn [bind_res].
  rewrite release_ptable_run. cbn [ptable_lock set_hw]. by rewrite El.
Qed.
Lemma unwind_unlocked s s' : ptable_lock s = false -> unwind s <> Ok tt s'.
Proof.
  intros El. unfold unwind, switchkvm, modify. unfold bind at 1. cbn [bind_res].
  rewrite release_ptable_run. cbn [ptable_lock set_hw]. by rewrite El.
Qed.

Lemma slice_cases i fresh m s o s' : ptable_lock s = false -> slice i fresh m s = Some (o, s') ->
  exists p h h', procs s !! i = Some p /\
  match o with
  | Returned => exists s2 q, m (dispatched i fresh p h s) = Ok tt s2 /\ procs s2 !! i = Some q /\ ptable_lock s2 = false /\
      s' = set_hw h' (set_procs (<[i := set_state RUNNABLE q]> (procs s2)) s2)
  | Blocked k => exists c s2, m (dispatched i fresh p h s) = Sleeping c s2 k /\ ptable_lock s2 = true /\ s' = unwound h' s2
  | Gone => exists s2, m (dispatched i fresh p h s) = Exited s2 /\ ptable_lock s2 = true /\ s' = unwound h' s2
  end.
Proof.
  intros Hl Hs. destruct (slice_start i fresh m s Hl) as [(p & h & Hp & E)|E]; [|by rewrite E in Hs].
  unfold slice in Hs. rewrite E in Hs. exists p, h.
  destruct (m (dispatched i fresh p h s)) as [[] s2| |s2|c s2 k| |] eqn:Em; try done.
  - unfold preempt in Hs. unfold bind at 1 in Hs. rewrite acquire_ptable_run in Hs.
    destruct (ptable_lock s2) eqn:El; [done|]. cbn [bind_res] in Hs.
    unfold bind at 1, upd_proc in Hs. cbn [procs set_ptable_lock] in Hs.
    destruct (procs s2 !! i) as [q|] eqn:Eq; [|done]. cbn [bind_res] in Hs. injection Hs as <- <-.
    eexists. split; [done|]. exists s2, q. split_and!; [done..|].
    unfold set_hw, set_procs. simpl. rewrite El. reflexivity.
  - destruct (ptable_lock s2) eqn:El.
    + rewrite unwind_run, El in Hs. injection Hs as <- <-. eexists. split; [done|]. by exists s2.
    + destruct (unwind s2) as [[] s3| | | | |] eqn:Eu; try done. by apply unwind_unlocked in Eu.
  - destruct (ptable_lock s2) eqn:El.
    + rewrite unwind_run, El in Hs. injection Hs as <- <-. eexists. split; [done|]. by exists c, s2.
    + destruct (unwind s2) as [[] s3| | | | |] eqn:Eu; try done. by apply unwind_unlocked in Eu.
Qed.

Definition runnable (s : kst F) (i : nat) : Prop := exists p, procs s !! i = Some p /\ state p = RUNNABLE.
Definition state_of (s : kst F) (i : nat) : option procstate := state <$> procs s !! i.
Definition chan_of (s : kst F) (i : nat) : option Z := chan <$> procs s !! i.
End Sched.
