(* ===== verification/ProcFamily.v ===== *)
(** * [exit] and [wait]: parents, children and zombies

    [exit_finish], the part of [exit] under [ptable.lock], and [wait].  The
    theorems say what each does to the table and the page pool, and that a
    parent asleep in [wait] never has a child that is a zombie. *)
From Stdlib Require Import ZArith Lia Bool.
From stdpp Require Import base numbers list strings.
From S2P Require Import Prelude Machine Cstring Kalloc Segments Vm VmInv VmMap VmUser VmAlloc Spaces Kstate Shm Proc Sched.

Section Family.
Context {I : KernelImage} {L : Literals} {P : ProcImage} {F : Type} {FL : FsLocks F} {FO : FsOps F}.
Implicit Types s : kst F.

(** No parent sleeps in [wait] over a zombie. *)
Definition none_missed (ps : list proc) : Prop :=
  forall i j p q, ps !! i = Some p -> ps !! j = Some q -> state p = SLEEPING -> chan p = proc_addr i ->
    parent q = Some i -> state q <> ZOMBIE.

(** ** [exit] *)
Definition adopt (me : nat) (ini : option nat) (q : proc) : proc :=
  if bool_decide (parent q = Some me) then set_parent ini q else q.

(** [q'] is [q], perhaps woken from channel [c]. *)
Definition nudged (c : Z) (q q' : proc) : Prop := q' = q \/ q' = wake c q.

Lemma wake_idemp c q : wake c (wake c q) = wake c q.
Proof. unfold wake. destruct (bool_decide (state q = SLEEPING) && (chan q =? c)) eqn:E; [done|]. by rewrite E. Qed.
Lemma wake_parent c q : parent (wake c q) = parent q.
Proof. unfold wake. by destruct (_ && _). Qed.
Lemma wake_adopt c me ini q : wake c (adopt me ini q) = adopt me ini (wake c q).
Proof.
  unfold adopt. rewrite wake_parent. unfold wake. destruct (bool_decide (parent q = Some me)); [|done].
  cbn [state chan set_parent]. by destruct (_ && _).
Qed.
Lemma wake_asleep c q : state (wake c q) = SLEEPING -> wake c q = q /\ chan q <> c.
Proof.
  unfold wake. case_bool_decide as E1; simpl; [|done].
  destruct (Z.eqb_spec (chan q) c); simpl; [done|by split].
Qed.
Lemma wake_zombie c q : state (wake c q) = ZOMBIE <-> state q = ZOMBIE.
Proof. unfold wake. case_bool_decide as E1; simpl; [|done]. destruct (chan q =? c); simpl; rewrite ?E1; split; congruence. Qed.
Definition zombie_child (me : nat) (q : proc) : bool := bool_decide (parent q = Some me) && bool_decide (state q = ZOMBIE).

(** The table during the loop over the children: slots below [k] are done. *)
Definition handing (me : nat) (ini : option nat) (ps ps' : list proc) (k : nat) : Prop :=
  length ps' = length ps /\
  (forall j q, ps !! j = Some q -> exists q', ps' !! j = Some q' /\
     nudged (proc_ptr ini) (if (j <? k)%nat then adopt me ini q else q) q') /\
  ((exists j q, (j < k)%nat /\ ps !! j = Some q /\ zombie_child me q = true) ->
     forall j q', ps' !! j = Some q' -> state q' = SLEEPING -> chan q' <> proc_ptr ini).

Lemma nudged_parent c q q' : nudged c q q' -> parent q' = parent q.
Proof. intros [->| ->]; [done|apply wake_parent]. Qed.
Lemma nudged_zombie c q q' : nudged c q q' -> state q' = ZOMBIE <-> state q = ZOMBIE.
Proof. intros [->| ->]; [done|apply wake_zombie]. Qed.
Lemma nudged_wake c q q' : nudged c q q' -> nudged c q (wake c q').
Proof. intros [->| ->]; right; [done|by rewrite wake_idemp]. Qed.
Lemma nudged_adopt c me ini q q' : nudged c q q' -> nudged c (adopt me ini q) (adopt me ini q').
Proof. intros [->| ->]; [by left|right; by rewrite wake_adopt]. Qed.

(** One slot of the loop. *)
Lemma handing_step me ini ps ps' k q q' : handing me ini ps ps' k -> ps !! k = Some q -> ps' !! k = Some q' ->
  handing me ini ps
    (if zombie_child me q' then wake (proc_ptr ini) <$> <[k := adopt me ini q']> ps' else <[k := adopt me ini q']> ps')
    (S k).
Proof.
  intros (Hlen & Hq & Hz) Hk Hk'. pose proof (lookup_lt_Some _ _ _ Hk') as Hlt.
  assert (forall j r, ps !! j = Some r -> exists r', <[k := adopt me ini q']> ps' !! j = Some r' /\
     nudged (proc_ptr ini) (if (j <? S k)%nat then adopt me ini r else r) r') as Hins.
  { intros j r Hr. destruct (Hq j r Hr) as (r' & Hr' & Hn). destruct (decide (j = k)) as [->|Hne].
    - rewrite list_lookup_insert_eq by done. eexists. split; [done|]. rewrite Hr in Hk. injection Hk as ->.
      rewrite Hk' in Hr'. injection Hr' as ->.
      rewrite (proj2 (Nat.ltb_lt _ _)) by lia. rewrite (proj2 (Nat.ltb_ge _ _)) in Hn by lia. by apply nudged_adopt.
    - rewrite list_lookup_insert_ne by done. exists r'. split; [done|].
      destruct (Nat.ltb_spec j k), (Nat.ltb_spec j (S k)); (done || lia). }
  assert (zombie_child me q' = zombie_child me q) as Hzq.
  { destruct (Hq k q Hk) as (r' & Hr' & Hn). rewrite Hk' in Hr'. injection Hr' as <-.
    rewrite (proj2 (Nat.ltb_ge _ _)) in Hn by lia. unfold zombie_child. rewrite (nudged_parent _ _ _ Hn). f_equal.
    apply bool_decide_ext, (nudged_zombie _ _ _ Hn). }
  destruct (zombie_child me q') eqn:Ez; split_and!.
  - by rewrite length_fmap, length_insert.
  - intros j r Hr. destruct (Hins j r Hr) as (r' & Hr' & Hn). exists (wake (proc_ptr ini) r').
    rewrite list_lookup_fmap, Hr'. split; [done|]. by apply nudged_wake.
  - intros _ j r'. rewrite list_lookup_fmap. destruct (_ !! j) as [r|]; [|done]. intros [= <-] Hs.
    destruct (wake_asleep _ _ Hs) as [-> Hc]. done.
  - by rewrite length_insert.
  - done.
  - intros (j & r & Hj & Hr & Hzr) j' r'. assert (j < k)%nat as Hjk.
    { destruct (decide (j = k)) as [->|]; [|lia]. rewrite Hr in Hk. injection Hk as ->. congruence. }
    destruct (decide (j' = k)) as [->|Hne].
    + rewrite list_lookup_insert_eq by done. intros [= <-]. unfold adopt. intros Hs Hc.
      apply (Hz ltac:(eauto) k q' Hk'); [|]; by destruct (bool_decide _).
    + rewrite list_lookup_insert_ne by done. apply Hz; eauto.
Qed.
Lemma wp_handing me ini s (Q : unit -> kst F -> Prop) : length (procs s) = NPROCS -> initproc s = ini ->
  (forall ps', handing me ini (procs s) ps' NPROCS -> Q tt (set_procs ps' s)) ->
  wp (for_range NPROCS 0 (fun i =>
    q <- get_proc i ;;
    when (bool_decide (parent q = Some me)) (
      ini <- gets initproc ;;
      upd_proc i (set_parent ini) ;;;
      when (bool_decide (state q = ZOMBIE)) (wakeup1 (proc_ptr ini))))) Q s.
Proof.
  intros Hlen Hini HQ.
  apply (wp_for_range (fun i s' => exists ps', s' = set_procs ps' s /\ handing me ini (procs s) ps' i)).
  - exists (procs s). split; [by destruct s|]. split_and!; [done| |].
    + intros j q Hq. exists q. split; [done|]. by left.
    + intros (j & q & Hj & _). lia.
  - intros i s' Hi (ps' & -> & Hh). pose proof Hh as (Hl & _ & _).
    destruct (lookup_lt_is_Some_2 (procs s) i) as [q Hq]; [lia|].
    destruct (lookup_lt_is_Some_2 ps' i) as [q' Hq']; [lia|].
    pose proof (handing_step me ini (procs s) ps' i q q' Hh Hq Hq') as Hnext.
    wp_step. apply (wp_get_proc _ i q'); [done|]. apply wp_when; intros Hb.
    + wp_steps. cbn [initproc set_procs]. rewrite Hini. eapply wp_upd_proc; [exact Hq'|].
      unfold zombie_child in Hnext. rewrite Hb in Hnext. unfold adopt in Hnext. rewrite Hb in Hnext.
      apply wp_when; intros Hz; rewrite Hz in Hnext; cbn [andb] in Hnext.
      * apply wp_wakeup1; [cbn [procs set_procs]; rewrite length_insert; lia|]. eexists. split; [reflexivity|done].
      * eexists. split; [reflexivity|done].
    + unfold zombie_child in Hnext. rewrite Hb in Hnext. unfold adopt in Hnext. rewrite Hb in Hnext. cbn [andb] in Hnext.
      rewrite list_insert_id in Hnext by done. by eexists.
  - intros s' (ps' & -> & Hh). by apply HQ.
Qed.

(** What [exit] makes of a process of the table: the exiting process is a
    zombie, a child goes to [initproc], and a process asleep on the parent's
    or [initproc]'s channel may be woken; nothing else changes. *)
Definition exit_slot (me : nat) (ini par : option nat) (j : nat) (q q' : proc) : Prop :=
  exists q1, nudged (proc_ptr ini) (adopt me ini (wake (proc_ptr par) q)) q1 /\
    q' = if decide (j = me) then set_state ZOMBIE q1 else q1.

Record exit_post (me : nat) (p : proc) (s s' : kst F) : Prop := {
  ep_rest : s' = set_procs (procs s') (set_ptable_lock true s);
  ep_len : length (procs s') = length (procs s);
  ep_slots : forall j q, procs s !! j = Some q -> exists q', procs s' !! j = Some q' /\
    exit_slot me (initproc s) (parent p) j q q';
  ep_parent : forall j q', j <> me -> procs s' !! j = Some q' -> state q' = SLEEPING -> chan q' <> proc_ptr (parent p);
  ep_init : (exists j q, procs s !! j = Some q /\ zombie_child me q = true) ->
    forall j q', j <> me -> procs s' !! j = Some q' -> state q' = SLEEPING -> chan q' <> proc_ptr (initproc s);
}.

Lemma wp_exit_finish me p s (Q : unit -> kst F -> Prop) : length (procs s) = NPROCS -> ptable_lock s = false ->
  procs s !! me = Some p -> (forall s', exit_post me p s s' -> Q tt s') -> wp (exit_finish me) Q s.
Proof.
  intros Hlen Hl Hp HQ. unfold exit_finish. wp_step. apply wp_acquire_ptable; [done|]. wp_step.
  apply (wp_get_proc _ me p); [done|]. wp_step. apply wp_wakeup1; [done|]. wp_step.
  apply (wp_handing me (initproc s)); [cbn; by rewrite length_fmap|done|]. intros ps' (Hl' & Hs & Hz).
  cbn [procs set_procs set_ptable_lock] in *. rewrite length_fmap in Hl'.
  pose proof (lookup_lt_Some _ _ _ Hp) as Hme.
  destruct (lookup_lt_is_Some_2 ps' me) as [p' Hp']; [lia|].
  eapply wp_upd_proc; [exact Hp'|]. apply HQ. cbn [procs set_procs].
  assert (forall j q, procs s !! j = Some q -> exists q1, ps' !! j = Some q1 /\
    nudged (proc_ptr (initproc s)) (adopt me (initproc s) (wake (proc_ptr (parent p)) q)) q1) as Hall.
  { intros j q Hq. destruct (Hs j (wake (proc_ptr (parent p)) q)) as (q1 & Hq1 & Hn); [by rewrite list_lookup_fmap, Hq|].
    exists q1. split; [done|]. rewrite (proj2 (Nat.ltb_lt _ _)) in Hn; [done|].
    rewrite <- Hlen. by eapply lookup_lt_Some. }
  constructor; cbn [procs set_procs].
  - done.
  - by rewrite length_insert.
  - intros j q Hq. destruct (Hall j q Hq) as (q1 & Hq1 & Hn). unfold exit_slot.
    destruct (decide (j = me)) as [->|Hne].
    + rewrite list_lookup_insert_eq by lia. rewrite Hp' in Hq1. injection Hq1 as ->. eauto.
    + rewrite list_lookup_insert_ne by done. eauto.
  - intros j q' Hne Hq' Hst. rewrite list_lookup_insert_ne in Hq' by done.
    destruct (lookup_lt_is_Some_2 (procs s) j) as [q Hq]; [rewrite <- Hl'; by eapply lookup_lt_Some|].
    destruct (Hall j q Hq) as (q1 & Hq1 & Hn). rewrite Hq' in Hq1. injection Hq1 as <-.
    assert (state (wake (proc_ptr (parent p)) q) = SLEEPING /\ chan q' = chan (wake (proc_ptr (parent p)) q)) as [Hw ->].
    { destruct Hn as [->| ->]; [|destruct (wake_asleep _ _ Hst) as [E _]; rewrite E in Hst |- *];
        revert Hst; unfold adopt; by destruct (bool_decide _). }
    destruct (wake_asleep _ _ Hw) as [-> Hc]. done.
  - intros (j0 & q0 & Hq0 & Hz0) j q' Hne Hq'. rewrite list_lookup_insert_ne in Hq' by done. eapply Hz; [|done].
    exists j0, (wake (proc_ptr (parent p)) q0). split; [rewrite <- Hlen; by eapply lookup_lt_Some|].
    rewrite list_lookup_fmap, Hq0. split; [done|]. unfold zombie_child in *. rewrite wake_parent.
    by rewrite (bool_decide_ext _ _ (wake_zombie (proc_ptr (parent p)) q0)).
Qed.
Lemma proc_addr_inj i j : proc_addr i = proc_addr j -> i = j.
Proof. unfold proc_addr, sizeof_proc. lia. Qed.

Lemma exit_slot_state me ini par j q q' : exit_slot me ini par j q q' -> j <> me ->
  (state q' = ZOMBIE <-> state q = ZOMBIE) /\
  parent q' = (if bool_decide (parent q = Some me) then ini else parent q) /\
  (state q' = SLEEPING -> state q = SLEEPING /\ chan q' = chan q).
Proof.
  intros (q1 & Hn & ->) Hne. rewrite decide_False by done.
  assert (state (adopt me ini (wake (proc_ptr par) q)) = state (wake (proc_ptr par) q)) as Ea
    by (unfold adopt; by destruct (bool_decide _)).
  assert (chan (adopt me ini (wake (proc_ptr par) q)) = chan (wake (proc_ptr par) q)) as Ec
    by (unfold adopt; by destruct (bool_decide _)).
  split_and!.
  - rewrite (nudged_zombie _ _ _ Hn), Ea. apply wake_zombie.
  - rewrite (nudged_parent _ _ _ Hn). unfold adopt. rewrite wake_parent. destruct (bool_decide _); [done|apply wake_parent].
  - intros Hs. assert (q1 = adopt me ini (wake (proc_ptr par) q)) as ->.
    { destruct Hn as [->| ->]; [done|]. by apply wake_asleep. }
    rewrite Ea in Hs. rewrite Ec. destruct (wake_asleep _ _ Hs) as [E _]. by rewrite E in *.
Qed.

Lemma exit_none_missed me p s s' : procs s !! me = Some p -> parent p <> Some me -> none_missed (procs s) ->
  exit_post me p s s' -> none_missed (procs s').
Proof.
  intros Hp Hself Hnm [_ Hlen Hslots Hpar Hini] i j pi qj Hi Hj Hs Hc Hpa Hz.
  assert (forall k r', procs s' !! k = Some r' -> exists r, procs s !! k = Some r /\
    exit_slot me (initproc s) (parent p) k r r') as Hback.
  { intros k r' Hr'. destruct (lookup_lt_is_Some_2 (procs s) k) as [r Hr]; [rewrite <- Hlen; by eapply lookup_lt_Some|].
    destruct (Hslots k r Hr) as (r1 & Hr1 & He). rewrite Hr' in Hr1. injection Hr1 as ->. eauto. }
  destruct (Hback i pi Hi) as (p0 & Hp0 & Hei), (Hback j qj Hj) as (q0 & Hq0 & Hej).
  assert (i <> me) as Hine.
  { intros ->. destruct Hei as (q1 & _ & ->). by rewrite decide_True in Hs by done. }
  destruct (exit_slot_state _ _ _ _ _ _ Hei Hine) as (_ & _ & Hsl). destruct (Hsl Hs) as [Hs0 Hc0].
  destruct (decide (j = me)) as [->|Hjne].
  - rewrite Hp in Hq0. injection Hq0 as <-. destruct Hej as (q1 & Hn & ->). rewrite decide_True in Hpa by done.
    cbn [parent set_state] in Hpa. rewrite (nudged_parent _ _ _ Hn) in Hpa. unfold adopt in Hpa. rewrite wake_parent in Hpa.
    rewrite bool_decide_false in Hpa by done. rewrite wake_parent in Hpa.
    apply (Hpar i pi Hine Hi Hs). by rewrite Hpa.
  - destruct (exit_slot_state _ _ _ _ _ _ Hej Hjne) as (Hzz & Hpp & _). apply Hzz in Hz. rewrite Hpp in Hpa.
    case_bool_decide as Hch.
    + apply (Hini) with (j := i) (q' := pi); [|done..|by rewrite Hpa].
      exists j, q0. split; [done|]. unfold zombie_child. by rewrite !bool_decide_true.
    + eapply (Hnm i j p0 q0); try done. by rewrite <- Hc0.
Qed.

(** ** [wait] *)
Definition reaped (q : proc) : proc :=
  set_state UNUSED (set_killed false (set_name (<[0%nat := 0]> (name q)) (set_parent None (set_pid 0 (set_kstack 0 q))))).

Definition child_at (ps : list proc) (me j : nat) : bool :=
  match ps !! j with Some q => bool_decide (parent q = Some me) | None => false end.
Definition zombie_at (ps : list proc) (me j : nat) : bool :=
  match ps !! j with Some q => zombie_child me q | None => false end.

Fixpoint any_child (ps : list proc) (me n i : nat) : bool :=
  match n with O => false | S n' => child_at ps me i || any_child ps me n' (S i) end.

Lemma wp_scan_none me n : forall i hk s (Q : option Z * bool -> kst F -> Prop), (i + n <= length (procs s))%nat ->
  (forall j, (i <= j < i + n)%nat -> zombie_at (procs s) me j = false) ->
  Q (None, hk || any_child (procs s) me n i) s -> wp (wait_scan n i me hk) Q s.
Proof.
  induction n as [|n IH]; intros i hk s Q Hi Hz HQ; cbn [wait_scan any_child] in *.
  { apply wp_ret. by rewrite orb_false_r in HQ. }
  destruct (lookup_lt_is_Some_2 (procs s) i) as [q Hq]; [lia|]. wp_step. apply (wp_get_proc s i q); [done|].
  specialize (Hz i) as Hzi. unfold zombie_at, child_at in *. rewrite Hq in *. unfold zombie_child in Hzi.
  destruct (bool_decide (parent q = Some me)) eqn:Ep; cbn [negb andb orb] in *.
  - assert (bool_decide (state q = ZOMBIE) = false) as Ez by (apply Hzi; lia).
    apply bool_decide_eq_false in Ez. rewrite decide_False by done.
    apply IH; [lia|intros; apply Hz; lia|]. by rewrite orb_true_r in HQ.
  - apply IH; [lia|intros; apply Hz; lia|done].
Qed.
Context `{!KernelImageOk I}.

(** The page-table pages of a space are not touched by freeing another page. *)
Lemma wp_free_other k fl pds oth v (Q : unit -> kmem_t -> Prop) : space_inv k fl pds oth -> v ∈ oth ->
  (forall k' oth', space_inv k' (v :: fl) pds oth' ->
     (forall d va, d ∈ pds -> pte_val (mem k') d va = pte_val (mem k) d va) ->
     (forall d q, d ∈ pds -> table_page (mem k') d q <-> table_page (mem k) d q) -> Q tt k') ->
  wp (kfree v) Q k.
Proof.
  intros Hs Hv HQ. destruct (si_own _ _ _ _ Hs Other v Hv) as [Hval Hnf].
  apply (wp_kfree k v fl); [apply Hs|done|done|]. intros k' Hk' Hm' _.
  destruct (space_keep k k' fl (v :: fl) pds oth (filter (fun q => q <> v) oth)) as (Hs' & Hpv & Htp); try done.
  - intros d q x Hd Hq Hx. apply Hm'. destruct (si_own _ _ _ _ Hs (Table d) q) as [Hvq _]; [done|].
    apply (valid_page_sep q); [done..|intros ->|done].
    by assert (Table d = Other) by by eapply (si_uniq _ _ _ _ Hs _ _ v).
  - intros q [[->|Hq]%elem_of_cons|[_ Hq]%list_elem_of_filter]; auto.
  - intros q [Hne Hq]%list_elem_of_filter. rewrite elem_of_cons. intros [->|Hf]; [done|].
    by apply (si_own _ _ _ _ Hs Other q).
  - by eapply HQ.
Qed.

Definition window_clear (m : memory) (d : Z) : Prop :=
  forall va, upage va -> SHM_BASE <= va -> mapped m d va = false.

(** Freeing the kernel stack and the address space of a zombie. *)
Definition pages_back (k : kmem_t) (fl : list Z) (q : proc) (k' : kmem_t) : Prop :=
  exists fl', kmem_inv k' fl' /\
    forall x, x ∈ fl' <-> x ∈ fl \/ x = kstack q \/ owned_page (mem k) (pgdir q) x.

Lemma wp_freevm_after k k1 fl pds oth v d (Q : unit -> kmem_t -> Prop) : space_inv k1 (v :: fl) pds oth -> d ∈ pds ->
  window_clear (mem k) d -> (forall va, pte_val (mem k1) d va = pte_val (mem k) d va) ->
  (forall q, table_page (mem k1) d q <-> table_page (mem k) d q) ->
  (forall k' fl', kmem_inv k' fl' ->
     (forall x, x ∈ fl' <-> x ∈ fl \/ x = v \/ owned_page (mem k) d x) -> Q tt k') ->
  wp (freevm d) Q k1.
Proof.
  intros Hs Hd Hw Hpv Htp HQ. apply (wp_freevm k1 d (v :: fl)).
  - eapply si_uvm; [done..|]. intros va Hva Hb. unfold mapped. rewrite Hpv. by apply Hw.
  - intros k' fl' Hk' Hin _ _. apply (HQ k' fl'); [done|]. intros x. rewrite Hin, elem_of_cons.
    assert (owned_page (mem k1) d x <-> owned_page (mem k) d x) as ->; [|tauto].
    unfold owned_page, frame_in. rewrite Htp. unfold mapped, frame_of. by setoid_rewrite Hpv.
Qed.

Lemma wp_scan_found me z q fl pds oth n : forall i hk s (Q : option Z * bool -> kst F -> Prop),
  (i + n <= length (procs s))%nat -> (i <= z < i + n)%nat -> procs s !! z = Some q -> zombie_child me q = true ->
  (forall j, (i <= j < z)%nat -> zombie_at (procs s) me j = false) -> ptable_lock s = true ->
  space_inv (km s) fl pds oth -> pgdir q ∈ pds -> kstack q ∈ oth -> window_clear (mem (km s)) (pgdir q) ->
  (forall k', pages_back (km s) fl q k' ->
     Q (Some (pid q), true) (set_ptable_lock false (set_km k' (set_procs (<[z := reaped q]> (procs s)) s)))) ->
  wp (wait_scan n i me hk) Q s.
Proof.
  induction n as [|n IH]; intros i hk s Q Hi Hz Hq Hzc Hno Hl Hs Hd Hk Hw HQ; [lia|]. cbn [wait_scan].
  pose proof (lookup_lt_Some _ _ _ Hq) as Hzl.
  destruct (decide (i = z)) as [->|Hne].
  - wp_step. apply (wp_get_proc s z q); [done|]. unfold zombie_child in Hzc.
    apply andb_true_iff in Hzc as [Hp Hst]. rewrite Hp. apply bool_decide_eq_true in Hst. cbn [negb].
    rewrite decide_True by done. wp_step. apply wp_lift. eapply wp_free_other; [done..|].
    intros k1 oth1 Hs1 Hpv Htp. wp_step. eapply wp_upd_proc; [exact Hq|]. wp_step. apply wp_lift.
    eapply (wp_freevm_after (km s)); [exact Hs1|done|done|by auto|by auto|]. intros k2 fl2 Hk2 Hin2.
    do 5 (wp_step; eapply wp_upd_proc;
      [cbn [procs set_procs set_km]; apply list_lookup_insert_eq; rewrite ?length_insert; exact Hzl|]).
    wp_step. apply wp_release_ptable; [done|]. apply wp_ret. specialize (HQ k2). revert HQ.
    cbn [procs set_procs set_km name set_parent set_pid set_kstack]. rewrite !list_insert_insert_eq. intros HQ. apply HQ. by exists fl2.
  - destruct (lookup_lt_is_Some_2 (procs s) i) as [r Hr]; [lia|]. wp_step. apply (wp_get_proc s i r); [done|].
    specialize (Hno i) as Hni. unfold zombie_at in Hni. rewrite Hr in Hni. unfold zombie_child in Hni.
    destruct (bool_decide (parent r = Some me)) eqn:Ep; cbn [negb andb] in *.
    + assert (bool_decide (state r = ZOMBIE) = false) as Ez by (apply Hni; lia).
      apply bool_decide_eq_false in Ez. rewrite decide_False by done.
      apply IH; try done; [lia..|]. intros j Hj. apply Hno. lia.
    + apply IH; try done; [lia..|]. intros j Hj. apply Hno. lia.
Qed.
(** The locks [wait] must find free: with them [ptable.lock] is the only one. *)
Definition quiet s : Prop :=
  ptable_lock s = false /\ sh_locked s = false /\ kmem_lock (km s) = false /\ fs_locks (fs s) = 0.

Definition no_zombies (ps : list proc) (me : nat) : Prop := forall j, zombie_at ps me j = false.

Lemma wait_round fuel s me r s1 : cur s = me -> ptable_lock s = false ->
  wait_scan NPROCS 0 me false (set_ptable_lock true s) = Ok r s1 ->
  wait (S fuel) s = match fst r with
    | Some pd => Ok pd s1
    | None => (p <- get_proc me ;; if negb (snd r) || killed p then release_ptable ;;; ret (-1)
               else sleep (proc_addr me) None ;;; wait_loop fuel me) s1
    end.
Proof.
  intros Hc Hl Hscan. unfold wait, myproc, bind at 1, gets. cbn [bind_res]. rewrite Hc. unfold bind at 1.
  rewrite acquire_ptable_run, Hl. cbn [bind_res wait_loop]. unfold bind at 1. rewrite Hscan. cbn [bind_res].
  by destruct (fst r).
Qed.

Lemma wait_no_zombie fuel s me p : cur s = me -> length (procs s) = NPROCS -> ptable_lock s = false ->
  procs s !! me = Some p -> no_zombies (procs s) me ->
  wait (S fuel) s =
    (if negb (any_child (procs s) me NPROCS 0) || killed p then release_ptable ;;; ret (-1)
     else sleep (proc_addr me) None ;;; wait_loop fuel me) (set_ptable_lock true s).
Proof.
  intros Hc Hlen Hl Hp Hz.
  assert (wp (wait_scan NPROCS 0 me false) (fun r s1 => r = (None, any_child (procs s) me NPROCS 0) /\ s1 = set_ptable_lock true s)
    (set_ptable_lock true s)) as Hw.
  { apply wp_scan_none; [cbn [procs set_ptable_lock]; lia|intros; apply Hz|]. done. }
  destruct (proj1 (wp_ok _ _ _) Hw) as (r & s1 & Hrun & -> & ->).
  rewrite (wait_round fuel s me _ _ Hc Hl Hrun). cbn [fst snd]. unfold bind at 1, get_proc. cbn [procs set_ptable_lock].
  by rewrite Hp.
Qed.

Lemma sleep_none_missed me p (ps : list proc) : ps !! me = Some p -> no_zombies ps me -> state p <> ZOMBIE ->
  none_missed ps -> none_missed (<[me := asleep (proc_addr me) p]> ps).
Proof.
  intros Hp Hz Hpz Hnm i j pi qj Hi Hj Hs Hc Hpa Hzq. pose proof (lookup_lt_Some _ _ _ Hp) as Hlt.
  assert (j <> me) as Hj'.
  { intros ->. rewrite list_lookup_insert_eq in Hj by done. injection Hj as <-. done. }
  rewrite list_lookup_insert_ne in Hj by done. destruct (decide (i = me)) as [->|Hne].
  - specialize (Hz j). unfold zombie_at, zombie_child in Hz. rewrite Hj in Hz.
    by rewrite !bool_decide_true in Hz by done.
  - rewrite list_lookup_insert_ne in Hi by done. by eapply (Hnm i j).
Qed.

(** C17: [exit] hands over.  The part of [exit] under [ptable.lock] always
    completes: the process is a zombie holding the lock for its last [sched];
    its children have [initproc] as parent, its parent is not asleep in
    [wait], nor is [initproc] when it got a zombie; nothing else of the
    table changes; and still no parent sleeps in [wait] over a zombie. *)
Theorem exit_hands_over (me : nat) (p : proc) (s : kst F) :
  length (procs s) = NPROCS -> ptable_lock s = false -> procs s !! me = Some p -> parent p <> Some me ->
  none_missed (procs s) ->
  exists s', exit_finish me s = Ok tt s' /\ exit_post me p s s' /\ none_missed (procs s') /\
    (exists p', procs s' !! me = Some p' /\ state p' = ZOMBIE) /\
    (forall j q', procs s' !! j = Some q' -> parent q' = Some me -> initproc s = Some me).
Proof.
  intros Hlen Hl Hp Hself Hnm.
  assert (wp (exit_finish me) (fun _ s' => exit_post me p s s') s) as Hw by (by apply (wp_exit_finish me p)).
  destruct (proj1 (wp_ok _ _ _) Hw) as ([] & s' & Hrun & Hpost). exists s'. split_and!; [done|done|by eapply exit_none_missed|..].
  - destruct (ep_slots _ _ _ _ Hpost me p Hp) as (p' & Hp' & q1 & _ & ->). rewrite decide_True in Hp' by done. by eexists.
  - intros j q' Hq' Hpa. destruct (lookup_lt_is_Some_2 (procs s) j) as [q Hq].
    { rewrite <- (ep_len _ _ _ _ Hpost). by eapply lookup_lt_Some. }
    destruct (ep_slots _ _ _ _ Hpost j q Hq) as (q2 & Hq2 & q1 & Hn & ->). rewrite Hq' in Hq2. injection Hq2 as ->.
    assert (parent q1 = Some me) as Hp1 by (by destruct (decide (j = me))).
    rewrite (nudged_parent _ _ _ Hn) in Hp1. unfold adopt in Hp1. rewrite wake_parent in Hp1.
    case_bool_decide as E; [done|]. by rewrite wake_parent in Hp1.
Qed.

(** C16: [wait] reaps.  With a zombie child it returns the pid of the first
    one, makes its slot unused and gives its kernel stack and every page of
    its address space back to the pool.  With no child, or a killed caller and
    no zombie child, it returns -1 and changes nothing.  Otherwise it sleeps
    on the process's own address, still without a sleeping parent over a
    zombie, and scans again when woken. *)
Theorem wait_reaps (fuel me : nat) (p : proc) (s : kst F) :
  cur s = me -> length (procs s) = NPROCS -> quiet s -> procs s !! me = Some p ->
  (forall z q fl pds oth, procs s !! z = Some q -> zombie_child me q = true ->
     (forall j, (j < z)%nat -> zombie_at (procs s) me j = false) ->
     space_inv (km s) fl pds oth -> pgdir q ∈ pds -> kstack q ∈ oth -> window_clear (mem (km s)) (pgdir q) ->
     exists k', wait (S fuel) s = Ok (pid q) (set_km k' (set_procs (<[z := reaped q]> (procs s)) s)) /\
       pages_back (km s) fl q k') /\
  (no_zombies (procs s) me -> any_child (procs s) me NPROCS 0 = false \/ killed p = true ->
     wait (S fuel) s = Ok (-1) s) /\
  (no_zombies (procs s) me -> any_child (procs s) me NPROCS 0 = true -> killed p = false -> state p <> ZOMBIE ->
     exists s' k, wait (S fuel) s = Sleeping (proc_addr me) s' k /\
       procs s' = <[me := asleep (proc_addr me) p]> (procs s) /\ km s' = km s /\
       (none_missed (procs s) -> none_missed (procs s')) /\
       forall t, k t = (woken me None ;;; wait_loop fuel me) t).
Proof.
  intros Hc Hlen (Hl & Hsh & Hkl & Hfl) Hp. split_and!.
  - intros z q fl pds oth Hq Hzc Hfirst Hs Hd Hk Hw. pose proof (lookup_lt_Some _ _ _ Hq) as Hlt.
    assert (wp (wait_scan NPROCS 0 me false) (fun r s1 => r = (Some (pid q), true) /\ exists k', pages_back (km s) fl q k' /\
      s1 = set_km k' (set_procs (<[z := reaped q]> (procs s)) s)) (set_ptable_lock true s)) as Hwp.
    { apply (wp_scan_found me z q fl pds oth); cbn [procs set_ptable_lock]; try done; [lia|lia|intros j Hj; apply Hfirst; lia|].
      intros k' Hk'. split; [done|]. exists k'. split; [done|].
      unfold set_ptable_lock, set_km, set_procs. simpl. by rewrite Hl. }
    destruct (proj1 (wp_ok _ _ _) Hwp) as (r & s1 & Hrun & -> & k' & Hback & ->). exists k'. split; [|done].
    by rewrite (wait_round fuel s me _ _ Hc Hl Hrun).
  - intros Hz Hor. rewrite (wait_no_zombie fuel s me p) by done.
    replace (negb _ || killed p) with true by (destruct Hor as [->| ->]; by rewrite ?orb_true_r).
    unfold bind. rewrite release_ptable_run. cbn [ptable_lock set_ptable_lock bind_res]. unfold ret. f_equal.
    destruct s; simpl in *. by rewrite Hl.
  - intros Hz Hany Hkp Hst. rewrite (wait_no_zombie fuel s me p), Hany, Hkp by done. cbn [negb orb].
    destruct (sleep_ptable (proc_addr me) (set_ptable_lock true s) p) as (k & Hk & Hkt); [done| |by rewrite <- Hc in Hp|].
    { unfold ncli_of. cbn [ptable_lock set_ptable_lock sh_locked sh_table km fs]. unfold sh_locked in Hsh. simpl.
      change (sh_locked (set_ptable_lock true s)) with (sh_lock (sh_table s)). rewrite Hsh, Hkl, Hfl. done. }
    cbn [cur set_ptable_lock procs] in Hk, Hkt. rewrite Hc in Hk, Hkt. unfold bind. rewrite Hk. cbn [bind_res].
    eexists _, _. split; [reflexivity|]. split_and!; [done|done| |].
    + intros Hnm. by apply sleep_none_missed.
    + intros t. by rewrite Hkt.
Qed.
End Family.

(** ** A small family: init (0), asleep in [wait], its child 1, and 1's zombie child 2 *)
Definition no_locks : FsLocks unit := {| fs_locks := fun _ => 0 |}.
Definition family_proc (st : procstate) (pd : Z) (par : option nat) (c : Z) : proc :=
  mk_proc 4096 0x80400000 0x80401000 st pd par 0 0 c false [] 0 [] (mk_pshm 0 [] [] [] []).
Definition family (st1 : procstate) : list proc :=
  [family_proc SLEEPING 1 None 0x80112d54; family_proc st1 2 (Some 0%nat) 0; family_proc ZOMBIE 3 (Some 1%nat) 0]
  ++ replicate 61 (family_proc UNUSED 0 None 0).
Definition family_kst (c : nat) : kst unit :=
  mk_kst kmem_boot (mk_shm false [] []) false (family RUNNING) 4 (Some 0%nat) c (mk_regs 0 0 0 0 0 0 null_seg) tt.

Lemma family_lookup st1 j q : family st1 !! j = Some q ->
  (j = 0%nat /\ q = family_proc SLEEPING 1 None 0x80112d54) \/ (j = 1%nat /\ q = family_proc st1 2 (Some 0%nat) 0) \/
  (j = 2%nat /\ q = family_proc ZOMBIE 3 (Some 1%nat) 0) \/ q = family_proc UNUSED 0 None 0.
Proof.
  destruct j as [|[|[|j]]].
  1-3: intros [= <-]; tauto.
  intros H. change (replicate 61 (family_proc UNUSED 0 None 0) !! j = Some q) in H.
  apply lookup_replicate in H as [-> _]. tauto.
Qed.

Lemma family_none_missed : @none_missed demo_proc_image (family RUNNING).
Proof.
  intros i j p q Hi Hj Hs _ Hpa Hz.
  apply family_lookup in Hi as [[-> ->]|[[-> ->]|[[-> ->]| ->]]]; try done.
  apply family_lookup in Hj as [[-> ->]|[[-> ->]|[[-> ->]| ->]]]; done.
Qed.

Lemma family_no_zombies i : i <> 1%nat -> no_zombies (family RUNNING) i.
Proof.
  intros Hi j. unfold zombie_at. destruct (family RUNNING !! j) as [q|] eqn:Hq; [|done].
  unfold zombie_child. apply family_lookup in Hq as [[-> ->]|[[-> ->]|[[-> ->]| ->]]]; cbn [parent state family_proc];
    [by rewrite andb_false_r..| |by rewrite andb_false_r].
  by rewrite bool_decide_false by congruence.
Qed.

Lemma exit_hands_over_witness : exists s',
  @exit_finish demo_proc_image unit 1 (family_kst 1) = Ok tt s' /\ none_missed (P := demo_proc_image) (procs s').
Proof.
  destruct (@exit_hands_over demo_proc_image unit 1 (family_proc RUNNING 2 (Some 0%nat) 0) (family_kst 1))
    as (s' & Hrun & _ & Hnm & _); [done..|apply family_none_missed|]. by exists s'.
Defined.

(** Process 0 has a live child and goes to sleep; process 2 has none and returns. *)
Lemma wait_reaps_witness :
  (exists s' k, @wait demo_image demo_proc_image unit no_locks 5 (family_kst 0) = Sleeping 0x80112d54 s' k) /\
  @wait demo_image demo_proc_image unit no_locks 5 (family_kst 2) = Ok (-1) (family_kst 2).
Proof.
  destruct (@wait_reaps demo_image demo_proc_image unit no_locks demo_image_ok 4 0 (family_proc SLEEPING 1 None 0x80112d54)
    (family_kst 0)) as (_ & _ & Hsleep); [done..|].
  destruct (@wait_reaps demo_image demo_proc_image unit no_locks demo_image_ok 4 2 (family_proc ZOMBIE 3 (Some 1%nat) 0)
    (family_kst 2)) as (_ & Hnone & _); [done..|].
  split.
  - destruct Hsleep as (s' & k & Hrun & _); [by apply family_no_zombies|done..|by exists s', k].
  - apply Hnone; [by apply family_no_zombies|by left].
Defined.
