(* ===== verification/ProcAlloc.v ===== *)
(** * [allocproc] and [growproc]

    The slot, pid, kernel stack and first context of a new process; growing
    and shrinking a process, with the case in which [growproc] reports failure
    after giving the memory away; and what [kill] on pid 0 does to a process
    that does not exist yet. *)
From Stdlib Require Import ZArith Lia Bool.
From stdpp Require Import base numbers list strings.
From S2P Require Import Prelude Machine Cstring Kalloc Segments Vm VmInv VmMap VmUser VmAlloc VmProps.
From S2P Require Import Spaces Kstate Shm ShmInv ShmGet Proc Sched.

Section Alloc.
Context {I : KernelImage} `{!KernelImageOk I} {L : Literals} {P : ProcImage} {F : Type} {FL : FsLocks F} {FO : FsOps F}.
Implicit Types s : kst F.

(** ** Clearing the shared-page fields *)
Lemma insert_fill {A} (x : A) l i : (i < length l)%nat ->
  <[i := x]> (replicate i x ++ drop i l) = replicate (S i) x ++ drop (S i) l.
Proof.
  intros Hi. destruct (lookup_lt_is_Some_2 l i Hi) as [y Hy]. rewrite (drop_S _ _ _ Hy).
  rewrite insert_app_r_alt by (rewrite length_replicate; lia). rewrite length_replicate, Nat.sub_diag.
  rewrite replicate_S_end, <- app_assoc. done.
Qed.

Definition clear_upto (n : nat) (q : proc_shm) : proc_shm :=
  mk_pshm (top q) (replicate n 0 ++ drop n (phy_shared_page q)) (replicate n 0 ++ drop n (vm_shared_page q))
    (replicate n zero_key ++ drop n (p_key q)) (replicate n 0 ++ drop n (bitmap q)).
Definition cleared_shm (q : proc_shm) : proc_shm :=
  mk_pshm (top q) (replicate 32 0) (replicate 32 0) (replicate 32 zero_key) (replicate 32 0).

Lemma clear_upto_S n q : length (phy_shared_page q) = 32%nat -> length (vm_shared_page q) = 32%nat ->
  length (p_key q) = 32%nat -> length (bitmap q) = 32%nat -> (n < 32)%nat ->
  set_pkey n zero_key (set_bitmap n 0 (set_vm n 0 (set_phy n 0 (clear_upto n q)))) = clear_upto (S n) q.
Proof.
  intros H1 H2 H3 H4 Hn. unfold set_pkey, set_bitmap, set_vm, set_phy, clear_upto. cbn.
  by rewrite !insert_fill by lia.
Qed.
Lemma set_pshm_pshm a b p : set_pshm a (set_pshm b p) = set_pshm a p. Proof. done. Qed.
Lemma pshm_set_pshm a p : pshm (set_pshm a p) = a. Proof. done. Qed.

Lemma wp_clear_shm i p s (Q : unit -> kst F -> Prop) : procs s !! i = Some p -> proc_ok p ->
  Q tt (set_procs (<[i := set_pshm (cleared_shm (pshm p)) p]> (procs s)) s) -> wp (clear_shm i) Q s.
Proof.
  intros Hp [Hphy Hvm Hkey _ Hbit] HQ. pose proof (lookup_lt_Some _ _ _ Hp) as Hlt. unfold clear_shm.
  apply (wp_for_range (fun n s' => s' = set_procs (<[i := set_pshm (clear_upto n (pshm p)) p]> (procs s)) s)).
  - assert (set_pshm (clear_upto 0 (pshm p)) p = p) as ->.
    { unfold clear_upto. simpl. rewrite !drop_0. by destruct p as [? ? ? ? ? ? ? ? ? ? ? ? ? []]. }
    rewrite list_insert_id by done. by destruct s.
  - intros n s' Hn ->. unfold SHMEM_PAGES in Hn.
    do 3 (wp_step; eapply wp_upd_pshm; [cbn [procs set_procs]; by apply list_lookup_insert_eq; rewrite ?length_insert|];
          cbn [procs set_procs]; rewrite !list_insert_insert_eq, ?set_pshm_pshm, ?pshm_set_pshm, set_procs_set_procs).
    eapply wp_upd_pshm; [cbn [procs set_procs]; by apply list_lookup_insert_eq; rewrite ?length_insert|].
    cbn [procs set_procs]. rewrite !list_insert_insert_eq, set_pshm_pshm, pshm_set_pshm, set_procs_set_procs.
    by rewrite clear_upto_S by lia.
  - intros s' ->. revert HQ. unfold clear_upto, cleared_shm, SHMEM_PAGES. simpl (0 + 32)%nat.
    rewrite !drop_ge by lia. by rewrite !app_nil_r.
Qed.

(** ** [allocproc] *)
Definition fresh_proc (n ks : Z) (p : proc) : proc :=
  set_pshm (cleared_shm (pshm p))
    (set_context (ks + KSTACKSIZE - sizeof_trapframe - 4 - sizeof_context)
       (set_tf (ks + KSTACKSIZE - sizeof_trapframe) (set_kstack ks (set_pid n (set_state EMBRYO p))))).

(** The kernel stack of a new process: above its context and the address of
    [trapret] there is room for the trap frame. *)
Record fresh_stack (m m' : memory) (ks : Z) : Prop := {
  fs_trapret : load32 m' (ks + 4096 - 76 - 4) = u32 trapret_addr;
  fs_eip : load32 m' (ks + 4096 - 76 - 4 - 20 + 16) = u32 forkret_addr;
  fs_regs : forall j, 0 <= j < 4 -> load32 m' (ks + 4096 - 76 - 4 - 20 + 4 * j) = 0;
  fs_out : forall x, x < ks \/ ks + PGSIZE <= x -> m' x = m x;
}.

Definition stack_mem (m : memory) (ks : Z) : memory :=
  let sp := ks + KSTACKSIZE - sizeof_trapframe - 4 in
  store32 (memset (store32 m sp trapret_addr) (sp - sizeof_context) 0 sizeof_context) (sp - sizeof_context + ctx_eip) forkret_addr.

Lemma stack_mem_fresh m ks : fresh_stack m (stack_mem m ks) ks.
Proof.
  unfold stack_mem, KSTACKSIZE, sizeof_trapframe, sizeof_context, ctx_eip. constructor.
  - rewrite load32_store32_ne by lia. rewrite (load32_agree (store32 m (ks + 4096 - 76 - 4) trapret_addr)).
    + apply load32_store32_eq.
    + intros x Hx. rewrite memset_eq by lia.
      by rewrite (proj2 (Z.ltb_ge x (ks + 4096 - 76 - 4 - 20 + 20))), andb_false_r by lia.
  - apply load32_store32_eq.
  - intros j Hj. rewrite load32_store32_ne by lia. rewrite (load32_agree (fun _ => 0)); [done|].
    intros x Hx. rewrite memset_eq by lia. by rewrite (proj2 (Z.leb_le _ x)), (proj2 (Z.ltb_lt x _)) by lia.
  - intros x Hx. unfold PGSIZE in Hx. rewrite store32_out by lia. rewrite memset_eq by lia.
    destruct ((_ <=? x) && (x <? _)) eqn:E; [apply andb_true_iff in E as [?%Z.leb_le ?%Z.ltb_lt]; lia|].
    apply store32_out. lia.
Qed.

Definition first_unused (ps : list proc) (i : nat) (p : proc) : Prop :=
  ps !! i = Some p /\ state p = UNUSED /\ forall j q, (j < i)%nat -> ps !! j = Some q -> state q <> UNUSED.

Lemma wp_find_unused s i p (Q : option nat -> kst F -> Prop) : length (procs s) = NPROCS ->
  first_unused (procs s) i p -> Q (Some i) s ->
  wp (for_find NPROCS 0 (fun i => p <- get_proc i ;; ret (if decide (state p = UNUSED) then Some i else None))) Q s.
Proof.
  intros Hlen (Hp & Hst & Hno) HQ. pose proof (lookup_lt_Some _ _ _ Hp) as Hlt.
  apply (wp_for_find (fun j s' => s' = s /\ (j <= i)%nat)); [split; [done|lia]|..].
  - intros j s' Hj [-> Hle]. destruct (lookup_lt_is_Some_2 (procs s) j) as [q Hq]; [lia|].
    wp_step. apply (wp_get_proc s j q); [done|]. apply wp_ret.
    destruct (decide (j = i)) as [->|Hne].
    + rewrite Hp in Hq. injection Hq as <-. by rewrite decide_True.
    + rewrite decide_False by (eapply Hno; [|done]; lia). split; [done|lia].
  - intros s' [-> Hle]. rewrite <- Hlen in Hle. lia.
Qed.

Lemma wp_allocproc_none s (Q : option nat -> kst F -> Prop) : length (procs s) = NPROCS -> ptable_lock s = false ->
  (forall j q, procs s !! j = Some q -> state q <> UNUSED) -> Q None s -> wp allocproc Q s.
Proof.
  intros Hlen Hl Hno HQ. unfold allocproc. wp_step. apply wp_acquire_ptable; [done|]. wp_step.
  apply (wp_for_find (fun _ s' => s' = set_ptable_lock true s)); [done|..].
  - intros j s' Hj ->. destruct (lookup_lt_is_Some_2 (procs s) j) as [q Hq]; [lia|].
    wp_step. apply (wp_get_proc _ j q); [done|]. apply wp_ret. by rewrite decide_False by by eapply Hno.
  - intros s' ->. wp_step. apply wp_release_ptable; [done|]. apply wp_ret.
    unfold set_ptable_lock. simpl. rewrite <- Hl. by destruct s.
Qed.

(** [nextpid], and the slot when there is no page for the kernel stack. *)
Definition failed_proc (n : Z) (p : proc) : proc := set_state UNUSED (set_kstack 0 (set_pid n (set_state EMBRYO p))).

Lemma wp_allocproc_some s i p fl (Q : option nat -> kst F -> Prop) : length (procs s) = NPROCS -> ptable_lock s = false ->
  first_unused (procs s) i p -> proc_ok p -> kmem_inv (km s) fl ->
  (fl = [] -> forall k', kmem_inv k' [] -> mem k' = mem (km s) -> use_lock k' = use_lock (km s) ->
     Q None (set_km k' (set_nextpid (i32 (nextpid s + 1)) (set_procs (<[i := failed_proc (nextpid s) p]> (procs s)) s)))) ->
  (forall ks fl' k', fl = ks :: fl' -> kmem_inv k' fl' -> fresh_stack (mem (km s)) (mem k') ks -> use_lock k' = use_lock (km s) ->
     Q (Some i) (set_km k' (set_nextpid (i32 (nextpid s + 1)) (set_procs (<[i := fresh_proc (nextpid s) ks p]> (procs s)) s)))) ->
  wp allocproc Q s.
Proof.
  intros Hlen Hl Hf Hok Hk HQ0 HQ. pose proof Hf as (Hp & _). pose proof (lookup_lt_Some _ _ _ Hp) as Hlt.
  unfold allocproc. wp_step. apply wp_acquire_ptable; [done|]. wp_step.
  apply (wp_find_unused _ i p); [done|done|].
  wp_step. eapply wp_upd_proc; [exact Hp|]. wp_steps.
  do 1 (eapply wp_upd_proc; [cbn [procs set_procs]; by apply list_lookup_insert_eq; rewrite ?length_insert|];
        cbn [procs set_procs set_ptable_lock]; rewrite !list_insert_insert_eq).
  wp_steps. apply wp_release_ptable; [done|]. wp_step. apply wp_lift.
  apply (wp_kalloc _ fl); [done|]. intros k1 Hk1 Hm1 Hul1.
  change (mem k1 = mem (km s)) in Hm1. change (use_lock k1 = use_lock (km s)) in Hul1.
  wp_step. eapply wp_upd_proc; [cbn [procs set_procs]; by apply list_lookup_insert_eq; rewrite ?length_insert|].
  cbn [procs set_procs set_ptable_lock set_nextpid set_km]. rewrite !list_insert_insert_eq.
  destruct fl as [|ks fl']; cbn [spec_kalloc fst snd] in *.
  - rewrite Z.eqb_refl. wp_step.
    eapply wp_upd_proc; [cbn [procs set_procs]; by apply list_lookup_insert_eq; rewrite ?length_insert|]. apply wp_ret.
    cbn [procs set_procs set_ptable_lock set_nextpid set_km]. rewrite !list_insert_insert_eq.
    refine (eq_ind _ (Q None) (HQ0 eq_refl k1 Hk1 Hm1 Hul1) _ _). by apply kst_ext.
  - assert (valid_page ks) as Hv by (pose proof (inv_valid _ _ Hk) as Hv; by inversion Hv).
    pose proof (valid_page_bounds ks Hv). rewrite (proj2 (Z.eqb_neq ks 0)) by lia. cbn zeta.
    wp_step. eapply wp_upd_proc; [cbn [procs set_procs]; by apply list_lookup_insert_eq; rewrite ?length_insert|].
    wp_step. apply wp_lift, wp_modify. wp_step.
    eapply wp_upd_proc; [cbn [procs set_procs set_km]; by apply list_lookup_insert_eq; rewrite ?length_insert|].
    wp_step. apply wp_lift, wp_modify. wp_step. apply wp_lift, wp_modify. wp_step.
    cbn [procs set_procs set_ptable_lock set_nextpid set_km km]. rewrite !list_insert_insert_eq.
    eapply wp_clear_shm; [cbn [procs set_procs set_km]; by apply list_lookup_insert_eq; rewrite ?length_insert|by destruct Hok|].
    apply wp_ret. cbn [procs set_procs set_ptable_lock set_nextpid set_km km mem set_mem]. rewrite !list_insert_insert_eq.
    refine (eq_ind _ (Q (Some i)) (HQ ks fl' (set_mem (stack_mem (mem (km s)) ks) k1) eq_refl _ (stack_mem_fresh _ _) Hul1) _ _).
    + apply kmem_inv_write; [done|]. intros q x Hq Hx. rewrite Hm1. apply (fs_out _ _ _ (stack_mem_fresh (mem (km s)) ks)).
      pose proof (inv_nodup _ _ Hk) as Hnd. apply NoDup_cons in Hnd as [Hnin _].
      pose proof (inv_valid _ _ Hk) as Hvs. rewrite Forall_forall in Hvs.
      apply (valid_page_sep q); [apply Hvs; by right|done|by intros ->|done].
    + apply kst_ext; try done. cbn [km set_km set_procs set_nextpid mem set_mem]. unfold stack_mem. rewrite <- Hm1. done.
Qed.

(** C18: [allocproc] makes a new process or leaves the table able to make one.
    Without an unused slot it returns 0 and changes nothing.  Otherwise it
    takes the first unused slot and the next pid.  With a free page the slot
    becomes an embryo whose kernel stack holds, under the room for the trap
    frame, the address of [trapret] and a zeroed context that starts at
    [forkret], with no shared pages; without one the slot is unused again. *)
Theorem allocproc_creates (s : kst F) (fl : list Z) :
  length (procs s) = NPROCS -> ptable_lock s = false -> kmem_inv (km s) fl ->
  ((forall j q, procs s !! j = Some q -> state q <> UNUSED) -> allocproc s = Ok None s) /\
  (forall i p, first_unused (procs s) i p -> proc_ok p -> exists k' r,
     allocproc s = Ok r (set_km k' (set_nextpid (i32 (nextpid s + 1)) (set_procs
       (<[i := match fl with [] => failed_proc (nextpid s) p | ks :: _ => fresh_proc (nextpid s) ks p end]> (procs s)) s))) /\
     match fl with
     | [] => r = None /\ kmem_inv k' [] /\ mem k' = mem (km s)
     | ks :: fl' => r = Some i /\ kmem_inv k' fl' /\ fresh_stack (mem (km s)) (mem k') ks
     end).
Proof.
  intros Hlen Hl Hk. split.
  - intros Hno. assert (wp allocproc (fun r s' => r = None /\ s' = s) s) as Hw by (by apply wp_allocproc_none).
    by destruct (proj1 (wp_ok _ _ _) Hw) as (r & s' & -> & -> & ->).
  - intros i p Hf Hok.
    assert (wp allocproc (fun r s' => exists k', s' = set_km k' (set_nextpid (i32 (nextpid s + 1)) (set_procs
       (<[i := match fl with [] => failed_proc (nextpid s) p | ks :: _ => fresh_proc (nextpid s) ks p end]> (procs s)) s)) /\
       match fl with [] => r = None /\ kmem_inv k' [] /\ mem k' = mem (km s)
       | ks :: fl' => r = Some i /\ kmem_inv k' fl' /\ fresh_stack (mem (km s)) (mem k') ks end) s) as Hw.
    { apply (wp_allocproc_some s i p fl); try done.
      - intros -> k' Hk' Hm' _. by exists k'.
      - intros ks fl' k' -> Hk' Hst _. by exists k'. }
    destruct (proj1 (wp_ok _ _ _) Hw) as (r & s' & Hrun & k' & -> & Hpost). by exists k', r.
Qed.

(** C36: [kill] does not ask whether the process exists.  When the first slot
    with pid 0 is unused, [kill(0)] marks it as killed and reports success;
    [allocproc] does not clear the mark, so the next process created in the
    slot is a killed one. *)
Theorem kill_zero_dooms_next (s : kst F) (i : nat) (p : proc) (ks : Z) (fl : list Z) :
  length (procs s) = NPROCS -> ptable_lock s = false -> first_unused (procs s) i p -> proc_ok p -> pid p = 0 ->
  (forall j q, (j < i)%nat -> procs s !! j = Some q -> pid q <> 0) -> kmem_inv (km s) (ks :: fl) ->
  exists s1 s2 p', kill 0 s = Ok 0 s1 /\ allocproc s1 = Ok (Some i) s2 /\
    procs s2 !! i = Some p' /\ state p' = EMBRYO /\ killed p' = true.
Proof.
  intros Hlen Hl Hf Hok Hpid Hno Hk. pose proof Hf as (Hp & Hst & Hfirst). pose proof (lookup_lt_Some _ _ _ Hp) as Hlt.
  set (s1 := set_procs (<[i := set_killed true p]> (procs s)) s).
  assert (wp (kill 0) (fun r s' => r = 0 /\ s' = s1) s) as Hkill.
  { apply (wp_kill_found s i p 0); try done. split; [done|]. unfold s1, killed_proc.
    by rewrite bool_decide_false by (by rewrite Hst). }
  destruct (proj1 (wp_ok _ _ _) Hkill) as (r & s1' & Hrun & -> & ->).
  assert (wp allocproc (fun r s' => r = Some i /\ exists k, procs s' !! i = Some (fresh_proc (nextpid s) k (set_killed true p))) s1) as Ha.
  { apply (wp_allocproc_some s1 i (set_killed true p) (ks :: fl)); try done.
    - unfold s1. cbn. by rewrite length_insert.
    - split_and!; [by apply list_lookup_insert_eq|done|]. intros j q Hj. cbn. rewrite list_lookup_insert_ne by lia. by apply Hfirst.
    - by destruct Hok.
    - intros ks' fl' k' [= -> ->] _ _ _. split; [done|]. exists ks'. cbn [procs set_km set_nextpid set_procs s1].
      apply list_lookup_insert_eq. by rewrite length_insert. }
  destruct (proj1 (wp_ok _ _ _) Ha) as (r & s2 & Hrun2 & -> & k & Hp2).
  exists s1, s2, (fresh_proc (nextpid s) k (set_killed true p)). by split_and!.
Qed.

(** ** [growproc] *)
Lemma wp_switchuvm i p s (Q : unit -> kst F -> Prop) : procs s !! i = Some p -> kstack p <> 0 -> pgdir p <> 0 ->
  (forall h, cr3 h = V2P (pgdir p) -> ts_esp0 h = u32 (kstack p + KSTACKSIZE) -> Q tt (set_hw h s)) -> wp (switchuvm i) Q s.
Proof.
  intros Hp Hk Hd HQ. unfold switchuvm. wp_step. apply (wp_get_proc s i p); [done|].
  rewrite (proj2 (Z.eqb_neq _ _) Hk), (proj2 (Z.eqb_neq _ _) Hd). apply wp_modify. by apply HQ.
Qed.

(** The state after [growproc] has set the size of process [me] to [n]. *)
Definition resized (me : nat) (p : proc) (n : Z) (k' : kmem_t) (s s' : kst F) : Prop :=
  exists h, cr3 h = V2P (pgdir p) /\ s' = set_hw h (set_procs (<[me := set_sz n p]> (procs s)) (set_km k' s)).

(** C19: [growproc].  Growing maps fresh zeroed pages, sets the size and
    returns 0, or returns -1 with the old size and no page lost.  Shrinking
    frees the pages beyond the new size, sets it and returns 0; but when the
    new size is 0 it returns -1 and leaves the old size, although all the
    pages are gone. *)
Theorem growproc_resizes (s : kst F) (me : nat) (p : proc) (n : Z) (fl : list Z) :
  let lo := sz p + 4095 - (sz p + 4095) mod 4096 in
  cur s = me -> procs s !! me = Some p -> kstack p <> 0 -> uvm_inv (km s) (pgdir p) fl ->
  0 < sz p < KERNBASE -> - 2 ^ 31 <= n < 2 ^ 31 ->
  (forall va, aligned va -> lo <= va < sz p + n -> mapped (mem (km s)) (pgdir p) va = false) ->
  (0 < n -> exists r s', growproc n s = Ok r s' /\
     ((r = 0 /\ exists k' fl', resized me p (sz p + n) k' s s' /\
         alloc_rel (km s) k' (pgdir p) lo (sz p + n) fl fl') \/
      (r = -1 /\ exists k' fl', s' = set_km k' s /\
         (k' = km s \/ alloc_undone (km s) k' (pgdir p) lo (sz p + n) fl fl')))) /\
  (n < 0 -> 0 < sz p + n -> exists s' k' fl', growproc n s = Ok 0 s' /\ resized me p (sz p + n) k' s s' /\
     dealloc_rel (km s) k' (pgdir p) (sz p + n + 4095 - (sz p + n + 4095) mod 4096) (sz p) fl fl') /\
  (sz p + n = 0 -> exists k' fl', growproc n s = Ok (-1) (set_km k' s) /\
     dealloc_rel (km s) k' (pgdir p) 0 (sz p) fl fl').
Proof.
  intros lo Hc Hp Hks Hu Hsz Hn Hun. rewrite pow2_31 in Hn. pose proof (valid_page_bounds _ (wf_dir _ _ (as_wf _ _ _ (uvm_as _ _ _ Hu)))) as Hd.
  assert (forall r k' (Q : Z -> kst F -> Prop), (n <> 0 -> r <> 0) -> (forall s', resized me p r k' s s' -> Q 0 s') ->
    wp (if negb (n =? 0) && (r =? 0) then ret (-1) else upd_proc me (set_sz r) ;;; switchuvm me ;;; ret 0) Q (set_km k' s)) as Hfin.
  { intros r k' Q Hr HQ. replace (negb (n =? 0) && (r =? 0)) with false.
    2: { destruct (Z.eqb_spec n 0); [done|]. by rewrite (proj2 (Z.eqb_neq _ _)) by auto. }
    wp_step. eapply wp_upd_proc; [exact Hp|]. wp_step.
    eapply (wp_switchuvm me (set_sz r p)); [apply list_lookup_insert_eq; by eapply lookup_lt_Some|done|cbn; lia|].
    intros h Hh _. apply wp_ret, HQ. by exists h. }
  split_and!.
  - intros Hpos. set (Q := fun r s' => (r = 0 /\ exists k' fl', resized me p (sz p + n) k' s s' /\
         alloc_rel (km s) k' (pgdir p) lo (sz p + n) fl fl') \/
      (r = -1 /\ exists k' fl', s' = set_km k' s /\
         (k' = km s \/ alloc_undone (km s) k' (pgdir p) lo (sz p + n) fl fl'))).
    enough (wp (growproc n) Q s) as Hw by (by destruct (proj1 (wp_ok _ _ _) Hw) as (r & s' & Hr & HQ); exists r, s').
    unfold growproc, myproc. wp_steps. rewrite Hc. apply (wp_get_proc s me p); [done|].
    rewrite (proj2 (Z.ltb_lt _ _) Hpos). rewrite u32_small by klia. wp_step. apply wp_lift.
    assert (forall k', (exists fl', k' = km s \/ alloc_undone (km s) k' (pgdir p) lo (sz p + n) fl fl') ->
      wp (if negb (n =? 0) && (0 =? 0) then ret (-1) else upd_proc me (set_sz 0) ;;; switchuvm me ;;; ret 0) Q (set_km k' s)) as Hfail.
    { intros k' [fl' Hk']. rewrite (proj2 (Z.eqb_neq n 0)) by lia. apply wp_ret. right. split; [done|]. by exists k', fl'. }
    destruct (Z_lt_dec (sz p + n) KERNBASE) as [Hlt|Hge].
    + apply (wp_allocuvm (km s) (pgdir p) (sz p) (sz p + n) fl); try done; [lia| |].
      * intros k' fl' Hrel. apply Hfin; [lia|]. intros s' Hs'. left. split; [done|]. by exists k', fl'.
      * intros k' fl' Hrel. apply Hfail. by exists fl'; right.
    + unfold allocuvm. rewrite (proj2 (Z.leb_le _ _)) by lia. apply wp_ret. apply Hfail. exists fl. by left.
  - intros Hneg Hnew. 
    enough (wp (growproc n) (fun r s' => r = 0 /\ exists k' fl', resized me p (sz p + n) k' s s' /\
      dealloc_rel (km s) k' (pgdir p) (sz p + n + 4095 - (sz p + n + 4095) mod 4096) (sz p) fl fl') s) as Hw
      by (destruct (proj1 (wp_ok _ _ _) Hw) as (r & s' & Hr & -> & k' & fl' & H1 & H2); by exists s', k', fl').
    unfold growproc, myproc. wp_steps. rewrite Hc. apply (wp_get_proc s me p); [done|].
    rewrite (proj2 (Z.ltb_ge 0 n)), (proj2 (Z.ltb_lt n 0)), u32_small by klia. wp_step. apply wp_lift.
    apply (wp_deallocuvm (km s) (pgdir p) (sz p) (sz p + n) fl); [done|lia|lia|lia|]. intros _ k' fl' Hrel.
    apply Hfin; [lia|]. intros s' Hs'. split; [done|]. by exists k', fl'.
  - intros Hz.
    enough (wp (growproc n) (fun r s' => r = -1 /\ exists k' fl', s' = set_km k' s /\ dealloc_rel (km s) k' (pgdir p) 0 (sz p) fl fl') s) as Hw
      by (destruct (proj1 (wp_ok _ _ _) Hw) as (r & s' & Hr & -> & k' & fl' & -> & H2); by exists k', fl').
    unfold growproc, myproc. wp_steps. rewrite Hc. apply (wp_get_proc s me p); [done|].
    rewrite (proj2 (Z.ltb_ge 0 n)), (proj2 (Z.ltb_lt n 0)), u32_small by klia. rewrite Hz. wp_step. apply wp_lift.
    apply (wp_deallocuvm (km s) (pgdir p) (sz p) 0 fl); [done|lia|lia|lia|]. intros _ k' fl' Hrel.
    rewrite (proj2 (Z.eqb_neq n 0)) by lia. apply wp_ret. split; [done|]. by exists k', fl'.
Qed.
End Alloc.

(** ** A table with one process, in the address space of [VmProps] *)
Definition plain_proc (st : procstate) (pd : Z) : proc :=
  mk_proc 4096 demo_dir 0x80405000 st pd None 0 0 0 false (replicate 16 0) 0 (replicate 16 0)
    (cleared_shm (mk_pshm 0 [] [] [] [])).
Definition alloc_kst : kst unit :=
  mk_kst demo_space (mk_shm false [] []) false (plain_proc RUNNING 1 :: replicate 63 (plain_proc UNUSED 0))
    2 None 0 (mk_regs 0 0 0 0 0 0 null_seg) tt.

Lemma plain_ok st pd : proc_ok (plain_proc st pd).
Proof. constructor; [done..| |done]. cbn -[replicate]. apply Forall_replicate. split; [by apply Forall_replicate|done]. Qed.
Lemma alloc_first : first_unused (procs alloc_kst) 1 (plain_proc UNUSED 0).
Proof. split_and!; [done..|]. intros [|j] q Hj; [|lia]. by intros [= <-]. Qed.

Lemma allocproc_creates_witness : exists r s', @allocproc demo_proc_image unit alloc_kst = Ok r s' /\ r = Some 1%nat.
Proof.
  destruct (@allocproc_creates demo_image demo_image_ok demo_proc_image unit alloc_kst demo_fl) as [_ H];
    [done|done|apply demo_kmem|].
  destruct (H 1%nat (plain_proc UNUSED 0) alloc_first (plain_ok _ _)) as (k' & r & Hr & Hres).
  eexists r, _. split; [exact Hr|]. apply Hres.
Defined.

Lemma kill_zero_dooms_next_witness : exists s1 s2 p', @kill unit 0 alloc_kst = Ok 0 s1 /\
  @allocproc demo_proc_image unit s1 = Ok (Some 1%nat) s2 /\ procs s2 !! 1%nat = Some p' /\ killed p' = true.
Proof.
  destruct (@kill_zero_dooms_next demo_image demo_image_ok demo_proc_image unit alloc_kst 1 (plain_proc UNUSED 0)
    0x80403000 [0x80404000; 0x80406000]) as (s1 & s2 & p' & H1 & H2 & H3 & _ & H4);
    [done|done|apply alloc_first|apply plain_ok|done| |apply demo_kmem|by exists s1, s2, p'].
  intros [|j] q Hj; [|lia]. by intros [= <-].
Defined.

Lemma growproc_resizes_witness : exists k', @growproc demo_image demo_proc_image unit (-4096) alloc_kst = Ok (-1) (set_km k' alloc_kst).
Proof.
  destruct (@growproc_resizes demo_image demo_image_ok demo_proc_image unit alloc_kst 0 (plain_proc RUNNING 1) (-4096) demo_fl)
    as (_ & _ & H); [done|done|done|apply demo_uvm|done|done| |].
  - intros va [Ha _] Hr. cbn [sz plain_proc] in Hr. lia.
  - destruct (H eq_refl) as (k' & fl' & Hk & _). by exists k'.
Defined.
