(* ===== verification/Sem.v ===== *)
(** * [semaphores.c]: counting semaphores

    A semaphore lives in memory the processes share, so each process passes
    the address at which it sees it; the address is also the channel the
    process sleeps on.  The first part gives the code, the second the
    interleavings of processes that go through [sem_down] and [sem_up] around a
    section, and the third what goes wrong at value 0 and with two addresses. *)
From Stdlib Require Import ZArith Lia Bool.
From stdpp Require Import base functions list strings relations.
From S2P Require Import Prelude Machine Cstring Kalloc Segments Vm Kstate Shm Proc Sched.

Record sem_t : Type := mk_sem {
  sem_lk : bool;
  value : Z;
  maxval : Z;
  isactive : Z;
  locked : Z;
}.

Section Code.
Context {I : KernelImage} {L : Literals} {P : ProcImage} {F : Type} {FL : FsLocks F} {LS : Lens F sem_t}.
Abbreviation K := (M (kst F)).

Definition sem_of (s : kst F) : sem_t := lget (fs s).
Definition set_sem (v : sem_t) (s : kst F) : kst F := set_fs (lput v (fs s)) s.
Definition on_sem (f : sem_t -> sem_t) : K unit := modify (fun s => set_sem (f (sem_of s)) s).

Definition set_sem_lk b m := mk_sem b (value m) (maxval m) (isactive m) (locked m).
Definition set_value v m := mk_sem (sem_lk m) v (maxval m) (isactive m) (locked m).
Definition set_maxval v m := mk_sem (sem_lk m) (value m) v (isactive m) (locked m).
Definition set_isactive v m := mk_sem (sem_lk m) (value m) (maxval m) v (locked m).
Definition set_locked v m := mk_sem (sem_lk m) (value m) (maxval m) (isactive m) v.

Definition acquire_sem : K unit := acquire_flag (fun s => sem_lk (sem_of s)) (fun b s => set_sem (set_sem_lk b (sem_of s)) s).
Definition release_sem : K unit := release_flag (fun s => sem_lk (sem_of s)) (fun b s => set_sem (set_sem_lk b (sem_of s)) s).
Definition sem_lockref : lockref := mk_lockref acquire_sem release_sem.

Definition sem_init (v : Z) : K unit :=
  on_sem (set_maxval v) ;;;
  on_sem (set_value v) ;;;
  on_sem (set_isactive 0) ;;;
  on_sem (set_locked 0) ;;;
  on_sem (set_sem_lk false).

Definition sem_up (sem : Z) : K unit :=
  acquire_sem ;;;
  on_sem (fun m => set_value (i32 (value m + 1)) m) ;;;
  m <- gets sem_of ;;
  when (value m =? maxval m) (on_sem (set_isactive 0)) ;;;
  on_sem (set_locked 0) ;;;
  wakeup sem ;;;
  release_sem.

(** [while(sem->locked) sleep(sem, &(sem->lk))], a round per wake-up. *)
Fixpoint sem_wait (fuel : nat) (sem : Z) : K unit :=
  match fuel with
  | O => nofuel
  | S fuel' =>
      m <- gets sem_of ;;
      if locked m =? 0 then ret tt
      else sleep sem (Some sem_lockref) ;;; sem_wait fuel' sem
  end.

Definition sem_down (fuel : nat) (sem : Z) : K unit :=
  acquire_sem ;;;
  m <- gets sem_of ;;
  (if locked m =? 0 then
     when (value m =? 1) (on_sem (set_locked 1)) ;;;
     on_sem (fun m => set_value (i32 (value m - 1)) m) ;;;
     on_sem (set_isactive 1)
   else
     sem_wait fuel sem ;;;
     m <- gets sem_of ;;
     (if value m =? 1 then on_sem (set_locked 1) else on_sem (set_locked 0)) ;;;
     on_sem (fun m => set_value (i32 (value m - 1)) m) ;;;
     on_sem (set_isactive 1)) ;;;
  release_sem.

Definition isActive : K Z :=
  m <- gets sem_of ;;
  ret (if isactive m =? 1 then 1 else 0).
End Code.

Section Effects.
Context {I : KernelImage} {L : Literals} {P : ProcImage} {F : Type} {FL : FsLocks F} {LS : Lens F sem_t} `{!LensOk LS}.
Abbreviation K := (M (kst F)).
Implicit Types s : kst F.

Lemma sem_of_set m s : sem_of (set_sem m s) = m.
Proof. unfold sem_of, set_sem. simpl. apply lget_lput. Qed.
Lemma set_sem_set m m' s : set_sem m (set_sem m' s) = set_sem m s.
Proof. unfold set_sem, set_fs. simpl. by rewrite lput_lput. Qed.
Lemma set_sem_id s : set_sem (sem_of s) s = s.
Proof. unfold set_sem, sem_of, set_fs. rewrite lput_lget. by destruct s. Qed.

Lemma set_sem_lk_id m : sem_lk m = false -> set_sem_lk false m = m.
Proof. intros H. destruct m; simpl in H. by rewrite H. Qed.

(** What one pass through the semaphore does to its fields. *)
Definition downed (m : sem_t) : sem_t :=
  mk_sem false (i32 (value m - 1)) (maxval m) 1 (if value m =? 1 then 1 else 0).
Definition upped (m : sem_t) : sem_t :=
  mk_sem false (i32 (value m + 1)) (maxval m) (if i32 (value m + 1) =? maxval m then 0 else isactive m) 0.

(** The end of the waiting branch of [sem_down]. *)
Definition down_tail : K unit :=
  m <- gets sem_of ;;
  (if value m =? 1 then on_sem (set_locked 1) else on_sem (set_locked 0)) ;;;
  on_sem (fun m => set_value (i32 (value m - 1)) m) ;;;
  on_sem (set_isactive 1).

(** Where a process asleep in [sem_down] goes on. *)
Definition resume_down (fuel me : nat) (sem : Z) : K unit :=
  ((woken me (Some sem_lockref) ;;; sem_wait fuel sem) ;;; down_tail) ;;; release_sem.

Lemma after_acquire_sem s (Q : unit -> kst F -> Prop) R :
  (sem_lk (sem_of s) = false -> Q tt (set_sem (set_sem_lk true (sem_of s)) s)) -> after acquire_sem Q R s.
Proof. intros HQ. unfold acquire_sem. by apply after_acquire. Qed.
Lemma after_release_sem s (Q : unit -> kst F -> Prop) R :
  Q tt (set_sem (set_sem_lk false (sem_of s)) s) -> after release_sem Q R s.
Proof. intros HQ. unfold release_sem. by apply after_release. Qed.

Lemma after_on_sem f s (Q : unit -> kst F -> Prop) R : Q tt (set_sem (f (sem_of s)) s) -> after (on_sem f) Q R s.
Proof. intros HQ. by apply after_of_wp, wp_modify. Qed.

Ltac sem_step := first
  [ wp_step | apply after_on_sem; rewrite ?sem_of_set, ?set_sem_set; simpl
  | apply after_release_sem; rewrite ?sem_of_set, ?set_sem_set; simpl ].

Lemma after_down_tail m s (Q : unit -> kst F -> Prop) R : sem_of s = m ->
  Q tt (set_sem (set_sem_lk (sem_lk m) (downed m)) s) -> after down_tail Q R s.
Proof.
  intros Hm HQ. unfold down_tail. do 2 sem_step. rewrite Hm.
  destruct (value m =? 1) eqn:E; repeat sem_step; rewrite Hm; unfold downed in HQ; rewrite E in HQ; exact HQ.
Qed.

(** [sem_wait] when the lock is held: through, or asleep with the semaphore as it was. *)
Lemma after_sem_wait fuel a s p (Q : unit -> kst F -> Prop) R :
  ptable_lock s = false -> sem_lk (sem_of s) = true -> procs s !! cur s = Some p ->
  (locked (sem_of s) = 0 -> Q tt s) ->
  (forall f, locked (sem_of s) <> 0 ->
     R a (set_procs (<[cur s := asleep a p]> (procs s)) (set_ptable_lock true (set_sem (set_sem_lk false (sem_of s)) s)))
       (woken (cur s) (Some sem_lockref) ;;; sem_wait f a)) ->
  after (sem_wait fuel a) Q R s.
Proof.
  intros Hl Hk Hp HQ HR. destruct fuel as [|f]; [done|]. cbn [sem_wait]. do 2 wp_step.
  destruct (Z.eqb_spec (locked (sem_of s)) 0) as [E|E]; [by apply after_of_wp, wp_ret, HQ|]. wp_step.
  apply (after_sleep a (Some sem_lockref) (set_ptable_lock true (set_sem (set_sem_lk false (sem_of s)) s)) s p); [|done..|].
  - intros _. cbn [lk_release sem_lockref]. unfold release_sem, release_flag, bind, gets. cbn [bind_res].
    unfold sem_of in *. cbn [fs set_ptable_lock]. rewrite Hk. reflexivity.
  - intros _. by apply HR.
Qed.

Lemma after_sem_down fuel a s p :
  ptable_lock s = false -> procs s !! cur s = Some p ->
  after (sem_down fuel a)
    (fun _ s' => locked (sem_of s) = 0 /\ s' = set_sem (downed (sem_of s)) s)
    (fun c s' k => locked (sem_of s) <> 0 /\
       s' = set_procs (<[cur s := asleep a p]> (procs s)) (set_ptable_lock true s) /\
       exists f, forall t, k t = resume_down f (cur s) a t) s.
Proof.
  intros Hl Hp. unfold sem_down. wp_step. apply after_acquire_sem. intros Hk. do 3 wp_step.
  rewrite sem_of_set. cbn [locked set_sem_lk]. destruct (Z.eqb_spec (locked (sem_of s)) 0) as [E|E].
  - wp_step. unfold when. cbn [value set_sem_lk]. destruct (value (sem_of s) =? 1) eqn:E1; repeat sem_step;
      rewrite ?sem_of_set, ?set_sem_set; (split; [done|]); unfold downed; rewrite E1;
      unfold set_sem_lk, set_isactive, set_value, set_locked; simpl; by rewrite ?E.
  - wp_step. apply (after_sem_wait fuel a _ p); [done|by rewrite sem_of_set|done|..].
    + by rewrite sem_of_set.
    + intros f _. rewrite sem_of_set, set_sem_set. cbn [cur set_sem set_fs procs].
      split; [done|]. split; [|by exists f].
      change (set_sem_lk false (set_sem_lk true (sem_of s))) with (set_sem_lk false (sem_of s)).
      by rewrite (set_sem_lk_id _ Hk), set_sem_id.
Qed.

Lemma after_resume_down fuel a me s p :
  cur s = me -> ptable_lock s = true -> sem_lk (sem_of s) = false -> procs s !! me = Some p ->
  after (resume_down fuel me a)
    (fun _ s' => locked (sem_of s) = 0 /\
       s' = set_sem (downed (sem_of s)) (set_procs (<[me := set_chan 0 p]> (procs s)) (set_ptable_lock false s)))
    (fun c s' k => locked (sem_of s) <> 0 /\ s' = set_procs (<[me := asleep a (set_chan 0 p)]> (procs s)) s /\
       exists f, forall t, k t = resume_down f me a t) s.
Proof.
  intros Hcur Hl Hk Hp. pose proof (lookup_lt_Some _ _ _ Hp) as Hlt. unfold resume_down. do 3 wp_step. unfold woken. wp_step.
  apply after_of_wp, (wp_upd_proc s me p); [done|]. wp_step.
  apply after_release. intros _. cbn [lk_acquire sem_lockref]. apply after_acquire_sem. intros _.
  set (s1 := set_ptable_lock false (set_procs (<[me := set_chan 0 p]> (procs s)) s)). assert (sem_of s1 = sem_of s) as Hs1 by done. rewrite Hs1.
  apply (after_sem_wait fuel a _ (set_chan 0 p)); [done|by rewrite sem_of_set|simpl; rewrite Hcur; by apply list_lookup_insert_eq|..].
  - rewrite sem_of_set. cbn [locked set_sem_lk]. intros E. apply (after_down_tail (set_sem_lk true (sem_of s))); [apply sem_of_set|].
    apply after_release_sem. rewrite sem_of_set, !set_sem_set. by split.
  - intros f. rewrite sem_of_set, set_sem_set. cbn [locked set_sem_lk cur set_sem set_fs procs set_procs s1 set_ptable_lock].
    intros E. split; [done|]. rewrite Hcur. split; [|by exists f].
    change (set_sem_lk false (set_sem_lk true (sem_of s))) with (set_sem_lk false (sem_of s)).
    rewrite list_insert_insert_eq, (set_sem_lk_id _ Hk).
    rewrite <- Hs1 at 1. rewrite set_sem_id. unfold s1, set_procs, set_ptable_lock. simpl. by rewrite Hl.
Qed.

Lemma after_sem_up a s : length (procs s) = NPROCS -> ptable_lock s = false ->
  after (sem_up a)
    (fun _ s' => s' = set_procs (wake a <$> procs s) (set_sem (upped (sem_of s)) s)) (fun _ _ _ => False) s.
Proof.
  intros Hlen Hl. unfold sem_up. wp_step. apply after_acquire_sem. intros Hk. wp_step. apply after_on_sem.
  rewrite sem_of_set, set_sem_set. cbn [value maxval set_value set_sem_lk]. do 3 wp_step. rewrite sem_of_set.
  cbn [value maxval set_value set_sem_lk]. unfold upped.
  destruct (i32 (value (sem_of s) + 1) =? maxval (sem_of s)); cbn [when]; sem_step; sem_step; sem_step; sem_step;
    (apply after_of_wp, wp_wakeup; [done|done|]);
    (apply after_release_sem; unfold set_sem, sem_of, set_procs, set_fs; simpl; by rewrite lput_lput, !lget_lput).
Qed.
End Effects.

(** ** Interleavings

    Processes that all see the semaphore at address [a] go from [Outside]
    through [sem_down] to [Inside] and back by [sem_up]; one that has to wait
    is kept with its continuation.  [kill] may wake any of them. *)
Section Runs.
Context {I : KernelImage} {L : Literals} {P : ProcImage} {F : Type} {FL : FsLocks F} {LS : Lens F sem_t} `{!LensOk LS}.
Implicit Types s : kst F.

Inductive sphase : Type := Outside | Waiting (k : kst F -> res (kst F) unit) | Inside.
Definition is_inside (p : sphase) : bool := match p with Inside => true | _ => false end.

(** The phase after a slice of [sem_down]. *)
Definition down_phase (o : @outcome F) : option sphase :=
  match o with Returned => Some Inside | Blocked k => Some (Waiting k) | Gone => None end.

Inductive sem_step (a : Z) : kst F * (nat -> sphase) -> kst F * (nat -> sphase) -> Prop :=
| ss_down s s' ph i fuel o p : runnable s i -> ph i = Outside ->
    slice i true (sem_down fuel a) s = Some (o, s') -> down_phase o = Some p -> sem_step a (s, ph) (s', <[i := p]> ph)
| ss_resume s s' ph i k o p : runnable s i -> ph i = Waiting k ->
    slice i false k s = Some (o, s') -> down_phase o = Some p -> sem_step a (s, ph) (s', <[i := p]> ph)
| ss_up s s' ph i : runnable s i -> ph i = Inside ->
    slice i true (sem_up a) s = Some (Returned, s') -> sem_step a (s, ph) (s', <[i := Outside]> ph)
| ss_kill s ph i p : procs s !! i = Some p ->
    sem_step a (s, ph) (set_procs (<[i := killed_proc p]> (procs s)) s, ph).

Fixpoint inside (n : nat) (ph : nat -> sphase) : Z :=
  match n with O => 0 | S n' => inside n' ph + Z.b2z (is_inside (ph n')) end.

Lemma inside_insert n ph i p : (i < n)%nat ->
  inside n (<[i := p]> ph) = inside n ph - Z.b2z (is_inside (ph i)) + Z.b2z (is_inside p).
Proof.
  assert (forall m, (m <= i)%nat -> inside m (<[i := p]> ph) = inside m ph) as Hlow.
  { induction m as [|m IH]; intros Hm; simpl; [done|]. rewrite IH by lia. by rewrite fn_lookup_insert_ne by lia. }
  induction n as [|n IH]; intros Hi; [lia|]. simpl. destruct (decide (i = n)) as [->|Hne].
  - rewrite Hlow by lia. rewrite fn_lookup_insert. lia.
  - rewrite IH by lia. rewrite fn_lookup_insert_ne by done. lia.
Qed.

Lemma inside_nonneg n ph : 0 <= inside n ph.
Proof. induction n as [|n IH]; simpl; [lia|]. destruct (is_inside _); simpl; lia. Qed.

Lemma inside_pos n ph : 0 < inside n ph -> exists i, (i < n)%nat /\ ph i = Inside.
Proof.
  induction n as [|n IH]; simpl; [lia|]. destruct (ph n) eqn:E; simpl; intros H.
  1,2: destruct IH as (i & Hi & Hp); [lia|]; exists i; split; [lia|done].
  exists n. split; [lia|done].
Qed.

(** The fields follow the number [c] of processes inside; [v] is the initial value. *)
Record sem_ok (v c : Z) (m : sem_t) : Prop := {
  so_lk : sem_lk m = false;
  so_max : maxval m = v;
  so_value : value m = v - c;
  so_locked : locked m = if v - c =? 0 then 1 else 0;
  so_active : isactive m = if c =? 0 then 0 else 1;
  so_bound : 0 <= c <= v;
}.

Record sem_inv (v a : Z) (s : kst F) (ph : nat -> sphase) : Prop := {
  si_len : length (procs s) = NPROCS;
  si_lock : ptable_lock s = false;
  si_sem : sem_ok v (inside NPROCS ph) (sem_of s);
  si_cont : forall i k, ph i = Waiting k -> exists f, forall t, k t = resume_down f i a t;
  si_wait : forall i k p, ph i = Waiting k -> procs s !! i = Some p -> state p = SLEEPING ->
    chan p = a /\ inside NPROCS ph = v;
}.

Lemma downed_ok v c m : 1 <= v < 2 ^ 31 -> sem_ok v c m -> locked m = 0 -> sem_ok v (c + 1) (downed m).
Proof.
  intros Hv [Hlk Hmax Hval Hl Ha Hb] H0. rewrite Hl in H0. destruct (Z.eqb_spec (v - c) 0) as [E|E]; [done|].
  rewrite pow2_31 in Hv. unfold downed. constructor; cbn [sem_lk maxval value locked isactive]; [done|done|..].
  - rewrite Hval. i32lia.
  - rewrite Hval. destruct (Z.eqb_spec (v - c) 1), (Z.eqb_spec (v - (c + 1)) 0); lia.
  - destruct (Z.eqb_spec (c + 1) 0); lia.
  - lia.
Qed.

Lemma upped_ok v c m : 1 <= v < 2 ^ 31 -> sem_ok v c m -> 0 < c -> sem_ok v (c - 1) (upped m).
Proof.
  intros Hv [Hlk Hmax Hval Hl Ha Hb] H0. rewrite pow2_31 in Hv.
  assert (i32 (value m + 1) = v - (c - 1)) as E by (rewrite Hval; i32lia).
  unfold upped. constructor; cbn [sem_lk maxval value locked isactive]; rewrite ?E; [done|done|done|..].
  - destruct (Z.eqb_spec (v - (c - 1)) 0); lia.
  - rewrite Hmax, Ha. destruct (Z.eqb_spec (v - (c - 1)) v), (Z.eqb_spec (c - 1) 0), (Z.eqb_spec c 0); lia.
  - lia.
Qed.

Lemma inv_local v a s s' ph i p q : sem_inv v a s ph -> (i < NPROCS)%nat ->
  procs s' = <[i := q]> (procs s) -> ptable_lock s' = false ->
  sem_ok v (inside NPROCS (<[i := p]> ph)) (sem_of s') ->
  (inside NPROCS ph = v -> inside NPROCS (<[i := p]> ph) = v) ->
  (forall k, p = Waiting k -> (exists f, forall t, k t = resume_down f i a t) /\
     (state q = SLEEPING -> chan q = a /\ inside NPROCS (<[i := p]> ph) = v)) ->
  sem_inv v a s' (<[i := p]> ph).
Proof.
  intros [Hlen Hl Hsem Hcont Hwait] Hi Hpr Hl' Hsem' Hfull Hnew. constructor; [by rewrite Hpr, length_insert|done|done|..].
  - intros j k. destruct (decide (j = i)) as [->|Hne]; [rewrite fn_lookup_insert|rewrite fn_lookup_insert_ne by done].
    + intros Hk. by apply (Hnew k).
    + apply Hcont.
  - intros j k r. rewrite Hpr. destruct (decide (j = i)) as [->|Hne].
    + rewrite fn_lookup_insert, list_lookup_insert_eq by (by rewrite Hlen). intros Hk [= <-]. by apply (Hnew k).
    + rewrite fn_lookup_insert_ne, list_lookup_insert_ne by done. intros Hk Hr Hs.
      destruct (Hwait j k r Hk Hr Hs) as [Hc Hv]. auto.
Qed.

Lemma sem_full v c m : sem_ok v c m -> locked m <> 0 <-> c = v.
Proof. intros [_ _ _ Hl _ _]. rewrite Hl. destruct (Z.eqb_spec (v - c) 0); lia. Qed.

(** The end of a slice of [sem_down], fresh or resumed. *)
Lemma inv_down v a s s' ph i o p q : 1 <= v < 2 ^ 31 -> sem_inv v a s ph -> is_inside (ph i) = false ->
  (i < NPROCS)%nat -> down_phase o = Some p -> procs s' = <[i := q]> (procs s) -> ptable_lock s' = false ->
  match o with
  | Returned => locked (sem_of s) = 0 /\ sem_of s' = downed (sem_of s)
  | Blocked k => locked (sem_of s) <> 0 /\ sem_of s' = sem_of s /\ chan q = a /\
      exists f, forall t, k t = resume_down f i a t
  | Gone => False
  end -> sem_inv v a s' (<[i := p]> ph).
Proof.
  intros Hv Hinv Hout Hi Hp Hpr Hl Ho. pose proof (si_sem _ _ _ _ Hinv) as Hsem.
  pose proof (inside_insert NPROCS ph i p Hi) as Hin. rewrite Hout in Hin.
  destruct o as [|k|]; [|..|done]; injection Hp as <-; cbn [is_inside Z.b2z] in Hin.
  - destruct Ho as [H0 Hs']. assert (inside NPROCS ph <> v) as Hne
      by (intros E; by apply (sem_full _ _ _ Hsem) in E).
    apply (inv_local v a s s' ph i _ q); [done..| |done|done].
    rewrite Hs', Hin. replace (inside NPROCS ph - 0 + 1) with (inside NPROCS ph + 1) by lia. by apply downed_ok.
  - destruct Ho as (H0 & Hs' & Hc & Hf). apply (sem_full _ _ _ Hsem) in H0.
    assert (inside NPROCS (<[i := Waiting k]> ph) = inside NPROCS ph) as E by lia.
    apply (inv_local v a s s' ph i _ q); rewrite ?E, ?Hs'; [done..|]. by intros k' [= <-].
Qed.

Lemma inv_up v a s ph i p0 h h' q : 1 <= v < 2 ^ 31 -> sem_inv v a s ph -> ph i = Inside -> (i < NPROCS)%nat ->
  let d := dispatched i true p0 h s in
  let s2 := set_procs (wake a <$> procs d) (set_sem (upped (sem_of d)) d) in
  sem_inv v a (set_hw h' (set_procs (<[i := set_state RUNNABLE q]> (procs s2)) s2)) (<[i := Outside]> ph).
Proof.
  intros Hv [Hlen Hl Hsem Hcont Hwait] Hp Hi d s2. pose proof (inside_insert NPROCS ph i Outside Hi) as Hin.
  rewrite Hp in Hin. cbn [is_inside Z.b2z] in Hin. constructor.
  - simpl. by rewrite length_insert, length_fmap, length_insert.
  - done.
  - change (sem_of _) with (sem_of (set_sem (upped (sem_of d)) d)). rewrite sem_of_set.
    replace (inside NPROCS (<[i := Outside]> ph)) with (inside NPROCS ph - 1) by lia.
    apply upped_ok; [done..|]. pose proof (inside_nonneg NPROCS (<[i := Outside]> ph)). lia.
  - intros j k. destruct (decide (j = i)) as [->|Hne]; [by rewrite fn_lookup_insert|].
    rewrite fn_lookup_insert_ne by done. apply Hcont.
  - intros j k r. destruct (decide (j = i)) as [->|Hne]; [by rewrite fn_lookup_insert|].
    rewrite fn_lookup_insert_ne by done. cbn [procs set_procs set_hw]. rewrite list_lookup_insert_ne by done.
    change (procs s2) with (wake a <$> <[i := set_state RUNNING p0]> (procs s)). rewrite list_lookup_fmap, list_lookup_insert_ne by done. intros Hk.
    destruct (procs s !! j) as [r0|] eqn:Hr0; [|done]. intros [= <-]. unfold wake.
    destruct (bool_decide (state r0 = SLEEPING) && (chan r0 =? a)) eqn:E; [done|]. intros Hs.
    destruct (Hwait j k r0 Hk Hr0 Hs) as [Hc _]. rewrite bool_decide_true, Hc, Z.eqb_refl in E by done. done.
Qed.

Lemma inv_kill v a s ph i p : sem_inv v a s ph -> procs s !! i = Some p ->
  sem_inv v a (set_procs (<[i := killed_proc p]> (procs s)) s) ph.
Proof.
  intros [Hlen Hl Hsem Hcont Hwait] Hp. pose proof (lookup_lt_Some _ _ _ Hp) as Hi.
  constructor; [simpl; by rewrite length_insert|done..|]. intros j k r Hk. cbn [procs set_procs].
  destruct (decide (j = i)) as [->|Hne]; [|rewrite list_lookup_insert_ne by done; by apply (Hwait j k)].
  rewrite list_lookup_insert_eq by done. intros [= <-]. unfold killed_proc.
  destruct (bool_decide_reflect (state p = SLEEPING)) as [E|E]; [done|]. done.
Qed.

Lemma step_sem_inv v a s ph s' ph' : 1 <= v < 2 ^ 31 -> sem_inv v a s ph ->
  sem_step a (s, ph) (s', ph') -> sem_inv v a s' ph'.
Proof.
  intros Hv Hinv Hst. pose proof (si_lock _ _ _ _ Hinv) as Hl. pose proof (si_len _ _ _ _ Hinv) as Hlen.
  pose proof (so_lk _ _ _ (si_sem _ _ _ _ Hinv)) as Hlk.
  inversion Hst as [? ? ? i fuel o p Hr Hp Hs Ho|? ? ? i k o p Hr Hp Hs Ho|? ? ? i Hr Hp Hs|? ? i p Hp]; subst.
  - apply (slice_cases _ _ _ _ _ _ Hl) in Hs as (p0 & h & h' & Hp0 & Hs).
    pose proof (lookup_lt_Some _ _ _ Hp0) as Hi. rewrite Hlen in Hi.
    set (d := dispatched i true p0 h s) in Hs.
    assert (procs d !! cur d = Some (set_state RUNNING p0)) as Hd by (apply list_lookup_insert_eq; lia).
    pose proof (after_sem_down fuel a d _ eq_refl Hd) as Ha.
    destruct o as [|k|]; [|..|done].
    + destruct Hs as (s2 & q & Hm & Hq & Hl2 & ->). destruct (after_ok _ _ _ _ _ _ Ha Hm) as [H0 ->].
      eapply (inv_down v a s _ ph i Returned p (set_state RUNNABLE q)); try done; [by rewrite Hp| |].
      * simpl. apply list_insert_insert_eq.
      * split; [done|]. apply (sem_of_set (downed (sem_of d)) d).
    + destruct Hs as (c & s2 & Hm & Hl2 & ->). destruct (after_asleep _ _ _ _ _ _ _ Ha Hm) as (H0 & -> & Hf).
      eapply (inv_down v a s _ ph i (Blocked k) p (asleep a (set_state RUNNING p0))); try done; [by rewrite Hp|].
      simpl. apply list_insert_insert_eq.
  - apply (slice_cases _ _ _ _ _ _ Hl) in Hs as (p0 & h & h' & Hp0 & Hs).
    pose proof (lookup_lt_Some _ _ _ Hp0) as Hi. rewrite Hlen in Hi.
    set (d := dispatched i false p0 h s) in Hs. destruct (si_cont _ _ _ _ Hinv _ _ Hp) as [f Hk]. rewrite Hk in Hs.
    assert (procs d !! i = Some (set_state RUNNING p0)) as Hd by (apply list_lookup_insert_eq; lia).
    pose proof (after_resume_down f a i d _ eq_refl eq_refl Hlk Hd) as Ha.
    destruct o as [|k'|]; [|..|done].
    + destruct Hs as (s2 & q & Hm & Hq & Hl2 & ->). destruct (after_ok _ _ _ _ _ _ Ha Hm) as [H0 ->].
      eapply (inv_down v a s _ ph i Returned p (set_state RUNNABLE q)); try done; [by rewrite Hp| |].
      * simpl. rewrite !list_insert_insert_eq. done.
      * split; [done|]. apply (sem_of_set (downed (sem_of d))).
    + destruct Hs as (c & s2 & Hm & Hl2 & ->). destruct (after_asleep _ _ _ _ _ _ _ Ha Hm) as (H0 & -> & Hf).
      eapply (inv_down v a s _ ph i (Blocked k') p (asleep a (set_chan 0 (set_state RUNNING p0)))); try done; [by rewrite Hp|].
      simpl. apply list_insert_insert_eq.
  - apply (slice_cases _ _ _ _ _ _ Hl) in Hs as (p0 & h & h' & Hp0 & s2 & q & Hm & Hq & Hl2 & ->).
    pose proof (lookup_lt_Some _ _ _ Hp0) as Hi. rewrite Hlen in Hi. set (d := dispatched i true p0 h s) in Hm.
    assert (length (procs d) = NPROCS) as Hdl by (simpl; by rewrite length_insert).
    pose proof (after_ok _ _ _ _ _ _ (after_sem_up a d Hdl eq_refl) Hm) as ->. by eapply (inv_up v a s ph i p0).
  - by apply inv_kill.
Qed.

Definition sem_start (v : Z) (s : kst F) : Prop :=
  length (procs s) = NPROCS /\ ptable_lock s = false /\ sem_of s = mk_sem false v v 0 0.

Lemma sem_start_inv v a s : 1 <= v < 2 ^ 31 -> sem_start v s -> sem_inv v a s (fun _ => Outside).
Proof.
  intros Hv (Hlen & Hl & Hs). constructor; [done..| |done|done].
  assert (inside NPROCS (fun _ => Outside) = 0) as -> by (generalize NPROCS; induction n; simpl; lia).
  rewrite Hs. constructor; simpl; try lia. destruct (Z.eqb_spec (v - 0) 0); lia.
Qed.

Lemma sem_steps_inv v a c0 cf : 1 <= v < 2 ^ 31 -> rtc (sem_step a) c0 cf ->
  sem_inv v a c0.1 c0.2 -> sem_inv v a cf.1 cf.2.
Proof.
  intros Hv. induction 1 as [|[s1 p1] [s2 p2] cf' Hst _ IH]; [done|]. intros Hi. apply IH. by eapply step_sem_inv.
Qed.

Lemma wp_sem_init v s : wp (sem_init v) (fun _ s' => s' = set_sem (mk_sem false v v 0 0) s) s.
Proof.
  unfold sem_init, on_sem. wp_steps. rewrite !sem_of_set, !set_sem_set. done.
Qed.

(** A waiting process that is picked when the semaphore is open gets through. *)
Lemma resume_open f i a s p : cur s = i -> ptable_lock s = true -> sem_lk (sem_of s) = false ->
  locked (sem_of s) = 0 -> procs s !! i = Some p ->
  wp (resume_down (S f) i a) (fun _ s' => ptable_lock s' = false /\ is_Some (procs s' !! i)) s.
Proof.
  intros Hc Hl Hk H0 Hp. unfold resume_down, woken. wp_steps. apply (wp_upd_proc s i p); [done|]. wp_steps.
  apply wp_release_ptable; [done|]. cbn [lk_acquire sem_lockref]. unfold acquire_sem, acquire_flag. wp_steps.
  set (s1 := set_ptable_lock false (set_procs (<[i := set_chan 0 p]> (procs s)) s)).
  assert (sem_of s1 = sem_of s) as Hs1 by done. rewrite Hs1, Hk. apply wp_modify. cbn [sem_wait]. wp_steps.
  rewrite sem_of_set, Hs1. cbn [locked set_sem_lk]. rewrite H0. apply wp_ret. unfold down_tail, on_sem. wp_steps.
  assert (forall t, sem_lk (sem_of t) = true -> ptable_lock t = false -> is_Some (procs t !! i) ->
    wp release_sem (fun _ s' => ptable_lock s' = false /\ is_Some (procs s' !! i)) t) as Hrel.
  { intros t Ht Hlt Hpt. unfold release_sem, release_flag. wp_steps. rewrite Ht. by apply wp_modify. }
  assert (is_Some (<[i := set_chan 0 p]> (procs s) !! i)) as Hsome
    by (rewrite list_lookup_insert_eq by (by eapply lookup_lt_Some); eauto).
  destruct (_ =? 1); wp_steps; rewrite !sem_of_set, !set_sem_set; (apply Hrel; [by rewrite sem_of_set|done|done]).
Qed.

Lemma slice_returns i fresh m s p : ptable_lock s = false -> procs s !! i = Some p -> kstack p <> 0 -> pgdir p <> 0 ->
  (forall h, wp m (fun _ s' => ptable_lock s' = false /\ is_Some (procs s' !! i)) (dispatched i fresh p h s)) ->
  exists s', slice i fresh m s = Some (Returned, s').
Proof.
  intros Hl Hp Hk Hd Hm. unfold slice, bind.
  destruct (start_slice_ok i fresh s p Hl Hp Hk Hd) as [h ->]. cbn [bind_res].
  destruct (proj1 (wp_ok _ _ _) (Hm h)) as ([] & s2 & -> & Hl2 & q & Hq).
  unfold preempt, bind. rewrite acquire_ptable_run, Hl2. cbn [bind_res]. unfold upd_proc. cbn [procs set_ptable_lock].
  rewrite Hq. cbn [bind_res]. eexists. reflexivity.
Qed.

(** C15: a semaphore initialised with [v] lets at most [v] processes in and
    loses no wake-up.  In every configuration that processes using one address
    reach by [sem_down], [sem_up] and [kill]: at most [v] processes are inside,
    [value] is [v] less their number, [isActive] says whether there are any;
    when [value] is positive no waiting process is asleep, and when it is 0
    some process is inside, whose [sem_up] will wake the others; a waiting
    process that is scheduled while [value] is positive gets in. *)
Theorem sem_safe_and_live (v a : Z) (s0 s1 s : kst F) (ph : nat -> sphase) :
  1 <= v < 2 ^ 31 -> length (procs s0) = NPROCS -> ptable_lock s0 = false ->
  sem_init v s0 = Ok tt s1 -> rtc (sem_step a) (s1, fun _ => Outside) (s, ph) ->
  inside NPROCS ph <= v /\ value (sem_of s) = v - inside NPROCS ph /\
  isActive s = Ok (if inside NPROCS ph =? 0 then 0 else 1) s /\
  (0 < value (sem_of s) -> forall i k, ph i = Waiting k -> state_of s i <> Some SLEEPING) /\
  (value (sem_of s) = 0 -> exists i, (i < NPROCS)%nat /\ ph i = Inside) /\
  (forall i k p f, 0 < value (sem_of s) -> ph i = Waiting k -> procs s !! i = Some p -> kstack p <> 0 -> pgdir p <> 0 ->
     exists s', slice i false (resume_down (S f) i a) s = Some (Returned, s')).
Proof.
  intros Hv Hlen Hl Hinit Hr.
  destruct (proj1 (wp_ok _ _ _) (wp_sem_init v s0)) as ([] & s1' & E & Hs1). rewrite E in Hinit. injection Hinit as ->.
  assert (sem_start v s1) as H0 by (subst s1; split_and!; [done|done|apply sem_of_set]).
  pose proof (sem_steps_inv v a _ _ Hv Hr (sem_start_inv v a s1 Hv H0)) as Hinv. cbn [fst snd] in Hinv.
  destruct (si_sem _ _ _ _ Hinv) as [Hlk Hmax Hval Hloc Hact Hb].
  split_and!; [lia|done|..].
  - unfold isActive, bind, gets, ret. cbn [bind_res]. rewrite Hact. by destruct (inside NPROCS ph =? 0).
  - intros Hpos i k Hk. unfold state_of. destruct (procs s !! i) as [p|] eqn:Hp; [|done]. intros [= Hst].
    destruct (si_wait _ _ _ _ Hinv i k p Hk Hp Hst). lia.
  - intros Hz. apply inside_pos. lia.
  - intros i k p f Hpos Hk Hp Hks Hpd. eapply slice_returns; [apply Hinv|done..|]. intros h.
    apply (resume_open f i a _ (set_state RUNNING p)); [done|done|done| |].
    + change (locked (sem_of s) = 0). rewrite Hloc, (proj2 (Z.eqb_neq _ _)) by lia. done.
    + apply list_lookup_insert_eq. by eapply lookup_lt_Some.
Qed.

(** ** A semaphore of value 0 *)
Lemma inside_le n ph : inside n ph <= Z.of_nat n.
Proof. induction n as [|n IH]; simpl inside; [lia|]. destruct (is_inside (ph n)); simpl Z.b2z; lia. Qed.

(** Nobody ever waits, and [value] counts those inside below 0. *)
Record zero_inv (s : kst F) (ph : nat -> sphase) : Prop := {
  zi_len : length (procs s) = NPROCS;
  zi_lock : ptable_lock s = false;
  zi_lk : sem_lk (sem_of s) = false;
  zi_value : value (sem_of s) = - inside NPROCS ph;
  zi_locked : locked (sem_of s) = 0;
  zi_none : forall i k, ph i <> Waiting k;
}.

Lemma zero_phase s s' ph i p c : zero_inv s ph -> (i < NPROCS)%nat -> length (procs s') = NPROCS -> ptable_lock s' = false ->
  (forall k, p <> Waiting k) -> c = Z.b2z (is_inside (ph i)) - Z.b2z (is_inside p) ->
  sem_lk (sem_of s') = false -> locked (sem_of s') = 0 -> value (sem_of s') = i32 (value (sem_of s) + c) -> zero_inv s' (<[i := p]> ph).
Proof.
  intros [H1 H2 H3 H4 H5 H6] Hi Hlen Hl Hp Hc Hlk Hloc Hval. pose proof (inside_insert NPROCS ph i p Hi) as Hin.
  constructor; [done|done|done| |done|].
  - rewrite Hval, Hin, H4. pose proof (inside_le NPROCS ph) as Hle. pose proof (inside_nonneg NPROCS ph). unfold NPROCS in *.
    destruct (is_inside (ph i)), (is_inside p); cbn [Z.b2z] in *; i32lia.
  - intros j k. destruct (decide (j = i)) as [->|Hne]; [by rewrite fn_lookup_insert|]. rewrite fn_lookup_insert_ne by done. apply H6.
Qed.

Lemma step_zero_inv a s ph s' ph' : zero_inv s ph -> sem_step a (s, ph) (s', ph') -> zero_inv s' ph'.
Proof.
  intros Hinv Hst. pose proof Hinv as [Hlen Hl Hlk Hval Hloc Hno].
  inversion Hst as [? ? ? i fuel o p Hr Hp Hs Ho|? ? ? i k o p Hr Hp Hs Ho|? ? ? i Hr Hp Hs|? ? i p Hp]; subst.
  - apply (slice_cases _ _ _ _ _ _ Hl) in Hs as (p0 & h & h' & Hp0 & Hs).
    pose proof (lookup_lt_Some _ _ _ Hp0) as Hi. rewrite Hlen in Hi. set (d := dispatched i true p0 h s) in Hs.
    assert (procs d !! cur d = Some (set_state RUNNING p0)) as Hd by (apply list_lookup_insert_eq; lia).
    pose proof (after_sem_down fuel a d _ eq_refl Hd) as Ha. destruct o as [|k|]; [|..|done].
    + destruct Hs as (s2 & q & Hm & Hq & Hl2 & ->). destruct (after_ok _ _ _ _ _ _ Ha Hm) as [_ ->]. injection Ho as <-.
      assert (sem_of (set_sem (downed (sem_of d)) d) = downed (sem_of s)) as Hs2 by apply sem_of_set.
      eapply (zero_phase s _ ph i Inside (-1)); [done|done|simpl; by rewrite !length_insert|done|done|by rewrite Hp|..];
        change (sem_of (set_hw _ _)) with (sem_of (set_sem (downed (sem_of d)) d)); rewrite Hs2; [done| |done].
      unfold downed. cbn [locked]. pose proof (inside_nonneg NPROCS ph). rewrite (proj2 (Z.eqb_neq _ _)) by lia. done.
    + destruct Hs as (c & s2 & Hm & _). by destruct (after_asleep _ _ _ _ _ _ _ Ha Hm) as [H0 _].
  - by apply Hno in Hp.
  - apply (slice_cases _ _ _ _ _ _ Hl) in Hs as (p0 & h & h' & Hp0 & s2 & q & Hm & Hq & Hl2 & ->).
    pose proof (lookup_lt_Some _ _ _ Hp0) as Hi. rewrite Hlen in Hi. set (d := dispatched i true p0 h s) in Hm.
    assert (length (procs d) = NPROCS) as Hdl by (simpl; by rewrite length_insert).
    pose proof (after_ok _ _ _ _ _ _ (after_sem_up a d Hdl eq_refl) Hm) as ->.
    assert (sem_of (set_sem (upped (sem_of d)) d) = upped (sem_of s)) as Hs2 by apply sem_of_set.
    eapply (zero_phase s _ ph i Outside 1); [done|done|simpl; by rewrite length_insert, length_fmap, length_insert|done|done|by rewrite Hp|..];
      change (sem_of (set_hw _ _)) with (sem_of (set_sem (upped (sem_of d)) d)); by rewrite Hs2.
  - constructor; try done. simpl. by rewrite length_insert.
Qed.

Lemma zero_steps a c0 cf : rtc (sem_step a) c0 cf -> zero_inv c0.1 c0.2 -> zero_inv cf.1 cf.2.
Proof. induction 1 as [|[s1 p1] [s2 p2] cf' Hst _ IH]; [done|]. intros Hi. apply IH. by eapply step_zero_inv. Qed.

Lemma wp_sem_down_open fuel a s : sem_lk (sem_of s) = false -> locked (sem_of s) = 0 ->
  wp (sem_down fuel a) (fun _ s' => s' = set_sem (downed (sem_of s)) s) s.
Proof.
  intros Hlk H0. unfold sem_down, acquire_sem, acquire_flag, release_sem, release_flag, on_sem. wp_steps. rewrite Hlk. wp_steps.
  rewrite sem_of_set. cbn [locked set_sem_lk]. rewrite H0, Z.eqb_refl. unfold when. cbn [value set_sem_lk].
  destruct (value (sem_of s) =? 1) eqn:E; wp_steps; rewrite ?sem_of_set, ?set_sem_set; cbn [sem_lk set_isactive set_value set_locked set_sem_lk negb];
    apply wp_modify; rewrite sem_of_set, set_sem_set; unfold downed; rewrite E; [done|].
  unfold set_sem_lk, set_isactive, set_value. simpl. by rewrite H0.
Qed.

(** C37: a semaphore initialised with 0 does not block.  In every configuration
    that processes reach from [sem_init] with 0 by [sem_down], [sem_up] and
    [kill], in any number and order: [locked] is clear, although it is meant to
    say that [value] is 0; [value] is minus the number of processes inside; no
    process waits; and whatever process calls [sem_down] next returns from it
    at once. *)
Theorem sem_zero_does_not_block (a : Z) (s0 s1 s : kst F) (ph : nat -> sphase) :
  length (procs s0) = NPROCS -> ptable_lock s0 = false ->
  sem_init 0 s0 = Ok tt s1 -> rtc (sem_step a) (s1, fun _ => Outside) (s, ph) ->
  locked (sem_of s) = 0 /\ value (sem_of s) = - inside NPROCS ph /\ (forall i k, ph i <> Waiting k) /\
  (forall i p fuel, procs s !! i = Some p -> kstack p <> 0 -> pgdir p <> 0 ->
     exists s', slice i true (sem_down fuel a) s = Some (Returned, s')).
Proof.
  intros Hlen Hl Hinit Hr.
  destruct (proj1 (wp_ok _ _ _) (wp_sem_init 0 s0)) as ([] & s1' & E & Hs1). rewrite E in Hinit. injection Hinit as ->.
  assert (zero_inv s1 (fun _ => Outside)) as H0.
  { subst s1. constructor; [done|done|by rewrite sem_of_set| |by rewrite sem_of_set|done]. rewrite sem_of_set.
    assert (inside NPROCS (fun _ => Outside) = 0) as -> by (generalize NPROCS; induction n; simpl; lia). done. }
  assert (zero_inv s ph) as [Z1 Z2 Z3 Z4 Z5 Z6].
  { by apply (zero_steps a _ _ Hr). }
  split_and!; [done|done|done|]. intros i p fuel Hp Hks Hpd. eapply slice_returns; [done|done|done|done|]. intros h.
  eapply wp_mono; [by apply wp_sem_down_open|]. intros [] s' ->. split; [done|].
  simpl. rewrite list_lookup_insert_eq by (by eapply lookup_lt_Some). eauto.
Qed.

(** ** Two addresses *)

(** No lock is held, but perhaps one of the semaphore's. *)
Definition unlocked (s : kst F) : Prop :=
  length (procs s) = NPROCS /\ ptable_lock s = false /\ forall m, sem_lk m = false -> ncli_of (set_sem m s) = 0.

Lemma sem_down_sleeps fuel a s p : unlocked s -> sem_lk (sem_of s) = false -> locked (sem_of s) <> 0 -> procs s !! cur s = Some p ->
  exists k, sem_down (S fuel) a s = Sleeping a (set_procs (<[cur s := asleep a p]> (procs s)) (set_ptable_lock true s)) k.
Proof.
  intros (Hlen & Hl & Hn) Hlk H0 Hp. set (s1 := set_sem (set_sem_lk true (sem_of s)) s).
  assert (set_sem (set_sem_lk false (sem_of s1)) s1 = s) as Hback.
  { unfold s1. rewrite sem_of_set, set_sem_set. change (set_sem_lk false (set_sem_lk true (sem_of s))) with (set_sem_lk false (sem_of s)).
    by rewrite set_sem_lk_id, set_sem_id. }
  destruct (sleep_lock a sem_lockref s1 (set_ptable_lock true s) p) as (k & Hk & _).
  - done.
  - cbn [lk_release sem_lockref]. unfold release_sem, release_flag, bind, gets. cbn [bind_res].
    change (sem_of (set_ptable_lock true s1)) with (sem_of s1). unfold s1 at 1. rewrite sem_of_set. cbn [sem_lk set_sem_lk]. unfold modify.
    cbn [negb]. f_equal. change (set_ptable_lock true (set_sem (set_sem_lk false (sem_of s1)) s1) = set_ptable_lock true s). by rewrite Hback.
  - done.
  - done.
  - specialize (Hn (sem_of s) Hlk). rewrite set_sem_id in Hn. unfold ncli_of in *. cbn [ptable_lock set_ptable_lock sh_locked sh_table km fs] in *.
    rewrite Hl in Hn. unfold sh_locked in *. cbn [sh_table set_ptable_lock] in *. cbn [Z.b2z] in *. lia.
  - done.
  - unfold sem_down, acquire_sem, acquire_flag, bind, gets. cbn [bind_res]. rewrite Hlk. unfold modify. cbn [bind_res]. fold s1.
    assert (locked (sem_of s1) = locked (sem_of s)) as Hl1 by (unfold s1; by rewrite sem_of_set).
    rewrite Hl1, (proj2 (Z.eqb_neq _ _) H0). cbn [sem_wait]. unfold bind, gets. cbn [bind_res]. rewrite Hl1, (proj2 (Z.eqb_neq _ _) H0).
    rewrite Hk. cbn [bind_res]. eexists. reflexivity.
Qed.

Lemma wp_sem_up_run a s : length (procs s) = NPROCS -> ptable_lock s = false -> sem_lk (sem_of s) = false ->
  wp (sem_up a) (fun _ s' => s' = set_procs (wake a <$> procs s) (set_sem (upped (sem_of s)) s)) s.
Proof.
  intros Hlen Hl Hlk. unfold sem_up, acquire_sem, acquire_flag, on_sem. wp_steps. rewrite Hlk. wp_steps. rewrite !sem_of_set.
  unfold upped. cbn [value maxval set_value set_sem_lk].
  destruct (i32 (value (sem_of s) + 1) =? maxval (sem_of s)); unfold when; wp_steps; rewrite ?sem_of_set, ?set_sem_set;
    (apply wp_wakeup; [done|done|]); unfold release_sem, release_flag; wp_steps;
    unfold sem_of, set_sem, set_procs, set_fs; simpl; rewrite ?lget_lput; simpl; apply wp_modify; simpl; by rewrite lget_lput, lput_lput.
Qed.

(** A process the scheduler can pick. *)
Definition ready_proc (s : kst F) (i : nat) (p : proc) : Prop := procs s !! i = Some p /\ state p = RUNNABLE /\ kstack p <> 0 /\ pgdir p <> 0.

(** A slice in which [m] returns or goes to sleep, and the table after it. *)
Lemma slice_ok i m s p (R : kst F -> Prop) : ptable_lock s = false -> ready_proc s i p ->
  (forall h, wp m (fun _ s2 => ptable_lock s2 = false /\ is_Some (procs s2 !! i) /\ R s2) (dispatched i true p h s)) ->
  exists h q s2, slice i true m s = Some (Returned, set_hw h (set_procs (<[i := set_state RUNNABLE q]> (procs s2)) s2)) /\ procs s2 !! i = Some q /\ R s2.
Proof.
  intros Hl (Hp & _ & Hk & Hd) Hm. destruct (slice_returns i true m s p Hl Hp Hk Hd) as [s' Hs].
  { intros h. eapply wp_mono; [apply Hm|]. by intros _ s2 (H1 & H2 & _). }
  destruct (slice_cases _ _ _ _ _ _ Hl Hs) as (p' & h & h' & Hp' & s2 & q & Hrun & Hq & _ & ->).
  rewrite Hp in Hp'. injection Hp' as <-.
  destruct (proj1 (wp_ok _ _ _) (Hm h)) as ([] & s2' & Hrun' & _ & _ & HR).
  rewrite Hrun in Hrun'. injection Hrun' as <-. by exists h', q, s2.
Qed.

Lemma slice_sleeps i m s p c (s2 : cpu_regs -> kst F) : ptable_lock s = false -> ready_proc s i p ->
  (forall h, ptable_lock (s2 h) = true /\ exists k, m (dispatched i true p h s) = Sleeping c (s2 h) k) ->
  exists h h' k, slice i true m s = Some (Blocked k, unwound h' (s2 h)).
Proof.
  intros Hl (Hp & _ & Hk & Hd) Hm. unfold slice, bind. destruct (start_slice_ok i true s p Hl Hp Hk Hd) as [h ->]. cbn [bind_res].
  destruct (Hm h) as (Hlk & k & ->). rewrite unwind_run, Hlk. eauto.
Qed.

(** Process [i] takes the only place, [j] waits for it, [i] gives it back. *)
Definition preempted (p : proc) : proc := set_state RUNNABLE (set_state RUNNING p).

Lemma slice_enters s i fuel a p : unlocked s -> ready_proc s i p ->
  exists s1, slice i true (sem_init 1 ;;; sem_down fuel a) s = Some (Returned, s1) /\ unlocked s1 /\
    procs s1 = <[i := preempted p]> (procs s) /\ sem_of s1 = mk_sem false 0 1 1 1.
Proof.
  intros (Hlen & Hl & Hn) Hi. pose proof (lookup_lt_Some _ _ _ (proj1 Hi)) as Hlt.
  destruct (slice_ok i (sem_init 1 ;;; sem_down fuel a) s p
    (fun t => exists h, t = set_sem (mk_sem false 0 1 1 1) (dispatched i true p h s)) Hl Hi) as (h1 & p1 & t1 & Hs1 & Hp1 & h0 & ->).
  { intros h. apply wp_bind. eapply wp_mono; [apply wp_sem_init|]. intros [] t ->.
    eapply wp_mono; [apply wp_sem_down_open; by rewrite sem_of_set|]. intros [] t ->. rewrite sem_of_set, set_sem_set.
    split; [done|]. split; [simpl; rewrite list_lookup_insert_eq by done; eauto|by exists h]. }
  simpl in Hp1. rewrite list_lookup_insert_eq in Hp1 by done. injection Hp1 as <-. eexists. split; [exact Hs1|].
  split_and!; [|apply list_insert_insert_eq|apply (sem_of_set (mk_sem false 0 1 1 1) (dispatched i true p h0 s))].
  split; [simpl; by rewrite !length_insert|]. split; [done|]. intros m Hm. rewrite <- (Hn m Hm). unfold ncli_of. cbn. by rewrite Hl, lput_lput.
Qed.

Lemma slice_waits s j fuel b q : unlocked s -> ready_proc s j q -> sem_lk (sem_of s) = false -> locked (sem_of s) <> 0 ->
  exists k s', slice j true (sem_down (S fuel) b) s = Some (Blocked k, s') /\ ptable_lock s' = false /\
    procs s' = <[j := asleep b (set_state RUNNING q)]> (procs s) /\ sem_of s' = sem_of s.
Proof.
  intros (Hlen & Hl & Hn) Hj Hlk Hloc. pose proof (lookup_lt_Some _ _ _ (proj1 Hj)) as Hlt.
  destruct (slice_sleeps j (sem_down (S fuel) b) s q b (fun h => let d := dispatched j true q h s in
    set_procs (<[j := asleep b (set_state RUNNING q)]> (procs d)) (set_ptable_lock true d))) as (h & h' & k & Hs); [done|done| |].
  { intros h. split; [done|]. apply (sem_down_sleeps fuel b (dispatched j true q h s) (set_state RUNNING q)); [|done|done|by apply list_lookup_insert_eq].
    split; [simpl; by rewrite length_insert|]. split; [done|]. intros m Hm. rewrite <- (Hn m Hm). unfold ncli_of. cbn. by rewrite Hl. }
  exists k. eexists. split; [exact Hs|]. split_and!; [done|apply list_insert_insert_eq|done].
Qed.

Lemma slice_leaves s i a p : length (procs s) = NPROCS -> ptable_lock s = false -> ready_proc s i p -> sem_lk (sem_of s) = false ->
  exists s', slice i true (sem_up a) s = Some (Returned, s') /\ sem_of s' = upped (sem_of s) /\
    forall j r, j <> i -> procs s !! j = Some r -> procs s' !! j = Some (wake a r).
Proof.
  intros Hlen Hl Hi Hlk. pose proof (lookup_lt_Some _ _ _ (proj1 Hi)) as Hlt.
  destruct (slice_ok i (sem_up a) s p (fun t => sem_of t = upped (sem_of s) /\
    forall j r, j <> i -> procs s !! j = Some r -> procs t !! j = Some (wake a r)) Hl Hi) as (h & p' & t & Hs & _ & Hm & Hj).
  { intros h. eapply wp_mono; [apply wp_sem_up_run; [simpl; by rewrite length_insert|done|done]|]. intros [] t ->.
    split; [done|]. split; [|split].
    - cbn [procs set_procs]. rewrite list_lookup_fmap. cbn [procs dispatched]. rewrite list_lookup_insert_eq by done. by eexists.
    - apply (sem_of_set (upped (sem_of s))).
    - intros j r Hne Hr. cbn [procs set_procs]. rewrite list_lookup_fmap. cbn [procs dispatched]. by rewrite list_lookup_insert_ne, Hr by done. }
  eexists. split; [exact Hs|]. split; [exact Hm|]. intros j r Hne Hr. cbn [procs set_hw set_procs]. rewrite list_lookup_insert_ne by done. by apply Hj.
Qed.

(** C38: processes that see a semaphore at different addresses lose wake-ups.
    Take any state in which no lock is held and any two processes [i] and [j]
    that are ready to run, and initialise the semaphore with 1.  [i] enters
    with [sem_down], [j] calls [sem_down] and has to wait, and [i] leaves with
    [sem_up]: the value is 1 again and the semaphore open.  When [i] and [j]
    use the same address, [j] has been woken; when their addresses differ, [j]
    is still asleep, on its own address, on which [sem_up] does not call. *)
Theorem sem_two_addresses_lose_wakeup (s : kst F) (i j fuel : nat) (a b : Z) (p q : proc) :
  unlocked s -> i <> j -> ready_proc s i p -> ready_proc s j q ->
  exists s1 s2 s3 k,
    slice i true (sem_init 1 ;;; sem_down fuel a) s = Some (Returned, s1) /\
    slice j true (sem_down (S fuel) b) s1 = Some (Blocked k, s2) /\
    slice i true (sem_up a) s2 = Some (Returned, s3) /\
    value (sem_of s3) = 1 /\ locked (sem_of s3) = 0 /\
    state_of s3 j = Some (if a =? b then RUNNABLE else SLEEPING) /\ chan_of s3 j = Some b.
Proof.
  intros Hun Hij Hi Hj. pose proof (lookup_lt_Some _ _ _ (proj1 Hi)) as Hlti. pose proof (lookup_lt_Some _ _ _ (proj1 Hj)) as Hltj.
  destruct (slice_enters s i fuel a p Hun Hi) as (s1 & Hs1 & Hun1 & Hpr1 & Hm1).
  destruct (slice_waits s1 j fuel b q Hun1) as (k & s2 & Hs2 & Hl2 & Hpr2 & Hm2);
    [split; [by rewrite Hpr1, list_lookup_insert_ne by done; apply Hj|apply Hj]|by rewrite Hm1|by rewrite Hm1|].
  destruct (slice_leaves s2 i a (preempted p)) as (s3 & Hs3 & Hm3 & Hj3).
  - rewrite Hpr2, Hpr1, !length_insert. apply Hun.
  - done.
  - split; [|split; [done|apply Hi]]. by rewrite Hpr2, Hpr1, list_lookup_insert_ne, list_lookup_insert_eq by done.
  - by rewrite Hm2, Hm1.
  - specialize (Hj3 j (asleep b (set_state RUNNING q)) ltac:(done)). rewrite Hpr2, list_lookup_insert_eq in Hj3 by (by rewrite Hpr1, length_insert).
    specialize (Hj3 eq_refl). exists s1, s2, s3, k. rewrite Hm3, Hm2, Hm1. split_and!; try done; unfold state_of, chan_of; rewrite Hj3;
      cbn [fmap option_fmap option_map]; unfold wake, asleep; cbn [state chan set_state set_chan]; rewrite bool_decide_true, Z.eqb_sym by done; by destruct (a =? b).
Qed.
End Runs.

(** ** Two processes *)
#[local] Existing Instance demo_proc_image.
#[local] Instance sem_locks : FsLocks sem_t := {| fs_locks := fun m => Z.b2z (sem_lk m) |}.
Definition sem_proc (st : procstate) : proc :=
  mk_proc 4096 0x80400000 0x80401000 st 1 None 0 0 0 false [] 0 [] (mk_pshm 0 [] [] [] []).
Definition sem_kst : kst sem_t :=
  mk_kst kmem_boot (mk_shm false [] []) false (replicate 2 (sem_proc RUNNABLE) ++ replicate 62 (sem_proc UNUSED))
    3 None 0 (mk_regs 0 0 0 0 0 0 null_seg) (mk_sem false 0 0 0 0).

(** Process 0 is inside a semaphore of value 1. *)
Lemma sem_safe_and_live_witness : exists s1 s ph,
  sem_init 1 sem_kst = Ok tt s1 /\ rtc (sem_step 0x7ffff000) (s1, fun _ => Outside) (s, ph) /\ ph 0%nat = Inside /\
  inside NPROCS ph <= 1 /\ value (sem_of s) = 1 - inside NPROCS ph.
Proof.
  destruct (sem_init 1 sem_kst) as [[] s1| | | | |] eqn:Ei; try (vm_compute in Ei; discriminate Ei).
  assert (s1 = set_sem (mk_sem false 1 1 0 0) sem_kst) as Hs1 by (vm_compute in Ei; injection Ei; intros <-; reflexivity).
  destruct (slice 0 true (sem_down 1 0x7ffff000) s1) as [[o s]|] eqn:Es; [|subst s1; vm_compute in Es; discriminate Es].
  assert (o = Returned) as -> by (subst s1; vm_compute in Es; injection Es; intros _ <-; reflexivity).
  assert (rtc (sem_step 0x7ffff000) (s1, fun _ => Outside) (s, <[0%nat := Inside]> (fun _ => Outside))) as Hr.
  { apply rtc_once. eapply (ss_down _ _ _ _ 0 1); [|done|exact Es|done].
    subst s1. exists (sem_proc RUNNABLE). split; reflexivity. }
  exists s1, s, (<[0%nat := Inside]> (fun _ => Outside)). split; [done|]. split; [exact Hr|]. split; [done|].
  destruct (sem_safe_and_live 1 0x7ffff000 sem_kst s1 s (<[0%nat := Inside]> (fun _ => Outside))) as (Hin & Hv & _);
    [rewrite pow2_31; lia|reflexivity|reflexivity|exact Ei|exact Hr|]. by split.
Defined.

(** Process 0 is inside a semaphore of value 0, and process 1 gets in as well. *)
Lemma sem_zero_does_not_block_witness : exists s1 s s',
  sem_init 0 sem_kst = Ok tt s1 /\ slice 0 true (sem_down 1 0x7ffff000) s1 = Some (Returned, s) /\
  locked (sem_of s) = 0 /\ value (sem_of s) = -1 /\ slice 1 true (sem_down 1 0x7ffff000) s = Some (Returned, s').
Proof.
  destruct (sem_init 0 sem_kst) as [[] s1| | | | |] eqn:Ei; try (vm_compute in Ei; discriminate Ei).
  assert (s1 = set_sem (mk_sem false 0 0 0 0) sem_kst) as Hs1 by (vm_compute in Ei; injection Ei; intros <-; reflexivity).
  destruct (slice 0 true (sem_down 1 0x7ffff000) s1) as [[o s]|] eqn:Es; [|subst s1; vm_compute in Es; discriminate Es].
  assert (o = Returned) as -> by (subst s1; vm_compute in Es; injection Es; intros _ <-; reflexivity).
  assert (procs s !! 1%nat = Some (sem_proc RUNNABLE)) as Hp by (subst s1; vm_compute in Es; injection Es; intros <-; reflexivity).
  assert (rtc (sem_step 0x7ffff000) (s1, fun _ => Outside) (s, <[0%nat := Inside]> (fun _ => Outside))) as Hr.
  { apply rtc_once. eapply (ss_down _ _ _ _ 0 1); [|done|exact Es|done].
    subst s1. exists (sem_proc RUNNABLE). split; reflexivity. }
  destruct (sem_zero_does_not_block 0x7ffff000 sem_kst s1 s (<[0%nat := Inside]> (fun _ => Outside))) as (Hloc & Hv & _ & Hnext);
    [reflexivity|reflexivity|exact Ei|exact Hr|].
  destruct (Hnext 1%nat (sem_proc RUNNABLE) 1%nat) as [s' Hs']; [exact Hp|discriminate|discriminate|].
  exists s1, s, s'. by split_and!.
Defined.

Lemma sem_two_addresses_lose_wakeup_witness : exists s1 s2 s3 k,
  slice 0 true (sem_init 1 ;;; sem_down 1 0x7ffff000) sem_kst = Some (Returned, s1) /\
  slice 1 true (sem_down 2 0x7fffe000) s1 = Some (Blocked k, s2) /\
  slice 0 true (sem_up 0x7ffff000) s2 = Some (Returned, s3) /\ value (sem_of s3) = 1 /\ state_of s3 1 = Some SLEEPING.
Proof.
  destruct (sem_two_addresses_lose_wakeup sem_kst 0 1 1 0x7ffff000 0x7fffe000 (sem_proc RUNNABLE) (sem_proc RUNNABLE))
    as (s1 & s2 & s3 & k & H1 & H2 & H3 & Hv & _ & Hst & _).
  - split; [reflexivity|]. split; [reflexivity|]. intros m Hm. unfold ncli_of. simpl. by rewrite Hm.
  - discriminate.
  - by split_and!.
  - by split_and!.
  - exists s1, s2, s3, k. by split_and!.
Defined.
