(* ===== verification/Spinlock.v ===== *)
(** * [spinlock.c]: spin locks on several processors

    The code of one processor is a computation over the machine state (the
    per-processor fields of [struct cpu], the locks and the memory);
    processors interleave between the accesses to the shared lock words.  The
    file shows mutual exclusion, that a processor holding a lock has its
    interrupts off, and that they are restored when it holds none.  The other
    files use locks as flags ([acquire_flag], [release_flag]): a section of
    code between [acquire] and [release] runs by itself. *)
From Stdlib Require Import ZArith Lia Bool.
From stdpp Require Import base numbers list strings relations.
From S2P Require Import Prelude Machine.

Module Spin.

(** ** State *)
Record cpu : Type := mk_cpu {
  apicid : Z;
  ncli : Z;       (* depth of pushcli nesting *)
  intena : bool;  (* were interrupts enabled before pushcli? *)
  fl_if : bool;   (* the FL_IF bit of %eflags *)
}.

Record spinlock : Type := mk_lock {
  locked : Z;
  lk_cpu : option nat;  (* an index of cpus[], or the null pointer *)
  pcs : list Z;
}.

(** [lapic_id] is the identifier register of each processor's local APIC. *)
Record machine : Type := mk_machine {
  ncpu : nat;
  lapic_id : nat -> Z;
  cpus : nat -> cpu;
  locks : nat -> spinlock;
  ram : memory;
}.

Definition upd {A} (f : nat -> A) (i : nat) (v : A) : nat -> A := fun j => if decide (j = i) then v else f j.

Definition set_cpu (c : nat) (v : cpu) (s : machine) : machine :=
  mk_machine (ncpu s) (lapic_id s) (upd (cpus s) c v) (locks s) (ram s).
Definition set_lock (l : nat) (v : spinlock) (s : machine) : machine :=
  mk_machine (ncpu s) (lapic_id s) (cpus s) (upd (locks s) l v) (ram s).
Definition set_ncli (n : Z) (k : cpu) : cpu := mk_cpu (apicid k) n (intena k) (fl_if k).
Definition set_intena (b : bool) (k : cpu) : cpu := mk_cpu (apicid k) (ncli k) b (fl_if k).
Definition set_if (b : bool) (k : cpu) : cpu := mk_cpu (apicid k) (ncli k) (intena k) b.
Definition set_locked (v : Z) (k : spinlock) : spinlock := mk_lock v (lk_cpu k) (pcs k).
Definition set_lk_cpu (v : option nat) (k : spinlock) : spinlock := mk_lock (locked k) v (pcs k).
Definition set_pcs (v : list Z) (k : spinlock) : spinlock := mk_lock (locked k) (lk_cpu k) v.

Definition on_cpu (c : nat) (f : cpu -> cpu) : M machine unit := modify (fun s => set_cpu c (f (cpus s c)) s).
Definition on_lock (l : nat) (f : spinlock -> spinlock) : M machine unit :=
  modify (fun s => set_lock l (f (locks s l)) s).

(** ** The code, run by the processor with index [c] *)
Definition initlock (l : nat) : M machine unit :=
  on_lock l (set_locked 0) ;;; on_lock l (set_lk_cpu None).

Definition readeflags_if (c : nat) : M machine bool := gets (fun s => fl_if (cpus s c)).
Definition cli (c : nat) : M machine unit := on_cpu c (set_if false).
Definition sti (c : nat) : M machine unit := on_cpu c (set_if true).
Definition lapicid (c : nat) : M machine Z := gets (fun s => lapic_id s c).

Definition mycpu (c : nat) : M machine nat :=
  eflags <- readeflags_if c ;;
  if (eflags : bool) then panic "mycpu called with interrupts enabled"
  else
    id <- lapicid c ;;
    n <- gets ncpu ;;
    found <- for_find n 0 (fun i =>
      a <- gets (fun s => apicid (cpus s i)) ;;
      ret (if a =? id then Some i else None)) ;;
    match found with
    | Some i => ret i
    | None => panic "unknown apicid"
    end.

Definition pushcli (c : nat) : M machine unit :=
  eflags <- readeflags_if c ;;
  cli c ;;;
  me <- mycpu c ;;
  n <- gets (fun s => ncli (cpus s me)) ;;
  when (n =? 0) (me <- mycpu c ;; on_cpu me (set_intena eflags)) ;;;
  me <- mycpu c ;;
  on_cpu me (fun k => set_ncli (ncli k + 1) k).

Definition popcli (c : nat) : M machine unit :=
  eflags <- readeflags_if c ;;
  if (eflags : bool) then panic "popcli - interruptible"
  else
    me <- mycpu c ;;
    on_cpu me (fun k => set_ncli (ncli k - 1) k) ;;;
    n <- gets (fun s => ncli (cpus s me)) ;;
    if n <? 0 then panic "popcli"
    else
      me <- mycpu c ;;
      n <- gets (fun s => ncli (cpus s me)) ;;
      i <- (if n =? 0 then me <- mycpu c ;; gets (fun s => intena (cpus s me)) else ret false) ;;
      when i (sti c).

Definition holding (c l : nat) : M machine bool :=
  v <- gets (fun s => locked (locks s l)) ;;
  if v =? 0 then ret false
  else
    o <- gets (fun s => lk_cpu (locks s l)) ;;
    me <- mycpu c ;;
    ret (bool_decide (o = Some me)).

Definition xchg (l : nat) (newval : Z) : M machine Z :=
  old <- gets (fun s => locked (locks s l)) ;;
  on_lock l (set_locked newval) ;;;
  ret old.

(** The loop of [getcallerpcs] from frame pointer [ebp], [n] frames to go. *)
Fixpoint callerpcs (n : nat) (m : memory) (ebp : Z) : list Z :=
  match n with
  | O => []
  | S n' =>
      if (ebp =? 0) || (ebp <? KERNBASE) || (ebp =? 0xffffffff) then replicate n 0
      else load32 m (u32 (ebp + 4)) :: callerpcs n' m (load32 m ebp)
  end.
Definition getcallerpcs (m : memory) (v : Z) : list Z := callerpcs 10 m (u32 (v - 8)).

(** [acquire] up to the loop, and after it; [v] is the address of its argument. *)
Definition acquire_enter (c l : nat) : M machine unit :=
  pushcli c ;;;
  h <- holding c l ;;
  if (h : bool) then panic "acquire" else ret tt.
Definition acquire_record (c l : nat) (v : Z) : M machine unit :=
  me <- mycpu c ;;
  on_lock l (set_lk_cpu (Some me)) ;;;
  m <- gets ram ;;
  on_lock l (set_pcs (getcallerpcs m v)).

Fixpoint acquire_spin (fuel : nat) (l : nat) : M machine unit :=
  match fuel with
  | O => nofuel
  | S fuel' => r <- xchg l 1 ;; if r =? 0 then ret tt else acquire_spin fuel' l
  end.

Definition acquire (fuel : nat) (c l : nat) (v : Z) : M machine unit :=
  acquire_enter c l ;;; acquire_spin fuel l ;;; acquire_record c l v.

(** [release] up to the store that frees the lock, and from it on. *)
Definition release_enter (c l : nat) : M machine unit :=
  h <- holding c l ;;
  if negb h then panic "release"
  else
    on_lock l (fun k => set_pcs (<[0%nat := 0]> (pcs k)) k) ;;;
    on_lock l (set_lk_cpu None).
Definition release_exit (c l : nat) : M machine unit :=
  on_lock l (set_locked 0) ;;; popcli c.
Definition release (c l : nat) : M machine unit := release_enter c l ;;; release_exit c l.

(** ** Interleaving

    Where a processor is in [acquire] or [release]; [Idle] is everything else. *)
Inductive phase : Type := Idle | Spinning (l : nat) | Entered (l : nat) | Leaving (l : nat).

#[export] Instance phase_eq_dec : EqDecision phase.
Proof. solve_decision. Defined.

Definition conf : Type := machine * (nat -> phase).

(** [step n]: one processor goes one stretch further, on one of [n] locks;
    the stretches break at the accesses to the shared lock word. *)
Inductive step (nlocks : nat) : conf -> conf -> Prop :=
| step_enter s s' ph c l : (c < ncpu s)%nat -> (l < nlocks)%nat -> ph c = Idle -> acquire_enter c l s = Ok tt s' ->
    step nlocks (s, ph) (s', upd ph c (Spinning l))
| step_xchg s s' ph c l r : (c < ncpu s)%nat -> ph c = Spinning l -> xchg l 1 s = Ok r s' ->
    step nlocks (s, ph) (s', upd ph c (if r =? 0 then Entered l else Spinning l))
| step_record s s' ph c l v : (c < ncpu s)%nat -> ph c = Entered l -> acquire_record c l v s = Ok tt s' ->
    step nlocks (s, ph) (s', upd ph c Idle)
| step_release s s' ph c l : (c < ncpu s)%nat -> (l < nlocks)%nat -> ph c = Idle -> release_enter c l s = Ok tt s' ->
    step nlocks (s, ph) (s', upd ph c (Leaving l))
| step_exit s s' ph c l : (c < ncpu s)%nat -> ph c = Leaving l -> release_exit c l s = Ok tt s' ->
    step nlocks (s, ph) (s', upd ph c Idle)
| step_other s m ph : step nlocks (s, ph) (mk_machine (ncpu s) (lapic_id s) (cpus s) (locks s) m, ph).

(** ** The invariant *)
Fixpoint held (n : nat) (lk : nat -> spinlock) (c : nat) : Z :=
  match n with
  | O => 0
  | S n' => held n' lk c + Z.b2z (bool_decide (lk_cpu (lk n') = Some c))
  end.

Definition owner (s : machine) (ph : nat -> phase) (l c : nat) : Prop :=
  lk_cpu (locks s l) = Some c \/ ph c = Entered l \/ ph c = Leaving l.

(** The processors' identifiers tell them apart. *)
Definition ids_ok (s : machine) : Prop :=
  (forall c, (c < ncpu s)%nat -> apicid (cpus s c) = lapic_id s c) /\
  (forall c c', (c < ncpu s)%nat -> (c' < ncpu s)%nat -> lapic_id s c = lapic_id s c' -> c = c').

Definition busy (ph : nat -> phase) (c : nat) : bool := negb (bool_decide (ph c = Idle)).

Definition phase_lock (p : phase) : option nat :=
  match p with Idle => None | Spinning l | Entered l | Leaving l => Some l end.

(** A lock word is 1 exactly when the lock has an owner, and then just one. *)
Definition lock_inv (s : machine) (ph : nat -> phase) (l : nat) : Prop :=
  exists o : option nat, locked (locks s l) = (if o is Some _ then 1 else 0) /\ (forall c, owner s ph l c <-> o = Some c) /\
    (forall c, lk_cpu (locks s l) = Some c -> ph c <> Entered l /\ ph c <> Leaving l).

(** [ncli] counts the locks held and being taken; interrupts are off while it
    is positive, and [base] is the state they had before. *)
Definition cpu_inv (nlocks : nat) (base : bool) (s : machine) (ph : nat -> phase) (c : nat) : Prop :=
  ncli (cpus s c) = held nlocks (locks s) c + Z.b2z (busy ph c) /\
  if ncli (cpus s c) =? 0 then fl_if (cpus s c) = base
  else fl_if (cpus s c) = false /\ intena (cpus s c) = base.

Record inv (nlocks : nat) (base : nat -> bool) (s : machine) (ph : nat -> phase) : Prop := {
  inv_ids : ids_ok s;
  inv_phase : forall c l, phase_lock (ph c) = Some l -> (l < nlocks)%nat;
  inv_lock : forall l, lock_inv s ph l;
  inv_proc : forall c, cpu_inv nlocks (base c) s ph c;
}.

Lemma upd_eq {A} (f : nat -> A) i v : upd f i v i = v.
Proof. unfold upd. by destruct (decide (i = i)). Qed.
Lemma upd_ne {A} (f : nat -> A) i j v : j <> i -> upd f i v j = f j.
Proof. intros Hne. unfold upd. by destruct (decide (j = i)). Qed.

Lemma held_nonneg n lk c : 0 <= held n lk c.
Proof. induction n as [|n IH]; simpl; [lia|]. destruct (bool_decide _); simpl; lia. Qed.

Lemma held_ext n lk lk' c : (forall l, (l < n)%nat -> lk_cpu (lk' l) = lk_cpu (lk l)) -> held n lk' c = held n lk c.
Proof. induction n as [|n IH]; intros Hl; simpl; [done|]. rewrite IH by auto with lia. by rewrite Hl by lia. Qed.

Lemma held_change n lk lk' l c : (l < n)%nat -> (forall l', l' <> l -> lk' l' = lk l') ->
  held n lk' c + Z.b2z (bool_decide (lk_cpu (lk l) = Some c)) =
  held n lk c + Z.b2z (bool_decide (lk_cpu (lk' l) = Some c)).
Proof.
  intros Hl Hne. induction n as [|n IH]; [lia|]. simpl. destruct (decide (l = n)) as [->|].
  - rewrite (held_ext n lk lk'); [lia|]. intros l' Hl'. by rewrite Hne by lia.
  - rewrite (Hne n) by done. assert (l < n)%nat as Hln by lia. specialize (IH Hln). lia.
Qed.

Lemma held_pos n lk l c : (l < n)%nat -> lk_cpu (lk l) = Some c -> 0 < held n lk c.
Proof.
  intros Hl Ho. induction n as [|n IH]; [lia|]. simpl. destruct (decide (l = n)) as [->|].
  - rewrite bool_decide_true by done. pose proof (held_nonneg n lk c). simpl. lia.
  - destruct (bool_decide _); simpl; lia.
Qed.

(** ** The code's effect *)

(** [cpu_changes c v s s']: only processor [c]'s fields change, to [v]. *)
Record cpu_changes (c : nat) (v : cpu) (s s' : machine) : Prop := {
  cc_ncpu : ncpu s' = ncpu s;
  cc_ids : lapic_id s' = lapic_id s;
  cc_locks : locks s' = locks s;
  cc_cpu : cpus s' c = v;
  cc_other : forall c', c' <> c -> cpus s' c' = cpus s c';
}.
Record lock_changes (l : nat) (v : spinlock) (s s' : machine) : Prop := {
  lc_ncpu : ncpu s' = ncpu s;
  lc_ids : lapic_id s' = lapic_id s;
  lc_cpus : cpus s' = cpus s;
  lc_lock : locks s' l = v;
  lc_other : forall l', l' <> l -> locks s' l' = locks s l';
}.

Definition pushed (k : cpu) : cpu :=
  mk_cpu (apicid k) (ncli k + 1) (if ncli k =? 0 then fl_if k else intena k) false.
Definition popped (k : cpu) : cpu :=
  mk_cpu (apicid k) (ncli k - 1) (intena k) ((ncli k =? 1) && intena k).

Lemma wp_mycpu c s (Q : nat -> machine -> Prop) : ids_ok s -> (c < ncpu s)%nat -> fl_if (cpus s c) = false ->
  Q c s -> wp (mycpu c) Q s.
Proof.
  intros [Hid Hinj] Hc Hif HQ. unfold mycpu, readeflags_if, lapicid. wp_steps. rewrite Hif. wp_steps.
  apply (wp_for_find (fun i s' => s' = s /\ (i <= c)%nat)); [split; [done|lia]|..].
  - intros i s' Hi [-> Hle]. wp_steps. destruct (Z.eqb_spec (apicid (cpus s i)) (lapic_id s c)) as [He|Hne].
    + replace i with c; [by apply wp_ret|]. apply Hinj; [done|lia|]. by rewrite <- He, Hid by lia.
    + split; [done|]. destruct (decide (i = c)) as [->|]; [by rewrite Hid in Hne|lia].
  - intros s' [-> Hle]. lia.
Qed.

Lemma ids_changes c v s s' : cpu_changes c v s s' -> apicid v = apicid (cpus s c) -> ids_ok s -> ids_ok s'.
Proof.
  intros [Hn Hi _ Hc Ho] Hv [Hid Hinj]. split; rewrite Hn, Hi; [|done]. intros c' Hlt.
  destruct (decide (c' = c)) as [->|Hne]; [rewrite Hc, Hv|rewrite Ho by done]; by apply Hid.
Qed.

Lemma set_cpu_changes c v s : cpu_changes c v s (set_cpu c v s).
Proof. constructor; simpl; [done..|apply upd_eq|intros; by apply upd_ne]. Qed.
Lemma cpu_changes_trans c v w s s' s'' :
  cpu_changes c v s s' -> cpu_changes c w s' s'' -> cpu_changes c w s s''.
Proof.
  intros [A1 A2 A3 A4 A5] [B1 B2 B3 B4 B5]. constructor; [congruence..|]. intros c' Hne. by rewrite B5, A5.
Qed.

(** [on_cpu] after [s0] has become [s] by changes to the same processor. *)
Lemma wp_on_cpu c f s0 v s (Q : unit -> machine -> Prop) : cpu_changes c v s0 s ->
  (forall s', cpu_changes c (f v) s0 s' -> Q tt s') -> wp (on_cpu c f) Q s.
Proof.
  intros Hs HQ. apply wp_modify, HQ. rewrite (cc_cpu _ _ _ _ Hs).
  eapply cpu_changes_trans; [exact Hs|apply set_cpu_changes].
Qed.

Lemma wp_mycpu_after c v s0 s (Q : nat -> machine -> Prop) :
  ids_ok s0 -> (c < ncpu s0)%nat -> cpu_changes c v s0 s -> apicid v = apicid (cpus s0 c) -> fl_if v = false ->
  Q c s -> wp (mycpu c) Q s.
Proof.
  intros Hids Hc Hs Hv Hif HQ. apply wp_mycpu; [by eapply ids_changes| |by rewrite (cc_cpu _ _ _ _ Hs)|done].
  by rewrite (cc_ncpu _ _ _ _ Hs).
Qed.

Lemma cpu_changes_refl c s : cpu_changes c (cpus s c) s s.
Proof. by constructor. Qed.

Lemma wp_pushcli c s : ids_ok s -> (c < ncpu s)%nat ->
  wp (pushcli c) (fun _ s' => cpu_changes c (pushed (cpus s c)) s s') s.
Proof.
  intros Hids Hc. unfold pushcli, readeflags_if, cli. wp_steps.
  eapply wp_on_cpu; [apply cpu_changes_refl|]. intros s1 H1. wp_steps.
  eapply wp_mycpu_after; [done..|]. wp_steps. rewrite (cc_cpu _ _ _ _ H1). simpl. unfold pushed.
  apply wp_when; intros ->; wp_steps.
  - eapply wp_mycpu_after; [done..|]. eapply wp_on_cpu; [done|]. intros s2 H2. wp_steps.
    eapply wp_mycpu_after; [done..|]. by eapply wp_on_cpu.
  - eapply wp_mycpu_after; [done..|]. by eapply wp_on_cpu.
Qed.

Lemma wp_popcli c s : ids_ok s -> (c < ncpu s)%nat -> fl_if (cpus s c) = false -> 0 < ncli (cpus s c) ->
  wp (popcli c) (fun _ s' => cpu_changes c (popped (cpus s c)) s s') s.
Proof.
  intros Hids Hc Hif Hn. unfold popcli, readeflags_if, sti. wp_steps. rewrite Hif. wp_steps.
  apply wp_mycpu; [done..|]. wp_steps. eapply wp_on_cpu; [apply cpu_changes_refl|]. intros s1 H1. wp_steps.
  rewrite (cc_cpu _ _ _ _ H1). simpl. rewrite (proj2 (Z.ltb_ge _ _)) by lia. wp_steps.
  eapply wp_mycpu_after; [done..|]. wp_steps. rewrite (cc_cpu _ _ _ _ H1). simpl.
  assert (popped (cpus s c) = (if (ncli (cpus s c) =? 1) && intena (cpus s c)
    then set_if true (set_ncli (ncli (cpus s c) - 1) (cpus s c)) else set_ncli (ncli (cpus s c) - 1) (cpus s c))) as ->.
  { unfold popped, set_ncli, set_if. simpl. destruct ((_ =? 1) && _); by rewrite ?Hif. }
  destruct (Z.eqb_spec (ncli (cpus s c) - 1) 0), (Z.eqb_spec (ncli (cpus s c)) 1); try lia; wp_steps.
  - eapply wp_mycpu_after; [done..|]. wp_steps. rewrite (cc_cpu _ _ _ _ H1). simpl.
    apply wp_when; intros ->; [by eapply wp_on_cpu|done].
  - by apply wp_when.
Qed.

Lemma wp_holding c l s : ids_ok s -> (c < ncpu s)%nat -> fl_if (cpus s c) = false ->
  wp (holding c l) (fun b s' => s' = s /\ b = negb (locked (locks s l) =? 0) && bool_decide (lk_cpu (locks s l) = Some c)) s.
Proof.
  intros Hids Hc Hif. unfold holding. wp_steps. destruct (locked (locks s l) =? 0); wp_steps; [done|].
  apply wp_mycpu; [done..|]. by wp_steps.
Qed.

Lemma lock_changes_trans l v w s s' s'' :
  lock_changes l v s s' -> lock_changes l w s' s'' -> lock_changes l w s s''.
Proof.
  intros [A1 A2 A3 A4 A5] [B1 B2 B3 B4 B5]. constructor; [congruence..|]. intros l' Hne. by rewrite B5, A5.
Qed.
Lemma wp_on_lock l f s (Q : unit -> machine -> Prop) :
  (forall s', lock_changes l (f (locks s l)) s s' -> Q tt s') -> wp (on_lock l f) Q s.
Proof.
  intros HQ. apply wp_modify, HQ. constructor; simpl; [done..|apply upd_eq|intros; by apply upd_ne].
Qed.

(** What a stretch that goes through has done. *)
Definition may_panic {A} (m : M machine A) (Q : A -> machine -> Prop) (s : machine) : Prop :=
  wpx m Q (fun _ _ => True) s.
Lemma may_panic_ok {A} (m : M machine A) Q s a s' : may_panic m Q s -> m s = Ok a s' -> Q a s'.
Proof. unfold may_panic, wpx. intros H E. by rewrite E in H. Qed.

Lemma acquire_enter_spec c l s : ids_ok s -> (c < ncpu s)%nat ->
  may_panic (acquire_enter c l) (fun _ s' => cpu_changes c (pushed (cpus s c)) s s') s.
Proof.
  intros Hids Hc. unfold may_panic, acquire_enter. wp_steps. apply wpx_of_wp.
  eapply wp_mono; [by apply wp_pushcli|]. intros [] s1 H1. wp_steps. apply wpx_of_wp.
  eapply wp_mono; [apply wp_holding|].
  - by eapply ids_changes.
  - by rewrite (cc_ncpu _ _ _ _ H1).
  - by rewrite (cc_cpu _ _ _ _ H1).
  - intros [] s2 [-> _]; [done|]. by wp_steps.
Qed.

Lemma acquire_record_spec c l v s : ids_ok s -> (c < ncpu s)%nat -> fl_if (cpus s c) = false ->
  wp (acquire_record c l v) (fun _ s' =>
    lock_changes l (mk_lock (locked (locks s l)) (Some c) (getcallerpcs (ram s) v)) s s') s.
Proof.
  intros Hids Hc Hif. unfold acquire_record. wp_steps. apply wp_mycpu; [done..|]. wp_steps.
  apply wp_modify. wp_steps. apply wp_on_lock. intros s2 H2. simpl in H2. rewrite upd_eq in H2.
  eapply lock_changes_trans; [|exact H2].
  constructor; simpl; [done..|apply upd_eq|intros; by apply upd_ne].
Qed.

Lemma release_enter_spec c l s : ids_ok s -> (c < ncpu s)%nat ->
  may_panic (release_enter c l) (fun _ s' => fl_if (cpus s c) = false /\ locked (locks s l) <> 0 /\
    lk_cpu (locks s l) = Some c /\
    lock_changes l (mk_lock (locked (locks s l)) None (<[0%nat := 0]> (pcs (locks s l)))) s s') s.
Proof.
  intros Hids Hc. unfold may_panic, release_enter. wp_steps. destruct (fl_if (cpus s c)) eqn:Hif.
  { unfold holding. wp_steps. destruct (locked (locks s l) =? 0); wp_steps; [done|].
    unfold mycpu, readeflags_if. wp_steps. by rewrite Hif. }
  apply wpx_of_wp. eapply wp_mono; [by apply wp_holding|]. intros b s1 [-> ->].
  destruct (Z.eqb_spec (locked (locks s l)) 0) as [|Hl]; [done|]. simpl.
  case_bool_decide as Ho; [|done]. simpl. apply wpx_of_wp. wp_steps. apply wp_on_lock. intros s1 H1.
  apply wp_on_lock. intros s2 H2. split_and!; [done..|]. eapply lock_changes_trans; [done|].
  by rewrite (lc_lock _ _ _ _ H1) in H2.
Qed.

Lemma ids_lock_changes l v s s' : lock_changes l v s s' -> ids_ok s -> ids_ok s'.
Proof. intros [Hn Hi Hc _ _] Hid. unfold ids_ok. by rewrite Hn, Hi, Hc. Qed.

Lemma release_exit_spec c l s : ids_ok s -> (c < ncpu s)%nat -> fl_if (cpus s c) = false -> 0 < ncli (cpus s c) ->
  wp (release_exit c l) (fun _ s' => exists s1,
    lock_changes l (set_locked 0 (locks s l)) s s1 /\ cpu_changes c (popped (cpus s c)) s1 s') s.
Proof.
  intros Hids Hc Hif Hn. unfold release_exit. wp_steps. apply wp_on_lock. intros s1 H1.
  pose proof (lc_cpus _ _ _ _ H1) as Hcpus. eapply wp_mono; [apply wp_popcli|].
  - by eapply ids_lock_changes.
  - by rewrite (lc_ncpu _ _ _ _ H1).
  - by rewrite Hcpus.
  - by rewrite Hcpus.
  - intros [] s2 H2. rewrite Hcpus in H2. by exists s1.
Qed.

(** ** Preservation

    Processor [c] moves to phase [p], concerning lock [l] only. *)
Definition about (p : phase) (l : nat) : Prop := p = Idle \/ phase_lock p = Some l.

Lemma about_other p l l' : about p l -> l' <> l -> p <> Entered l' /\ p <> Leaving l'.
Proof. intros [->|H] Hne; [done|]. destruct p; simpl in H; split; congruence. Qed.

Lemma inv_move n base s s' ph c l p : inv n base s ph -> (l < n)%nat ->
  about (ph c) l -> about p l -> ids_ok s' ->
  (forall c', c' <> c -> cpus s' c' = cpus s c') ->
  (forall l', l' <> l -> locks s' l' = locks s l') ->
  (forall c', c' <> c -> lk_cpu (locks s' l) = Some c' <-> lk_cpu (locks s l) = Some c') ->
  lock_inv s' (upd ph c p) l -> cpu_inv n (base c) s' (upd ph c p) c -> inv n base s' (upd ph c p).
Proof.
  intros [Hids Hph Hlock Hproc] Hl Ha Hp Hids' Hcs Hls Hlc Hlk Hcp. constructor; [done|..].
  - intros c' l'. unfold upd. destruct (decide (c' = c)) as [->|]; [|by apply Hph].
    destruct Hp as [->| ->]; [done|]. by intros [= <-].
  - intros l'. destruct (decide (l' = l)) as [->|Hne]; [done|].
    destruct (Hlock l') as (o & Hw & Ho & Hc'). exists o.
    destruct (about_other _ _ _ Ha Hne) as [He Hv], (about_other _ _ _ Hp Hne) as [He' Hv'].
    assert (forall c', (upd ph c p c' = Entered l' <-> ph c' = Entered l') /\
                       (upd ph c p c' = Leaving l' <-> ph c' = Leaving l')) as Hsame
      by (intros c'; unfold upd; destruct (decide (c' = c)) as [->|]; tauto).
    unfold owner in *. rewrite Hls by done.
    split_and!; [done| |]; intros c'; destruct (Hsame c') as [-> ->]; auto.
  - intros c'. destruct (decide (c' = c)) as [->|Hne]; [done|].
    destruct (Hproc c') as [Hn Hif]. unfold cpu_inv, busy in *. rewrite Hcs, upd_ne by done. split; [|done].
    rewrite Hn. f_equal. pose proof (held_change n (locks s) (locks s') l c' Hl Hls) as Hh.
    rewrite (bool_decide_ext _ _ (Hlc c' Hne)) in Hh. lia.
Qed.

Lemma cpu_off n b s ph c : cpu_inv n b s ph c -> ph c <> Idle \/ (exists l, (l < n)%nat /\ lk_cpu (locks s l) = Some c) ->
  0 < ncli (cpus s c) /\ fl_if (cpus s c) = false /\ intena (cpus s c) = b.
Proof.
  intros [Hn Hif] Hb. assert (0 < ncli (cpus s c)) as Hpos.
  { rewrite Hn. pose proof (held_nonneg n (locks s) c). unfold busy. destruct Hb as [Hb|(l & Hl & Ho)].
    - rewrite bool_decide_false by done. simpl. lia.
    - pose proof (held_pos n (locks s) l c Hl Ho). destruct (negb _); simpl; lia. }
  rewrite (proj2 (Z.eqb_neq _ _)) in Hif by lia. by destruct Hif.
Qed.

(** In the middle of taking or freeing a lock the lock is the processor's own,
    and no other is recorded in it. *)
Lemma lock_mid s ph l c : lock_inv s ph l -> ph c = Entered l \/ ph c = Leaving l ->
  lk_cpu (locks s l) = None /\ locked (locks s l) = 1 /\ forall c', owner s ph l c' <-> c' = c.
Proof.
  intros (o & Hw & Ho & Hc) Hp. assert (o = Some c) as -> by (apply Ho; by right).
  split_and!; [|done|intros c'; rewrite Ho; split; congruence].
  destruct (lk_cpu (locks s l)) as [c'|] eqn:E; [|done].
  assert (Some c = Some c') as [= <-] by (apply Ho; by left). destruct (Hc c eq_refl). tauto.
Qed.

Lemma inv_enter n base s ph c l s' : inv n base s ph -> (l < n)%nat -> ph c = Idle ->
  cpu_changes c (pushed (cpus s c)) s s' -> inv n base s' (upd ph c (Spinning l)).
Proof.
  intros Hinv Hl Hi Hs. pose proof Hs as [_ _ Hlk Hcc Hco].
  destruct (inv_lock _ _ _ _ Hinv l) as (o & Hw & Ho & Hc), (inv_proc _ _ _ _ Hinv c) as [Hn Hif].
  apply (inv_move n base s s' ph c l); rewrite ?Hlk; try done; [by left|by right|..].
  - eapply ids_changes; [done..|apply Hinv].
  - exists o. unfold owner in *. rewrite Hlk.
    split_and!; [done| |]; intros c'; specialize (Ho c'); specialize (Hc c');
      (destruct (decide (c' = c)) as [->|]; [rewrite upd_eq; rewrite Hi in *|by rewrite upd_ne]).
    + rewrite <- Ho. naive_solver.
    + done.
  - unfold cpu_inv, busy in *. rewrite Hlk, Hcc, upd_eq. rewrite Hi in Hn. simpl in *.
    pose proof (held_nonneg n (locks s) c). split; [lia|].
    rewrite (proj2 (Z.eqb_neq (ncli (cpus s c) + 1) 0)) by lia. split; [done|].
    destruct (ncli (cpus s c) =? 0); [done|by destruct Hif].
Qed.

(** A change of the lock word or its owner by the processor in between. *)
Lemma inv_swap n base s ph c l v s' p o : inv n base s ph -> (l < n)%nat -> about (ph c) l -> about p l ->
  lock_changes l v s s' -> locked v = (if o is Some _ then 1 else 0) ->
  (forall c', c' <> c -> lk_cpu v = Some c' <-> lk_cpu (locks s l) = Some c') ->
  (forall c', (lk_cpu v = Some c' \/ upd ph c p c' = Entered l \/ upd ph c p c' = Leaving l) <-> o = Some c') ->
  (forall c', lk_cpu v = Some c' -> upd ph c p c' <> Entered l /\ upd ph c p c' <> Leaving l) ->
  Z.b2z (bool_decide (lk_cpu v = Some c)) + Z.b2z (negb (bool_decide (p = Idle))) =
    Z.b2z (bool_decide (lk_cpu (locks s l) = Some c)) + Z.b2z (negb (bool_decide (ph c = Idle))) ->
  inv n base s' (upd ph c p).
Proof.
  intros Hinv Hl Ha Hp Hs Hw Hoth Ho Hc Hb. pose proof Hs as [_ _ Hcpus Hlk Hlo].
  destruct (inv_proc _ _ _ _ Hinv c) as [Hn Hif].
  apply (inv_move n base s s' ph c l); rewrite ?Hlk, ?Hcpus; try done.
  - eapply ids_lock_changes; [done|apply Hinv].
  - exists o. unfold owner. by rewrite Hlk.
  - unfold cpu_inv, busy in *. rewrite Hcpus, upd_eq. split; [|done].
    pose proof (held_change n (locks s) (locks s') l c Hl Hlo) as Hh. rewrite Hlk in Hh. lia.
Qed.

Lemma inv_xchg n base s ph c l s' : inv n base s ph -> ph c = Spinning l ->
  lock_changes l (set_locked 1 (locks s l)) s s' ->
  inv n base s' (upd ph c (if locked (locks s l) =? 0 then Entered l else Spinning l)).
Proof.
  intros Hinv Hp Hs. assert (l < n)%nat as Hl by (eapply Hinv; by rewrite Hp).
  destruct (inv_lock _ _ _ _ Hinv l) as (o & Hw & Ho & Hc). unfold owner in Ho.
  eapply (inv_swap n base s ph c l _ s' _ (if o is Some c' then Some c' else Some c)); try done.
  - right. by rewrite Hp.
  - right. by destruct (_ =? 0).
  - by destruct o.
  - intros c'. rewrite Hw. destruct o as [c0|]; simpl.
    + rewrite <- Ho. unfold upd. destruct (decide (c' = c)) as [->|]; [|done]. rewrite Hp. naive_solver.
    + unfold upd. destruct (decide (c' = c)) as [->|Hne]; [tauto|]. rewrite Ho. split; congruence.
  - intros c' H. rewrite Hw. destruct o as [c0|]; simpl in *.
    + destruct (Hc c' H). unfold upd. by destruct (decide (c' = c)).
    + assert (None = Some c') by (apply Ho; by left). done.
  - rewrite Hp. by destruct (_ =? 0).
Qed.

Lemma inv_record n base s ph c l pcs s' : inv n base s ph -> ph c = Entered l ->
  lock_changes l (mk_lock (locked (locks s l)) (Some c) pcs) s s' -> inv n base s' (upd ph c Idle).
Proof.
  intros Hinv Hp Hs. assert (l < n)%nat as Hl by (eapply Hinv; by rewrite Hp).
  destruct (lock_mid s ph l c) as (Hno & Hw & Ho); [apply Hinv|by left|].
  eapply (inv_swap n base s ph c l _ s' _ (Some c)); try done.
  - right. by rewrite Hp.
  - by left.
  - simpl. rewrite Hno. split; congruence.
  - simpl. intros c'. unfold upd. destruct (decide (c' = c)) as [->|Hne]; [naive_solver|].
    pose proof (Ho c'). unfold owner in *. split; [|intros [= ->]; by left]. naive_solver.
  - simpl. intros c' [= <-]. by rewrite upd_eq.
  - simpl. rewrite Hno, Hp, !bool_decide_true by done. by rewrite !bool_decide_false by done.
Qed.

Lemma inv_leave n base s ph c l pcs s' : inv n base s ph -> (l < n)%nat -> ph c = Idle -> lk_cpu (locks s l) = Some c ->
  lock_changes l (mk_lock (locked (locks s l)) None pcs) s s' -> inv n base s' (upd ph c (Leaving l)).
Proof.
  intros Hinv Hl Hp Hcpu Hs. destruct (inv_lock _ _ _ _ Hinv l) as (o & Hw & Ho & Hc).
  assert (o = Some c) as -> by (apply Ho; by left).
  eapply (inv_swap n base s ph c l _ s' _ (Some c)); try done.
  - by left.
  - by right.
  - simpl. rewrite Hcpu. split; congruence.
  - simpl. intros c'. unfold upd. destruct (decide (c' = c)) as [->|Hne]; [naive_solver|].
    pose proof (Ho c') as H'. unfold owner in H'. rewrite <- H'. split; [naive_solver|]. rewrite Hcpu. intros [[= ->]|H]; [done|by right].
  - simpl. by rewrite Hcpu, Hp, !bool_decide_true by done.
Qed.

Lemma inv_exit n base s ph c l s1 s' : inv n base s ph -> (c < ncpu s)%nat -> ph c = Leaving l ->
  lock_changes l (set_locked 0 (locks s l)) s s1 -> cpu_changes c (popped (cpus s c)) s1 s' ->
  inv n base s' (upd ph c Idle).
Proof.
  intros Hinv Hcn Hp H1 H2. assert (l < n)%nat as Hl by (eapply Hinv; by rewrite Hp).
  destruct (lock_mid s ph l c) as (Hno & Hw & Ho); [apply Hinv|by right|].
  destruct (inv_proc _ _ _ _ Hinv c) as [Hn Hif]. pose proof H1 as [_ _ Hcpus Hlk Hlo].
  pose proof H2 as [_ _ Hlks Hcc Hco].
  assert (held n (locks s') c = held n (locks s) c) as Hheld.
  { rewrite Hlks. apply held_ext. intros l' _. destruct (decide (l' = l)) as [->|]; [by rewrite Hlk|by rewrite Hlo]. }
  apply (inv_move n base s s' ph c l); rewrite ?Hlks, ?Hlk; try done.
  - right. by rewrite Hp.
  - by left.
  - eapply ids_changes; [done|by rewrite Hcpus|]. eapply ids_lock_changes; [done|apply Hinv].
  - intros c' Hne. rewrite Hco by done. by rewrite Hcpus.
  - exists None. unfold owner. rewrite Hlks, Hlk. simpl. rewrite Hno. split_and!; [done| |done].
    intros c'. split; [|done]. unfold upd. destruct (decide (c' = c)) as [->|Hne]; [naive_solver|].
    pose proof (Ho c') as H'. unfold owner in H'. naive_solver.
  - unfold cpu_inv, busy in *. rewrite Hcc, upd_eq, Hheld. unfold popped. simpl.
    rewrite Hp, bool_decide_false in Hn by done. change (Z.b2z (negb false)) with 1 in Hn. rewrite Hn in *.
    pose proof (held_nonneg n (locks s) c). split; [lia|].
    rewrite (proj2 (Z.eqb_neq _ _)) in Hif by lia. destruct Hif as [Hf Hb].
    by destruct (Z.eqb_spec (held n (locks s) c + 1 - 1) 0), (Z.eqb_spec (held n (locks s) c + 1) 1); try lia.
Qed.

Theorem step_inv n base s ph s' ph' : inv n base s ph -> step n (s, ph) (s', ph') -> inv n base s' ph'.
Proof.
  intros Hinv Hst. pose proof (inv_ids _ _ _ _ Hinv) as Hids. inversion Hst; subst.
  - eapply inv_enter; [done..|].
    exact (may_panic_ok _ _ _ _ _ (acquire_enter_spec c l s Hids ltac:(done)) ltac:(eassumption)).
  - match goal with H : xchg _ _ _ = _ |- _ => injection H as <- <- end. eapply inv_xchg; [done..|].
    constructor; simpl; [done..|apply upd_eq|intros; by apply upd_ne].
  - destruct (cpu_off n (base c) s ph c) as (_ & Hif & _); [apply Hinv|left; congruence|].
    eapply inv_record; [done..|].
    exact (may_panic_ok _ _ _ _ _ (wpx_of_wp _ _ _ _ (acquire_record_spec c l v s Hids ltac:(done) Hif)) ltac:(eassumption)).
  - edestruct (may_panic_ok _ _ _ _ _ (release_enter_spec c l s Hids ltac:(done)) ltac:(eassumption)) as (_ & _ & Ho & Hs).
    by eapply inv_leave.
  - destruct (cpu_off n (base c) s ph c) as (Hn & Hif & _); [apply Hinv|left; congruence|].
    edestruct (may_panic_ok _ _ _ _ _ (wpx_of_wp _ _ _ _ (release_exit_spec c l s Hids ltac:(done) Hif Hn)) ltac:(eassumption))
      as (s1 & H1 & H2). by eapply inv_exit.
  - destruct Hinv. by constructor.
Qed.

Definition start (s : machine) : Prop :=
  ids_ok s /\ (forall l, locked (locks s l) = 0 /\ lk_cpu (locks s l) = None) /\ (forall c, ncli (cpus s c) = 0).

Lemma start_inv n s : start s -> inv n (fun c => fl_if (cpus s c)) s (fun _ => Idle).
Proof.
  intros (Hids & Hl & Hn). constructor; [done..| |].
  - intros l. destruct (Hl l) as [Hw Hc]. exists None. split_and!; [done| |by rewrite Hc].
    intros c. unfold owner. rewrite Hc. naive_solver.
  - intros c. unfold cpu_inv. rewrite Hn. split; [|done]. simpl. rewrite Z.add_0_r.
    induction n as [|n IH]; simpl; [done|]. rewrite <- IH. destruct (Hl n) as [_ ->]. done.
Qed.

Lemma reach_inv n s0 cf : start s0 -> rtc (step n) (s0, fun _ => Idle) cf ->
  inv n (fun c => fl_if (cpus s0 c)) cf.1 cf.2.
Proof.
  intros H0 Hr. apply start_inv with (n := n) in H0. revert H0.
  change (inv n (fun c => fl_if (cpus s0 c)) (s0, fun _ : nat => Idle).1 (s0, fun _ : nat => Idle).2 ->
          inv n (fun c => fl_if (cpus s0 c)) cf.1 cf.2).
  induction Hr as [|[s1 p1] [s2 p2] cf' Hst _ IH]; [done|]. intros Hi. apply IH. by eapply step_inv.
Qed.

Lemma idle_if n base s ph c : inv n base s ph -> ph c = Idle -> (forall l, (l < n)%nat -> lk_cpu (locks s l) <> Some c) ->
  ncli (cpus s c) = 0 /\ fl_if (cpus s c) = base c.
Proof.
  intros Hinv Hi Hno. destruct (inv_proc _ _ _ _ Hinv c) as [Hn Hif].
  assert (held n (locks s) c = 0) as Hz.
  { clear Hn Hif Hinv. induction n as [|n IH]; simpl; [done|]. rewrite IH by (intros; apply Hno; lia).
    by rewrite bool_decide_false by (apply Hno; lia). }
  unfold busy in Hn. rewrite Hz, Hi in Hn. simpl in Hn. by rewrite Hn in Hif.
Qed.

(** C14: spin locks exclude each other's processors.  In every configuration
    reachable by interleaving the stretches of [acquire] and [release] of all
    processors: a lock has at most one owner; while a processor owns a lock or
    is inside [acquire] or [release] after [pushcli] its interrupts are off;
    and a processor that holds no lock and is in neither has [ncli] zero and
    interrupts as they were at the start. *)
Theorem spin_mutual_exclusion (nlocks : nat) (s0 : machine) (s : machine) (ph : nat -> phase) :
  start s0 -> rtc (step nlocks) (s0, fun _ => Idle) (s, ph) ->
  (forall l c c', owner s ph l c -> owner s ph l c' -> c = c') /\
  (forall l c, (l < nlocks)%nat -> owner s ph l c -> fl_if (cpus s c) = false) /\
  (forall c, ph c <> Idle -> fl_if (cpus s c) = false) /\
  (forall c, ph c = Idle -> (forall l, (l < nlocks)%nat -> lk_cpu (locks s l) <> Some c) ->
     ncli (cpus s c) = 0 /\ fl_if (cpus s c) = fl_if (cpus s0 c)).
Proof.
  intros H0 Hr. pose proof (reach_inv _ _ _ H0 Hr) as Hinv. simpl in Hinv. split_and!.
  - intros l c c' Ho Ho'. destruct (inv_lock _ _ _ _ Hinv l) as (o & _ & Heq & _).
    apply Heq in Ho, Ho'. congruence.
  - intros l c Hl Ho. eapply cpu_off; [apply Hinv|].
    destruct Ho as [Ho|[Ho|Ho]]; [right; by exists l|left; congruence..].
  - intros c Hi. eapply cpu_off; [apply Hinv|by left].
  - intros c. exact (idle_if _ _ _ _ c Hinv).
Qed.

Lemma spin_free fuel l s : locked (locks s l) = 0 ->
  wp (acquire_spin (S fuel) l) (fun _ s' => lock_changes l (set_locked 1 (locks s l)) s s') s.
Proof.
  intros Hl. cbn [acquire_spin]. unfold xchg. wp_steps. apply wp_on_lock. intros s' Hs. wp_steps. by rewrite Hl.
Qed.

Lemma acquire_enter_ok c l s : ids_ok s -> (c < ncpu s)%nat -> locked (locks s l) = 0 \/ lk_cpu (locks s l) <> Some c ->
  wp (acquire_enter c l) (fun _ s' => cpu_changes c (pushed (cpus s c)) s s') s.
Proof.
  intros Hids Hc Hno. unfold acquire_enter. wp_steps. eapply wp_mono; [by apply wp_pushcli|]. intros [] s1 H1.
  wp_steps. eapply wp_mono; [apply wp_holding; [by eapply ids_changes|by rewrite (cc_ncpu _ _ _ _ H1)|by rewrite (cc_cpu _ _ _ _ H1)]|].
  intros b s2 [-> ->]. rewrite (cc_locks _ _ _ _ H1).
  destruct Hno as [->|Hno]; [by wp_steps|]. rewrite bool_decide_false by done. rewrite andb_false_r. by wp_steps.
Qed.

(** [taken c l s s']: processor [c] holds lock [l] and one more level of [pushcli]. *)
Definition taken (c l : nat) (s s' : machine) : Prop :=
  locked (locks s' l) = 1 /\ lk_cpu (locks s' l) = Some c /\ cpus s' c = pushed (cpus s c) /\
  (forall l', l' <> l -> locks s' l' = locks s l') /\ (forall c', c' <> c -> cpus s' c' = cpus s c').

Lemma acquire_free fuel c l v s : ids_ok s -> (c < ncpu s)%nat -> locked (locks s l) = 0 ->
  wp (acquire (S fuel) c l v) (fun _ s' => taken c l s s') s.
Proof.
  intros Hids Hc Hl. unfold acquire. wp_steps. eapply wp_mono; [apply acquire_enter_ok; by auto|].
  intros [] s1 H1. pose proof H1 as [Hn1 _ Hlk1 Hc1 Ho1]. wp_steps.
  eapply wp_mono; [apply spin_free; by rewrite Hlk1|]. intros [] s2 H2. pose proof H2 as [Hn2 _ Hcp2 Hl2 Ho2].
  eapply wp_mono; [apply acquire_record_spec|].
  - eapply ids_lock_changes; [done|]. by eapply ids_changes.
  - by rewrite Hn2, Hn1.
  - by rewrite Hcp2, Hc1.
  - intros [] s3 [_ _ Hcp3 Hl3 Ho3]. unfold taken. rewrite Hl3, Hcp3, Hcp2, Hc1, Hl2. simpl. split_and!; try done.
    + intros l' Hne. by rewrite Ho3, Ho2, Hlk1.
Qed.

(** [freed c l s s']: the lock is free again and one level of [pushcli] undone. *)
Definition freed (c l : nat) (s s' : machine) : Prop :=
  locked (locks s' l) = 0 /\ lk_cpu (locks s' l) = None /\ cpus s' c = popped (cpus s c) /\
  (forall l', l' <> l -> locks s' l' = locks s l') /\ (forall c', c' <> c -> cpus s' c' = cpus s c').

Lemma release_held c l s : ids_ok s -> (c < ncpu s)%nat -> fl_if (cpus s c) = false -> 0 < ncli (cpus s c) ->
  locked (locks s l) <> 0 -> lk_cpu (locks s l) = Some c -> wp (release c l) (fun _ s' => freed c l s s') s.
Proof.
  intros Hids Hc Hif Hn Hl Ho. unfold release, release_enter. wp_steps.
  eapply wp_mono; [by apply wp_holding|]. intros b s0 [-> ->].
  rewrite (proj2 (Z.eqb_neq _ _) Hl), bool_decide_true by done. simpl. wp_steps.
  apply wp_on_lock. intros s1 H1. apply wp_on_lock. intros s2 H2.
  pose proof (lock_changes_trans _ _ _ _ _ _ H1 H2) as H12. pose proof H12 as [Hn2 _ Hcp2 Hl2 Ho2].
  eapply wp_mono; [apply release_exit_spec; rewrite ?Hcp2, ?Hn2; [by eapply ids_lock_changes|done..]|].
  intros [] s3 (s4 & [_ _ Hcp4 Hl4 Ho4] & [_ _ Hlk3 Hcp3 Hco3]). unfold freed.
  rewrite Hlk3, Hl4, Hl2, Hcp3, Hcp2. simpl. split_and!; try done.
  - intros l' Hne. by rewrite Ho4, Ho2.
  - intros c' Hne. by rewrite Hco3, Hcp4, Hcp2.
Qed.

Definition panics {A} (m : M machine A) (s : machine) : Prop := exists w s', m s = Panic w s'.
Lemma panics_wpx {A} (m : M machine A) s : wpx m (fun _ _ => False) (fun _ _ => True) s -> panics m s.
Proof. unfold wpx, panics. destruct (m s); naive_solver. Qed.

Lemma acquire_twice fuel c l v s : ids_ok s -> (c < ncpu s)%nat -> locked (locks s l) <> 0 -> lk_cpu (locks s l) = Some c ->
  panics (acquire fuel c l v) s.
Proof.
  intros Hids Hc Hl Ho. apply panics_wpx. unfold acquire, acquire_enter. wp_steps. apply wpx_of_wp.
  eapply wp_mono; [by apply wp_pushcli|]. intros [] s1 H1. wp_steps. apply wpx_of_wp.
  eapply wp_mono; [apply wp_holding; [by eapply ids_changes|by rewrite (cc_ncpu _ _ _ _ H1)|by rewrite (cc_cpu _ _ _ _ H1)]|].
  intros b s2 [-> ->]. rewrite (cc_locks _ _ _ _ H1), (proj2 (Z.eqb_neq _ _) Hl). by rewrite bool_decide_true.
Qed.

Lemma release_unheld c l s : ids_ok s -> (c < ncpu s)%nat -> lk_cpu (locks s l) <> Some c -> panics (release c l) s.
Proof.
  intros Hids Hc Hno. apply panics_wpx. unfold release, release_enter. wp_steps.
  destruct (fl_if (cpus s c)) eqn:Hif.
  - unfold holding. wp_steps. destruct (locked (locks s l) =? 0); wp_steps; [done|].
    unfold mycpu, readeflags_if. wp_steps. by rewrite Hif.
  - apply wpx_of_wp. eapply wp_mono; [by apply wp_holding|]. intros b s1 [-> ->].
    by rewrite bool_decide_false, andb_false_r by done.
Qed.

(** What [acquire] and [release] do for a processor outside them, in any
    reachable configuration.  Taking a free lock succeeds at the first [xchg];
    releasing a lock the processor holds succeeds (no panic of [popcli]);
    taking a lock it already holds panics, and so does releasing one it does
    not hold. *)
Theorem spin_operations (nlocks fuel : nat) (s0 s : machine) (ph : nat -> phase) (c l : nat) (v : Z) :
  start s0 -> rtc (step nlocks) (s0, fun _ => Idle) (s, ph) -> (c < ncpu s)%nat -> (l < nlocks)%nat ->
  (locked (locks s l) = 0 -> exists s', acquire (S fuel) c l v s = Ok tt s' /\ taken c l s s') /\
  (lk_cpu (locks s l) = Some c -> exists s', release c l s = Ok tt s' /\ freed c l s s') /\
  (lk_cpu (locks s l) = Some c -> panics (acquire fuel c l v) s) /\
  (lk_cpu (locks s l) <> Some c -> panics (release c l) s).
Proof.
  intros H0 Hr Hc Hl. pose proof (reach_inv _ _ _ H0 Hr) as Hinv. simpl in Hinv.
  pose proof (inv_ids _ _ _ _ Hinv) as Hids.
  assert (lk_cpu (locks s l) = Some c -> locked (locks s l) <> 0) as Hword.
  { intros Ho. destruct (inv_lock _ _ _ _ Hinv l) as (o & -> & Heq & _).
    assert (o = Some c) as -> by (apply Heq; by left). done. }
  split_and!.
  - intros Hf. destruct (proj1 (wp_ok _ _ _) (acquire_free fuel c l v s Hids Hc Hf)) as ([] & s' & Hs & Ht). by exists s'.
  - intros Ho. destruct (cpu_off nlocks _ s ph c (inv_proc _ _ _ _ Hinv c)) as (Hn & Hif & _); [right; by exists l|].
    destruct (proj1 (wp_ok _ _ _) (release_held c l s Hids Hc Hif Hn (Hword Ho) Ho)) as ([] & s' & Hs & Ht). by exists s'.
  - intros Ho. by apply acquire_twice; auto.
  - intros Ho. by apply release_unheld; auto.
Qed.

(** ** A two-processor machine *)
Definition demo_cpu (id : Z) : cpu := mk_cpu id 0 false true.
Definition demo_machine : machine :=
  mk_machine 2 (fun c => Z.of_nat c) (fun c => demo_cpu (Z.of_nat c)) (fun _ => mk_lock 0 None (replicate 10 0)) (fun _ => 0).

Lemma demo_start : start demo_machine.
Proof. split_and!; [split; simpl; [done|intros; lia]|done|done]. Qed.

(** Processor 0 enters [acquire] and takes lock 0, while 1 spins on it. *)
Lemma demo_run : exists s ph, rtc (step 1) (demo_machine, fun _ => Idle) (s, ph) /\
  ncpu s = 2%nat /\ ph 0%nat = Idle /\ ph 1%nat = Spinning 0 /\ lk_cpu (locks s 0%nat) = Some 0%nat.
Proof.
  eexists _, _. split.
  - eapply rtc_l; [eapply (step_enter 1 _ _ _ 0 0); [simpl; lia|lia|done|reflexivity]|].
    eapply rtc_l; [eapply (step_xchg 1 _ _ _ 0 0); [simpl; lia|done|reflexivity]|].
    eapply rtc_l; [eapply (step_record 1 _ _ _ 0 0 0); [simpl; lia|done|reflexivity]|].
    eapply rtc_l; [eapply (step_enter 1 _ _ _ 1 0); [simpl; lia|lia|done|reflexivity]|].
    eapply rtc_l; [eapply (step_xchg 1 _ _ _ 1 0); [simpl; lia|done|reflexivity]|].
    apply rtc_refl.
  - split_and!; reflexivity.
Qed.

Lemma spin_mutual_exclusion_witness : exists s ph, ph 1%nat = Spinning 0 /\
  fl_if (cpus s 0%nat) = false /\ fl_if (cpus s 1%nat) = false /\ forall c, owner s ph 0 c -> c = 0%nat.
Proof.
  destruct demo_run as (s & ph & Hr & _ & _ & Hp1 & Ho). exists s, ph.
  destruct (spin_mutual_exclusion 1 demo_machine s ph demo_start Hr) as (Hone & Hown & Hoff & _).
  split_and!; [done|apply (Hown 0%nat); [lia|by left]|apply Hoff; congruence|].
  intros c Hc. apply (Hone 0%nat); [done|by left].
Defined.

Lemma spin_operations_witness : exists s ph s', ph 1%nat = Spinning 0 /\ release 0 0 s = Ok tt s' /\
  locked (locks s' 0%nat) = 0 /\ panics (acquire 5 0 0 0) s /\ panics (release 1 0) s.
Proof.
  destruct demo_run as (s & ph & Hr & Hn & _ & Hp1 & Ho).
  destruct (spin_operations 1 5 demo_machine s ph 0 0 0 demo_start Hr) as (_ & Hrel & Htwice & _); [lia..|].
  destruct (spin_operations 1 5 demo_machine s ph 1 0 0 demo_start Hr) as (_ & _ & _ & Hun); [lia..|].
  destruct (Hrel Ho) as (s' & Hs & Hf). exists s, ph, s'.
  split_and!; [done|done|apply Hf|by apply Htwice|apply Hun; congruence].
Defined.

End Spin.
