(* ===== verification/FsState.v ===== *)
(** * The file system's state, locks and on-disk encodings

    The buffer cache, the log, the inode cache, the open-file table, the disk
    and the console, as one record that [bio.c], [log.c], [fs.c], [file.c] and
    [console.c] work on.  A pointer to a buffer, an inode or a file is its
    index in its table.  Spin locks are names in a list of held locks; a sleep
    lock is the flag and the owner of [struct sleeplock].  The computations run
    for one process, whose pid is [fpid] and which has been killed if
    [fkilled]; [wakeup] records its channel in [wakes], and a process that
    finds a sleep lock taken gives up the processor on its channel.

    The second part reads and writes little-endian fields in blocks of bytes. *)
From Stdlib Require Import ZArith Lia Bool.
From stdpp Require Import base numbers list strings.
From S2P Require Import Prelude Machine Cstring.

(** ** Constants of [param.h], [fs.h], [buf.h] and [stat.h] *)
Definition BSIZE : nat := 512.
Definition NBUF : nat := 30.
Definition NINODE : nat := 50.
Definition NFILE : nat := 100.
Definition LOGSIZE : Z := 30.
Definition MAXOPBLOCKS : Z := 10.
Definition ROOTDEV : Z := 1.
Definition ROOTINO : Z := 1.
Definition NDEV : Z := 10.
Definition B_VALID : Z := 0x2.
Definition B_DIRTY : Z := 0x4.
Definition NDIRECT : nat := 12.
Definition NINDIRECT : nat := 128.
Definition MAXFILE : Z := 140.
Definition IPB : Z := 8.
Definition BPB : Z := 4096.
Definition DIRSIZ : nat := 14.
Definition T_DIR : Z := 1.
Definition T_FILE : Z := 2.
Definition T_DEV : Z := 3.

(** ** Data *)
Definition block : Type := list Z.

Record sleeplock : Type := mk_slock { sl_locked : bool; sl_pid : Z }.

Record buf : Type := mk_buf {
  b_flags : Z;
  b_dev : Z;
  b_blockno : Z;
  b_lock : sleeplock;
  b_refcnt : Z;
  b_data : block;
}.

Record superblock : Type := mk_sb {
  sb_size : Z;
  sb_nblocks : Z;
  sb_ninodes : Z;
  sb_nlog : Z;
  sb_logstart : Z;
  sb_inodestart : Z;
  sb_bmapstart : Z;
}.

Record logheader : Type := mk_lh { lh_n : Z; lh_block : list Z }.

Record log_t : Type := mk_log {
  lg_start : Z;
  lg_size : Z;
  lg_outstanding : Z;
  lg_committing : bool;
  lg_dev : Z;
  lg_lh : logheader;
}.

Record inode : Type := mk_inode {
  i_dev : Z;
  i_inum : Z;
  i_ref : Z;
  i_lock : sleeplock;
  i_valid : bool;
  i_type : Z;
  i_major : Z;
  i_minor : Z;
  i_nlink : Z;
  i_size : Z;
  i_addrs : list Z;
}.

Inductive fdtype : Type := FD_NONE | FD_PIPE | FD_INODE.
Record file : Type := mk_file {
  f_type : fdtype;
  f_ref : Z;
  f_readable : bool;
  f_writable : bool;
  f_pipe : Z;
  f_ip : nat;
  f_off : Z;
}.

Inductive fslock : Type := BcacheLock | LogLock | IcacheLock | FtableLock | ConsLock.
#[export] Instance fslock_eq_dec : EqDecision fslock.
Proof. solve_decision. Defined.

(** The console: the structure [input], the flags of [console.c], and the
    devices behind it.  [crt] is the memory of the screen, with the two bytes
    of the cursor in the registers of its controller; [serial] is what the
    serial line has sent, latest first; [kbd_in] and [uart_in] are the bytes
    the two input ports have to deliver. *)
Record console : Type := mk_console {
  in_buf : list Z;
  in_r : Z;
  in_w : Z;
  in_e : Z;
  locking : bool;
  panicked : bool;
  crt : Z -> Z;
  cursor_hi : Z;
  cursor_lo : Z;
  uart : bool;
  serial : list Z;
  kbd_shift : Z;
  kbd_in : list Z;
  uart_in : list Z;
}.

(** [lru] is the list through [head.next], most recently used first; [dtrace]
    is the history of the writes that reached the disk. *)
Record fsys : Type := mk_fsys {
  held : list fslock;
  wakes : list Z;
  fpid : Z;
  bufs : list buf;
  lru : list nat;
  disk : Z -> block;
  disksize : Z;
  dtrace : list (Z * block);
  fsb : superblock;
  flog : log_t;
  icache : list inode;
  ftable : list file;
  fkilled : bool;
  fcons : console;
}.

Definition set_held v s := mk_fsys v (wakes s) (fpid s) (bufs s) (lru s) (disk s) (disksize s) (dtrace s) (fsb s) (flog s) (icache s) (ftable s) (fkilled s) (fcons s).
Definition set_wakes v s := mk_fsys (held s) v (fpid s) (bufs s) (lru s) (disk s) (disksize s) (dtrace s) (fsb s) (flog s) (icache s) (ftable s) (fkilled s) (fcons s).
Definition set_fpid v s := mk_fsys (held s) (wakes s) v (bufs s) (lru s) (disk s) (disksize s) (dtrace s) (fsb s) (flog s) (icache s) (ftable s) (fkilled s) (fcons s).
Definition set_bufs v s := mk_fsys (held s) (wakes s) (fpid s) v (lru s) (disk s) (disksize s) (dtrace s) (fsb s) (flog s) (icache s) (ftable s) (fkilled s) (fcons s).
Definition set_lru v s := mk_fsys (held s) (wakes s) (fpid s) (bufs s) v (disk s) (disksize s) (dtrace s) (fsb s) (flog s) (icache s) (ftable s) (fkilled s) (fcons s).
Definition set_disk d t s := mk_fsys (held s) (wakes s) (fpid s) (bufs s) (lru s) d (disksize s) t (fsb s) (flog s) (icache s) (ftable s) (fkilled s) (fcons s).
Definition set_fsb v s := mk_fsys (held s) (wakes s) (fpid s) (bufs s) (lru s) (disk s) (disksize s) (dtrace s) v (flog s) (icache s) (ftable s) (fkilled s) (fcons s).
Definition set_flog v s := mk_fsys (held s) (wakes s) (fpid s) (bufs s) (lru s) (disk s) (disksize s) (dtrace s) (fsb s) v (icache s) (ftable s) (fkilled s) (fcons s).
Definition set_icache v s := mk_fsys (held s) (wakes s) (fpid s) (bufs s) (lru s) (disk s) (disksize s) (dtrace s) (fsb s) (flog s) v (ftable s) (fkilled s) (fcons s).
Definition set_ftable v s := mk_fsys (held s) (wakes s) (fpid s) (bufs s) (lru s) (disk s) (disksize s) (dtrace s) (fsb s) (flog s) (icache s) v (fkilled s) (fcons s).

Definition set_fkilled v s := mk_fsys (held s) (wakes s) (fpid s) (bufs s) (lru s) (disk s) (disksize s) (dtrace s) (fsb s) (flog s) (icache s) (ftable s) v (fcons s).
Definition set_fcons v s := mk_fsys (held s) (wakes s) (fpid s) (bufs s) (lru s) (disk s) (disksize s) (dtrace s) (fsb s) (flog s) (icache s) (ftable s) (fkilled s) v.

Abbreviation FS := (M fsys).

(** ** Locks and wake-ups *)
Definition fs_acquire (l : fslock) : FS unit :=
  h <- gets held ;;
  if decide (l ∈ h) then panic "acquire" else modify (set_held (l :: h)).
Definition fs_release (l : fslock) : FS unit :=
  h <- gets held ;;
  if decide (l ∈ h) then modify (set_held (filter (fun x => x <> l) h)) else panic "release".
Definition fs_wakeup (c : Z) : FS unit := modify (fun s => set_wakes (c :: wakes s) s).

(** Table accesses. *)
Definition get_at {A} (l : fsys -> list A) (i : nat) : FS A := fun s =>
  match l s !! i with Some a => Ok a s | None => Fault "index out of range" s end.
Definition get_buf (i : nat) : FS buf := get_at bufs i.
Definition upd_buf (i : nat) (f : buf -> buf) : FS unit := fun s =>
  match bufs s !! i with Some b => Ok tt (set_bufs (<[i := f b]> (bufs s)) s) | None => Fault "index out of range" s end.
Definition get_inode (i : nat) : FS inode := get_at icache i.
Definition upd_inode (i : nat) (f : inode -> inode) : FS unit := fun s =>
  match icache s !! i with Some b => Ok tt (set_icache (<[i := f b]> (icache s)) s) | None => Fault "index out of range" s end.
Definition set_i_lock v x := mk_inode (i_dev x) (i_inum x) (i_ref x) v (i_valid x) (i_type x) (i_major x) (i_minor x) (i_nlink x) (i_size x) (i_addrs x).
Definition get_inode_lock (i : nat) : FS sleeplock := x <- get_inode i ;; ret (i_lock x).
Definition put_inode_lock (i : nat) (l : sleeplock) : FS unit := upd_inode i (set_i_lock l).
Definition get_file (i : nat) : FS file := get_at ftable i.
Definition upd_file (i : nat) (f : file -> file) : FS unit := fun s =>
  match ftable s !! i with Some b => Ok tt (set_ftable (<[i := f b]> (ftable s)) s) | None => Fault "index out of range" s end.

(** How often a process may find the lock taken again when it is woken. *)
Class Wakeups : Type := { wakeups : nat }.

(** ** [sleeplock.c], on a sleep lock inside a larger object

    [c] is the address of the lock, [get] and [set] reach it.  The spin lock
    inside makes each of the three operations one atomic step. *)
Section Sleeplock.
Context (c : Z) (get : FS sleeplock) (set : sleeplock -> FS unit).

Definition initsleeplock : FS unit := set (mk_slock false 0).

Fixpoint acquiresleep (n : nat) : FS unit :=
  l <- get ;;
  if sl_locked l then
    match n with
    | O => nofuel
    | S n' => sleep_on c ;;; acquiresleep n'
    end
  else
    p <- gets fpid ;;
    set (mk_slock true p).

Definition releasesleep : FS unit :=
  set (mk_slock false 0) ;;;
  fs_wakeup c.

Definition holdingsleep : FS bool := l <- get ;; ret (sl_locked l).
End Sleeplock.

(** ** Fields in blocks *)
Definition get8 (d : block) (i : nat) : Z := nth i d 0.
Definition get16 (d : block) (i : nat) : Z := get8 d i + 256 * get8 d (i + 1).
Definition get32 (d : block) (i : nat) : Z := get16 d i + 65536 * get16 d (i + 2).
Definition le16 (v : Z) : list Z := [v mod 256; v / 256 mod 256].
Definition le32 (v : Z) : list Z := le16 v ++ le16 (v / 65536).

(** The bytes [x] written over [d] from offset [i] on. *)
Definition splice (d : block) (i : nat) (x : list Z) : block := take i d ++ x ++ drop (i + length x) d.
(** [n] bytes from offset [i] on. *)
Definition slice (d : block) (i n : nat) : list Z := take n (drop i d).

Lemma nth_replicate {A} j n (a : A) : nth j (replicate n a) a = a.
Proof. revert j. induction n as [|n IH]; intros [|j]; try done. apply IH. Qed.

Lemma splice_length d i x : (i + length x <= length d)%nat -> length (splice d i x) = length d.
Proof. intros H. unfold splice. rewrite !length_app, length_take, length_drop. lia. Qed.

Lemma nth_splice d i x j : (i + length x <= length d)%nat ->
  nth j (splice d i x) 0 = if ((i <=? j) && (j <? i + length x))%nat then nth (j - i) x 0 else nth j d 0.
Proof.
  intros H. unfold splice. destruct (Nat.leb_spec i j) as [Hij|Hij]; simpl.
  - rewrite app_nth2; rewrite length_take; [|lia]. replace (j - i `min` length d)%nat with (j - i)%nat by lia.
    destruct (Nat.ltb_spec j (i + length x)).
    + by rewrite app_nth1 by lia.
    + rewrite app_nth2 by lia. rewrite nth_skipn. f_equal. lia.
  - rewrite app_nth1 by (rewrite length_take; lia). rewrite nth_firstn. by rewrite (proj2 (Nat.ltb_lt _ _)).
Qed.

Lemma slice_splice_eq d i x : (i + length x <= length d)%nat -> slice (splice d i x) i (length x) = x.
Proof.
  intros H. unfold slice, splice. rewrite drop_app_length' by (rewrite length_take; lia).
  by rewrite take_app_length.
Qed.

Lemma le16_length v : length (le16 v) = 2%nat. Proof. done. Qed.
Lemma le32_length v : length (le32 v) = 4%nat. Proof. done. Qed.

Lemma get16_splice d i v : (i + 2 <= length d)%nat -> get16 (splice d i (le16 v)) i = v mod 65536.
Proof.
  intros H. unfold get16, get8. rewrite !nth_splice by (rewrite le16_length; lia). rewrite le16_length.
  rewrite (proj2 (Nat.leb_le i i)), (proj2 (Nat.ltb_lt i (i + 2))) by lia.
  rewrite (proj2 (Nat.leb_le i (i + 1))), (proj2 (Nat.ltb_lt (i + 1) (i + 2))) by lia. cbn [andb].
  replace (i - i)%nat with 0%nat by lia. replace (i + 1 - i)%nat with 1%nat by lia. cbn [le16 nth]. zlia.
Qed.

Lemma get8_splice_ne d i x j : (i + length x <= length d)%nat -> (j < i \/ i + length x <= j)%nat ->
  get8 (splice d i x) j = get8 d j.
Proof.
  intros H Hj. unfold get8. rewrite nth_splice by done.
  destruct (Nat.leb_spec i j), (Nat.ltb_spec j (i + length x)); simpl; (done || lia).
Qed.

Lemma get16_splice_ne d i x j : (i + length x <= length d)%nat -> (j + 2 <= i \/ i + length x <= j)%nat ->
  get16 (splice d i x) j = get16 d j.
Proof. intros H Hj. unfold get16. by rewrite !get8_splice_ne by lia. Qed.
Lemma get32_splice_ne d i x j : (i + length x <= length d)%nat -> (j + 4 <= i \/ i + length x <= j)%nat ->
  get32 (splice d i x) j = get32 d j.
Proof. intros H Hj. unfold get32. by rewrite !get16_splice_ne by lia. Qed.


Lemma get32_splice d i v : (i + 4 <= length d)%nat -> get32 (splice d i (le32 v)) i = v mod 2 ^ 32.
Proof.
  intros H. unfold get32, get16, get8. rewrite !nth_splice by (rewrite le32_length; lia). rewrite le32_length.
  replace (i <=? i)%nat with true by (symmetry; apply Nat.leb_le; lia).
  replace (i <=? i + 1)%nat with true by (symmetry; apply Nat.leb_le; lia).
  replace (i <=? i + 2)%nat with true by (symmetry; apply Nat.leb_le; lia).
  replace (i <=? i + 2 + 1)%nat with true by (symmetry; apply Nat.leb_le; lia).
  replace (i <? i + 4)%nat with true by (symmetry; apply Nat.ltb_lt; lia).
  replace (i + 1 <? i + 4)%nat with true by (symmetry; apply Nat.ltb_lt; lia).
  replace (i + 2 <? i + 4)%nat with true by (symmetry; apply Nat.ltb_lt; lia).
  replace (i + 2 + 1 <? i + 4)%nat with true by (symmetry; apply Nat.ltb_lt; lia). cbn [andb].
  replace (i - i)%nat with 0%nat by lia. replace (i + 1 - i)%nat with 1%nat by lia.
  replace (i + 2 - i)%nat with 2%nat by lia. replace (i + 2 + 1 - i)%nat with 3%nat by lia.
  cbn [le32 le16 app nth]. rewrite pow2_32. zlia.
Qed.
