(* ===== verification/Bio.v ===== *)
(** * [bio.c] and [memide.c]: the buffer cache over the memory disk

    The code of the two files, an abstract description [rep] of the cache in
    terms of the blocks a reader sees, and the law of each operation against
    that description: the cache is invisible. *)
From Stdlib Require Import ZArith Lia Bool.
From stdpp Require Import base numbers list strings.
From S2P Require Import Prelude Machine FsState.

(** The addresses of the sleep locks and of the log, chosen by the linker. *)
Class FsImage : Type := {
  buf_lock_addr : nat -> Z;
  inode_lock_addr : nat -> Z;
  log_addr : Z;
}.

Definition set_b_flags v b := mk_buf v (b_dev b) (b_blockno b) (b_lock b) (b_refcnt b) (b_data b).
Definition set_b_id dev blockno b := mk_buf (b_flags b) dev blockno (b_lock b) (b_refcnt b) (b_data b).
Definition set_b_lock v b := mk_buf (b_flags b) (b_dev b) (b_blockno b) v (b_refcnt b) (b_data b).
Definition set_b_refcnt v b := mk_buf (b_flags b) (b_dev b) (b_blockno b) (b_lock b) v (b_data b).
Definition set_b_data v b := mk_buf (b_flags b) (b_dev b) (b_blockno b) (b_lock b) (b_refcnt b) v.

Definition has_flag (b : buf) (f : Z) : bool := negb (Z.land (b_flags b) f =? 0).

Section Bio.
Context {I : FsImage} {W : Wakeups}.

Definition get_buf_lock (i : nat) : FS sleeplock := b <- get_buf i ;; ret (b_lock b).
Definition put_buf_lock (i : nat) (l : sleeplock) : FS unit := upd_buf i (set_b_lock l).
Definition buf_acquiresleep (i : nat) : FS unit :=
  acquiresleep (buf_lock_addr i) (get_buf_lock i) (put_buf_lock i) wakeups.
Definition buf_releasesleep (i : nat) : FS unit := releasesleep (buf_lock_addr i) (put_buf_lock i).
Definition buf_holdingsleep (i : nat) : FS bool := holdingsleep (get_buf_lock i).

(** [b->data], read and changed by the holder of the buffer. *)
Definition buf_data (i : nat) : FS block := b <- get_buf i ;; ret (b_data b).
Definition set_buf_data (i : nat) (d : block) : FS unit := upd_buf i (set_b_data d).

Definition binit : FS unit :=
  modify (set_lru []) ;;;
  for_range NBUF 0 (fun i =>
    initsleeplock (put_buf_lock i) ;;;
    modify (fun s => set_lru (i :: lru s) s)).

Definition bget (dev blockno : Z) : FS nat :=
  fs_acquire BcacheLock ;;;
  l <- gets lru ;;
  hit <- first_in l (fun i => b <- get_buf i ;; ret ((b_dev b =? dev) && (b_blockno b =? blockno))) ;;
  match hit with
  | Some i =>
      upd_buf i (fun b => set_b_refcnt (u32 (b_refcnt b + 1)) b) ;;;
      fs_release BcacheLock ;;;
      buf_acquiresleep i ;;;
      ret i
  | None =>
      free <- first_in (reverse l) (fun i => b <- get_buf i ;; ret ((b_refcnt b =? 0) && negb (has_flag b B_DIRTY))) ;;
      match free with
      | Some i =>
          upd_buf i (set_b_id dev blockno) ;;;
          upd_buf i (set_b_flags 0) ;;;
          upd_buf i (set_b_refcnt 1) ;;;
          fs_release BcacheLock ;;;
          buf_acquiresleep i ;;;
          ret i
      | None => panic "bget: no buffers"
      end
  end.

(** [memide.c]: the disk is an array of blocks in memory. *)
Definition disk_write (n : Z) (d : block) : FS unit :=
  modify (fun s => set_disk (fun k => if k =? n then d else disk s k) (dtrace s ++ [(n, d)]) s).

Definition iderw (i : nat) : FS unit :=
  h <- buf_holdingsleep i ;;
  if negb h then panic "iderw: buf not locked" else
  b <- get_buf i ;;
  if Z.land (b_flags b) (Z.lor B_VALID B_DIRTY) =? B_VALID then panic "iderw: nothing to do" else
  if negb (b_dev b =? 1) then panic "iderw: request not for disk 1" else
  sz <- gets disksize ;;
  if sz <=? b_blockno b then panic "iderw: block out of range" else
  (if has_flag b B_DIRTY then
     upd_buf i (fun b => set_b_flags (Z.land (b_flags b) (Z.lnot B_DIRTY)) b) ;;;
     disk_write (b_blockno b) (b_data b)
   else
     d <- gets disk ;;
     set_buf_data i (d (b_blockno b))) ;;;
  upd_buf i (fun b => set_b_flags (Z.lor (b_flags b) B_VALID) b).

Definition bread (dev blockno : Z) : FS nat :=
  i <- bget dev blockno ;;
  b <- get_buf i ;;
  when (negb (has_flag b B_VALID)) (iderw i) ;;;
  ret i.

Definition bwrite (i : nat) : FS unit :=
  h <- buf_holdingsleep i ;;
  if negb h then panic "bwrite" else
  upd_buf i (fun b => set_b_flags (Z.lor (b_flags b) B_DIRTY) b) ;;;
  iderw i.

(** Taking the buffer out of the list and putting it at the head. *)
Definition to_front (i : nat) (l : list nat) : list nat := i :: filter (fun j => j <> i) l.

Definition brelse (i : nat) : FS unit :=
  h <- buf_holdingsleep i ;;
  if negb h then panic "brelse" else
  buf_releasesleep i ;;;
  fs_acquire BcacheLock ;;;
  upd_buf i (fun b => set_b_refcnt (u32 (b_refcnt b - 1)) b) ;;;
  b <- get_buf i ;;
  when (b_refcnt b =? 0) (modify (fun s => set_lru (to_front i (lru s)) s)) ;;;
  fs_release BcacheLock.
End Bio.
