(* ===== verification/BioInv.v ===== *)
(** * What the buffer cache shows

    [rep s V L P E]: a reader of the cache in state [s] sees the blocks [V]; the
    process holds the buffers [L] (index, block, and whether the buffer agrees
    with the disk or is pinned); [P] are the blocks pinned by the log; [E] is
    the rest of the state.  Each operation of [bio.c] is described by its effect
    on [V], [L], [P] and [E] alone. *)
From Stdlib Require Import ZArith Lia Bool.
From stdpp Require Import base numbers list strings gmap.
From S2P Require Import Prelude Machine FsState Bio.

(** The state outside the cache. *)
Record fenv : Type := mk_fenv {
  e_pid : Z;
  e_size : Z;
  e_disk : Z -> block;
  e_trace : list (Z * block);
  e_sb : superblock;
  e_log : log_t;
  e_icache : list inode;
  e_ftable : list file;
}.
Definition env_of (s : fsys) : fenv :=
  mk_fenv (fpid s) (disksize s) (disk s) (dtrace s) (fsb s) (flog s) (icache s) (ftable s).

Definition env_set_disk d t e := mk_fenv (e_pid e) (e_size e) d t (e_sb e) (e_log e) (e_icache e) (e_ftable e).
Definition env_set_log l e := mk_fenv (e_pid e) (e_size e) (e_disk e) (e_trace e) (e_sb e) l (e_icache e) (e_ftable e).
Definition env_set_sb v e := mk_fenv (e_pid e) (e_size e) (e_disk e) (e_trace e) v (e_log e) (e_icache e) (e_ftable e).
Definition env_set_icache v e := mk_fenv (e_pid e) (e_size e) (e_disk e) (e_trace e) (e_sb e) (e_log e) v (e_ftable e).
Definition env_set_ftable v e := mk_fenv (e_pid e) (e_size e) (e_disk e) (e_trace e) (e_sb e) (e_log e) (e_icache e) v.

Abbreviation holds := (gmap nat (Z * bool)).

Definition vset (V : Z -> block) (b : Z) (d : block) : Z -> block := fun k => if k =? b then d else V k.
Lemma vset_eq V b d : vset V b d b = d.
Proof. unfold vset. by rewrite Z.eqb_refl. Qed.
Lemma vset_ne V b d k : k <> b -> vset V b d k = V k.
Proof. unfold vset. intros H. by rewrite (proj2 (Z.eqb_neq _ _) H). Qed.

(** One buffer. *)
Record buf_ok (V : Z -> block) (L : holds) (P : list Z) (size : Z) (i : nat) (x : buf) : Prop := {
  bo_len : length (b_data x) = BSIZE;
  bo_flags : b_flags x = 0 /\ b_dev x <> 1 \/ (b_flags x = B_VALID \/ b_flags x = 6) /\ b_dev x = 1;
  bo_data : b_dev x = 1 -> 0 <= b_blockno x < size /\ b_data x = V (b_blockno x);
  bo_dirty : b_flags x = 6 -> b_blockno x ∈ P;
  bo_held : match L !! i with
            | Some (b, _) => b_dev x = 1 /\ b_blockno x = b /\ sl_locked (b_lock x) = true /\ b_refcnt x = 1
            | None => sl_locked (b_lock x) = false /\ b_refcnt x = 0
            end;
}.

Definition in_range (size b : Z) : Prop := 0 <= b < size.

Record rep (s : fsys) (V : Z -> block) (L : holds) (P : list Z) (E : fenv) : Prop := {
  rep_env : env_of s = E;
  rep_locks : held s = [];
  rep_count : length (bufs s) = NBUF;
  rep_lru : lru s ≡ₚ seq 0 NBUF;
  rep_buf : forall i x, bufs s !! i = Some x -> buf_ok V L P (disksize s) i x;
  rep_uniq : forall i j x y, bufs s !! i = Some x -> bufs s !! j = Some y -> b_dev x = 1 -> b_dev y = 1 ->
    b_blockno x = b_blockno y -> i = j;
  rep_nodup : NoDup P;
  rep_pin : forall b, b ∈ P -> exists i x, bufs s !! i = Some x /\ b_flags x = 6 /\ b_blockno x = b;
  rep_held_in : forall i, is_Some (L !! i) -> (i < NBUF)%nat;
  rep_len : forall b, in_range (disksize s) b -> length (V b) = BSIZE /\ length (disk s b) = BSIZE;
  rep_disk : forall b, in_range (disksize s) b -> b ∉ P -> (forall i, L !! i <> Some (b, false)) -> V b = disk s b;
}.

(** [rep] only looks at the blocks one by one. *)
#[export] Instance rep_proper s : Proper (pointwise_relation Z eq ==> eq ==> eq ==> eq ==> iff) (rep s).
Proof.
  assert (forall V V' L P E, pointwise_relation Z eq V V' -> rep s V L P E -> rep s V' L P E) as H.
  { intros V V' L P E HV [H1 H2 H3 H4 H5 H6 H7 H8 H9 H10 H11]. split; try done.
    - intros i x Hx. destruct (H5 i x Hx). split; try done. by rewrite <- HV.
    - intros b Hb. rewrite <- HV. by apply H10.
    - intros b. rewrite <- HV. apply H11. }
  intros V V' HV L _ <- P _ <- E _ <-. split; apply H; [done|]. intros b. by rewrite HV.
Qed.

Lemma vset_vset V b d d' : pointwise_relation Z eq (vset (vset V b d) b d') (vset V b d').
Proof. intros k. unfold vset. by destruct (k =? b). Qed.

(** The block [b] is not among the buffers held. *)
Definition not_held (L : holds) (b : Z) : Prop := forall i c, L !! i <> Some (b, c).

Lemma buf_ok_other V V' (L L' : holds) (P P' : list Z) size i x :
  buf_ok V L P size i x -> L' !! i = L !! i ->
  (b_dev x = 1 -> V' (b_blockno x) = V (b_blockno x)) ->
  (b_dev x = 1 -> b_blockno x ∈ P -> b_blockno x ∈ P') -> buf_ok V' L' P' size i x.
Proof.
  intros [H1 H2 H3 H4 H5] HL HV HP. split; [done|done| | |by rewrite HL].
  - intros Hd. destruct (H3 Hd) as [? ->]. by rewrite HV.
  - intros Hf. apply HP; [|by apply H4]. destruct H2 as [[? ?]|[_ ?]]; [congruence|done].
Qed.

(** A change to one buffer, and what must be shown for it. *)
Lemma rep_update s s' V V' L L' P P' E E' i x x' :
  rep s V L P E -> env_of s' = E' -> bufs s !! i = Some x -> bufs s' = <[i := x']> (bufs s) ->
  held s' = [] -> lru s' ≡ₚ seq 0 NBUF -> disksize s' = disksize s ->
  (forall j, j <> i -> L' !! j = L !! j) -> (forall b, b <> b_blockno x' -> V' b = V b) ->
  (forall b, b <> b_blockno x' -> b ∈ P' <-> b ∈ P) -> NoDup P' ->
  (b_dev x' = 1 -> forall j y, j <> i -> bufs s !! j = Some y -> b_dev y = 1 -> b_blockno y <> b_blockno x') ->
  (b_flags x = 6 -> b_blockno x = b_blockno x') -> b_dev x' = 1 ->
  (b_blockno x' ∈ P' -> b_flags x' = 6) -> buf_ok V' L' P' (disksize s) i x' ->
  (forall b, in_range (disksize s) b -> length (V' b) = BSIZE /\ length (disk s' b) = BSIZE) ->
  (forall b, in_range (disksize s) b -> b ∉ P' -> (forall j, L' !! j <> Some (b, false)) -> V' b = disk s' b) ->
  rep s' V' L' P' E'.
Proof.
  intros HR HE Hx Hb Hh Hlru Hsz HL HV HP HPn Hu Hxd Hdev Hpin Hok Hlen Hdisk.
  assert (i < length (bufs s))%nat as Hi by (by eapply lookup_lt_Some).
  split; [done|done|by rewrite Hb, length_insert, (rep_count _ _ _ _ _ HR)|done| | |done| | | |].
  - intros j y Hy. rewrite Hsz. rewrite Hb in Hy. apply list_lookup_insert_Some in Hy as [(<- & <- & _)|[Hne Hy]]; [done|].
    eapply buf_ok_other; [by eapply rep_buf|by apply HL| |].
    + intros Hd. apply HV. by eapply Hu.
    + intros Hd Hin. apply HP; [by eapply Hu|done].
  - intros j k y z Hy Hz Hdy Hdz Heq. rewrite Hb in Hy, Hz.
    apply list_lookup_insert_Some in Hy as [(<- & <- & _)|[Hne Hy]];
      apply list_lookup_insert_Some in Hz as [(<- & <- & _)|[Hne' Hz]]; [done| | |].
    + exfalso. eapply (Hu Hdev k z); [done..|by rewrite Heq].
    + exfalso. by eapply (Hu Hdev j y).
    + by eapply (rep_uniq _ _ _ _ _ HR).
  - intros b Hin. destruct (decide (b = b_blockno x')) as [->|Hne].
    { exists i, x'. rewrite Hb, list_lookup_insert_eq by done. auto. }
    destruct (rep_pin _ _ _ _ _ HR b) as (j & y & Hy & Hf & Hbn); [by apply HP|].
    exists j, y. rewrite Hb, list_lookup_insert_ne; [done|]. intros ->. simplify_eq. apply Hne, Hxd, Hf.
  - intros j Hj. destruct (decide (j = i)) as [->|Hne]; [by rewrite <- (rep_count _ _ _ _ _ HR)|].
    rewrite HL in Hj by done. by eapply rep_held_in.
  - rewrite Hsz. done.
  - rewrite Hsz. done.
Qed.

(** ** Finding a free buffer *)
Lemma rep_free s V L P E : rep s V L P E -> (size L + length P < NBUF)%nat ->
  exists i x, bufs s !! i = Some x /\ L !! i = None /\ b_flags x <> 6.
Proof.
  intros HR Hlt.
  set (dirty := filter (fun i => from_option b_flags 0 (bufs s !! i) = 6) (seq 0 NBUF)).
  assert (length dirty <= length P)%nat as Hd.
  { rewrite <- (length_fmap (fun i => match bufs s !! i with Some x => b_blockno x | None => 0 end) dirty).
    apply submseteq_length, NoDup_submseteq.
    - apply NoDup_fmap_2_strong; [|apply NoDup_filter, NoDup_seq].
      intros i j Hi Hj. apply list_elem_of_filter in Hi as [Hi _]. apply list_elem_of_filter in Hj as [Hj _].
      destruct (bufs s !! i) as [x|] eqn:Hx; [|done]. destruct (bufs s !! j) as [y|] eqn:Hy; [|done].
      cbn in Hi, Hj. intros Heq.
      pose proof (bo_flags _ _ _ _ _ _ (rep_buf _ _ _ _ _ HR _ _ Hx)) as Hfx.
      pose proof (bo_flags _ _ _ _ _ _ (rep_buf _ _ _ _ _ HR _ _ Hy)) as Hfy.
      eapply (rep_uniq _ _ _ _ _ HR); [done..| | |done]; lia.
    - intros b Hb. apply list_elem_of_fmap in Hb as (i & -> & Hi). apply list_elem_of_filter in Hi as [Hi _].
      destruct (bufs s !! i) as [x|] eqn:Hx; [|done]. cbn in Hi. by apply (bo_dirty _ _ _ _ _ _ (rep_buf _ _ _ _ _ HR _ _ Hx)). }
  destruct (decide (Exists (fun i => L !! i = None /\ i ∉ dirty) (seq 0 NBUF))) as [Hex|Hno].
  - apply Exists_exists in Hex as (i & Hi & HL & Hnd). apply elem_of_seq in Hi.
    destruct (lookup_lt_is_Some_2 (bufs s) i) as [x Hx]; [rewrite (rep_count _ _ _ _ _ HR); lia|].
    exists i, x. split; [done|split; [done|]]. intros Hf. apply Hnd, list_elem_of_filter.
    rewrite Hx. split; [done|]. apply elem_of_seq. lia.
  - exfalso. assert (NBUF <= length ((map_to_list L).*1 ++ dirty))%nat as Hle.
    { rewrite <- (length_seq NBUF 0). apply submseteq_length, NoDup_submseteq; [apply NoDup_seq|].
      intros i Hi. apply elem_of_app. destruct (L !! i) as [e|] eqn:HL.
      - left. apply list_elem_of_fmap. exists (i, e). split; [done|]. by apply elem_of_map_to_list.
      - right. destruct (decide (i ∈ dirty)); [done|]. exfalso. apply Hno, Exists_exists. eauto. }
    rewrite length_app, length_fmap, length_map_to_list in Hle. lia.
Qed.

(** [buf_here]: the buffer just written is the one found at its index. *)
Ltac buf_here :=
  cbn [bufs set_bufs set_held set_lru set_wakes set_disk set_flog];
  apply list_lookup_insert_eq; rewrite ?length_insert; done.

(** ** Rules for the primitive steps *)
Lemma wp_fs_acquire s l (Q : unit -> fsys -> Prop) :
  l ∉ held s -> Q tt (set_held (l :: held s) s) -> wp (fs_acquire l) Q s.
Proof. intros H HQ. unfold fs_acquire. wp_steps. by rewrite decide_False. Qed.

Lemma wp_fs_release s l (Q : unit -> fsys -> Prop) :
  held s = [l] -> Q tt (set_held [] s) -> wp (fs_release l) Q s.
Proof.
  intros H HQ. unfold fs_release. wp_steps. rewrite H, decide_True by set_solver. wp_steps.
  by rewrite filter_cons_False, filter_nil by (intros Hf; by apply Hf).
Qed.

Lemma wp_get_buf s i x (Q : buf -> fsys -> Prop) : bufs s !! i = Some x -> Q x s -> wp (get_buf i) Q s.
Proof. intros H HQ. unfold wp, get_buf, get_at. by rewrite H. Qed.

Lemma wp_upd_buf s i x f (Q : unit -> fsys -> Prop) :
  bufs s !! i = Some x -> Q tt (set_bufs (<[i := f x]> (bufs s)) s) -> wp (upd_buf i f) Q s.
Proof. intros H HQ. unfold wp, upd_buf. by rewrite H. Qed.

Section Laws.
Context {I : FsImage} {W : Wakeups}.
Implicit Types (s : fsys) (L : holds) (P : list Z).

Lemma wp_buf_acquiresleep s i x (Q : unit -> fsys -> Prop) :
  bufs s !! i = Some x -> sl_locked (b_lock x) = false ->
  Q tt (set_bufs (<[i := set_b_lock (mk_slock true (fpid s)) x]> (bufs s)) s) -> wp (buf_acquiresleep i) Q s.
Proof.
  intros Hx Hl HQ. unfold buf_acquiresleep. destruct wakeups; cbn [acquiresleep]; unfold get_buf_lock, put_buf_lock.
  all: wp_steps; eapply wp_get_buf; [done|]; wp_steps; rewrite Hl; wp_steps; by eapply wp_upd_buf.
Qed.

Lemma wp_buf_holdingsleep s i x (Q : bool -> fsys -> Prop) :
  bufs s !! i = Some x -> Q (sl_locked (b_lock x)) s -> wp (buf_holdingsleep i) Q s.
Proof.
  intros Hx HQ. unfold buf_holdingsleep, holdingsleep, get_buf_lock. wp_steps. eapply wp_get_buf; [done|]. by wp_steps.
Qed.

(** Scanning a list of buffers. *)
Lemma wp_scan s l (t : buf -> bool) (Q : option nat -> fsys -> Prop) :
  (forall i, i ∈ l -> is_Some (bufs s !! i)) ->
  (forall i x, i ∈ l -> bufs s !! i = Some x -> t x = true -> Q (Some i) s) ->
  ((forall i x, i ∈ l -> bufs s !! i = Some x -> t x = false) -> Q None s) ->
  wp (first_in l (fun i => b <- get_buf i ;; ret (t b))) Q s.
Proof.
  intros Hl HS HN. induction l as [|i l IH]; cbn [first_in].
  { wp_step. apply HN. intros i x Hi. by apply elem_of_nil in Hi. }
  destruct (Hl i) as [x Hx]; [by left|]. wp_steps. apply (wp_get_buf _ _ x); [done|]. wp_step.
  destruct (t x) eqn:Ht; [wp_step; eapply HS; [by left|done..]|].
  apply IH; [intros; apply Hl; by right|intros j y Hj; apply HS; by right|].
  intros Hno. apply HN. intros j y Hj Hy. apply elem_of_cons in Hj as [->|Hj]; [by simplify_eq|by eapply Hno].
Qed.

Lemma rep_lru_lookup s V L P E i : rep s V L P E -> i ∈ lru s <-> is_Some (bufs s !! i).
Proof.
  intros HR. rewrite lookup_lt_is_Some, (rep_lru _ _ _ _ _ HR), elem_of_seq, (rep_count _ _ _ _ _ HR). lia.
Qed.

(** A buffer with no holder is free, and taking it succeeds at once. *)
Lemma rep_unheld s V L P E i x : rep s V L P E -> bufs s !! i = Some x -> L !! i = None ->
  sl_locked (b_lock x) = false /\ b_refcnt x = 0.
Proof. intros HR Hx HL. pose proof (bo_held _ _ _ _ _ _ (rep_buf _ _ _ _ _ HR _ _ Hx)) as Hh. by rewrite HL in Hh. Qed.

(** [bget] of a block that is not held finds it, or takes over a free buffer. *)
Lemma wp_bget s V L P E b (Q : nat -> fsys -> Prop) :
  rep s V L P E -> not_held L b -> b ∈ P \/ (size L + length P < NBUF)%nat ->
  (forall i x, bufs s !! i = Some x -> L !! i = None -> b_dev x = 1 -> b_blockno x = b ->
     Q i (set_bufs (<[i := set_b_lock (mk_slock true (fpid s)) (set_b_refcnt 1 x)]> (bufs s)) (set_held [] s))) ->
  (forall i x, bufs s !! i = Some x -> L !! i = None -> b_flags x <> 6 ->
     (forall j y, bufs s !! j = Some y -> b_dev y = 1 -> b_blockno y <> b) ->
     Q i (set_bufs (<[i := mk_buf 0 1 b (mk_slock true (fpid s)) 1 (b_data x)]> (bufs s)) (set_held [] s))) ->
  wp (bget 1 b) Q s.
Proof.
  intros HR Hnh Hroom HQ1 HQ2. unfold bget. wp_step.
  apply wp_fs_acquire; [rewrite (rep_locks _ _ _ _ _ HR); set_solver|]. rewrite (rep_locks _ _ _ _ _ HR).
  wp_step. apply wp_gets. wp_step. apply wp_scan; [intros i; by apply (rep_lru_lookup _ _ _ _ _ _ HR)| |].
  - intros i x _ Hx Ht. change (bufs s !! i = Some x) in Hx. apply andb_true_iff in Ht as [Hd Hb]. apply Z.eqb_eq in Hd, Hb.
    destruct (L !! i) as [[b' c]|] eqn:HL.
    { pose proof (bo_held _ _ _ _ _ _ (rep_buf _ _ _ _ _ HR _ _ Hx)) as Hh. rewrite HL in Hh.
      exfalso. apply (Hnh i c). destruct Hh as (_ & ? & _). congruence. }
    destruct (rep_unheld _ _ _ _ _ _ _ HR Hx HL) as [Hun Hrc].
    wp_step. apply (wp_upd_buf _ _ x); [done|]. wp_step. apply wp_fs_release; [done|]. wp_step.
    eapply wp_buf_acquiresleep; [by apply list_lookup_insert_eq, (lookup_lt_Some _ _ x)|done|].
    wp_step. cbn [bufs set_bufs set_held fpid]. rewrite list_insert_insert_eq, Hrc. by apply (HQ1 i x).
  - intros Hno. wp_step. apply wp_scan; [intros i; rewrite elem_of_reverse; by apply (rep_lru_lookup _ _ _ _ _ _ HR)| |].
    + intros i x _ Hx Ht. change (bufs s !! i = Some x) in Hx. apply andb_true_iff in Ht as [Hrc Hd]. apply Z.eqb_eq in Hrc.
      pose proof (lookup_lt_Some _ _ _ Hx) as Hi.
      destruct (L !! i) as [[b' c]|] eqn:HL.
      { pose proof (bo_held _ _ _ _ _ _ (rep_buf _ _ _ _ _ HR _ _ Hx)) as Hh. rewrite HL in Hh. lia. }
      destruct (rep_unheld _ _ _ _ _ _ _ HR Hx HL) as [Hun _].
      wp_step. apply (wp_upd_buf _ _ x); [done|]. do 2 (wp_step; eapply wp_upd_buf; [buf_here|]).
      wp_step. apply wp_fs_release; [done|]. wp_step.
      eapply wp_buf_acquiresleep; [buf_here|done|].
      wp_step. cbn [bufs set_bufs set_held fpid]. rewrite !list_insert_insert_eq. apply (HQ2 i x); [done..| |].
      * intros Hf. unfold has_flag in Hd. by rewrite Hf in Hd.
      * intros j y Hy Hdy Hby. change (bufs (set_held [BcacheLock] s)) with (bufs s) in Hno.
        specialize (Hno j y (proj2 (rep_lru_lookup _ _ _ _ _ _ HR) (mk_is_Some _ _ Hy)) Hy).
        by rewrite Hdy, Hby, !Z.eqb_refl in Hno.
    + intros Hfull. exfalso.
      destruct Hroom as [Hin|Hroom].
      { destruct (rep_pin _ _ _ _ _ HR _ Hin) as (i & x & Hx & Hf & Hb).
        specialize (Hno i x (proj2 (rep_lru_lookup _ _ _ _ _ _ HR) (mk_is_Some _ _ Hx)) Hx).
        destruct (bo_flags _ _ _ _ _ _ (rep_buf _ _ _ _ _ HR _ _ Hx)) as [[? _]|[_ Hd]]; [congruence|].
        by rewrite Hd, Hb, !Z.eqb_refl in Hno. }
      destruct (rep_free _ _ _ _ _ HR Hroom) as (i & x & Hx & HL & Hf).
      destruct (rep_unheld _ _ _ _ _ _ _ HR Hx HL) as [_ Hrc].
      specialize (Hfull i x). rewrite elem_of_reverse in Hfull.
      specialize (Hfull (proj2 (rep_lru_lookup _ _ _ _ _ _ HR) (mk_is_Some _ _ Hx)) Hx).
      rewrite Hrc in Hfull. cbn [Z.eqb andb] in Hfull.
      destruct (bo_flags _ _ _ _ _ _ (rep_buf _ _ _ _ _ HR _ _ Hx)) as [[Hf0 _]|[[Hf0|Hf0] _]]; [..|done];
        unfold has_flag in Hfull; by rewrite Hf0 in Hfull.
Qed.

Lemma rep_valid s V L P E i x : rep s V L P E -> bufs s !! i = Some x -> b_dev x = 1 ->
  (b_flags x = B_VALID \/ b_flags x = 6) /\ has_flag x B_VALID = true.
Proof.
  intros HR Hx Hd. destruct (bo_flags _ _ _ _ _ _ (rep_buf _ _ _ _ _ HR _ _ Hx)) as [[_ ?]|[Hf _]]; [done|].
  split; [done|]. unfold has_flag. by destruct Hf as [->| ->].
Qed.

(** Taking hold of a buffer that is already cached. *)
Lemma rep_hold s V L P E i x : rep s V L P E -> bufs s !! i = Some x -> L !! i = None -> b_dev x = 1 ->
  rep (set_bufs (<[i := set_b_lock (mk_slock true (fpid s)) (set_b_refcnt 1 x)]> (bufs s)) (set_held [] s))
      V (<[i := (b_blockno x, true)]> L) P E.
Proof.
  intros HR Hx HL Hd. destruct (rep_valid _ _ _ _ _ _ _ HR Hx Hd) as [Hf _].
  pose proof (rep_buf _ _ _ _ _ HR _ _ Hx) as Hok. pose proof (rep_env _ _ _ _ _ HR) as <-.
  eapply (rep_update s _ V V L _ P P _ _ i x); [done|done|done|reflexivity|done|by apply HR|done| |done|done|by apply HR| |done|done| | |by apply HR|].
  - intros j Hj. by rewrite lookup_insert_ne.
  - intros _ j y Hj Hy Hdy Heq. by apply Hj, (rep_uniq _ _ _ _ _ HR _ _ _ _ Hy Hx).
  - cbn. intros Hin. destruct (rep_pin _ _ _ _ _ HR _ Hin) as (j & y & Hy & Hfy & Hby).
    destruct (decide (j = i)) as [->|Hne]; [by simplify_eq|]. exfalso. apply Hne. eapply (rep_uniq _ _ _ _ _ HR); [done..| |done|done].
    destruct (bo_flags _ _ _ _ _ _ (rep_buf _ _ _ _ _ HR _ _ Hy)) as [[? ?]|[_ ?]]; [congruence|done].
  - split; [apply Hok|apply Hok|apply Hok|apply Hok|]. by rewrite lookup_insert_eq.
  - intros b Hb HP HLd. apply (rep_disk _ _ _ _ _ HR); [done..|]. intros j Hj. apply (HLd j).
    rewrite lookup_insert_ne; [done|]. intros ->. by rewrite HL in Hj.
Qed.

(** Filling a free buffer with another block. *)
Lemma rep_fill s V L P E i x b : rep s V L P E -> bufs s !! i = Some x -> L !! i = None -> b_flags x <> 6 ->
  (forall j y, bufs s !! j = Some y -> b_dev y = 1 -> b_blockno y <> b) -> in_range (e_size E) b -> not_held L b ->
  rep (set_bufs (<[i := mk_buf B_VALID 1 b (mk_slock true (fpid s)) 1 (disk s b)]> (bufs s)) (set_held [] s))
      V (<[i := (b, true)]> L) P E.
Proof.
  intros HR Hx HL Hf Hno Hb Hnh. pose proof (rep_env _ _ _ _ _ HR) as <-. change (in_range (disksize s) b) in Hb.
  assert (b ∉ P) as HbP.
  { intros Hin. destruct (rep_pin _ _ _ _ _ HR _ Hin) as (j & y & Hy & Hfy & Hby). eapply Hno; [done| |done].
    destruct (bo_flags _ _ _ _ _ _ (rep_buf _ _ _ _ _ HR _ _ Hy)) as [[? ?]|[_ ?]]; [congruence|done]. }
  eapply (rep_update s _ V V L _ P P _ _ i x); [done|done|done|reflexivity|done|by apply HR|done| |done|done|by apply HR| |done|done| | |by apply HR|].
  - intros j Hj. by rewrite lookup_insert_ne.
  - intros _ j y Hj Hy Hdy. by eapply Hno.
  - done.
  - split; cbn; [by apply (rep_len _ _ _ _ _ HR)|by right; split; [left|]| |done|by rewrite lookup_insert_eq].
    intros _. split; [done|]. symmetry. apply (rep_disk _ _ _ _ _ HR); [done..|]. intros j. apply Hnh.
  - intros b' Hb' HP HLd. apply (rep_disk _ _ _ _ _ HR); [done..|]. intros j Hj. apply (HLd j).
    rewrite lookup_insert_ne; [done|]. intros ->. by rewrite HL in Hj.
Qed.

(** [bread] gives the caller a buffer that holds the block. *)
Lemma wp_bread s V L P E b (Q : nat -> fsys -> Prop) :
  rep s V L P E -> in_range (e_size E) b -> not_held L b -> b ∈ P \/ (size L + length P < NBUF)%nat ->
  (forall i s', L !! i = None -> rep s' V (<[i := (b, true)]> L) P E -> Q i s') ->
  wp (bread 1 b) Q s.
Proof.
  intros HR Hb Hnh Hroom HQ. unfold bread. wp_step. eapply wp_bget; [done..| |].
  - intros i x Hx HL Hd <-. wp_step. pose proof (lookup_lt_Some _ _ _ Hx).
    eapply wp_get_buf; [buf_here|]. change (has_flag (set_b_lock _ _) B_VALID) with (has_flag x B_VALID).
    rewrite (proj2 (rep_valid _ _ _ _ _ _ _ HR Hx Hd)). wp_step. apply wp_ret. wp_step. apply HQ; [done|].
    by apply rep_hold.
  - intros i x Hx HL Hf Hno. wp_step. pose proof (lookup_lt_Some _ _ _ Hx). pose proof (rep_env _ _ _ _ _ HR) as HE.
    assert (disksize s <=? b = false) as Hle by (apply Z.leb_gt; rewrite <- HE in Hb; apply Hb).
    eapply wp_get_buf; [buf_here|]. change (has_flag (mk_buf 0 _ _ _ _ _) B_VALID) with false. wp_step.
    unfold iderw. cbn [negb when]. wp_step. eapply wp_buf_holdingsleep; [buf_here|]. cbn [b_lock sl_locked negb]. wp_step.
    eapply wp_get_buf; [buf_here|]. cbn [b_flags b_dev]. change (Z.land 0 _ =? B_VALID) with false. cbn [Z.eqb negb Pos.eqb].
    wp_step. apply wp_gets. cbn [disksize set_bufs set_held b_blockno]. rewrite Hle. wp_step.
    change (has_flag (mk_buf 0 _ _ _ _ _) B_DIRTY) with false. cbv iota. wp_step. apply wp_gets.
    eapply wp_upd_buf; [buf_here|]. eapply wp_upd_buf; [buf_here|]. wp_step.
    cbn [bufs set_bufs]. rewrite !list_insert_insert_eq. apply HQ; [done|]. by eapply rep_fill.
Qed.

(** A held buffer. *)
Lemma rep_holding s V L P E i b c : rep s V L P E -> L !! i = Some (b, c) ->
  exists x, bufs s !! i = Some x /\ b_dev x = 1 /\ b_blockno x = b /\ sl_locked (b_lock x) = true /\ b_refcnt x = 1 /\
    b_data x = V b /\ in_range (disksize s) b /\ (b_flags x = B_VALID \/ b_flags x = 6) /\ (b ∈ P <-> b_flags x = 6) /\
    (forall j y, j <> i -> bufs s !! j = Some y -> b_dev y = 1 -> b_blockno y <> b).
Proof.
  intros HR HL. destruct (lookup_lt_is_Some_2 (bufs s) i) as [x Hx].
  { rewrite (rep_count _ _ _ _ _ HR). eapply rep_held_in; eauto. }
  pose proof (rep_buf _ _ _ _ _ HR _ _ Hx) as Hok. pose proof (bo_held _ _ _ _ _ _ Hok) as Hh. rewrite HL in Hh.
  destruct Hh as (Hd & Hb & Hl & Hr). destruct (rep_valid _ _ _ _ _ _ _ HR Hx Hd) as [Hf _].
  assert (forall j y, j <> i -> bufs s !! j = Some y -> b_dev y = 1 -> b_blockno y <> b) as Hu.
  { intros j y Hj Hy Hdy Hby. apply Hj. eapply (rep_uniq _ _ _ _ _ HR); [done..|congruence]. }
  destruct (bo_data _ _ _ _ _ _ Hok Hd) as [Hr' Hdata]. rewrite Hb in Hr', Hdata.
  exists x. split_and!; try done. split; [|intros H6; rewrite <- Hb; by apply Hok].
  intros Hin. destruct (rep_pin _ _ _ _ _ HR _ Hin) as (j & y & Hy & Hfy & Hby).
  destruct (decide (j = i)) as [->|Hne]; [by simplify_eq|]. exfalso. eapply Hu; [done..| |done].
  destruct (bo_flags _ _ _ _ _ _ (rep_buf _ _ _ _ _ HR _ _ Hy)) as [[? ?]|[_ ?]]; [congruence|done].
Qed.

Lemma wp_buf_data s V L P E i b c (Q : block -> fsys -> Prop) :
  rep s V L P E -> L !! i = Some (b, c) -> Q (V b) s -> wp (buf_data i) Q s.
Proof.
  intros HR HL HQ. destruct (rep_holding _ _ _ _ _ _ _ _ HR HL) as (x & Hx & _ & _ & _ & _ & Hd & _).
  unfold buf_data. wp_step. eapply wp_get_buf; [done|]. wp_step. by rewrite Hd.
Qed.

(** Changing the contents of a held buffer. *)
Lemma wp_set_buf_data s V L P E i b c d (Q : unit -> fsys -> Prop) :
  rep s V L P E -> L !! i = Some (b, c) -> length d = BSIZE ->
  (forall s', rep s' (vset V b d) (<[i := (b, false)]> L) P E -> Q tt s') -> wp (set_buf_data i d) Q s.
Proof.
  intros HR HL Hlen HQ.
  destruct (rep_holding _ _ _ _ _ _ _ _ HR HL) as (x & Hx & Hd & Hb & Hl & Hr & Hdata & Hin & Hf & HP & Hu).
  pose proof (rep_buf _ _ _ _ _ HR _ _ Hx) as Hok. pose proof (rep_env _ _ _ _ _ HR) as HE.
  eapply wp_upd_buf; [done|]. apply HQ.
  eapply (rep_update s _ V _ L _ P P _ _ i x); [done|done|done|reflexivity|apply HR|apply HR|done| | |done|apply HR| |done|done| | | |].
  - intros j Hj. by rewrite lookup_insert_ne.
  - cbn. rewrite Hb. intros b' Hb'. by apply vset_ne.
  - cbn. rewrite Hb. done.
  - cbn. rewrite Hb. apply HP.
  - split; cbn; [done|apply Hok| |apply Hok|rewrite lookup_insert_eq; auto].
    intros _. rewrite Hb, vset_eq. done.
  - intros b' Hb'. destruct (rep_len _ _ _ _ _ HR b' Hb'). split; [|done]. destruct (decide (b' = b)) as [->|?]; [by rewrite vset_eq|by rewrite vset_ne].
  - intros b' Hb' HnP HnL. destruct (decide (b' = b)) as [->|Hne].
    { exfalso. apply (HnL i). by rewrite lookup_insert_eq. }
    rewrite vset_ne by done. apply (rep_disk _ _ _ _ _ HR); [done..|]. intros j Hj. apply (HnL j).
    rewrite lookup_insert_ne; [done|]. intros ->. congruence.
Qed.

(** Pinning a held buffer in the cache. *)
Definition pin (b : Z) (P : list Z) : list Z := if decide (b ∈ P) then P else P ++ [b].
Lemma elem_of_pin b P x : x ∈ pin b P <-> x ∈ P \/ x = b.
Proof. unfold pin. case_decide; [split; [auto|intros [?| ->]; done]|]. rewrite elem_of_app, list_elem_of_singleton. done. Qed.
Lemma NoDup_pin b P : NoDup P -> NoDup (pin b P).
Proof. intros H. unfold pin. case_decide; [done|]. apply NoDup_app. split; [done|]. split; [set_solver|apply NoDup_singleton]. Qed.

Lemma rep_pinned s s' V L P E E' i b c x :
  rep s V L P E -> L !! i = Some (b, c) -> bufs s !! i = Some x ->
  env_of s' = E' -> held s' = [] -> lru s' = lru s -> disksize s' = disksize s -> disk s' = disk s ->
  bufs s' = <[i := set_b_flags (Z.lor (b_flags x) B_DIRTY) x]> (bufs s) ->
  rep s' V (<[i := (b, true)]> L) (pin b P) E'.
Proof.
  intros HR HL Hx HE Hh Hlr Hsz Hdk Hbufs.
  destruct (rep_holding _ _ _ _ _ _ _ _ HR HL) as (x' & Hx' & Hd & Hb & Hl & Hr & Hdata & Hin & Hf & HP & Hu).
  assert (x' = x) as -> by congruence. subst b.
  pose proof (rep_buf _ _ _ _ _ HR _ _ Hx) as Hok.
  assert (Z.lor (b_flags x) B_DIRTY = 6) as H6 by (destruct Hf as [->| ->]; done). rewrite H6 in Hbufs.
  eapply (rep_update s _ V _ L _ P _ _ _ i x); [done..|rewrite Hlr; apply HR|done| |done| |apply NoDup_pin, HR|done|done|done|done| | |].
  - intros j Hj. by rewrite lookup_insert_ne.
  - cbn. intros b' Hb'. rewrite elem_of_pin. naive_solver.
  - split; cbn; [apply Hok|by right; auto|apply Hok| |rewrite lookup_insert_eq; auto].
    intros _. apply elem_of_pin. by right.
  - rewrite Hdk. apply HR.
  - rewrite Hdk. intros b' Hb' HnP HnL. rewrite elem_of_pin in HnP. apply (rep_disk _ _ _ _ _ HR); [done|tauto|].
    intros j Hj. apply (HnL j). rewrite lookup_insert_ne; [done|]. intros <-. rewrite HL in Hj. injection Hj as He _. apply HnP. by right.
Qed.

(** [bwrite] puts the contents of a held buffer on the disk. *)
Lemma wp_bwrite s V L P E i b c (Q : unit -> fsys -> Prop) :
  rep s V L P E -> L !! i = Some (b, c) ->
  (forall s', rep s' V (<[i := (b, true)]> L) (filter (fun k => k <> b) P)
                (env_set_disk (vset (e_disk E) b (V b)) (e_trace E ++ [(b, V b)]) E) -> Q tt s') ->
  wp (bwrite i) Q s.
Proof.
  intros HR HL HQ.
  destruct (rep_holding _ _ _ _ _ _ _ _ HR HL) as (x & Hx & Hd & Hb & Hl & Hr & Hdata & Hin & Hf & HP & Hu).
  pose proof (rep_buf _ _ _ _ _ HR _ _ Hx) as Hok. pose proof (rep_env _ _ _ _ _ HR) as HE. pose proof (lookup_lt_Some _ _ _ Hx).
  assert (Z.lor (b_flags x) B_DIRTY = 6) as H6 by (destruct Hf as [->| ->]; done).
  assert (disksize s <=? b = false) as Hle by (apply Z.leb_gt, Hin).
  unfold bwrite. wp_step. eapply wp_buf_holdingsleep; [done|]. rewrite Hl. cbn [negb]. wp_step.
  eapply wp_upd_buf; [done|]. rewrite H6.
  unfold iderw, disk_write. wp_step. eapply wp_buf_holdingsleep; [buf_here|]. cbn [set_b_flags b_lock]. rewrite Hl. cbn [negb]. wp_step.
  eapply wp_get_buf; [buf_here|]. cbn [set_b_flags b_flags b_dev b_blockno]. change (Z.land 6 _ =? B_VALID) with false.
  rewrite Hd, Hb. cbn [Z.eqb negb Pos.eqb]. wp_step. apply wp_gets. cbn [disksize set_bufs]. rewrite Hle.
  change (has_flag _ B_DIRTY) with true. cbv iota. wp_step. wp_step. eapply wp_upd_buf; [buf_here|]. wp_step.
  eapply wp_upd_buf; [buf_here|]. apply HQ. clear HQ.
  eapply (rep_update s _ V _ L _ P _ _ _ i x);
    [done| |done|cbn [bufs set_bufs set_disk]; rewrite !list_insert_insert_eq; reflexivity|apply HR|apply HR|done| |done| |apply NoDup_filter, HR| | |done| | | |].
  - rewrite <- HE. cbn. unfold env_of, env_set_disk. cbn. f_equal; [|by rewrite Hdata].
    by rewrite Hdata.
  - intros j Hj. by rewrite lookup_insert_ne.
  - cbn. rewrite Hb. intros b' Hb'. rewrite list_elem_of_filter. tauto.
  - cbn. rewrite Hb. done.
  - cbn. rewrite Hb. done.
  - cbn. rewrite Hb. rewrite list_elem_of_filter. tauto.
  - split; cbn; [apply Hok|by right; auto|apply Hok|done|rewrite lookup_insert_eq; auto].
  - intros b' Hb'. destruct (rep_len _ _ _ _ _ HR b' Hb'). split; [done|]. cbn. destruct (b' =? b); [|done]. rewrite Hdata.
    by apply (rep_len _ _ _ _ _ HR).
  - intros b' Hb' HnP HnL. cbn. destruct (Z.eqb_spec b' b) as [->|Hne]; [done|].
    apply (rep_disk _ _ _ _ _ HR); [done| |].
    + intros Hin'. apply HnP, list_elem_of_filter. done.
    + intros j Hj. apply (HnL j). rewrite lookup_insert_ne; [done|]. intros <-. congruence.
Qed.

Lemma to_front_perm i l : NoDup l -> i ∈ l -> to_front i l ≡ₚ l.
Proof.
  intros Hn Hi. unfold to_front. apply elem_of_Permutation in Hi as [k Hk].
  assert (i ∉ k) as Hik by (rewrite Hk in Hn; by apply NoDup_cons in Hn as [? _]).
  rewrite Hk. constructor. rewrite filter_cons_False by tauto. clear Hk. induction k as [|j k IH]; [done|].
  apply not_elem_of_cons in Hik as [? ?]. rewrite filter_cons_True by done. by rewrite IH.
Qed.

(** [brelse] gives a buffer back, at the front of the list. *)
Lemma wp_brelse s V L P E i b (Q : unit -> fsys -> Prop) :
  rep s V L P E -> L !! i = Some (b, true) -> (forall s', rep s' V (delete i L) P E -> Q tt s') ->
  wp (brelse i) Q s.
Proof.
  intros HR HL HQ.
  destruct (rep_holding _ _ _ _ _ _ _ _ HR HL) as (x & Hx & Hd & Hb & Hl & Hr & Hdata & Hin & Hf & HP & Hu).
  pose proof (rep_buf _ _ _ _ _ HR _ _ Hx) as Hok. pose proof (rep_env _ _ _ _ _ HR) as HE. pose proof (lookup_lt_Some _ _ _ Hx).
  unfold brelse. wp_step. eapply wp_buf_holdingsleep; [done|]. rewrite Hl. cbn [negb]. wp_step.
  unfold buf_releasesleep, releasesleep, put_buf_lock, fs_wakeup. wp_step. eapply wp_upd_buf; [done|]. wp_step. wp_step.
  apply wp_fs_acquire; [cbn; rewrite (rep_locks _ _ _ _ _ HR); set_solver|]. wp_step. eapply wp_upd_buf; [buf_here|]. wp_step.
  eapply wp_get_buf; [buf_here|]. cbn [b_refcnt set_b_refcnt set_b_lock]. rewrite Hr. change (u32 (1 - 1) =? 0) with true.
  wp_step. apply wp_modify. apply wp_fs_release; [cbn; by rewrite (rep_locks _ _ _ _ _ HR)|]. apply HQ. clear HQ.
  eapply (rep_update s _ V _ L _ P _ _ _ i x);
    [done|done|done|cbn [bufs set_bufs set_lru set_held set_wakes]; rewrite !list_insert_insert_eq; reflexivity|done| |done| |done|done|apply HR| |done|done| | |apply HR|].
  - cbn. rewrite to_front_perm; [apply HR| |by eapply rep_lru_lookup]. rewrite (rep_lru _ _ _ _ _ HR). apply NoDup_seq.
  - intros j Hj. by rewrite lookup_delete_ne.
  - cbn. rewrite Hb. done.
  - cbn. rewrite Hb. apply HP.
  - split; cbn; [apply Hok|apply Hok|apply Hok|apply Hok|]. by rewrite lookup_delete_eq.
  - intros b' Hb' HnP HnL. apply (rep_disk _ _ _ _ _ HR); [done..|]. intros j Hj. apply (HnL j).
    rewrite lookup_delete_ne; [done|]. intros <-. congruence.
Qed.
End Laws.
