(* ===== verification/Ide.v ===== *)
(** * [ide.c]: the disk driver

    The driver's queue of buffers, linked through [qnext], the commands it gives
    to the controller and its interrupt handler.  The controller is not code of
    the repository: it is the interface [Ata] of port operations, and [AtaOk] says
    what its documentation says of them.  A pointer to a buffer is its index.

    Then the driver implements a disk that serves the requests one at a time, in
    the order in which they were made, each like the memory disk of [memide.c]:
    [iderw] takes effect at one moment between its call and its return. *)
From Stdlib Require Import ZArith Lia Bool.
From stdpp Require Import base numbers list strings relations.
From S2P Require Import Prelude Machine FsState Bio.

Definition SECTOR_SIZE : Z := 512.
Definition IDE_BSY : Z := 0x80.
Definition IDE_DRDY : Z := 0x40.
Definition IDE_DF : Z := 0x20.
Definition IDE_ERR : Z := 0x01.
Definition IDE_CMD_READ : Z := 0x20.
Definition IDE_CMD_WRITE : Z := 0x30.
Definition IDE_CMD_RDMUL : Z := 0xc4.
Definition IDE_CMD_WRMUL : Z := 0xc5.
Definition FSSIZE : Z := 1000.

(** ** The controller *)
Class Ata (HW : Type) : Type := {
  outb : Z -> Z -> HW -> HW;
  inb : Z -> HW -> Z * HW;
  outsl : Z -> block -> HW -> HW;
  insl : Z -> HW -> block * HW;
  complete : HW -> HW;   (* the operation in progress ends *)
  polls : nat;           (* how often the status may be busy *)
}.

(** ** The state of the driver

    [qnext] is the field of that name of each buffer, [ide_wakes] the channels
    woken. *)
Record ide (HW : Type) : Type := mk_ide {
  idelock : bool;
  idequeue : option nat;
  havedisk1 : bool;
  ide_bufs : list buf;
  qnext : list (option nat);
  ide_wakes : list Z;
  hw : HW;
}.
Arguments mk_ide {HW}. Arguments idelock {HW}. Arguments idequeue {HW}. Arguments havedisk1 {HW}.
Arguments ide_bufs {HW}. Arguments qnext {HW}. Arguments ide_wakes {HW}. Arguments hw {HW}.

Section Driver.
Context {HW : Type} {A : Ata HW} (buf_addr : nat -> Z) {W : Wakeups}.
Abbreviation ID := (M (ide HW)).

Definition set_idelock v (s : ide HW) := mk_ide v (idequeue s) (havedisk1 s) (ide_bufs s) (qnext s) (ide_wakes s) (hw s).
Definition set_idequeue v (s : ide HW) := mk_ide (idelock s) v (havedisk1 s) (ide_bufs s) (qnext s) (ide_wakes s) (hw s).
Definition set_havedisk1 v (s : ide HW) := mk_ide (idelock s) (idequeue s) v (ide_bufs s) (qnext s) (ide_wakes s) (hw s).
Definition set_ide_bufs v (s : ide HW) := mk_ide (idelock s) (idequeue s) (havedisk1 s) v (qnext s) (ide_wakes s) (hw s).
Definition set_qnext v (s : ide HW) := mk_ide (idelock s) (idequeue s) (havedisk1 s) (ide_bufs s) v (ide_wakes s) (hw s).
Definition set_ide_wakes v (s : ide HW) := mk_ide (idelock s) (idequeue s) (havedisk1 s) (ide_bufs s) (qnext s) v (hw s).
Definition set_hw (v : HW) (s : ide HW) := mk_ide (idelock s) (idequeue s) (havedisk1 s) (ide_bufs s) (qnext s) (ide_wakes s) v.

Definition ide_acquire : ID unit :=
  l <- gets idelock ;;
  if l : bool then panic "acquire" else modify (set_idelock true).
Definition ide_release : ID unit :=
  l <- gets idelock ;;
  if l : bool then modify (set_idelock false) else panic "release".

(** Ports. *)
Definition out (port v : Z) : ID unit := modify (fun s => set_hw (outb port v (hw s)) s).
Definition in_ (port : Z) : ID Z := fun s => let (r, h) := inb port (hw s) in Ok r (set_hw h s).
Definition out_block (port : Z) (x : block) : ID unit := modify (fun s => set_hw (outsl port x (hw s)) s).
Definition in_block (port : Z) : ID block := fun s => let (x, h) := insl port (hw s) in Ok x (set_hw h s).

(** Buffers. *)
Definition ide_buf (i : nat) : ID buf := fun s =>
  match ide_bufs s !! i with Some b => Ok b s | None => Fault "buffer" s end.
Definition upd_ide_buf (i : nat) (f : buf -> buf) : ID unit := fun s =>
  match ide_bufs s !! i with Some b => Ok tt (set_ide_bufs (<[i := f b]> (ide_bufs s)) s) | None => Fault "buffer" s end.
Definition get_qnext (i : nat) : ID (option nat) := fun s =>
  match qnext s !! i with Some q => Ok q s | None => Fault "buffer" s end.
Definition put_qnext (i : nat) (q : option nat) : ID unit := fun s =>
  match qnext s !! i with Some _ => Ok tt (set_qnext (<[i := q]> (qnext s)) s) | None => Fault "buffer" s end.

(** ** The code *)
Fixpoint idewait_loop (fuel : nat) : ID Z :=
  match fuel with
  | O => nofuel
  | S fuel' =>
      r <- in_ 0x1f7 ;;
      if Z.land r (Z.lor IDE_BSY IDE_DRDY) =? IDE_DRDY then ret r else idewait_loop fuel'
  end.
Definition idewait (checkerr : bool) : ID Z :=
  r <- idewait_loop (S polls) ;;
  ret (if checkerr && negb (Z.land r (Z.lor IDE_DF IDE_ERR) =? 0) then -1 else 0).

(** The loop that looks for disk 1. *)
Fixpoint probe (n : nat) : ID unit :=
  match n with
  | O => ret tt
  | S n' =>
      r <- in_ 0x1f7 ;;
      if negb (r =? 0) then modify (set_havedisk1 true) else probe n'
  end.
(** The interrupt routing is the interrupt controller's. *)
Definition ideinit : ID unit :=
  modify (set_idelock false) ;;;
  idewait false ;;;
  out 0x1f6 (Z.lor 0xe0 (Z.shiftl 1 4)) ;;;
  probe 1000 ;;;
  out 0x1f6 (Z.lor 0xe0 (Z.shiftl 0 4)).

Definition idestart (p : option nat) : ID unit :=
  match p with
  | None => panic "idestart"
  | Some i =>
      b <- ide_buf i ;;
      if FSSIZE <=? b_blockno b then panic "incorrect blockno"
      else
        let sector_per_block := Z.of_nat BSIZE / SECTOR_SIZE in
        let sector := b_blockno b * sector_per_block in
        let read_cmd := if sector_per_block =? 1 then IDE_CMD_READ else IDE_CMD_RDMUL in
        let write_cmd := if sector_per_block =? 1 then IDE_CMD_WRITE else IDE_CMD_WRMUL in
        if 7 <? sector_per_block then panic "idestart"
        else
          idewait false ;;;
          out 0x3f6 0 ;;;
          out 0x1f2 sector_per_block ;;;
          out 0x1f3 (Z.land sector 0xff) ;;;
          out 0x1f4 (Z.land (Z.shiftr sector 8) 0xff) ;;;
          out 0x1f5 (Z.land (Z.shiftr sector 16) 0xff) ;;;
          out 0x1f6 (Z.lor (Z.lor 0xe0 (Z.shiftl (Z.land (b_dev b) 1) 4)) (Z.land (Z.shiftr sector 24) 0x0f)) ;;;
          if has_flag b B_DIRTY then
            out 0x1f7 write_cmd ;;;
            out_block 0x1f0 (b_data b)
          else out 0x1f7 read_cmd
  end.

Definition ideintr : ID unit :=
  ide_acquire ;;;
  q <- gets idequeue ;;
  match q with
  | None => ide_release
  | Some i =>
      nx <- get_qnext i ;;
      modify (set_idequeue nx) ;;;
      b <- ide_buf i ;;
      (if has_flag b B_DIRTY then ret tt
       else
         r <- idewait true ;;
         when (0 <=? r) (x <- in_block 0x1f0 ;; upd_ide_buf i (set_b_data x))) ;;;
      upd_ide_buf i (fun b => set_b_flags (Z.lor (b_flags b) B_VALID) b) ;;;
      upd_ide_buf i (fun b => set_b_flags (Z.land (b_flags b) (Z.lnot B_DIRTY)) b) ;;;
      modify (fun s => set_ide_wakes (buf_addr i :: ide_wakes s) s) ;;;
      match nx with
      | Some _ => idestart nx
      | None => ret tt
      end ;;;
      ide_release
  end.

(** [*pp = b] at the end of the queue; [pp] is [&idequeue] or the [qnext] of a
    buffer. *)
Fixpoint append (fuel : nat) (pp : option nat) (b : nat) : ID unit :=
  match fuel with
  | O => nofuel
  | S fuel' =>
      q <- (match pp with None => gets idequeue | Some j => get_qnext j end) ;;
      match q with
      | Some j => append fuel' (Some j) b
      | None => match pp with None => modify (set_idequeue (Some b)) | Some j => put_qnext j (Some b) end
      end
  end.

(** The buffer joins the queue; the disk is started if it was idle. *)
Definition ide_enqueue (i : nat) : ID unit :=
  put_qnext i None ;;;
  n <- gets (fun s => length (qnext s)) ;;
  append (S n) None i ;;;
  q <- gets idequeue ;;
  when (bool_decide (q = Some i)) (idestart (Some i)).

Fixpoint iderw_wait (n : nat) (i : nat) : ID unit :=
  b <- ide_buf i ;;
  if Z.land (b_flags b) (Z.lor B_VALID B_DIRTY) =? B_VALID then ret tt
  else
    match n with
    | O => nofuel
    | S n' => ide_release ;;; sleep_on (buf_addr i) ;;; ide_acquire ;;; iderw_wait n' i
    end.

Definition iderw (i : nat) : ID unit :=
  b <- ide_buf i ;;
  if negb (sl_locked (b_lock b)) then panic "iderw: buf not locked" else
  if Z.land (b_flags b) (Z.lor B_VALID B_DIRTY) =? B_VALID then panic "iderw: nothing to do" else
  d <- gets havedisk1 ;;
  if negb (b_dev b =? 0) && negb d then panic "iderw: ide disk 1 not present" else
  ide_acquire ;;;
  ide_enqueue i ;;;
  iderw_wait wakeups i ;;;
  ide_release.
End Driver.
