(* ===== verification/IdeProps.v ===== *)
(** * The disk driver implements a disk that serves one request at a time

    What the controller's documentation promises ([AtaOk]), the disk the driver
    implements ([adisk]), and the simulation of one by the other. *)
From Stdlib Require Import ZArith Lia Bool.
From stdpp Require Import base numbers list strings relations sets.
From S2P Require Import Prelude Machine FsState Bio Ide.

(** ** The controller

    Between commands the controller is quiet: idle, with a sector to be fetched, or
    after an error. *)
Inductive phase_t : Type :=
| Idle
| Ready (x : block)
| Failed
| Reading (d n : Z)
| Taking (d n : Z)
| Writing (d n : Z) (x : block).
Definition quiet (p : phase_t) : Prop := match p with Idle | Ready _ | Failed => True | _ => False end.

(** [media h d n] is sector [n] of disk [d], [reg] the command registers, [busy]
    for how many looks at the status the controller is still busy. *)
Class AtaOk {HW : Type} (A : Ata HW) (media : HW -> Z -> Z -> block) (phase : HW -> phase_t) (reg : HW -> Z -> Z)
    (busy : HW -> nat) : Prop := {
  ata_busy : forall h, (busy h <= polls)%nat;
  ata_out : forall p v h, p ∈ [0x3f6; 0x1f2; 0x1f3; 0x1f4; 0x1f5; 0x1f6] -> quiet (phase h) ->
    quiet (phase (outb p v h)) /\ (forall d n, media (outb p v h) d n = media h d n) /\
    (forall q, reg (outb p v h) q = if q =? p then v else reg h q);
  ata_command : forall c h, (c = IDE_CMD_READ \/ c = IDE_CMD_WRITE) -> quiet (phase h) -> reg h 0x1f2 = 1 ->
    (forall d n, media (outb 0x1f7 c h) d n = media h d n) /\
    phase (outb 0x1f7 c h) =
      (if c =? IDE_CMD_READ then Reading else Taking) (Z.land (Z.shiftr (reg h 0x1f6) 4) 1)
        (reg h 0x1f3 + 2 ^ 8 * reg h 0x1f4 + 2 ^ 16 * reg h 0x1f5 + 2 ^ 24 * Z.land (reg h 0x1f6) 15);
  ata_outsl : forall d n x h, phase h = Taking d n -> length x = BSIZE ->
    (forall d n, media (outsl 0x1f0 x h) d n = media h d n) /\ phase (outsl 0x1f0 x h) = Writing d n x;
  ata_status : forall h, quiet (phase h) ->
    let (r, h') := inb 0x1f7 h in
    phase h' = phase h /\ (forall d n, media h' d n = media h d n) /\ (forall q, reg h' q = reg h q) /\
    match busy h with
    | O => Z.land r (Z.lor IDE_BSY IDE_DRDY) = IDE_DRDY /\ (Z.land r (Z.lor IDE_DF IDE_ERR) <> 0 <-> phase h = Failed)
    | S k => Z.land r (Z.lor IDE_BSY IDE_DRDY) <> IDE_DRDY /\ busy h' = k
    end;
  ata_insl : forall x h, phase h = Ready x ->
    let (y, h') := insl 0x1f0 h in y = x /\ quiet (phase h') /\ (forall d n, media h' d n = media h d n);
  ata_complete : forall h,
    match phase h with
    | Reading d n => (forall d n, media (complete h) d n = media h d n) /\
        (phase (complete h) = Ready (media h d n) \/ phase (complete h) = Failed)
    | Writing d n x =>
        phase (complete h) = Idle /\ (forall d' n', media (complete h) d' n' = if (d' =? d) && (n' =? n) then x else media h d' n') \/
        phase (complete h) = Failed /\ (forall d n, media (complete h) d n = media h d n)
    | _ => True
    end;
}.

(** ** The disk the driver implements *)
Record adisk : Type := mk_adisk { a_media : Z -> Z -> block; a_bufs : list buf; a_queue : list nat }.

Definition drive (b : buf) : Z := Z.land (b_dev b) 1.
(** What [memide.c] does with a buffer, unless the controller fails. *)
Definition sync_buf (ok : bool) (m : Z -> Z -> block) (b : buf) : buf :=
  set_b_flags (Z.land (Z.lor (b_flags b) B_VALID) (Z.lnot B_DIRTY))
    (if has_flag b B_DIRTY || negb ok then b else set_b_data (m (drive b) (b_blockno b)) b).
Definition sync_media (ok : bool) (m : Z -> Z -> block) (b : buf) : Z -> Z -> block := fun d n =>
  if has_flag b B_DIRTY && ok && (d =? drive b) && (n =? b_blockno b) then b_data b else m d n.

Definition a_submit (i : nat) (a : adisk) : adisk := mk_adisk (a_media a) (a_bufs a) (a_queue a ++ [i]).
Definition a_serve (ok : bool) (a : adisk) : adisk :=
  match a_queue a with
  | [] => a
  | i :: q =>
      match a_bufs a !! i with
      | Some b => mk_adisk (sync_media ok (a_media a) b) (<[i := sync_buf ok (a_media a) b]> (a_bufs a)) q
      | None => a
      end
  end.

(** A request [iderw] accepts. *)
Definition pending (b : buf) : Prop := Z.land (b_flags b) (Z.lor B_VALID B_DIRTY) <> B_VALID.
Record request (b : buf) : Prop := {
  rq_pending : pending b;
  rq_block : 0 <= b_blockno b < FSSIZE;
  rq_data : length (b_data b) = BSIZE;
}.
Definition work (b : buf) : phase_t :=
  if has_flag b B_DIRTY then Writing (drive b) (b_blockno b) (b_data b) else Reading (drive b) (b_blockno b).

(** The buffers from a pointer on. *)
Fixpoint chain (nx : list (option nat)) (p : option nat) (l : list nat) : Prop :=
  match l with
  | [] => p = None
  | i :: l' => p = Some i /\ exists q, nx !! i = Some q /\ chain nx q l'
  end.

Lemma chain_insert nx p l i q : i ∉ l -> chain nx p l -> chain (<[i := q]> nx) p l.
Proof.
  revert p. induction l as [|j l IH]; intros p Hi; cbn [chain]; [done|]. apply not_elem_of_cons in Hi as [Hij Hi].
  intros (-> & r & Hr & Hc). split; [done|]. exists r. rewrite list_lookup_insert_ne by done. split; [done|by apply IH].
Qed.

(** ** The steps of the disk

    What happens while a process waits for buffer [i], which it has locked: the
    head of the queue is served, others join it, and others use buffers that are
    not queued. *)
Inductive astep (i : nat) : adisk -> adisk -> Prop :=
| as_serve ok a : astep i a (a_serve ok a)
| as_submit j b a : j <> i -> j ∉ a_queue a -> a_bufs a !! j = Some b -> request b -> astep i a (a_submit j a)
| as_touch j b a : j <> i -> j ∉ a_queue a -> astep i a (mk_adisk (a_media a) (<[j := b]> (a_bufs a)) (a_queue a)).

(** Buffer [i], asked for in [a0] as [b], has been served on the way to [a]. *)
Definition served (i : nat) (b : buf) (a0 a : adisk) : Prop :=
  exists a1 q ok, rtc (astep i) a0 a1 /\ a_queue a1 = i :: q /\ a_bufs a1 !! i = Some b /\ rtc (astep i) (a_serve ok a1) a /\
    a_bufs a !! i = Some (sync_buf ok (a_media a1) b).

Lemma astep_nodup i a a' : astep i a a' -> NoDup (a_queue a) -> NoDup (a_queue a').
Proof.
  destruct 1 as [ok a|j b a Hj Hn Hb Hr|]; intros Hnd; [|apply NoDup_app; split_and!; [done| |apply NoDup_singleton]; set_solver|done].
  unfold a_serve. destruct (a_queue a) as [|x q] eqn:E; [by rewrite E|]. destruct (a_bufs a !! x); [|by rewrite E]. by apply NoDup_cons in Hnd as [_ ?].
Qed.

(** A step leaves buffer [i] alone or serves it. *)
Lemma astep_other i a a' : astep i a a' -> NoDup (a_queue a) -> (forall q, a_queue a <> i :: q) ->
  a_bufs a' !! i = a_bufs a !! i /\ (i ∈ a_queue a' <-> i ∈ a_queue a).
Proof.
  destruct 1 as [ok a|j b a Hj Hn Hb Hr|j b a Hj Hn]; intros Hnd Hhead; cbn [a_submit a_bufs a_queue].
  - unfold a_serve. destruct (a_queue a) as [|x q] eqn:E; [by rewrite E|]. destruct (a_bufs a !! x) eqn:Eb; [|by rewrite E]. cbn [a_bufs a_queue].
    assert (x <> i) by (intros ->; by eapply Hhead). rewrite list_lookup_insert_ne by done. split; [done|]. set_solver.
  - split; [done|]. set_solver.
  - by rewrite list_lookup_insert_ne.
Qed.

Lemma waiting_or_served i b a0 a : NoDup (a_queue a0) -> i ∈ a_queue a0 -> a_bufs a0 !! i = Some b -> rtc (astep i) a0 a ->
  NoDup (a_queue a) /\ (i ∈ a_queue a /\ a_bufs a !! i = Some b \/ i ∉ a_queue a /\ served i b a0 a).
Proof.
  intros Hnd Hi Hb Hst. revert a Hst. apply rtc_ind_r; [by split; [|left]|]. intros a a' Hsteps Hstep IH.
  destruct IH as [Hnd1 IH]. split; [by eapply astep_nodup|].
  assert (i ∉ a_queue a -> a_bufs a' !! i = a_bufs a !! i /\ i ∉ a_queue a') as Hout.
  { intros Hn. destruct (astep_other i a a' Hstep Hnd1) as [E1 E2]; [intros q Hq; rewrite Hq in Hn; set_solver|]. split; [done|]. by rewrite E2. }
  destruct IH as [[Hi1 Hb1]|[Hi1 (a1 & q & ok & S1 & S2 & S3 & S4 & S5)]].
  - destruct (decide (head (a_queue a) = Some i)) as [Hh|Hh].
    + destruct (a_queue a) as [|x q] eqn:E; [done|]. injection Hh as ->. destruct Hstep as [ok a|j bj a Hj Hn Hbj Hrj|j bj a Hj Hn].
      * right. assert (a_serve ok a = mk_adisk (sync_media ok (a_media a) b) (<[i := sync_buf ok (a_media a) b]> (a_bufs a)) q) as Hs.
        { unfold a_serve. by rewrite E, Hb1. }
        split; [rewrite Hs; cbn [a_queue]; by apply NoDup_cons in Hnd1 as [? _]|]. exists a, q, ok. split_and!; [done|done|done|constructor|].
        rewrite Hs. cbn [a_bufs]. apply list_lookup_insert_eq. by eapply lookup_lt_Some.
      * left. cbn [a_submit a_queue a_bufs]. rewrite E. split; [set_solver|done].
      * left. cbn [a_queue a_bufs]. rewrite E. split; [set_solver|]. by rewrite list_lookup_insert_ne.
    + destruct (astep_other i a a' Hstep Hnd1) as [E1 E2]; [intros q Hq; by rewrite Hq in Hh|]. left. by rewrite E1, E2.
  - destruct (Hout Hi1) as [E1 E2]. right. split; [done|]. exists a1, q, ok. split_and!; try done; [by eapply rtc_r|by rewrite E1].
Qed.

Lemma sync_flags ok m b : Z.land (b_flags (sync_buf ok m b)) (Z.lor B_VALID B_DIRTY) = B_VALID.
Proof.
  cbn [sync_buf set_b_flags b_flags]. rewrite <- Z.land_assoc. change (Z.land (Z.lnot B_DIRTY) (Z.lor B_VALID B_DIRTY)) with B_VALID.
  apply Z.bits_inj'. intros k _. rewrite Z.land_spec, Z.lor_spec. by destruct (Z.testbit (b_flags b) k), (Z.testbit B_VALID k).
Qed.

Section Props.
Context {HW : Type} {A : Ata HW} (media : HW -> Z -> Z -> block) (phase : HW -> phase_t) (reg : HW -> Z -> Z) (busy : HW -> nat).
Context {AO : AtaOk A media phase reg busy} (buf_addr : nat -> Z) {W : Wakeups}.
Implicit Types s : ide HW.

(** The disk a state of the driver stands for; the lock apart. *)
Record core (s : ide HW) (a : adisk) : Prop := {
  c_bufs : ide_bufs s = a_bufs a;
  c_qnext : length (qnext s) = length (ide_bufs s);
  c_chain : chain (qnext s) (idequeue s) (a_queue a);
  c_nodup : NoDup (a_queue a);
  c_requests : forall i, i ∈ a_queue a -> exists b, a_bufs a !! i = Some b /\ request b;
  c_media : forall d n, media (hw s) d n = a_media a d n;
  c_phase : match a_queue a with
            | [] => quiet (phase (hw s))
            | i :: _ => forall b, a_bufs a !! i = Some b -> phase (hw s) = work b
            end;
}.
Record rep (s : ide HW) (a : adisk) : Prop := { rep_core : core s a; rep_lock : idelock s = false }.

(** ** The controller's side *)
Lemma wp_idewait_loop fuel : forall s (Q : Z -> ide HW -> Prop), (busy (hw s) < fuel)%nat -> quiet (phase (hw s)) ->
  (forall r h, phase h = phase (hw s) -> (forall d n, media h d n = media (hw s) d n) -> (forall q, reg h q = reg (hw s) q) ->
     (Z.land r (Z.lor IDE_DF IDE_ERR) <> 0 <-> phase (hw s) = Failed) -> Q r (set_hw h s)) -> wp (idewait_loop fuel) Q s.
Proof.
  induction fuel as [|fuel IH]; intros s Q Hf Hq HQ; [lia|]. cbn [idewait_loop]. wp_step. unfold wp at 1, in_.
  pose proof (ata_status (hw s) Hq) as Hst. destruct (inb 0x1f7 (hw s)) as [r h]. destruct Hst as (H1 & H2 & H3 & H4).
  destruct (busy (hw s)) as [|k] eqn:Eb.
  - destruct H4 as [-> H4]. change (IDE_DRDY =? IDE_DRDY) with true. by apply HQ.
  - destruct H4 as [H4 H5]. rewrite (proj2 (Z.eqb_neq _ _) H4).
    apply IH; cbn [hw set_hw]; [lia|by rewrite H1|]. intros r' h' G1 G2 G3 G4. apply (HQ r' h'); [congruence| | |by rewrite <- H1].
    + intros d n. by rewrite G2.
    + intros q. by rewrite G3.
Qed.

Lemma wp_idewait c s (Q : Z -> ide HW -> Prop) : quiet (phase (hw s)) ->
  (forall h, phase h = phase (hw s) -> (forall d n, media h d n = media (hw s) d n) -> (forall q, reg h q = reg (hw s) q) ->
     forall r, (c = true -> (r < 0 <-> phase (hw s) = Failed)) -> Q r (set_hw h s)) -> wp (idewait c) Q s.
Proof.
  intros Hq HQ. unfold idewait. wp_step. pose proof (ata_busy (hw s)) as Hb. apply wp_idewait_loop; [lia|done|].
  intros r h H1 H2 H3 H4. wp_step. apply HQ; [done|done|done|]. intros ->. cbn [andb]. destruct (Z.eqb_spec (Z.land r (Z.lor IDE_DF IDE_ERR)) 0) as [E|E]; cbn [negb].
  - split; [lia|]. intros Hf. by apply H4 in Hf.
  - split; [|lia]. intros _. by apply H4.
Qed.

Lemma wp_out p v s (Q : unit -> ide HW -> Prop) : p ∈ [0x3f6; 0x1f2; 0x1f3; 0x1f4; 0x1f5; 0x1f6] -> quiet (phase (hw s)) ->
  (forall h, quiet (phase h) -> (forall d n, media h d n = media (hw s) d n) ->
     (forall q, reg h q = if q =? p then v else reg (hw s) q) -> Q tt (set_hw h s)) -> wp (out p v) Q s.
Proof. intros Hp Hq HQ. unfold out. wp_step. destruct (ata_out p v (hw s) Hp Hq) as (H1 & H2 & H3). by apply HQ. Qed.

(** The registers name the block. *)
Lemma registers_decode b : 0 <= b_blockno b < FSSIZE ->
  let r6 := Z.lor (Z.lor 0xe0 (Z.shiftl (Z.land (b_dev b) 1) 4)) (Z.land (Z.shiftr (b_blockno b) 24) 0x0f) in
  Z.land (Z.shiftr r6 4) 1 = drive b /\
  Z.land (b_blockno b) 0xff + 2 ^ 8 * Z.land (Z.shiftr (b_blockno b) 8) 0xff +
    2 ^ 16 * Z.land (Z.shiftr (b_blockno b) 16) 0xff + 2 ^ 24 * Z.land r6 15 = b_blockno b.
Proof.
  unfold FSSIZE, drive. intros Hb. cbv zeta. set (n := b_blockno b) in *.
  assert (Z.shiftr n 24 = 0) as -> by (rewrite Z.shiftr_div_pow2 by lia; apply Z.div_small; lia).
  assert (Z.shiftr n 16 = 0) as -> by (rewrite Z.shiftr_div_pow2 by lia; apply Z.div_small; lia).
  change 0xff with (Z.ones 8). rewrite !Z.land_ones, (Z.shiftr_div_pow2 n) by lia. change (2 ^ 8) with 256.
  assert (Z.land (b_dev b) 1 = 0 \/ Z.land (b_dev b) 1 = 1) as [-> | ->].
  { change (Z.land (b_dev b) 1) with (Z.land (b_dev b) (Z.ones 1)). rewrite Z.land_ones by lia. change (2 ^ 1) with 2. zlia. }
  - split; [done|]. change (Z.land _ 15) with 0. zlia.
  - split; [done|]. change (Z.land _ 15) with 0. zlia.
Qed.

Lemma wp_ide_buf i b s (Q : buf -> ide HW -> Prop) : ide_bufs s !! i = Some b -> Q b s -> wp (ide_buf i) Q s.
Proof. intros Hb HQ. unfold wp, ide_buf. by rewrite Hb. Qed.
Lemma wp_upd_ide_buf i b f s (Q : unit -> ide HW -> Prop) : ide_bufs s !! i = Some b ->
  Q tt (set_ide_bufs (<[i := f b]> (ide_bufs s)) s) -> wp (upd_ide_buf i f) Q s.
Proof. intros Hb HQ. unfold wp, upd_ide_buf. by rewrite Hb. Qed.
Lemma wp_get_qnext i q s (Q : option nat -> ide HW -> Prop) : qnext s !! i = Some q -> Q q s -> wp (get_qnext i) Q s.
Proof. intros Hq HQ. unfold wp, get_qnext. by rewrite Hq. Qed.
Lemma wp_put_qnext i q s (Q : unit -> ide HW -> Prop) : (i < length (qnext s))%nat ->
  Q tt (set_qnext (<[i := q]> (qnext s)) s) -> wp (put_qnext i q) Q s.
Proof. intros Hi HQ. unfold wp, put_qnext. by destruct (lookup_lt_is_Some_2 _ _ Hi) as [x ->]. Qed.
Lemma wp_ide_acquire s (Q : unit -> ide HW -> Prop) : idelock s = false -> Q tt (set_idelock true s) -> wp ide_acquire Q s.
Proof. intros Hl HQ. unfold ide_acquire. wp_step. wp_step. rewrite Hl. by wp_step. Qed.
Lemma wp_ide_release s (Q : unit -> ide HW -> Prop) : idelock s = true -> Q tt (set_idelock false s) -> wp ide_release Q s.
Proof. intros Hl HQ. unfold ide_release. wp_step. wp_step. rewrite Hl. by wp_step. Qed.

(** The command for a buffer, given to a controller that is quiet. *)
Lemma wp_idestart i b s (Q : unit -> ide HW -> Prop) : ide_bufs s !! i = Some b -> request b -> quiet (phase (hw s)) ->
  (forall h, phase h = work b -> (forall d n, media h d n = media (hw s) d n) -> Q tt (set_hw h s)) -> wp (idestart (Some i)) Q s.
Proof.
  intros Hb [_ Hn Hd] Hq HQ. cbn [idestart]. wp_step. eapply wp_ide_buf; [exact Hb|]. rewrite (proj2 (Z.leb_gt _ _)) by lia. cbv zeta.
  change (Z.of_nat BSIZE / SECTOR_SIZE) with 1. change (1 =? 1) with true. change (7 <? 1) with false. cbv iota. rewrite Z.mul_1_r.
  destruct (registers_decode b Hn) as [Hdrv Hlba]. cbv zeta in Hdrv, Hlba.
  wp_step. apply wp_idewait; [done|]. intros h0 P0 M0 _ _ _. assert (quiet (phase h0)) as Q0 by (by rewrite P0).
  wp_step. apply wp_out; [set_solver|done|]. intros h1 Q1 M1 _. wp_step. apply wp_out; [set_solver|done|]. intros h2 Q2 M2 R2.
  wp_step. apply wp_out; [set_solver|done|]. intros h3 Q3 M3 R3. wp_step. apply wp_out; [set_solver|done|]. intros h4 Q4 M4 R4.
  wp_step. apply wp_out; [set_solver|done|]. intros h5 Q5 M5 R5. wp_step. apply wp_out; [set_solver|done|]. intros h6 Q6 M6 R6.
  cbn [hw set_hw] in *. assert (forall d n, media h6 d n = media (hw s) d n) as M by (intros; by rewrite M6, M5, M4, M3, M2, M1, M0).
  assert (reg h6 0x1f2 = 1) as Rn by (rewrite R6, R5, R4, R3, R2; done).
  assert (forall c, c = IDE_CMD_READ \/ c = IDE_CMD_WRITE -> (forall d n, media (outb 0x1f7 c h6) d n = media (hw s) d n) /\
    phase (outb 0x1f7 c h6) = (if c =? IDE_CMD_READ then Reading else Taking) (drive b) (b_blockno b)) as Hcmd.
  { intros c Hc. destruct (ata_command c h6 Hc Q6 Rn) as [C1 C2]. split; [intros d n; by rewrite C1|]. rewrite C2. f_equal.
    - rewrite R6. exact Hdrv.
    - rewrite !R6, !R5, !R4, !R3. exact Hlba. }
  clear - HQ Hcmd Hd AO. unfold work in HQ. destruct (has_flag b B_DIRTY).
  - wp_step. unfold out at 1. wp_step. unfold out_block. wp_step. destruct (Hcmd IDE_CMD_WRITE) as [C1 C2]; [by right|].
    destruct (ata_outsl _ _ (b_data b) _ C2 Hd) as [D1 D2]. cbn [hw set_hw]. apply HQ; [done|]. intros d n. by rewrite D1.
  - unfold out. wp_step. destruct (Hcmd IDE_CMD_READ) as [C1 C2]; [by left|]. by apply HQ.
Qed.

(** ** The interrupt handler *)
Definition failed (p : phase_t) : bool := match p with Failed => true | _ => false end.

(** The handler's transfer, when the operation on [b] has ended. *)
Lemma wp_transfer i b h s (Q : unit -> ide HW -> Prop) : ide_bufs s !! i = Some b -> phase h = work b -> hw s = complete h ->
  let ok := negb (failed (phase (complete h))) in
  (forall h', quiet (phase h') -> (forall d n, media h' d n = sync_media ok (media h) b d n) ->
     Q tt (set_hw h' (set_ide_bufs (<[i := if has_flag b B_DIRTY || negb ok then b else set_b_data (media h (drive b) (b_blockno b)) b]> (ide_bufs s)) s))) ->
  wp (if has_flag b B_DIRTY then ret tt
      else r <- idewait true ;; when (0 <=? r) (x <- in_block 0x1f0 ;; upd_ide_buf i (set_b_data x))) Q s.
Proof.
  intros Hb Hw Hh ok HQ. unfold sync_media in HQ. pose proof (ata_complete h) as Hc. rewrite Hw in Hc. unfold work in Hc. destruct (has_flag b B_DIRTY); cbn [orb andb] in *.
  - rewrite list_insert_id in HQ by done. wp_step. replace s with (set_hw (complete h) (set_ide_bufs (ide_bufs s) s)) by (rewrite <- Hh; by destruct s).
    destruct Hc as [[H1 H2]|[H1 H2]]; apply HQ; subst ok; rewrite H1; cbn [failed negb]; try done.
  - destruct Hc as [Hm Hp]. assert (quiet (phase (hw s))) as Hq by (rewrite Hh; by destruct Hp as [-> | ->]).
    wp_step. apply wp_idewait; [done|]. intros h1 P1 M1 _ r Hr. specialize (Hr eq_refl). rewrite Hh in *.
    destruct Hp as [Hp|Hp]; subst ok; rewrite Hp in *; cbn [failed negb] in *.
    + destruct (Z.leb_spec 0 r) as [Hr0|Hr0]; [|by apply Hr in Hr0]. cbn [when]. wp_step. unfold wp at 1, in_block. cbn [hw set_hw].
      pose proof (ata_insl _ h1 P1) as Hin. destruct (insl 0x1f0 h1) as [y h2]. destruct Hin as (-> & Q2 & M2).
      eapply wp_upd_ide_buf; [exact Hb|]. apply (HQ h2); [done|]. intros d n. by rewrite M2, M1, Hm.
    + destruct (Z.leb_spec 0 r) as [Hr0|Hr0]; [exfalso; assert (r < 0) by (by apply Hr); lia|]. cbn [when]. wp_step.
      rewrite list_insert_id in HQ by done. replace (set_hw h1 s) with (set_hw h1 (set_ide_bufs (ide_bufs s) s)) by done.
      apply HQ; [by rewrite P1|]. intros d n. by rewrite M1, Hm.
Qed.

(** The next buffer of the queue, if any, is started. *)
Lemma wp_start_next nx q s (Q : unit -> ide HW -> Prop) :
  chain (qnext s) nx q -> (forall j, j ∈ q -> exists b, ide_bufs s !! j = Some b /\ request b) -> quiet (phase (hw s)) ->
  (forall h, (forall d n, media h d n = media (hw s) d n) ->
     match q with [] => quiet (phase h) | j :: _ => forall b, ide_bufs s !! j = Some b -> phase h = work b end -> Q tt (set_hw h s)) ->
  wp (match nx with Some _ => idestart nx | None => ret tt end) Q s.
Proof.
  intros Hc Hreq Hq HQ. destruct q as [|j q]; cbn [chain] in Hc.
  - subst nx. wp_step. replace s with (set_hw (hw s) s) by (by destruct s). by apply HQ.
  - destruct Hc as (-> & _). destruct (Hreq j) as (b & Hb & Hr); [set_solver|]. eapply wp_idestart; [exact Hb|done|done|].
    intros h P M. apply HQ; [done|]. intros b' Hb'. by simplify_eq.
Qed.

Lemma serve_requests a ok i q b : a_queue a = i :: q -> NoDup (i :: q) ->
  (forall j, j ∈ i :: q -> exists b, a_bufs a !! j = Some b /\ request b) ->
  forall j, j ∈ q -> exists b', <[i := sync_buf ok (a_media a) b]> (a_bufs a) !! j = Some b' /\ request b'.
Proof.
  intros Hq [Hi _]%NoDup_cons Hreq j Hj. destruct (Hreq j) as (b' & Hb' & Hr); [set_solver|]. exists b'. split; [|done].
  rewrite list_lookup_insert_ne; [done|]. by intros ->.
Qed.

Lemma wp_ideintr s a i q : rep s a -> a_queue a = i :: q ->
  wp (ideintr buf_addr) (fun _ s' => rep s' (a_serve (negb (failed (phase (complete (hw s))))) a) /\ ide_wakes s' = buf_addr i :: ide_wakes s)
    (set_hw (complete (hw s)) s).
Proof.
  intros [[C1 C2 C3 C4 C5 C6 C7] Hl] Hq. rewrite Hq in *. set (ok := negb _). destruct (C5 i) as (b & Hb & Hr); [set_solver|].
  destruct C3 as (Hid & nx & Hnx & Hch). unfold ideintr. wp_step. apply wp_ide_acquire; [done|]. wp_step. wp_step. cbn [idequeue set_idelock set_hw].
  rewrite Hid. wp_step. eapply wp_get_qnext; [exact Hnx|]. wp_step. wp_step. wp_step. eapply wp_ide_buf; [cbn; by rewrite C1|].
  wp_step. eapply (wp_transfer i b (hw s)); [cbn; by rewrite C1|by apply C7|done|]. fold ok. intros h Hqu M. cbn [ide_bufs set_ide_bufs set_idequeue set_idelock set_hw].
  rewrite C1. assert (i < length (a_bufs a))%nat as Hlt by (by eapply lookup_lt_Some).
  wp_step. eapply wp_upd_ide_buf; [cbn; by apply list_lookup_insert_eq|]. cbn [ide_bufs set_ide_bufs set_hw]. rewrite list_insert_insert_eq.
  wp_step. eapply wp_upd_ide_buf; [cbn; by apply list_lookup_insert_eq|]. cbn [ide_bufs set_ide_bufs set_hw]. rewrite list_insert_insert_eq.
  wp_step. wp_step. wp_step.
  replace (set_b_flags _ (set_b_flags _ _)) with (sync_buf ok (a_media a) b).
  2: { unfold sync_buf. rewrite C6. by destruct (has_flag b B_DIRTY || negb ok). }
  pose proof (serve_requests a ok i q b Hq C4 C5) as Hreq. apply (wp_start_next nx q); [done|exact Hreq|done|].
  intros h' M' P'. apply wp_ide_release; [done|]. split; [|done]. unfold a_serve. rewrite Hq, Hb.
  constructor; [constructor|done]; cbn [ide_bufs qnext idequeue hw a_bufs a_queue a_media set_ide_bufs set_idequeue set_idelock set_hw set_ide_wakes] in *.
  - done.
  - by rewrite length_insert, C2, C1.
  - done.
  - by apply NoDup_cons in C4 as [_ ?].
  - exact Hreq.
  - intros d n. rewrite M', M. unfold sync_media. by rewrite C6.
  - exact P'.
Qed.

(** An interrupt with nothing to do. *)
Lemma wp_ideintr_none s a : rep s a -> a_queue a = [] -> wp (ideintr buf_addr) (fun _ s' => rep s' a /\ ide_wakes s' = ide_wakes s) s.
Proof.
  intros [[C1 C2 C3 C4 C5 C6 C7] Hl] Hq. unfold ideintr. wp_step. apply wp_ide_acquire; [done|]. wp_step. wp_step. cbn [idequeue set_idelock].
  rewrite Hq in C3. cbn [chain] in C3. rewrite C3. apply wp_ide_release; [done|]. split; [|done]. constructor; [constructor|done]; try done.
  cbn [qnext idequeue set_idelock]. rewrite Hq. by rewrite C3.
Qed.

(** ** Joining the queue *)
Definition slot (pp : option nat) (s : ide HW) : option nat :=
  match pp with None => idequeue s | Some j => default None (qnext s !! j) end.
Lemma wp_append fuel l : forall pp s (Q : unit -> ide HW -> Prop) i, (length l < fuel)%nat -> chain (qnext s) (slot pp s) l ->
  NoDup l -> i ∉ l -> qnext s !! i = Some None -> pp <> Some i -> pp ∉ map Some l ->
  match pp with Some j => (j < length (qnext s))%nat | None => True end ->
  (forall q nx, let s' := set_qnext nx (set_idequeue q s) in length nx = length (qnext s) -> chain nx (slot pp s') (l ++ [i]) ->
     (forall p, p <> pp -> p ∉ map Some l -> slot p s' = slot p s) -> Q tt s') ->
  wp (append fuel pp i) Q s.
Proof.
  revert fuel. induction l as [|j l IH]; intros [|fuel] pp s Q i Hf Hc Hnd Hi Hnx Hpi Hpl Hb HQ; try (cbn in Hf; lia); cbn [append]; cbn [chain] in Hc.
  - assert (wp (match pp with None => modify (set_idequeue (Some i)) | Some j => put_qnext j (Some i) end) Q s) as Hput.
    { destruct pp as [j|].
      - apply wp_put_qnext; [done|]. replace (set_qnext _ s) with (set_qnext (<[j := Some i]> (qnext s)) (set_idequeue (idequeue s) s)) by (by destruct s).
        apply HQ; [apply length_insert| |].
        + cbn [slot qnext set_qnext]. rewrite list_lookup_insert_eq by done. split; [done|]. exists None. split; [|done].
          rewrite list_lookup_insert_ne; [done|congruence].
        + intros [p|] Hp _; cbn [slot qnext set_qnext idequeue set_idequeue]; [|done]. by rewrite list_lookup_insert_ne by congruence.
      - wp_step. replace (set_idequeue (Some i) s) with (set_qnext (qnext s) (set_idequeue (Some i) s)) by (by destruct s).
        apply HQ; [done| |].
        + split; [done|]. by exists None.
        + intros [p|] Hp _; [done|congruence]. }
    wp_step. destruct pp as [j|]; cbn [slot] in Hc.
    + destruct (lookup_lt_is_Some_2 _ _ Hb) as [q Eq]. rewrite Eq in Hc. simpl in Hc. subst q. by eapply wp_get_qnext.
    + wp_step. by rewrite Hc.
  - destruct Hc as (Hslot & q & Hq & Hc). apply NoDup_cons in Hnd as [Hjl Hnd]. apply not_elem_of_cons in Hi as [Hij Hi].
    cbn [map] in Hpl. apply not_elem_of_cons in Hpl as [Hpj Hpl].
    assert (forall s0, s0 = s -> wp (append fuel (Some j) i) Q s0) as Hnext.
    { intros s0 ->. apply IH; [cbn in Hf; lia|cbn [slot]; by rewrite Hq|done|done|done|congruence| | |].
      - intros Hin. apply list_elem_of_fmap in Hin as (y & [= <-] & Hy). done.
      - by eapply lookup_lt_Some.
      - intros q' nx s' Hlen Hch Hkeep. subst s'. apply HQ; [done| |].
        + rewrite (Hkeep pp) by (done || congruence). cbn [app chain]. split; [done|]. cbn [slot] in Hch.
          destruct (lookup_lt_is_Some_2 nx j) as [x Hx]; [rewrite Hlen; by eapply lookup_lt_Some|].
          exists x. split; [done|]. cbn [qnext set_qnext] in Hch. by rewrite Hx in Hch.
        + intros p Hp Hnot. cbn [map] in Hnot. apply not_elem_of_cons in Hnot as [? ?]. by apply Hkeep. }
    wp_step. destruct pp as [k|]; cbn [slot] in Hslot.
    + destruct (qnext s !! k) as [x|] eqn:Ek; [|done]. simpl in Hslot. subst x. eapply wp_get_qnext; [exact Ek|]. by apply Hnext.
    + wp_step. rewrite Hslot. by apply Hnext.
Qed.

Lemma chain_in nx p l i : chain nx p l -> i ∈ l -> (i < length nx)%nat.
Proof.
  revert p. induction l as [|j l IH]; intros p; cbn [chain]; [intros _ []%elem_of_nil|].
  intros (_ & q & Hq & Hc) [->|Hi]%elem_of_cons; [by eapply lookup_lt_Some|by eapply IH].
Qed.
Lemma nodup_below n l : NoDup l -> (forall i : nat, i ∈ l -> (i < n)%nat) -> (length l <= n)%nat.
Proof.
  intros Hnd Hb. rewrite <- (length_seq n 0). apply NoDup_incl_length; [by apply NoDup_ListNoDup|].
  intros i Hi. apply in_seq. apply list_elem_of_In in Hi. specialize (Hb i Hi). lia.
Qed.

(** The part of [iderw] before the wait. *)
Lemma wp_enqueue s a i b (Q : unit -> ide HW -> Prop) : core s a -> i ∉ a_queue a -> a_bufs a !! i = Some b -> request b -> idelock s = true ->
  (forall s', core s' (a_submit i a) -> idelock s' = true -> Q tt s') ->
  wp (ide_enqueue i) Q s.
Proof.
  unfold ide_enqueue. intros [C1 C2 C3 C4 C5 C6 C7] Hi Hb Hr Hl HQ. assert (i < length (qnext s))%nat as Hlt by (rewrite C2, C1; by eapply lookup_lt_Some).
  wp_step. apply wp_put_qnext; [done|]. wp_step. wp_step. cbn [qnext set_qnext]. rewrite length_insert.
  pose proof (chain_insert _ _ _ _ None Hi C3) as C3'. wp_step.
  apply (wp_append _ (a_queue a)); [ |done|done|done|cbn; by apply list_lookup_insert_eq|done| |done|].
  { pose proof (nodup_below (length (qnext s)) _ C4 (fun j Hj => chain_in _ _ _ _ C3 Hj)). lia. }
  { intros Hin. apply list_elem_of_fmap in Hin as (y & ? & _). done. }
  cbn [qnext idequeue set_qnext set_idequeue slot]. rewrite length_insert. intros q nx Hlen Hch _. wp_step. wp_step. cbn [idequeue set_qnext set_idequeue].
  assert (NoDup (a_queue a ++ [i])) as Hnd by (apply NoDup_app; split_and!; [done| |apply NoDup_singleton]; set_solver).
  assert (forall j, j ∈ a_queue a ++ [i] -> exists b, a_bufs a !! j = Some b /\ request b) as Hreq.
  { intros j [Hj|Hj]%elem_of_app; [by apply C5|]. apply list_elem_of_singleton in Hj as ->. by exists b. }
  destruct (a_queue a) as [|j l] eqn:Eq; cbn [app] in *.
  - destruct Hch as (-> & x & Hx & ->). rewrite bool_decide_true by done. cbn [when].
    eapply wp_idestart; [cbn; by rewrite C1|done|done|]. intros h P M. apply HQ; [|done].
    constructor; cbn [ide_bufs qnext idequeue hw set_hw set_qnext set_idequeue a_bufs a_queue a_submit a_media]; rewrite ?Eq; cbn [app]; try done.
    + by rewrite Hlen.
    + split; [done|]. by exists None.
    + intros d n. by rewrite M.
    + intros b' Hb'. by simplify_eq.
  - destruct Hch as (-> & Hrest). rewrite bool_decide_false by (intros [= ->]; set_solver). cbn [when]. wp_step. apply HQ; [|done].
    constructor; cbn [ide_bufs qnext idequeue hw set_hw set_qnext set_idequeue a_bufs a_queue a_submit a_media]; rewrite ?Eq; cbn [app]; try done.
    by rewrite Hlen.
Qed.

(** ** Waiting *)

(** The flags tell whether the buffer has been served. *)
Lemma wpb_iderw_wait m : forall n s a0 a i b (Q : nat -> unit -> ide HW -> Prop), (n < m)%nat ->
  NoDup (a_queue a0) -> i ∈ a_queue a0 -> a_bufs a0 !! i = Some b -> request b -> core s a -> idelock s = true -> rtc (astep i) a0 a ->
  (forall n' s' a', core s' a' -> idelock s' = true -> served i b a0 a' -> Q n' tt s') ->
  wpb n (fun s => exists a, rep s a /\ rtc (astep i) a0 a) (iderw_wait buf_addr m i) Q s.
Proof.
  induction m as [|m IH]; intros n s a0 a i b Q Hn Hnd Hi Hb Hr Hc Hl Hst HQ; [lia|]. cbn [iderw_wait]. wp_step.
  destruct (waiting_or_served i b a0 a Hnd Hi Hb Hst) as [_ [[Hi1 Hb1]|[Hi1 Hs]]].
  - apply wpb_of_wp. eapply wp_ide_buf; [rewrite (c_bufs _ _ Hc); exact Hb1|]. rewrite (proj2 (Z.eqb_neq _ _) (rq_pending _ Hr)).
    wp_step. apply wpb_of_wp, wp_ide_release; [done|]. wp_step. apply wpb_sleep.
    { exists a. split; [|done]. constructor; [|done]. by destruct Hc. }
    intros n' s' -> (a' & [Hc' Hl'] & Hst'). wp_step. apply wpb_of_wp, wp_ide_acquire; [done|].
    eapply IH; [lia|done|done|done|done| |done|exact Hst'|done]. by destruct Hc'.
  - destruct Hs as (a1 & q & ok & S1 & S2 & S3 & S4 & S5). apply wpb_of_wp. eapply wp_ide_buf; [rewrite (c_bufs _ _ Hc); exact S5|].
    rewrite sync_flags. change (B_VALID =? B_VALID) with true. cbv iota. wp_step. eapply HQ; [done|done|]. by exists a1, q, ok.
Qed.

Lemma wpb_iderw n s a i b : (n < wakeups)%nat -> rep s a -> i ∉ a_queue a -> a_bufs a !! i = Some b -> request b ->
  sl_locked (b_lock b) = true -> b_dev b = 0 \/ havedisk1 s = true ->
  wpb n (fun s => exists a', rep s a' /\ rtc (astep i) (a_submit i a) a') (iderw buf_addr i)
    (fun _ _ s' => exists a', rep s' a' /\ served i b (a_submit i a) a') s.
Proof.
  intros Hn [Hc Hl] Hi Hb Hr Hlk Hdev. unfold iderw. wp_step. apply wpb_of_wp. eapply wp_ide_buf; [by rewrite (c_bufs _ _ Hc)|].
  rewrite Hlk. cbn [negb]. rewrite (proj2 (Z.eqb_neq _ _) (rq_pending _ Hr)). wp_step. wp_step.
  replace (negb (b_dev b =? 0) && negb (havedisk1 s)) with false by (destruct Hdev as [-> | ->]; [done|by rewrite andb_false_r]).
  wp_step. apply wpb_of_wp, wp_ide_acquire; [done|].
  assert (core (set_idelock true s) a) as Hc1 by (by destruct Hc).
  wp_step. apply wpb_of_wp. eapply wp_enqueue; [exact Hc1|done|done|done|done|]. intros s1 Hc2 Hl2. wp_step.
  eapply (wpb_iderw_wait _ _ _ (a_submit i a)); [done|apply Hc2| |done|done|exact Hc2|done|constructor|].
  { cbn [a_submit a_queue]. set_solver. }
  intros n' s2 a' Hc3 Hl3 Hsv. apply wpb_of_wp, wp_ide_release; [done|]. exists a'. split; [|done]. constructor; [|done]. by destruct Hc3.
Qed.
End Props.

(** C10: the driver is a disk that serves one request at a time.  Let the state of
    the driver stand for a disk with a queue of requests.  (1) [iderw] of a locked
    buffer that needs the disk puts it at the end of the queue and sleeps as long
    as it is there; whatever other requests and interrupts come while it sleeps,
    it returns only when its buffer was served, at one moment in between, exactly
    as by [memide.c]: a dirty buffer was written to its block of its disk, another
    one got the contents of its block, and the buffer is valid and clean.  It
    never panics or gets stuck.  (2) An interrupt at the end of the operation
    serves the head of the queue, wakes its process and starts the next; another
    one changes nothing.  When the controller reports an error the buffer becomes
    valid and clean all the same: data that were not read, or a write that was
    lost. *)
Theorem ide_serves_in_order {HW : Type} {A : Ata HW} (media : HW -> Z -> Z -> block) (phase : HW -> phase_t) (reg : HW -> Z -> Z)
    (busy : HW -> nat) {AO : AtaOk A media phase reg busy} (buf_addr : nat -> Z) {W : Wakeups} (s : ide HW) (a : adisk) :
  rep media phase s a ->
  (forall n i b, (n < wakeups)%nat -> i ∉ a_queue a -> a_bufs a !! i = Some b -> request b -> sl_locked (b_lock b) = true ->
     b_dev b = 0 \/ havedisk1 s = true ->
     wpb n (fun s => exists a', rep media phase s a' /\ rtc (astep i) (a_submit i a) a') (iderw buf_addr i)
       (fun _ _ s' => exists a', rep media phase s' a' /\ served i b (a_submit i a) a') s) /\
  match a_queue a with
  | i :: _ =>
      wp (ideintr buf_addr) (fun _ s' => rep media phase s' (a_serve (negb (failed (phase (complete (hw s))))) a) /\
        ide_wakes s' = buf_addr i :: ide_wakes s) (set_hw (complete (hw s)) s)
  | [] => wp (ideintr buf_addr) (fun _ s' => rep media phase s' a /\ ide_wakes s' = ide_wakes s) s
  end.
Proof.
  intros Hrep. split.
  - intros n i b Hn Hi Hb Hr Hl Hd. by eapply wpb_iderw.
  - destruct (a_queue a) as [|i q] eqn:E; [by eapply wp_ideintr_none|by eapply wp_ideintr].
Qed.

(** ** A controller that never fails *)
Record ata : Type := mk_ata { at_reg : Z -> Z; at_phase : phase_t; at_media : Z -> Z -> block; at_busy : bool }.
Definition at_lba (h : ata) : Z :=
  at_reg h 0x1f3 + 2 ^ 8 * at_reg h 0x1f4 + 2 ^ 16 * at_reg h 0x1f5 + 2 ^ 24 * Z.land (at_reg h 0x1f6) 15.
Definition at_drive (h : ata) : Z := Z.land (Z.shiftr (at_reg h 0x1f6) 4) 1.
Definition demo_ata : Ata ata :=
  {| outb := fun p v h =>
       if p =? 0x1f7 then mk_ata (at_reg h) ((if v =? IDE_CMD_READ then Reading else Taking) (at_drive h) (at_lba h)) (at_media h) true
       else mk_ata (fun q => if q =? p then v else at_reg h q) (at_phase h) (at_media h) true;
     inb := fun _ h =>
       if at_busy h then (IDE_BSY, mk_ata (at_reg h) (at_phase h) (at_media h) false)
       else (match at_phase h with Failed => Z.lor IDE_DRDY IDE_ERR | _ => IDE_DRDY end, h);
     outsl := fun _ x h => match at_phase h with Taking d n => mk_ata (at_reg h) (Writing d n x) (at_media h) true | _ => h end;
     insl := fun _ h => match at_phase h with Ready x => (x, mk_ata (at_reg h) Idle (at_media h) false) | _ => ([], h) end;
     complete := fun h =>
       match at_phase h with
       | Reading d n => mk_ata (at_reg h) (Ready (at_media h d n)) (at_media h) true
       | Writing d n x => mk_ata (at_reg h) Idle (fun d' n' => if (d' =? d) && (n' =? n) then x else at_media h d' n') true
       | _ => h
       end;
     polls := 1 |}.

Lemma demo_ata_ok : AtaOk demo_ata at_media at_phase at_reg (fun h => if at_busy h then 1%nat else 0%nat).
Proof.
  constructor; cbn [outb inb outsl insl complete polls demo_ata].
  - intros h. destruct (at_busy h); lia.
  - intros p v h Hp Hq. destruct (Z.eqb_spec p 0x1f7) as [->|_]; [set_solver|done].
  - intros c h Hc Hq _. change (0x1f7 =? 0x1f7) with true. by destruct Hc as [-> | ->].
  - intros d n x h Hp _. by rewrite Hp.
  - intros h Hq. destruct (at_busy h); [done|]. split_and!; try done; by destruct (at_phase h).
  - intros x h Hp. by rewrite Hp.
  - intros h. destruct (at_phase h) as [| | |d n|d n|d n x]; try done; [split; [done|by left]|by left].
Qed.

(** Two buffers, one to be read and one to be written, and disk 1. *)
Definition demo_sector (d n : Z) : block := replicate BSIZE (d + n).
Definition demo_buf : buf := mk_buf 0 1 7 (mk_slock true 1) 1 (replicate BSIZE 0).
Definition demo_bufs : list buf := [demo_buf; mk_buf B_DIRTY 1 8 (mk_slock true 2) 1 (replicate BSIZE 5)].
Definition demo_hw : ata := mk_ata (fun _ => 0) Idle demo_sector false.
Definition demo_adisk : adisk := mk_adisk demo_sector demo_bufs [].
Definition demo_ide : ide ata := mk_ide false None true demo_bufs [None; None] [] demo_hw.

Lemma ide_serves_in_order_witness :
  wpb 3 (fun s => exists a', rep at_media at_phase s a' /\ rtc (astep 0) (a_submit 0 demo_adisk) a')
    (@iderw _ demo_ata Z.of_nat {| wakeups := 4 |} 0)
    (fun _ _ s' => exists a', rep at_media at_phase s' a' /\ served 0 demo_buf (a_submit 0 demo_adisk) a') demo_ide.
Proof.
  assert (rep at_media at_phase demo_ide demo_adisk) as Hrep.
  { constructor; [|reflexivity]. constructor; try done; [apply NoDup_nil_2|intros i Hi; by apply elem_of_nil in Hi]. }
  destruct (@ide_serves_in_order ata demo_ata at_media at_phase at_reg _ demo_ata_ok Z.of_nat {| wakeups := 4 |} demo_ide demo_adisk Hrep) as [H _].
  apply H; [cbn; lia|apply not_elem_of_nil|reflexivity| |reflexivity|by right].
  constructor; [done|unfold FSSIZE; cbn; lia|reflexivity].
Defined.
