(* ===== verification/Log.v ===== *)
(** * [log.c]: the write-ahead log

    The code of [log.c], and of [fs.c] the two functions that run first, [readsb]
    and [iinit].  The loops over the log read [log.lh.n] once: nothing changes it
    while [log.committing] is set. *)
From Stdlib Require Import ZArith Lia Bool.
From stdpp Require Import base numbers list strings.
From S2P Require Import Prelude Machine FsState Bio.

Definition set_lg_lh v l := mk_log (lg_start l) (lg_size l) (lg_outstanding l) (lg_committing l) (lg_dev l) v.
Definition set_lg_outstanding v l := mk_log (lg_start l) (lg_size l) v (lg_committing l) (lg_dev l) (lg_lh l).
Definition set_lg_committing v l := mk_log (lg_start l) (lg_size l) (lg_outstanding l) v (lg_dev l) (lg_lh l).
Definition set_lg_where start size dev l := mk_log start size (lg_outstanding l) (lg_committing l) dev (lg_lh l).
Definition set_lh_n v l := set_lg_lh (mk_lh v (lh_block (lg_lh l))) l.

(** [struct superblock] at the start of block 1. *)
Definition decode_sb (d : block) : superblock :=
  mk_sb (get32 d 0) (get32 d 4) (get32 d 8) (get32 d 12) (get32 d 16) (get32 d 20) (get32 d 24).

Section Log.
Context {I : FsImage} {W : Wakeups}.

Definition readsb (dev : Z) : FS superblock :=
  bp <- bread dev 1 ;;
  d <- buf_data bp ;;
  brelse bp ;;;
  ret (decode_sb d).

(** The line printed on the console is left out. *)
Definition iinit (dev : Z) : FS unit :=
  for_range NINODE 0 (fun i => initsleeplock (put_inode_lock i)) ;;;
  sb <- readsb dev ;;
  modify (set_fsb sb).

Definition upd_log (f : log_t -> log_t) : FS unit := modify (fun s => set_flog (f (flog s)) s).
Definition get_lh_n : FS Z := gets (fun s => lh_n (lg_lh (flog s))).
(** [log.lh.block[i]], read and written. *)
Definition get_lh (i : nat) : FS Z := get_at (fun s => lh_block (lg_lh (flog s))) i.
Definition set_lh (i : nat) (v : Z) : FS unit := fun s =>
  let lh := lg_lh (flog s) in
  if (i <? length (lh_block lh))%nat
  then upd_log (set_lg_lh (mk_lh (lh_n lh) (<[i := v]> (lh_block lh)))) s
  else Fault "log.lh.block" s.

Definition install_trans : FS unit :=
  n <- get_lh_n ;;
  for_range (Z.to_nat n) 0 (fun tail =>
    l <- gets flog ;;
    lbuf <- bread (lg_dev l) (u32 (lg_start l + Z.of_nat tail + 1)) ;;
    dst <- get_lh tail ;;
    dbuf <- bread (lg_dev l) (u32 dst) ;;
    d <- buf_data lbuf ;;
    set_buf_data dbuf d ;;;
    bwrite dbuf ;;;
    brelse lbuf ;;;
    brelse dbuf).

Definition read_head : FS unit :=
  l <- gets flog ;;
  b <- bread (lg_dev l) (u32 (lg_start l)) ;;
  d <- buf_data b ;;
  upd_log (set_lh_n (i32 (get32 d 0))) ;;;
  n <- get_lh_n ;;
  for_range (Z.to_nat n) 0 (fun i => set_lh i (i32 (get32 d (4 + 4 * i)))) ;;;
  brelse b.

Definition write_head : FS unit :=
  l <- gets flog ;;
  b <- bread (lg_dev l) (u32 (lg_start l)) ;;
  d <- buf_data b ;;
  n <- get_lh_n ;;
  set_buf_data b (splice d 0 (le32 n)) ;;;
  for_range (Z.to_nat n) 0 (fun i =>
    v <- get_lh i ;;
    d <- buf_data b ;;
    set_buf_data b (splice d (4 + 4 * i) (le32 v))) ;;;
  bwrite b ;;;
  brelse b.

Definition recover_from_log : FS unit :=
  read_head ;;;
  install_trans ;;;
  upd_log (set_lh_n 0) ;;;
  write_head.

(** [sizeof(struct logheader)] is 4 + 4 * LOGSIZE = 124. *)
Definition initlog (dev : Z) : FS unit :=
  if Z.of_nat BSIZE <=? 4 + 4 * LOGSIZE then panic "initlog: too big logheader" else
  sb <- readsb dev ;;
  upd_log (set_lg_where (i32 (sb_logstart sb)) (i32 (sb_nlog sb)) dev) ;;;
  recover_from_log.

Definition log_sleep : FS unit :=
  fs_release LogLock ;;; sleep_on log_addr ;;; fs_acquire LogLock.

Fixpoint begin_op_loop (n : nat) : FS unit :=
  l <- gets flog ;;
  if lg_committing l || (LOGSIZE <? lh_n (lg_lh l) + (lg_outstanding l + 1) * MAXOPBLOCKS) then
    match n with
    | O => nofuel
    | S n' => log_sleep ;;; begin_op_loop n'
    end
  else
    upd_log (set_lg_outstanding (lg_outstanding l + 1)) ;;;
    fs_release LogLock.
Definition begin_op : FS unit := fs_acquire LogLock ;;; begin_op_loop wakeups.

Definition write_log : FS unit :=
  n <- get_lh_n ;;
  for_range (Z.to_nat n) 0 (fun tail =>
    l <- gets flog ;;
    to <- bread (lg_dev l) (u32 (lg_start l + Z.of_nat tail + 1)) ;;
    src <- get_lh tail ;;
    from <- bread (lg_dev l) (u32 src) ;;
    d <- buf_data from ;;
    set_buf_data to d ;;;
    bwrite to ;;;
    brelse from ;;;
    brelse to).

Definition commit : FS unit :=
  n <- get_lh_n ;;
  when (0 <? n) (
    write_log ;;;
    write_head ;;;
    install_trans ;;;
    upd_log (set_lh_n 0) ;;;
    write_head).

Definition end_op : FS unit :=
  fs_acquire LogLock ;;;
  upd_log (fun l => set_lg_outstanding (lg_outstanding l - 1) l) ;;;
  l <- gets flog ;;
  if lg_committing l then panic "log.committing" else
  let do_commit := lg_outstanding l =? 0 in
  (if do_commit then upd_log (set_lg_committing true) else fs_wakeup log_addr) ;;;
  fs_release LogLock ;;;
  when do_commit (
    commit ;;;
    fs_acquire LogLock ;;;
    upd_log (set_lg_committing false) ;;;
    fs_wakeup log_addr ;;;
    fs_release LogLock).

Definition log_write (i : nat) : FS unit :=
  l <- gets flog ;;
  if (LOGSIZE <=? lh_n (lg_lh l)) || (lg_size l - 1 <=? lh_n (lg_lh l)) then panic "too big a transaction" else
  if lg_outstanding l <? 1 then panic "log_write outside of trans" else
  fs_acquire LogLock ;;;
  b <- get_buf i ;;
  n <- get_lh_n ;;
  hit <- for_find (Z.to_nat n) 0 (fun k =>
           v <- get_lh k ;; ret (if u32 v =? b_blockno b then Some k else None)) ;;
  let k := match hit with Some k => k | None => Z.to_nat n end in
  set_lh k (i32 (b_blockno b)) ;;;
  when (Z.of_nat k =? n) (upd_log (set_lh_n (n + 1))) ;;;
  upd_buf i (fun b => set_b_flags (Z.lor (b_flags b) B_DIRTY) b) ;;;
  fs_release LogLock.
End Log.
