(* ===== verification/LogInv.v ===== *)
(** * Committing and recovering a transaction

    What [write_log], [write_head], [install_trans], [commit] and
    [recover_from_log] write to the disk, in which order, and what the cache
    shows afterwards. *)
From Stdlib Require Import ZArith Lia Bool.
From stdpp Require Import base numbers list strings gmap.
From S2P Require Import Prelude Machine FsState Bio BioInv Log.

(** ** Sequences of block writes *)
Definition vsets (V : Z -> block) (ws : list (Z * block)) : Z -> block :=
  foldl (fun V w => vset V w.1 w.2) V ws.

Lemma vsets_app V ws ws' : vsets V (ws ++ ws') = vsets (vsets V ws) ws'.
Proof. apply foldl_app. Qed.
Lemma vsets_snoc V ws b d : vsets V (ws ++ [(b, d)]) = vset (vsets V ws) b d.
Proof. apply vsets_app. Qed.
Lemma vsets_notin V ws b : b ∉ ws.*1 -> vsets V ws b = V b.
Proof.
  revert V. induction ws as [|[k d] ws IH]; intros V Hb; [done|]. cbn in *.
  apply not_elem_of_cons in Hb as [Hk Hb]. change (vsets (vset V k d) ws b = V b). rewrite IH by done. by apply vset_ne.
Qed.
Lemma vsets_lookup V ws i b d : NoDup ws.*1 -> ws !! i = Some (b, d) -> vsets V ws b = d.
Proof.
  intros Hn Hi. rewrite <- (take_drop_middle _ _ _ Hi), cons_middle, !vsets_app. rewrite vsets_notin; [apply vset_eq|].
  rewrite <- (take_drop_middle _ _ _ Hi), fmap_app, fmap_cons in Hn.
  apply NoDup_app in Hn as (_ & _ & Hn). by apply NoDup_cons in Hn as [? _].
Qed.

(** ** Words in a block *)
Fixpoint put_words (d : block) (off : nat) (l : list Z) : block :=
  match l with [] => d | v :: l' => put_words (splice d off (le32 v)) (off + 4) l' end.

Lemma put_words_snoc d off l v :
  put_words d off (l ++ [v]) = splice (put_words d off l) (off + 4 * length l) (le32 v).
Proof.
  revert d off. induction l as [|w l IH]; intros d off; cbn [app put_words length]; [f_equal; lia|].
  rewrite IH. f_equal. lia.
Qed.
Lemma put_words_length d off l : (off + 4 * length l <= length d)%nat -> length (put_words d off l) = length d.
Proof.
  revert d off. induction l as [|w l IH]; intros d off H; [done|]. cbn [put_words]. cbn [length] in H.
  rewrite IH; rewrite splice_length; rewrite ?le32_length; lia.
Qed.
Lemma get32_put_words_before d off l j : (off + 4 * length l <= length d)%nat -> (j + 4 <= off)%nat ->
  get32 (put_words d off l) j = get32 d j.
Proof.
  revert d off. induction l as [|w l IH]; intros d off H Hj; [done|]. cbn [put_words]. cbn [length] in H.
  rewrite IH; [|rewrite splice_length; rewrite ?le32_length; lia|lia]. apply get32_splice_ne; rewrite ?le32_length; lia.
Qed.
Lemma get32_put_words d off l j v : (off + 4 * length l <= length d)%nat -> l !! j = Some v ->
  get32 (put_words d off l) (off + 4 * j) = v mod 2 ^ 32.
Proof.
  revert d off j. induction l as [|w l IH]; intros d off j H Hj; [done|]. cbn [put_words]. cbn [length] in H.
  destruct j as [|j].
  - injection Hj as ->. replace (off + 4 * 0)%nat with off by lia.
    rewrite get32_put_words_before; [|rewrite splice_length; rewrite ?le32_length; lia|lia].
    apply get32_splice. lia.
  - replace (off + 4 * S j)%nat with (off + 4 + 4 * j)%nat by lia. apply IH; [|done].
    rewrite splice_length; rewrite ?le32_length; lia.
Qed.

(** The header block after [write_head]. *)
Definition header (d : block) (B : list Z) : block := put_words d 0 (Z.of_nat (length B) :: B).

Section LogInv.
Context {I : FsImage} {W : Wakeups}.
Implicit Types (s : fsys) (L : holds) (P B : list Z).

Lemma rep_upd_log s V L P E f : rep s V L P E ->
  rep (set_flog (f (flog s)) s) V L P (env_set_log (f (e_log E)) E).
Proof. intros HR. pose proof (rep_env _ _ _ _ _ HR) as <-. destruct HR. by split. Qed.

Lemma rep_flog s V L P E : rep s V L P E -> flog s = e_log E.
Proof. intros HR. by rewrite <- (rep_env _ _ _ _ _ HR). Qed.

Lemma filter_ne_id (b : Z) P : b ∉ P -> filter (fun k => k <> b) P = P.
Proof.
  induction P as [|x P IH]; intros Hb; [done|]. apply not_elem_of_cons in Hb as [? ?].
  rewrite filter_cons_True by done. by rewrite IH.
Qed.

(** The log region and the blocks logged. *)
Record log_at (l : log_t) (size st sz : Z) (B : list Z) : Prop := {
  la_dev : lg_dev l = 1;
  la_start : lg_start l = st;
  la_size : lg_size l = sz;
  la_region : 0 <= st /\ 0 < sz /\ st + sz <= size /\ size < 2 ^ 31;
  la_cap : length (lh_block (lg_lh l)) = Z.to_nat LOGSIZE;
  la_n : lh_n (lg_lh l) = Z.of_nat (length B);
  la_blocks : take (length B) (lh_block (lg_lh l)) = B;
  la_fit : Z.of_nat (length B) < sz /\ Z.of_nat (length B) < LOGSIZE;
  la_nodup : NoDup B;
  la_home : forall b, b ∈ B -> in_range size b /\ ~ (st <= b < st + sz);
}.

Lemma log_at_lookup l size st sz B i b : log_at l size st sz B -> B !! i = Some b -> lh_block (lg_lh l) !! i = Some b.
Proof. intros H Hi. rewrite <- (la_blocks _ _ _ _ _ H) in Hi. by apply lookup_take_Some in Hi as [? _]. Qed.

Lemma wp_get_lh s i v (Q : Z -> fsys -> Prop) : lh_block (lg_lh (flog s)) !! i = Some v -> Q v s -> wp (get_lh i) Q s.
Proof. intros H HQ. unfold wp, get_lh, get_at. by rewrite H. Qed.

(** Copying one held buffer over another, writing it and releasing both. *)
Lemma wp_copy_tail s V L P E f t a b (Q : unit -> fsys -> Prop) :
  rep s V L P E -> L !! f = Some (a, true) -> L !! t = Some (b, true) -> a <> b ->
  (forall s', rep s' (vset V b (V a)) (delete t (delete f L)) (filter (fun k => k <> b) P)
                (env_set_disk (vset (e_disk E) b (V a)) (e_trace E ++ [(b, V a)]) E) -> Q tt s') ->
  wp (d <- buf_data f ;; set_buf_data t d ;;; bwrite t ;;; brelse f ;;; brelse t) Q s.
Proof.
  intros HR Hf Ht Hne HQ. assert (f <> t) as Hft by (intros ->; congruence).
  assert (in_range (disksize s) a) as Ha by (by destruct (rep_holding _ _ _ _ _ _ _ _ HR Hf) as (x & H); apply H).
  wp_step. eapply wp_buf_data; [done..|]. wp_step.
  eapply wp_set_buf_data; [done..|by apply (rep_len _ _ _ _ _ HR)|]. intros s1 H1. wp_step.
  eapply wp_bwrite; [done|by rewrite lookup_insert_eq|]. rewrite vset_eq. intros s2 H2. wp_step. rewrite insert_insert_eq in H2.
  eapply wp_brelse; [done|by rewrite lookup_insert_ne|]. intros s3 H3.
  eapply wp_brelse; [done|by rewrite lookup_delete_ne, lookup_insert_eq by done|]. intros s4 H4. apply HQ.
  by rewrite delete_insert_ne, delete_insert_eq in H4 by done.
Qed.

(** What the two copying loops write. *)
Definition slot (st : Z) (i : nat) : Z := st + Z.of_nat i + 1.
Definition log_writes st (V : Z -> block) B : list (Z * block) := imap (fun i b => (slot st i, V b)) B.
Definition home_writes st (V : Z -> block) B : list (Z * block) := imap (fun i b => (b, V (slot st i))) B.

Lemma imap_take_S {A C} (f : nat -> A -> C) l i x : l !! i = Some x -> take (S i) (imap f l) = take i (imap f l) ++ [f i x].
Proof. intros H. apply take_S_r. by rewrite list_lookup_imap, H. Qed.

Lemma log_writes_fst st V B : (log_writes st V B).*1 = slot st <$> seq 0 (length B).
Proof.
  unfold log_writes. rewrite fmap_imap. apply list_eq. intros i. rewrite list_lookup_imap, list_lookup_fmap.
  destruct (decide (i < length B)%nat) as [Hi|Hi].
  - rewrite lookup_seq_lt by done. destruct (lookup_lt_is_Some_2 B i Hi) as [x ->]. done.
  - rewrite lookup_seq_ge, lookup_ge_None_2 by lia. done.
Qed.
Lemma home_writes_fst st V B : (home_writes st V B).*1 = B.
Proof.
  unfold home_writes. rewrite fmap_imap. apply list_eq. intros i. rewrite list_lookup_imap. by destruct (B !! i).
Qed.

Lemma slot_in_region l size st sz B i : log_at l size st sz B -> (i < length B)%nat ->
  in_range size (slot st i) /\ st < slot st i < st + sz /\ u32 (slot st i) = slot st i /\ slot st i ∉ B.
Proof.
  intros Hla Hi. destruct (la_region _ _ _ _ _ Hla) as (? & ? & ? & ?). destruct (la_fit _ _ _ _ _ Hla).
  unfold slot, in_range. split_and!; try lia; [apply u32_small; lia|].
  intros Hin. apply (la_home _ _ _ _ _ Hla) in Hin as [_ Hn]. lia.
Qed.

Lemma home_not_slot l size st sz B b i : log_at l size st sz B -> b ∈ B -> b ∉ take i (slot st <$> seq 0 (length B)).
Proof.
  intros Hla Hb Hin. apply elem_of_take in Hin as (j & Hin & _). rewrite list_lookup_fmap in Hin.
  apply fmap_Some in Hin as (k & Hk & ->). apply lookup_seq in Hk as [-> Hk].
  by destruct (slot_in_region _ _ _ _ _ (0 + j) Hla) as (_ & _ & _ & ?).
Qed.

Lemma slot_not_home l size st sz B i k : log_at l size st sz B -> (i < length B)%nat -> slot st i ∉ take k B.
Proof.
  intros Hla Hi Hin. apply elem_of_take in Hin as (j & Hin & _). apply list_elem_of_lookup_2 in Hin.
  by destruct (slot_in_region _ _ _ _ _ i Hla) as (_ & _ & _ & ?).
Qed.

Lemma home_small l size st sz B b : log_at l size st sz B -> b ∈ B -> in_range size b /\ u32 b = b /\ i32 b = b.
Proof.
  intros Hla Hb. destruct (la_home _ _ _ _ _ Hla _ Hb) as [Hr _]. destruct (la_region _ _ _ _ _ Hla) as (? & ? & ? & ?).
  unfold in_range in *. split; [done|]. split; [apply u32_small|apply i32_small]; lia.
Qed.

(** The state of the disk after some writes. *)
Definition wrote (E : fenv) (ws : list (Z * block)) : fenv := env_set_disk (vsets (e_disk E) ws) (e_trace E ++ ws) E.
Lemma wrote_nil E : wrote E [] = E.
Proof. unfold wrote, env_set_disk. cbn. rewrite app_nil_r. by destruct E. Qed.
Lemma wrote_app E ws ws' : wrote (wrote E ws) ws' = wrote E (ws ++ ws').
Proof. unfold wrote, env_set_disk. cbn. by rewrite vsets_app, app_assoc. Qed.
Lemma wrote_snoc E ws b d :
  env_set_disk (vset (e_disk (wrote E ws)) b d) (e_trace (wrote E ws) ++ [(b, d)]) (wrote E ws) = wrote E (ws ++ [(b, d)]).
Proof. symmetry. rewrite <- wrote_app. done. Qed.

Lemma not_held_empty b : not_held ∅ b.
Proof. intros i c. by rewrite lookup_empty. Qed.
Lemma not_held_insert L i b c b' : not_held L b' -> b <> b' -> not_held (<[i := (b, c)]> L) b'.
Proof. intros H Hne j c' Hj. apply lookup_insert_Some in Hj as [[_ [=]]|[_ Hj]]; [congruence|by apply H in Hj]. Qed.
Lemma delete_two (f t : nat) (x y : Z * bool) : delete t (delete f (<[t := x]> (<[f := y]> ∅ : holds))) = ∅.
Proof. apply map_eq. intros k. rewrite lookup_empty. destruct (decide (k = t)) as [->|?]; simplify_map_eq; [done|].
  destruct (decide (k = f)) as [->|?]; by simplify_map_eq. Qed.

Lemma wp_write_log s V P E st sz (Q : unit -> fsys -> Prop) :
  rep s V ∅ P E -> log_at (e_log E) (e_size E) st sz P ->
  (forall s', let ws := log_writes st V P in rep s' (vsets V ws) ∅ P (wrote E ws) -> Q tt s') ->
  wp write_log Q s.
Proof.
  intros HR Hla HQ. unfold write_log, get_lh_n. wp_steps.
  rewrite (rep_flog _ _ _ _ _ HR), (la_n _ _ _ _ _ Hla), Nat2Z.id.
  apply (wp_for_range (fun i s' => let ws := take i (log_writes st V P) in rep s' (vsets V ws) ∅ P (wrote E ws))).
  - cbn. by rewrite wrote_nil.
  - intros i s1 [_ Hi] H1. cbn in Hi. destruct (lookup_lt_is_Some_2 P i Hi) as [b Hb].
    destruct (slot_in_region _ _ _ _ _ i Hla Hi) as (Hsr & _ & Hu & HnP). pose proof (list_elem_of_lookup_2 _ _ _ Hb) as HbP.
    destruct (home_small _ _ _ _ _ _ Hla HbP) as (Hbr & Hub & _). assert (slot st i <> b) as Hne by (by intros <-).
    wp_step. apply wp_gets. rewrite (rep_flog _ _ _ _ _ H1 : flog s1 = e_log E).
    rewrite (la_dev _ _ _ _ _ Hla), (la_start _ _ _ _ _ Hla). fold (slot st i). rewrite Hu.
    wp_step. eapply wp_bread; [done|done|apply not_held_empty| |].
    { right. rewrite map_size_empty. destruct (la_fit _ _ _ _ _ Hla) as [_ ?]. unfold LOGSIZE, NBUF in *. lia. }
    intros t s2 _ H2. wp_step. eapply wp_get_lh; [|].
    { rewrite (rep_flog _ _ _ _ _ H2 : flog s2 = e_log E). by eapply log_at_lookup. }
    rewrite Hub. wp_step. eapply wp_bread; [done|done|by apply not_held_insert; [apply not_held_empty|]|by left|].
    intros f s3 Hf H3. assert (f <> t) as Hft by (intros ->; by rewrite lookup_insert_eq in Hf).
    eapply wp_copy_tail; [done|by rewrite lookup_insert_eq|by rewrite lookup_insert_ne, lookup_insert_eq by done|done|].
    intros s4. rewrite filter_ne_id, wrote_snoc by done.
    unfold log_writes. rewrite (imap_take_S _ _ _ b) by done. fold (log_writes st V P).
    rewrite vsets_snoc, (vsets_notin _ _ b).
    2:{ rewrite fmap_take, log_writes_fst. by eapply home_not_slot. }
    by rewrite (insert_insert_ne _ f t), delete_two by done.
  - cbn. intros s1. rewrite take_ge by (unfold log_writes; rewrite length_imap; lia). apply HQ.
Qed.

Lemma pinned_length P B : NoDup P -> (forall b, b ∈ P -> b ∈ B) -> (length P <= length B)%nat.
Proof. intros Hn Hs. by apply submseteq_length, NoDup_submseteq. Qed.

Lemma nodup_take (B : list Z) i b : NoDup B -> B !! i = Some b -> b ∉ take i B.
Proof.
  intros Hn Hb Hin. apply elem_of_take in Hin as (j & Hj & Hlt).
  pose proof (NoDup_lookup _ _ _ _ Hn Hb Hj). lia.
Qed.

(** The blocks in the log go to their home locations; none stays pinned. *)
Lemma wp_install_trans s V P B E st sz (Q : unit -> fsys -> Prop) :
  rep s V ∅ P E -> log_at (e_log E) (e_size E) st sz B -> P = B \/ P = [] ->
  (forall s', let ws := home_writes st V B in rep s' (vsets V ws) ∅ [] (wrote E ws) -> Q tt s') ->
  wp install_trans Q s.
Proof.
  intros HR Hla HPB HQ. unfold install_trans, get_lh_n. wp_steps. rewrite (rep_flog _ _ _ _ _ HR), (la_n _ _ _ _ _ Hla), Nat2Z.id.
  apply (wp_for_range (fun i s' => let ws := take i (home_writes st V B) in exists P',
    rep s' (vsets V ws) ∅ P' (wrote E ws) /\ forall b, b ∈ P' <-> b ∈ P /\ b ∉ take i B)).
  - exists P. cbn. rewrite wrote_nil. split; [done|]. set_solver.
  - intros i s1 [_ Hi] (P' & H1 & HP'). cbn in Hi. destruct (lookup_lt_is_Some_2 B i Hi) as [b Hb].
    destruct (slot_in_region _ _ _ _ _ i Hla Hi) as (Hsr & _ & Hu & HnB). pose proof (list_elem_of_lookup_2 _ _ _ Hb) as HbB.
    destruct (home_small _ _ _ _ _ _ Hla HbB) as (Hbr & Hub & _). assert (slot st i <> b) as Hne by (by intros <-).
    assert (length P' <= length B)%nat as Hlen.
    { apply pinned_length; [by eapply rep_nodup|]. intros k [Hk _]%HP'. destruct HPB as [->| ->]; [done|set_solver]. }
    wp_step. apply wp_gets. rewrite (rep_flog _ _ _ _ _ H1 : flog s1 = e_log E).
    rewrite (la_dev _ _ _ _ _ Hla), (la_start _ _ _ _ _ Hla). fold (slot st i). rewrite Hu.
    wp_step. eapply wp_bread; [done|done|apply not_held_empty| |].
    { right. rewrite map_size_empty. destruct (la_fit _ _ _ _ _ Hla) as [_ ?]. unfold LOGSIZE, NBUF in *. lia. }
    intros f s2 _ H2. wp_step. eapply wp_get_lh; [|].
    { rewrite (rep_flog _ _ _ _ _ H2 : flog s2 = e_log E). by eapply log_at_lookup. }
    rewrite Hub. wp_step. eapply wp_bread; [done|done|by apply not_held_insert; [apply not_held_empty|]| |].
    { destruct HPB as [->| ->]; [left; apply HP'; split; [done|by apply nodup_take; [apply Hla|]]|right].
      rewrite insert_empty, map_size_singleton. destruct P' as [|k P']; [cbn; unfold NBUF; lia|].
      by destruct (proj1 (HP' k) (list_elem_of_here _ _)) as [?%elem_of_nil _]. }
    intros t s3 Ht H3. assert (f <> t) as Hft by (intros ->; by rewrite lookup_insert_eq in Ht).
    eapply wp_copy_tail; [done|by rewrite lookup_insert_ne, lookup_insert_eq by done|by rewrite lookup_insert_eq|done|].
    intros s4. rewrite wrote_snoc.
    unfold home_writes. rewrite (imap_take_S _ _ _ b) by done. fold (home_writes st V B).
    rewrite vsets_snoc, (vsets_notin _ _ (slot st i)).
    2:{ rewrite fmap_take, home_writes_fst. by eapply slot_not_home. }
    rewrite delete_two. intros H4. eexists. split; [exact H4|]. intros k. rewrite list_elem_of_filter, HP'.
    rewrite (take_S_r _ _ _ Hb), elem_of_app, list_elem_of_singleton. tauto.
  - cbn. intros s1 (P' & H1 & HP'). rewrite take_ge in H1 by (unfold home_writes; rewrite length_imap; lia).
    replace P' with (@nil Z) in H1; [by apply HQ|]. destruct P' as [|k P']; [done|exfalso].
    destruct (proj1 (HP' k) (list_elem_of_here _ _)) as [HkP HkB]. rewrite take_ge in HkB by lia. destruct HPB as [->| ->]; [done|set_solver].
Qed.

(** The header block records the blocks of the log. *)
Lemma wp_write_head s V P B E st sz (Q : unit -> fsys -> Prop) :
  rep s V ∅ P E -> log_at (e_log E) (e_size E) st sz B -> (length P < NBUF)%nat -> st ∉ P ->
  (forall s', let h := header (V st) B in rep s' (vset V st h) ∅ P (wrote E [(st, h)]) -> Q tt s') ->
  wp write_head Q s.
Proof.
  intros HR Hla Hroom HstP HQ. unfold write_head, get_lh_n. destruct (la_region _ _ _ _ _ Hla) as (Hg1 & Hg2 & Hg3 & Hg4).
  assert (in_range (e_size E) st) as Hst by (unfold in_range; lia).
  assert (length (V st) = BSIZE) as Hlen by (apply (rep_len _ _ _ _ _ HR); by rewrite <- (rep_env _ _ _ _ _ HR) in Hst).
  assert (4 + 4 * length B <= BSIZE)%nat as Hfit by (destruct (la_fit _ _ _ _ _ Hla) as [_ ?]; unfold LOGSIZE, BSIZE in *; lia).
  wp_step. apply wp_gets. rewrite (rep_flog _ _ _ _ _ HR : flog s = e_log E).
  rewrite (la_dev _ _ _ _ _ Hla), (la_start _ _ _ _ _ Hla), u32_small by lia.
  wp_step. eapply wp_bread; [done|done|apply not_held_empty|right; by rewrite map_size_empty|]. intros b s1 _ H1.
  wp_step. eapply wp_buf_data; [done|by rewrite lookup_insert_eq|]. wp_step. apply wp_gets.
  rewrite (rep_flog _ _ _ _ _ H1), (la_n _ _ _ _ _ Hla), Nat2Z.id. wp_step.
  eapply wp_set_buf_data; [done|by rewrite lookup_insert_eq|by rewrite splice_length; rewrite ?le32_length, ?Hlen; [|unfold BSIZE; lia]|].
  intros s2 H2. rewrite insert_insert_eq in H2. wp_step.
  apply (wp_for_range (fun i s' => rep s' (vset V st (put_words (V st) 0 (Z.of_nat (length B) :: take i B))) (<[b := (st, false)]> ∅) P E)).
  - done.
  - intros i s3 [_ Hi] H3. cbn in Hi. destruct (lookup_lt_is_Some_2 B i Hi) as [v Hv].
    wp_step. eapply wp_get_lh; [rewrite (rep_flog _ _ _ _ _ H3); by eapply log_at_lookup|].
    wp_step. eapply wp_buf_data; [done|by rewrite lookup_insert_eq|]. rewrite vset_eq.
    assert (length (put_words (V st) 0 (Z.of_nat (length B) :: take i B)) = BSIZE) as Hl'.
    { rewrite put_words_length; [done|]. cbn [length]. rewrite length_take, Hlen. lia. }
    eapply wp_set_buf_data; [done|by rewrite lookup_insert_eq|rewrite splice_length; rewrite ?le32_length, ?Hl'; lia|].
    intros s4 H4. rewrite insert_insert_eq in H4. rewrite (take_S_r _ _ _ Hv), app_comm_cons, put_words_snoc.
    cbn [length]. rewrite length_take, Nat.min_l by lia. replace (0 + 4 * S i)%nat with (4 + 4 * i)%nat by lia.
    by rewrite vset_vset in H4.
  - intros s3. cbn [Nat.add]. rewrite firstn_all. intros H3. wp_step.
    eapply wp_bwrite; [done|by rewrite lookup_insert_eq|]. intros s4. rewrite insert_insert_eq, vset_eq, filter_ne_id by done.
    intros H4. eapply wp_brelse; [done|by rewrite lookup_insert_eq|]. intros s5. rewrite delete_insert_id by done. apply HQ.
Qed.

(** ** Commit *)
Definition commit_writes st (V : Z -> block) P : list (Z * block) :=
  let h := header (V st) P in
  log_writes st V P ++ [(st, h)] ++ ((fun b => (b, V b)) <$> P) ++ [(st, header h [])].

Lemma slot_inj st : Inj (=) (=) (slot st).
Proof. intros i j. unfold slot. lia. Qed.

(** The installed contents are those of the home blocks. *)
Lemma home_writes_logged st V V' P :
  (forall i b, P !! i = Some b -> V' (slot st i) = V b) -> home_writes st V' P = (fun b => (b, V b)) <$> P.
Proof.
  intros H. apply list_eq. intros i. unfold home_writes. rewrite list_lookup_imap, list_lookup_fmap.
  destruct (P !! i) as [b|] eqn:Hb; [|done]. cbn. by rewrite (H i b).
Qed.

Lemma vsets_log_writes st V D P i b : P !! i = Some b -> vsets D (log_writes st V P) (slot st i) = V b.
Proof.
  intros Hb. apply (vsets_lookup _ _ i).
  - rewrite log_writes_fst. apply NoDup_fmap_2; [apply slot_inj|apply NoDup_seq].
  - unfold log_writes. by rewrite list_lookup_imap, Hb.
Qed.

Lemma log_at_clear l size st sz B : log_at l size st sz B -> log_at (set_lh_n 0 l) size st sz [].
Proof. intros []. split; cbn; try done; [unfold LOGSIZE; lia|apply NoDup_nil_2|set_solver]. Qed.

Lemma wp_upd_log s V L P E f (Q : unit -> fsys -> Prop) : rep s V L P E ->
  (forall s', rep s' V L P (env_set_log (f (e_log E)) E) -> Q tt s') -> wp (upd_log f) Q s.
Proof. intros HR HQ. unfold upd_log. wp_steps. by apply HQ, rep_upd_log. Qed.

Lemma wp_commit s V P E st sz (Q : unit -> fsys -> Prop) :
  rep s V ∅ P E -> log_at (e_log E) (e_size E) st sz P -> P <> [] ->
  (forall s', let ws := commit_writes st V P in
     rep s' (vsets V ws) ∅ [] (wrote (env_set_log (set_lh_n 0 (e_log E)) E) ws) -> Q tt s') ->
  wp commit Q s.
Proof.
  intros HR Hla HP HQ. unfold commit, get_lh_n. wp_step. apply wp_gets. rewrite (rep_flog _ _ _ _ _ HR), (la_n _ _ _ _ _ Hla).
  assert (0 <? Z.of_nat (length P) = true) as -> by (destruct P; [done|cbn; apply Z.ltb_lt; lia]).
  assert (st ∉ P) as Hst by (intros [_ Hn]%(la_home _ _ _ _ _ Hla); apply Hn; pose proof (la_region _ _ _ _ _ Hla); lia).
  assert (length P < NBUF)%nat as Hroom by (pose proof (la_fit _ _ _ _ _ Hla); unfold LOGSIZE, NBUF in *; lia).
  assert (forall i, slot st i <> st) as Hns by (unfold slot; lia).
  assert (vsets V (log_writes st V P) st = V st) as Hkeep.
  { apply vsets_notin. rewrite log_writes_fst. intros (i & Hi & _)%list_elem_of_fmap. by apply (Hns i). }
  cbn [when]. wp_step. eapply wp_write_log; [done..|]. intros s1. cbv zeta. intros H1.
  wp_step. eapply wp_write_head; [done|done|done|done|]. intros s2. cbv zeta. rewrite Hkeep, wrote_app. intros H2.
  wp_step. eapply wp_install_trans; [done|done|by left|]. intros s3. cbv zeta. rewrite (home_writes_logged st V).
  2:{ intros i b Hb. rewrite vset_ne by done. by apply vsets_log_writes. }
  rewrite wrote_app. intros H3. wp_step. eapply wp_upd_log; [done|]. intros s4 H4.
  eapply wp_write_head; [done|by eapply log_at_clear|cbn; unfold NBUF; lia|set_solver|]. intros s5. cbv zeta.
  rewrite (vsets_notin _ _ st), vset_eq; [|by rewrite <- list_fmap_compose, list_fmap_id].
  intros H5. apply HQ. clear HQ. unfold commit_writes. cbv zeta.
  rewrite !app_assoc, vsets_snoc, vsets_app, vsets_snoc, <- wrote_app. exact H5.
Qed.

(** ** Recovery *)
(** The header block [d] names the blocks [B]. *)
Record decodes (d : block) (B : list Z) : Prop := {
  dec_n : get32 d 0 = Z.of_nat (length B);
  dec_block : forall i b, B !! i = Some b -> get32 d (4 + 4 * i) = b;
}.

(** The blocks [B] may be the contents of a log of [sz] blocks at [st]. *)
Record loggable (size st sz : Z) (B : list Z) : Prop := {
  lo_region : 0 <= st /\ 0 < sz /\ st + sz <= size /\ size < 2 ^ 31;
  lo_fit : Z.of_nat (length B) < sz /\ Z.of_nat (length B) < LOGSIZE;
  lo_nodup : NoDup B;
  lo_home : forall b, b ∈ B -> in_range size b /\ ~ (st <= b < st + sz);
}.

Lemma log_at_loggable l size st sz B : log_at l size st sz B -> loggable size st sz B.
Proof. intros []. by split. Qed.

Lemma decodes_header d B size st sz : loggable size st sz B -> length d = BSIZE -> decodes (header d B) B.
Proof.
  intros Hlo Hd. destruct (lo_fit _ _ _ _ Hlo) as [_ Hn]. unfold LOGSIZE in Hn.
  assert (0 + 4 * length (Z.of_nat (length B) :: B) <= length d)%nat as Hfit by (cbn [length]; rewrite Hd; unfold BSIZE; lia).
  split; unfold header.
  - rewrite (get32_put_words d 0 _ 0 (Z.of_nat (length B))); [|done|done]. apply Z.mod_small. rewrite pow2_32. lia.
  - intros i b Hb. replace (4 + 4 * i)%nat with (0 + 4 * S i)%nat by lia. rewrite (get32_put_words d 0 _ (S i) b); [|done|done]. apply Z.mod_small.
    destruct (lo_home _ _ _ _ Hlo b) as [Hr _]; [by eapply list_elem_of_lookup_2|]. destruct (lo_region _ _ _ _ Hlo) as (? & ? & ? & ?).
    unfold in_range in Hr. rewrite pow2_31 in *. rewrite pow2_32. lia.
Qed.

Lemma wp_set_lh_raw s i v (Q : unit -> fsys -> Prop) :
  (i < length (lh_block (lg_lh (flog s))))%nat ->
  Q tt (set_flog (set_lg_lh (mk_lh (lh_n (lg_lh (flog s))) (<[i := v]> (lh_block (lg_lh (flog s))))) (flog s)) s) ->
  wp (set_lh i v) Q s.
Proof. intros Hi HQ. unfold wp, set_lh. by rewrite (proj2 (Nat.ltb_lt _ _) Hi). Qed.

Lemma wp_set_lh s V L P E i v (Q : unit -> fsys -> Prop) :
  rep s V L P E -> (i < length (lh_block (lg_lh (e_log E))))%nat ->
  (forall s', rep s' V L P (env_set_log (set_lg_lh (mk_lh (lh_n (lg_lh (e_log E))) (<[i := v]> (lh_block (lg_lh (e_log E))))) (e_log E)) E) -> Q tt s') ->
  wp (set_lh i v) Q s.
Proof.
  intros HR Hi HQ. rewrite <- (rep_flog _ _ _ _ _ HR) in *. apply wp_set_lh_raw; [done|]. apply HQ.
  exact (rep_upd_log _ _ _ _ _ (fun _ => _) HR).
Qed.

Definition with_blocks (l : log_t) (bl : list Z) (n : Z) : log_t := set_lg_lh (mk_lh n bl) l.

Lemma insert_app_drop (l l' : list Z) i x y : l' !! i = Some x -> length l = i ->
  <[i := y]> (l ++ drop i l') = (l ++ [y]) ++ drop (S i) l'.
Proof. intros Hx <-. rewrite (drop_S _ _ _ Hx), insert_app_r_alt by lia. by rewrite Nat.sub_diag, <- app_assoc. Qed.

Lemma wp_read_head s V E st sz B (Q : unit -> fsys -> Prop) :
  rep s V ∅ [] E -> log_at (e_log E) (e_size E) st sz [] -> loggable (e_size E) st sz B -> decodes (V st) B ->
  (forall s' l, rep s' V ∅ [] (env_set_log l E) -> log_at l (e_size E) st sz B -> lg_outstanding l = lg_outstanding (e_log E) ->
     lg_committing l = lg_committing (e_log E) -> Q tt s') ->
  wp read_head Q s.
Proof.
  intros HR Hla Hlo Hdec HQ. unfold read_head, get_lh_n. destruct (lo_region _ _ _ _ Hlo) as (Hg1 & Hg2 & Hg3 & Hg4).
  destruct (lo_fit _ _ _ _ Hlo) as [Hf1 Hf2]. pose proof (la_cap _ _ _ _ _ Hla) as Hcap. change (Z.to_nat LOGSIZE) with 30%nat in Hcap.
  unfold LOGSIZE in Hf2. wp_step. apply wp_gets. rewrite (rep_flog _ _ _ _ _ HR : flog s = e_log E).
  rewrite (la_dev _ _ _ _ _ Hla), (la_start _ _ _ _ _ Hla), u32_small by lia.
  wp_step. eapply wp_bread; [done|unfold in_range; lia|apply not_held_empty|right; by rewrite map_size_empty; unfold NBUF; cbn; lia|]. intros b s1 _ H1.
  wp_step. eapply wp_buf_data; [done|by rewrite lookup_insert_eq|]. wp_step. eapply wp_upd_log; [done|]. intros s2 H2. wp_step.
  apply wp_gets. rewrite (rep_flog _ _ _ _ _ H2). cbn [e_log env_set_log set_lh_n set_lg_lh lg_lh lh_n].
  rewrite (dec_n _ _ Hdec), i32_small, Nat2Z.id by (rewrite pow2_31; lia). wp_step.
  set (bl := lh_block (lg_lh (e_log E))). set (n := Z.of_nat (length B)).
  apply (wp_for_range (fun i s' => rep s' V (<[b := (st, true)]> ∅) [] (env_set_log (with_blocks (e_log E) (take i B ++ drop i bl) n) E))).
  - cbn [take app]. rewrite drop_0. unfold with_blocks, n. rewrite (dec_n _ _ Hdec), i32_small in H2 by (rewrite pow2_31; lia). exact H2.
  - intros i s3 [_ Hi] H3. cbn in Hi. destruct (lookup_lt_is_Some_2 B i Hi) as [v Hv].
    destruct (lookup_lt_is_Some_2 bl i) as [o Ho]; [unfold bl; lia|].
    assert (i32 v = v) as Hv32.
    { destruct (lo_home _ _ _ _ Hlo v) as [[? ?] _]; [by eapply list_elem_of_lookup_2|]. apply i32_small. lia. }
    rewrite (dec_block _ _ Hdec _ _ Hv), Hv32.
    eapply wp_set_lh; [done| |].
    { cbn. fold bl. rewrite length_app, length_take, length_drop. unfold bl. lia. }
    intros s4. cbn [e_log env_set_log with_blocks set_lg_lh lg_lh lh_block lh_n].
    rewrite (insert_app_drop _ _ _ o), <- (take_S_r _ _ _ Hv) by (rewrite ?length_take; done || lia). done.
  - intros s3. cbn [Nat.add]. rewrite firstn_all. intros H3. eapply wp_brelse; [done|by rewrite lookup_insert_eq|].
    intros s4. rewrite delete_insert_id by done. intros H4. eapply HQ; [exact H4| |done|done].
    destruct Hla, Hlo. split; try done; cbn.
    + rewrite length_app, length_drop. unfold bl. lia.
    + apply take_app_length.
Qed.

Definition recover_writes st (V : Z -> block) B : list (Z * block) :=
  home_writes st V B ++ [(st, header (V st) [])].

Lemma wp_recover s V E st sz B (Q : unit -> fsys -> Prop) :
  rep s V ∅ [] E -> log_at (e_log E) (e_size E) st sz [] -> loggable (e_size E) st sz B -> decodes (V st) B ->
  (forall s' l, let ws := recover_writes st V B in
     rep s' (vsets V ws) ∅ [] (wrote (env_set_log l E) ws) -> log_at l (e_size E) st sz [] ->
     lg_outstanding l = lg_outstanding (e_log E) -> lg_committing l = lg_committing (e_log E) -> Q tt s') ->
  wp recover_from_log Q s.
Proof.
  intros HR Hla Hlo Hdec HQ. unfold recover_from_log. wp_step. eapply wp_read_head; [done..|].
  intros s1 l H1 Hla1 Ho Hc. wp_step. eapply wp_install_trans; [done|done|by right|]. intros s2. cbv zeta. intros H2.
  wp_step. eapply wp_upd_log; [done|]. intros s3 H3.
  eapply wp_write_head; [done|by eapply log_at_clear|cbn; unfold NBUF; lia|set_solver|]. intros s4. cbv zeta.
  assert (st ∉ B) as Hst by (intros [_ Hn]%(lo_home _ _ _ _ Hlo); apply Hn; pose proof (lo_region _ _ _ _ Hlo); lia).
  rewrite (vsets_notin _ _ st) by (by rewrite home_writes_fst). intros H4.
  eapply (HQ _ (set_lh_n 0 l)); [|by eapply log_at_clear|done|done].
  unfold recover_writes. rewrite vsets_snoc, <- wrote_app. exact H4.
Qed.
End LogInv.
