(* ===== verification/LogTx.v ===== *)
(** * Transactions

    The laws of [begin_op], [log_write] and [end_op], and [tx], the view the
    code of [fs.c] has of the disk inside a transaction. *)
From Stdlib Require Import ZArith Lia Bool.
From stdpp Require Import base numbers list strings gmap.
From S2P Require Import Prelude Machine FsState Bio BioInv Log LogInv.

Lemma env_of_log s l E : env_of s = env_set_log l E <->
  fpid s = e_pid E /\ disksize s = e_size E /\ disk s = e_disk E /\ dtrace s = e_trace E /\ fsb s = e_sb E /\
  flog s = l /\ icache s = e_icache E /\ ftable s = e_ftable E.
Proof.
  unfold env_of, env_set_log. split; [intros H; by injection H as -> -> -> -> -> -> -> ->|].
  by intros (-> & -> & -> & -> & -> & -> & -> & ->).
Qed.

Section LogTx.
Context {I : FsImage} {W : Wakeups}.
Implicit Types (s : fsys) (L : holds) (P : list Z).

(** [env_eq H]: the state described by [H] has not changed outside the log. *)
Ltac env_eq H :=
  let HE := fresh in pose proof (rep_env _ _ _ _ _ H) as HE;
  lazymatch type of HE with _ = env_set_log ?l ?E =>
    apply (env_of_log _ l E) in HE as (? & ? & ? & ? & ? & ? & ? & ?)
  end;
  apply env_of_log; cbn in *; repeat split; try congruence; f_equal; congruence.

(** The search for a block in the log. *)
Lemma wp_log_search s P b size st sz (Q : option nat -> fsys -> Prop) :
  log_at (flog s) size st sz P ->
  (forall k, P !! k = Some b -> Q (Some k) s) -> (b ∉ P -> Q None s) ->
  wp (for_find (length P) 0 (fun k => v <- get_lh k ;; ret (if u32 v =? b then Some k else None))) Q s.
Proof.
  intros Hla HS HN. apply (wp_for_find (fun i s' => s' = s /\ b ∉ take i P)).
  - split; [done|]. set_solver.
  - intros i s' [_ Hi] [-> Hno]. cbn in Hi. destruct (lookup_lt_is_Some_2 P i Hi) as [v Hv].
    wp_step. eapply wp_get_lh; [by eapply log_at_lookup|]. wp_step.
    destruct (home_small _ _ _ _ _ _ Hla (list_elem_of_lookup_2 _ _ _ Hv)) as (_ & -> & _).
    destruct (Z.eqb_spec v b) as [->|Hne]; [by apply HS|]. split; [done|].
    rewrite (take_S_r _ _ _ Hv), elem_of_app, list_elem_of_singleton. intros [?| ->]; done.
  - cbn. intros s' [-> Hno]. apply HN. by rewrite firstn_all in Hno.
Qed.

Lemma log_at_pin l size st sz P b k : log_at l size st sz P -> in_range size b -> ~ (st <= b < st + sz) ->
  Z.of_nat (length P) + 1 < sz -> Z.of_nat (length P) + 1 < LOGSIZE ->
  P !! k = Some b \/ b ∉ P /\ k = length P ->
  log_at (set_lg_lh (mk_lh (if (k =? length P)%nat then lh_n (lg_lh l) + 1 else lh_n (lg_lh l)) (<[k := b]> (lh_block (lg_lh l)))) l)
    size st sz (pin b P).
Proof.
  intros [H1 H2 H3 H4 H5 H6 H7 H8 H9 H10] Hb Hnr Hs1 Hs2 Hk. unfold pin. destruct Hk as [Hk|[Hn ->]].
  - pose proof (lookup_lt_Some _ _ _ Hk) as Hlt.
    rewrite (proj2 (Nat.eqb_neq _ _)) by lia. rewrite decide_True by (by eapply list_elem_of_lookup_2).
    rewrite list_insert_id; [by split|]. rewrite <- H7 in Hk. by apply lookup_take_Some in Hk as [? _].
  - rewrite Nat.eqb_refl, decide_False by done. split; cbn; try done.
    + by rewrite length_insert.
    + rewrite H6, length_app. cbn. lia.
    + rewrite length_app, Nat.add_1_r. cbn [length]. rewrite (take_S_r _ _ b).
      * by rewrite take_insert_ge, H7 by lia.
      * change (Z.to_nat LOGSIZE) with 30%nat in H5. unfold LOGSIZE in Hs2. apply list_lookup_insert_eq. lia.
    + rewrite length_app. cbn. lia.
    + apply NoDup_app. split; [done|]. split; [set_solver|apply NoDup_singleton].
    + intros x [Hx| ->%list_elem_of_singleton]%elem_of_app; [by apply H10|done].
Qed.

(** [log_write] pins the block and records it in the log. *)
Lemma wp_log_write s V L P E i b c st sz (Q : unit -> fsys -> Prop) :
  rep s V L P E -> L !! i = Some (b, c) -> log_at (e_log E) (e_size E) st sz P -> ~ (st <= b < st + sz) ->
  Z.of_nat (length P) + 1 < sz -> Z.of_nat (length P) + 1 < LOGSIZE -> 1 <= lg_outstanding (e_log E) ->
  (forall s' l, rep s' V (<[i := (b, true)]> L) (pin b P) (env_set_log l E) -> log_at l (e_size E) st sz (pin b P) ->
     lg_outstanding l = lg_outstanding (e_log E) -> lg_committing l = lg_committing (e_log E) -> Q tt s') ->
  wp (log_write i) Q s.
Proof.
  intros HR HL Hla Hnr Hs1 Hs2 Hout HQ. pose proof (rep_flog _ _ _ _ _ HR) as Hlg. pose proof (rep_env _ _ _ _ _ HR) as HE.
  destruct (rep_holding _ _ _ _ _ _ _ _ HR HL) as (x & Hx & Hd & Hb & _ & _ & _ & Hin & _). pose proof (rep_locks _ _ _ _ _ HR) as Hlocks.
  assert (in_range (e_size E) b) as HinE by (by rewrite <- HE).
  pose proof (la_n _ _ _ _ _ Hla) as Hn. unfold log_write. wp_step. apply wp_gets. rewrite Hlg, (la_size _ _ _ _ _ Hla), Hn.
  rewrite (proj2 (Z.leb_gt LOGSIZE _)), (proj2 (Z.leb_gt (sz - 1) _)) by lia. cbn [orb].
  rewrite (proj2 (Z.ltb_ge _ 1)) by lia. wp_step. apply wp_fs_acquire; [rewrite Hlocks; set_solver|]. rewrite Hlocks.
  wp_step. apply (wp_get_buf _ _ x); [done|]. unfold get_lh_n. wp_step. apply wp_gets. cbn [flog set_held]. rewrite Hlg, Hn, Nat2Z.id, Hb.
  assert (i32 b = b) as Hb32. { apply i32_small. unfold in_range in HinE. destruct (la_region _ _ _ _ _ Hla) as (? & ? & ? & ?). lia. }
  assert (forall k, P !! k = Some b \/ b ∉ P /\ k = length P ->
    wp (set_lh k (i32 b) ;;; when (Z.of_nat k =? Z.of_nat (length P)) (upd_log (set_lh_n (Z.of_nat (length P) + 1))) ;;;
        upd_buf i (fun b => set_b_flags (Z.lor (b_flags b) B_DIRTY) b) ;;; fs_release LogLock) Q (set_held [LogLock] s)) as Hrest.
  { intros k Hk. pose proof (log_at_pin _ _ _ _ _ _ _ Hla HinE Hnr Hs1 Hs2 Hk) as Hla'.
    assert (k < 30)%nat as Hk30.
    { unfold LOGSIZE in Hs2. destruct Hk as [?%lookup_lt_Some|[_ ->]]; lia. }
    wp_step. apply wp_set_lh_raw; [cbn [flog set_held]; by rewrite Hlg, (la_cap _ _ _ _ _ Hla)|]. wp_step.
    replace (Z.of_nat k =? Z.of_nat (length P)) with (k =? length P)%nat
      by (destruct (Nat.eqb_spec k (length P)), (Z.eqb_spec (Z.of_nat k) (Z.of_nat (length P))); lia).
    rewrite Hn, Hb32 in *. unfold upd_log. apply wp_when; intros Hkp; wp_steps; (eapply wp_upd_buf; [exact Hx|]); (apply wp_fs_release; [done|]);
      rewrite Hkp in Hla'; (eapply HQ; [|exact Hla'|done|done]); (eapply rep_pinned; [exact HR|done|exact Hx| |done..]);
      rewrite <- HE; unfold env_of, env_set_log; cbn; by rewrite Hlg, ?Hn, <- HE. }
  wp_step. apply (wp_log_search _ P b (e_size E) st sz); [by cbn; rewrite Hlg| |].
  - intros k Hk. apply Hrest. by left.
  - intros Hno. apply Hrest. by right.
Qed.

(** ** The view of a file-system operation

    [tx o s V L k E]: [o] operations are under way, the calling one sees the
    blocks [V] and holds the buffers [L]; at least [k] more blocks can be
    logged.  The log's own component of [E] is not looked at. *)
Definition lstart (E : fenv) : Z := sb_logstart (e_sb E).
Definition lsize (E : fenv) : Z := sb_nlog (e_sb E).

Record txl (o : Z) (l : log_t) (P : list Z) (k : nat) (E : fenv) : Prop := {
  txl_log : log_at l (e_size E) (lstart E) (lsize E) P;
  txl_out : lg_outstanding l = o;
  txl_idle : lg_committing l = false;
  txl_bufs : (length P + k + 2 <= NBUF)%nat;
  txl_room : Z.of_nat (length P + k) < lsize E;
  txl_super : 1 ∉ P;
}.
Definition tx (o : Z) (s : fsys) (V : Z -> block) (L : holds) (k : nat) (E : fenv) : Prop :=
  exists P l, rep s V L P (env_set_log l E) /\ txl o l P k E.

(** A block that is not part of the log, and one that operations may change. *)
Definition home (E : fenv) (b : Z) : Prop := in_range (e_size E) b /\ ~ (lstart E <= b < lstart E + lsize E).
Definition may_log (E : fenv) (b : Z) : Prop := home E b /\ b <> 1.

#[global] Instance tx_proper o s : Proper (pointwise_relation Z eq ==> eq ==> eq ==> eq ==> iff) (tx o s).
Proof.
  intros V V' HV L _ <- k _ <- E _ <-. unfold tx. by setoid_rewrite HV.
Qed.

Lemma tx_weaken o s V L k k' E : tx o s V L k E -> (k' <= k)%nat -> tx o s V L k' E.
Proof. intros (P & l & HR & []) Hk. exists P, l. split; [done|]. split; (done || lia). Qed.

Lemma tx_bread o s V L k E b (Q : nat -> fsys -> Prop) :
  tx o s V L k E -> in_range (e_size E) b -> not_held L b -> (size L <= 1)%nat ->
  (forall i s', L !! i = None -> tx o s' V (<[i := (b, true)]> L) k E -> Q i s') -> wp (bread 1 b) Q s.
Proof.
  intros (P & l & HR & Ht) Hb Hn HL HQ. eapply wp_bread; [done..| |].
  - right. pose proof (txl_bufs _ _ _ _ _ Ht). unfold NBUF in *. lia.
  - intros i s' Hi H'. apply HQ; [done|]. by exists P, l.
Qed.

Lemma tx_buf_data o s V L k E i b c (Q : block -> fsys -> Prop) :
  tx o s V L k E -> L !! i = Some (b, c) -> Q (V b) s -> wp (buf_data i) Q s.
Proof. intros (P & l & HR & Ht). by eapply wp_buf_data. Qed.

Lemma tx_set_buf_data o s V L k E i b c d (Q : unit -> fsys -> Prop) :
  tx o s V L k E -> L !! i = Some (b, c) -> length d = BSIZE ->
  (forall s', tx o s' (vset V b d) (<[i := (b, false)]> L) k E -> Q tt s') -> wp (set_buf_data i d) Q s.
Proof.
  intros (P & l & HR & Ht) HL Hd HQ. eapply wp_set_buf_data; [done..|]. intros s' H'. apply HQ. by exists P, l.
Qed.

Lemma tx_brelse o s V L k E i b (Q : unit -> fsys -> Prop) :
  tx o s V L k E -> L !! i = Some (b, true) -> (forall s', tx o s' V (delete i L) k E -> Q tt s') -> wp (brelse i) Q s.
Proof. intros (P & l & HR & Ht) HL HQ. eapply wp_brelse; [done..|]. intros s' H'. apply HQ. by exists P, l. Qed.

Lemma tx_log_write o s V L k E i b c (Q : unit -> fsys -> Prop) :
  tx o s V L (S k) E -> L !! i = Some (b, c) -> may_log E b -> 1 <= o ->
  (forall s', tx o s' V (<[i := (b, true)]> L) k E -> Q tt s') -> wp (log_write i) Q s.
Proof.
  intros (P & l & HR & [Hl Ho Hi Hb Hr Hs]) HL [[_ Hh] Hb1] Ho1 HQ.
  assert (length (pin b P) <= length P + 1)%nat as Hpin.
  { unfold pin. case_decide; [lia|]. rewrite length_app. cbn. lia. }
  eapply wp_log_write; [done|done|exact Hl|done|lia|unfold LOGSIZE, NBUF in *; lia|cbn; lia|].
  intros s' l' HR' Hl' Ho' Hi'. apply HQ. exists (pin b P), l'. split; [done|]. cbn in Ho', Hi'. split; try done; try congruence; try lia.
  rewrite elem_of_pin. intros [?|?]; congruence.
Qed.

(** Changing a buffer and logging it. *)
Lemma tx_len o s V L k E b : tx o s V L k E -> in_range (e_size E) b -> length (V b) = BSIZE.
Proof.
  intros (P & l & HR & _) Hb. apply (rep_len _ _ _ _ _ HR).
  pose proof (f_equal e_size (rep_env _ _ _ _ _ HR)) as Hs. cbn in Hs. by rewrite Hs.
Qed.


(** ** Between operations *)
Definition quiet (s : fsys) (V : Z -> block) (E : fenv) : Prop :=
  exists l, rep s V ∅ [] (env_set_log l E) /\ txl 0 l [] 0 E.

Lemma quiet_disk s V E b : quiet s V E -> in_range (e_size E) b -> V b = e_disk E b.
Proof.
  intros (l & HR & _) Hb. pose proof (rep_env _ _ _ _ _ HR) as HE.
  pose proof (f_equal e_disk HE) as Hd. pose proof (f_equal e_size HE) as Hs. cbn in Hd, Hs. rewrite <- Hd.
  apply (rep_disk _ _ _ _ _ HR); [by rewrite Hs|set_solver|done].
Qed.

Lemma quiet_tx s V E k : quiet s V E -> (k + 2 <= NBUF)%nat -> Z.of_nat k < lsize E -> tx 0 s V ∅ k E.
Proof. intros (l & HR & []) Hk1 Hk2. exists [], l. split; [done|]. by split. Qed.

(** A step on the state that leaves the cache alone. *)
Lemma rep_other s s' V L P E E' : rep s V L P E -> env_of s' = E' -> bufs s' = bufs s -> lru s' = lru s -> held s' = [] ->
  disk s' = disk s -> disksize s' = disksize s -> rep s' V L P E'.
Proof. intros [] HE Hb Hl Hh Hd Hs. split; rewrite ?Hb, ?Hl, ?Hd, ?Hs; done. Qed.

Lemma wp_begin_op s V k E (Q : unit -> fsys -> Prop) :
  quiet s V E -> (k + 2 <= NBUF)%nat -> Z.of_nat k < lsize E ->
  (forall s', tx 1 s' V ∅ k E -> Q tt s') -> wp begin_op Q s.
Proof.
  intros (l & HR & [Hl Ho Hi _ _ _]) Hk1 Hk2 HQ. pose proof (rep_flog _ _ _ _ _ HR) as Hlg. pose proof (rep_locks _ _ _ _ _ HR) as Hh.
  unfold begin_op. wp_step. apply wp_fs_acquire; [rewrite Hh; set_solver|]. rewrite Hh.
  assert (forall n, wp (begin_op_loop n) Q (set_held [LogLock] s)) as Hloop; [|apply Hloop].
  intros n. destruct n; cbn [begin_op_loop]; wp_step; apply wp_gets; cbn [flog set_held]; rewrite Hlg; cbn [e_log env_set_log];
    rewrite Hi, Ho, (la_n _ _ _ _ _ Hl); cbn [length]; change (LOGSIZE <? _) with false; cbn [orb]; unfold upd_log; wp_steps;
    (apply wp_fs_release; [done|]); apply HQ; exists [], (set_lg_outstanding 1 l);
    (split; [eapply rep_other; [exact HR| |done..]; env_eq HR
            |destruct Hl; split; done || set_solver]).
Qed.

(** What committing the blocks [P] writes. *)
Definition txn_writes st (V : Z -> block) (P : list Z) : list (Z * block) :=
  match P with [] => [] | _ => commit_writes st V P end.

Lemma quiet_intro s V l E : rep s V ∅ [] (env_set_log l E) -> log_at l (e_size E) (lstart E) (lsize E) [] ->
  lg_outstanding l = 0 -> lg_committing l = false -> quiet s V E.
Proof. intros HR Hl Ho Hi. exists l. split; [done|]. split; try done; [cbn; unfold NBUF; lia|cbn; apply Hl|set_solver]. Qed.

Lemma log_at_flags l l' size st sz B : log_at l size st sz B -> lg_dev l' = lg_dev l -> lg_start l' = lg_start l ->
  lg_size l' = lg_size l -> lg_lh l' = lg_lh l -> log_at l' size st sz B.
Proof. intros [] H1 H2 H3 H4. split; by rewrite ?H1, ?H2, ?H3, ?H4. Qed.

(** The commit at the end of the last operation. *)
Lemma wp_end_commit s V P l E (Q : unit -> fsys -> Prop) :
  rep s V ∅ P (env_set_log l E) -> log_at l (e_size E) (lstart E) (lsize E) P -> lg_outstanding l = 0 ->
  (forall s', let ws := txn_writes (lstart E) V P in quiet s' (vsets V ws) (wrote E ws) -> Q tt s') ->
  wp (commit ;;; fs_acquire LogLock ;;; upd_log (set_lg_committing false) ;;; fs_wakeup log_addr ;;; fs_release LogLock) Q s.
Proof.
  intros HR Hl Ho HQ. wp_step.
  eapply (wp_mono _ (fun _ s1 => exists l1, let ws := txn_writes (lstart E) V P in rep s1 (vsets V ws) ∅ [] (env_set_log l1 (wrote E ws)) /\
    log_at l1 (e_size E) (lstart E) (lsize E) [] /\ lg_outstanding l1 = 0)).
  - destruct P as [|b P].
    + unfold commit, get_lh_n. wp_step. apply wp_gets. rewrite (rep_flog _ _ _ _ _ HR). cbn [e_log env_set_log].
      rewrite (la_n _ _ _ _ _ Hl). cbn [length]. apply wp_ret. exists l. cbn. by rewrite wrote_nil.
    + eapply wp_commit; [exact HR|exact Hl|done|]. intros s1. cbv zeta. intros H1.
      exists (set_lh_n 0 l). cbv zeta. split; [exact H1|]. split; [by eapply log_at_clear|done].
  - intros [] s1 (l1 & H1 & Hl1 & Ho1). pose proof (rep_locks _ _ _ _ _ H1) as Hh.
    wp_step. apply wp_fs_acquire; [rewrite Hh; set_solver|]. rewrite Hh. unfold upd_log, fs_wakeup. wp_steps.
    apply wp_fs_release; [done|]. apply HQ. eapply (quiet_intro _ _ (set_lg_committing false l1)); [|by eapply log_at_flags|done|done].
    eapply rep_other; [exact H1| |done..]. env_eq H1.
Qed.

Lemma wp_end_op s V P l k E (Q : unit -> fsys -> Prop) :
  rep s V ∅ P (env_set_log l E) -> txl 1 l P k E ->
  (forall s', let ws := txn_writes (lstart E) V P in quiet s' (vsets V ws) (wrote E ws) -> Q tt s') -> wp end_op Q s.
Proof.
  intros HR [Hl Ho Hi Hb Hr Hs] HQ. pose proof (rep_locks _ _ _ _ _ HR) as Hh. unfold end_op.
  wp_step. apply wp_fs_acquire; [rewrite Hh; set_solver|]. rewrite Hh. wp_step. unfold upd_log at 1. wp_step.
  wp_step. apply wp_gets. cbn [flog set_flog set_held set_lg_outstanding lg_committing lg_outstanding].
  rewrite (rep_flog _ _ _ _ _ HR). cbn [e_log env_set_log]. rewrite Hi, Ho. change (1 - 1 =? 0) with true. cbv zeta iota.
  wp_step. unfold upd_log at 1. wp_step. wp_step. apply wp_fs_release; [done|]. cbn [when].
  eapply (wp_end_commit _ V P (set_lg_committing true (set_lg_outstanding 0 l))); [|by eapply log_at_flags|done|exact HQ].
  eapply rep_other; [exact HR| |done..]. env_eq HR.
Qed.
End LogTx.
