(* ===== verification/LogCrash.v ===== *)
(** * Crashes

    A transaction is atomic with respect to crashes: whatever prefix of the
    writes of [end_op] reached the disk, and however often the machine stops
    again while it recovers, the file system that is finally mounted shows
    either the blocks from before the transaction or those from after it. *)
From Stdlib Require Import ZArith Lia Bool.
From stdpp Require Import base numbers list strings gmap.
From S2P Require Import Prelude Machine FsState Bio BioInv Log LogInv LogTx.

(** The machine after power-on, with the disk it finds. *)
Definition zero_buf : buf := mk_buf 0 0 0 (mk_slock false 0) 0 (replicate BSIZE 0).
Definition zero_log : log_t := mk_log 0 0 0 false 0 (mk_lh 0 (replicate 30 0)).
Definition zero_sb : superblock := mk_sb 0 0 0 0 0 0 0.
Definition zero_inode : inode := mk_inode 0 0 0 (mk_slock false 0) false 0 0 0 0 0 (replicate 13 0).
Definition zero_file : file := mk_file FD_NONE 0 false false 0 0 0.
Definition zero_console : console := mk_console (replicate 128 0) 0 0 0 false false (fun _ => 0) 0 0 false [] 0 [] [].
Definition power_on (size : Z) (D : Z -> block) : fsys :=
  mk_fsys [] [] 1 (replicate NBUF zero_buf) [] D size [] zero_sb zero_log
    (replicate NINODE zero_inode) (replicate NFILE zero_file) false zero_console.

Section Crash.
Context {I : FsImage} {W : Wakeups}.

(** [binit] at boot, [iinit] and [initlog] when the first process runs. *)
Definition mount : FS unit := binit ;;; iinit ROOTDEV ;;; initlog ROOTDEV.

Definition disk_ok (size : Z) (D : Z -> block) : Prop := forall b, in_range size b -> length (D b) = BSIZE.

Lemma wp_binit size D (Q : unit -> fsys -> Prop) : disk_ok size D ->
  (forall s', rep s' D ∅ [] (env_of (power_on size D)) -> Q tt s') -> wp binit Q (power_on size D).
Proof.
  intros Hlen HQ. unfold binit. wp_steps.
  apply (wp_for_range (fun i s => s = set_lru (reverse (seq 0 i)) (power_on size D))); [done| |].
  - intros i s [_ Hi] ->. cbn in Hi. wp_step. unfold initsleeplock, put_buf_lock.
    apply (wp_upd_buf _ _ zero_buf); [by apply lookup_replicate_2|]. wp_step. rewrite seq_S, reverse_snoc.
    cbn [set_lru set_bufs lru bufs power_on]. unfold set_lru, set_bufs; cbn [lru bufs held wakes fpid disk disksize dtrace fsb flog icache ftable fkilled fcons].
    f_equal. change (set_b_lock _ zero_buf) with zero_buf. apply list_insert_id. by apply lookup_replicate_2.
  - intros s ->. apply HQ. split; cbn -[replicate seq NBUF].
    + done.
    + done.
    + apply length_replicate.
    + apply reverse_Permutation.
    + intros i x [-> _]%lookup_replicate. split; cbn -[replicate]; [apply length_replicate|by left|done|done|done].
    + intros i j x y [-> _]%lookup_replicate. done.
    + apply NoDup_nil_2.
    + set_solver.
    + intros i [? Hi]. by rewrite lookup_empty in Hi.
    + intros b Hb. auto.
    + done.
Qed.

Lemma wp_readsb s V E (Q : superblock -> fsys -> Prop) :
  rep s V ∅ [] E -> in_range (e_size E) 1 -> (forall s', rep s' V ∅ [] E -> Q (decode_sb (V 1)) s') -> wp (readsb 1) Q s.
Proof.
  intros HR H1 HQ. unfold readsb. wp_step. eapply wp_bread; [done..|apply not_held_empty|right; rewrite map_size_empty; unfold NBUF; cbn; lia|].
  intros i s1 _ HR1. wp_step. eapply wp_buf_data; [done|by rewrite lookup_insert_eq|].
  wp_step. eapply wp_brelse; [done|by rewrite lookup_insert_eq|]. intros s2. rewrite delete_insert_id by done. intros HR2.
  wp_step. by apply HQ.
Qed.

Lemma wp_iinit s V E (Q : unit -> fsys -> Prop) :
  rep s V ∅ [] E -> e_icache E = replicate NINODE zero_inode -> in_range (e_size E) 1 ->
  (forall s', rep s' V ∅ [] (env_set_sb (decode_sb (V 1)) E) -> Q tt s') -> wp (iinit 1) Q s.
Proof.
  intros HR Hic H1 HQ. unfold iinit. wp_step.
  apply (wp_for_range (fun _ s' => rep s' V ∅ [] E)); [done| |].
  - intros i s1 [_ Hi] HR1. unfold initsleeplock, put_inode_lock, wp, upd_inode.
    pose proof (f_equal e_icache (rep_env _ _ _ _ _ HR1)) as Hi1. cbn in Hi1. rewrite Hi1, Hic, lookup_replicate_2 by done.
    eapply rep_other; [exact HR1| |done|done|exact (rep_locks _ _ _ _ _ HR1)|done|done]. rewrite <- (rep_env _ _ _ _ _ HR1). unfold env_of. cbn -[replicate].
    rewrite Hi1, Hic. f_equal. change (set_i_lock _ zero_inode) with zero_inode. apply list_insert_id. by apply lookup_replicate_2.
  - intros s1 HR1. wp_step. eapply wp_readsb; [done..|]. intros s2 HR2. wp_step. apply HQ.
    eapply rep_other; [exact HR2| |done|done|exact (rep_locks _ _ _ _ _ HR2)|done|done]. by rewrite <- (rep_env _ _ _ _ _ HR2).
Qed.

Section Region.
Context (size st sz : Z) (D0 : Z -> block).
Hypothesis region : 2 <= st /\ 0 < sz /\ st + sz <= size /\ size < 2 ^ 31.
Hypothesis super : sb_logstart (decode_sb (D0 1)) = st /\ sb_nlog (decode_sb (D0 1)) = sz.

(** Recovering the disk [D] shows the blocks [X]. *)
Record recoverable (D X : Z -> block) (B : list Z) : Prop := {
  rc_ok : disk_ok size D;
  rc_super : D 1 = D0 1;
  rc_log : loggable size st sz B;
  rc_one : 1 ∉ B;
  rc_head : decodes (D st) B;
  rc_blocks : forall b, in_range size b -> ~ (st <= b < st + sz) -> vsets D (home_writes st D B) b = X b;
}.

Lemma wp_mount D X B (Q : unit -> fsys -> Prop) : recoverable D X B ->
  (forall s', let ws := recover_writes st D B in dtrace s' = ws -> disk s' = vsets D ws ->
     (forall b, in_range size b -> ~ (st <= b < st + sz) -> disk s' b = X b) ->
     quiet s' (vsets D ws) (wrote (env_set_sb (decode_sb (D0 1)) (env_of (power_on size D))) ws) -> Q tt s') ->
  wp mount Q (power_on size D).
Proof.
  intros Hrc HQ. unfold mount. wp_step. apply wp_binit; [apply Hrc|]. intros s0 H0.
  wp_step. eapply wp_iinit; [exact H0|done|unfold in_range; cbn; lia|]. intros s1 H1.
  unfold initlog. change (Z.of_nat BSIZE <=? 4 + 4 * LOGSIZE) with false. cbv iota.
  wp_step. eapply wp_readsb; [exact H1|unfold in_range; cbn; lia|]. intros s2 H2. rewrite (rc_super _ _ _ Hrc). rewrite (proj1 super), (proj2 super).
  rewrite !i32_small by lia. wp_step. eapply wp_upd_log; [exact H2|]. intros s3 H3.
  eapply (wp_recover _ _ _ st sz B); [exact H3| |apply Hrc|apply Hrc|].
  { split; cbn -[replicate]; try done; [lia|unfold LOGSIZE; lia|apply NoDup_nil_2|set_solver]. }
  intros s4 l. cbv zeta. intros H4 Hl Ho Hi. rewrite (rc_super _ _ _ Hrc) in H4. pose proof (rep_env _ _ _ _ _ H4) as HE.
  pose proof (f_equal e_disk HE) as Hdisk. pose proof (f_equal e_trace HE) as Htr. cbn in Hdisk, Htr.
  apply HQ; [done|done| |].
  - intros b Hb Hnr. rewrite Hdisk. unfold recover_writes. rewrite vsets_snoc, vset_ne by lia. by apply Hrc.
  - destruct super as [Hst Hsz]. apply (quiet_intro _ _ l); [exact H4| |done|done].
    unfold lstart, lsize. cbn -[decode_sb]. rewrite Hst, Hsz. exact Hl.
Qed.

Lemma disk_ok_vsets D ws : disk_ok size D -> Forall (fun w => length w.2 = BSIZE) ws -> disk_ok size (vsets D ws).
Proof.
  intros HD Hws. revert D HD. induction Hws as [|[b d] ws Hd _ IH]; intros D HD; [done|].
  apply (IH (vset D b d)). intros k Hk. unfold vset. destruct (k =? b); [done|by apply HD].
Qed.

Lemma home_writes_len D B : disk_ok size D -> loggable size st sz B -> Forall (fun w => length w.2 = BSIZE) (home_writes st D B).
Proof.
  intros HD Hlo. unfold home_writes. apply Forall_lookup. intros i [b d] Hi. rewrite list_lookup_imap in Hi.
  destruct (B !! i) as [b'|] eqn:Hb; [|done]. injection Hi as <- <-. cbn. apply HD. apply lookup_lt_Some in Hb.
  destruct (lo_fit _ _ _ _ Hlo). unfold in_range, slot. lia.
Qed.

Lemma header_len d B : loggable size st sz B -> length d = BSIZE -> length (header d B) = BSIZE.
Proof.
  intros Hlo Hd. unfold header. rewrite put_words_length; [done|]. destruct (lo_fit _ _ _ _ Hlo). unfold LOGSIZE in *.
  cbn [length]. rewrite Hd. unfold BSIZE. lia.
Qed.

Lemma loggable_nil B : loggable size st sz B -> loggable size st sz [].
Proof. intros []. split; [done|cbn; unfold LOGSIZE; lia|apply NoDup_nil_2|set_solver]. Qed.

Lemma not_logged D X B : recoverable D X B -> st ∉ B /\ (forall i, (i < length B)%nat -> slot st i ∉ B).
Proof.
  intros Hrc. pose proof (rc_log _ _ _ Hrc) as Hlo. destruct (lo_fit _ _ _ _ Hlo) as [? _].
  split; [intros [_ Hn]%(lo_home _ _ _ _ Hlo); lia|intros i Hi [_ Hn]%(lo_home _ _ _ _ Hlo); unfold slot in Hn; lia].
Qed.

(** Writing some of the home blocks, once more, changes nothing in the end. *)
Lemma vsets_twice D B k b : NoDup B -> (forall i, (i < length B)%nat -> slot st i ∉ B) ->
  let D' := vsets D (take k (home_writes st D B)) in
  vsets D' (home_writes st D' B) b = vsets D (home_writes st D B) b.
Proof.
  intros Hn Hs D'. assert (home_writes st D' B = home_writes st D B) as ->.
  { unfold home_writes. apply list_eq. intros i. rewrite !list_lookup_imap. destruct (B !! i) as [b'|] eqn:Hb; [|done]. cbn.
    unfold D'. rewrite vsets_notin; [done|]. rewrite fmap_take, home_writes_fst. intros (j & Hj & _)%elem_of_take.
    apply (Hs i); [exact (lookup_lt_Some _ _ _ Hb)|by eapply list_elem_of_lookup_2]. }
  destruct (decide (b ∈ B)) as [Hb|Hb].
  - apply list_elem_of_lookup_1 in Hb as [i Hi]. erewrite !vsets_lookup; [done| | | |];
      try (by rewrite home_writes_fst); unfold home_writes; by rewrite list_lookup_imap, Hi.
  - assert (b ∉ take k B) as Hbt by (intros (j & Hj & _)%elem_of_take; apply Hb; by eapply list_elem_of_lookup_2).
    unfold D'. by rewrite !vsets_notin by (by rewrite ?fmap_take, ?home_writes_fst).
Qed.

Lemma recover_prefix D X B k : recoverable D X B -> exists B', recoverable (vsets D (take k (recover_writes st D B))) X B'.
Proof.
  intros Hrc. destruct (not_logged _ _ _ Hrc) as [Hst Hsl]. destruct Hrc as [Hok Hsup Hlo H1 Hhead Hbl].
  assert (length (home_writes st D B) = length B) as Hlen by (unfold home_writes; apply length_imap).
  destruct (decide (k <= length B)%nat) as [Hk|Hk].
  - exists B. unfold recover_writes. rewrite take_app_le by lia.
    assert (forall b, b ∉ B -> vsets D (take k (home_writes st D B)) b = D b) as Hkeep.
    { intros b Hb. apply vsets_notin. rewrite fmap_take, home_writes_fst. intros (j & Hj & _)%elem_of_take.
      by apply Hb; eapply list_elem_of_lookup_2. }
    split; [|by rewrite Hkeep|done|done|by rewrite Hkeep|].
    + apply disk_ok_vsets; [done|]. apply Forall_take. by apply home_writes_len.
    + intros b Hb Hnr. rewrite vsets_twice; [by apply Hbl|apply Hlo|done].
  - exists []. unfold recover_writes. rewrite take_ge by (rewrite length_app; cbn; lia).
    assert (length (D st) = BSIZE) as Hld by (apply Hok; unfold in_range; lia).
    split; [|rewrite vsets_snoc, vset_ne, vsets_notin by (rewrite ?home_writes_fst; done || lia); done|by eapply loggable_nil|set_solver| |].
    + apply disk_ok_vsets; [done|]. apply Forall_app. split; [by apply home_writes_len|].
      apply Forall_singleton. apply header_len; [by eapply loggable_nil|done].
    + rewrite vsets_snoc, vset_eq. eapply decodes_header; [by eapply loggable_nil|done].
    + intros b Hb Hnr. cbn. change (vsets (vsets D (home_writes st D B ++ [(st, header (D st) [])])) [] b = X b). cbn.
      rewrite vsets_snoc, vset_ne by lia. by apply Hbl.
Qed.

Lemma vsets_take_notin D ws k b : b ∉ ws.*1 -> vsets D (take k ws) b = D b.
Proof.
  intros Hb. apply vsets_notin. rewrite fmap_take. intros (j & Hj & _)%elem_of_take. by apply Hb, (list_elem_of_lookup_2 _ j).
Qed.

Lemma log_writes_len V P : disk_ok size V -> loggable size st sz P -> Forall (fun w => length w.2 = BSIZE) (log_writes st V P).
Proof.
  intros HV Hlo. unfold log_writes. apply Forall_lookup. intros i [b d] Hi. rewrite list_lookup_imap in Hi.
  destruct (P !! i) as [b'|] eqn:Hb; [|done]. injection Hi as <- <-. cbn. apply HV.
  apply (lo_home _ _ _ _ Hlo). by eapply list_elem_of_lookup_2.
Qed.

Lemma log_writes_region V P b : loggable size st sz P -> ~ (st < b < st + sz) -> b ∉ (log_writes st V P).*1.
Proof.
  intros Hlo Hb. rewrite log_writes_fst. intros (i & -> & Hi)%list_elem_of_fmap. apply elem_of_seq in Hi.
  destruct (lo_fit _ _ _ _ Hlo). unfold slot in Hb. lia.
Qed.

(** The disk once the header has been written. *)
Definition logged (V : Z -> block) (P : list Z) : Z -> block :=
  vset (vsets D0 (log_writes st V P)) st (header (V st) P).

Lemma logged_slots V P i b : P !! i = Some b -> logged V P (slot st i) = V b.
Proof. intros Hb. unfold logged. rewrite vset_ne by (unfold slot; lia). by apply vsets_log_writes. Qed.

Lemma logged_recoverable V P : disk_ok size D0 -> disk_ok size V -> loggable size st sz P -> 1 ∉ P ->
  (forall b, in_range size b -> b ∉ P -> V b = D0 b) -> recoverable (logged V P) V P.
Proof.
  intros HD HV Hlo H1 Hsame. assert (length (V st) = BSIZE) as Hst by (apply HV; unfold in_range; lia).
  assert (forall b, b <> st -> ~ (st < b < st + sz) -> logged V P b = D0 b) as Hkeep.
  { intros b Hne Hb. unfold logged. rewrite vset_ne by done. apply vsets_notin. by apply log_writes_region. }
  split; [|apply Hkeep; lia|done|done| |].
  - unfold logged. rewrite <- vsets_snoc. apply disk_ok_vsets; [done|]. apply Forall_app. split; [by apply log_writes_len|].
    apply Forall_singleton. by apply header_len.
  - unfold logged. rewrite vset_eq. by eapply decodes_header.
  - intros b Hb Hnr. rewrite (home_writes_logged st V) by (intros; by apply logged_slots).
    destruct (decide (b ∈ P)) as [Hin|Hnin].
    + apply list_elem_of_lookup_1 in Hin as [i Hi]. apply (vsets_lookup _ _ i).
      * rewrite <- list_fmap_compose, list_fmap_id. apply Hlo.
      * by rewrite list_lookup_fmap, Hi.
    + rewrite vsets_notin by (by rewrite <- list_fmap_compose, list_fmap_id). rewrite Hkeep by lia. symmetry. by apply Hsame.
Qed.

(** What has been written when [end_op] is stopped. *)
Lemma commit_prefix V P k : disk_ok size D0 -> disk_ok size V -> loggable size st sz P -> 1 ∉ P -> decodes (D0 st) [] ->
  (forall b, in_range size b -> b ∉ P -> V b = D0 b) ->
  exists X B, (X = D0 \/ X = V) /\ recoverable (vsets D0 (take k (txn_writes st V P))) X B.
Proof.
  intros HD HV Hlo H1 Hclean Hsame.
  assert (forall D1, disk_ok size D1 -> D1 1 = D0 1 -> D1 st = D0 st ->
    (forall b, in_range size b -> ~ (st <= b < st + sz) -> D1 b = D0 b) -> recoverable D1 D0 []) as Hold.
  { intros D1 Hok Hs Hh Hb. split; [done|done|by eapply loggable_nil|set_solver|by rewrite Hh|done]. }
  destruct (decide (P = [])) as [->|Hne]; [exists D0, []; split; [by left|]; cbn [txn_writes]; rewrite take_nil; by apply Hold|].
  assert (txn_writes st V P = (log_writes st V P ++ [(st, header (V st) P)]) ++ recover_writes st (logged V P) P) as ->.
  { transitivity (commit_writes st V P); [by destruct P|]. unfold commit_writes, recover_writes.
    rewrite (home_writes_logged st V), <- !app_assoc by (intros; by apply logged_slots).
    unfold logged. by rewrite vset_eq. }
  assert (length (log_writes st V P) = length P) as Hlw by (unfold log_writes; apply length_imap).
  destruct (decide (k <= length P)%nat) as [Hk|Hk].
  - exists D0, []. split; [by left|]. rewrite <- app_assoc, take_app_le by lia. apply Hold.
    + apply disk_ok_vsets; [done|]. by apply Forall_take, log_writes_len.
    + apply vsets_take_notin, log_writes_region; [done|lia].
    + apply vsets_take_notin, log_writes_region; [done|lia].
    + intros b _ Hb. apply vsets_take_notin, log_writes_region; [done|lia].
  - destruct (recover_prefix (logged V P) V P (k - S (length P))) as [B HB]; [by apply logged_recoverable|].
    exists V, B. split; [by right|]. rewrite take_app_ge, vsets_app, vsets_snoc by (rewrite length_app; cbn; lia).
    rewrite length_app, Hlw. cbn [length]. by rewrite Nat.add_1_r.
Qed.
End Region.

Lemma tx_disks s V P l E : rep s V ∅ P (env_set_log l E) ->
  disk_ok (e_size E) (e_disk E) /\ disk_ok (e_size E) V /\ forall b, in_range (e_size E) b -> b ∉ P -> V b = e_disk E b.
Proof.
  intros HR. pose proof (f_equal e_size (rep_env _ _ _ _ _ HR)) as Hs. pose proof (f_equal e_disk (rep_env _ _ _ _ _ HR)) as Hd.
  cbn in Hs, Hd. rewrite <- Hs, <- Hd. split_and!.
  - intros b Hb. by apply (rep_len _ _ _ _ _ HR).
  - intros b Hb. by apply (rep_len _ _ _ _ _ HR).
  - intros b Hb HP. by apply (rep_disk _ _ _ _ _ HR).
Qed.

Lemma quiet_env s V E : quiet s V E -> held s = [] /\ disk s = e_disk E /\ dtrace s = e_trace E.
Proof.
  intros (l & HR & _). pose proof (rep_env _ _ _ _ _ HR) as HE. split; [by eapply rep_locks|].
  split; [exact (f_equal e_disk HE)|exact (f_equal e_trace HE)].
Qed.

(** All writes of [end_op] together leave the transaction's blocks. *)
Lemma commit_installs size st sz D V P b : loggable size st sz P -> (forall b, in_range size b -> b ∉ P -> V b = D b) ->
  in_range size b -> ~ (st <= b < st + sz) -> vsets D (txn_writes st V P) b = V b.
Proof.
  intros Hlo Hsame Hb Hnr. destruct (decide (P = [])) as [->|Hne]; [symmetry; apply Hsame; [done|set_solver]|].
  transitivity (vsets D (commit_writes st V P) b); [by destruct P|]. unfold commit_writes. cbv zeta.
  pose proof (lo_region _ _ _ _ Hlo).
  rewrite !vsets_app. change (vsets ?D [(st, ?h)]) with (vset D st h). rewrite vset_ne by lia.
  destruct (decide (b ∈ P)) as [Hin|Hnin].
  - apply list_elem_of_lookup_1 in Hin as [i Hi]. apply (vsets_lookup _ _ i).
    + rewrite <- list_fmap_compose, list_fmap_id. apply Hlo.
    + by rewrite list_lookup_fmap, Hi.
  - rewrite vsets_notin by (by rewrite <- list_fmap_compose, list_fmap_id). change (vset (vsets D (log_writes st V P)) st (header (V st) P) b = V b).
    rewrite vset_ne by lia. rewrite vsets_notin; [symmetry; by apply Hsame|]. eapply log_writes_region; [done|lia].
Qed.

(** Where the disk may be left: some of the writes [ws] of a run of [end_op]
    have reached the disk [D0]; or the machine was started again and stopped
    while it was mounting, with some of the writes of that run done. *)
Inductive crashes (size : Z) (D0 : Z -> block) (ws : list (Z * block)) : (Z -> block) -> Prop :=
| crash_in_end_op k : crashes size D0 ws (vsets D0 (take k ws))
| crash_in_mount D s k : crashes size D0 ws D -> mount (power_on size D) = Ok tt s ->
    crashes size D0 ws (vsets D (take k (dtrace s))).

Lemma wp_ok_unit (m : FS unit) (Q : fsys -> Prop) s : wp m (fun _ => Q) s -> exists s', m s = Ok tt s' /\ Q s'.
Proof. intros H. destruct (proj1 (wp_ok _ _ _) H) as ([] & s' & Hrun & HQ). eauto. Qed.

Lemma mount_shows size st sz D0 D X B :
  2 <= st /\ 0 < sz /\ st + sz <= size /\ size < 2 ^ 31 ->
  sb_logstart (decode_sb (D0 1)) = st /\ sb_nlog (decode_sb (D0 1)) = sz ->
  recoverable size st sz D0 D X B -> exists s, mount (power_on size D) = Ok tt s /\
    forall b, in_range size b -> ~ (st <= b < st + sz) -> disk s b = X b.
Proof.
  intros Hreg Hsup Hrc. apply wp_ok_unit. apply (wp_mount size st sz D0 Hreg Hsup D X B); [exact Hrc|].
  intros s' ws _ _ Hb _. exact Hb.
Qed.

Lemma mount_trace size st sz D0 D X B s :
  2 <= st /\ 0 < sz /\ st + sz <= size /\ size < 2 ^ 31 ->
  sb_logstart (decode_sb (D0 1)) = st /\ sb_nlog (decode_sb (D0 1)) = sz ->
  recoverable size st sz D0 D X B -> mount (power_on size D) = Ok tt s -> dtrace s = recover_writes st D B.
Proof.
  intros Hreg Hsup Hrc. set (m := mount). assert (wp m (fun _ s => dtrace s = recover_writes st D B) (power_on size D)) as Hm.
  { apply (wp_mount size st sz D0 Hreg Hsup D X B); [exact Hrc|]. intros s' ws Htr _ _ _. exact Htr. }
  clearbody m. intros Hrun. exact (wp_elim _ _ _ _ _ Hm Hrun).
Qed.

Lemma crashes_recoverable size st sz D0 V P D :
  2 <= st /\ 0 < sz /\ st + sz <= size /\ size < 2 ^ 31 ->
  sb_logstart (decode_sb (D0 1)) = st /\ sb_nlog (decode_sb (D0 1)) = sz ->
  disk_ok size D0 -> disk_ok size V -> loggable size st sz P -> 1 ∉ P -> decodes (D0 st) [] ->
  (forall b, in_range size b -> b ∉ P -> V b = D0 b) ->
  crashes size D0 (txn_writes st V P) D -> exists X B, (X = D0 \/ X = V) /\ recoverable size st sz D0 D X B.
Proof.
  intros Hreg Hsup HD HV Hlo H1 Hcl Hs HC. induction HC as [k|D s k HC (X & B & HX & IH) Hrun].
  - by apply commit_prefix.
  - rewrite (mount_trace _ _ _ _ _ _ _ _ Hreg Hsup IH Hrun).
    destruct (recover_prefix size st sz D0 Hreg Hsup D X B k IH) as [B' HB']. exists X, B'. split; [exact HX|exact HB'].
Qed.

(** C5: a transaction is atomic under crashes.  From a state in which the
    operation sees the blocks [V] and the disk holds [e_disk E], with a clean
    log, [end_op] returns and leaves [V] on the disk; and if the machine stops
    after any part of the writes of [end_op], and again after any part of the
    writes of any number of recoveries, mounting the disk succeeds and shows
    either all blocks as before the transaction or all blocks of [V]. *)
Theorem end_op_crash_atomic s V P l k E :
  rep s V ∅ P (env_set_log l E) -> txl 1 l P k E -> 2 <= lstart E ->
  decode_sb (e_disk E 1) = e_sb E -> decodes (e_disk E (lstart E)) [] ->
  exists s' ws, end_op s = Ok tt s' /\ dtrace s' = dtrace s ++ ws /\ held s' = [] /\ (forall b, home E b -> disk s' b = V b) /\
    forall D, crashes (e_size E) (e_disk E) ws D ->
      exists s'', mount (power_on (e_size E) D) = Ok tt s'' /\
        ((forall b, home E b -> disk s'' b = e_disk E b) \/ (forall b, home E b -> disk s'' b = V b)).
Proof.
  intros HR Ht Hst Hsb Hcl. pose proof (txl_log _ _ _ _ _ Ht) as Hl. pose proof (txl_super _ _ _ _ _ Ht) as H1. pose proof (log_at_loggable _ _ _ _ _ Hl) as Hlo.
  destruct (tx_disks _ _ _ _ _ HR) as (HD & HV & Hsame).
  pose proof (lo_region _ _ _ _ Hlo) as Hr.
  assert (2 <= lstart E /\ 0 < lsize E /\ lstart E + lsize E <= e_size E /\ e_size E < 2 ^ 31) as Hreg by lia.
  assert (sb_logstart (decode_sb (e_disk E 1)) = lstart E /\ sb_nlog (decode_sb (e_disk E 1)) = lsize E) as Hsup by (by rewrite Hsb).
  assert (wp end_op (fun _ s' => quiet s' (vsets V (txn_writes (lstart E) V P)) (wrote E (txn_writes (lstart E) V P))) s) as Hwp
    by (eapply wp_end_op; [exact HR|exact Ht|auto]).
  destruct (proj1 (wp_ok _ _ _) Hwp) as ([] & s' & Hrun & Hq). exists s', (txn_writes (lstart E) V P). split; [exact Hrun|].
  destruct (quiet_env _ _ _ Hq) as (Hh & Hd & Ht'). cbn in Hd, Ht'.
  split; [rewrite Ht'; f_equal; exact (eq_sym (f_equal e_trace (rep_env _ _ _ _ _ HR)))|]. split; [done|]. split.
  - intros b [Hb Hnr]. rewrite Hd. by eapply commit_installs.
  - intros D HC. destruct (crashes_recoverable _ _ _ _ _ _ _ Hreg Hsup HD HV Hlo H1 Hcl Hsame HC) as (X & B & HX & Hrc).
    destruct (mount_shows _ _ _ _ _ _ _ Hreg Hsup Hrc) as (s'' & Hrun'' & Hb). exists s''. split; [exact Hrun''|].
    destruct HX as [->| ->]; [left|right]; intros b [Hb1 Hb2]; exact (Hb b Hb1 Hb2).
Qed.
End Crash.

(** A disk of 64 blocks with a log of 10 blocks and an empty log. *)
Definition demo_image : FsImage := {| buf_lock_addr := fun i => 1000 + Z.of_nat i; inode_lock_addr := fun i => 2000 + Z.of_nat i; log_addr := 3000 |}.
Definition demo_super : block := put_words (replicate BSIZE 0) 0 [64; 40; 20; 10; 2; 12; 16].
Definition demo_bitmap : block := splice (replicate BSIZE 0) 0 [255; 255; 1].
Definition demo_disk (b : Z) : block := if b =? 1 then demo_super else if b =? 16 then demo_bitmap else replicate BSIZE 0.
Definition demo_txn {I : FsImage} {W : Wakeups} : FS unit :=
  mount ;;; begin_op ;;; i <- bread 1 40 ;; set_buf_data i (replicate BSIZE 7) ;;; log_write i ;;; brelse i.

Lemma demo_recoverable : recoverable 64 2 10 demo_disk demo_disk demo_disk [].
Proof.
  split; [|done|split; [lia|cbn; unfold LOGSIZE; lia|apply NoDup_nil_2|set_solver]|set_solver|by split|done].
  intros b _. unfold demo_disk. destruct (b =? 1); [reflexivity|]. destruct (b =? 16); [reflexivity|apply length_replicate].
Qed.

(** The state when a transaction begins on the demonstration disk. *)
Lemma demo_begin {I : FsImage} {W : Wakeups} {A} (K : FS A) (Q : A -> fsys -> Prop) :
  (forall s V E, tx 1 s V ∅ 9 E -> e_sb E = decode_sb demo_super -> e_size E = 64 -> e_disk E 1 = demo_super ->
     decodes (e_disk E 2) [] -> (forall b, b <> 2 -> V b = demo_disk b) -> e_icache E = replicate NINODE zero_inode ->
     e_ftable E = replicate NFILE zero_file -> wp K Q s) ->
  wp (mount ;;; begin_op ;;; K) Q (power_on 64 demo_disk).
Proof.
  intros HQ. wp_step. eapply (wp_mount 64 2 10 demo_disk); [lia|by vm_compute|apply demo_recoverable|].
  intros s1 ws _ _ _ Hq. set (E := wrote _ _) in Hq. assert (e_sb E = decode_sb demo_super) as Hsb by reflexivity.
  assert (lstart E = 2 /\ lsize E = 10) as [Hst Hsz] by (unfold lstart, lsize; rewrite Hsb; by vm_compute).
  wp_step. apply (wp_begin_op _ _ 9 _ _ Hq); [unfold NBUF; lia|rewrite Hsz; lia|]. intros s2 H2.
  eapply (HQ _ _ E); [exact H2|done|done|reflexivity| | |done|done].
  - change (decodes (header (demo_disk 2) []) []). eapply (decodes_header _ _ 64 2 10); [|reflexivity]. apply demo_recoverable.
  - intros b Hb. apply vsets_notin. cbn. by intros ->%list_elem_of_singleton.
Qed.

(** The state at the end of the demonstration transaction. *)
Lemma demo_txn_run {I : FsImage} {W : Wakeups} (Q : unit -> fsys -> Prop) :
  (forall s V E, tx 1 s V ∅ 0 E -> e_sb E = decode_sb demo_super -> e_size E = 64 -> e_disk E 1 = demo_super ->
     decodes (e_disk E 2) [] -> V 40 = replicate BSIZE 7 -> Q tt s) ->
  wp demo_txn Q (power_on 64 demo_disk).
Proof.
  intros HQ. unfold demo_txn. apply demo_begin. intros s2 V E H2 Hsb Hsz Hd1 Hd2 HV _ _.
  assert (lstart E = 2 /\ lsize E = 10) as [Hst Hls] by (unfold lstart, lsize; rewrite Hsb; by vm_compute).
  assert (in_range (e_size E) 40) as H40 by (unfold in_range; lia).
  wp_step. eapply tx_bread; [exact H2|done|apply not_held_empty|rewrite map_size_empty; lia|]. intros i s3 _ H3.
  wp_step. eapply tx_set_buf_data; [exact H3|by rewrite lookup_insert_eq|apply length_replicate|]. rewrite insert_insert_eq. intros s4 H4.
  wp_step. eapply tx_log_write; [exact H4|by rewrite lookup_insert_eq| |done|].
  { split; [split; [done|rewrite Hst, Hls; lia]|lia]. }
  rewrite insert_insert_eq. intros s5 H5. eapply tx_brelse; [exact H5|by rewrite lookup_insert_eq|]. rewrite delete_insert_id by done.
  intros s6 H6. eapply (HQ _ _ E); [eapply tx_weaken; [exact H6|lia]|done|done|done|done|apply vset_eq].
Qed.

#[local] Existing Instance demo_image.
#[local] Instance demo_wakeups : Wakeups := {| wakeups := 5 |}.

Lemma demo_txn_ends : exists s, demo_txn (power_on 64 demo_disk) = Ok tt s /\ exists V E, tx 1 s V ∅ 0 E /\
  e_sb E = decode_sb demo_super /\ e_size E = 64 /\ e_disk E 1 = demo_super /\ decodes (e_disk E 2) [] /\ V 40 = replicate BSIZE 7.
Proof.
  apply wp_ok_unit. apply demo_txn_run. intros s V E H1 H2 H3 H4 H5 H6. exists V, E.
  exact (conj H1 (conj H2 (conj H3 (conj H4 (conj H5 H6))))).
Qed.

Lemma end_op_crash_atomic_witness :
  exists s V E, demo_txn (power_on 64 demo_disk) = Ok tt s /\ V 40 = replicate BSIZE 7 /\ home E 40 /\
    exists s' ws, end_op s = Ok tt s' /\ dtrace s' = dtrace s ++ ws /\ held s' = [] /\ (forall b, home E b -> disk s' b = V b) /\
    forall D, crashes (e_size E) (e_disk E) ws D ->
      exists s'', mount (power_on (e_size E) D) = Ok tt s'' /\
        ((forall b, home E b -> disk s'' b = e_disk E b) \/ (forall b, home E b -> disk s'' b = V b)).
Proof.
  destruct demo_txn_ends as (s & Hrun & V & E & Htx & Hsb & Hsz & Hd1 & Hd2 & HV).
  exists s, V, E. split; [exact Hrun|clear Hrun].
  assert (lstart E = 2 /\ lsize E = 10) as [Hst Hls] by (unfold lstart, lsize; rewrite Hsb; vm_compute; split; reflexivity).
  split; [exact HV|]. split; [split; [unfold in_range; lia|lia]|].
  destruct Htx as (P & l & HR & Ht).
  apply (end_op_crash_atomic s V P l 0 E HR Ht); [lia|rewrite Hd1, Hsb; reflexivity|rewrite Hst; exact Hd2].
Defined.
