(* ===== verification/Fs.v ===== *)
(** * [fs.c]: blocks, inodes, directories and path names

    The code of [fs.c].  A pointer to an in-memory inode is its index in the
    cache, a null pointer is [None].  A buffer that is filled ([dst] of
    [readi], [st] of [stati], [*poff] of [dirlookup]) is returned as a value,
    a buffer that is read ([src] of [writei], path names) is the list of its
    bytes.  The device switch is a parameter: its entries are function
    pointers.  Loops whose bound is not fixed carry fuel that suffices. *)
From Stdlib Require Import ZArith Lia Bool.
From stdpp Require Import base numbers list strings.
From S2P Require Import Prelude Machine Cstring FsState Bio Log.

(** The table [devsw]: a null entry is [None]. *)
Class DevSw : Type := {
  dev_read : Z -> option (nat -> Z -> FS (Z * list Z));
  dev_write : Z -> option (nat -> list Z -> Z -> FS Z);
}.

Definition set_i_id dev inum x := mk_inode dev inum (i_ref x) (i_lock x) (i_valid x) (i_type x) (i_major x) (i_minor x) (i_nlink x) (i_size x) (i_addrs x).
Definition set_i_ref v x := mk_inode (i_dev x) (i_inum x) v (i_lock x) (i_valid x) (i_type x) (i_major x) (i_minor x) (i_nlink x) (i_size x) (i_addrs x).
Definition set_i_valid v x := mk_inode (i_dev x) (i_inum x) (i_ref x) (i_lock x) v (i_type x) (i_major x) (i_minor x) (i_nlink x) (i_size x) (i_addrs x).
Definition set_i_type v x := mk_inode (i_dev x) (i_inum x) (i_ref x) (i_lock x) (i_valid x) v (i_major x) (i_minor x) (i_nlink x) (i_size x) (i_addrs x).
Definition set_i_nlink v x := mk_inode (i_dev x) (i_inum x) (i_ref x) (i_lock x) (i_valid x) (i_type x) (i_major x) (i_minor x) v (i_size x) (i_addrs x).
Definition set_i_devno major minor x := mk_inode (i_dev x) (i_inum x) (i_ref x) (i_lock x) (i_valid x) (i_type x) major minor (i_nlink x) (i_size x) (i_addrs x).
Definition set_i_size v x := mk_inode (i_dev x) (i_inum x) (i_ref x) (i_lock x) (i_valid x) (i_type x) (i_major x) (i_minor x) (i_nlink x) v (i_addrs x).
Definition set_i_addrs v x := mk_inode (i_dev x) (i_inum x) (i_ref x) (i_lock x) (i_valid x) (i_type x) (i_major x) (i_minor x) (i_nlink x) (i_size x) v.
Definition set_i_addr k v x := set_i_addrs (<[k := v]> (i_addrs x)) x.

(** [struct dinode]: 64 bytes. *)
Record dinode : Type := mk_dinode {
  di_type : Z;
  di_major : Z;
  di_minor : Z;
  di_nlink : Z;
  di_size : Z;
  di_addrs : list Z;
}.
Definition decode_dinode (d : block) (off : nat) : dinode :=
  mk_dinode (i16 (get16 d off)) (i16 (get16 d (off + 2))) (i16 (get16 d (off + 4))) (i16 (get16 d (off + 6)))
    (get32 d (off + 8)) (map (fun j => get32 d (off + 12 + 4 * j)) (seq 0 (S NDIRECT))).
Definition encode_dinode (x : dinode) : list Z :=
  le16 (di_type x) ++ le16 (di_major x) ++ le16 (di_minor x) ++ le16 (di_nlink x) ++ le32 (di_size x) ++
  concat (map le32 (di_addrs x)).
Definition dinode_of (x : inode) : dinode := mk_dinode (i_type x) (i_major x) (i_minor x) (i_nlink x) (i_size x) (i_addrs x).
Definition load_dinode (v : dinode) (x : inode) : inode :=
  mk_inode (i_dev x) (i_inum x) (i_ref x) (i_lock x) (i_valid x) (di_type v) (di_major v) (di_minor v) (di_nlink v) (di_size v) (di_addrs v).

Definition IBLOCK (inum : Z) (sb : superblock) : Z := u32 (inum / IPB + sb_inodestart sb).
Definition BBLOCK (b : Z) (sb : superblock) : Z := u32 (b / BPB + sb_bmapstart sb).
Definition dinode_off (inum : Z) : nat := Z.to_nat (64 * (inum mod IPB)).

(** ** Path elements

    A path is the bytes from a pointer up to the end of its buffer; running off
    that end is [None].  The inner result is the null pointer, or the rest of
    the path and the new contents of [name]. *)
Definition SLASH : Z := 47.
Fixpoint skip_slashes (path : list Z) : option (list Z) :=
  match path with
  | [] => None
  | c :: p => if c =? SLASH then skip_slashes p else Some path
  end.
(** The element and what follows it. *)
Fixpoint span_elem (path : list Z) : option (list Z * list Z) :=
  match path with
  | [] => None
  | c :: p =>
      if (c =? SLASH) || (c =? 0) then Some ([], path)
      else option_map (fun r => (c :: fst r, snd r)) (span_elem p)
  end.
Definition skipelem (path name : list Z) : option (option (list Z * list Z)) :=
  match skip_slashes path with
  | None => None
  | Some s =>
      if nth 0 s 0 =? 0 then Some None else
      match span_elem s with
      | None => None
      | Some (elem, path) =>
          let len := length elem in
          let name :=
            if (DIRSIZ <=? len)%nat then splice name 0 (take DIRSIZ elem)
            else splice (splice name 0 elem) len [0] in
          option_map (fun path => Some (path, name)) (skip_slashes path)
      end
  end.

Section Fs.
Context {I : FsImage} {W : Wakeups} {DS : DevSw}.

Definition get_sb : FS superblock := gets fsb.

(** ** Blocks *)
Definition bzero (dev bno : Z) : FS unit :=
  bp <- bread dev bno ;;
  set_buf_data bp (replicate BSIZE 0) ;;;
  log_write bp ;;;
  brelse bp.

(** Bit [bi] of a bitmap block. *)
Definition bit_mask (bi : nat) : Z := Z.shiftl 1 (Z.of_nat bi mod 8).
Definition bit_get (d : block) (bi : nat) : Z := Z.land (get8 d (bi / 8)) (bit_mask bi).
Definition bit_set (d : block) (bi : nat) : block := splice d (bi / 8) [Z.lor (get8 d (bi / 8)) (bit_mask bi)].
Definition bit_clear (d : block) (bi : nat) : block := splice d (bi / 8) [Z.land (get8 d (bi / 8)) (Z.lnot (bit_mask bi))].

Definition balloc (dev : Z) : FS Z :=
  sb <- get_sb ;;
  r <- for_find (Z.to_nat ((sb_size sb + BPB - 1) / BPB)) 0 (fun q =>
    let b := BPB * Z.of_nat q in
    bp <- bread dev (BBLOCK b sb) ;;
    r <- for_find (Z.to_nat (Z.min BPB (sb_size sb - b))) 0 (fun bi =>
      d <- buf_data bp ;;
      if bit_get d bi =? 0 then
        set_buf_data bp (bit_set d bi) ;;;
        log_write bp ;;;
        brelse bp ;;;
        bzero dev (b + Z.of_nat bi) ;;;
        ret (Some (b + Z.of_nat bi))
      else ret None) ;;
    match r with
    | Some a => ret (Some a)
    | None => brelse bp ;;; ret None
    end) ;;
  match r with Some a => ret a | None => panic "balloc: out of blocks" end.

Definition bfree (dev b : Z) : FS unit :=
  sb <- readsb dev ;;
  modify (set_fsb sb) ;;;
  bp <- bread dev (BBLOCK b sb) ;;
  let bi := Z.to_nat (b mod BPB) in
  d <- buf_data bp ;;
  if bit_get d bi =? 0 then panic "freeing free block" else
  set_buf_data bp (bit_clear d bi) ;;;
  log_write bp ;;;
  brelse bp.

(** ** Inodes *)
Definition iget (dev inum : Z) : FS nat :=
  fs_acquire IcacheLock ;;;
  (* one pass in the source; the lock is held, so the table is the same for both *)
  hit <- first_in (seq 0 NINODE) (fun k => x <- get_inode k ;;
           ret ((0 <? i_ref x) && (i_dev x =? dev) && (i_inum x =? inum))) ;;
  match hit with
  | Some k =>
      upd_inode k (fun x => set_i_ref (i_ref x + 1) x) ;;;
      fs_release IcacheLock ;;;
      ret k
  | None =>
      empty <- first_in (seq 0 NINODE) (fun k => x <- get_inode k ;; ret (i_ref x =? 0)) ;;
      match empty with
      | None => panic "iget: no inodes"
      | Some k =>
          upd_inode k (set_i_id dev inum) ;;;
          upd_inode k (set_i_ref 1) ;;;
          upd_inode k (set_i_valid false) ;;;
          fs_release IcacheLock ;;;
          ret k
      end
  end.

Definition ialloc (dev type : Z) : FS nat :=
  sb <- get_sb ;;
  r <- for_find (Z.to_nat (sb_ninodes sb - 1)) 1 (fun k =>
    let inum := Z.of_nat k in
    bp <- bread dev (IBLOCK inum sb) ;;
    d <- buf_data bp ;;
    if di_type (decode_dinode d (dinode_off inum)) =? 0 then
      set_buf_data bp (splice d (dinode_off inum) (le16 type ++ replicate 62 0)) ;;;
      log_write bp ;;;
      brelse bp ;;;
      ip <- iget dev inum ;;
      ret (Some ip)
    else
      brelse bp ;;;
      ret None) ;;
  match r with Some ip => ret ip | None => panic "ialloc: no inodes" end.

Definition iupdate (ip : nat) : FS unit :=
  sb <- get_sb ;;
  x <- get_inode ip ;;
  bp <- bread (i_dev x) (IBLOCK (i_inum x) sb) ;;
  d <- buf_data bp ;;
  set_buf_data bp (splice d (dinode_off (i_inum x)) (encode_dinode (dinode_of x))) ;;;
  log_write bp ;;;
  brelse bp.

Definition idup (ip : nat) : FS nat :=
  fs_acquire IcacheLock ;;;
  upd_inode ip (fun x => set_i_ref (i_ref x + 1) x) ;;;
  fs_release IcacheLock ;;;
  ret ip.

Definition ilock (ip : nat) : FS unit :=
  x <- get_inode ip ;;
  if i_ref x <? 1 then panic "ilock" else
  acquiresleep (inode_lock_addr ip) (get_inode_lock ip) (put_inode_lock ip) wakeups ;;;
  x <- get_inode ip ;;
  when (negb (i_valid x)) (
    sb <- get_sb ;;
    bp <- bread (i_dev x) (IBLOCK (i_inum x) sb) ;;
    d <- buf_data bp ;;
    upd_inode ip (load_dinode (decode_dinode d (dinode_off (i_inum x)))) ;;;
    brelse bp ;;;
    upd_inode ip (set_i_valid true) ;;;
    x <- get_inode ip ;;
    when (i_type x =? 0) (panic "ilock: no type")).

Definition iunlock (ip : nat) : FS unit :=
  h <- holdingsleep (get_inode_lock ip) ;;
  x <- get_inode ip ;;
  if negb h || (i_ref x <? 1) then panic "iunlock" else
  releasesleep (inode_lock_addr ip) (put_inode_lock ip).

Definition bmap (ip : nat) (bn : Z) : FS Z :=
  x <- get_inode ip ;;
  if bn <? Z.of_nat NDIRECT then
    let addr := nth (Z.to_nat bn) (i_addrs x) 0 in
    if addr =? 0 then
      a <- balloc (i_dev x) ;;
      upd_inode ip (set_i_addr (Z.to_nat bn) a) ;;;
      ret a
    else ret addr
  else
    let bn := bn - Z.of_nat NDIRECT in
    if bn <? Z.of_nat NINDIRECT then
      addr <- (let addr := nth NDIRECT (i_addrs x) 0 in
               if addr =? 0 then
                 a <- balloc (i_dev x) ;;
                 upd_inode ip (set_i_addr NDIRECT a) ;;;
                 ret a
               else ret addr) ;;
      bp <- bread (i_dev x) addr ;;
      d <- buf_data bp ;;
      let w := get32 d (4 * Z.to_nat bn) in
      addr <- (if w =? 0 then
                 a <- balloc (i_dev x) ;;
                 d <- buf_data bp ;;
                 set_buf_data bp (splice d (4 * Z.to_nat bn) (le32 a)) ;;;
                 log_write bp ;;;
                 ret a
               else ret w) ;;
      brelse bp ;;;
      ret addr
    else panic "bmap: out of range".

Definition itrunc (ip : nat) : FS unit :=
  for_range NDIRECT 0 (fun k =>
    x <- get_inode ip ;;
    let a := nth k (i_addrs x) 0 in
    when (negb (a =? 0)) (
      bfree (i_dev x) a ;;;
      upd_inode ip (set_i_addr k 0))) ;;;
  x <- get_inode ip ;;
  let a := nth NDIRECT (i_addrs x) 0 in
  when (negb (a =? 0)) (
    bp <- bread (i_dev x) a ;;
    for_range NINDIRECT 0 (fun j =>
      d <- buf_data bp ;;
      let w := get32 d (4 * j) in
      when (negb (w =? 0)) (bfree (i_dev x) w)) ;;;
    brelse bp ;;;
    bfree (i_dev x) a ;;;
    upd_inode ip (set_i_addr NDIRECT 0)) ;;;
  upd_inode ip (set_i_size 0) ;;;
  iupdate ip.

Definition iput (ip : nat) : FS unit :=
  acquiresleep (inode_lock_addr ip) (get_inode_lock ip) (put_inode_lock ip) wakeups ;;;
  x <- get_inode ip ;;
  when (i_valid x && (i_nlink x =? 0)) (
    fs_acquire IcacheLock ;;;
    x <- get_inode ip ;;
    let r := i_ref x in
    fs_release IcacheLock ;;;
    when (r =? 1) (
      itrunc ip ;;;
      upd_inode ip (set_i_type 0) ;;;
      iupdate ip ;;;
      upd_inode ip (set_i_valid false))) ;;;
  releasesleep (inode_lock_addr ip) (put_inode_lock ip) ;;;
  fs_acquire IcacheLock ;;;
  upd_inode ip (fun x => set_i_ref (i_ref x - 1) x) ;;;
  fs_release IcacheLock.

Definition iunlockput (ip : nat) : FS unit := iunlock ip ;;; iput ip.

(** [struct stat]. *)
Record stat_t : Type := mk_stat { st_type : Z; st_dev : Z; st_ino : Z; st_nlink : Z; st_size : Z }.
Definition stati (ip : nat) : FS stat_t :=
  x <- get_inode ip ;;
  ret (mk_stat (i_type x) (i_dev x) (i_inum x) (i_nlink x) (i_size x)).

(** ** Contents: [n] bytes in chunks that end at block boundaries *)
Definition chunk (off n : Z) : Z := Z.min n (Z.of_nat BSIZE - off mod Z.of_nat BSIZE).
Definition chunks (n : Z) : nat := Z.to_nat (n / Z.of_nat BSIZE) + 3.

Fixpoint readi_loop (fuel : nat) (ip : nat) (off n : Z) : FS (list Z) :=
  if n <=? 0 then ret [] else
  match fuel with
  | O => nofuel
  | S fuel' =>
      a <- bmap ip (off / Z.of_nat BSIZE) ;;
      x <- get_inode ip ;;
      bp <- bread (i_dev x) a ;;
      let m := chunk off n in
      d <- buf_data bp ;;
      let out := slice d (Z.to_nat (off mod Z.of_nat BSIZE)) (Z.to_nat m) in
      brelse bp ;;;
      rest <- readi_loop fuel' ip (off + m) (n - m) ;;
      ret (out ++ rest)
  end.

Definition readi (ip : nat) (off n : Z) : FS (Z * list Z) :=
  x <- get_inode ip ;;
  if i_type x =? T_DEV then
    if (i_major x <? 0) || (NDEV <=? i_major x) then ret (-1, []) else
    match dev_read (i_major x) with
    | None => ret (-1, [])
    | Some rd => rd ip n
    end
  else
    if (i_size x <? off) || (u32 (off + n) <? off) then ret (-1, []) else
    let n := if i_size x <? off + n then i_size x - off else n in
    bytes <- readi_loop (chunks n) ip off n ;;
    ret (n, bytes).

Fixpoint writei_loop (fuel : nat) (ip : nat) (src : list Z) (off n : Z) : FS Z :=
  if n <=? 0 then ret off else
  match fuel with
  | O => nofuel
  | S fuel' =>
      a <- bmap ip (off / Z.of_nat BSIZE) ;;
      x <- get_inode ip ;;
      bp <- bread (i_dev x) a ;;
      let m := chunk off n in
      d <- buf_data bp ;;
      set_buf_data bp (splice d (Z.to_nat (off mod Z.of_nat BSIZE)) (take (Z.to_nat m) src)) ;;;
      log_write bp ;;;
      brelse bp ;;;
      writei_loop fuel' ip (drop (Z.to_nat m) src) (off + m) (n - m)
  end.

Definition writei (ip : nat) (src : list Z) (off n : Z) : FS Z :=
  x <- get_inode ip ;;
  if i_type x =? T_DEV then
    if (i_major x <? 0) || (NDEV <=? i_major x) then ret (-1) else
    match dev_write (i_major x) with
    | None => ret (-1)
    | Some wr => wr ip src n
    end
  else
    if (i_size x <? off) || (u32 (off + n) <? off) then ret (-1) else
    if MAXFILE * Z.of_nat BSIZE <? off + n then ret (-1) else
    off <- writei_loop (chunks n) ip src off n ;;
    x <- get_inode ip ;;
    when ((0 <? n) && (i_size x <? off)) (
      upd_inode ip (set_i_size off) ;;;
      iupdate ip) ;;;
    ret n.

(** ** Directories: entries of 16 bytes *)
Definition namecmp (s t : list Z) : option Z := strncmp s t DIRSIZ.
Definition de_inum (de : list Z) : Z := get16 de 0.
Definition de_name (de : list Z) : list Z := drop 2 de.

Fixpoint dirlookup_loop (fuel : nat) (dp : nat) (name : list Z) (off : Z) : FS (option (nat * Z)) :=
  x <- get_inode dp ;;
  if i_size x <=? off then ret None else
  match fuel with
  | O => nofuel
  | S fuel' =>
      r <- readi dp off 16 ;;
      if negb (fst r =? 16) then panic "dirlookup read" else
      let de := snd r in
      if de_inum de =? 0 then dirlookup_loop fuel' dp name (off + 16) else
      match namecmp name (de_name de) with
      | None => fault "namecmp"
      | Some c =>
          if c =? 0 then
            ip <- iget (i_dev x) (de_inum de) ;;
            ret (Some (ip, off))
          else dirlookup_loop fuel' dp name (off + 16)
      end
  end.

Definition dir_fuel (x : inode) : nat := S (Z.to_nat (i_size x / 16)).

Definition dirlookup (dp : nat) (name : list Z) : FS (option (nat * Z)) :=
  x <- get_inode dp ;;
  if negb (i_type x =? T_DIR) then panic "dirlookup not DIR" else
  dirlookup_loop (dir_fuel x) dp name 0.

(** The offset of the first free entry, or the end of the directory. *)
Fixpoint dirlink_loop (fuel : nat) (dp : nat) (off : Z) : FS Z :=
  x <- get_inode dp ;;
  if i_size x <=? off then ret off else
  match fuel with
  | O => nofuel
  | S fuel' =>
      r <- readi dp off 16 ;;
      if negb (fst r =? 16) then panic "dirlink read" else
      if de_inum (snd r) =? 0 then ret off else dirlink_loop fuel' dp (off + 16)
  end.

Definition dirlink (dp : nat) (name : list Z) (inum : Z) : FS Z :=
  r <- dirlookup dp name ;;
  match r with
  | Some (ip, _) =>
      iput ip ;;;
      ret (-1)
  | None =>
      x <- get_inode dp ;;
      off <- dirlink_loop (dir_fuel x) dp 0 ;;
      match strncpy (replicate DIRSIZ 0) name DIRSIZ with
      | None => fault "strncpy"
      | Some nm =>
          r <- writei dp (le16 inum ++ nm) off 16 ;;
          if negb (r =? 16) then panic "dirlink" else
          ret 0
      end
  end.

(** ** Path names

    [cwd] is [myproc()->cwd]; the result carries the buffer [name]. *)
Fixpoint namex_loop (fuel : nat) (ip : nat) (path : list Z) (parent : bool) (name : list Z) : FS (option nat * list Z) :=
  match skipelem path name with
  | None => fault "path"
  | Some None =>
      if parent then
        iput ip ;;;
        ret (None, name)
      else ret (Some ip, name)
  | Some (Some (path, name)) =>
      match fuel with
      | O => nofuel
      | S fuel' =>
          ilock ip ;;;
          x <- get_inode ip ;;
          if negb (i_type x =? T_DIR) then
            iunlockput ip ;;;
            ret (None, name)
          else if parent && (nth 0 path 0 =? 0) then
            iunlock ip ;;;
            ret (Some ip, name)
          else
            r <- dirlookup ip name ;;
            match r with
            | None =>
                iunlockput ip ;;;
                ret (None, name)
            | Some (next, _) =>
                iunlockput ip ;;;
                namex_loop fuel' next path parent name
            end
      end
  end.

Definition namex (cwd : nat) (path : list Z) (parent : bool) (name : list Z) : FS (option nat * list Z) :=
  ip <- (if nth 0 path 0 =? SLASH then iget ROOTDEV ROOTINO else idup cwd) ;;
  namex_loop (length path) ip path parent name.

Definition namei (cwd : nat) (path : list Z) : FS (option nat) :=
  r <- namex cwd path false (replicate DIRSIZ 0) ;;
  ret (fst r).

Definition nameiparent (cwd : nat) (path name : list Z) : FS (option nat * list Z) := namex cwd path true name.
End Fs.
