(* ===== verification/Console.v ===== *)
(** * [console.c], [kbd.c] and [uart.c]: the console

    Output goes to the serial line and to the memory of the screen; input comes
    from the keyboard and the serial line as bytes that wait at their ports.
    Characters are typed into a ring of 128 bytes with three counters that run
    on and wrap around at 2^32: [r] up to where it has been read, [w] up to
    where it may be read, [e] up to where it has been typed.

    The bytes [consoleread] puts at [dst] are its result, the bytes
    [consolewrite] takes from [buf] its argument. *)
From Stdlib Require Import ZArith Lia Bool.
From stdpp Require Import base numbers list strings.
From S2P Require Import Prelude Machine Cstring FsState Bio Log Fs.

Definition INPUT_BUF : Z := 128.
Definition BACKSPACE : Z := 0x100.
Definition CONSOLE : Z := 1.
Definition ctl (x : Z) : Z := x - 64.   (* the macro C *)

(** The character codes of a text. *)
Fixpoint text (s : string) : list Z :=
  match s with
  | EmptyString => []
  | String a s' => Z.of_nat (Ascii.nat_of_ascii a) :: text s'
  end.

(** ** Field updates *)
Section Setters.
Implicit Types c : console.
Definition set_in_buf v c := mk_console v (in_r c) (in_w c) (in_e c) (locking c) (panicked c) (crt c) (cursor_hi c) (cursor_lo c) (uart c) (serial c) (kbd_shift c) (kbd_in c) (uart_in c).
Definition set_in_r v c := mk_console (in_buf c) v (in_w c) (in_e c) (locking c) (panicked c) (crt c) (cursor_hi c) (cursor_lo c) (uart c) (serial c) (kbd_shift c) (kbd_in c) (uart_in c).
Definition set_in_w v c := mk_console (in_buf c) (in_r c) v (in_e c) (locking c) (panicked c) (crt c) (cursor_hi c) (cursor_lo c) (uart c) (serial c) (kbd_shift c) (kbd_in c) (uart_in c).
Definition set_in_e v c := mk_console (in_buf c) (in_r c) (in_w c) v (locking c) (panicked c) (crt c) (cursor_hi c) (cursor_lo c) (uart c) (serial c) (kbd_shift c) (kbd_in c) (uart_in c).
Definition set_locking v c := mk_console (in_buf c) (in_r c) (in_w c) (in_e c) v (panicked c) (crt c) (cursor_hi c) (cursor_lo c) (uart c) (serial c) (kbd_shift c) (kbd_in c) (uart_in c).
Definition set_panicked v c := mk_console (in_buf c) (in_r c) (in_w c) (in_e c) (locking c) v (crt c) (cursor_hi c) (cursor_lo c) (uart c) (serial c) (kbd_shift c) (kbd_in c) (uart_in c).
Definition set_crt v c := mk_console (in_buf c) (in_r c) (in_w c) (in_e c) (locking c) (panicked c) v (cursor_hi c) (cursor_lo c) (uart c) (serial c) (kbd_shift c) (kbd_in c) (uart_in c).
Definition set_cursor hi lo c := mk_console (in_buf c) (in_r c) (in_w c) (in_e c) (locking c) (panicked c) (crt c) hi lo (uart c) (serial c) (kbd_shift c) (kbd_in c) (uart_in c).
Definition set_uart v c := mk_console (in_buf c) (in_r c) (in_w c) (in_e c) (locking c) (panicked c) (crt c) (cursor_hi c) (cursor_lo c) v (serial c) (kbd_shift c) (kbd_in c) (uart_in c).
Definition set_serial v c := mk_console (in_buf c) (in_r c) (in_w c) (in_e c) (locking c) (panicked c) (crt c) (cursor_hi c) (cursor_lo c) (uart c) v (kbd_shift c) (kbd_in c) (uart_in c).
Definition set_kbd_shift v c := mk_console (in_buf c) (in_r c) (in_w c) (in_e c) (locking c) (panicked c) (crt c) (cursor_hi c) (cursor_lo c) (uart c) (serial c) v (kbd_in c) (uart_in c).
Definition set_kbd_in v c := mk_console (in_buf c) (in_r c) (in_w c) (in_e c) (locking c) (panicked c) (crt c) (cursor_hi c) (cursor_lo c) (uart c) (serial c) (kbd_shift c) v (uart_in c).
Definition set_uart_in v c := mk_console (in_buf c) (in_r c) (in_w c) (in_e c) (locking c) (panicked c) (crt c) (cursor_hi c) (cursor_lo c) (uart c) (serial c) (kbd_shift c) (kbd_in c) v.
End Setters.

Definition on_console (f : console -> console) : FS unit := modify (fun s => set_fcons (f (fcons s)) s).
Definition get_console {A} (f : console -> A) : FS A := gets (fun s => f (fcons s)).

(** ** Output *)

(** The wait for the transmitter is bounded, and the byte is sent after it. *)
Definition uartputc (c : Z) : FS unit :=
  u <- get_console uart ;;
  when u (on_console (fun k => set_serial (u8 c :: serial k) k)).

Fixpoint uartputs (l : list Z) : FS unit :=
  match l with
  | [] => ret tt
  | c :: l' => uartputc c ;;; uartputs l'
  end.

(** [memmove(crt, crt+80, ...)] and [memset(crt+pos, 0, ...)]. *)
Definition scroll (m : Z -> Z) : Z -> Z := fun i => if (0 <=? i) && (i <? 23 * 80) then m (i + 80) else m i.
Definition blank (pos : Z) (m : Z -> Z) : Z -> Z := fun i => if (pos <=? i) && (i <? 24 * 80) then 0 else m i.
Definition put_cell (pos v : Z) (m : Z -> Z) : Z -> Z := fun i => if i =? pos then v else m i.

Definition cgaputc (c : Z) : FS unit :=
  hi <- get_console cursor_hi ;;
  lo <- get_console cursor_lo ;;
  let pos := Z.lor (Z.shiftl hi 8) lo in
  pos <- (if c =? 10 then ret (pos + (80 - pos mod 80))
          else if c =? BACKSPACE then ret (if 0 <? pos then pos - 1 else pos)
          else
            on_console (fun k => set_crt (put_cell pos (Z.lor (Z.land c 0xff) 0x0700) (crt k)) k) ;;;
            ret (pos + 1)) ;;
  if (pos <? 0) || (25 * 80 <? pos) then panic "pos under/overflow"
  else
    pos <- (if 24 <=? pos / 80 then
              on_console (fun k => set_crt (blank (pos - 80) (scroll (crt k))) k) ;;;
              ret (pos - 80)
            else ret pos) ;;
    on_console (fun k => set_cursor (u8 (Z.shiftr pos 8)) (u8 pos) k) ;;;
    on_console (fun k => set_crt (put_cell pos (Z.lor 32 0x0700) (crt k)) k).

(** After a panic the processor spins. *)
Definition consputc (c : Z) : FS unit :=
  p <- get_console panicked ;;
  if p : bool then nofuel
  else
    (if c =? BACKSPACE then uartputc 8 ;;; uartputc 32 ;;; uartputc 8
     else uartputc c) ;;;
    cgaputc c.

Fixpoint consputs (l : list Z) : FS unit :=
  match l with
  | [] => ret tt
  | c :: l' => consputc c ;;; consputs l'
  end.

(** ** Numbers

    The digits of [x], last one first; a word has at most 32 of them.  The
    digits above 9 are letters from [a] on. *)
Definition digit (a d : Z) : Z := if d <? 10 then 48 + d else a + (d - 10).
Fixpoint digits (fuel : nat) (a base x : Z) : list Z :=
  match fuel with
  | O => []
  | S fuel' =>
      let x' := x / base in
      digit a (x mod base) :: if x' =? 0 then [] else digits fuel' a base x'
  end.
Definition number (a xx base : Z) (sign : bool) : list Z :=
  let neg := sign && (xx <? 0) in
  let x := if neg then u32 (- xx) else u32 xx in
  let buf := digits 32 a base x in
  reverse (if neg then buf ++ [45] else buf).

Definition printint (xx base : Z) (sign : bool) : FS unit := consputs (number 97 xx base sign).

(** ** Formatted output: the arguments are words, [str] reads the string at a
    pointer. *)
Section Printf.
Context (str : Z -> list Z).

Definition string_arg (a : Z) : list Z := if a =? 0 then text "(null)" else str a.

Fixpoint cprintf_loop (fmt args : list Z) : FS unit :=
  match fmt with
  | [] => ret tt
  | c :: fmt1 =>
      if negb (c =? 37) then consputc c ;;; cprintf_loop fmt1 args
      else
        match fmt1 with
        | [] => ret tt
        | d :: fmt2 =>
            if d =? 100 then
              match args with
              | a :: args' => printint (i32 a) 10 true ;;; cprintf_loop fmt2 args'
              | [] => fault "missing argument"
              end
            else if (d =? 120) || (d =? 112) then
              match args with
              | a :: args' => printint (i32 a) 16 false ;;; cprintf_loop fmt2 args'
              | [] => fault "missing argument"
              end
            else if d =? 115 then
              match args with
              | a :: args' => consputs (string_arg a) ;;; cprintf_loop fmt2 args'
              | [] => fault "missing argument"
              end
            else if d =? 37 then consputc 37 ;;; cprintf_loop fmt2 args
            else consputc 37 ;;; consputc d ;;; cprintf_loop fmt2 args
        end
  end.

Definition cprintf (fmt : option (list Z)) (args : list Z) : FS unit :=
  l <- get_console locking ;;
  when l (fs_acquire ConsLock) ;;;
  match fmt with
  | None => panic "null fmt"
  | Some fmt => cprintf_loop fmt args
  end ;;;
  when l (fs_release ConsLock).
End Printf.

(** What [panic] prints before the processor stops: [id] is the processor's,
    [pcs] the recorded call stack. *)
Fixpoint print_pcs (str : Z -> list Z) (pcs : list Z) : FS unit :=
  match pcs with
  | [] => ret tt
  | pc :: pcs' => cprintf str (Some (text " %p")) [pc] ;;; print_pcs str pcs'
  end.
Definition panic_message (str : Z -> list Z) (id : Z) (s : list Z) (pcs : list Z) : FS unit :=
  on_console (set_locking false) ;;;
  cprintf str (Some (text "lapicid %d: panic: ")) [id] ;;;
  cprintf str (Some s) [] ;;;
  cprintf str (Some [10]) [] ;;;
  print_pcs str pcs ;;;
  on_console (set_panicked true).

(** ** The keyboard *)
Definition SHIFT : Z := 1.
Definition CTL : Z := 2.
Definition ALT : Z := 4.
Definition CAPSLOCK : Z := 8.
Definition NUMLOCK : Z := 16.
Definition SCROLLLOCK : Z := 32.
Definition E0ESC : Z := 64.

(** A table of 256 bytes: the first entries, and entries given by index. *)
Definition table (first : list Z) (at_ : list (Z * Z)) : list Z :=
  fold_left (fun t p => <[Z.to_nat (fst p) := u8 (snd p)]> t) at_ (map u8 first ++ replicate (256 - length first) 0).

Definition shiftcode : list Z := table [] [(0x1D, CTL); (0x2A, SHIFT); (0x36, SHIFT); (0x38, ALT); (0x9D, CTL); (0xB8, ALT)].
Definition togglecode : list Z := table [] [(0x3A, CAPSLOCK); (0x45, NUMLOCK); (0x46, SCROLLLOCK)].

Definition keypad : list Z := text "789-456+1230.".
Definition special : list (Z * Z) :=
  [(0xC8, 0xE2); (0xD0, 0xE3); (0xC9, 0xE6); (0xD1, 0xE7); (0xCB, 0xE4); (0xCD, 0xE5); (0x97, 0xE0); (0xCF, 0xE1);
   (0xD2, 0xE8); (0xD3, 0xE9)].

Definition normalmap : list Z :=
  table ([0; 27] ++ text "1234567890-=" ++ [8; 9] ++ text "qwertyuiop[]" ++ [10; 0] ++ text "asdfghjkl;'`" ++ [0] ++
         text "\zxcvbnm,./" ++ [0] ++ text "*" ++ [0] ++ text " " ++ replicate 13 0 ++ keypad)
        ([(0x9C, 10); (0xB5, 47)] ++ special).
Definition shiftmap : list Z :=
  table ([0; 27] ++ text "!@#$%^&*()_+" ++ [8; 9] ++ text "QWERTYUIOP{}" ++ [10; 0] ++ text "ASDFGHJKL:" ++ [34] ++ text "~" ++ [0] ++
         text "|ZXCVBNM<>?" ++ [0] ++ text "*" ++ [0] ++ text " " ++ replicate 13 0 ++ keypad)
        ([(0x9C, 10); (0xB5, 47)] ++ special).
Definition ctlmap : list Z :=
  table (replicate 16 0 ++ map ctl (text "QWERTYUIOP") ++ [0; 0; 13; 0] ++ map ctl (text "ASDFGHJKL") ++ [0; 0; 0; 0] ++
         map ctl (text "\ZXCVBNM") ++ [0; 0; ctl 47; 0; 0])
        ([(0x9C, 13); (0xB5, ctl 47)] ++ special).
Definition charcode (i : Z) : list Z := if i =? 0 then normalmap else if i =? 1 then shiftmap else ctlmap.

Definition entry (t : list Z) (i : Z) : Z := nth (Z.to_nat i) t 0.

(** -1 when the port has no byte. *)
Definition kbdgetc : FS Z :=
  q <- get_console kbd_in ;;
  match q with
  | [] => ret (-1)
  | data :: q' =>
      on_console (set_kbd_in q') ;;;
      shift <- get_console kbd_shift ;;
      if data =? 0xE0 then
        on_console (set_kbd_shift (Z.lor shift E0ESC)) ;;;
        ret 0
      else if negb (Z.land data 0x80 =? 0) then
        let data := if negb (Z.land shift E0ESC =? 0) then data else Z.land data 0x7F in
        on_console (set_kbd_shift (Z.land shift (u32 (Z.lnot (Z.lor (entry shiftcode data) E0ESC))))) ;;;
        ret 0
      else
        let esc := negb (Z.land shift E0ESC =? 0) in
        let data := if esc then Z.lor data 0x80 else data in
        let shift := if esc then Z.land shift (u32 (Z.lnot E0ESC)) else shift in
        let shift := Z.lxor (Z.lor shift (entry shiftcode data)) (entry togglecode data) in
        on_console (set_kbd_shift shift) ;;;
        let c := entry (charcode (Z.land shift (Z.lor CTL SHIFT))) data in
        ret (if negb (Z.land shift CAPSLOCK =? 0) then
               if (97 <=? c) && (c <=? 122) then c - 32
               else if (65 <=? c) && (c <=? 90) then c + 32
               else c
             else c)
  end.

Definition uartgetc : FS Z :=
  u <- get_console uart ;;
  if negb u then ret (-1)
  else
    q <- get_console uart_in ;;
    match q with
    | [] => ret (-1)
    | c :: q' => on_console (set_uart_in q') ;;; ret c
    end.

(** [status] is what the line-status register reads; the settings of the line
    are not part of the state.  The byte that is waiting is thrown away. *)
Definition uartinit (status : Z) : FS unit :=
  if status =? 0xFF then ret tt
  else
    on_console (set_uart true) ;;;
    on_console (fun k => set_uart_in (tail (uart_in k)) k) ;;;
    uartputs (text "xv6..." ++ [10]).

(** ** Input *)
Class ConsImage : Type := { input_r_addr : Z }.

Section Input.
Context {I : FsImage} {W : Wakeups} {CI : ConsImage}.

Definition in_cell (i : Z) : FS Z := get_console (fun k => nth (Z.to_nat (i mod INPUT_BUF)) (in_buf k) 0).

(** Kill line. *)
Fixpoint kill_line (fuel : nat) : FS unit :=
  e <- get_console in_e ;;
  w <- get_console in_w ;;
  if e =? w then ret tt
  else
    c <- in_cell (u32 (e - 1)) ;;
    if c =? 10 then ret tt
    else
      match fuel with
      | O => nofuel
      | S fuel' =>
          on_console (set_in_e (u32 (e - 1))) ;;;
          consputc BACKSPACE ;;;
          kill_line fuel'
      end.

Definition backspace : FS unit :=
  e <- get_console in_e ;;
  w <- get_console in_w ;;
  when (negb (e =? w)) (on_console (set_in_e (u32 (e - 1))) ;;; consputc BACKSPACE).

Definition type_char (c : Z) : FS unit :=
  e <- get_console in_e ;;
  r <- get_console in_r ;;
  when (negb (c =? 0) && (u32 (e - r) <? INPUT_BUF)) (
    let c := if c =? 13 then 10 else c in
    on_console (fun k => set_in_buf (<[Z.to_nat (e mod INPUT_BUF) := u8 c]> (in_buf k)) k) ;;;
    on_console (set_in_e (u32 (e + 1))) ;;;
    consputc c ;;;
    when ((c =? 10) || (c =? ctl 68) || (u32 (e + 1) =? u32 (r + INPUT_BUF))) (
      on_console (set_in_w (u32 (e + 1))) ;;;
      fs_wakeup input_r_addr)).

(** One round of the loop; the result is [doprocdump]. *)
Definition input_char (c : Z) (doprocdump : bool) : FS bool :=
  if c =? ctl 80 then ret true
  else if c =? ctl 85 then kill_line (Z.to_nat INPUT_BUF) ;;; ret doprocdump
  else if (c =? ctl 72) || (c =? 127) then backspace ;;; ret doprocdump
  else type_char c ;;; ret doprocdump.

Fixpoint consoleintr_loop (fuel : nat) (getc : FS Z) (doprocdump : bool) : FS bool :=
  c <- getc ;;
  if c <? 0 then ret doprocdump
  else
    match fuel with
    | O => nofuel
    | S fuel' => d <- input_char c doprocdump ;; consoleintr_loop fuel' getc d
    end.

(** Whether [procdump] is to be called. *)
Definition consoleintr (fuel : nat) (getc : FS Z) : FS bool :=
  fs_acquire ConsLock ;;;
  d <- consoleintr_loop fuel getc false ;;
  fs_release ConsLock ;;;
  ret d.

(** The ports deliver what has arrived. *)
Definition kbdintr_fs : FS bool := q <- get_console kbd_in ;; consoleintr (S (length q)) kbdgetc.
Definition uartintr_fs : FS bool := q <- get_console uart_in ;; consoleintr (S (length q)) uartgetc.

(** The inner loop of [consoleread]: [false] when the process was killed. *)
Fixpoint consoleread_wait (fuel : nat) : FS bool :=
  r <- get_console in_r ;;
  w <- get_console in_w ;;
  if r =? w then
    k <- gets fkilled ;;
    if k : bool then ret false
    else
      match fuel with
      | O => nofuel
      | S fuel' =>
          fs_release ConsLock ;;;
          sleep_on input_r_addr ;;;
          fs_acquire ConsLock ;;;
          consoleread_wait fuel'
      end
  else ret true.

(** The outer loop with [n] bytes to go, [first] while none was taken: the
    bytes taken, with [false] when the process was killed. *)
Fixpoint consoleread_loop (n : nat) (first : bool) : FS (bool * list Z) :=
  match n with
  | O => ret (true, [])
  | S n' =>
      ok <- consoleread_wait wakeups ;;
      if negb ok then ret (false, [])
      else
        r <- get_console in_r ;;
        c <- in_cell r ;;
        on_console (set_in_r (u32 (r + 1))) ;;;
        if c =? ctl 68 then
          when (negb first) (on_console (set_in_r r)) ;;;
          ret (true, [])
        else if c =? 10 then ret (true, [c])
        else
          p <- consoleread_loop n' false ;;
          ret (fst p, c :: snd p)
  end.

Definition consoleread (ip : nat) (n : Z) : FS (Z * list Z) :=
  iunlock ip ;;;
  fs_acquire ConsLock ;;;
  p <- consoleread_loop (Z.to_nat (i32 n)) true ;;
  fs_release ConsLock ;;;
  ilock ip ;;;
  ret (if fst p : bool then Z.of_nat (length (snd p)) else -1, snd p).

Definition consolewrite (ip : nat) (buf : list Z) (n : Z) : FS Z :=
  iunlock ip ;;;
  fs_acquire ConsLock ;;;
  consputs (map u8 (take (Z.to_nat (i32 n)) buf)) ;;;
  fs_release ConsLock ;;;
  ilock ip ;;;
  ret (i32 n).

(** [consoleinit] fills the row of [devsw]. *)
Definition console_devsw : DevSw := {|
  dev_read := fun major => if major =? CONSOLE then Some consoleread else None;
  dev_write := fun major => if major =? CONSOLE then Some consolewrite else None;
|}.
Definition consoleinit : FS unit := on_console (set_locking true).
End Input.
