(* ===== verification/ConsoleProps.v ===== *)
(** * The console is a line editor

    The ring of [console.c] holds two lists: what is [ready] to be read, and
    the [line] being typed.  Characters go to the line, where they can be taken
    back; the end of a line, control-D or a full ring makes the line ready and
    wakes the readers.  [consoleread] takes the bytes of one line, sleeps only
    when nothing is ready, and goes on where it stopped.

    Output: the cursor stays on the screen, and the serial line is sent exactly
    the bytes printed. *)
From Stdlib Require Import ZArith Lia Bool.
From stdpp Require Import base numbers list strings.
From S2P Require Import Prelude Machine Cstring FsState Bio BioInv Log LogCrash Fs Console.

(** ** Output *)

(** The ring, what the input ports have, and the two together: all but the
    screen and the serial line. *)
Definition edit_of (k : console) : list Z * Z * Z * Z := (in_buf k, in_r k, in_w k, in_e k).
Definition ports_of (k : console) : bool * Z * list Z * list Z := (uart k, kbd_shift k, kbd_in k, uart_in k).
Definition input_of (k : console) : list Z * Z * Z * Z * (bool * Z * list Z * list Z) * bool := (edit_of k, ports_of k, locking k).

(** A terminal of 24 lines as a window on an endless sheet: it scrolls by
    moving the window, not the text. *)
Record tty : Type := mk_tty { sheet : Z -> Z; head : Z; topline : Z }.
Definition tty_put (t : tty) (c : Z) : tty :=
  let h := if c =? 10 then (head t / 80 + 1) * 80
           else if c =? BACKSPACE then (if head t =? 80 * topline t then head t else head t - 1)
           else head t + 1 in
  let m := if (c =? 10) || (c =? BACKSPACE) then sheet t else put_cell (head t) (0x700 + c mod 256) (sheet t) in
  mk_tty (put_cell h (0x700 + 32) m) h (if h =? 80 * (topline t + 24) then topline t + 1 else topline t).

Record shows (k : console) (t : tty) : Prop := {
  sw_hi : 0 <= cursor_hi k < 256;
  sw_lo : 0 <= cursor_lo k < 256;
  sw_head : head t = 80 * topline t + (cursor_hi k * 256 + cursor_lo k);
  sw_pos : cursor_hi k * 256 + cursor_lo k < 24 * 80;
  sw_cells : forall i, 0 <= i < 24 * 80 -> crt k i = sheet t (80 * topline t + i);
  sw_below : forall i, 80 * (topline t + 24) <= i -> sheet t i = 0;
}.

(** What a printed character is on the serial line. *)
Definition sent (c : Z) : list Z := if c =? BACKSPACE then [8; 32; 8] else [u8 c].

Record printed (l : list Z) (t : tty) (k k' : console) : Prop := {
  pr_shows : shows k' (fold_left tty_put l t);
  pr_live : panicked k' = false;
  pr_input : input_of k' = input_of k;
  pr_serial : serial k' = if uart k then reverse (concat (sent <$> l)) ++ serial k else serial k;
}.

Lemma printed_trans l l' t k k1 k' : printed l t k k1 -> printed l' (fold_left tty_put l t) k1 k' -> printed (l ++ l') t k k'.
Proof.
  intros [A1 A2 A3 A4] [B1 B2 B3 B4]. constructor; [by rewrite fold_left_app|done|congruence|].
  assert (uart k1 = uart k) as Hu by (unfold input_of, ports_of in A3; congruence).
  rewrite B4, Hu, A4. destruct (uart k); [|done]. by rewrite fmap_app, concat_app, reverse_app, app_assoc.
Qed.

Lemma wp_on_console f (Q : unit -> fsys -> Prop) s : Q tt (set_fcons (f (fcons s)) s) -> wp (on_console f) Q s.
Proof. exact id. Qed.
Lemma wp_get_console {A} (f : console -> A) (Q : A -> fsys -> Prop) s : Q (f (fcons s)) s -> wp (get_console f) Q s.
Proof. exact id. Qed.
Lemma set_fcons_same s : set_fcons (fcons s) s = s.
Proof. by destruct s. Qed.

Lemma cursor_bytes pos : 0 <= pos < 24 * 80 -> u8 (Z.shiftr pos 8) * 256 + u8 pos = pos.
Proof. intros H. rewrite Z.shiftr_div_pow2 by lia. change (2 ^ 8) with 256. unfold u8. change (2 ^ 8) with 256. zlia. Qed.
Lemma lor_bytes hi lo : 0 <= hi -> 0 <= lo < 256 -> Z.lor (Z.shiftl hi 8) lo = hi * 256 + lo.
Proof. intros Hh Hl. rewrite Z.shiftl_mul_pow2 by lia. apply (lor_disjoint_add _ lo 8); change (2 ^ 8) with 256; zlia. Qed.
Lemma cell_value c : 0 <= c -> Z.lor (Z.land c 0xff) 0x0700 = 0x700 + c mod 256.
Proof.
  intros Hc. rewrite Z.lor_comm. change 0xff with (Z.ones 8). rewrite Z.land_ones by lia. change (2 ^ 8) with 256.
  apply (lor_disjoint_add _ _ 8); change (2 ^ 8) with 256; [lia|done|zlia].
Qed.

(** The end of [cgaputc], for a cursor that has moved to [pos]. *)
Definition cga_finish (pos : Z) (k : console) : console :=
  let k1 := if 24 <=? pos / 80 then set_crt (blank (pos - 80) (scroll (crt k))) k else k in
  let p := if 24 <=? pos / 80 then pos - 80 else pos in
  let k2 := set_cursor (u8 (Z.shiftr p 8)) (u8 p) k1 in
  set_crt (put_cell p (Z.lor 32 0x0700) (crt k2)) k2.
Lemma wp_cga_finish pos (Q : unit -> fsys -> Prop) s : 0 <= pos <= 24 * 80 -> Q tt (set_fcons (cga_finish pos (fcons s)) s) ->
  wp (if (pos <? 0) || (25 * 80 <? pos) then panic "pos under/overflow"
      else
        pos <- (if 24 <=? pos / 80 then
                  on_console (fun k => set_crt (blank (pos - 80) (scroll (crt k))) k) ;;;
                  ret (pos - 80)
                else ret pos) ;;
        on_console (fun k => set_cursor (u8 (Z.shiftr pos 8)) (u8 pos) k) ;;;
        on_console (fun k => set_crt (put_cell pos (Z.lor 32 0x0700) (crt k)) k)) Q s.
Proof.
  intros Hp HQ. replace ((pos <? 0) || (25 * 80 <? pos)) with false by lia. unfold cga_finish in HQ.
  destruct (24 <=? pos / 80); apply HQ.
Qed.

Lemma shows_finish pos k m t : (forall i, 0 <= i < 24 * 80 -> crt k i = m (80 * topline t + i)) ->
  (forall i, 80 * (topline t + 24) <= i -> m i = 0) -> 0 <= pos <= 24 * 80 ->
  let h := 80 * topline t + pos in
  shows (cga_finish pos k) (mk_tty (put_cell h (0x700 + 32) m) h (if h =? 80 * (topline t + 24) then topline t + 1 else topline t)).
Proof.
  intros Hm Hb Hp h. unfold cga_finish. change (Z.lor 32 1792) with (0x700 + 32).
  assert ((24 <=? pos / 80) = (pos =? 24 * 80)) as -> by (destruct (Z.leb_spec 24 (pos / 80)), (Z.eqb_spec pos (24 * 80)); zlia).
  assert ((h =? 80 * (topline t + 24)) = (pos =? 24 * 80)) as -> by (subst h; lia).
  destruct (Z.eqb_spec pos (24 * 80)) as [->|Hne]; constructor; cbn [set_crt set_cursor crt cursor_hi cursor_lo sheet head topline];
    try rewrite cursor_bytes by lia; try (unfold u8; change (2 ^ 8) with 256; zlia); try (subst h; lia).
  - intros i Hi. unfold put_cell, blank, scroll. subst h.
    replace (80 * (topline t + 1) + i =? 80 * topline t + 24 * 80) with (i =? 24 * 80 - 80) by lia.
    destruct (Z.eqb_spec i (24 * 80 - 80)); [done|]. destruct (Z.leb_spec (24 * 80 - 80) i); cbn [andb].
    + replace (i <? 24 * 80) with true by lia. rewrite Hb; [done|lia].
    + replace ((0 <=? i) && (i <? 23 * 80)) with true by lia. rewrite Hm by lia. f_equal. lia.
  - intros i Hi. unfold put_cell. subst h. replace (i =? _) with false by lia. apply Hb. lia.
  - intros i Hi. unfold put_cell. subst h. replace (80 * topline t + i =? 80 * topline t + pos) with (i =? pos) by lia.
    destruct (i =? pos); [done|by apply Hm].
  - intros i Hi. unfold put_cell. subst h. replace (i =? _) with false by lia. by apply Hb.
Qed.

Lemma wp_cgaputc c t (Q : unit -> fsys -> Prop) s : shows (fcons s) t -> 0 <= c <= BACKSPACE ->
  (forall k', shows k' (tty_put t c) -> input_of k' = input_of (fcons s) -> panicked k' = panicked (fcons s) ->
     serial k' = serial (fcons s) -> Q tt (set_fcons k' s)) ->
  wp (cgaputc c) Q s.
Proof.
  intros [S1 S2 S3 S4 S5 S6] Hc HQ. unfold BACKSPACE in Hc. unfold cgaputc. wp_step. apply wp_get_console. wp_step. apply wp_get_console. cbv zeta.
  rewrite lor_bytes by lia. set (pos := cursor_hi (fcons s) * 256 + cursor_lo (fcons s)) in *.
  assert (forall p k, p = pos \/ p = pos - 1 \/ p = pos + 1 \/ True -> input_of (cga_finish p k) = input_of k /\ panicked (cga_finish p k) = panicked k /\
    serial (cga_finish p k) = serial k) as Hf by (intros p k _; unfold cga_finish; by destruct (24 <=? p / 80)).
  unfold tty_put in HQ. wp_step. destruct (Z.eqb_spec c 10) as [->|H10]; cbn [orb] in HQ.
  - wp_step. apply wp_cga_finish; [zlia|]. destruct (Hf (pos + (80 - pos mod 80)) (fcons s)) as (F1 & F2 & F3); [auto|]. apply HQ; try done.
    replace ((head t / 80 + 1) * 80) with (80 * topline t + (pos + (80 - pos mod 80))) by (rewrite S3; zlia).
    apply (shows_finish _ (fcons s) (sheet t) t); [done|done|zlia].
  - destruct (Z.eqb_spec c BACKSPACE) as [->|Hb]; cbn [orb] in HQ.
    + wp_step. set (p := if 0 <? pos then pos - 1 else pos). assert (0 <= p <= 24 * 80) by (subst p; destruct (Z.ltb_spec 0 pos); lia).
      apply wp_cga_finish; [done|]. destruct (Hf p (fcons s)) as (F1 & F2 & F3); [auto|]. apply HQ; try done.
      replace (if head t =? 80 * topline t then head t else head t - 1) with (80 * topline t + p).
      2:{ rewrite S3. subst p. destruct (Z.ltb_spec 0 pos); [replace (_ =? _) with false by lia; lia|].
          replace (_ =? _) with true by lia. done. }
      apply (shows_finish _ (fcons s) (sheet t) t); [done|done|done].
    + wp_step. apply wp_on_console. wp_step. apply wp_cga_finish; [lia|]. cbn [fcons set_fcons].
      set (k1 := set_crt (put_cell pos (Z.lor (Z.land c 0xff) 0x0700) (crt (fcons s))) (fcons s)).
      destruct (Hf (pos + 1) k1) as (F1 & F2 & F3); [auto|]. apply HQ; try done.
      replace (head t + 1) with (80 * topline t + (pos + 1)) by lia.
      apply (shows_finish _ k1 (put_cell (head t) (0x700 + c mod 256) (sheet t)) t); [| |lia].
      * intros i Hi. unfold put_cell. cbn [k1 set_crt crt]. rewrite cell_value by lia. rewrite S3.
        replace (80 * topline t + i =? 80 * topline t + pos) with (i =? pos) by lia. unfold put_cell. destruct (i =? pos); [done|by apply S5].
      * intros i Hi. unfold put_cell. rewrite S3. replace (i =? _) with false by lia. by apply S6.
Qed.

Lemma wp_uartputc c (Q : unit -> fsys -> Prop) s :
  (forall k', (k' = if uart (fcons s) then set_serial (u8 c :: serial (fcons s)) (fcons s) else fcons s) -> Q tt (set_fcons k' s)) ->
  wp (uartputc c) Q s.
Proof.
  intros HQ. unfold uartputc. wp_step. apply wp_get_console. destruct (uart (fcons s)); [apply wp_on_console; by apply HQ|].
  change (Q tt s). specialize (HQ _ eq_refl). by rewrite set_fcons_same in HQ.
Qed.

Lemma wp_consputc c t (Q : unit -> fsys -> Prop) s : shows (fcons s) t -> panicked (fcons s) = false -> 0 <= c <= BACKSPACE ->
  (forall k', printed [c] t (fcons s) k' -> Q tt (set_fcons k' s)) -> wp (consputc c) Q s.
Proof.
  intros Hs Hp Hc HQ. unfold consputc. wp_step. apply wp_get_console. rewrite Hp. wp_step.
  assert (forall k1 : console, (k1 = if uart (fcons s) then set_serial (reverse (sent c) ++ serial (fcons s)) (fcons s) else fcons s) ->
    wp (cgaputc c) Q (set_fcons k1 s)) as Hcga.
  { intros k1 Hk1. apply (wp_cgaputc c t); [|done|]; cbn [fcons set_fcons].
    - destruct Hs. subst k1. by destruct (uart (fcons s)); constructor.
    - intros k' H1 H2 H3 H4. apply HQ. constructor; [done|by rewrite H3, Hk1; destruct (uart (fcons s))|by rewrite H2, Hk1; destruct (uart (fcons s))|].
      cbn [fmap list_fmap concat]. rewrite app_nil_r, H4, Hk1. by destruct (uart (fcons s)). }
  unfold sent in Hcga. destruct (c =? BACKSPACE).
  - wp_step. apply wp_uartputc. intros k1 ->. wp_step. apply wp_uartputc. intros k2 ->. apply wp_uartputc. intros k3 ->. apply Hcga.
    cbn [fcons set_fcons]. destruct (uart (fcons s)) eqn:E; cbn [uart set_serial]; rewrite ?E; cbn [uart set_serial]; rewrite ?E; done.
  - apply wp_uartputc. intros k1 ->. apply Hcga. by destruct (uart (fcons s)).
Qed.

Lemma wp_consputs l : forall t (Q : unit -> fsys -> Prop) s, shows (fcons s) t -> panicked (fcons s) = false ->
  Forall (fun c => 0 <= c <= BACKSPACE) l -> (forall k', printed l t (fcons s) k' -> Q tt (set_fcons k' s)) -> wp (consputs l) Q s.
Proof.
  induction l as [|c l IH]; intros t Q s Hs Hp Hl HQ; cbn [consputs].
  - wp_step. rewrite <- (set_fcons_same s). apply HQ. by constructor; [..|destruct (uart (fcons s))].
  - apply Forall_cons in Hl as [Hc Hl]. wp_step. apply (wp_consputc c t); [done..|]. intros k1 H1.
    apply (IH (tty_put t c)); [apply H1|apply H1|done|]. intros k' H'. cbn [fcons set_fcons] in *. apply HQ.
    by apply (printed_trans [c] l t _ k1).
Qed.

(** ** The ring *)
Record typed (k : console) (ready line : list Z) : Prop := {
  ty_len : length (in_buf k) = Z.to_nat INPUT_BUF;
  ty_r : 0 <= in_r k < 2 ^ 32;
  ty_w : in_w k = u32 (in_r k + Z.of_nat (length ready));
  ty_e : in_e k = u32 (in_r k + Z.of_nat (length ready) + Z.of_nat (length line));
  ty_room : Z.of_nat (length ready) + Z.of_nat (length line) <= INPUT_BUF;
  ty_full : Z.of_nat (length ready) + Z.of_nat (length line) = INPUT_BUF -> line = [];
  ty_cells : forall j c, (ready ++ line) !! j = Some c -> in_buf k !! Z.to_nat ((in_r k + Z.of_nat j) mod INPUT_BUF) = Some c;
  ty_line : Forall (fun c => c <> 10 /\ c <> ctl 68) line;
}.

Lemma typed_ext k k' ready line : edit_of k' = edit_of k -> typed k ready line -> typed k' ready line.
Proof. unfold edit_of. intros [= E1 E2 E3 E4] []. constructor; rewrite ?E1, ?E2, ?E3, ?E4; done. Qed.

Lemma u32_mod x : u32 x mod INPUT_BUF = x mod INPUT_BUF.
Proof. unfold u32, INPUT_BUF. rewrite pow2_32. zlia. Qed.
Lemma u32_shift x a b : 0 <= a <= INPUT_BUF -> 0 <= b <= INPUT_BUF -> u32 (x + a) = u32 (x + b) -> a = b.
Proof. unfold u32, INPUT_BUF. rewrite pow2_32. zlia. Qed.
Lemma u32_fix x a : 0 <= x < 2 ^ 32 -> 0 <= a <= INPUT_BUF -> u32 (x + a) = x -> a = 0.
Proof. unfold u32, INPUT_BUF. rewrite pow2_32. zlia. Qed.
Lemma u32_diff x a : 0 <= a <= INPUT_BUF -> u32 (u32 (x + a) - x) = a.
Proof. unfold u32, INPUT_BUF. rewrite pow2_32. zlia. Qed.
Lemma u32_plus x a b : u32 (u32 (x + a) + b) = u32 (x + a + b).
Proof. unfold u32. rewrite pow2_32. zlia. Qed.
Lemma u32_minus x a b : u32 (u32 (x + a) - b) = u32 (x + a - b).
Proof. unfold u32. rewrite pow2_32. zlia. Qed.

Lemma typed_empty {k ready line} (Ht : typed k ready line) : in_e k =? in_w k = match line with [] => true | _ => false end.
Proof.
  destruct Ht as [T1 T2 T3 T4 T5 _ _ _]. rewrite T3, T4. destruct line as [|c l]; [apply Z.eqb_eq; f_equal; simpl; lia|]. apply Z.eqb_neq. intros E.
  rewrite <- Z.add_assoc in E. apply u32_shift in E; simpl in *; lia.
Qed.

Lemma typed_none {k ready line} (Ht : typed k ready line) : (in_r k =? in_w k) = match ready with [] => true | _ => false end.
Proof.
  destruct Ht as [T1 T2 T3 _ T5 _ _ _]. rewrite T3. destruct ready as [|c l]; [apply Z.eqb_eq; rewrite u32_small; simpl; lia|]. apply Z.eqb_neq. intros E.
  symmetry in E. apply u32_fix in E; simpl in *; lia.
Qed.

Lemma typed_cell {k ready line} (Ht : typed k ready line) j c : (ready ++ line) !! j = Some c -> nth (Z.to_nat ((in_r k + Z.of_nat j) mod INPUT_BUF)) (in_buf k) 0 = c.
Proof. intros Hj. apply nth_lookup_Some. by apply (ty_cells _ _ _ Ht). Qed.

(** A byte is taken from the front. *)
Lemma typed_pop {k ready line} (Ht : typed k ready line) c rd : ready = c :: rd ->
  nth (Z.to_nat (in_r k mod INPUT_BUF)) (in_buf k) 0 = c /\ typed (set_in_r (u32 (in_r k + 1)) k) rd line.
Proof.
  intros ->. split; [rewrite <- (Z.add_0_r (in_r k)); by apply (typed_cell Ht 0)|]. destruct Ht as [T1 T2 T3 T4 T5 T6 T7 T8]. simpl in *.
  constructor; cbn [set_in_r in_buf in_r in_w in_e]; [done|apply u32_range|..|done].
  - rewrite T3, u32_plus. f_equal. lia.
  - rewrite T4, <- !Z.add_assoc, u32_plus. f_equal. lia.
  - lia.
  - lia.
  - intros j d Hj. rewrite Zplus_mod, u32_mod, <- Zplus_mod. replace (in_r k + 1 + Z.of_nat j) with (in_r k + Z.of_nat (S j)) by lia. by apply T7.
Qed.

(** The last character is taken back. *)
Lemma typed_back {k ready line} (Ht : typed k ready line) l c : line = l ++ [c] ->
  nth (Z.to_nat (u32 (in_e k - 1) mod INPUT_BUF)) (in_buf k) 0 = c /\ c <> 10 /\ typed (set_in_e (u32 (in_e k - 1)) k) ready l.
Proof.
  intros ->. pose proof Ht as [T1 T2 T3 T4 T5 T6 T7 T8]. rewrite length_app in *. cbn [length] in *. apply Forall_app in T8 as [T8 T9].
  apply Forall_cons in T9 as [T9 _]. split; [|split; [tauto|]].
  - rewrite T4, u32_mod, <- Z.add_assoc, Zminus_mod, u32_mod, <- Zminus_mod.
    replace (in_r k + (Z.of_nat (length ready) + Z.of_nat (length l + 1)) - 1) with (in_r k + Z.of_nat (length ready + length l)) by lia.
    apply (typed_cell Ht). rewrite app_assoc, lookup_app_r by (rewrite length_app; lia). rewrite length_app, Nat.sub_diag. done.
  - constructor; cbn [set_in_e in_buf in_r in_w in_e]; [done|done|done|..|done].
    + rewrite T4, <- Z.add_assoc, u32_minus. f_equal. lia.
    + lia.
    + lia.
    + intros j d Hj. apply T7. rewrite app_assoc. by apply lookup_app_l_Some.
Qed.

(** A character is put at the end, [c] not the end of a line. *)
Lemma typed_room {k ready line} (Ht : typed k ready line) : u32 (in_e k - in_r k) = Z.of_nat (length ready) + Z.of_nat (length line).
Proof. destruct Ht. rewrite ty_e0, <- Z.add_assoc. apply u32_diff. lia. Qed.

Lemma push_cells {k ready line} (Ht : typed k ready line) c : Z.of_nat (length ready) + Z.of_nat (length line) < INPUT_BUF -> forall j d, (ready ++ line ++ [c]) !! j = Some d ->
  <[Z.to_nat (in_e k mod INPUT_BUF) := c]> (in_buf k) !! Z.to_nat ((in_r k + Z.of_nat j) mod INPUT_BUF) = Some d.
Proof.
  intros Hroom j d Hj. destruct Ht as [T1 T2 T3 T4 T5 T6 T7 T8]. rewrite T4, u32_mod. rewrite app_assoc in Hj. unfold INPUT_BUF in *.
  apply lookup_app_Some in Hj as [Hj|[Hge Hj]].
  - rewrite list_lookup_insert_ne; [by apply T7|]. apply lookup_lt_Some in Hj. rewrite length_app in Hj. intros E.
    apply Z2Nat.inj in E; zlia.
  - rewrite length_app in Hge, Hj. destruct (j - (length ready + length line))%nat as [|x] eqn:E; [|done]. injection Hj as <-.
    replace (Z.of_nat j) with (Z.of_nat (length ready) + Z.of_nat (length line)) by lia. rewrite Z.add_assoc.
    apply list_lookup_insert_eq. rewrite T1. zlia.
Qed.

Definition pushed (k : console) (c : Z) : console := set_in_e (u32 (in_e k + 1)) (set_in_buf (<[Z.to_nat (in_e k mod INPUT_BUF) := c]> (in_buf k)) k).
Lemma typed_push {k ready line} (Ht : typed k ready line) c : Z.of_nat (length ready) + Z.of_nat (length line) + 1 < INPUT_BUF -> c <> 10 -> c <> ctl 68 ->
  typed (pushed k c) ready (line ++ [c]).
Proof.
  intros Hroom H1 H2. pose proof (push_cells Ht c ltac:(lia)) as Hc. destruct Ht as [T1 T2 T3 T4 T5 T6 T7 T8].
  constructor; cbn [pushed set_in_e set_in_buf in_buf in_r in_w in_e]; rewrite ?length_insert, ?length_app; cbn [length]; try done; try lia.
  - rewrite T4, <- Z.add_assoc, u32_plus. f_equal. lia.
  - apply Forall_app. split; [done|]. by constructor.
Qed.
Lemma typed_commit {k ready line} (Ht : typed k ready line) c : Z.of_nat (length ready) + Z.of_nat (length line) < INPUT_BUF ->
  typed (set_in_w (u32 (in_e k + 1)) (pushed k c)) (ready ++ line ++ [c]) [].
Proof.
  intros Hroom. pose proof (push_cells Ht c Hroom) as Hc. destruct Ht as [T1 T2 T3 T4 T5 T6 T7 T8].
  constructor; cbn [pushed set_in_e set_in_w set_in_buf in_buf in_r in_w in_e]; rewrite ?length_insert, ?length_app; cbn [length]; try done; try lia.
  - rewrite T4, <- Z.add_assoc, u32_plus. f_equal. lia.
  - rewrite T4, <- Z.add_assoc, u32_plus. f_equal. lia.
  - intros j d. rewrite app_nil_r. apply Hc.
Qed.

(** ** Editing *)
Record desk (k : console) (t : tty) (ready line : list Z) : Prop := {
  dk_shows : shows k t;
  dk_live : panicked k = false;
  dk_typed : typed k ready line;
}.

(** What typing [c] does to the two lists, and what is echoed. *)
Definition enters (c : Z) (ready line : list Z) : bool := negb (c =? 0) && (length ready + length line <? Z.to_nat INPUT_BUF)%nat.
Definition ends_line (c : Z) (ready line : list Z) : bool :=
  (c =? 10) || (c =? ctl 68) || (length ready + length line + 1 =? Z.to_nat INPUT_BUF)%nat.
Definition newline (c : Z) : Z := if c =? 13 then 10 else c.
Definition key (st : list Z * list Z) (c : Z) : list Z * list Z :=
  let (ready, line) := st in
  if c =? ctl 80 then st
  else if c =? ctl 85 then (ready, [])
  else if (c =? ctl 72) || (c =? 127) then (ready, take (length line - 1) line)
  else if enters c ready line then
    if ends_line (newline c) ready line then (ready ++ line ++ [newline c], []) else (ready, line ++ [newline c])
  else st.
Definition echo (st : list Z * list Z) (c : Z) : list Z :=
  let (ready, line) := st in
  if c =? ctl 80 then []
  else if c =? ctl 85 then replicate (length line) BACKSPACE
  else if (c =? ctl 72) || (c =? 127) then replicate (Nat.min 1 (length line)) BACKSPACE
  else if enters c ready line then [newline c] else [].

(** Printed, with the ring perhaps changed too. *)
Record echoed (l : list Z) (t : tty) (k k' : console) : Prop := {
  ec_shows : shows k' (fold_left tty_put l t);
  ec_live : panicked k' = false;
  ec_ports : ports_of k' = ports_of k;
  ec_locking : locking k' = locking k;
  ec_serial : serial k' = if uart k then reverse (concat (sent <$> l)) ++ serial k else serial k;
}.

Lemma echoed_trans l l' t k k1 k' : echoed l t k k1 -> echoed l' (fold_left tty_put l t) k1 k' -> echoed (l ++ l') t k k'.
Proof.
  intros [A1 A2 A3 A4 A5] [B1 B2 B3 B4 B5]. constructor; [by rewrite fold_left_app|done|congruence|congruence|].
  assert (uart k1 = uart k) as Hu by (unfold ports_of in A3; congruence).
  rewrite B5, Hu, A5. destruct (uart k); [|done]. by rewrite fmap_app, concat_app, reverse_app, app_assoc.
Qed.
Lemma printed_echoed l t k k1 k' : printed l t k1 k' -> ports_of k1 = ports_of k -> locking k1 = locking k -> serial k1 = serial k -> echoed l t k k'.
Proof.
  intros [P1 P2 P3 P4] E1 E2 E3. unfold input_of in P3. constructor; [done|done|congruence|congruence|].
  assert (uart k1 = uart k) as Hu by (unfold ports_of in E1; congruence). by rewrite P4, Hu, E3.
Qed.
Lemma echoed_nil t k : shows k t -> panicked k = false -> echoed [] t k k.
Proof. intros. constructor; try done. by destruct (uart k). Qed.

Lemma unlocked (l : fslock) h : l ∉ h -> filter (fun x => x <> l) (l :: h) = h.
Proof.
  intros Hl. rewrite filter_cons_False by tauto. induction h as [|x h IH]; [done|]. apply not_elem_of_cons in Hl as [H1 H2].
  by rewrite filter_cons_True, IH by done.
Qed.

Section Edit.
Context {CI : ConsImage}.

Lemma wp_print t ready line l k1 (Q : unit -> fsys -> Prop) s c : fcons s = k1 -> desk k1 t ready line -> 0 <= c <= BACKSPACE ->
  l = [c] -> (forall k', desk k' (tty_put t c) ready line -> printed l t k1 k' -> Q tt (set_fcons k' s)) -> wp (consputc c) Q s.
Proof.
  intros <- [D1 D2 D3] Hc -> HQ. apply (wp_consputc _ t); [done..|]. intros k' Hp. apply HQ; [|done].
  destruct Hp as [P1 P2 P3 P4]. constructor; [done|done|]. eapply typed_ext; [|exact D3]. unfold input_of in P3. congruence.
Qed.

Lemma wp_erase t ready line l c (Q : unit -> fsys -> Prop) s : desk (fcons s) t ready line -> line = l ++ [c] ->
  (forall k', desk k' (tty_put t BACKSPACE) ready l -> echoed [BACKSPACE] t (fcons s) k' -> Q tt (set_fcons k' s)) ->
  wp (on_console (set_in_e (u32 (in_e (fcons s) - 1))) ;;; consputc BACKSPACE) Q s.
Proof.
  intros [D1 D2 D3] Hl HQ. destruct (typed_back D3 _ _ Hl) as (_ & _ & D4). wp_step. apply wp_on_console.
  eapply (wp_print t ready l); [done| |done|done|]; cbn [fcons set_fcons].
  - constructor; [by destruct D1; constructor|done|done].
  - intros k' Hd Hp. apply HQ; [done|]. by eapply printed_echoed.
Qed.

Lemma wp_kill_line ready line : forall fuel t (Q : unit -> fsys -> Prop) s, desk (fcons s) t ready line -> (length line <= fuel)%nat ->
  (forall k', desk k' (fold_left tty_put (replicate (length line) BACKSPACE) t) ready [] ->
     echoed (replicate (length line) BACKSPACE) t (fcons s) k' -> Q tt (set_fcons k' s)) -> wp (kill_line fuel) Q s.
Proof.
  induction line as [|c line IH] using rev_ind; intros fuel t Q s Hd Hf HQ.
  - assert (Q tt s) as HQ'. { rewrite <- (set_fcons_same s). apply HQ; [done|]. apply echoed_nil; apply Hd. }
    destruct fuel; cbn [kill_line]; wp_step; apply wp_get_console; wp_step; apply wp_get_console; rewrite (typed_empty (dk_typed _ _ _ _ Hd)); by wp_step.
  - rewrite length_app in Hf. cbn [length] in Hf. destruct fuel as [|fuel]; [lia|]. cbn [kill_line].
    destruct (typed_back (dk_typed _ _ _ _ Hd) line c eq_refl) as (Hc & Hc10 & _).
    wp_step. apply wp_get_console. wp_step. apply wp_get_console. rewrite (typed_empty (dk_typed _ _ _ _ Hd)).
    replace (match line ++ [c] with [] => true | _ => false end) with false by (by destruct line).
    wp_step. unfold in_cell. apply wp_get_console. rewrite Hc, (proj2 (Z.eqb_neq _ _)) by done.
    match goal with |- wp (bind ?a (fun _ => bind ?b (fun _ => ?c))) _ _ => change (wp (bind (bind a (fun _ => b)) (fun _ => c)) Q s) end.
    wp_step. eapply (wp_erase t ready _ line c); [done|done|]. intros k1 H1 E1. apply (IH fuel (tty_put t BACKSPACE)); [done|lia|]. cbn [fcons set_fcons].
    intros k' H' E'. rewrite length_app, Nat.add_comm in HQ. apply (HQ k'); [done|]. by apply (echoed_trans [BACKSPACE] _ t _ k1).
Qed.

(** The readers are woken when there is more to read. *)
Definition edited (st st' : list Z * list Z) (t : tty) (l : list Z) (s s' : fsys) : Prop :=
  exists k' n, s' = set_wakes (replicate n input_r_addr ++ wakes s) (set_fcons k' s) /\
    desk k' (fold_left tty_put l t) (fst st') (snd st') /\ echoed l t (fcons s) k' /\ (fst st' = fst st \/ n <> 0%nat).

Lemma edited_quiet k' st st' t l s : desk k' (fold_left tty_put l t) (fst st') (snd st') -> echoed l t (fcons s) k' -> fst st' = fst st ->
  edited st st' t l s (set_fcons k' s).
Proof. intros H1 H2 H3. exists k', 0%nat. split; [by destruct s|]. split_and!; [done|done|by left]. Qed.

Lemma edited_trans st st1 st' t l l' s s1 s' : edited st st1 t l s s1 -> edited st1 st' (fold_left tty_put l t) l' s1 s' ->
  edited st st' t (l ++ l') s s'.
Proof.
  intros (k1 & n1 & -> & D1 & E1 & W1) (k' & n' & -> & D' & E' & W'). exists k', (n' + n1)%nat. cbn [fcons set_wakes set_fcons] in *.
  split; [cbn [wakes set_wakes]; by rewrite replicate_add, <- app_assoc|]. split; [by rewrite fold_left_app|].
  split; [by eapply echoed_trans|]. destruct W1 as [W1|W1], W' as [W'|W']; [left; congruence|right; lia..].
Qed.

(** The counter [w] does not show. *)
Lemma shows_set_w w k t : shows k t -> shows (set_in_w w k) t.
Proof. intros []. by constructor. Qed.
Lemma echoed_set_w w l t k k' : echoed l t k k' -> echoed l t k (set_in_w w k').
Proof. intros []. constructor; [by apply shows_set_w|done..]. Qed.

Lemma wp_type_char c ready line t (Q : unit -> fsys -> Prop) s : desk (fcons s) t ready line -> 0 <= c < 256 ->
  (forall s', edited (ready, line) (if enters c ready line then if ends_line (newline c) ready line then (ready ++ line ++ [newline c], [])
       else (ready, line ++ [newline c]) else (ready, line)) t (if enters c ready line then [newline c] else []) s s' -> Q tt s') ->
  wp (type_char c) Q s.
Proof.
  intros Hd Hc HQ. pose proof (dk_typed _ _ _ _ Hd) as Ht. unfold type_char. wp_step. apply wp_get_console. wp_step. apply wp_get_console.
  rewrite (typed_room Ht).
  assert (negb (c =? 0) && (Z.of_nat (length ready) + Z.of_nat (length line) <? INPUT_BUF) = enters c ready line) as ->
    by (unfold enters, INPUT_BUF; f_equal; destruct (Z.ltb_spec (Z.of_nat (length ready) + Z.of_nat (length line)) 128), (Nat.ltb_spec (length ready + length line) (Z.to_nat 128)); lia).
  destruct (enters c ready line) eqn:He.
  2:{ change (Q tt s). apply HQ. rewrite <- (set_fcons_same s) at 2. apply edited_quiet; [done| |done]. apply echoed_nil; apply Hd. }
  cbn [when]. cbv zeta. fold (newline c). assert (u8 (newline c) = newline c) as Hu8 by (unfold newline, u8; change (2 ^ 8) with 256; destruct (c =? 13); zlia).
  assert (0 <= newline c < 256) as Hnl by (unfold newline; destruct (c =? 13); lia).
  rewrite Hu8. wp_step. apply wp_on_console. wp_step. apply wp_on_console. cbn [fcons set_fcons].
  change (set_in_e _ (set_in_buf _ (fcons s))) with (pushed (fcons s) (newline c)). wp_step.
  assert (shows (pushed (fcons s) (newline c)) t) as Hs by (destruct (dk_shows _ _ _ _ Hd); by constructor).
  apply (wp_consputc (newline c) t); [done|apply Hd|unfold BACKSPACE; lia|]. intros k1 Hp. cbn [fcons set_fcons] in Hp.
  assert (in_r k1 = in_r (fcons s) /\ in_e k1 = u32 (in_e (fcons s) + 1)) as [Hr1 He1].
  { pose proof (pr_input _ _ _ _ Hp) as E. unfold input_of, edit_of in E. cbn in E. by injection E. }
  unfold enters, INPUT_BUF in He. apply andb_true_iff in He as [_ He%Nat.ltb_lt].
  assert (u32 (in_e (fcons s) + 1) =? u32 (in_r (fcons s) + INPUT_BUF) = (length ready + length line + 1 =? Z.to_nat INPUT_BUF)%nat) as ->.
  { rewrite (ty_e _ _ _ Ht), <- Z.add_assoc, u32_plus. destruct (Nat.eqb_spec (length ready + length line + 1) (Z.to_nat INPUT_BUF)) as [E|E].
    - apply Z.eqb_eq. f_equal. unfold INPUT_BUF in *. lia.
    - apply Z.eqb_neq. rewrite <- Z.add_assoc. intros E'. apply u32_shift in E'; unfold INPUT_BUF in *; lia. }
  fold (ends_line (newline c) ready line). destruct (ends_line (newline c) ready line) eqn:Hend; cbn [when].
  - wp_step. apply wp_on_console. apply wp_modify. apply HQ. exists (set_in_w (u32 (in_e (fcons s) + 1)) k1), 1%nat.
    split; [done|]. cbn [fst snd fold_left]. split_and!; [|by apply echoed_set_w, (printed_echoed _ _ _ _ _ Hp)|by right].
    constructor; [apply shows_set_w, Hp|apply Hp|]. eapply typed_ext; [|by apply (typed_commit Ht (newline c)); unfold INPUT_BUF; lia].
    pose proof (pr_input _ _ _ _ Hp) as E. unfold input_of, edit_of in E. cbn in E. injection E as E1 E2 E3 E4 _ _. unfold edit_of. cbn. congruence.
  - apply HQ, (edited_quiet k1 (ready, line) (ready, line ++ [newline c]) t [newline c] s); [|by apply (printed_echoed _ _ _ _ _ Hp)|done]. cbn [fst snd fold_left].
    unfold ends_line in Hend. apply orb_false_iff in Hend as [[H1%Z.eqb_neq H2%Z.eqb_neq]%orb_false_iff H3%Nat.eqb_neq].
    constructor; [apply Hp|apply Hp|]. eapply typed_ext; [|apply (typed_push Ht (newline c)); [unfold INPUT_BUF in *; lia|done|done]].
    pose proof (pr_input _ _ _ _ Hp) as E. unfold input_of in E. congruence.
Qed.

Lemma wp_backspace ready line t (Q : unit -> fsys -> Prop) s : desk (fcons s) t ready line ->
  (forall k', desk k' (fold_left tty_put (replicate (Nat.min 1 (length line)) BACKSPACE) t) ready (take (length line - 1) line) ->
     echoed (replicate (Nat.min 1 (length line)) BACKSPACE) t (fcons s) k' -> Q tt (set_fcons k' s)) ->
  wp backspace Q s.
Proof.
  intros Hd HQ. unfold backspace. wp_step. apply wp_get_console. wp_step. apply wp_get_console. rewrite (typed_empty (dk_typed _ _ _ _ Hd)).
  destruct line as [|c line _] using rev_ind.
  - change (Q tt s). rewrite <- (set_fcons_same s). apply HQ; [done|]. apply echoed_nil; apply Hd.
  - replace (match line ++ [c] with [] => true | _ => false end) with false by (by destruct line). cbn [negb when].
    rewrite length_app in HQ. cbn [length] in HQ. replace (Nat.min 1 (length line + 1)) with 1%nat in HQ by lia.
    replace (length line + 1 - 1)%nat with (length line) in HQ by lia. rewrite take_app_length in HQ. eapply wp_erase; [done|done|]. apply HQ.
Qed.

Lemma wp_input_char c d ready line t (Q : bool -> fsys -> Prop) s : desk (fcons s) t ready line -> 0 <= c < 256 ->
  (forall s', edited (ready, line) (key (ready, line) c) t (echo (ready, line) c) s s' -> Q (d || (c =? ctl 80)) s') ->
  wp (input_char c d) Q s.
Proof.
  intros Hd Hc HQ. unfold input_char. unfold key, echo in HQ. destruct (Z.eqb_spec c (ctl 80)) as [->|_].
  { wp_step. rewrite orb_true_r in HQ. apply HQ. rewrite <- (set_fcons_same s) at 2. apply edited_quiet; [done| |done]. apply echoed_nil; apply Hd. }
  rewrite orb_false_r in HQ. destruct (c =? ctl 85).
  { wp_step. apply (wp_kill_line ready line _ t); [done| |].
    - pose proof (ty_room _ _ _ (dk_typed _ _ _ _ Hd)). unfold INPUT_BUF in *. lia.
    - intros k' H1 H2. wp_step. by apply HQ, edited_quiet. }
  destruct ((c =? ctl 72) || (c =? 127)).
  { wp_step. apply (wp_backspace ready line t); [done|]. intros k' H1 H2. wp_step. by apply HQ, edited_quiet. }
  wp_step. apply (wp_type_char c ready line t); [done..|]. intros s' H. wp_step. by apply HQ.
Qed.

(** ** Interrupts *)
Fixpoint echoes (st : list Z * list Z) (cs : list Z) : list Z :=
  match cs with
  | [] => []
  | c :: cs' => echo st c ++ echoes (key st c) cs'
  end.

(** Some characters have arrived. *)
Definition session (st st' : list Z * list Z) (t : tty) (l : list Z) (s s' : fsys) : Prop :=
  exists k' n, s' = set_wakes (replicate n input_r_addr ++ wakes s) (set_fcons k' s) /\
    desk k' (fold_left tty_put l t) (fst st') (snd st') /\ uart k' = uart (fcons s) /\ locking k' = locking (fcons s) /\
    (serial k' = if uart (fcons s) then reverse (concat (sent <$> l)) ++ serial (fcons s) else serial (fcons s)) /\
    (fst st' = fst st \/ n <> 0%nat).

Lemma session_trans st st1 st' t l l' s s1 s' : session st st1 t l s s1 -> session st1 st' (fold_left tty_put l t) l' s1 s' ->
  session st st' t (l ++ l') s s'.
Proof.
  intros (k1 & n1 & -> & D1 & U1 & L1 & E1 & W1) (k' & n' & -> & D' & U' & L' & E' & W'). exists k', (n' + n1)%nat.
  cbn [fcons set_wakes set_fcons] in *. rewrite U1 in *.
  split; [cbn [wakes set_wakes]; by rewrite replicate_add, <- app_assoc|]. split_and!; [by rewrite fold_left_app|done|congruence| |].
  - rewrite E', E1. destruct (uart (fcons s)); [|done]. by rewrite fmap_app, concat_app, reverse_app, app_assoc.
  - destruct W1 as [W1|W1], W' as [W'|W']; [left; congruence|right; lia..].
Qed.

(** All but what the input ports have. *)
Definition outside (k : console) : list Z * Z * Z * Z * bool * bool * bool * (Z -> Z) * Z * Z * list Z :=
  (edit_of k, locking k, panicked k, uart k, crt k, cursor_hi k, cursor_lo k, serial k).
Lemma desk_outside k k' t ready line : outside k' = outside k -> desk k t ready line -> desk k' t ready line.
Proof.
  unfold outside. intros [= E1 E2 E3 E4 E5 E6 E7 E8 E9 E10 E11] [D1 D2 D3]. destruct D1. constructor; [|congruence|].
  - constructor; rewrite ?E8, ?E9, ?E10; done.
  - eapply typed_ext; [|exact D3]. unfold edit_of. congruence.
Qed.

(** What an input port promises: it delivers the characters of [port], one at
    each call, and touches nothing but the port. *)
Class Port (getc : FS Z) (port : console -> list Z) : Prop := {
  port_ext : forall k k', ports_of k' = ports_of k -> port k' = port k;
  port_next : forall s (Q : Z -> fsys -> Prop),
    match port (fcons s) with
    | [] => Q (-1) s
    | c :: cs => forall k', port k' = cs -> outside k' = outside (fcons s) -> Q c (set_fcons k' s)
    end -> wp getc Q s;
}.

Lemma wp_consoleintr_loop getc port `{!Port getc port} cs : forall fuel d st t (Q : bool -> fsys -> Prop) s,
  port (fcons s) = cs -> Forall (fun c => 0 <= c < 256) cs -> (length cs < fuel)%nat -> desk (fcons s) t (fst st) (snd st) ->
  (forall s', session st (fold_left key cs st) t (echoes st cs) s s' -> port (fcons s') = [] -> Q (d || bool_decide (ctl 80 ∈ cs)) s') ->
  wp (consoleintr_loop fuel getc d) Q s.
Proof.
  induction cs as [|c cs IH]; intros fuel d st t Q s Hp Hb Hf Hd HQ; (destruct fuel as [|fuel]; [simpl in Hf; lia|]); cbn [consoleintr_loop]; wp_step.
  - apply port_next. rewrite Hp. change (wp (ret d) Q s). wp_step. rewrite <- (orb_false_r d). apply HQ; [|done].
    exists (fcons s), 0%nat. split; [by destruct s|]. split_and!; [done..|by destruct (uart (fcons s))|by left].
  - apply port_next. rewrite Hp. intros k1 Hk1 Ho. apply Forall_cons in Hb as [Hc Hb]. rewrite (proj2 (Z.ltb_ge _ _)) by lia. wp_step.
    destruct st as [ready line]. cbn [fst snd] in Hd.
    apply (wp_input_char c d ready line t); [by eapply desk_outside|done|]. intros s1 (k2 & n & -> & D2 & E2 & W2).
    cbn [fcons set_fcons set_wakes wakes] in *. pose proof (ec_ports _ _ _ _ E2) as Hports.
    apply (IH fuel _ (key (ready, line) c) (fold_left tty_put (echo (ready, line) c) t)); cbn [fcons set_fcons set_wakes].
    + by rewrite (port_ext k1 k2 Hports).
    + done.
    + simpl in Hf. lia.
    + done.
    + intros s' H' Hp'. rewrite <- orb_assoc.
      replace ((c =? ctl 80) || bool_decide (ctl 80 ∈ cs)) with (bool_decide (ctl 80 ∈ c :: cs)).
      2:{ destruct (Z.eqb_spec c (ctl 80)) as [->|Hne]; [by rewrite bool_decide_true by left|]. cbn [orb]. apply bool_decide_ext.
          rewrite elem_of_cons. split; [intros [?|?]; [congruence|done]|by right]. }
      apply HQ; [|done]. cbn [echoes fold_left]. eapply session_trans; [|exact H']. exists k2, n. split; [done|].
      unfold outside in Ho. injection Ho as _ _ _ _ Hl _ Hu _ _ _ Hs. destruct E2 as [C1 C2 C3 C4 C5].
      assert (uart k2 = uart k1) by (unfold ports_of in C3; congruence). split_and!; [done|congruence|congruence| |done].
      rewrite C5, Hu, Hs. done.
Qed.

Lemma wp_consoleintr getc port `{!Port getc port} fuel st t (Q : bool -> fsys -> Prop) s :
  Forall (fun c => 0 <= c < 256) (port (fcons s)) -> (length (port (fcons s)) < fuel)%nat -> desk (fcons s) t (fst st) (snd st) -> ConsLock ∉ held s ->
  (forall s', session st (fold_left key (port (fcons s)) st) t (echoes st (port (fcons s))) s s' -> port (fcons s') = [] ->
     Q (bool_decide (ctl 80 ∈ port (fcons s))) s') ->
  wp (consoleintr fuel getc) Q s.
Proof.
  intros Hb Hf Hd Hl HQ. unfold consoleintr, fs_acquire, fs_release. wp_step. wp_step. wp_step. rewrite decide_False by done. wp_step. wp_step.
  apply (wp_consoleintr_loop getc port (port (fcons s)) fuel false st t); [done|done|done|done|].
  intros s' (k' & n & -> & H) Hp. wp_step. wp_step. wp_step. cbn [held set_wakes set_fcons set_held]. rewrite decide_True by (by left).
  wp_step. wp_step.
  apply HQ; [|done]. exists k', n. split; [|exact H]. rewrite unlocked by done. by destruct s.
Qed.
End Edit.

(** ** The two ports *)
Definition uart_port (k : console) : list Z := if uart k then uart_in k else [].
#[export] Instance uart_port_ok : Port uartgetc uart_port.
Proof.
  constructor.
  - unfold ports_of, uart_port. intros k k' [= -> _ _ ->]. done.
  - intros s Q HQ. unfold uart_port in HQ. unfold uartgetc. wp_step. apply wp_get_console. destruct (uart (fcons s)) eqn:Eu; cbn [negb]; [|by wp_step].
    wp_step. apply wp_get_console. destruct (uart_in (fcons s)) as [|c cs]; [by wp_step|]. wp_step. apply wp_on_console. wp_step.
    apply HQ; [by cbn; rewrite Eu|done].
Qed.

(** A scan code: the state of the shift keys after it, and its character. *)
Definition scan (shift data : Z) : Z * Z :=
  if data =? 0xE0 then (Z.lor shift E0ESC, 0)
  else if negb (Z.land data 0x80 =? 0) then
    let data := if negb (Z.land shift E0ESC =? 0) then data else Z.land data 0x7F in
    (Z.land shift (u32 (Z.lnot (Z.lor (entry shiftcode data) E0ESC))), 0)
  else
    let esc := negb (Z.land shift E0ESC =? 0) in
    let data := if esc then Z.lor data 0x80 else data in
    let shift := if esc then Z.land shift (u32 (Z.lnot E0ESC)) else shift in
    let shift := Z.lxor (Z.lor shift (entry shiftcode data)) (entry togglecode data) in
    let c := entry (charcode (Z.land shift (Z.lor CTL SHIFT))) data in
    (shift, if negb (Z.land shift CAPSLOCK =? 0) then
              if (97 <=? c) && (c <=? 122) then c - 32 else if (65 <=? c) && (c <=? 90) then c + 32 else c
            else c).
Fixpoint scans (shift : Z) (q : list Z) : list Z :=
  match q with
  | [] => []
  | data :: q' => snd (scan shift data) :: scans (fst (scan shift data)) q'
  end.
Definition kbd_port (k : console) : list Z := scans (kbd_shift k) (kbd_in k).

Lemma entry_byte i data : 0 <= entry (charcode i) data < 256.
Proof.
  assert (Forall (fun c => 0 <= c < 256) (charcode i)) as Hb.
  { unfold charcode. destruct (i =? 0); [|destruct (i =? 1)]; apply (bool_decide_unpack _); vm_compute; exact Logic.I. }
  unfold entry. destruct (nth_in_or_default (Z.to_nat data) (charcode i) 0) as [Hin| ->]; [|lia].
  rewrite Forall_forall in Hb. apply Hb. by apply list_elem_of_In.
Qed.
Lemma scan_byte shift data : 0 <= snd (scan shift data) < 256.
Proof.
  unfold scan. destruct (data =? 224); [simpl; lia|]. destruct (negb (Z.land data 128 =? 0)); [simpl; lia|]. cbv zeta. cbn [snd].
  match goal with |- context [entry ?t ?d] => lazymatch t with charcode _ => pose proof (entry_byte ltac:(match t with charcode ?i => exact i end) d) as H; set (c := entry t d) in * end end.
  clearbody c. destruct (negb _); [|lia]. destruct ((97 <=? c) && (c <=? 122)) eqn:E1; [lia|]. destruct ((65 <=? c) && (c <=? 90)) eqn:E2; lia.
Qed.
Lemma scans_bytes q : forall shift, Forall (fun c => 0 <= c < 256) (scans shift q).
Proof. induction q as [|d q IH]; intros shift; constructor; [apply scan_byte|apply IH]. Qed.
Lemma scans_length q : forall shift, length (scans shift q) = length q.
Proof. induction q as [|d q IH]; intros shift; simpl; [done|]. by rewrite IH. Qed.

#[export] Instance kbd_port_ok : Port kbdgetc kbd_port.
Proof.
  constructor.
  - unfold ports_of, kbd_port. intros k k' [= _ -> -> _]. done.
  - intros s Q HQ. unfold kbd_port in HQ. unfold kbdgetc. wp_step. apply wp_get_console. destruct (kbd_in (fcons s)) as [|data q]; cbn [scans] in HQ; [by wp_step|].
    wp_step. apply wp_on_console. wp_step. apply wp_get_console. cbn [fcons set_fcons set_kbd_in kbd_shift].
    specialize (HQ (set_kbd_shift (fst (scan (kbd_shift (fcons s)) data)) (set_kbd_in q (fcons s))) eq_refl eq_refl). revert HQ. unfold scan.
    destruct (data =? 224); [exact id|]. destruct (negb (Z.land data 128 =? 0)); exact id.
Qed.

(** ** Reading a line

    What one call of [consoleread] takes: [Done got rest] when it is finished
    and leaves [rest], [More got n first] when it has taken [got] and waits for
    up to [n] more. *)
Inductive outcome : Type :=
| Done (got rest : list Z)
| More (got : list Z) (n : nat) (first : bool).

Fixpoint take_line (got : list Z) (n : nat) (first : bool) (ready : list Z) : outcome :=
  match n with
  | O => Done got ready
  | S n' =>
      match ready with
      | [] => More got n first
      | c :: rd =>
          if c =? ctl 68 then Done got (if first then rd else ready)
          else if c =? 10 then Done (got ++ [c]) rd
          else take_line (got ++ [c]) n' false rd
      end
  end.

Section Read.
Context {I : FsImage} {W : Wakeups} {CI : ConsImage}.
Context (ip : nat).

(** No lock is held across a sleep, and the inode stays in its slot. *)
Definition idle (s : fsys) : Prop :=
  held s = [] /\ exists x, icache s !! ip = Some x /\ 1 <= i_ref x /\ i_valid x = true.

Definition busy (s : fsys) : Prop := exists x, icache s !! ip = Some x /\ sl_locked (i_lock x) = true.

(** [reads Q o r]: at each sleep the reader waits for input, with nothing ready
    and no lock held, or is done or killed and waits for the inode; woken with
    any ready bytes it goes on with them. *)
Fixpoint reads {A} (Q : outcome -> A -> fsys -> Prop) (o : outcome) (r : res fsys A) : Prop :=
  match r with
  | Ok a s => Q o a s
  | Sleeping c s k =>
      idle s /\
      match o with
      | More got n first =>
          (c = input_r_addr /\ fkilled s = false /\ (exists line, typed (fcons s) [] line) /\
           forall ready' line' s', idle s' -> typed (fcons s') ready' line' -> reads Q (take_line got n first ready') (k s')) \/
          (c = inode_lock_addr ip /\
           forall ready' line' s', idle s' -> typed (fcons s') ready' line' -> reads Q (More got n first) (k s'))
      | Done got rest =>
          c = inode_lock_addr ip /\ (exists line, typed (fcons s) rest line) /\
          forall ready' line' s', idle s' -> typed (fcons s') ready' line' -> reads Q (Done got ready') (k s')
      end
  | NoFuel s =>
      match o with
      | More got n first => (exists line, typed (fcons s) [] line) \/ busy s
      | Done got rest => busy s
      end
  | _ => False
  end.

Lemma reads_bind {A B} (Q : outcome -> B -> fsys -> Prop) (m : A -> FS B) r : forall o,
  reads (fun o' a s' => reads Q o' (m a s')) o r -> reads Q o (bind_res r m).
Proof.
  induction r as [| | |c s k IH| |]; intros o; simpl; try done. intros [Hi H]. split; [done|]. destruct o as [got rest|got n first].
  - destruct H as (H1 & H2 & H3). split_and!; [done..|]. intros ready' line' s' H4 H5. apply IH. by eapply H3.
  - destruct H as [(H1 & H2 & H3 & H4)|[H1 H4]]; [left; split_and!; [done..|]|right; split; [done|]]; intros ready' line' s' H5 H6; apply IH; by eapply H4.
Qed.
Lemma reads_then {A B} (m : FS A) (k : A -> FS B) (Q : outcome -> B -> fsys -> Prop) o s :
  wp m (fun a s' => reads Q o (k a s')) s -> reads Q o (bind m k s).
Proof. intros H. apply reads_bind. revert H. unfold wp. by destruct (m s). Qed.

(** Holding [cons.lock]. *)
Definition reading (s : fsys) (ready : list Z) : Prop :=
  held s = [ConsLock] /\ (exists line, typed (fcons s) ready line) /\ exists x, icache s !! ip = Some x /\ 1 <= i_ref x /\ i_valid x = true.

Lemma reads_wait n' fuel : forall got first ready (Q : outcome -> bool -> fsys -> Prop) s, reading s ready ->
  (forall c rd s', reading s' (c :: rd) -> Q (take_line got (S n') first (c :: rd)) true s') ->
  (forall s', reading s' [] -> fkilled s' = true -> Q (More got (S n') first) false s') ->
  reads Q (take_line got (S n') first ready) (consoleread_wait fuel s).
Proof.
  induction fuel as [|fuel IH]; intros got first ready Q s Hr HQ1 HQ2; pose proof Hr as (Hh & [line Ht] & Hx); cbn [consoleread_wait];
    apply reads_then, wp_get_console, reads_then, wp_get_console; rewrite (typed_none Ht); (destruct ready as [|c rd]; [|by apply HQ1]);
    apply reads_then, wp_gets; (destruct (fkilled s) eqn:Ek; [by apply HQ2|]).
  - left. by exists line.
  - apply reads_then, wp_fs_release; [done|]. split; [done|]. left. split; [done|]. split; [done|]. split; [by exists line|].
    intros ready' line' s' [Hh' Hx'] Ht'. change (reads Q (take_line got (S n') first ready') ((fs_acquire ConsLock ;;; consoleread_wait fuel) s')).
    apply reads_then, wp_fs_acquire; [rewrite Hh'; apply not_elem_of_nil|]. apply IH; [|done|done]. rewrite Hh'. split; [done|]. split; [by exists line'|done].
Qed.

(** The loop with its result: the bytes taken after [got]. *)
Definition loop_result (got : list Z) (o : outcome) (p : bool * list Z) (s : fsys) : Prop :=
  match o with
  | Done got' rest => got' = got ++ snd p /\ fst p = true /\ reading s rest
  | More got' _ _ => got' = got ++ snd p /\ fst p = false /\ reading s [] /\ fkilled s = true
  end.

Lemma reads_mono {A} (Q Q' : outcome -> A -> fsys -> Prop) r : forall o, (forall o' a s, Q o' a s -> Q' o' a s) -> reads Q o r -> reads Q' o r.
Proof.
  induction r as [| | |c s k IH| |]; intros o HQ; simpl; try done; [apply HQ|]. intros [Hi H]. split; [done|]. destruct o as [got rest|got n first].
  - destruct H as (H1 & H2 & H3). split_and!; [done..|]. intros ready' line' s' H4 H5. eapply IH; [done|]. by eapply H3.
  - destruct H as [(H1 & H2 & H3 & H4)|[H1 H4]]; [left; split_and!; [done..|]|right; split; [done|]]; intros ready' line' s' H5 H6; (eapply IH; [done|]); by eapply H4.
Qed.

Lemma reads_loop n : forall got first ready s, reading s ready ->
  reads (loop_result got) (take_line got n first ready) (consoleread_loop n first s).
Proof.
  induction n as [|n IH]; intros got first ready s Hr.
  { cbn [take_line]. split; [by rewrite app_nil_r|done]. }
  cbn [consoleread_loop]. apply reads_bind, reads_wait; [done| |].
  2:{ intros s' Hr' Hk. split; [by rewrite app_nil_r|done]. }
  intros c rd s' (Hh & [line Ht] & Hx). cbn [negb]. apply reads_then, wp_get_console, reads_then. unfold in_cell. apply wp_get_console.
  destruct (typed_pop Ht c rd eq_refl) as [-> Ht']. apply reads_then, wp_on_console. cbn [take_line].
  assert (reading (set_fcons (set_in_r (u32 (in_r (fcons s') + 1)) (fcons s')) s') rd) as Hr' by (split; [done|]; split; [by exists line|done]).
  destruct (c =? ctl 68); [|destruct (c =? 10)].
  - destruct first; apply reads_then.
    + split; [by rewrite app_nil_r|done].
    + cbn [negb when]. apply wp_on_console. split; [by rewrite app_nil_r|]. split; [done|]. split; [done|]. split; [|done]. exists line.
      eapply typed_ext; [|exact Ht]. done.
  - split; [done|]. split; [done|done].
  - apply reads_bind. eapply reads_mono; [|by apply IH]. intros o p s2 Hres. destruct o as [got' rest|got' n' first'].
    + destruct Hres as (-> & H1 & H2). by rewrite <- app_assoc.
    + destruct Hres as (-> & H1 & H2). by rewrite <- app_assoc.
Qed.

(** [ilock] of the inode, which is in memory. *)
Definition parked (o : outcome) (s : fsys) : Prop :=
  match o with
  | Done _ rest => exists line, typed (fcons s) rest line
  | More _ _ _ => exists ready line, typed (fcons s) ready line
  end.

Lemma reads_acquiresleep fuel : forall o (Q : outcome -> unit -> fsys -> Prop) s, idle s -> parked o s ->
  (forall o' s', idle s' -> match o, o' with
     | Done got _, Done got' _ => got' = got /\ parked o' s'
     | More _ _ _, More _ _ _ => o' = o /\ parked o' s'
     | _, _ => False end -> Q o' tt s') ->
  reads Q o (acquiresleep (inode_lock_addr ip) (get_inode_lock ip) (put_inode_lock ip) fuel s).
Proof.
  induction fuel as [|fuel IH]; intros o Q s Hi Hp HQ; pose proof Hi as (Hh & x & Hx & Hr & Hv); cbn [acquiresleep]; apply reads_then;
    unfold get_inode_lock, get_inode, get_at; unfold wp at 1; unfold bind at 1; rewrite Hx; cbn [bind_res ret];
    (destruct (sl_locked (i_lock x)) eqn:El; [|
       apply reads_then, wp_gets; unfold put_inode_lock, upd_inode; rewrite Hx; apply HQ;
         [split; [done|]; exists (set_i_lock (mk_slock true (fpid s)) x); split; [apply list_lookup_insert_eq; by eapply lookup_lt_Some|done]|
          by destruct o]]).
  - destruct o; [by exists x|right; by exists x].
  - split; [done|]. destruct o as [got rest|got n first].
    + split; [done|]. split; [done|]. intros ready' line' s' Hi' Ht'. apply (IH (Done got ready')); [done|by exists line'|]. intros o' s2 H1 H2. by apply HQ.
    + right. split; [done|]. intros ready' line' s' Hi' Ht'. apply (IH (More got n first)); [done|by exists ready', line'|done].
Qed.

Lemma reads_ilock o (Q : outcome -> unit -> fsys -> Prop) s : idle s -> parked o s ->
  (forall o' s', match o, o' with
     | Done got _, Done got' _ => got' = got /\ parked o' s'
     | More _ _ _, More _ _ _ => o' = o /\ parked o' s'
     | _, _ => False end -> Q o' tt s') ->
  reads Q o (ilock ip s).
Proof.
  intros Hi Hp HQ. pose proof Hi as (Hh & x & Hx & Hr & Hv). unfold ilock. apply reads_then. unfold get_inode at 1, get_at at 1. unfold wp. rewrite Hx.
  rewrite (proj2 (Z.ltb_ge _ _)) by lia. apply reads_bind, reads_acquiresleep; [done|done|]. intros o' s' (_ & x' & Hx' & _ & Hv') Ho. apply reads_then.
  unfold get_inode, get_at, wp. rewrite Hx', Hv'. by apply HQ.
Qed.

(** The result of [consoleread]. *)
Definition read_returns (o : outcome) (r : Z * list Z) (s : fsys) : Prop :=
  parked o s /\
  match o with
  | Done got _ => r = (Z.of_nat (length got), got)
  | More got _ _ => r = (-1, got)
  end.

Lemma consoleread_reads n ready line s : 0 <= n < 2 ^ 31 -> idle s -> busy s -> typed (fcons s) ready line ->
  reads read_returns (take_line [] (Z.to_nat n) true ready) (consoleread ip n s).
Proof.
  intros Hn (Hh & x & Hx & Hr & Hv) (x' & Hx' & Hl) Ht. assert (x' = x) as -> by congruence. unfold consoleread. apply reads_then.
  unfold iunlock. wp_step. unfold holdingsleep, get_inode_lock, get_inode, get_at. unfold wp, bind at 1, bind at 1. rewrite Hx. cbn [bind_res ret].
  unfold bind at 1. rewrite Hx. cbn [bind_res]. rewrite Hl, (proj2 (Z.ltb_ge _ _)) by lia. cbn [negb orb].
  unfold releasesleep, put_inode_lock, upd_inode, bind at 1. rewrite Hx. cbn [bind_res fs_wakeup modify].
  set (s1 := set_wakes _ _). apply reads_then, wp_fs_acquire; [change (held s1) with (held s); rewrite Hh; apply not_elem_of_nil|]. rewrite i32_small by lia.
  apply reads_bind. eapply reads_mono; [|apply reads_loop].
  - intros o p s2 Hres.
    assert (exists rest, reading s2 rest /\ parked o (set_held [] s2)) as (rest & (Hh2 & [line2 Ht2] & Hx2) & Hp2).
    { destruct o as [got rest|got m first]; destruct Hres as (_ & _ & Hres); [exists rest|exists []; destruct Hres as [Hres _]];
        (split; [done|]); destruct Hres as (_ & [line2 Ht2] & _); first [by exists line2 | by exists [], line2]. }
    apply reads_then, wp_fs_release; [done|]. apply reads_bind, reads_ilock; [by split|done|]. intros o' s3 Ho. split; [by destruct o, o'; destruct Ho|].
    destruct o as [got rest'|got m first], o' as [got' rest''|got' m' first']; try done.
    + destruct Hres as (-> & -> & _). destruct Ho as [-> _]. by destruct p.
    + destruct Hres as (-> & -> & _). destruct Ho as [[= -> -> ->] _]. by destruct p.
  - split; [change (ConsLock :: held s = [ConsLock]); by rewrite Hh|]. split; [by exists line|]. exists (set_i_lock (mk_slock false 0) x).
    split; [apply list_lookup_insert_eq; by eapply lookup_lt_Some|done].
Qed.
End Read.

(** C11: the console is a line editor over one ring of 128 bytes, whose counters
    wrap around at 2^32.  An interrupt of the keyboard, whose scan codes are
    decoded with the state of the shift keys, or of the serial line feeds the
    characters that have arrived to the editor one by one: erase, kill line and
    the end of a line change the ready and the typed bytes as [key] says, the
    readers are woken whenever more is ready, and the echo on the screen is what
    a 24-line terminal shows, with the cursor always on it, and goes to the
    serial line.  [consoleread] takes the bytes of one line in order, keeps a
    control-D after others for the next call, returns their number, or -1 when
    killed, and sleeps only when nothing is ready, with no spin lock held. *)
Theorem console_line_editor {I : FsImage} {W : Wakeups} {CI : ConsImage} (ip : nat) (n : Z) (s : fsys) (t : tty) (ready line : list Z) :
  desk (fcons s) t ready line -> idle ip s -> busy ip s -> 0 <= n < 2 ^ 31 -> Forall (fun c => 0 <= c < 256) (uart_in (fcons s)) ->
  (let cs := kbd_port (fcons s) in
   wp kbdintr_fs (fun d s' => session (ready, line) (fold_left key cs (ready, line)) t (echoes (ready, line) cs) s s' /\
     kbd_port (fcons s') = [] /\ d = bool_decide (ctl 80 ∈ cs)) s) /\
  (let cs := uart_port (fcons s) in
   wp uartintr_fs (fun d s' => session (ready, line) (fold_left key cs (ready, line)) t (echoes (ready, line) cs) s s' /\
     uart_port (fcons s') = [] /\ d = bool_decide (ctl 80 ∈ cs)) s) /\
  reads ip (read_returns) (take_line [] (Z.to_nat n) true ready) (consoleread ip n s).
Proof.
  intros Hd Hi Hb Hn Hu. assert (ConsLock ∉ held s) as Hl by (destruct Hi as [-> _]; apply not_elem_of_nil). split_and!.
  - cbv zeta. unfold kbdintr_fs. wp_step. apply wp_get_console. apply (wp_consoleintr kbdgetc kbd_port _ (ready, line) t); [apply scans_bytes| |done|done|done].
    unfold kbd_port. rewrite scans_length. lia.
  - cbv zeta. unfold uartintr_fs. wp_step. apply wp_get_console.
    apply (wp_consoleintr uartgetc uart_port _ (ready, line) t); [| |done|done|done]; unfold uart_port; destruct (uart (fcons s)); done || (simpl; lia).
  - eapply consoleread_reads; [done..|apply Hd].
Qed.

(** A new console with the keys a and Enter pressed, its inode in slot 0. *)
Definition console_demo : console :=
  mk_console (replicate 128 0) 0 0 0 true false (fun _ => 0) 0 0 false [] 0 [0x1E; 0x1C] [].
Definition console_kst : fsys :=
  set_fcons console_demo (set_icache [mk_inode 1 2 1 (mk_slock true 1) true T_DEV 1 1 1 0 (replicate 13 0)] (power_on 0 (fun _ => []))).
Definition console_image : FsImage := {| buf_lock_addr := fun _ => 0; inode_lock_addr := fun _ => 0; log_addr := 0 |}.
Definition console_wakeups : Wakeups := {| wakeups := 4 |}.
Definition console_addr : ConsImage := {| input_r_addr := 0x80110000 |}.

Lemma console_demo_desk : desk console_demo (mk_tty (fun _ => 0) 0 0) [] [].
Proof.
  constructor; [|done|]; constructor; cbn; try done; try lia.
Qed.

Lemma console_line_editor_witness : wp (@kbdintr_fs console_addr) (fun _ s' => typed (fcons s') [97; 10] []) console_kst.
Proof.
  destruct (@console_line_editor console_image console_wakeups console_addr 0 10 console_kst _ [] [] console_demo_desk) as [H _].
  - split; [done|]. eexists. by split_and!.
  - eexists. by split.
  - by split.
  - constructor.
  - cbv zeta in H. assert (kbd_port (fcons console_kst) = [97; 10]) as Hcs by (vm_compute; reflexivity). rewrite Hcs in H.
    assert (fold_left key [97; 10] ([], []) = ([97; 10], [])) as Hk by (vm_compute; reflexivity). rewrite Hk in H.
    refine (wp_mono _ _ _ _ H _). intros d s' ((k' & m & -> & Hd & _) & _). exact (dk_typed _ _ _ _ Hd).
Defined.
