(* ===== verification/FsInode.v ===== *)
(** * Inodes on the disk and in the cache

    The 64-byte encoding of an inode, the bitmap, and the laws of [balloc],
    [bfree], [iupdate], [ilock] and [iget] in terms of the blocks a
    transaction sees. *)
From Stdlib Require Import ZArith Lia Bool.
From stdpp Require Import base numbers list strings gmap.
From S2P Require Import Prelude Machine Cstring FsState Bio BioInv Log LogInv LogTx Fs.

(** ** The encoding *)
Lemma get8_splice_in d off e j : (off + length e <= length d)%nat -> (j < length e)%nat ->
  get8 (splice d off e) (off + j) = get8 e j.
Proof.
  intros H Hj. unfold get8. rewrite nth_splice by done.
  rewrite (proj2 (Nat.leb_le _ _)), (proj2 (Nat.ltb_lt _ _)) by lia. cbn [andb]. f_equal. lia.
Qed.
Lemma get8_splice_one d i v : (i < length d)%nat -> get8 (splice d i [v]) i = v.
Proof. intros H. pose proof (get8_splice_in d i [v] 0) as Hs. rewrite Nat.add_0_r in Hs. apply Hs; cbn; lia. Qed.
Lemma get16_splice_in d off e j : (off + length e <= length d)%nat -> (j + 2 <= length e)%nat ->
  get16 (splice d off e) (off + j) = get16 e j.
Proof. intros H Hj. unfold get16. rewrite <- Nat.add_assoc, !get8_splice_in by lia. done. Qed.
Lemma get32_splice_in d off e j : (off + length e <= length d)%nat -> (j + 4 <= length e)%nat ->
  get32 (splice d off e) (off + j) = get32 e j.
Proof. intros H Hj. unfold get32. rewrite <- Nat.add_assoc, !get16_splice_in by lia. done. Qed.

Lemma get8_app l l' j : get8 (l ++ l') (length l + j) = get8 l' j.
Proof. unfold get8. rewrite app_nth2 by lia. f_equal. lia. Qed.
Lemma get16_le16 l l' v : get16 (l ++ le16 v ++ l') (length l) = v mod 65536.
Proof.
  unfold get16. rewrite get8_app. rewrite <- (Nat.add_0_r (length l)) at 1. rewrite get8_app. unfold get8. cbn. zlia.
Qed.
Lemma get32_le32 l l' v : get32 (l ++ le32 v ++ l') (length l) = v mod 2 ^ 32.
Proof.
  unfold get32, get16. rewrite <- !Nat.add_assoc. rewrite !get8_app. rewrite <- (Nat.add_0_r (length l)) at 1. rewrite get8_app.
  unfold get8. cbn [le32 le16 app nth Nat.add]. rewrite pow2_32. zlia.
Qed.

Lemma concat_le32_length l : length (concat (map le32 l)) = (4 * length l)%nat.
Proof. induction l as [|v l IH]; [done|]. cbn [map concat]. rewrite length_app, IH, le32_length. cbn [length]. lia. Qed.

Lemma get32_concat l j v : l !! j = Some v -> get32 (concat (map le32 l)) (4 * j) = v mod 2 ^ 32.
Proof.
  intros Hj. rewrite <- (take_drop_middle _ _ _ Hj), map_app, concat_app. cbn [map concat].
  replace (4 * j)%nat with (length (concat (map le32 (take j l)))); [apply get32_le32|].
  rewrite concat_le32_length, length_take. apply lookup_lt_Some in Hj. lia.
Qed.

(** The values an inode's fields can have. *)
Definition is_i16 (x : Z) : Prop := - 2 ^ 15 <= x < 2 ^ 15.
Record dinode_ok (v : dinode) : Prop := {
  do_short : is_i16 (di_type v) /\ is_i16 (di_major v) /\ is_i16 (di_minor v) /\ is_i16 (di_nlink v);
  do_size : is_u32 (di_size v);
  do_addrs : length (di_addrs v) = S NDIRECT /\ Forall is_u32 (di_addrs v);
}.

Lemma encode_dinode_length v : length (di_addrs v) = S NDIRECT -> length (encode_dinode v) = 64%nat.
Proof. intros H. unfold encode_dinode. rewrite !length_app, concat_le32_length, H. done. Qed.

Lemma i16_mod x : is_i16 x -> i16 (x mod 65536) = x.
Proof. unfold is_i16. intros H. i32lia. Qed.

Lemma get32_addrs v j a : di_addrs v !! j = Some a -> get32 (encode_dinode v) (12 + 4 * j) = a mod 2 ^ 32.
Proof.
  intros Hj. rewrite <- (get32_concat _ _ _ Hj). unfold encode_dinode. rewrite !app_assoc.
  set (pre := (((le16 _ ++ le16 _) ++ le16 _) ++ le16 _) ++ le32 _). assert (length pre = 12%nat) as Hp by done.
  unfold get32, get16. rewrite <- Hp, <- !Nat.add_assoc, !get8_app. done.
Qed.

(** Reading back an encoded inode. *)
Lemma decode_encode d off v : dinode_ok v -> (off + 64 <= length d)%nat ->
  decode_dinode (splice d off (encode_dinode v)) off = v.
Proof.
  intros Hok Hd. pose proof (encode_dinode_length v (proj1 (do_addrs _ Hok))) as He. destruct (do_short _ Hok) as (H1 & H2 & H3 & H4).
  unfold decode_dinode.
  assert (forall j, (j + 2 <= 64)%nat -> get16 (splice d off (encode_dinode v)) (off + j) = get16 (encode_dinode v) j) as E16.
  { intros j Hj. apply get16_splice_in; lia. }
  rewrite <- (Nat.add_0_r off) at 2. rewrite !E16 by lia. rewrite get32_splice_in by lia.
  assert (map (fun j => get32 (splice d off (encode_dinode v)) (off + 12 + 4 * j)) (seq 0 (S NDIRECT)) = di_addrs v) as ->.
  { apply list_eq. intros j. rewrite list_lookup_fmap. destruct (do_addrs _ Hok) as [Hlen Hall].
    destruct (decide (j < S NDIRECT)%nat) as [Hj|Hj].
    - rewrite lookup_seq_lt by done. destruct (lookup_lt_is_Some_2 (di_addrs v) j) as [a Ha]; [lia|]. rewrite Ha. cbn [fmap option_fmap option_map].
      unfold NDIRECT in Hj. rewrite <- Nat.add_assoc, get32_splice_in by lia. rewrite Nat.add_0_l, (get32_addrs _ _ _ Ha). f_equal.
      rewrite Forall_lookup in Hall. apply Z.mod_small, (Hall _ _ Ha).
    - rewrite lookup_seq_ge, lookup_ge_None_2 by lia. done. }
  destruct v as [ty mj mn nl sz ad]. cbn [di_type di_major di_minor di_nlink di_size di_addrs] in *.
  unfold encode_dinode. cbn [di_type di_major di_minor di_nlink di_size di_addrs].
  f_equal.
  - rewrite <- (i16_mod ty) at 2 by done. f_equal. apply (get16_le16 []).
  - rewrite <- (i16_mod mj) at 2 by done. f_equal. apply (get16_le16 (le16 ty)).
  - rewrite <- (i16_mod mn) at 2 by done. f_equal. rewrite (app_assoc (le16 ty)). apply (get16_le16 (le16 ty ++ le16 mj)).
  - rewrite <- (i16_mod nl) at 2 by done. f_equal. rewrite (app_assoc (le16 ty)), (app_assoc (_ ++ _)). apply (get16_le16 ((le16 ty ++ le16 mj) ++ le16 mn)).
  - rewrite (app_assoc (le16 ty)), !(app_assoc (_ ++ _)). rewrite <- (app_assoc _ (le32 sz)).
    rewrite (get32_le32 (((le16 ty ++ le16 mj) ++ le16 mn) ++ le16 nl)). apply Z.mod_small, (do_size _ Hok).
Qed.

(** ** The bitmap *)
Definition bit (d : block) (bi : nat) : bool := Z.testbit (get8 d (bi / 8)) (Z.of_nat bi mod 8).

Lemma bit_mask_eq bi : bit_mask bi = 2 ^ (Z.of_nat bi mod 8).
Proof. unfold bit_mask. rewrite Z.shiftl_mul_pow2 by zlia. lia. Qed.

Lemma bit_get_eq d bi : (bit_get d bi =? 0) = negb (bit d bi).
Proof. unfold bit_get, bit. rewrite bit_mask_eq. apply land_pow2. zlia. Qed.

Lemma same_bit bi bj : (bi / 8)%nat = (bj / 8)%nat -> (Z.of_nat bi mod 8 =? Z.of_nat bj mod 8) = (bi =? bj)%nat.
Proof.
  intros H. destruct (Z.eqb_spec (Z.of_nat bi mod 8) (Z.of_nat bj mod 8)) as [E|E], (Nat.eqb_spec bi bj) as [->|N]; try done.
  exfalso. apply N. apply (f_equal Z.of_nat) in H. rewrite !Nat2Z.inj_div in H. zlia.
Qed.

Lemma bit_set_spec d bi bj : (bi / 8 < length d)%nat -> bit (bit_set d bi) bj = (bi =? bj)%nat || bit d bj.
Proof.
  intros H. unfold bit, bit_set. destruct (decide (bj / 8 = bi / 8)%nat) as [E|E].
  - rewrite E, get8_splice_one by done.
    rewrite Z.lor_spec, bit_mask_eq, Z.pow2_bits_eqb by zlia. rewrite (same_bit bi bj) by done. apply orb_comm.
  - rewrite get8_splice_ne by (cbn [length]; lia). replace (bi =? bj)%nat with false; [done|]. symmetry. apply Nat.eqb_neq. by intros ->.
Qed.

Lemma bit_clear_spec d bi bj : (bi / 8 < length d)%nat -> bit (bit_clear d bi) bj = negb (bi =? bj)%nat && bit d bj.
Proof.
  intros H. unfold bit, bit_clear. destruct (decide (bj / 8 = bi / 8)%nat) as [E|E].
  - rewrite E, get8_splice_one by done.
    rewrite Z.land_spec, Z.lnot_spec, bit_mask_eq, Z.pow2_bits_eqb by zlia. rewrite (same_bit bi bj) by done. apply andb_comm.
  - rewrite get8_splice_ne by (cbn [length]; lia). replace (bi =? bj)%nat with false; [done|]. symmetry. apply Nat.eqb_neq. by intros ->.
Qed.

Lemma bit_set_length d bi : (bi / 8 < length d)%nat -> length (bit_set d bi) = length d.
Proof. intros H. apply splice_length. cbn [length]. lia. Qed.
Lemma bit_clear_length d bi : (bi / 8 < length d)%nat -> length (bit_clear d bi) = length d.
Proof. intros H. apply splice_length. cbn [length]. lia. Qed.

(** ** Layout *)
Definition bitmap_blocks (sb : superblock) : Z := sb_size sb / BPB + 1.
Definition data_start (sb : superblock) : Z := sb_bmapstart sb + bitmap_blocks sb.
(** What [mkfs] and the boot loader provide. *)
Record layout (E : fenv) : Prop := {
  ly_log : 2 <= lstart E /\ 0 < lsize E;
  ly_inodes : lstart E + lsize E <= sb_inodestart (e_sb E);
  ly_bmap : 0 < sb_ninodes (e_sb E) /\ sb_inodestart (e_sb E) + sb_ninodes (e_sb E) / IPB + 1 <= sb_bmapstart (e_sb E);
  ly_data : data_start (e_sb E) <= sb_size (e_sb E);
  ly_size : sb_size (e_sb E) <= e_size E /\ e_size E < 2 ^ 31;
}.

Definition used (sb : superblock) (V : Z -> block) (b : Z) : bool := bit (V (BBLOCK b sb)) (Z.to_nat (b mod BPB)).
Definition meta_used (E : fenv) (V : Z -> block) : Prop :=
  forall b, 0 <= b < data_start (e_sb E) -> used (e_sb E) V b = true.
Definition data_block (E : fenv) (b : Z) : Prop := data_start (e_sb E) <= b < sb_size (e_sb E).

Lemma BBLOCK_eq E b : layout E -> 0 <= b < sb_size (e_sb E) ->
  BBLOCK b (e_sb E) = b / BPB + sb_bmapstart (e_sb E) /\ sb_bmapstart (e_sb E) <= BBLOCK b (e_sb E) < data_start (e_sb E).
Proof.
  intros [H1 H2 H3 H4 H5] Hb. unfold BBLOCK, data_start, bitmap_blocks, IPB, BPB, lstart in *. rewrite pow2_31 in H5.
  rewrite u32_small by (rewrite pow2_32; zlia). zlia.
Qed.

Lemma IBLOCK_eq E n : layout E -> 0 <= n < sb_ninodes (e_sb E) ->
  IBLOCK n (e_sb E) = n / IPB + sb_inodestart (e_sb E) /\ sb_inodestart (e_sb E) <= IBLOCK n (e_sb E) < sb_bmapstart (e_sb E).
Proof.
  intros [H1 H2 H3 H4 H5] Hb. unfold IBLOCK, data_start, bitmap_blocks, IPB, BPB, lstart in *. rewrite pow2_31 in H5.
  rewrite u32_small by (rewrite pow2_32; zlia). zlia.
Qed.

(** Inode, bitmap and data blocks can be changed in a transaction. *)
Lemma layout_may_log E b : layout E -> sb_inodestart (e_sb E) <= b < sb_size (e_sb E) -> may_log E b.
Proof. intros [H1 H2 H3 H4 H5] Hb. unfold may_log, home, in_range. lia. Qed.

Lemma layout_order E : layout E -> 2 <= lstart E /\ 0 < lsize E /\ lstart E + lsize E <= sb_inodestart (e_sb E) /\
  sb_inodestart (e_sb E) + 1 <= sb_bmapstart (e_sb E) /\ sb_bmapstart (e_sb E) + 1 <= data_start (e_sb E) /\
  data_start (e_sb E) <= sb_size (e_sb E) /\ sb_size (e_sb E) <= e_size E /\ e_size E < 2147483648.
Proof.
  intros [H1 H2 H3 H4 H5]. rewrite pow2_31 in H5. unfold data_start, bitmap_blocks, IPB, BPB in *. zlia.
Qed.

Lemma bit_index b : (Z.to_nat (b mod BPB) / 8 < BSIZE)%nat.
Proof.
  apply Nat.Div0.div_lt_upper_bound. unfold BPB, BSIZE. pose proof (Z.mod_pos_bound b 4096). lia.
Qed.
