(* ===== verification/FsAlloc.v ===== *)
(** * Allocating and freeing disk blocks

    [balloc] returns the first block the bitmap shows free, marks it and zeroes
    it; [bfree] clears the mark.  Nothing else changes. *)
From Stdlib Require Import ZArith Lia Bool.
From stdpp Require Import base numbers list strings gmap.
From S2P Require Import Prelude Machine Cstring FsState Bio BioInv Log LogInv LogTx Fs FsInode.

(** The blocks after marking [b], and after allocating it. *)
Definition mark (sb : superblock) (V : Z -> block) (b : Z) : Z -> block :=
  vset V (BBLOCK b sb) (bit_set (V (BBLOCK b sb)) (Z.to_nat (b mod BPB))).
Definition unmark (sb : superblock) (V : Z -> block) (b : Z) : Z -> block :=
  vset V (BBLOCK b sb) (bit_clear (V (BBLOCK b sb)) (Z.to_nat (b mod BPB))).
Definition allocated (sb : superblock) (V : Z -> block) (b : Z) : Z -> block := vset (mark sb V b) b (replicate BSIZE 0).

(** The buffers held are in-use data blocks. *)
Definition held_data (E : fenv) (V : Z -> block) (L : holds) : Prop :=
  forall i b c, L !! i = Some (b, c) -> data_block E b /\ used (e_sb E) V b = true.

Lemma delete_insert_held (L : holds) i x : L !! i = None -> delete i (<[i := x]> L) = L.
Proof. intros H. by rewrite delete_insert_id. Qed.

Section Alloc.
Context {I : FsImage} {W : Wakeups} {DS : DevSw}.
Implicit Types (s : fsys) (L : holds) (V : Z -> block).

(** Reading a block, changing it, logging it and giving it back. *)
Lemma tx_update s V L k E b (f : block -> block) (Q : unit -> fsys -> Prop) :
  tx 1 s V L (S k) E -> may_log E b -> not_held L b -> (size L <= 1)%nat -> length (f (V b)) = BSIZE ->
  (forall s', tx 1 s' (vset V b (f (V b))) L k E -> Q tt s') ->
  wp (bp <- bread 1 b ;; d <- buf_data bp ;; set_buf_data bp (f d) ;;; log_write bp ;;; brelse bp) Q s.
Proof.
  intros Ht Hb Hn HL Hf HQ. wp_step. eapply tx_bread; [exact Ht|apply Hb|done|done|]. intros i s1 Hi H1.
  wp_step. eapply tx_buf_data; [exact H1|by rewrite lookup_insert_eq|].
  wp_step. eapply tx_set_buf_data; [exact H1|by rewrite lookup_insert_eq|done|]. rewrite insert_insert_eq. intros s2 H2.
  wp_step. eapply tx_log_write; [exact H2|by rewrite lookup_insert_eq|done|done|]. rewrite insert_insert_eq. intros s3 H3.
  eapply tx_brelse; [exact H3|by rewrite lookup_insert_eq|]. by rewrite delete_insert_held.
Qed.

Lemma tx_bzero s V L k E b (Q : unit -> fsys -> Prop) :
  tx 1 s V L (S k) E -> may_log E b -> not_held L b -> (size L <= 1)%nat ->
  (forall s', tx 1 s' (vset V b (replicate BSIZE 0)) L k E -> Q tt s') -> wp (bzero 1 b) Q s.
Proof.
  intros Ht Hb Hn HL HQ. unfold bzero. wp_step. eapply tx_bread; [exact Ht|apply Hb|done|done|]. intros i s1 Hi H1.
  wp_step. eapply tx_set_buf_data; [exact H1|by rewrite lookup_insert_eq|apply length_replicate|]. rewrite insert_insert_eq. intros s2 H2.
  wp_step. eapply tx_log_write; [exact H2|by rewrite lookup_insert_eq|done|done|]. rewrite insert_insert_eq. intros s3 H3.
  eapply tx_brelse; [exact H3|by rewrite lookup_insert_eq|]. by rewrite delete_insert_held.
Qed.

Lemma tx_fsb o s V L k E : tx o s V L k E -> fsb s = e_sb E.
Proof. intros (P & l & HR & _). exact (f_equal e_sb (rep_env _ _ _ _ _ HR)). Qed.

(** [b = BPB * q + bi] *)
Lemma split_block q bi : (bi < 4096)%nat ->
  (BPB * Z.of_nat q + Z.of_nat bi) / BPB = Z.of_nat q /\ Z.to_nat ((BPB * Z.of_nat q + Z.of_nat bi) mod BPB) = bi.
Proof. unfold BPB. intros H. split; zlia. Qed.

Section Balloc.
Context (E : fenv) (V : Z -> block) (L : holds) (k : nat) (Q : Z -> fsys -> Prop).
Hypothesis (HE : layout E) (Hm : meta_used E V) (HLd : held_data E V L) (HL : (size L <= 1)%nat).
Hypothesis HQ : forall a s', data_block E a -> used (e_sb E) V a = false -> (forall b, 0 <= b < a -> used (e_sb E) V b = true) ->
  tx 1 s' (allocated (e_sb E) V a) L k E -> Q a s'.

Lemma bitmap_not_held b : sb_inodestart (e_sb E) <= b < data_start (e_sb E) -> not_held L b.
Proof. intros Hb i c Hi. destruct (HLd _ _ _ Hi) as [[? ?] _]. lia. Qed.

(** The inner loop has found a free block. *)
Lemma tx_balloc_take s q bi bp :
  let b := BPB * Z.of_nat q + Z.of_nat bi in
  tx 1 s V (<[bp := (BBLOCK b (e_sb E), true)]> L) (S (S k)) E -> L !! bp = None ->
  (bi < 4096)%nat -> b < sb_size (e_sb E) -> bit (V (BBLOCK b (e_sb E))) bi = false ->
  (forall b', 0 <= b' < b -> used (e_sb E) V b' = true) ->
  wp (set_buf_data bp (bit_set (V (BBLOCK b (e_sb E))) bi) ;;; log_write bp ;;; brelse bp ;;; bzero 1 b ;;; ret (Some b))
     (fun r s' => match r with Some a => Q a s' | None => False end) s.
Proof.
  intros b Ht Hbp Hbi Hb Hfree Hfirst. assert (0 <= b < sb_size (e_sb E)) as Hb0 by (unfold b, BPB in *; lia).
  destruct (BBLOCK_eq E b HE Hb0) as [_ HBB]. destruct (split_block q bi Hbi) as [_ Hmod].
  assert (used (e_sb E) V b = false) as Hu by (unfold used; fold b in Hmod; by rewrite Hmod).
  assert (data_start (e_sb E) <= b) as Hds.
  { destruct (decide (b < data_start (e_sb E))) as [Hlt|]; [|lia]. specialize (Hm b (conj (proj1 Hb0) Hlt)). congruence. }
  pose proof (layout_order E HE) as Hly.
  assert (length (V (BBLOCK b (e_sb E))) = BSIZE) as Hlen by (eapply tx_len; [exact Ht|]; unfold in_range; lia).
  wp_step. eapply tx_set_buf_data; [exact Ht|by rewrite lookup_insert_eq| |].
  { rewrite bit_set_length, Hlen; [done|]. rewrite <- Hmod, Hlen. apply bit_index. }
  rewrite insert_insert_eq. intros s1 H1. wp_step.
  eapply tx_log_write; [exact H1|by rewrite lookup_insert_eq|apply layout_may_log; [done|lia]|done|]. rewrite insert_insert_eq. intros s2 H2.
  wp_step. eapply tx_brelse; [exact H2|by rewrite lookup_insert_eq|]. rewrite delete_insert_held by done. intros s3 H3.
  wp_step. eapply tx_bzero; [exact H3|apply layout_may_log; [done|lia]| |done|].
  { intros i c Hi. destruct (HLd _ _ _ Hi) as [_ Hu']. congruence. }
  intros s4 H4. wp_step. apply HQ; [split; lia|done|done|]. unfold allocated, mark. fold b in Hmod. by rewrite Hmod.
Qed.

(** One bitmap block. *)
Lemma tx_balloc_block s q :
  let b0 := BPB * Z.of_nat q in
  tx 1 s V L (S (S k)) E -> b0 < sb_size (e_sb E) -> (forall b', 0 <= b' < b0 -> used (e_sb E) V b' = true) ->
  wp (bp <- bread 1 (BBLOCK b0 (e_sb E)) ;;
      r <- for_find (Z.to_nat (Z.min BPB (sb_size (e_sb E) - b0))) 0 (fun bi =>
        d <- buf_data bp ;;
        if bit_get d bi =? 0 then
          set_buf_data bp (bit_set d bi) ;;; log_write bp ;;; brelse bp ;;; bzero 1 (b0 + Z.of_nat bi) ;;; ret (Some (b0 + Z.of_nat bi))
        else ret None) ;;
      match r with Some a => ret (Some a) | None => brelse bp ;;; ret None end)
     (fun r s' => match r with
        | Some a => Q a s'
        | None => tx 1 s' V L (S (S k)) E /\ forall b', 0 <= b' < BPB * Z.of_nat (S q) -> b' < sb_size (e_sb E) -> used (e_sb E) V b' = true
        end) s.
Proof.
  intros b0 Ht Hb0 Hfirst. assert (0 <= b0) as Hpos by (unfold b0, BPB; lia).
  destruct (BBLOCK_eq E b0 HE (conj Hpos Hb0)) as [HBeq HBB]. pose proof (layout_order E HE) as Hly.
  wp_step. eapply tx_bread; [exact Ht|unfold in_range; lia|apply bitmap_not_held; lia|done|]. intros bp s1 Hbp H1.
  wp_step. apply (wp_for_find (fun bi s' => tx 1 s' V (<[bp := (BBLOCK b0 (e_sb E), true)]> L) (S (S k)) E /\
    forall b', 0 <= b' < b0 + Z.of_nat bi -> used (e_sb E) V b' = true)).
  - split; [done|]. intros b' Hb'. apply Hfirst. lia.
  - intros bi s2 [_ Hbi] [H2 Hf2]. assert (bi < 4096)%nat as Hbi4 by (unfold BPB in Hbi; lia).
    destruct (split_block q bi Hbi4) as [Hdiv Hmod]. fold b0 in Hdiv, Hmod.
    assert (BBLOCK (b0 + Z.of_nat bi) (e_sb E) = BBLOCK b0 (e_sb E)) as HBsame.
    { unfold BBLOCK. rewrite Hdiv. f_equal. f_equal. unfold b0, BPB. zlia. }
    wp_step. eapply tx_buf_data; [exact H2|by rewrite lookup_insert_eq|]. rewrite bit_get_eq.
    destruct (bit (V (BBLOCK b0 (e_sb E))) bi) eqn:Hbit; cbn [negb].
    + wp_step. split; [done|]. intros b' Hb'. destruct (decide (b' = b0 + Z.of_nat bi)) as [->|]; [|apply Hf2; lia].
      unfold used. by rewrite HBsame, Hmod.
    + rewrite <- HBsame. eapply wp_mono; [apply (tx_balloc_take s2 q bi bp); fold b0; rewrite ?HBsame; try done; lia|].
      intros [a|] s3; [intros HQa; exact HQa|done].
  - cbn [Nat.add]. intros s2 [H2 Hf2]. wp_step. eapply tx_brelse; [exact H2|by rewrite lookup_insert_eq|].
    rewrite delete_insert_held by done. intros s3 H3. wp_step. split; [done|]. intros b' Hb' Hsz. apply Hf2.
    unfold b0, BPB in *. lia.
Qed.

Lemma tx_balloc s : tx 1 s V L (S (S k)) E -> (exists a, data_block E a /\ used (e_sb E) V a = false) -> wp (balloc 1) Q s.
Proof.
  intros Ht (a0 & Ha0 & Hu0). unfold balloc, get_sb. pose proof (layout_order E HE) as Hly.
  wp_step. apply wp_gets. rewrite (tx_fsb _ _ _ _ _ _ Ht). wp_step.
  apply (wp_for_find (fun q s' => tx 1 s' V L (S (S k)) E /\ forall b', 0 <= b' < BPB * Z.of_nat q -> b' < sb_size (e_sb E) -> used (e_sb E) V b' = true)).
  - split; [done|]. intros b' Hb'. lia.
  - intros q s1 [_ Hq] [H1 Hf]. eapply wp_mono; [apply tx_balloc_block; [done| |]|].
    + unfold BPB in *. zlia.
    + intros b' Hb'. apply Hf; unfold BPB in *; zlia.
    + intros [a|] s2; [intros HQa; by wp_step|done].
  - cbn [Nat.add]. intros s1 [_ Hf]. exfalso. destruct Ha0 as [? ?]. 
    assert (used (e_sb E) V a0 = true); [|congruence]. apply Hf; [|done]. unfold BPB, IPB in *. zlia.
Qed.
End Balloc.

(** ** Freeing *)
Lemma tx_other o s s' V L k E : tx o s V L k E -> env_of s' = env_of s -> bufs s' = bufs s -> lru s' = lru s ->
  held s' = held s -> tx o s' V L k E.
Proof.
  intros (P & l & HR & Ht) He Hb Hl Hh. exists P, l. split; [|done].
  eapply rep_other; [exact HR|rewrite He; apply HR|done|done|rewrite Hh; apply HR| |].
  - exact (f_equal e_disk He).
  - exact (f_equal e_size He).
Qed.

Lemma tx_readsb o s V L k E (Q : superblock -> fsys -> Prop) :
  tx o s V L k E -> in_range (e_size E) 1 -> not_held L 1 -> (size L <= 1)%nat ->
  (forall s', tx o s' V L k E -> Q (decode_sb (V 1)) s') -> wp (readsb 1) Q s.
Proof.
  intros Ht H1 Hn HL HQ. unfold readsb. wp_step. eapply tx_bread; [exact Ht|done..|]. intros i s1 Hi Ht1.
  wp_step. eapply tx_buf_data; [exact Ht1|by rewrite lookup_insert_eq|].
  wp_step. eapply tx_brelse; [exact Ht1|by rewrite lookup_insert_eq|]. rewrite delete_insert_held by done. intros s2 Ht2.
  wp_step. by apply HQ.
Qed.

(** The part that [bfree] of a used and of a free block share. *)
Lemma tx_bfree_start s V L k E b (Q : unit -> fsys -> Prop) (P : string -> fsys -> Prop) :
  tx 1 s V L (S k) E -> layout E -> decode_sb (V 1) = e_sb E -> data_block E b -> held_data E V L -> (size L <= 1)%nat ->
  (used (e_sb E) V b = true -> forall s', tx 1 s' (unmark (e_sb E) V b) L k E -> Q tt s') ->
  (used (e_sb E) V b = false -> forall s', P "freeing free block"%string s') -> wpx (bfree 1 b) Q P s.
Proof.
  intros Ht HE Hsb Hb HLd HL HQ HP. pose proof (layout_order E HE) as Hly. destruct Hb as [Hb1 Hb2].
  assert (0 <= b < sb_size (e_sb E)) as Hb by lia. destruct (BBLOCK_eq E b HE Hb) as [_ HBB].
  unfold bfree. wp_step. apply wpx_of_wp. eapply tx_readsb; [exact Ht|unfold in_range; lia| |done|].
  { intros i c Hi. destruct (HLd _ _ _ Hi) as [[? ?] _]. lia. }
  intros s1 H1. rewrite Hsb. wp_step. apply wpx_of_wp, wp_modify.
  assert (tx 1 (set_fsb (e_sb E) s1) V L (S k) E) as H1'.
  { eapply tx_other; [exact H1| |done..]. unfold env_of. cbn. by rewrite (tx_fsb _ _ _ _ _ _ H1). }
  wp_step. apply wpx_of_wp. eapply tx_bread; [exact H1'|unfold in_range; lia|intros i c Hi; destruct (HLd _ _ _ Hi) as [[? ?] _]; lia|done|].
  intros i s2 Hi H2. wp_step. apply wpx_of_wp. eapply tx_buf_data; [exact H2|by rewrite lookup_insert_eq|]. rewrite bit_get_eq.
  fold (used (e_sb E) V b). destruct (used (e_sb E) V b) eqn:Hu; cbn [negb]; [|by apply HP].
  assert (length (V (BBLOCK b (e_sb E))) = BSIZE) as Hlen by (eapply tx_len; [exact H2|]; unfold in_range; lia).
  apply wpx_of_wp. wp_step. eapply tx_set_buf_data; [exact H2|by rewrite lookup_insert_eq| |].
  { rewrite bit_clear_length, Hlen; [done|]. rewrite Hlen. apply bit_index. }
  rewrite insert_insert_eq. intros s3 H3. wp_step.
  eapply tx_log_write; [exact H3|by rewrite lookup_insert_eq|apply layout_may_log; [done|lia]|done|]. rewrite insert_insert_eq. intros s4 H4.
  eapply tx_brelse; [exact H4|by rewrite lookup_insert_eq|]. rewrite delete_insert_held by done. by apply HQ.
Qed.
End Alloc.

(** ** What allocation does to the bitmap *)
Lemma BBLOCK_inj E b b' : layout E -> 0 <= b < sb_size (e_sb E) -> 0 <= b' < sb_size (e_sb E) ->
  BBLOCK b (e_sb E) = BBLOCK b' (e_sb E) -> Z.to_nat (b mod BPB) = Z.to_nat (b' mod BPB) -> b = b'.
Proof.
  intros HE Hb Hb'. destruct (BBLOCK_eq E b HE Hb) as [-> _]. destruct (BBLOCK_eq E b' HE Hb') as [-> _]. unfold BPB. zlia.
Qed.

Lemma used_vset E V a d b : layout E -> 0 <= b < sb_size (e_sb E) -> data_block E a ->
  used (e_sb E) (vset V a d) b = used (e_sb E) V b.
Proof.
  intros HE Hb [Ha _]. destruct (BBLOCK_eq E b HE Hb) as [_ HBB]. unfold used. by rewrite vset_ne by lia.
Qed.

Lemma used_mark E V a b : layout E -> 0 <= b < sb_size (e_sb E) -> 0 <= a < sb_size (e_sb E) ->
  length (V (BBLOCK a (e_sb E))) = BSIZE -> used (e_sb E) (mark (e_sb E) V a) b = (a =? b) || used (e_sb E) V b.
Proof.
  intros HE Hb Ha Hlen. unfold used, mark. destruct (decide (BBLOCK b (e_sb E) = BBLOCK a (e_sb E))) as [Heq|Hne].
  - rewrite Heq, vset_eq, bit_set_spec by (rewrite Hlen; apply bit_index). f_equal.
    destruct (Nat.eqb_spec (Z.to_nat (a mod BPB)) (Z.to_nat (b mod BPB))) as [Hm|Hm]; symmetry.
    + apply Z.eqb_eq. by eapply BBLOCK_inj.
    + apply Z.eqb_neq. by intros ->.
  - rewrite vset_ne by done. replace (a =? b) with false; [done|]. symmetry. apply Z.eqb_neq. by intros ->.
Qed.

Lemma used_unmark E V a b : layout E -> 0 <= b < sb_size (e_sb E) -> 0 <= a < sb_size (e_sb E) ->
  length (V (BBLOCK a (e_sb E))) = BSIZE -> used (e_sb E) (unmark (e_sb E) V a) b = negb (a =? b) && used (e_sb E) V b.
Proof.
  intros HE Hb Ha Hlen. unfold used, unmark. destruct (decide (BBLOCK b (e_sb E) = BBLOCK a (e_sb E))) as [Heq|Hne].
  - rewrite Heq, vset_eq, bit_clear_spec by (rewrite Hlen; apply bit_index). f_equal. f_equal.
    destruct (Nat.eqb_spec (Z.to_nat (a mod BPB)) (Z.to_nat (b mod BPB))) as [Hm|Hm]; symmetry.
    + apply Z.eqb_eq. by eapply BBLOCK_inj.
    + apply Z.eqb_neq. by intros ->.
  - rewrite vset_ne by done. replace (a =? b) with false; [done|]. symmetry. apply Z.eqb_neq. by intros ->.
Qed.

Lemma used_allocated E V a b : layout E -> 0 <= b < sb_size (e_sb E) -> data_block E a ->
  length (V (BBLOCK a (e_sb E))) = BSIZE -> used (e_sb E) (allocated (e_sb E) V a) b = (a =? b) || used (e_sb E) V b.
Proof.
  intros HE Hb Ha Hlen. pose proof (layout_order E HE). unfold allocated. rewrite used_vset by done.
  apply used_mark; [done..| |done]. destruct Ha. lia.
Qed.

(** Free blocks left. *)
Definition free_blocks (E : fenv) (V : Z -> block) : nat :=
  length (filter (fun b => used (e_sb E) V b = false) (seqZ (data_start (e_sb E)) (sb_size (e_sb E) - data_start (e_sb E)))).

Lemma filter_false_ext (p q : Z -> bool) (l : list Z) : (forall b, b ∈ l -> q b = p b) ->
  filter (fun b => q b = false) l = filter (fun b => p b = false) l.
Proof.
  intros Hqp. induction l as [|y l IH]; [done|]. rewrite !filter_cons, (Hqp y) by set_solver.
  case_decide; [f_equal|]; apply IH; set_solver.
Qed.

Lemma filter_drop_one (p q : Z -> bool) a l : NoDup l -> a ∈ l -> p a = false -> (forall b, b ∈ l -> q b = (a =? b) || p b) ->
  length (filter (fun b => p b = false) l) = S (length (filter (fun b => q b = false) l)).
Proof.
  intros Hn Ha Hpa Hq. induction l as [|x l IH]; [set_solver|]. apply NoDup_cons in Hn as [Hx Hn].
  rewrite !filter_cons, (Hq x) by set_solver. destruct (Z.eqb_spec a x) as [->|Hne]; cbn [orb].
  - rewrite Hpa. rewrite decide_True, decide_False by done. cbn [length]. f_equal. f_equal.
    symmetry. apply filter_false_ext. intros b Hb. rewrite Hq by set_solver. by destruct (Z.eqb_spec x b) as [->|].
  - case_decide; cbn [length]; [f_equal|]; apply IH; set_solver.
Qed.

Lemma free_allocated E V a : layout E -> data_block E a -> used (e_sb E) V a = false ->
  length (V (BBLOCK a (e_sb E))) = BSIZE -> free_blocks E V = S (free_blocks E (allocated (e_sb E) V a)).
Proof.
  intros HE Ha Hu Hlen. pose proof (layout_order E HE). unfold free_blocks. apply (filter_drop_one _ _ a); [apply NoDup_seqZ| |done|].
  - apply elem_of_seqZ. destruct Ha. lia.
  - intros b Hb. apply elem_of_seqZ in Hb. apply used_allocated; (done || lia).
Qed.

Lemma free_vset E V b d : layout E -> data_block E b -> free_blocks E (vset V b d) = free_blocks E V.
Proof.
  intros HE Hb. pose proof (layout_order E HE). unfold free_blocks. f_equal. apply filter_false_ext. intros c Hc%elem_of_seqZ.
  apply used_vset; (done || lia).
Qed.

Lemma free_exists E V : free_blocks E V <> 0%nat -> exists a, data_block E a /\ used (e_sb E) V a = false.
Proof.
  intros H. unfold free_blocks in H. destruct (filter _ _) as [|a l] eqn:Hf; [done|].
  assert (a ∈ a :: l) as Ha by set_solver. rewrite <- Hf in Ha. apply list_elem_of_filter in Ha as [Hu Ha%elem_of_seqZ].
  exists a. split; [split; lia|done].
Qed.
