(* ===== verification/FsFile.v ===== *)
(** * The blocks of a file

    [addr_of V x bn] is the disk block that holds block [bn] of the file with
    inode [x], 0 where there is none.  [bmap] finds it, or extends the file by a
    fresh block of zeros; [grown] says what may have changed. *)
From Stdlib Require Import ZArith Lia Bool.
From stdpp Require Import base numbers list strings gmap.
From S2P Require Import Prelude Machine Cstring FsState Bio BioInv Log LogInv LogTx Fs FsInode FsAlloc.

Definition ind_of (x : inode) : Z := nth NDIRECT (i_addrs x) 0.
Definition addr_of (V : Z -> block) (x : inode) (bn : nat) : Z :=
  if (bn <? NDIRECT)%nat then nth bn (i_addrs x) 0
  else if ind_of x =? 0 then 0 else get32 (V (ind_of x)) (4 * (bn - NDIRECT)).

Definition MAXBN : nat := NDIRECT + NINDIRECT.

(** An inode whose blocks are in use and its own. *)
Record ino_ok (E : fenv) (V : Z -> block) (x : inode) : Prop := {
  io_dev : i_dev x = 1;
  io_len : length (i_addrs x) = S NDIRECT;
  io_ind : ind_of x <> 0 -> data_block E (ind_of x) /\ used (e_sb E) V (ind_of x) = true;
  io_used : forall bn, (bn < MAXBN)%nat -> addr_of V x bn <> 0 -> data_block E (addr_of V x bn) /\ used (e_sb E) V (addr_of V x bn) = true;
  io_inj : forall bn bn', (bn < MAXBN)%nat -> (bn' < MAXBN)%nat -> addr_of V x bn <> 0 -> addr_of V x bn = addr_of V x bn' -> bn = bn';
  io_not_ind : forall bn, (bn < MAXBN)%nat -> addr_of V x bn <> 0 -> addr_of V x bn <> ind_of x;
}.

(** Only the block addresses of an inode change. *)
Definition same_but_addrs (x x' : inode) : Prop := x' = set_i_addrs (i_addrs x') x.

(** The file has got some blocks that were free, and perhaps other contents. *)
Record extended (E : fenv) (V : Z -> block) (x : inode) (V' : Z -> block) (x' : inode) : Prop := {
  ex_ok : ino_ok E V' x';
  ex_meta : meta_used E V';
  ex_same : same_but_addrs x x';
  ex_addr : forall bn, (bn < MAXBN)%nat -> addr_of V x bn <> 0 -> addr_of V' x' bn = addr_of V x bn;
  ex_frame : forall b, b < sb_bmapstart (e_sb E) \/ data_block E b -> b <> ind_of x -> (data_block E b -> used (e_sb E) V b = true) ->
    (forall bn, (bn < MAXBN)%nat -> addr_of V x bn <> b) -> V' b = V b;
  ex_used : forall b, 0 <= b < sb_size (e_sb E) -> used (e_sb E) V b = true -> used (e_sb E) V' b = true;
  ex_ind : ind_of x <> 0 -> ind_of x' = ind_of x;
  ex_ind_new : ind_of x = 0 -> ind_of x' <> 0 -> used (e_sb E) V (ind_of x') = false;
  ex_new : forall bn, (bn < MAXBN)%nat -> addr_of V x bn = 0 -> addr_of V' x' bn <> 0 -> used (e_sb E) V (addr_of V' x' bn) = false;
}.

(** The new blocks are zero and the old ones have kept their contents. *)
Record grown (E : fenv) (V : Z -> block) (x : inode) (V' : Z -> block) (x' : inode) : Prop := {
  gr_ext :> extended E V x V' x';
  gr_zero : forall bn, (bn < MAXBN)%nat -> addr_of V x bn = 0 -> addr_of V' x' bn <> 0 -> V' (addr_of V' x' bn) = replicate BSIZE 0;
  gr_frame : forall b, b < sb_bmapstart (e_sb E) \/ data_block E b -> b <> ind_of x -> (data_block E b -> used (e_sb E) V b = true) -> V' b = V b;
}.

Lemma grown_intro E V x V' x' : ino_ok E V' x' -> meta_used E V' -> same_but_addrs x x' ->
  (forall bn, (bn < MAXBN)%nat -> addr_of V x bn <> 0 -> addr_of V' x' bn = addr_of V x bn) ->
  (forall bn, (bn < MAXBN)%nat -> addr_of V x bn = 0 -> addr_of V' x' bn <> 0 -> V' (addr_of V' x' bn) = replicate BSIZE 0) ->
  (forall b, b < sb_bmapstart (e_sb E) \/ data_block E b -> b <> ind_of x -> (data_block E b -> used (e_sb E) V b = true) -> V' b = V b) ->
  (forall b, 0 <= b < sb_size (e_sb E) -> used (e_sb E) V b = true -> used (e_sb E) V' b = true) ->
  (ind_of x <> 0 -> ind_of x' = ind_of x) -> (ind_of x = 0 -> ind_of x' <> 0 -> used (e_sb E) V (ind_of x') = false) ->
  (forall bn, (bn < MAXBN)%nat -> addr_of V x bn = 0 -> addr_of V' x' bn <> 0 -> used (e_sb E) V (addr_of V' x' bn) = false) ->
  grown E V x V' x'.
Proof. intros H1 H2 H3 H4 H5 H6 H7 H8 H9 H10. split; [split; auto|done|done]. Qed.

Lemma grown_refl E V x : ino_ok E V x -> meta_used E V -> grown E V x V x.
Proof. intros Hok Hm. apply grown_intro; try done. unfold same_but_addrs. by destruct x. Qed.

(** Byte [i] of the file; a hole reads as zero. *)
Definition content (V : Z -> block) (x : inode) (i : Z) : Z :=
  let a := addr_of V x (Z.to_nat (i / Z.of_nat BSIZE)) in
  if a =? 0 then 0 else nth (Z.to_nat (i mod Z.of_nat BSIZE)) (V a) 0.

Lemma block_index i : 0 <= i < MAXFILE * Z.of_nat BSIZE -> (Z.to_nat (i / Z.of_nat BSIZE) < MAXBN)%nat.
Proof. unfold MAXFILE, BSIZE, MAXBN, NDIRECT, NINDIRECT. intros H. zlia. Qed.

(** Extending a file does not change its contents. *)
Lemma grown_content E V x V' x' i : ino_ok E V x -> grown E V x V' x' -> 0 <= i < MAXFILE * Z.of_nat BSIZE ->
  content V' x' i = content V x i.
Proof.
  intros Hok [[G1 G2 G3 G4 _ G7 _ _ _] G5 G6] Hi. pose proof (block_index i Hi) as Hbn. unfold content. set (bn := Z.to_nat (i / Z.of_nat BSIZE)) in *.
  destruct (Z.eqb_spec (addr_of V x bn) 0) as [H0|H0].
  - destruct (Z.eqb_spec (addr_of V' x' bn) 0) as [|H1]; [done|]. rewrite G5 by done. apply nth_replicate.
  - rewrite G4 by done. rewrite (proj2 (Z.eqb_neq _ _) H0). rewrite G6; [done| | |].
    + right. by apply Hok.
    + by apply Hok.
    + intros _. by apply Hok.
Qed.

Lemma data_block_used E b : layout E -> data_block E b -> 0 <= b < sb_size (e_sb E).
Proof. intros HE [? ?]. pose proof (layout_order E HE). lia. Qed.

Section Trans.
Context (E : fenv) (V : Z -> block) (x : inode) (V1 : Z -> block) (x1 : inode) (V2 : Z -> block) (x2 : inode).
Hypothesis (HE : layout E) (Hok : ino_ok E V x) (G1 : extended E V x V1 x1).

Lemma ext_not_ind b : b < sb_bmapstart (e_sb E) \/ data_block E b -> (data_block E b -> used (e_sb E) V b = true) ->
  b <> ind_of x -> b <> ind_of x1.
Proof.
  intros Hb Hu Hne ->. pose proof (layout_order E HE) as Hly. destruct (decide (ind_of x = 0)) as [H0|H0].
  - assert (ind_of x1 <> 0) as H1 by congruence. destruct (io_ind _ _ _ (ex_ok _ _ _ _ _ G1) H1) as [Hd _].
    specialize (Hu Hd). rewrite (ex_ind_new _ _ _ _ _ G1) in Hu; done.
  - apply Hne. by apply (ex_ind _ _ _ _ _ G1).
Qed.

Lemma ext_not_own b : b < sb_bmapstart (e_sb E) \/ data_block E b -> (data_block E b -> used (e_sb E) V b = true) ->
  (forall bn, (bn < MAXBN)%nat -> addr_of V x bn <> b) -> b <> 0 -> forall bn, (bn < MAXBN)%nat -> addr_of V1 x1 bn <> b.
Proof.
  intros Hb Hu Hno Hb0 bn Hbn Heq. destruct (decide (addr_of V x bn = 0)) as [H0|H0].
  - assert (addr_of V1 x1 bn <> 0) as H1 by congruence. destruct (io_used _ _ _ (ex_ok _ _ _ _ _ G1) bn Hbn H1) as [Hd _].
    rewrite Heq in Hd. specialize (Hu Hd). rewrite <- Heq, (ex_new _ _ _ _ _ G1) in Hu; done.
  - apply (Hno bn Hbn). by rewrite <- (ex_addr _ _ _ _ _ G1).
Qed.

Hypothesis G2 : extended E V1 x1 V2 x2.

Lemma ext_used_step b : data_block E b -> used (e_sb E) V1 b = false -> used (e_sb E) V b = false.
Proof.
  intros Hd Hu. destruct (used (e_sb E) V b) eqn:Hu0; [|done]. rewrite (ex_used _ _ _ _ _ G1) in Hu; [done| |done].
  by eapply data_block_used.
Qed.

Lemma extended_trans : extended E V x V2 x2.
Proof.
  split; [apply G2|apply G2| | | | | | |].
  - pose proof (ex_same _ _ _ _ _ G1) as S1. pose proof (ex_same _ _ _ _ _ G2) as S2. unfold same_but_addrs in *. rewrite S2, S1. done.
  - intros bn Hbn H0. rewrite <- (ex_addr _ _ _ _ _ G1) by done. apply (ex_addr _ _ _ _ _ G2); [done|]. by rewrite (ex_addr _ _ _ _ _ G1).
  - intros b Hb Hne Hu Hno. destruct (decide (b = 0)) as [->|Hb0].
    { rewrite (ex_frame _ _ _ _ _ G2); [by apply (ex_frame _ _ _ _ _ G1)|done|by apply ext_not_ind| |].
      - intros Hd. apply (ex_used _ _ _ _ _ G1); [by eapply data_block_used|auto].
      - intros bn Hbn Heq. destruct (decide (addr_of V x bn = 0)) as [H0|H0]; [by apply (Hno bn Hbn)|].
        apply H0. by rewrite <- (ex_addr _ _ _ _ _ G1). }
    rewrite (ex_frame _ _ _ _ _ G2); [by apply (ex_frame _ _ _ _ _ G1)|done|by apply ext_not_ind| |by apply ext_not_own].
    intros Hd. apply (ex_used _ _ _ _ _ G1); [by eapply data_block_used|auto].
  - intros b Hb Hu. apply (ex_used _ _ _ _ _ G2); [done|]. by apply (ex_used _ _ _ _ _ G1).
  - intros H0. rewrite (ex_ind _ _ _ _ _ G2); [by apply (ex_ind _ _ _ _ _ G1)|]. by rewrite (ex_ind _ _ _ _ _ G1).
  - intros H0 H2. destruct (decide (ind_of x1 = 0)) as [H1|H1].
    + apply ext_used_step; [by apply (ex_ok _ _ _ _ _ G2)|]. by apply (ex_ind_new _ _ _ _ _ G2).
    + rewrite (ex_ind _ _ _ _ _ G2) by done. by apply (ex_ind_new _ _ _ _ _ G1).
  - intros bn Hbn H0 H2. destruct (decide (addr_of V1 x1 bn = 0)) as [H1|H1].
    + apply ext_used_step; [by apply (ex_ok _ _ _ _ _ G2)|]. by apply (ex_new _ _ _ _ _ G2).
    + rewrite (ex_addr _ _ _ _ _ G2) by done. by apply (ex_new _ _ _ _ _ G1).
Qed.
End Trans.

Lemma grown_trans E V x V1 x1 V2 x2 : layout E -> ino_ok E V x -> grown E V x V1 x1 -> grown E V1 x1 V2 x2 -> grown E V x V2 x2.
Proof.
  intros HE Hok G1 G2. split; [eapply extended_trans; [done|exact (gr_ext _ _ _ _ _ G1)|exact (gr_ext _ _ _ _ _ G2)]| |].
  - intros bn Hbn H0 H2. destruct (decide (addr_of V1 x1 bn = 0)) as [H1|H1]; [by apply (gr_zero _ _ _ _ _ G2)|].
    rewrite (ex_addr _ _ _ _ _ G2) by done. rewrite (gr_frame _ _ _ _ _ G2); [by apply (gr_zero _ _ _ _ _ G1)|right|..].
    + by apply (ex_ok _ _ _ _ _ G1).
    + by apply (ex_ok _ _ _ _ _ G1).
    + intros _. by apply (ex_ok _ _ _ _ _ G1).
  - intros b Hb Hne Hu. rewrite (gr_frame _ _ _ _ _ G2); [by apply (gr_frame _ _ _ _ _ G1)|done|eapply ext_not_ind; [exact HE|exact (gr_ext _ _ _ _ _ G1)|done|done|done]|].
    intros Hd. apply (ex_used _ _ _ _ _ G1); [by eapply data_block_used|auto].
Qed.

(** ** A fresh block *)
Section Fresh.
Context (E : fenv) (V : Z -> block) (x : inode) (a : Z).
Hypothesis (HE : layout E) (Hok : ino_ok E V x) (Hm : meta_used E V).
Hypothesis (Ha : data_block E a) (Hu : used (e_sb E) V a = false) (Hlen : length (V (BBLOCK a (e_sb E))) = BSIZE).

Local Abbreviation V1 := (allocated (e_sb E) V a).

Lemma fresh_pos : 0 < a < sb_size (e_sb E).
Proof. pose proof (layout_order E HE). destruct Ha. lia. Qed.

Lemma fresh_not_used b : used (e_sb E) V b = true -> b <> a.
Proof. intros Hb ->. congruence. Qed.

Lemma alloc_frame b : b < sb_bmapstart (e_sb E) \/ data_block E b -> b <> a -> V1 b = V b.
Proof.
  intros Hb Hne. pose proof fresh_pos. unfold allocated, mark. destruct (BBLOCK_eq E a HE) as [_ HB]; [lia|].
  rewrite vset_ne by done. rewrite vset_ne; [done|]. unfold data_block in Hb. lia.
Qed.
Lemma alloc_zero : V1 a = replicate BSIZE 0.
Proof. apply vset_eq. Qed.
Lemma alloc_used b : 0 <= b < sb_size (e_sb E) -> used (e_sb E) V1 b = (a =? b) || used (e_sb E) V b.
Proof. intros Hb. by apply used_allocated. Qed.
Lemma alloc_meta : meta_used E V1.
Proof. intros b Hb. pose proof (layout_order E HE). rewrite alloc_used by lia. rewrite Hm by done. apply orb_true_r. Qed.

(** The fresh block entered in the inode. *)
Section Direct.
Context (k : nat).
Hypothesis (Hk : (k < S NDIRECT)%nat) (H0 : nth k (i_addrs x) 0 = 0).
Local Abbreviation x1 := (set_i_addr k a x).

Lemma nth_addr j : nth j (i_addrs x1) 0 = if (j =? k)%nat then a else nth j (i_addrs x) 0.
Proof.
  cbn [set_i_addr set_i_addrs i_addrs]. rewrite !nth_lookup. destruct (Nat.eqb_spec j k) as [->|Hne].
  - rewrite list_lookup_insert_eq; [done|]. by rewrite (io_len _ _ _ Hok).
  - by rewrite list_lookup_insert_ne.
Qed.

Lemma addr_fresh bn : (bn < MAXBN)%nat -> addr_of V1 x1 bn = if (bn =? k)%nat && (k <? NDIRECT)%nat then a else addr_of V x bn.
Proof.
  intros Hbn. unfold addr_of, ind_of. rewrite !nth_addr. pose proof fresh_pos.
  destruct (Nat.ltb_spec bn NDIRECT) as [Hlt|Hge].
  - destruct (Nat.eqb_spec bn k) as [->|]; cbn [andb]; [|done]. by rewrite (proj2 (Nat.ltb_lt _ _) Hlt).
  - replace ((bn =? k)%nat && (k <? NDIRECT)%nat) with false.
    2:{ symmetry. destruct (Nat.eqb_spec bn k), (Nat.ltb_spec k NDIRECT); cbn; (done || lia). }
    destruct (Nat.eqb_spec NDIRECT k) as [<-|Hne].
    + rewrite H0. rewrite (proj2 (Z.eqb_neq a 0)) by lia. cbn [Z.eqb]. rewrite alloc_zero. unfold get32, get16, get8. by rewrite !nth_replicate.
    + destruct (Z.eqb_spec (nth NDIRECT (i_addrs x) 0) 0) as [|Hi]; [done|]. destruct (io_ind _ _ _ Hok Hi) as [Hd Hui].
      rewrite alloc_frame; [done|by right|by apply fresh_not_used].
Qed.

Lemma ind_fresh : ind_of x1 = if (NDIRECT =? k)%nat then a else ind_of x.
Proof. unfold ind_of. apply nth_addr. Qed.

Lemma ino_ok_fresh : ino_ok E V1 x1.
Proof.
  pose proof fresh_pos as Hp.
  assert (forall b, data_block E b -> used (e_sb E) V b = true -> used (e_sb E) V1 b = true) as Hmono.
  { intros b Hb Hub. rewrite alloc_used by (by eapply data_block_used). by rewrite Hub, orb_true_r. }
  assert (used (e_sb E) V1 a = true) as Hua by (rewrite alloc_used by lia; by rewrite Z.eqb_refl).
  split.
  - apply Hok.
  - cbn. rewrite length_insert. apply Hok.
  - rewrite ind_fresh. destruct (NDIRECT =? k)%nat; [done|]. intros Hi. destruct (io_ind _ _ _ Hok Hi). auto.
  - intros bn Hbn. rewrite addr_fresh by done. destruct (_ && _); [done|]. intros Hb. destruct (io_used _ _ _ Hok bn Hbn Hb). auto.
  - intros bn bn' Hbn Hbn'. rewrite !addr_fresh by done.
    assert (forall c c', (c < MAXBN)%nat -> (c' < MAXBN)%nat -> (c =? k)%nat && (k <? NDIRECT)%nat = true -> a = addr_of V x c' -> c = c') as Hx.
    { intros c c' Hc Hc' _ Heq. exfalso. destruct (io_used _ _ _ Hok c' Hc') as [_ Hu']; [lia|]. rewrite <- Heq in Hu'. congruence. }
    destruct ((bn =? k)%nat && (k <? NDIRECT)%nat) eqn:E1, ((bn' =? k)%nat && (k <? NDIRECT)%nat) eqn:E2; intros Hnz Heq.
    + apply andb_true_iff in E1 as [->%Nat.eqb_eq _]. by apply andb_true_iff in E2 as [->%Nat.eqb_eq _].
    + by apply Hx.
    + symmetry. by eapply Hx.
    + by apply (io_inj _ _ _ Hok).
  - intros bn Hbn. rewrite addr_fresh, ind_fresh by done.
    destruct ((bn =? k)%nat && (k <? NDIRECT)%nat) eqn:E1.
    + intros _. apply andb_true_iff in E1 as [_ E1%Nat.ltb_lt]. rewrite (proj2 (Nat.eqb_neq _ _)) by lia.
      intros Heq. destruct (io_ind _ _ _ Hok) as [_ Hui]; [lia|]. rewrite <- Heq in Hui. congruence.
    + intros Hnz. destruct (NDIRECT =? k)%nat; [|by apply (io_not_ind _ _ _ Hok)].
      intros Heq. destruct (io_used _ _ _ Hok bn Hbn Hnz) as [_ Hub]. congruence.
Qed.

Lemma grown_fresh : grown E V x V1 x1.
Proof.
  pose proof fresh_pos as Hp. apply grown_intro; [apply ino_ok_fresh|apply alloc_meta|done| | | | | | |].
  - intros bn Hbn Hnz. rewrite addr_fresh by done. destruct ((bn =? k)%nat && _) eqn:E1; [|done].
    apply andb_true_iff in E1 as [->%Nat.eqb_eq E1]. unfold addr_of in Hnz. rewrite E1 in Hnz. done.
  - intros bn Hbn Hz. rewrite addr_fresh by done. destruct ((bn =? k)%nat && _); [intros _; apply alloc_zero|done].
  - intros b Hb _ Hub. apply alloc_frame; [done|]. destruct Hb as [Hb|Hb]; [destruct Ha; pose proof (layout_order E HE); lia|].
    apply fresh_not_used. auto.
  - intros b Hb Hub. rewrite alloc_used by done. by rewrite Hub, orb_true_r.
  - intros Hi. rewrite ind_fresh. destruct (Nat.eqb_spec NDIRECT k) as [<-|]; [|done]. unfold ind_of in Hi. done.
  - intros Hi. rewrite ind_fresh. destruct (NDIRECT =? k)%nat; [done|congruence].
  - intros bn Hbn Hz. rewrite addr_fresh by done. destruct ((bn =? k)%nat && _); [done|congruence].
Qed.
End Direct.

(** The fresh block entered in the indirect block. *)
Section Indirect.
Context (j : nat).
Hypothesis (Hj : (j < NINDIRECT)%nat) (Hi : ind_of x <> 0) (Hli : length (V (ind_of x)) = BSIZE).
Hypothesis H0 : get32 (V (ind_of x)) (4 * j) = 0.
Local Abbreviation V2 := (vset V1 (ind_of x) (splice (V (ind_of x)) (4 * j) (le32 a))).

Lemma ind_data : data_block E (ind_of x) /\ used (e_sb E) V (ind_of x) = true.
Proof. by apply Hok. Qed.

Lemma addr_entry bn : (bn < MAXBN)%nat -> addr_of V2 x bn = if (bn =? NDIRECT + j)%nat then a else addr_of V x bn.
Proof.
  intros Hbn. unfold addr_of. unfold MAXBN, NDIRECT, NINDIRECT, BSIZE in *. destruct (Nat.ltb_spec bn 12) as [Hlt|Hge].
  { by rewrite (proj2 (Nat.eqb_neq _ _)) by lia. }
  rewrite (proj2 (Z.eqb_neq _ _) Hi), vset_eq. destruct (Nat.eqb_spec bn (12 + j)) as [->|Hne].
  - replace (12 + j - 12)%nat with j by lia. rewrite get32_splice by lia. apply Z.mod_small. pose proof fresh_pos.
    pose proof (layout_order E HE). rewrite pow2_32. lia.
  - apply get32_splice_ne; rewrite le32_length; lia.
Qed.

Lemma entry_zero : addr_of V x (NDIRECT + j) = 0.
Proof.
  unfold addr_of. rewrite (proj2 (Nat.ltb_ge _ _)) by lia. rewrite (proj2 (Z.eqb_neq _ _) Hi).
  by replace (NDIRECT + j - NDIRECT)%nat with j by lia.
Qed.

Lemma entry_used b : 0 <= b < sb_size (e_sb E) -> used (e_sb E) V2 b = (a =? b) || used (e_sb E) V b.
Proof. intros Hb. rewrite used_vset by (done || apply ind_data). by apply alloc_used. Qed.

Lemma entry_frame b : b < sb_bmapstart (e_sb E) \/ data_block E b -> b <> a -> b <> ind_of x -> V2 b = V b.
Proof. intros Hb Hne Hni. rewrite vset_ne by done. by apply alloc_frame. Qed.

Lemma grown_entry : grown E V x V2 x.
Proof.
  pose proof fresh_pos as Hp. destruct ind_data as [Hid Hiu]. pose proof (layout_order E HE) as Hly.
  assert (forall b, data_block E b -> used (e_sb E) V b = true -> used (e_sb E) V2 b = true) as Hmono.
  { intros b Hb Hub. rewrite entry_used by (by eapply data_block_used). by rewrite Hub, orb_true_r. }
  assert (used (e_sb E) V2 a = true) as Hua by (rewrite entry_used by lia; by rewrite Z.eqb_refl).
  assert (a <> ind_of x) as Hai by (intros Heq; rewrite <- Heq in Hiu; congruence).
  apply grown_intro; [|intros b Hb; rewrite entry_used by lia; by rewrite Hm, orb_true_r|unfold same_but_addrs; by destruct x| | | | |done|done|].
  - split; [apply Hok|apply Hok|intros _; auto| | |].
    + intros bn Hbn. rewrite addr_entry by done. destruct (_ =? _)%nat; [done|]. intros Hb. destruct (io_used _ _ _ Hok bn Hbn Hb). auto.
    + intros bn bn' Hbn Hbn'. rewrite !addr_entry by done.
      destruct (Nat.eqb_spec bn (NDIRECT + j)) as [->|], (Nat.eqb_spec bn' (NDIRECT + j)) as [->|]; intros Hnz Heq; [done| | |by apply (io_inj _ _ _ Hok)].
      * exfalso. destruct (io_used _ _ _ Hok bn' Hbn') as [_ Hub]; [lia|]. rewrite <- Heq in Hub. congruence.
      * exfalso. destruct (io_used _ _ _ Hok bn Hbn Hnz) as [_ Hub]. congruence.
    + intros bn Hbn. rewrite addr_entry by done. destruct (_ =? _)%nat; [done|]. by apply (io_not_ind _ _ _ Hok).
  - intros bn Hbn Hnz. rewrite addr_entry by done. destruct (Nat.eqb_spec bn (NDIRECT + j)) as [->|]; [|done]. by rewrite entry_zero in Hnz.
  - intros bn Hbn Hz. rewrite addr_entry by done. destruct (_ =? _)%nat; [|done]. intros _. rewrite vset_ne by done. apply alloc_zero.
  - intros b Hb Hni Hub. apply entry_frame; [done| |done]. destruct Hb as [Hb|Hb]; [destruct Ha; lia|]. apply fresh_not_used. auto.
  - intros b Hb Hub. rewrite entry_used by done. by rewrite Hub, orb_true_r.
  - intros bn Hbn Hz. rewrite addr_entry by done. destruct (_ =? _)%nat; [done|congruence].
Qed.
End Indirect.
End Fresh.

(** ** Writing to a block of the file *)
Section Own.
Context (E : fenv) (V : Z -> block) (x : inode) (bn : nat) (d : block).
Hypothesis (HE : layout E) (Hok : ino_ok E V x) (Hm : meta_used E V) (Hbn : (bn < MAXBN)%nat) (Hnz : addr_of V x bn <> 0).
Local Abbreviation V1 := (vset V (addr_of V x bn) d).

Lemma own_data : data_block E (addr_of V x bn) /\ used (e_sb E) V (addr_of V x bn) = true.
Proof. by apply Hok. Qed.

Lemma own_addr bn' : (bn' < MAXBN)%nat -> addr_of V1 x bn' = addr_of V x bn'.
Proof.
  intros Hbn'. pose proof (io_not_ind _ _ _ Hok bn Hbn Hnz) as Hni.
  set (a := addr_of V x bn) in *. clearbody a. unfold addr_of. destruct (bn' <? NDIRECT)%nat; [done|].
  destruct (ind_of x =? 0); [done|]. by rewrite vset_ne.
Qed.

Lemma own_used b : 0 <= b < sb_size (e_sb E) -> used (e_sb E) V1 b = used (e_sb E) V b.
Proof. intros Hb. apply used_vset; [done|done|apply own_data]. Qed.

Lemma own_extended : extended E V x V1 x.
Proof.
  pose proof (layout_order E HE) as Hly.
  assert (forall b, data_block E b -> used (e_sb E) V b = true -> used (e_sb E) V1 b = true) as Hmono.
  { intros b Hb Hu. rewrite own_used; [done|]. by eapply data_block_used. }
  split; [|intros b Hb; rewrite own_used by lia; by apply Hm|unfold same_but_addrs; by destruct x|intros; by apply own_addr| | |done|done|].
  - split; [apply Hok|apply Hok| | | |].
    + intros Hi. destruct (io_ind _ _ _ Hok Hi). auto.
    + intros c Hc. rewrite own_addr by done. intros Hc0. destruct (io_used _ _ _ Hok c Hc Hc0). auto.
    + intros c c' Hc Hc'. rewrite !own_addr by done. by apply Hok.
    + intros c Hc. rewrite own_addr by done. by apply Hok.
  - intros b _ _ _ Hno. apply vset_ne. intros ->. by apply (Hno bn Hbn).
  - intros b Hb Hu. by rewrite own_used.
  - intros c Hc H0. rewrite own_addr by done. congruence.
Qed.

Lemma own_free : free_blocks E V1 = free_blocks E V.
Proof. apply free_vset; [done|apply own_data]. Qed.

(** The file's contents after the block has become [d]. *)
Lemma own_content i : 0 <= i < MAXFILE * Z.of_nat BSIZE ->
  content V1 x i = if (Z.to_nat (i / Z.of_nat BSIZE) =? bn)%nat then nth (Z.to_nat (i mod Z.of_nat BSIZE)) d 0 else content V x i.
Proof.
  intros Hi. pose proof (block_index i Hi) as Hc. unfold content. set (c := Z.to_nat (i / Z.of_nat BSIZE)) in *. rewrite own_addr by done.
  destruct (Nat.eqb_spec c bn) as [->|Hne].
  - by rewrite (proj2 (Z.eqb_neq _ _) Hnz), vset_eq.
  - destruct (Z.eqb_spec (addr_of V x c) 0) as [|Hc0]; [done|]. rewrite vset_ne; [done|]. intros Heq. apply Hne. by apply (io_inj _ _ _ Hok).
Qed.
End Own.
