(* ===== verification/FsIo.v ===== *)
(** * Reading and writing a file

    [bmap] against [addr_of], [readi] and [writei] against the contents of the
    file as a function from offsets to bytes. *)
From Stdlib Require Import ZArith Lia Bool.
From stdpp Require Import base numbers list strings gmap.
From S2P Require Import Prelude Machine Cstring FsState Bio BioInv Log LogInv LogTx Fs FsInode FsAlloc FsFile.

Definition with_inode (E : fenv) (ip : nat) (x : inode) : fenv := env_set_icache (<[ip := x]> (e_icache E)) E.

Lemma with_inode_id E ip x : e_icache E !! ip = Some x -> with_inode E ip x = E.
Proof. intros H. unfold with_inode. rewrite list_insert_id by done. by destruct E. Qed.
Lemma with_inode_twice E ip x x' : with_inode (with_inode E ip x) ip x' = with_inode E ip x'.
Proof. unfold with_inode, env_set_icache. cbn. by rewrite list_insert_insert_eq. Qed.
Lemma with_inode_lookup E ip x y : e_icache E !! ip = Some x -> e_icache (with_inode E ip y) !! ip = Some y.
Proof. intros H. cbn. apply list_lookup_insert_eq. by eapply lookup_lt_Some. Qed.
Lemma layout_with E ip x : layout E -> layout (with_inode E ip x).
Proof. intros []. by split. Qed.

(** [n] bytes of the file from [off] on. *)
Definition bytes_at (V : Z -> block) (x : inode) (off n : Z) : list Z :=
  (fun i => content V x (off + Z.of_nat i)) <$> seq 0 (Z.to_nat n).

Lemma bytes_at_length V x off n : length (bytes_at V x off n) = Z.to_nat n.
Proof. unfold bytes_at. by rewrite length_fmap, length_seq. Qed.

Lemma bytes_at_lookup V x off n i : (i < Z.to_nat n)%nat -> bytes_at V x off n !! i = Some (content V x (off + Z.of_nat i)).
Proof. intros H. unfold bytes_at. rewrite list_lookup_fmap, lookup_seq_lt by done. done. Qed.

Lemma bytes_at_app V x off n m : 0 <= n -> 0 <= m -> bytes_at V x off (n + m) = bytes_at V x off n ++ bytes_at V x (off + n) m.
Proof.
  intros Hn Hm. unfold bytes_at. rewrite Z2Nat.inj_add, seq_app, fmap_app by done. f_equal.
  rewrite <- (Nat.add_0_r (0 + Z.to_nat n)), <- fmap_add_seq, <- list_fmap_compose. apply list_fmap_ext. intros i j _. cbn. f_equal. lia.
Qed.

(** The chunk from [off] lies in one block. *)
Lemma chunk_spec off n : 0 <= off -> 0 < n -> 0 < chunk off n <= n /\ off mod 512 + chunk off n <= 512 /\
  (chunk off n = n \/ (off + chunk off n) mod 512 = 0 /\ chunk off n = 512 - off mod 512).
Proof. unfold chunk. change (Z.of_nat BSIZE) with 512. intros H1 H2. zlia. Qed.

Lemma slice_bytes V x off m : 0 <= off -> 0 <= m -> off mod 512 + m <= 512 ->
  let a := addr_of V x (Z.to_nat (off / 512)) in a <> 0 -> length (V a) = BSIZE ->
  slice (V a) (Z.to_nat (off mod 512)) (Z.to_nat m) = bytes_at V x off m.
Proof.
  intros Ho Hm Hfit a Ha Hlen. apply list_eq. intros i. unfold slice.
  destruct (decide (i < Z.to_nat m)%nat) as [Hi|Hi].
  - rewrite bytes_at_lookup by done. rewrite lookup_take_lt, lookup_drop by done. unfold content. change (Z.of_nat BSIZE) with 512.
    replace ((off + Z.of_nat i) / 512) with (off / 512) by zlia. fold a. rewrite (proj2 (Z.eqb_neq _ _) Ha).
    replace (Z.to_nat ((off + Z.of_nat i) mod 512)) with (Z.to_nat (off mod 512) + i)%nat by zlia.
    destruct (lookup_lt_is_Some_2 (V a) (Z.to_nat (off mod 512) + i)) as [v Hv]; [rewrite Hlen; unfold BSIZE; zlia|].
    rewrite Hv. f_equal. symmetry. by apply nth_lookup_Some.
  - rewrite lookup_take_ge by lia. symmetry. apply lookup_ge_None_2. rewrite bytes_at_length. lia.
Qed.

Lemma ino_ok_with E ip y V x : ino_ok E V x -> ino_ok (with_inode E ip y) V x.
Proof. intros []. by split. Qed.
Lemma extended_with E ip y V x V' x' : extended (with_inode E ip y) V x V' x' -> extended E V x V' x'.
Proof. intros [H]. split; try done. destruct H. by split. Qed.
Lemma grown_with E ip y V x V' x' : grown (with_inode E ip y) V x V' x' -> grown E V x V' x'.
Proof. intros [H]. split; try done. by apply extended_with in H. Qed.

Section Io.
Context {I : FsImage} {W : Wakeups} {DS : DevSw}.
Implicit Types (s : fsys) (L : holds) (V : Z -> block).

Lemma tx_icache o s V L k E : tx o s V L k E -> icache s = e_icache E.
Proof. intros (P & l & HR & _). exact (f_equal e_icache (rep_env _ _ _ _ _ HR)). Qed.

Lemma tx_get_inode o s V L k E ip x (Q : inode -> fsys -> Prop) :
  tx o s V L k E -> e_icache E !! ip = Some x -> Q x s -> wp (get_inode ip) Q s.
Proof. intros Ht Hx HQ. unfold wp, get_inode, get_at. by rewrite (tx_icache _ _ _ _ _ _ Ht), Hx. Qed.

Lemma tx_set_icache o s V L k E v : tx o s V L k E -> tx o (set_icache v s) V L k (env_set_icache v E).
Proof.
  intros (P & l & HR & [H1 H2 H3 H4 H5 H6]). exists P, l. split; [|by split].
  eapply rep_other; [exact HR| |done|done|exact (rep_locks _ _ _ _ _ HR)|done|done].
  pose proof (rep_env _ _ _ _ _ HR) as HE. apply env_of_log in HE as (? & ? & ? & ? & ? & ? & ? & ?). apply env_of_log. cbn. by repeat split.
Qed.

Lemma tx_upd_inode o s V L k E ip x f (Q : unit -> fsys -> Prop) :
  tx o s V L k E -> e_icache E !! ip = Some x -> (forall s', tx o s' V L k (with_inode E ip (f x)) -> Q tt s') ->
  wp (upd_inode ip f) Q s.
Proof.
  intros Ht Hx HQ. unfold wp, upd_inode. rewrite (tx_icache _ _ _ _ _ _ Ht), Hx. apply HQ. by apply tx_set_icache.
Qed.

Lemma tx_len_B s V L k E b : tx 1 s V L k E -> layout E -> 0 <= b < sb_size (e_sb E) -> length (V (BBLOCK b (e_sb E))) = BSIZE.
Proof.
  intros Ht HE Hb. eapply tx_len; [exact Ht|]. destruct (BBLOCK_eq E b HE Hb) as [_ ?]. pose proof (layout_order E HE). unfold in_range. lia.
Qed.

Lemma held_data_empty E V : held_data E V ∅.
Proof. intros i b c Hi. by rewrite lookup_empty in Hi. Qed.

Lemma data_in_range E b : layout E -> data_block E b -> in_range (e_size E) b.
Proof. intros HE [? ?]. pose proof (layout_order E HE). unfold in_range. lia. Qed.

(** [bmap] of a block the file has, in or outside a transaction. *)
Lemma tx_bmap_found o s V k E ip x bn (Q : Z -> fsys -> Prop) :
  tx o s V ∅ k E -> layout E -> e_icache E !! ip = Some x -> ino_ok E V x -> (bn < MAXBN)%nat -> addr_of V x bn <> 0 ->
  (forall s', tx o s' V ∅ k E -> Q (addr_of V x bn) s') -> wp (bmap ip (Z.of_nat bn)) Q s.
Proof.
  intros Ht HE Hx Hok Hbn Hnz HQ. unfold bmap. wp_step. eapply tx_get_inode; [done..|].
  revert Hnz HQ. unfold addr_of. rewrite Nat2Z.id. destruct (Nat.ltb_spec bn NDIRECT) as [Hlt|Hge].
  - rewrite (proj2 (Z.ltb_lt _ _)) by lia. intros Hnz HQ. rewrite (proj2 (Z.eqb_neq _ _) Hnz). wp_step. by apply HQ.
  - rewrite (proj2 (Z.ltb_ge _ _)) by lia. fold (ind_of x). destruct (Z.eqb_spec (ind_of x) 0) as [|Hi]; [done|]. intros Hnz HQ.
    rewrite (proj2 (Z.ltb_lt (Z.of_nat bn - Z.of_nat NDIRECT) _)) by (unfold MAXBN in Hbn; lia). wp_step. wp_step.
    destruct (io_ind _ _ _ Hok Hi) as [Hd _]. rewrite (io_dev _ _ _ Hok).
    wp_step. eapply tx_bread; [exact Ht|by apply data_in_range|apply not_held_empty|rewrite map_size_empty; lia|]. intros bp s1 _ H1.
    wp_step. eapply tx_buf_data; [exact H1|by rewrite lookup_insert_eq|].
    replace (Z.to_nat (Z.of_nat bn - Z.of_nat NDIRECT)) with (bn - NDIRECT)%nat by lia. rewrite (proj2 (Z.eqb_neq _ _) Hnz). wp_step. wp_step.
    wp_step. eapply tx_brelse; [exact H1|by rewrite lookup_insert_eq|]. rewrite delete_insert_held by done. intros s2 H2. wp_step. by apply HQ.
Qed.

(** Allocating a block for one of the addresses in the inode. *)
Lemma tx_bmap_addr s V k E ip x j (Q : Z -> fsys -> Prop) :
  tx 1 s V ∅ (S (S k)) E -> layout E -> meta_used E V -> e_icache E !! ip = Some x -> ino_ok E V x -> (j < S NDIRECT)%nat ->
  nth j (i_addrs x) 0 = 0 -> free_blocks E V <> 0%nat ->
  (forall s' a, data_block E a -> used (e_sb E) V a = false -> tx 1 s' (allocated (e_sb E) V a) ∅ k (with_inode E ip (set_i_addr j a x)) ->
     grown E V x (allocated (e_sb E) V a) (set_i_addr j a x) -> free_blocks E V = S (free_blocks E (allocated (e_sb E) V a)) -> Q a s') ->
  wp (a <- balloc (i_dev x) ;; upd_inode ip (set_i_addr j a) ;;; ret a) Q s.
Proof.
  intros Ht HE Hm Hx Hok Hj H0 Hfree HQ. rewrite (io_dev _ _ _ Hok). wp_step.
  eapply (tx_balloc E V ∅ k); [done|done|apply held_data_empty|rewrite map_size_empty; lia| |exact Ht|by apply free_exists].
  intros a s1 Ha Hu _ H1. wp_step. eapply tx_upd_inode; [exact H1|done|]. intros s2 H2. wp_step.
  assert (length (V (BBLOCK a (e_sb E))) = BSIZE) as Hlen by (eapply tx_len_B; [exact Ht|done|by apply data_block_used]).
  apply HQ; [done|done|done|by apply grown_fresh|by apply free_allocated].
Qed.

(** The entry of the indirect block, allocated if it is empty. *)
Lemma tx_bmap_entry s V k E ip x j (Q : Z -> fsys -> Prop) :
  tx 1 s V ∅ (3 + k) E -> layout E -> meta_used E V -> e_icache E !! ip = Some x -> ino_ok E V x -> (j < NINDIRECT)%nat ->
  ind_of x <> 0 -> free_blocks E V <> 0%nat ->
  (forall s' V', tx 1 s' V' ∅ k E -> grown E V x V' x -> addr_of V' x (NDIRECT + j) <> 0 ->
     (free_blocks E V <= S (free_blocks E V'))%nat -> Q (addr_of V' x (NDIRECT + j)) s') ->
  wp (bp <- bread (i_dev x) (ind_of x) ;;
      d <- buf_data bp ;;
      addr <- (if get32 d (4 * j) =? 0 then
                 a <- balloc (i_dev x) ;;
                 d <- buf_data bp ;;
                 set_buf_data bp (splice d (4 * j) (le32 a)) ;;;
                 log_write bp ;;;
                 ret a
               else ret (get32 d (4 * j))) ;;
      brelse bp ;;;
      ret addr) Q s.
Proof.
  intros Ht HE Hm Hx Hok Hj Hi Hfree HQ. rewrite (io_dev _ _ _ Hok). destruct (io_ind _ _ _ Hok Hi) as [Hd Hu].
  assert (length (V (ind_of x)) = BSIZE) as Hli by (eapply tx_len; [exact Ht|by apply data_in_range]).
  assert (forall V', addr_of V' x (NDIRECT + j) = get32 (V' (ind_of x)) (4 * j)) as Haddr.
  { intros V'. unfold addr_of. rewrite (proj2 (Nat.ltb_ge _ _)) by lia. rewrite (proj2 (Z.eqb_neq _ _) Hi).
    by replace (NDIRECT + j - NDIRECT)%nat with j by lia. }
  wp_step. eapply tx_bread; [exact Ht|by apply data_in_range|apply not_held_empty|rewrite map_size_empty; lia|]. intros bp s1 _ H1.
  wp_step. eapply tx_buf_data; [exact H1|by rewrite lookup_insert_eq|]. wp_step.
  destruct (Z.eqb_spec (get32 (V (ind_of x)) (4 * j)) 0) as [Hz|Hnz].
  - wp_step. eapply (tx_balloc E V (<[bp := (ind_of x, true)]> ∅) (S k)); [done|done| |rewrite insert_empty, map_size_singleton; lia| |exact H1|by apply free_exists].
    { intros i b c [[_ [=]]|[_ Hl]]%lookup_insert_Some; [subst; done|by rewrite lookup_empty in Hl]. }
    intros a s2 Ha Hua _ H2.
    assert (length (V (BBLOCK a (e_sb E))) = BSIZE) as Hlen by (eapply tx_len_B; [exact Ht|done|by apply data_block_used]).
    assert (allocated (e_sb E) V a (ind_of x) = V (ind_of x)) as Hkeep.
    { apply alloc_frame; try done; [by right|]. intros Heq. congruence. }
    wp_step. eapply tx_buf_data; [exact H2|by rewrite lookup_insert_eq|]. rewrite Hkeep.
    wp_step. eapply tx_set_buf_data; [exact H2|by rewrite lookup_insert_eq|rewrite splice_length; rewrite ?le32_length, ?Hli; unfold NINDIRECT, BSIZE in *; lia|].
    rewrite insert_insert_eq. intros s3 H3. wp_step.
    pose proof (layout_order E HE) as Hly.
    eapply tx_log_write; [exact H3|by rewrite lookup_insert_eq|apply layout_may_log; [done|destruct Hd; lia]|done|].
    rewrite insert_insert_eq. intros s4 H4. wp_step. wp_step. eapply tx_brelse; [exact H4|by rewrite lookup_insert_eq|].
    rewrite delete_insert_held by done. intros s5 H5. wp_step.
    pose proof (grown_entry E V x a HE Hok Hm Ha Hua Hlen j Hj Hi Hli Hz) as Hg.
    assert (addr_of (vset (allocated (e_sb E) V a) (ind_of x) (splice (V (ind_of x)) (4 * j) (le32 a))) x (NDIRECT + j) = a) as Hres.
    { rewrite (addr_entry E V x a) by (done || unfold MAXBN; lia). by rewrite Nat.eqb_refl. }
    rewrite <- Hres. apply HQ; [done|done| |].
    + rewrite Hres. destruct Ha. lia.
    + rewrite (free_allocated E V a), free_vset by done. done.
  - wp_step. wp_step. eapply tx_brelse; [exact H1|by rewrite lookup_insert_eq|]. rewrite delete_insert_held by done. intros s2 H2. wp_step.
    rewrite <- Haddr. apply HQ; [by eapply tx_weaken; [exact H2|lia]|by apply grown_refl|by rewrite Haddr|lia].
Qed.

(** [bmap] in a transaction. *)
Lemma tx_bmap s V k E ip x bn (Q : Z -> fsys -> Prop) :
  tx 1 s V ∅ (5 + k) E -> layout E -> meta_used E V -> e_icache E !! ip = Some x -> ino_ok E V x -> (bn < MAXBN)%nat ->
  (2 <= free_blocks E V)%nat ->
  (forall s' V' x', tx 1 s' V' ∅ k (with_inode E ip x') -> grown E V x V' x' -> addr_of V' x' bn <> 0 ->
     (free_blocks E V <= free_blocks E V' + 2)%nat -> Q (addr_of V' x' bn) s') ->
  wp (bmap ip (Z.of_nat bn)) Q s.
Proof.
  intros Ht HE Hm Hx Hok Hbn Hfree HQ. unfold bmap. wp_step. eapply tx_get_inode; [exact Ht|done|]. rewrite Nat2Z.id.
  destruct (Nat.ltb_spec bn NDIRECT) as [Hlt|Hge].
  - rewrite (proj2 (Z.ltb_lt _ _)) by lia.
    assert (forall V' x', addr_of V' x' bn = nth bn (i_addrs x') 0) as Haddr.
    { intros. unfold addr_of. by rewrite (proj2 (Nat.ltb_lt _ _) Hlt). }
    destruct (Z.eqb_spec (nth bn (i_addrs x) 0) 0) as [Hz|Hnz].
    + eapply tx_bmap_addr; [eapply (tx_weaken _ _ _ _ _ (S (S k))); [exact Ht|lia]|done..|lia|done|lia|].
      intros s1 a Ha Hu H1 Hg Hfr.
      assert (addr_of (allocated (e_sb E) V a) (set_i_addr bn a x) bn = a) as Hres.
      { rewrite Haddr, (nth_addr E V x a Hok bn) by lia. by rewrite Nat.eqb_refl. }
      rewrite <- Hres. apply HQ; [done|done| |lia]. rewrite Hres. pose proof (layout_order E HE). destruct Ha. lia.
    + wp_step. rewrite <- (Haddr V). apply HQ; [|by apply grown_refl|by rewrite Haddr|lia].
      rewrite with_inode_id by done. eapply tx_weaken; [exact Ht|lia].
  - rewrite (proj2 (Z.ltb_ge _ _)) by lia. rewrite (proj2 (Z.ltb_lt (Z.of_nat bn - _) _)) by (unfold MAXBN in Hbn; lia).
    replace (Z.to_nat (Z.of_nat bn - Z.of_nat NDIRECT)) with (bn - NDIRECT)%nat by lia.
    assert (bn = NDIRECT + (bn - NDIRECT))%nat as Hbneq by lia. set (j := (bn - NDIRECT)%nat) in *.
    assert (j < NINDIRECT)%nat as Hj by (unfold j, MAXBN in *; lia). fold (ind_of x). wp_step.
    destruct (Z.eqb_spec (ind_of x) 0) as [Hz|Hnz].
    + eapply (tx_bmap_addr s V (3 + k) E ip x NDIRECT); [exact Ht|done|done|done|done|lia|done|lia|].
      intros s1 a Ha Hu H1 Hg Hfr. set (x1 := set_i_addr NDIRECT a x) in *. set (V1 := allocated (e_sb E) V a) in *.
      assert (ind_of x1 = a) as Hind by (unfold x1; rewrite (ind_fresh E V x a) by (done || lia); by rewrite Nat.eqb_refl).
      rewrite <- Hind. change (i_dev x) with (i_dev x1).
      eapply (tx_bmap_entry _ V1 k (with_inode E ip x1) ip x1 j); [exact H1|by apply layout_with|apply Hg|by eapply with_inode_lookup| |done| | |].
      * apply ino_ok_with, Hg.
      * rewrite Hind. pose proof (layout_order E HE). destruct Ha. lia.
      * change (free_blocks E V1 <> 0%nat). lia.
      * intros s2 V2 H2 Hg2 Hnz Hfr2. rewrite <- Hbneq in *. change (free_blocks (with_inode E ip x1)) with (free_blocks E) in Hfr2. apply HQ; [done| |done|lia].
        eapply grown_trans; [done|done|exact Hg|]. exact (grown_with _ _ _ _ _ _ _ Hg2).
    + wp_step. eapply (tx_bmap_entry _ V k); [eapply (tx_weaken _ _ _ _ _ (3 + k)); [exact Ht|lia]|done..|lia|].
      intros s2 V2 H2 Hg2 Hn2 Hfr2. rewrite <- Hbneq in *. apply HQ; [by rewrite with_inode_id|done|done|lia].
Qed.

(** Every block below the size is there. *)
Definition dense (V : Z -> block) (x : inode) : Prop :=
  0 <= i_size x <= MAXFILE * Z.of_nat BSIZE /\ forall i, 0 <= i < i_size x -> addr_of V x (Z.to_nat (i / Z.of_nat BSIZE)) <> 0.

Lemma tx_readi_loop fuel : forall o s V k E ip x off n (Q : list Z -> fsys -> Prop),
  tx o s V ∅ k E -> layout E -> e_icache E !! ip = Some x -> ino_ok E V x -> dense V x ->
  0 <= off -> 0 <= n -> off + n <= i_size x -> off mod 512 + n <= 512 * Z.of_nat fuel \/ n = 0 ->
  (forall s', tx o s' V ∅ k E -> Q (bytes_at V x off n) s') -> wp (readi_loop fuel ip off n) Q s.
Proof.
  induction fuel as [|fuel IH]; intros o s V k E ip x off n Q Ht HE Hx Hok Hden Ho Hn Hsz Hf HQ; cbn [readi_loop].
  all: destruct (Z.leb_spec n 0) as [Hn0|Hn0]; [replace n with 0 in * by lia; wp_step; by apply HQ|].
  { exfalso. zlia. }
  destruct (chunk_spec off n Ho Hn0) as (Hm & Hfit & Hcase). set (m := chunk off n) in *. change (Z.of_nat BSIZE) with 512 in *.
  destruct Hden as [Hmax Hden]. change (Z.of_nat BSIZE) with 512 in *.
  assert (addr_of V x (Z.to_nat (off / 512)) <> 0) as Hnz by (apply Hden; lia).
  assert (Z.to_nat (off / 512) < MAXBN)%nat as Hbn by (apply (block_index off); change (Z.of_nat BSIZE) with 512; lia).
  wp_step. rewrite <- (Z2Nat.id (off / 512)) by zlia. eapply tx_bmap_found; [exact Ht|done..|]. intros s1 H1.
  wp_step. eapply tx_get_inode; [exact H1|done|]. rewrite (io_dev _ _ _ Hok).
  destruct (io_used _ _ _ Hok _ Hbn Hnz) as [Hd _].
  wp_step. eapply tx_bread; [exact H1|by apply data_in_range|apply not_held_empty|rewrite map_size_empty; lia|]. intros bp s2 _ H2.
  wp_step. eapply tx_buf_data; [exact H2|by rewrite lookup_insert_eq|].
  wp_step. eapply tx_brelse; [exact H2|by rewrite lookup_insert_eq|]. rewrite delete_insert_held by done. intros s3 H3.
  wp_step. eapply (IH o s3 V k E ip x); [exact H3|done|done|done|by split|lia|lia|lia| |].
  { destruct Hcase as [->|[Hmod ->]]; [right; lia|]. destruct Hf as [Hf|Hf]; [|lia]. left. rewrite Hmod. lia. }
  intros s4 H4. wp_step.
  rewrite slice_bytes; [|lia|lia|lia|done|eapply tx_len; [exact Ht|by apply data_in_range]].
  rewrite <- bytes_at_app by lia. replace (m + (n - m)) with n by lia. by apply HQ.
Qed.

Lemma tx_readi o s V k E ip x off n (Q : Z * list Z -> fsys -> Prop) :
  tx o s V ∅ k E -> layout E -> e_icache E !! ip = Some x -> ino_ok E V x -> dense V x -> i_type x <> T_DEV ->
  0 <= off <= i_size x -> 0 <= n -> off + n < 2 ^ 32 ->
  (forall s', let n' := Z.min n (i_size x - off) in tx o s' V ∅ k E -> Q (n', bytes_at V x off n') s') -> wp (readi ip off n) Q s.
Proof.
  intros Ht HE Hx Hok Hden Hty Ho Hn Hov HQ. unfold readi. wp_step. eapply tx_get_inode; [exact Ht|done|].
  rewrite (proj2 (Z.eqb_neq _ _) Hty), (proj2 (Z.ltb_ge (i_size x) off)), u32_small by lia. rewrite (proj2 (Z.ltb_ge (off + n) off)) by lia. cbn [orb].
  wp_step. assert ((if i_size x <? off + n then i_size x - off else n) = Z.min n (i_size x - off)) as ->
    by (destruct (Z.ltb_spec (i_size x) (off + n)); lia).
  eapply tx_readi_loop; [exact Ht|done..|lia|lia|lia| |].
  - left. unfold chunks. change (Z.of_nat BSIZE) with 512. set (n' := Z.min n (i_size x - off)). assert (0 <= n') by lia. zlia.
  - intros s1 H1. wp_step. by apply HQ.
Qed.

(** [readi] past the end, or of a range that wraps around. *)
Lemma tx_readi_bad o s V k E ip x off n (Q : Z * list Z -> fsys -> Prop) :
  tx o s V ∅ k E -> e_icache E !! ip = Some x -> i_type x <> T_DEV -> i_size x < off \/ u32 (off + n) < off ->
  Q (-1, []) s -> wp (readi ip off n) Q s.
Proof.
  intros Ht Hx Hty Hbad HQ. unfold readi. wp_step. eapply tx_get_inode; [exact Ht|done|].
  rewrite (proj2 (Z.eqb_neq _ _) Hty).
  replace ((i_size x <? off) || (u32 (off + n) <? off)) with true by (destruct (Z.ltb_spec (i_size x) off), (Z.ltb_spec (u32 (off + n)) off); cbn; (done || lia)).
  by wp_step.
Qed.

(** ** Writing *)
(** The contents after [src] has been written at [off]. *)
Definition patched (f : Z -> Z) (off : Z) (src : list Z) (i : Z) : Z :=
  if (off <=? i) && (i <? off + Z.of_nat (length src)) then nth (Z.to_nat (i - off)) src 0 else f i.

Record file_written (E : fenv) (V : Z -> block) (x : inode) (off : Z) (src : list Z) (V' : Z -> block) (x' : inode) : Prop := {
  fw_ext : extended E V x V' x';
  fw_content : forall i, 0 <= i < MAXFILE * Z.of_nat BSIZE -> content V' x' i = patched (content V x) off src i;
  fw_there : forall i, off <= i < off + Z.of_nat (length src) -> addr_of V' x' (Z.to_nat (i / Z.of_nat BSIZE)) <> 0;
}.

(** One chunk, in the block at hand. *)
Lemma chunk_written E V x off src : layout E -> ino_ok E V x -> meta_used E V ->
  0 <= off -> off mod 512 + Z.of_nat (length src) <= 512 -> off + Z.of_nat (length src) <= MAXFILE * Z.of_nat BSIZE ->
  let bn := Z.to_nat (off / 512) in (bn < MAXBN)%nat -> addr_of V x bn <> 0 -> length (V (addr_of V x bn)) = BSIZE ->
  file_written E V x off src (vset V (addr_of V x bn) (splice (V (addr_of V x bn)) (Z.to_nat (off mod 512)) src)) x.
Proof.
  intros HE Hok Hm Ho Hfit Hmax bn Hbn Hnz Hlen. assert (Z.to_nat (off mod 512) + length src <= BSIZE)%nat as Hfit' by (unfold BSIZE; zlia).
  split; [by apply own_extended| |].
  - intros i Hi. rewrite (own_content E) by done. unfold patched. change (Z.of_nat BSIZE) with 512 in *.
    destruct (Nat.eqb_spec (Z.to_nat (i / 512)) bn) as [Hb|Hb].
    + assert (i / 512 = off / 512) as Hdiv by (unfold bn in Hb; zlia).
      rewrite nth_splice by (rewrite Hlen; done).
      replace (Z.to_nat (off mod 512) <=? Z.to_nat (i mod 512))%nat with (off <=? i)
        by (destruct (Z.leb_spec off i), (Nat.leb_spec (Z.to_nat (off mod 512)) (Z.to_nat (i mod 512))); zlia).
      replace (Z.to_nat (i mod 512) <? Z.to_nat (off mod 512) + length src)%nat with (i <? off + Z.of_nat (length src))
        by (destruct (Z.ltb_spec i (off + Z.of_nat (length src))), (Nat.ltb_spec (Z.to_nat (i mod 512)) (Z.to_nat (off mod 512) + length src)); zlia).
      destruct (Z.leb_spec off i), (Z.ltb_spec i (off + Z.of_nat (length src))); cbn [andb].
      * f_equal. zlia.
      * unfold content. change (Z.of_nat BSIZE) with 512. by rewrite Hb, (proj2 (Z.eqb_neq _ _) Hnz).
      * unfold content. change (Z.of_nat BSIZE) with 512. by rewrite Hb, (proj2 (Z.eqb_neq _ _) Hnz).
      * unfold content. change (Z.of_nat BSIZE) with 512. by rewrite Hb, (proj2 (Z.eqb_neq _ _) Hnz).
    + destruct (Z.leb_spec off i), (Z.ltb_spec i (off + Z.of_nat (length src))); cbn [andb]; try done.
      exfalso. apply Hb. unfold bn. f_equal. zlia.
  - intros i Hi. change (Z.of_nat BSIZE) with 512. replace (Z.to_nat (i / 512)) with bn by (unfold bn; f_equal; zlia).
    by rewrite (own_addr E).
Qed.

Lemma patched_ext f g off src i : f i = g i -> patched f off src i = patched g off src i.
Proof. intros H. unfold patched. by destruct (_ && _). Qed.

Lemma patched_app f off l1 l2 i : patched (patched f off l1) (off + Z.of_nat (length l1)) l2 i = patched f off (l1 ++ l2) i.
Proof.
  unfold patched. rewrite length_app, Nat2Z.inj_add.
  destruct (Z.leb_spec off i), (Z.ltb_spec i (off + Z.of_nat (length l1))), (Z.leb_spec (off + Z.of_nat (length l1)) i),
    (Z.ltb_spec i (off + Z.of_nat (length l1) + Z.of_nat (length l2))), (Z.ltb_spec i (off + (Z.of_nat (length l1) + Z.of_nat (length l2)))); cbn [andb]; try lia; try done.
  - rewrite app_nth1 by lia. done.
  - rewrite app_nth2 by lia. f_equal. lia.
Qed.

Lemma file_written_trans E V x off l1 V1 x1 l2 V2 x2 : layout E -> ino_ok E V x -> 0 <= off ->
  off + Z.of_nat (length l1) + Z.of_nat (length l2) <= MAXFILE * Z.of_nat BSIZE ->
  file_written E V x off l1 V1 x1 -> file_written E V1 x1 (off + Z.of_nat (length l1)) l2 V2 x2 ->
  file_written E V x off (l1 ++ l2) V2 x2.
Proof.
  intros HE Hok Ho Hmax [F1 C1 T1] [F2 C2 T2]. split; [by eapply extended_trans| |].
  - intros i Hi. rewrite C2 by done. rewrite <- patched_app. apply patched_ext. by apply C1.
  - intros i Hi. rewrite length_app, Nat2Z.inj_add in Hi. destruct (decide (i < off + Z.of_nat (length l1))) as [Hlt|Hge]; [|apply T2; lia].
    specialize (T1 i ltac:(lia)). rewrite (ex_addr _ _ _ _ _ F2); [done| |done]. apply block_index. lia.
Qed.

Lemma file_written_nil E V x off : ino_ok E V x -> meta_used E V -> file_written E V x off [] V x.
Proof.
  intros Hok Hm. split; [apply grown_refl; done| |cbn; intros; lia].
  intros i Hi. unfold patched. cbn [length]. by replace ((off <=? i) && (i <? off + Z.of_nat 0)) with false by (destruct (Z.leb_spec off i), (Z.ltb_spec i (off + Z.of_nat 0)); cbn; (done || lia)).
Qed.

Lemma file_written_with E ip y V x off src V' x' : file_written (with_inode E ip y) V x off src V' x' -> file_written E V x off src V' x'.
Proof. intros [H]. split; try done. by apply extended_with in H. Qed.

(** After [bmap] the file has grown, then one chunk is written. *)
Lemma grown_written E V x V1 x1 off src V2 x2 : layout E -> ino_ok E V x -> 0 <= off -> off + Z.of_nat (length src) <= MAXFILE * Z.of_nat BSIZE ->
  grown E V x V1 x1 -> file_written E V1 x1 off src V2 x2 -> file_written E V x off src V2 x2.
Proof.
  intros HE Hok Ho Hmax G [F C T]. split; [eapply extended_trans; [done|exact (gr_ext _ _ _ _ _ G)|done]| |done].
  intros i Hi. rewrite C by done. apply patched_ext. by apply (grown_content E).
Qed.

(** One turn of the loop of [writei]. *)
Lemma tx_write_chunk s V k E ip x off src (K : FS Z) (Q : Z -> fsys -> Prop) :
  tx 1 s V ∅ (6 + k) E -> layout E -> meta_used E V -> e_icache E !! ip = Some x -> ino_ok E V x -> (2 <= free_blocks E V)%nat ->
  0 <= off -> 0 < Z.of_nat (length src) -> off mod 512 + Z.of_nat (length src) <= 512 -> off + Z.of_nat (length src) <= MAXFILE * Z.of_nat BSIZE ->
  (forall s' V' x', tx 1 s' V' ∅ k (with_inode E ip x') -> file_written E V x off src V' x' ->
     (free_blocks E V <= free_blocks E V' + 2)%nat -> wp K Q s') ->
  wp (a <- bmap ip (off / Z.of_nat BSIZE) ;;
      x <- get_inode ip ;;
      bp <- bread (i_dev x) a ;;
      d <- buf_data bp ;;
      set_buf_data bp (splice d (Z.to_nat (off mod Z.of_nat BSIZE)) src) ;;;
      log_write bp ;;;
      brelse bp ;;;
      K) Q s.
Proof.
  intros Ht HE Hm Hx Hok Hfree Ho Hl Hfit Hmax HQ. pose proof (layout_order E HE) as Hly.
  assert (Z.to_nat (off / 512) < MAXBN)%nat as Hbn by (apply (block_index off); lia).
  change (Z.of_nat BSIZE) with 512. rewrite <- (Z2Nat.id (off / 512)) by zlia. set (bn := Z.to_nat (off / 512)) in *.
  wp_step. eapply (tx_bmap s V (S k)); [exact Ht|done..|]. intros s1 V1 x1 H1 Hg Hnz Hfr.
  pose proof (ex_ok _ _ _ _ _ Hg) as Hok1. destruct (io_used _ _ _ Hok1 bn Hbn Hnz) as [Hd Hu].
  assert (length (V1 (addr_of V1 x1 bn)) = BSIZE) as Hlen by (eapply tx_len; [exact H1|by apply (data_in_range E)]).
  wp_step. eapply tx_get_inode; [exact H1|by eapply with_inode_lookup|]. rewrite (io_dev _ _ _ Hok1).
  wp_step. eapply tx_bread; [exact H1|by apply (data_in_range E)|apply not_held_empty|rewrite map_size_empty; lia|]. intros bp s2 _ H2.
  wp_step. eapply tx_buf_data; [exact H2|by rewrite lookup_insert_eq|].
  wp_step. eapply tx_set_buf_data; [exact H2|by rewrite lookup_insert_eq|rewrite splice_length; rewrite ?Hlen; [done|unfold BSIZE; zlia]|].
  rewrite insert_insert_eq. intros s3 H3. wp_step.
  eapply tx_log_write; [exact H3|by rewrite lookup_insert_eq|apply layout_may_log; [by apply layout_with|destruct Hd; cbn; lia]|done|].
  rewrite insert_insert_eq. intros s4 H4. wp_step. eapply tx_brelse; [exact H4|by rewrite lookup_insert_eq|]. rewrite delete_insert_held by done.
  intros s5 H5. eapply HQ; [exact H5| |by rewrite (own_free E)].
  eapply grown_written; [done..|exact Hg|]. eapply chunk_written; try done. apply Hg.
Qed.

Lemma tx_writei_loop fuel : forall c s V k E ip x src off n (Q : Z -> fsys -> Prop),
  tx 1 s V ∅ (6 * c + k) E -> layout E -> meta_used E V -> e_icache E !! ip = Some x -> ino_ok E V x -> (2 * c <= free_blocks E V)%nat ->
  n = Z.of_nat (length src) -> 0 <= off -> off + n <= MAXFILE * Z.of_nat BSIZE ->
  off mod 512 + n <= 512 * Z.of_nat c \/ n = 0 -> (c <= fuel)%nat ->
  (forall s' V' x', tx 1 s' V' ∅ k (with_inode E ip x') -> file_written E V x off src V' x' -> Q (off + n) s') ->
  wp (writei_loop fuel ip src off n) Q s.
Proof.
  induction fuel as [|fuel IH]; intros c s V k E ip x src off n Q Ht HE Hm Hx Hok Hfree Hn Ho Hmax Hc Hcf HQ; cbn [writei_loop].
  all: destruct (Z.leb_spec n 0) as [Hn0|Hn0];
    [replace n with 0 in * by lia; wp_step; destruct src; [|cbn in Hn; lia]; rewrite <- (Z.add_0_r off) at 1; eapply HQ;
     [rewrite with_inode_id by done; eapply tx_weaken; [exact Ht|lia]|by apply file_written_nil]|].
  { exfalso. zlia. }
  destruct (chunk_spec off n Ho Hn0) as (Hmm & Hfit & Hcase). set (m := chunk off n) in *.
  destruct c as [|c]; [exfalso; zlia|].
  assert (length (take (Z.to_nat m) src) = Z.to_nat m) as Htl by (rewrite length_take; lia).
  assert (length (drop (Z.to_nat m) src) = Z.to_nat (n - m)) as Hdl by (rewrite length_drop; lia).
  eapply (tx_write_chunk s V (6 * c + k) E ip x off (take (Z.to_nat m) src)); [eapply tx_weaken; [exact Ht|lia]|done|done|done|done|lia|lia|lia|lia|lia|].
  intros s1 V1 x1 H1 Hw Hfr. pose proof (fw_ext _ _ _ _ _ _ _ Hw) as Hx1.
  eapply (IH c s1 V1 k (with_inode E ip x1) ip x1); [exact H1|by apply layout_with|apply Hx1|by eapply with_inode_lookup|apply ino_ok_with, Hx1| |lia|lia|lia| |lia|].
  { change (2 * c <= free_blocks E V1)%nat. lia. }
  { destruct Hcase as [->|[Hmod Hm512]]; [right; lia|]. destruct Hc as [Hc|Hc]; [|lia]. left. rewrite Hmod. lia. }
  intros s2 V2 x2 H2 Hw2. replace (off + m + (n - m)) with (off + n) by lia. rewrite with_inode_twice in H2. eapply HQ; [exact H2|].
  rewrite <- (take_drop (Z.to_nat m) src). eapply file_written_trans; [done|done|lia|lia|exact Hw|].
  rewrite Htl, Z2Nat.id by lia. exact (file_written_with _ _ _ _ _ _ _ _ _ Hw2).
Qed.

Lemma tx_writei_body s V c k E ip x src off n (Q : Z -> fsys -> Prop) :
  tx 1 s V ∅ (6 * c + S k) E -> layout E -> meta_used E V -> e_icache E !! ip = Some x -> ino_ok E V x -> (2 * c <= free_blocks E V)%nat ->
  i_type x <> T_DEV -> n = Z.of_nat (length src) -> 0 <= off <= i_size x -> off + n <= MAXFILE * Z.of_nat BSIZE ->
  off mod 512 + n <= 512 * Z.of_nat c \/ n = 0 -> Z.of_nat c <= n / 512 + 3 ->
  (forall s' V' x', tx 1 s' V' ∅ (S k) (with_inode E ip x') -> file_written E V x off src V' x' ->
     wp (when ((0 <? n) && (i_size x' <? off + n)) (upd_inode ip (set_i_size (off + n)) ;;; iupdate ip) ;;; ret n) Q s') ->
  wp (writei ip src off n) Q s.
Proof.
  intros Ht HE Hm Hx Hok Hfree Hty Hn Ho Hmax Hc Hcf HQ. unfold writei. wp_step. eapply tx_get_inode; [exact Ht|done|].
  assert (0 <= n) by lia. assert (off + n < 2 ^ 32) by (unfold MAXFILE, BSIZE in *; rewrite pow2_32; lia).
  rewrite (proj2 (Z.eqb_neq _ _) Hty), (proj2 (Z.ltb_ge (i_size x) off)), u32_small by lia. rewrite (proj2 (Z.ltb_ge (off + n) off)) by lia. cbn [orb].
  rewrite (proj2 (Z.ltb_ge (MAXFILE * Z.of_nat BSIZE) _)) by lia. wp_step.
  eapply (tx_writei_loop _ c); [exact Ht|done|done|done|done|done|done|lia|done|done| |].
  - unfold chunks. change (Z.of_nat BSIZE) with 512. zlia.
  - intros s1 V1 x1 H1 Hw. wp_step. eapply tx_get_inode; [exact H1|by eapply with_inode_lookup|]. by eapply HQ.
Qed.
End Io.
