(* ===== verification/FsIoProps.v ===== *)
(** * What a write leaves for the next read

    The theorems on [readi] and [writei], with the inode written back. *)
From Stdlib Require Import ZArith Lia Bool.
From stdpp Require Import base numbers list strings gmap.
From S2P Require Import Prelude Machine Cstring FsState Bio BioInv Log LogInv LogTx LogCrash Fs FsInode FsAlloc FsFile FsIo.

Lemma set_size_id x : set_i_size (i_size x) x = x.
Proof. by destruct x. Qed.

Lemma set_size_id' x l : set_i_size (i_size x) (set_i_addrs l x) = set_i_addrs l x.
Proof. done. Qed.

Section IoProps.
Context {I : FsImage} {W : Wakeups} {DS : DevSw}.
Implicit Types (s : fsys) (V : Z -> block).

(** The blocks after [iupdate]. *)
Definition with_dinode (E : fenv) (V : Z -> block) (x : inode) : Z -> block :=
  let b := IBLOCK (i_inum x) (e_sb E) in vset V b (splice (V b) (dinode_off (i_inum x)) (encode_dinode (dinode_of x))).

Definition inum_ok (E : fenv) (x : inode) : Prop := 0 <= i_inum x < sb_ninodes (e_sb E).

Lemma dinode_off_fits n : (dinode_off n + 64 <= BSIZE)%nat.
Proof. unfold dinode_off, IPB, BSIZE. pose proof (Z.mod_pos_bound n 8). lia. Qed.

Lemma tx_iupdate s V k E ip x (Q : unit -> fsys -> Prop) :
  tx 1 s V ∅ (S k) E -> layout E -> e_icache E !! ip = Some x -> i_dev x = 1 -> inum_ok E x -> length (i_addrs x) = S NDIRECT ->
  (forall s', tx 1 s' (with_dinode E V x) ∅ k E -> Q tt s') -> wp (iupdate ip) Q s.
Proof.
  intros Ht HE Hx Hd Hi Hl HQ. unfold iupdate, get_sb. wp_step. apply wp_gets. rewrite (tx_fsb _ _ _ _ _ _ Ht).
  destruct (IBLOCK_eq E _ HE Hi) as [_ HB]. pose proof (layout_order E HE) as Hly.
  wp_step. eapply tx_get_inode; [exact Ht|done|]. rewrite Hd.
  eapply (tx_update s V ∅ k E _ (fun d => splice d (dinode_off (i_inum x)) (encode_dinode (dinode_of x)))); [exact Ht|apply layout_may_log; [done|lia]|apply not_held_empty|rewrite map_size_empty; lia| |exact HQ].
  assert (length (V (IBLOCK (i_inum x) (e_sb E))) = BSIZE) as Hlen by (eapply tx_len; [exact Ht|unfold in_range; lia]).
  rewrite splice_length; [done|]. rewrite encode_dinode_length, Hlen by done. apply dinode_off_fits.
Qed.

(** Writing an inode block does not touch the files. *)
Lemma with_dinode_frame E V x b : layout E -> inum_ok E x -> sb_bmapstart (e_sb E) <= b -> with_dinode E V x b = V b.
Proof. intros HE Hi Hb. destruct (IBLOCK_eq E _ HE Hi) as [_ HB]. apply vset_ne. lia. Qed.

Lemma with_dinode_used E V x b : layout E -> inum_ok E x -> 0 <= b < sb_size (e_sb E) ->
  used (e_sb E) (with_dinode E V x) b = used (e_sb E) V b.
Proof. intros HE Hi Hb. unfold used. destruct (BBLOCK_eq E b HE Hb) as [_ HB]. by rewrite with_dinode_frame by (done || lia). Qed.

Lemma with_dinode_addr E V x y bn : layout E -> inum_ok E x -> ino_ok E V y -> addr_of (with_dinode E V x) y bn = addr_of V y bn.
Proof.
  intros HE Hi Hok. unfold addr_of. destruct (bn <? NDIRECT)%nat; [done|]. destruct (Z.eqb_spec (ind_of y) 0) as [|Hn]; [done|].
  destruct (io_ind _ _ _ Hok Hn) as [[? ?] _]. pose proof (layout_order E HE). by rewrite with_dinode_frame by (done || lia).
Qed.

Lemma with_dinode_ok E V x y : layout E -> inum_ok E x -> ino_ok E V y -> ino_ok E (with_dinode E V x) y.
Proof.
  intros HE Hi Hok. pose proof (layout_order E HE). pose proof Hok as [H1 H2 H3 H4 H5 H6].
  split; [done|done| | | |].
  - intros Hn. destruct (H3 Hn) as [[Hd Hd'] Hu]. rewrite with_dinode_used by (done || lia). done.
  - intros bn Hbn. rewrite with_dinode_addr by done. intros Hn. destruct (H4 bn Hbn Hn) as [[Hd Hd'] Hu]. rewrite with_dinode_used by (done || lia). done.
  - intros bn bn'. rewrite !with_dinode_addr by done. apply H5.
  - intros bn. rewrite !with_dinode_addr by done. apply H6.
Qed.

Lemma with_dinode_content E V x y i : layout E -> inum_ok E x -> ino_ok E V y -> 0 <= i < MAXFILE * Z.of_nat BSIZE ->
  content (with_dinode E V x) y i = content V y i.
Proof.
  intros HE Hi Hok Hr. pose proof (layout_order E HE). unfold content. rewrite with_dinode_addr by done.
  destruct (Z.eqb_spec (addr_of V y (Z.to_nat (i / Z.of_nat BSIZE))) 0) as [|Hn]; [done|].
  destruct (io_used _ _ _ Hok _ (block_index i Hr) Hn) as [[? ?] _]. by rewrite with_dinode_frame by (done || lia).
Qed.

Lemma ino_ok_resize E V x n : ino_ok E V x -> ino_ok E V (set_i_size n x).
Proof. intros []. by split. Qed.

(** The state of the file after a successful [writei].  Blocks of the file, the
    indirect block among them, stay where they are; those it has got were free. *)
Record after_write (E : fenv) (V : Z -> block) (x : inode) (off : Z) (src : list Z) (V' : Z -> block) (x' : inode) : Prop := {
  aw_ok : ino_ok E V' x';
  aw_same : x' = set_i_size (i_size x') (set_i_addrs (i_addrs x') x);
  aw_size : i_size x' = Z.max (i_size x) (if decide (src = []) then 0 else off + Z.of_nat (length src));
  aw_dense : dense V' x';
  aw_content : forall i, 0 <= i < i_size x' -> content V' x' i = patched (content V x) off src i;
  aw_frame : forall b, data_block E b -> used (e_sb E) V b = true -> b <> ind_of x ->
    (forall bn, (bn < MAXBN)%nat -> addr_of V x bn <> b) -> V' b = V b;
  aw_used : forall b, 0 <= b < sb_size (e_sb E) -> used (e_sb E) V b = true -> used (e_sb E) V' b = true;
  aw_kept : forall bn, (bn < MAXBN)%nat -> addr_of V x bn <> 0 -> addr_of V' x' bn = addr_of V x bn;
  aw_fresh : forall bn, (bn < MAXBN)%nat -> addr_of V x bn = 0 -> addr_of V' x' bn <> 0 -> used (e_sb E) V (addr_of V' x' bn) = false;
  aw_ind_kept : ind_of x <> 0 -> ind_of x' = ind_of x;
  aw_ind_fresh : ind_of x = 0 -> ind_of x' <> 0 -> used (e_sb E) V (ind_of x') = false;
}.

Lemma written_dense E V x off src V' x' n : dense V x -> 0 <= off <= i_size x -> file_written E V x off src V' x' ->
  0 <= n <= MAXFILE * Z.of_nat BSIZE -> n <= Z.max (i_size x) (off + Z.of_nat (length src)) -> dense V' (set_i_size n x').
Proof.
  intros [Hs Hd] Ho [F C T] Hn Hm. split; [done|]. cbn [set_i_size i_size]. intros i Hi.
  change (addr_of V' x' (Z.to_nat (i / Z.of_nat BSIZE)) <> 0). destruct (decide (i < i_size x)) as [Hlt|Hge]; [|apply T; lia].
  specialize (Hd i ltac:(lia)). rewrite (ex_addr _ _ _ _ _ F); [done| |done]. apply block_index. lia.
Qed.

Lemma tx_writei s V c k E ip x src off n (Q : Z -> fsys -> Prop) :
  tx 1 s V ∅ (6 * c + S k) E -> layout E -> meta_used E V -> e_icache E !! ip = Some x -> ino_ok E V x -> dense V x -> inum_ok E x ->
  (2 * c <= free_blocks E V)%nat -> i_type x <> T_DEV -> n = Z.of_nat (length src) -> 0 <= off <= i_size x ->
  off + n <= MAXFILE * Z.of_nat BSIZE -> off mod 512 + n <= 512 * Z.of_nat c \/ n = 0 -> Z.of_nat c <= n / 512 + 3 ->
  (forall s' V' x', tx 1 s' V' ∅ k (with_inode E ip x') -> after_write E V x off src V' x' -> Q n s') ->
  wp (writei ip src off n) Q s.
Proof.
  intros Ht HE Hm Hx Hok Hden Hi Hfree Hty Hn Ho Hmax Hc Hcf HQ. eapply tx_writei_body; [exact Ht|done..|].
  intros s1 V1 x1 H1 Hw. pose proof (fw_ext _ _ _ _ _ _ _ Hw) as Hx1. pose proof (ex_ok _ _ _ _ _ Hx1) as Hok1. pose proof (layout_order E HE) as Hly.
  assert (i_size x1 = i_size x /\ i_inum x1 = i_inum x) as [Hsz Hin] by (rewrite (ex_same _ _ _ _ _ Hx1); done).
  assert (forall b, data_block E b -> used (e_sb E) V b = true -> b <> ind_of x -> (forall bn, (bn < MAXBN)%nat -> addr_of V x bn <> b) -> V1 b = V b) as Hfr.
  { intros b Hb Hu Hni Hno. apply (ex_frame _ _ _ _ _ Hx1); auto. }
  wp_step. rewrite Hsz. apply wp_when; intros Hgrow.
  - apply andb_true_iff in Hgrow as [Hn0%Z.ltb_lt Hbig%Z.ltb_lt]. wp_step.
    eapply tx_upd_inode; [exact H1|by eapply with_inode_lookup|]. rewrite with_inode_twice. intros s2 H2.
    eapply (tx_iupdate s2 V1 k (with_inode E ip (set_i_size (off + n) x1))); [exact H2|by apply layout_with|by eapply with_inode_lookup|apply Hok1| |cbn; apply Hok1|].
    { unfold inum_ok. cbn. by rewrite Hin. }
    intros s3 H3. wp_step. set (x2 := set_i_size (off + n) x1) in *.
    change (with_dinode (with_inode E ip x2) V1 x2) with (with_dinode E V1 x2) in H3.
    assert (inum_ok E x2) as Hi2 by (unfold inum_ok; cbn; by rewrite Hin).
    eapply HQ; [exact H3|]. split.
    + apply with_dinode_ok; [done|done|by apply ino_ok_resize].
    + unfold x2. pose proof (ex_same _ _ _ _ _ Hx1) as Hs. unfold same_but_addrs in Hs. cbn. by rewrite Hs at 1.
    + cbn. rewrite decide_False; [lia|]. intros ->. cbn in Hn. lia.
    + assert (dense V1 x2) as [Hs2 Hd2] by (eapply written_dense; [done|exact Ho|exact Hw|lia|lia]). split; [done|]. intros i Hr.
      rewrite with_dinode_addr; [by apply Hd2|done|done|by apply ino_ok_resize].
    + cbn [i_size x2 set_i_size]. intros i Hr. rewrite with_dinode_content; [|done|done|by apply ino_ok_resize|lia]. by apply (fw_content _ _ _ _ _ _ _ Hw); lia.
    + intros b Hb Hu Hni Hno. rewrite with_dinode_frame by (done || destruct Hb; lia). by apply Hfr.
    + intros b Hb Hu. rewrite with_dinode_used by done. by apply (ex_used _ _ _ _ _ Hx1).
    + intros bn Hbn. rewrite with_dinode_addr; [by apply (ex_addr _ _ _ _ _ Hx1)|done|done|by apply ino_ok_resize].
    + intros bn Hbn. rewrite with_dinode_addr; [by apply (ex_new _ _ _ _ _ Hx1)|done|done|by apply ino_ok_resize].
    + apply (ex_ind _ _ _ _ _ Hx1).
    + apply (ex_ind_new _ _ _ _ _ Hx1).
  - wp_step. eapply HQ; [by eapply tx_weaken; [exact H1|lia]|].
    assert (src = [] \/ off + n <= i_size x) as Hsmall.
    { destruct src as [|y src]; [by left|right]. apply andb_false_iff in Hgrow as [Hg%Z.ltb_ge|Hg%Z.ltb_ge]; [cbn [length] in Hn; lia|done]. }
    split; [done| | | | |done|apply (ex_used _ _ _ _ _ Hx1)|apply (ex_addr _ _ _ _ _ Hx1)|apply (ex_new _ _ _ _ _ Hx1)
      |apply (ex_ind _ _ _ _ _ Hx1)|apply (ex_ind_new _ _ _ _ _ Hx1)].
    + pose proof (ex_same _ _ _ _ _ Hx1) as Hs. unfold same_but_addrs in Hs. rewrite Hs at 1. cbn. by rewrite Hsz, set_size_id'.
    + rewrite Hsz. case_decide; [lia|]. destruct Hsmall; [done|lia].
    + rewrite <- (set_size_id x1), Hsz. eapply written_dense; [done|exact Ho|exact Hw|apply Hden|lia].
    + intros i Hr. rewrite Hsz in Hr. apply (fw_content _ _ _ _ _ _ _ Hw). destruct Hden. lia.
Qed.

Lemma bytes_at_patched V x f off src n off' : (forall i, off' <= i < off' + n -> content V x i = patched f off src i) ->
  bytes_at V x off' n = (fun i => patched f off src (off' + Z.of_nat i)) <$> seq 0 (Z.to_nat n).
Proof.
  intros H. unfold bytes_at. apply list_fmap_ext. intros j i Hi. apply lookup_seq in Hi as [-> Hi]. apply H. lia.
Qed.

Lemma patched_src f off src : (fun i => patched f off src (off + Z.of_nat i)) <$> seq 0 (length src) = src.
Proof.
  apply list_eq. intros i. rewrite list_lookup_fmap. destruct (decide (i < length src)%nat) as [Hi|Hi].
  - rewrite lookup_seq_lt by done. cbn. unfold patched.
    rewrite (proj2 (Z.leb_le _ _)), (proj2 (Z.ltb_lt _ _)) by lia. cbn [andb].
    replace (Z.to_nat (off + Z.of_nat i - off)) with i by lia.
    destruct (lookup_lt_is_Some_2 src i Hi) as [v Hv]. rewrite Hv. f_equal. by apply nth_lookup_Some.
  - rewrite lookup_seq_ge, lookup_ge_None_2 by lia. done.
Qed.

(** C6: writing and reading back.  In a transaction with room in the log and
    enough free blocks, [writei] of [src] at [off] (a file, not a device) writes
    all of it.  Afterwards [readi] of any range returns the old contents with
    [src] laid over them at [off] (in particular [src] itself), the size is the
    larger of the old one and the end of the write, the blocks the file had are
    still where they were, every block the write added, also an indirect one,
    was free before (so it is no block of another file) and is in use now, and
    no block of another file has changed. *)
Theorem writei_readi_roundtrip s V c k E ip x src off :
  tx 1 s V ∅ (6 * c + S k) E -> layout E -> meta_used E V ->
  e_icache E !! ip = Some x -> ino_ok E V x -> dense V x -> inum_ok E x -> i_type x <> T_DEV ->
  (2 * c <= free_blocks E V)%nat -> 0 <= off <= i_size x -> off + Z.of_nat (length src) <= MAXFILE * Z.of_nat BSIZE ->
  off mod 512 + Z.of_nat (length src) <= 512 * Z.of_nat c -> Z.of_nat c <= Z.of_nat (length src) / 512 + 3 ->
  exists s1 V1 x1, writei ip src off (Z.of_nat (length src)) s = Ok (Z.of_nat (length src)) s1 /\
    tx 1 s1 V1 ∅ k (with_inode E ip x1) /\ after_write E V x off src V1 x1 /\
    (forall off' n, 0 <= off' <= i_size x1 -> 0 <= n -> off' + n < 2 ^ 32 ->
       let n' := Z.min n (i_size x1 - off') in
       exists s2, readi ip off' n s1 =
         Ok (n', (fun i => patched (content V x) off src (off' + Z.of_nat i)) <$> seq 0 (Z.to_nat n')) s2) /\
    (exists s2, readi ip off (Z.of_nat (length src)) s1 = Ok (Z.of_nat (length src), src) s2).
Proof.
  intros Ht HE Hm Hx Hok Hden Hi Hty Hfree Ho Hmax Hc Hcf.
  assert (wp (writei ip src off (Z.of_nat (length src))) (fun r s1 => r = Z.of_nat (length src) /\ exists V1 x1,
    tx 1 s1 V1 ∅ k (with_inode E ip x1) /\ after_write E V x off src V1 x1) s) as Hwp.
  { eapply tx_writei; [exact Ht|done..|by left|done|]. eauto. }
  destruct (proj1 (wp_ok _ _ _) Hwp) as (r & s1 & Hrun & -> & V1 & x1 & H1 & Haw). exists s1, V1, x1.
  assert (i_type x1 <> T_DEV) as Hty1 by (by rewrite (aw_same _ _ _ _ _ _ _ Haw)).
  assert (forall off' n, 0 <= off' <= i_size x1 -> 0 <= n -> off' + n < 2 ^ 32 -> let n' := Z.min n (i_size x1 - off') in
    exists s2, readi ip off' n s1 = Ok (n', (fun i => patched (content V x) off src (off' + Z.of_nat i)) <$> seq 0 (Z.to_nat n')) s2) as Hread.
  { intros off' n Ho' Hn Hov n'.
    assert (wp (readi ip off' n) (fun r _ => r = (n', bytes_at V1 x1 off' n')) s1) as Hr.
    { eapply (tx_readi 1 s1 V1 k (with_inode E ip x1) ip x1); [done|by apply layout_with|by eapply with_inode_lookup|apply ino_ok_with, Haw|apply Haw|done..|]. auto. }
    destruct (proj1 (wp_ok _ _ _) Hr) as (r & s2 & Hrun2 & ->). exists s2. rewrite Hrun2. do 2 f_equal.
    apply bytes_at_patched. intros i Hi2. apply (aw_content _ _ _ _ _ _ _ Haw). lia. }
  split_and!; [done|done|done|done|].
  destruct (decide (src = [])) as [->|Hne].
  - destruct (Hread off 0) as [s2 Hr]; [rewrite (aw_size _ _ _ _ _ _ _ Haw); lia|lia|unfold MAXFILE, BSIZE in *; destruct Hden; rewrite pow2_32; lia|].
    exists s2. cbn [length]. change (Z.of_nat 0) with 0. rewrite Hr. rewrite Z.min_l by (rewrite (aw_size _ _ _ _ _ _ _ Haw); lia). done.
  - assert (i_size x1 >= off + Z.of_nat (length src)) as Hbig by (rewrite (aw_size _ _ _ _ _ _ _ Haw), decide_False by done; lia).
    destruct (Hread off (Z.of_nat (length src))) as [s2 Hr]; [lia|lia|unfold MAXFILE, BSIZE in *; rewrite pow2_32; lia|].
    exists s2. rewrite Hr, Z.min_l, Nat2Z.id by lia. by rewrite patched_src.
Qed.

(** ** Locking an inode *)
Definition taken (E : fenv) (x : inode) : inode := set_i_lock (mk_slock true (e_pid E)) x.
Definition loaded (E : fenv) (V : Z -> block) (x : inode) : inode :=
  if i_valid x then x
  else set_i_valid true (load_dinode (decode_dinode (V (IBLOCK (i_inum x) (e_sb E))) (dinode_off (i_inum x))) x).

Lemma tx_pid o s V L k E : tx o s V L k E -> fpid s = e_pid E.
Proof. intros (P & l & HR & _). exact (f_equal e_pid (rep_env _ _ _ _ _ HR)). Qed.

Lemma tx_acquire_inode o s V L k E ip x (Q : unit -> fsys -> Prop) :
  tx o s V L k E -> e_icache E !! ip = Some x -> sl_locked (i_lock x) = false ->
  (forall s', tx o s' V L k (with_inode E ip (taken E x)) -> Q tt s') ->
  wp (acquiresleep (inode_lock_addr ip) (get_inode_lock ip) (put_inode_lock ip) wakeups) Q s.
Proof.
  intros Ht Hx Hl HQ. destruct wakeups; cbn [acquiresleep]; unfold get_inode_lock, put_inode_lock;
    (do 2 wp_step; eapply tx_get_inode; [exact Ht|done|]; wp_step; rewrite Hl; wp_step; apply wp_gets; rewrite (tx_pid _ _ _ _ _ _ Ht);
     eapply tx_upd_inode; [exact Ht|done|exact HQ]).
Qed.

Lemma tx_ilock o s V k E ip x (Q : unit -> fsys -> Prop) :
  tx o s V ∅ k E -> layout E -> e_icache E !! ip = Some x -> i_dev x = 1 -> inum_ok E x -> 1 <= i_ref x -> sl_locked (i_lock x) = false ->
  i_type (loaded E V x) <> 0 -> (forall s', tx o s' V ∅ k (with_inode E ip (taken E (loaded E V x))) -> Q tt s') -> wp (ilock ip) Q s.
Proof.
  intros Ht HE Hx Hd Hi Hr Hl Hty HQ. unfold ilock. wp_step. eapply tx_get_inode; [exact Ht|done|]. rewrite (proj2 (Z.ltb_ge _ 1)) by lia.
  wp_step. eapply tx_acquire_inode; [exact Ht|done|done|]. intros s1 H1. wp_step. eapply tx_get_inode; [exact H1|by eapply with_inode_lookup|].
  cbn [taken set_i_lock i_valid]. unfold loaded in *. destruct (i_valid x) eqn:Hv; cbn [negb when]; [wp_step; by apply HQ|].
  unfold get_sb. wp_step. apply wp_gets. rewrite (tx_fsb _ _ _ _ _ _ H1). cbn [e_sb with_inode env_set_icache taken set_i_lock i_dev i_inum].
  destruct (IBLOCK_eq E _ HE Hi) as [_ HB]. pose proof (layout_order E HE) as Hly. rewrite Hd.
  wp_step. eapply tx_bread; [exact H1|unfold in_range; cbn; lia|apply not_held_empty|rewrite map_size_empty; lia|]. intros bp s2 _ H2.
  wp_step. eapply tx_buf_data; [exact H2|by rewrite lookup_insert_eq|].
  wp_step. eapply tx_upd_inode; [exact H2|by eapply with_inode_lookup|]. rewrite with_inode_twice. intros s3 H3.
  wp_step. eapply tx_brelse; [exact H3|by rewrite lookup_insert_eq|]. rewrite delete_insert_held by done. intros s4 H4.
  wp_step. eapply tx_upd_inode; [exact H4|by eapply with_inode_lookup|]. rewrite with_inode_twice. intros s5 H5.
  wp_step. eapply tx_get_inode; [exact H5|by eapply with_inode_lookup|].
  apply wp_when; intros Hz; [|by apply HQ]. apply Z.eqb_eq in Hz. exfalso. by apply Hty.
Qed.

(** Another inode in the same block. *)
Lemma with_dinode_decode E V x n : layout E -> inum_ok E x -> 0 <= n < sb_ninodes (e_sb E) -> n <> i_inum x ->
  length (i_addrs x) = S NDIRECT -> length (V (IBLOCK (i_inum x) (e_sb E))) = BSIZE ->
  decode_dinode (with_dinode E V x (IBLOCK n (e_sb E))) (dinode_off n) = decode_dinode (V (IBLOCK n (e_sb E))) (dinode_off n).
Proof.
  intros HE Hi Hn Hne Hl Hlen. unfold with_dinode. destruct (decide (IBLOCK n (e_sb E) = IBLOCK (i_inum x) (e_sb E))) as [Heq|Hb]; [|by rewrite vset_ne].
  assert (dinode_off n + 64 <= dinode_off (i_inum x) \/ dinode_off (i_inum x) + 64 <= dinode_off n)%nat as Hoff.
  { destruct (IBLOCK_eq E n HE Hn) as [E1 _]. destruct (IBLOCK_eq E _ HE Hi) as [E2 _]. rewrite E1, E2 in Heq. unfold dinode_off, IPB in *. zlia. }
  rewrite Heq, vset_eq. pose proof (dinode_off_fits (i_inum x)).
  pose proof (encode_dinode_length (dinode_of x) Hl) as He. set (e := encode_dinode (dinode_of x)) in *. set (o := dinode_off (i_inum x)) in *.
  set (d := V (IBLOCK (i_inum x) (e_sb E))) in *. clearbody d e o.
  unfold decode_dinode. rewrite !get16_splice_ne by lia. rewrite get32_splice_ne by lia. f_equal.
  apply map_ext_in. intros j Hj%in_seq. unfold NDIRECT in Hj. apply get32_splice_ne; lia.
Qed.

(** C7: an inode survives eviction from the inode cache.  [iupdate] writes the
    fields of a cached inode to its block, and only those: the other inodes in
    the block decode as before.  Whenever the slot is then reused for the same
    inode number, not yet valid, [ilock] loads exactly the fields written. *)
Theorem iupdate_ilock_roundtrip s V k E ip x :
  tx 1 s V ∅ (S k) E -> layout E -> e_icache E !! ip = Some x -> i_dev x = 1 -> inum_ok E x ->
  dinode_ok (dinode_of x) -> i_type x <> 0 ->
  exists s1 V1, iupdate ip s = Ok tt s1 /\ tx 1 s1 V1 ∅ k E /\
    (forall n, 0 <= n < sb_ninodes (e_sb E) -> n <> i_inum x ->
       decode_dinode (V1 (IBLOCK n (e_sb E))) (dinode_off n) = decode_dinode (V (IBLOCK n (e_sb E))) (dinode_off n)) /\
    (forall y, i_dev y = 1 -> i_inum y = i_inum x -> 1 <= i_ref y -> sl_locked (i_lock y) = false -> i_valid y = false ->
       exists s2, ilock ip (set_icache (<[ip := y]> (icache s1)) s1) = Ok tt s2 /\
         icache s2 !! ip = Some (set_i_lock (mk_slock true (fpid s)) (set_i_valid true (load_dinode (dinode_of x) y)))).
Proof.
  intros Ht HE Hx Hd Hi Hok Hty. destruct (do_addrs _ Hok) as [Hl _].
  assert (wp (iupdate ip) (fun _ s1 => tx 1 s1 (with_dinode E V x) ∅ k E) s) as Hwp by (eapply tx_iupdate; [exact Ht|done..|auto]).
  destruct (proj1 (wp_ok _ _ _) Hwp) as ([] & s1 & Hrun & H1). exists s1, (with_dinode E V x).
  destruct (IBLOCK_eq E _ HE Hi) as [_ HB]. pose proof (layout_order E HE) as Hly.
  assert (length (V (IBLOCK (i_inum x) (e_sb E))) = BSIZE) as Hlen by (eapply tx_len; [exact Ht|unfold in_range; lia]).
  split; [done|]. split; [done|]. split; [intros; by apply with_dinode_decode|].
  intros y Hyd Hyi Hyr Hyl Hyv.
  assert (loaded E (with_dinode E V x) y = set_i_valid true (load_dinode (dinode_of x) y)) as Hld.
  { unfold loaded, with_dinode. rewrite Hyv, Hyi, vset_eq, decode_encode; [done|done|]. rewrite Hlen. apply dinode_off_fits. }
  pose proof (tx_set_icache _ _ _ _ _ _ (<[ip := y]> (icache s1)) H1) as H2. rewrite (tx_icache _ _ _ _ _ _ H1) in *.
  assert (wp (ilock ip) (fun _ s2 => icache s2 !! ip = Some (taken E (set_i_valid true (load_dinode (dinode_of x) y)))) (set_icache (<[ip := y]> (e_icache E)) s1)) as Hw2.
  { eapply (tx_ilock 1 _ _ k (with_inode E ip y)); [exact H2|by apply layout_with|by eapply with_inode_lookup|done|by unfold inum_ok; rewrite Hyi|done|done| |].
    - change (i_type (loaded E (with_dinode E V x) y) <> 0). by rewrite Hld.
    - intros s2 H3. rewrite (tx_icache _ _ _ _ _ _ H3). change (loaded (with_inode E ip y)) with (loaded E). rewrite Hld, with_inode_twice.
      by eapply with_inode_lookup. }
  destruct (proj1 (wp_ok _ _ _) Hw2) as ([] & s2 & Hrun2 & Hres). exists s2. split; [done|]. rewrite Hres, (tx_pid _ _ _ _ _ _ Ht). done.
Qed.
End IoProps.

(** An empty file on the demonstration disk. *)
Definition demo_file : inode := mk_inode 1 5 1 (mk_slock false 0) true T_FILE 0 0 1 0 (replicate 13 0).
Definition demo_icache : list inode := <[0%nat := demo_file]> (replicate NINODE zero_inode).
#[local] Existing Instance demo_image.
#[local] Existing Instance demo_wakeups.
Definition no_devices : DevSw := {| dev_read := fun _ => None; dev_write := fun _ => None |}.
#[local] Existing Instance no_devices.
Definition demo_open : FS unit := mount ;;; begin_op ;;; modify (set_icache demo_icache).

Definition demo_sb : superblock := mk_sb 64 40 20 10 2 12 16.
Record demo_ready (s : fsys) (V : Z -> block) (E : fenv) : Prop := {
  dr_tx : tx 1 s V ∅ 9 E;
  dr_layout : layout E;
  dr_meta : meta_used E V;
  dr_icache : e_icache E = demo_icache;
  dr_file : ino_ok E V demo_file;
  dr_free : free_blocks E V = 47%nat;
  dr_sb : e_sb E = demo_sb;
}.

Lemma demo_addr V bn : addr_of V demo_file bn = 0.
Proof.
  unfold addr_of. change (ind_of demo_file =? 0) with true. change (i_addrs demo_file) with (replicate 13 0).
  rewrite nth_replicate. by destruct (bn <? NDIRECT)%nat.
Qed.

Lemma demo_open_run : exists s, demo_open (power_on 64 demo_disk) = Ok tt s /\ exists V E, demo_ready s V E.
Proof.
  apply wp_ok_unit. unfold demo_open. apply demo_begin. intros s V E Ht Hsb Hsz _ _ HV Hic _. wp_step.
  assert (e_sb E = demo_sb) as Hsb' by (rewrite Hsb; by vm_compute).
  exists V, (env_set_icache demo_icache E).
  assert (layout (env_set_icache demo_icache E)) as HE.
  { split; unfold lstart, lsize, data_start, bitmap_blocks; cbn [e_sb env_set_icache e_size]; rewrite ?Hsb', ?Hsz; vm_compute; intuition discriminate. }
  assert (forall b, 0 <= b < 64 -> used demo_sb V b = used demo_sb demo_disk b) as Hused.
  { intros b Hb. unfold used, BBLOCK. replace (b / BPB) with 0 by (unfold BPB; zlia).
    change (u32 (0 + sb_bmapstart demo_sb)) with 16. rewrite HV by lia. reflexivity. }
  split; [exact (tx_set_icache _ _ _ _ _ _ _ Ht)|exact HE| |reflexivity| | |exact Hsb'].
  - intros b Hb. cbn [e_sb env_set_icache] in *. rewrite Hsb' in *. change (data_start demo_sb) with 17 in Hb. rewrite Hused by lia.
    assert (forallb (used demo_sb demo_disk) (seqZ 0 17) = true) as Hall by (vm_compute; reflexivity).
    rewrite forallb_forall in Hall. apply Hall, list_elem_of_In, elem_of_seqZ. lia.
  - split; [done|done|done|..].
    + intros bn _ Hn. by rewrite demo_addr in Hn.
    + intros bn bn' _ _ Hn. by rewrite demo_addr in Hn.
    + intros bn _ Hn. by rewrite demo_addr in Hn.
  - unfold free_blocks. cbn [e_sb env_set_icache]. rewrite Hsb'. rewrite (filter_false_ext (used demo_sb demo_disk)); [vm_compute; reflexivity|].
    intros b Hb%elem_of_seqZ. change (data_start demo_sb) with 17 in Hb. change (sb_size demo_sb) with 64 in Hb. apply Hused. lia.
Qed.

Lemma iupdate_ilock_roundtrip_witness :
  exists s s1, demo_open (power_on 64 demo_disk) = Ok tt s /\ iupdate 0 s = Ok tt s1 /\
    let y := mk_inode 1 5 1 (mk_slock false 0) false 9 9 9 9 9 (replicate 13 9) in
    exists s2, ilock 0 (set_icache (<[0%nat := y]> (icache s1)) s1) = Ok tt s2 /\
      icache s2 !! 0%nat = Some (set_i_lock (mk_slock true (fpid s)) demo_file).
Proof.
  destruct demo_open_run as (s & Hrun & V & E & Hd). exists s.
  assert (exists s1, iupdate 0 s = Ok tt s1 /\
    let y := mk_inode 1 5 1 (mk_slock false 0) false 9 9 9 9 9 (replicate 13 9) in
    exists s2, ilock 0 (set_icache (<[0%nat := y]> (icache s1)) s1) = Ok tt s2 /\
      icache s2 !! 0%nat = Some (set_i_lock (mk_slock true (fpid s)) demo_file)) as (s1 & H).
  { clear Hrun. destruct Hd as [Ht HE Hm Hic Hok Hfr Hsb].
    destruct (iupdate_ilock_roundtrip s V 8 E 0 demo_file) as (s1 & V1 & Hu & _ & _ & Hlk).
    - exact Ht.
    - exact HE.
    - rewrite Hic. reflexivity.
    - reflexivity.
    - unfold inum_ok. rewrite Hsb. cbn. lia.
    - split; [vm_compute; intuition discriminate|split; reflexivity|split; [reflexivity|repeat (constructor; [split; reflexivity || discriminate|]); constructor]].
    - discriminate.
    - exists s1. split; [exact Hu|]. apply Hlk; [reflexivity|reflexivity|cbn; lia|reflexivity|reflexivity]. }
  exists s1. exact (conj Hrun H).
Defined.

Lemma demo_file_dense V : dense V demo_file.
Proof. split; [by vm_compute|]. cbn. lia. Qed.

Lemma writei_readi_roundtrip_witness :
  exists s V E s1 V1 x1, demo_open (power_on 64 demo_disk) = Ok tt s /\ writei 0 [72; 105; 10] 0 3 s = Ok 3 s1 /\
    after_write E V demo_file 0 [72; 105; 10] V1 x1 /\ exists s2, readi 0 0 3 s1 = Ok (3, [72; 105; 10]) s2.
Proof.
  destruct demo_open_run as (s & Hrun & V & E & Hd). exists s, V, E.
  assert (exists s1 V1 x1, writei 0 [72; 105; 10] 0 3 s = Ok 3 s1 /\ after_write E V demo_file 0 [72; 105; 10] V1 x1 /\
    exists s2, readi 0 0 3 s1 = Ok (3, [72; 105; 10]) s2) as (s1 & V1 & x1 & H).
  { clear Hrun. destruct Hd as [Ht HE Hm Hic Hok Hfr Hsb].
    destruct (writei_readi_roundtrip s V 1 1 E 0 demo_file [72; 105; 10] 0) as (s1 & V1 & x1 & Hw & _ & Haw & _ & Hr).
    - exact (tx_weaken _ _ _ _ _ 8 _ Ht ltac:(lia)).
    - exact HE.
    - exact Hm.
    - rewrite Hic. reflexivity.
    - exact Hok.
    - apply demo_file_dense.
    - unfold inum_ok. rewrite Hsb. cbn. lia.
    - discriminate.
    - rewrite Hfr. lia.
    - vm_compute. split; discriminate.
    - vm_compute. discriminate.
    - vm_compute. discriminate.
    - vm_compute. discriminate.
    - exists s1, V1, x1. exact (conj Hw (conj Haw Hr)). }
  exists s1, V1, x1. exact (conj Hrun H).
Defined.
