(* ===== verification/FsDir.v ===== *)
(** * Directories: what [dirlookup] finds and what [dirlink] adds

    A directory is a file of 16-byte entries.  [dirlookup] finds the first
    entry in use with the name, [dirlink] puts a new entry into the first
    free place or at the end; lookups of other names are not affected. *)
From Stdlib Require Import ZArith Lia Bool.
From stdpp Require Import base numbers list strings gmap.
From S2P Require Import Prelude Machine Cstring FsState Bio BioInv Log LogInv LogTx LogCrash Fs FsInode FsAlloc FsFile FsIo FsIoProps.

Section Dir.
Context {I : FsImage} {W : Wakeups} {DS : DevSw}.

(** ** Entries *)
Definition entry (V : Z -> block) (x : inode) (j : nat) : list Z := bytes_at V x (16 * Z.of_nat j) 16.
Definition entries (x : inode) : nat := Z.to_nat (i_size x / 16).
(** Entry [j] is in use under the name [key]. *)
Definition named (V : Z -> block) (x : inode) (key : list Z) (j : nat) : Prop :=
  de_inum (entry V x j) <> 0 /\ cstr DIRSIZ (de_name (entry V x j)) = key.
#[export] Instance named_dec V x key j : Decision (named V x key j) := _.
(** [j] is the first of the entries below [n] with the name. *)
Definition first_named (V : Z -> block) (x : inode) (key : list Z) (j : nat) : Prop :=
  (j < entries x)%nat /\ named V x key j /\ forall i, (i < j)%nat -> ~ named V x key i.
Definition unnamed (V : Z -> block) (x : inode) (key : list Z) : Prop :=
  forall j, (j < entries x)%nat -> ~ named V x key j.

Record dir_ok (E : fenv) (V : Z -> block) (x : inode) : Prop := {
  do_ino : ino_ok E V x;
  do_dense : dense V x;
  do_inum : inum_ok E x;
  do_type : i_type x = T_DIR;
  do_size : i_size x mod 16 = 0;
  do_bytes : forall i, 0 <= i < i_size x -> 0 <= content V x i < 256;
}.

(** A name as [namecmp] can read it. *)
Definition name_ok (name : list Z) : Prop := bytes name /\ readable DIRSIZ name.

Lemma entry_length V x j : length (entry V x j) = 16%nat.
Proof. apply bytes_at_length. Qed.

Lemma entry_bytes E V x j : dir_ok E V x -> (j < entries x)%nat -> bytes (entry V x j).
Proof.
  intros Hd Hj. apply Forall_lookup. intros i b Hi. pose proof (lookup_lt_Some _ _ _ Hi) as Hlt. rewrite entry_length in Hlt.
  unfold entry in Hi. rewrite bytes_at_lookup in Hi by (change (Z.to_nat 16) with 16%nat; lia). injection Hi as <-.
  apply (do_bytes _ _ _ Hd). unfold entries in Hj. pose proof (do_size _ _ _ Hd). destruct (do_dense _ _ _ Hd). zlia.
Qed.

Lemma readable_long n l : (n <= length l)%nat -> readable n l.
Proof. revert l. induction n as [|n IH]; intros [|c l] H; try done; [cbn in H; lia|]. right. apply IH. cbn in H. lia. Qed.

Lemma namecmp_entry E V x name j : dir_ok E V x -> (j < entries x)%nat -> name_ok name ->
  exists c, namecmp name (de_name (entry V x j)) = Some c /\ (c = 0 <-> cstr DIRSIZ (de_name (entry V x j)) = cstr DIRSIZ name).
Proof.
  intros Hd Hj [Hb Hr]. pose proof (entry_bytes _ _ _ _ Hd Hj) as He.
  destruct (strncmp_defined DIRSIZ name (de_name (entry V x j))) as (c & Hc & Hiff); [done|by apply Forall_drop|done| |].
  - apply readable_long. unfold de_name. rewrite length_drop, entry_length. unfold DIRSIZ. lia.
  - exists c. split; [done|]. rewrite Hiff. split; intros; by symmetry.
Qed.

(** ** Reading an entry *)
Lemma tx_read_entry o s V k E dp x j (Q : Z * list Z -> fsys -> Prop) : tx o s V ∅ k E -> layout E ->
  e_icache E !! dp = Some x -> dir_ok E V x -> (j < entries x)%nat ->
  (forall s', tx o s' V ∅ k E -> Q (16, entry V x j) s') -> wp (readi dp (16 * Z.of_nat j) 16) Q s.
Proof.
  intros Ht HE Hx Hd Hj HQ. destruct (do_dense _ _ _ Hd) as [Hsz _]. pose proof (do_size _ _ _ Hd) as Hm.
  unfold entries in Hj. assert (MAXFILE * Z.of_nat BSIZE = 71680) as Hmax by done.
  eapply tx_readi; [exact Ht|done|done|apply Hd|apply Hd|by rewrite (do_type _ _ _ Hd)|zlia|lia|rewrite pow2_32; zlia|].
  intros s'. replace (Z.min 16 (i_size x - 16 * Z.of_nat j)) with 16 by zlia. intros Ht'. by apply HQ.
Qed.

(** ** [iget] *)

(** The inode slot [iget] hands out: one that already had the inode, or a free one. *)
Definition got (x : inode) (dev inum : Z) (x' : inode) : Prop :=
  (0 < i_ref x /\ i_dev x = dev /\ i_inum x = inum /\ x' = set_i_ref (i_ref x + 1) x) \/
  (i_ref x = 0 /\ x' = set_i_valid false (set_i_ref 1 (set_i_id dev inum x))).
Definition can_get (E : fenv) (dev inum : Z) : Prop := length (e_icache E) = NINODE /\
  exists i x, e_icache E !! i = Some x /\ ((0 < i_ref x /\ i_dev x = dev /\ i_inum x = inum) \/ i_ref x = 0).

Lemma wp_find_inode (s : fsys) (test : inode -> bool) (Q : option nat -> fsys -> Prop) : length (icache s) = NINODE ->
  (forall i x, icache s !! i = Some x -> test x = true -> Q (Some i) s) ->
  ((forall i x, icache s !! i = Some x -> test x = false) -> Q None s) ->
  wp (first_in (seq 0 NINODE) (fun i => x <- get_inode i ;; ret (test x))) Q s.
Proof.
  intros Hlen HS HN. set (f := fun i => match icache s !! i with Some x => test x | None => false end).
  apply (wp_first_in f).
  - intros i Hi. apply elem_of_seq in Hi. destruct (lookup_lt_is_Some_2 (icache s) i) as [x Hx]; [rewrite Hlen; lia|].
    unfold f. wp_step. unfold wp, get_inode, get_at. by rewrite Hx.
  - destruct (head (filter (fun i => f i) (seq 0 NINODE))) as [i|] eqn:Eh.
    + apply head_Some_elem_of in Eh. apply list_elem_of_filter in Eh as [Hf _]. unfold f in Hf.
      destruct (icache s !! i) as [x|] eqn:Hx; [|done]. apply (HS i x Hx). by apply Is_true_true.
    + apply HN. intros i x Hx. destruct (test x) eqn:Et; [|done]. exfalso.
      assert (i ∈ filter (fun i => f i) (seq 0 NINODE)) as Hin.
      { apply list_elem_of_filter. split; [unfold f; rewrite Hx; by apply Is_true_true|]. apply elem_of_seq.
        apply lookup_lt_Some in Hx. rewrite Hlen in Hx. lia. }
      destruct (filter (fun i => f i) (seq 0 NINODE)); [by apply not_elem_of_nil in Hin|done].
Qed.

Lemma tx_held o s V L k E : tx o s V L k E -> held s = [].
Proof. intros (P & l & HR & _). exact (rep_locks _ _ _ _ _ HR). Qed.

Lemma wp_upd_inode (s : fsys) i x f (Q : unit -> fsys -> Prop) : icache s !! i = Some x ->
  Q tt (set_icache (<[i := f x]> (icache s)) s) -> wp (upd_inode i f) Q s.
Proof. intros Hx HQ. unfold wp, upd_inode. by rewrite Hx. Qed.

(** Inside the lock of the inode cache. *)
Lemma tx_relock o s V L k E i x' (s' : fsys) : tx o s V L k E -> s' = set_held [] (set_icache (<[i := x']> (icache s)) (set_held [IcacheLock] s)) ->
  tx o s' V L k (with_inode E i x').
Proof.
  intros Ht ->. apply (tx_other o (set_icache (<[i := x']> (icache s)) s)); [|done..|].
  - unfold with_inode. rewrite <- (tx_icache _ _ _ _ _ _ Ht). by apply tx_set_icache.
  - cbn. symmetry. exact (tx_held _ _ _ _ _ _ Ht).
Qed.

Lemma tx_iget o s V L k E dev inum (Q : nat -> fsys -> Prop) : tx o s V L k E -> can_get E dev inum ->
  (forall i x x' s', e_icache E !! i = Some x -> got x dev inum x' -> tx o s' V L k (with_inode E i x') -> Q i s') ->
  wp (iget dev inum) Q s.
Proof.
  intros Ht [Hlen (i0 & x0 & Hx0 & Hcan)] HQ. pose proof (tx_icache _ _ _ _ _ _ Ht) as Hic. pose proof (tx_held _ _ _ _ _ _ Ht) as Hh.
  unfold iget. wp_step. apply wp_fs_acquire; [rewrite Hh; set_solver|]. rewrite Hh. wp_step. apply wp_find_inode.
  - cbn. by rewrite Hic.
  - intros i x Hx Htest. cbn in Hx. apply andb_prop in Htest as [[H1 H2]%andb_prop H3].
    apply Z.ltb_lt in H1. apply Z.eqb_eq in H2, H3. wp_step. eapply wp_upd_inode; [exact Hx|]. wp_step.
    apply wp_fs_release; [done|]. wp_step. eapply (HQ i x); [by rewrite <- Hic|by left|]. by eapply tx_relock.
  - intros Hnone. wp_step. apply wp_find_inode.
    + cbn. by rewrite Hic.
    + intros i x Hx Htest. cbn in Hx. apply Z.eqb_eq in Htest.
      wp_step. eapply wp_upd_inode; [exact Hx|]. cbn [icache set_icache set_held].
      wp_step. eapply wp_upd_inode; [cbn; apply list_lookup_insert_eq; by eapply lookup_lt_Some|]. cbn [icache set_icache set_held].
      wp_step. eapply wp_upd_inode; [cbn; rewrite list_insert_insert_eq; apply list_lookup_insert_eq; by eapply lookup_lt_Some|].
      cbn [icache set_icache set_held]. rewrite !list_insert_insert_eq. wp_step. apply wp_fs_release; [done|]. wp_step.
      eapply (HQ i x); [by rewrite <- Hic|by right|]. by eapply tx_relock.
    + intros Hfull. exfalso. cbn in Hfull, Hnone. rewrite Hic in Hfull, Hnone. specialize (Hfull i0 x0 Hx0). specialize (Hnone i0 x0 Hx0).
      cbn in Hfull, Hnone. apply Z.eqb_neq in Hfull. destruct Hcan as [(H1 & H2 & H3)|H1]; [|done].
      by rewrite (proj2 (Z.ltb_lt _ _) H1), (proj2 (Z.eqb_eq _ _) H2), (proj2 (Z.eqb_eq _ _) H3) in Hnone.
Qed.

(** ** [dirlookup] *)
Lemma tx_dirlookup_loop name fuel : forall o s V k E dp x j (Q : option (nat * Z) -> fsys -> Prop),
  tx o s V ∅ k E -> layout E -> e_icache E !! dp = Some x -> dir_ok E V x -> name_ok name ->
  (forall i, (i < entries x)%nat -> can_get E (i_dev x) (de_inum (entry V x i))) ->
  (j <= entries x)%nat -> (entries x - j <= fuel)%nat -> (forall i, (i < j)%nat -> ~ named V x (cstr DIRSIZ name) i) ->
  (forall s', tx o s' V ∅ k E -> unnamed V x (cstr DIRSIZ name) -> Q None s') ->
  (forall j i y y' s', first_named V x (cstr DIRSIZ name) j -> e_icache E !! i = Some y ->
     got y (i_dev x) (de_inum (entry V x j)) y' -> tx o s' V ∅ k (with_inode E i y') -> Q (Some (i, 16 * Z.of_nat j)) s') ->
  wp (dirlookup_loop fuel dp name (16 * Z.of_nat j)) Q s.
Proof.
  induction fuel as [|fuel IH]; intros o s V k E dp x j Q Ht HE Hx Hd Hn Hget Hj Hf Hno HN HS; cbn [dirlookup_loop];
    wp_step; (eapply tx_get_inode; [exact Ht|done|]); pose proof (do_size _ _ _ Hd) as Hm;
    destruct (do_dense _ _ _ Hd) as [Hsz _]; unfold entries in Hj, Hf.
  - rewrite (proj2 (Z.leb_le _ _)) by zlia. wp_step. apply HN; [done|]. intros i Hi. apply Hno. unfold entries in Hi. lia.
  - destruct (Z.leb_spec (i_size x) (16 * Z.of_nat j)) as [Hend|Hlt].
    { wp_step. apply HN; [done|]. intros i Hi. apply Hno. unfold entries in Hi. zlia. }
    assert (j < entries x)%nat as Hje by (unfold entries; zlia).
    wp_step. eapply tx_read_entry; [exact Ht|done..|]. intros s1 H1. cbn [fst snd]. rewrite Z.eqb_refl. cbn [negb].
    assert (~ named V x (cstr DIRSIZ name) j -> wp (dirlookup_loop fuel dp name (16 * Z.of_nat j + 16)) Q s1) as Hnext.
    { intros Hnj. replace (16 * Z.of_nat j + 16) with (16 * Z.of_nat (S j)) by lia.
      eapply (IH o s1 V k E dp x (S j)); [exact H1|done..|done|unfold entries; lia| |done|done].
      intros i Hi. destruct (decide (i = j)) as [->|]; [done|]. apply Hno. lia. }
    destruct (Z.eqb_spec (de_inum (entry V x j)) 0) as [Hz|Hnz]; [apply Hnext; by intros [? _]|].
    destruct (namecmp_entry _ _ _ name j Hd Hje Hn) as (c & -> & Hc). destruct (Z.eqb_spec c 0) as [Hc0|Hc0].
    + wp_step. eapply tx_iget; [exact H1|by apply Hget|]. intros i y y' s2 Hy Hg H2. wp_step.
      eapply (HS j); [|exact Hy|exact Hg|exact H2]. split; [done|]. split; [|done]. split; [done|]. by apply Hc.
    + apply Hnext. intros [_ Hnm]. by apply Hc0, Hc.
Qed.

Lemma tx_dirlookup name o s V k E dp x (Q : option (nat * Z) -> fsys -> Prop) :
  tx o s V ∅ k E -> layout E -> e_icache E !! dp = Some x -> dir_ok E V x -> name_ok name ->
  (forall i, (i < entries x)%nat -> can_get E (i_dev x) (de_inum (entry V x i))) ->
  (forall s', tx o s' V ∅ k E -> unnamed V x (cstr DIRSIZ name) -> Q None s') ->
  (forall j i y y' s', first_named V x (cstr DIRSIZ name) j -> e_icache E !! i = Some y ->
     got y (i_dev x) (de_inum (entry V x j)) y' -> tx o s' V ∅ k (with_inode E i y') -> Q (Some (i, 16 * Z.of_nat j)) s') ->
  wp (dirlookup dp name) Q s.
Proof.
  intros Ht HE Hx Hd Hn Hget HN HS. unfold dirlookup. wp_step. eapply tx_get_inode; [exact Ht|done|].
  rewrite (do_type _ _ _ Hd), Z.eqb_refl. cbn [negb].
  eapply (tx_dirlookup_loop name _ o s V k E dp x 0); [exact Ht|done..|lia| |intros; lia|done|done].
  unfold dir_fuel, entries. lia.
Qed.

(** ** [dirlink] *)

(** Where the new entry goes. *)
Definition slot_for (V : Z -> block) (x : inode) (j : nat) : Prop :=
  (j <= entries x)%nat /\ ((j < entries x)%nat -> de_inum (entry V x j) = 0).

Lemma tx_dirlink_loop fuel : forall o s V k E dp x j (Q : Z -> fsys -> Prop),
  tx o s V ∅ k E -> layout E -> e_icache E !! dp = Some x -> dir_ok E V x ->
  (j <= entries x)%nat -> (entries x - j <= fuel)%nat ->
  (forall j s', tx o s' V ∅ k E -> slot_for V x j -> Q (16 * Z.of_nat j) s') ->
  wp (dirlink_loop fuel dp (16 * Z.of_nat j)) Q s.
Proof.
  induction fuel as [|fuel IH]; intros o s V k E dp x j Q Ht HE Hx Hd Hj Hf HQ; cbn [dirlink_loop];
    wp_step; (eapply tx_get_inode; [exact Ht|done|]); pose proof (do_size _ _ _ Hd) as Hm;
    destruct (do_dense _ _ _ Hd) as [Hsz _].
  - unfold entries in Hj, Hf. rewrite (proj2 (Z.leb_le _ _)) by zlia. wp_step. apply HQ; [done|]. unfold slot_for, entries. lia.
  - destruct (Z.leb_spec (i_size x) (16 * Z.of_nat j)) as [Hend|Hlt].
    { wp_step. apply HQ; [done|]. split; [done|]. unfold entries in *. zlia. }
    assert (j < entries x)%nat as Hje by (unfold entries; zlia).
    wp_step. eapply tx_read_entry; [exact Ht|done..|]. intros s1 H1. cbn [fst snd]. rewrite Z.eqb_refl. cbn [negb].
    destruct (Z.eqb_spec (de_inum (entry V x j)) 0) as [Hz|Hnz]; [wp_step; by apply HQ|].
    replace (16 * Z.of_nat j + 16) with (16 * Z.of_nat (S j)) by lia.
    eapply (IH o s1 V k E dp x (S j)); [exact H1|done..|lia|done].
Qed.

(** The bytes of a new entry. *)
Definition new_entry (inum : Z) (nm : list Z) : list Z := le16 inum ++ nm.

(** Entry [j] replaced or added, the others as before. *)
Record linked (V : Z -> block) (x : inode) (j : nat) (e : list Z) (V' : Z -> block) (x' : inode) : Prop := {
  li_new : (j < entries x')%nat /\ entry V' x' j = e;
  li_old : forall i, i <> j -> ((i < entries x')%nat <-> (i < entries x)%nat) /\ ((i < entries x)%nat -> entry V' x' i = entry V x i);
}.

Lemma entry_ext V x V' x' i : (forall a, 0 <= a < 16 -> content V' x' (16 * Z.of_nat i + a) = content V x (16 * Z.of_nat i + a)) ->
  entry V' x' i = entry V x i.
Proof.
  intros H. unfold entry, bytes_at. apply list_fmap_ext. intros n a Ha. apply lookup_seq in Ha as [-> Hlt].
  apply H. change (Z.to_nat 16) with 16%nat in Hlt. lia.
Qed.

Lemma entry_new V x V' x' i (e : list Z) : length e = 16%nat ->
  (forall a, 0 <= a < 16 -> content V' x' (16 * Z.of_nat i + a) = patched (content V x) (16 * Z.of_nat i) e (16 * Z.of_nat i + a)) ->
  entry V' x' i = e.
Proof.
  intros He H. apply list_eq. intros a. destruct (decide (a < 16)%nat) as [Ha|Ha].
  - unfold entry. rewrite bytes_at_lookup by (change (Z.to_nat 16) with 16%nat; lia). rewrite H by lia.
    unfold patched. rewrite He. rewrite (proj2 (Z.leb_le _ _)), (proj2 (Z.ltb_lt _ _)) by lia. cbn [andb].
    replace (Z.to_nat _) with a by lia. destruct (lookup_lt_is_Some_2 e a) as [b Hb]; [lia|].
    by rewrite nth_lookup, Hb.
  - rewrite !lookup_ge_None_2; [done|lia|rewrite entry_length; lia].
Qed.

Lemma linked_write E V x j e V' x' : dir_ok E V x -> slot_for V x j -> length e = 16%nat -> bytes e ->
  after_write E V x (16 * Z.of_nat j) e V' x' -> dir_ok E V' x' /\ linked V x j e V' x'.
Proof.
  intros Hd [Hj _] He Hb Haw. destruct (do_dense _ _ _ Hd) as [Hsz _]. pose proof (do_size _ _ _ Hd) as Hm.
  pose proof (aw_size _ _ _ _ _ _ _ Haw) as Hs'. rewrite decide_False in Hs' by (by intros ->). rewrite He in Hs'.
  pose proof (aw_content _ _ _ _ _ _ _ Haw) as Hc. unfold entries in Hj.
  assert (entries x' = Nat.max (entries x) (S j)) as Hen by (unfold entries; rewrite Hs'; zlia).
  split; [constructor|constructor].
  - apply Haw.
  - apply Haw.
  - pose proof (do_inum _ _ _ Hd). unfold inum_ok. by rewrite (aw_same _ _ _ _ _ _ _ Haw).
  - rewrite (aw_same _ _ _ _ _ _ _ Haw). apply Hd.
  - rewrite Hs'. destruct (Z.max_spec (i_size x) (16 * Z.of_nat j + Z.of_nat 16)) as [[_ ->]|[_ ->]]; zlia.
  - intros i Hi. rewrite Hc by done. unfold patched. rewrite He.
    destruct ((16 * Z.of_nat j <=? i) && (i <? 16 * Z.of_nat j + Z.of_nat 16)) eqn:Ein.
    + apply andb_prop in Ein as [H1%Z.leb_le H2%Z.ltb_lt].
      destruct (lookup_lt_is_Some_2 e (Z.to_nat (i - 16 * Z.of_nat j))) as [b Hbb]; [lia|].
      rewrite nth_lookup, Hbb. cbn. by apply (Forall_lookup_1 _ _ _ _ Hb Hbb).
    + apply (do_bytes _ _ _ Hd). apply andb_false_iff in Ein as [H1%Z.leb_gt|H2%Z.ltb_ge]; zlia.
  - split; [lia|]. apply (entry_new V x); [done|]. intros a Ha. apply Hc. lia.
  - intros i Hi. split; [unfold entries in *; lia|]. intros Hlt. apply entry_ext. intros a Ha. rewrite Hc by (unfold entries in Hlt; zlia).
    unfold patched. rewrite He. destruct (Z.leb_spec (16 * Z.of_nat j) (16 * Z.of_nat i + a)); [|done].
    destruct (Z.ltb_spec (16 * Z.of_nat i + a) (16 * Z.of_nat j + Z.of_nat 16)); [lia|done].
Qed.

(** A free slot of the inode cache other than the directory's. *)
Definition spare_inode (E : fenv) (dp : nat) : Prop :=
  length (e_icache E) = NINODE /\ exists i y, i <> dp /\ e_icache E !! i = Some y /\ i_ref y = 0.
Lemma spare_can_get E dp dev inum : spare_inode E dp -> can_get E dev inum.
Proof. intros [Hl (i & y & _ & Hy & Hr)]. split; [done|]. exists i, y. split; [done|by right]. Qed.
Lemma spare_with E dp x : spare_inode E dp -> spare_inode (with_inode E dp x) dp.
Proof.
  intros [Hl (i & y & Hi & Hy & Hr)]. split; [cbn; by rewrite length_insert|]. exists i, y. split_and!; [done| |done].
  cbn. by rewrite list_lookup_insert_ne.
Qed.

Lemma strncpy_name name : name_ok name -> exists nm, strncpy (replicate DIRSIZ 0) name DIRSIZ = Some nm /\
  length nm = DIRSIZ /\ bytes nm /\ cstr DIRSIZ nm = cstr DIRSIZ name.
Proof.
  intros [Hb Hr]. destruct (strncpy_spec DIRSIZ (replicate DIRSIZ 0) name) as (nm & Hs & Hl & Hc & _ & Hz); [by rewrite length_replicate|done|].
  rewrite length_replicate in Hl. exists nm. split_and!; [done|done| |done].
  apply Forall_lookup. intros i b Hi. pose proof (lookup_lt_Some _ _ _ Hi) as Hlt.
  destruct (decide (length (cstr DIRSIZ name) <= i)%nat) as [Hge|Hin].
  - rewrite Hz in Hi by lia. injection Hi as <-. lia.
  - assert (forall n (l : list Z), cstr n l `prefix_of` l) as Hpre.
    { induction n as [|n IH]; intros [|c l]; try apply prefix_nil. cbn. destruct (c =? 0); [apply prefix_nil|by apply prefix_cons]. }
    destruct (lookup_lt_is_Some_2 (cstr DIRSIZ name) i) as [b' Hb']; [lia|].
    pose proof (prefix_lookup_Some _ _ _ _ Hb' (Hpre DIRSIZ name)) as H1. rewrite <- Hc in Hb'.
    pose proof (prefix_lookup_Some _ _ _ _ Hb' (Hpre DIRSIZ nm)) as H2. rewrite Hi in H2. injection H2 as ->.
    by apply (Forall_lookup_1 _ _ _ _ Hb H1).
Qed.

Lemma new_entry_ok inum nm : 0 < inum < 65536 -> length nm = DIRSIZ -> bytes nm ->
  length (new_entry inum nm) = 16%nat /\ bytes (new_entry inum nm) /\ de_inum (new_entry inum nm) = inum /\ de_name (new_entry inum nm) = nm.
Proof.
  intros Hi Hl Hb. split_and!.
  - unfold new_entry. rewrite length_app, Hl. done.
  - unfold new_entry, le16. apply Forall_app. split; [|done]. repeat constructor; zlia.
  - unfold de_inum, new_entry, get16, get8, le16. cbn [app nth Nat.add]. zlia.
  - done.
Qed.

Lemma tx_dirlink s V k E dp x name inum (Q : Z -> fsys -> Prop) :
  tx 1 s V ∅ (6 + S k) E -> layout E -> meta_used E V -> e_icache E !! dp = Some x -> dir_ok E V x -> name_ok name ->
  spare_inode E dp -> 0 < inum < 65536 -> unnamed V x (cstr DIRSIZ name) -> (2 <= free_blocks E V)%nat ->
  i_size x + 16 <= MAXFILE * Z.of_nat BSIZE ->
  (forall s' V' x' j e, tx 1 s' V' ∅ k (with_inode E dp x') -> dir_ok E V' x' -> slot_for V x j -> linked V x j e V' x' ->
     de_inum e = inum -> cstr DIRSIZ (de_name e) = cstr DIRSIZ name -> Q 0 s') ->
  wp (dirlink dp name inum) Q s.
Proof.
  intros Ht HE Hm Hx Hd Hn Hsp Hi Hun Hfree Hmax HQ. unfold dirlink. wp_step.
  eapply tx_dirlookup; [exact Ht|done..| | |].
  { intros i _. by eapply spare_can_get. }
  2:{ intros j i y y' s' (Hj & Hnj & _) _ _ _. exfalso. exact (Hun j Hj Hnj). }
  intros s1 H1 _. wp_step. eapply tx_get_inode; [exact H1|done|]. wp_step.
  eapply (tx_dirlink_loop _ 1 s1 V _ E dp x 0); [exact H1|done..|lia|unfold dir_fuel, entries; lia|].
  intros j s2 H2 Hj. destruct (strncpy_name name Hn) as (nm & -> & Hl & Hb & Hc).
  destruct (new_entry_ok inum nm Hi Hl Hb) as (Hel & Heb & Hen & Hem). fold (new_entry inum nm). wp_step.
  pose proof (do_size _ _ _ Hd) as Hms. destruct (do_dense _ _ _ Hd) as [Hsz _]. destruct (Hj) as [Hje _]. unfold entries in Hje.
  eapply (tx_writei s2 V 1 k E dp x (new_entry inum nm)).
  - exact H2.
  - done.
  - done.
  - done.
  - apply Hd.
  - apply Hd.
  - apply Hd.
  - lia.
  - by rewrite (do_type _ _ _ Hd).
  - by rewrite Hel.
  - zlia.
  - zlia.
  - left. zlia.
  - by vm_compute.
  - intros s3 V' x' H3 Haw. rewrite Z.eqb_refl. cbn [negb]. wp_step.
    destruct (linked_write _ _ _ _ _ _ _ Hd Hj Hel Heb Haw) as [Hd' Hlk].
    eapply HQ; [exact H3|done|done|exact Hlk|done|by rewrite Hem].
Qed.

Lemma linked_named V x j e V' x' name : slot_for V x j -> linked V x j e V' x' -> de_inum e <> 0 ->
  cstr DIRSIZ (de_name e) = cstr DIRSIZ name -> unnamed V x (cstr DIRSIZ name) ->
  first_named V' x' (cstr DIRSIZ name) j /\
  forall key i, key <> cstr DIRSIZ name ->
    ((i < entries x')%nat /\ named V' x' key i <-> (i < entries x)%nat /\ named V x key i).
Proof.
  intros [Hj Hfree] [[Hjn He] Hold] Hnz Hname Hun. split.
  - split; [done|]. split; [by unfold named; rewrite He|]. intros i Hi. destruct (Hold i) as [Hiff Heq]; [lia|].
    assert (i < entries x)%nat as Hix by (apply Hiff; lia). unfold named. rewrite Heq by done. by apply Hun.
  - intros key i Hkey. destruct (decide (i = j)) as [->|Hne].
    + unfold named. rewrite He. split; [intros [_ [_ H]]; congruence|]. intros [Hlt [H _]]. by rewrite Hfree in H.
    + destruct (Hold i Hne) as [Hiff Heq]. split; intros [Hlt Hnm]; (split; [by apply Hiff|]); unfold named in *.
      * rewrite <- Heq by (by apply Hiff). done.
      * by rewrite Heq.
Qed.

Lemma dir_ok_with E V x dp y : dir_ok E V x -> dir_ok (with_inode E dp y) V x.
Proof. intros []. constructor; try done. by apply ino_ok_with. Qed.

(** C8: [dirlink] and [dirlookup] make a directory a table from names to inode
    numbers.  In a transaction with room, linking a name that is not in the
    directory returns 0; afterwards [dirlookup] of that name finds the new
    entry and hands out a cached inode with that number, every other name is
    found in exactly the entries where it was before, and the directory is
    still well formed. *)
Theorem dirlink_dirlookup s V k E dp x name inum :
  tx 1 s V ∅ (6 + S k) E -> layout E -> meta_used E V -> e_icache E !! dp = Some x -> dir_ok E V x -> name_ok name ->
  spare_inode E dp -> 0 < inum < 65536 -> unnamed V x (cstr DIRSIZ name) -> (2 <= free_blocks E V)%nat ->
  i_size x + 16 <= MAXFILE * Z.of_nat BSIZE ->
  exists s1 V1 x1 j, dirlink dp name inum s = Ok 0 s1 /\ tx 1 s1 V1 ∅ k (with_inode E dp x1) /\ dir_ok E V1 x1 /\
    first_named V1 x1 (cstr DIRSIZ name) j /\ de_inum (entry V1 x1 j) = inum /\
    (forall key i, key <> cstr DIRSIZ name ->
       ((i < entries x1)%nat /\ named V1 x1 key i <-> (i < entries x)%nat /\ named V x key i)) /\
    exists ip y s2, dirlookup dp name s1 = Ok (Some (ip, 16 * Z.of_nat j)) s2 /\ icache s2 !! ip = Some y /\
      i_inum y = inum /\ 0 < i_ref y.
Proof.
  intros Ht HE Hm Hx Hd Hn Hsp Hi Hun Hfree Hmax.
  assert (wp (dirlink dp name inum) (fun r s1 => r = 0 /\ exists V1 x1 j e, tx 1 s1 V1 ∅ k (with_inode E dp x1) /\ dir_ok E V1 x1 /\
    slot_for V x j /\ linked V x j e V1 x1 /\ de_inum e = inum /\ cstr DIRSIZ (de_name e) = cstr DIRSIZ name) s) as Hwp.
  { eapply tx_dirlink; [exact Ht|done..|]. intros s1 V1 x1 j e H1 H2 H3 H4 H5 H6. split; [done|]. by exists V1, x1, j, e. }
  destruct (proj1 (wp_ok _ _ _) Hwp) as (r & s1 & Hrun & -> & V1 & x1 & j & e & H1 & Hd1 & Hj & Hlk & Hen & Hec).
  exists s1, V1, x1, j. clear Hwp.
  destruct (linked_named _ _ _ _ _ _ name Hj Hlk ltac:(lia) Hec Hun) as [Hfirst Hother].
  pose proof (proj2 (li_new _ _ _ _ _ _ Hlk)) as Hent.
  assert (wp (dirlookup dp name) (fun r s2 => exists ip y, r = Some (ip, 16 * Z.of_nat j) /\ icache s2 !! ip = Some y /\
    i_inum y = inum /\ 0 < i_ref y) s1) as Hlook.
  { eapply (tx_dirlookup name 1 s1 V1 k (with_inode E dp x1) dp x1); [exact H1|by apply layout_with|by eapply with_inode_lookup
      |by apply dir_ok_with|done|intros; by eapply spare_can_get, spare_with| |].
    - intros s2 _ Hno. exfalso. destruct Hfirst as (Hlt & Hnm & _). exact (Hno j Hlt Hnm).
    - intros j' i y y' s2 (Hlt & Hnm & Hmin) Hy Hg H2. destruct Hfirst as (Hlt1 & Hnm1 & Hmin1).
      assert (j' = j) as ->.
      { destruct (Nat.lt_trichotomy j' j) as [Hl|[->|Hl]]; [by apply Hmin1 in Hl|done|by apply Hmin in Hl]. }
      exists i, y'. split; [done|]. rewrite (tx_icache _ _ _ _ _ _ H2). split; [by eapply with_inode_lookup|].
      rewrite Hent, Hen in Hg. destruct Hg as [(G1 & G2 & G3 & ->)|[G1 ->]]; cbn; [|done]. split; [done|lia]. }
  destruct (proj1 (wp_ok _ _ _) Hlook) as (r & s2 & Hrun2 & ip & y & -> & Hy).
  split_and!; [done|done|done|done|by rewrite Hent|done|]. exists ip, y, s2. by split.
Qed.
End Dir.

(** An empty directory on the demonstration disk. *)
Definition demo_root : inode := set_i_type T_DIR demo_file.
Definition demo_name : list Z := [97; 0].
#[local] Existing Instance demo_image.
#[local] Existing Instance demo_wakeups.
#[local] Existing Instance no_devices.

Lemma demo_root_ok E V : e_sb E = demo_sb -> ino_ok E V demo_file -> dir_ok E V demo_root.
Proof.
  intros Hsb Hf. constructor.
  - destruct Hf. by constructor.
  - apply (demo_file_dense V).
  - unfold inum_ok. rewrite Hsb. cbn. lia.
  - done.
  - done.
  - cbn. lia.
Qed.

Lemma dirlink_dirlookup_witness : exists s s1 ip off s2, demo_open (power_on 64 demo_disk) = Ok tt s /\
  dirlink 0 demo_name 7 (set_icache (<[0%nat := demo_root]> (icache s)) s) = Ok 0 s1 /\
  dirlookup 0 demo_name s1 = Ok (Some (ip, off)) s2.
Proof.
  destruct demo_open_run as (s & Hrun & V & E & Hd). exists s.
  assert (exists s1 ip off s2, dirlink 0 demo_name 7 (set_icache (<[0%nat := demo_root]> (icache s)) s) = Ok 0 s1 /\
    dirlookup 0 demo_name s1 = Ok (Some (ip, off)) s2) as (s1 & ip & off & s2 & H).
  { clear Hrun. destruct Hd as [Ht HE Hm Hic Hok Hfr Hsb].
    destruct (dirlink_dirlookup (set_icache (<[0%nat := demo_root]> (icache s)) s) V 1
      (with_inode E 0 demo_root) 0 demo_root demo_name 7) as (s1 & V1 & x1 & j & Hl & _ & _ & Hfirst & _ & _ & ip & y & s2 & Hk & _).
    - rewrite (tx_icache _ _ _ _ _ _ Ht). apply tx_set_icache. exact (tx_weaken _ _ _ _ _ 8 _ Ht ltac:(lia)).
    - by apply layout_with.
    - exact Hm.
    - cbn. rewrite Hic. reflexivity.
    - apply dir_ok_with. by apply demo_root_ok.
    - split; [constructor; [lia|constructor; [lia|constructor]]|right; left; reflexivity].
    - apply spare_with. split; [rewrite Hic; reflexivity|]. exists 1%nat, zero_inode. split; [done|]. rewrite Hic. split; reflexivity.
    - lia.
    - intros j Hj. exfalso. change (entries demo_root) with 0%nat in Hj. lia.
    - change (free_blocks (with_inode E 0 demo_root) V) with (free_blocks E V). rewrite Hfr. lia.
    - vm_compute. discriminate.
    - exists s1, ip, (16 * Z.of_nat j), s2. exact (conj Hl Hk). }
  exists s1, ip, off, s2. exact (conj Hrun H).
Defined.
