(* ===== verification/Mkfs.v ===== *)
(** * [mkfs.c]: building the initial file system

    The program runs on the build machine, which is taken to be little-endian: the
    conversions of [xshort] and [xint] are those of the encodings of [FsState] and
    [Fs].  The image is the list of its blocks; a block past its end cannot be
    read.  A file given to the program is its name and the results of the calls of
    [read], or [None] if it cannot be opened.  [exit(1)] and a failed assertion
    end the computation, [exit(0)] is its return. *)
From Stdlib Require Import ZArith Lia Bool.
From stdpp Require Import base numbers list strings.
From S2P Require Import Prelude Machine Cstring FsState Bio Log Fs.

Definition NINODES : Z := 200.
Definition mkfs_size : Z := 1000.   (* FSSIZE of param.h *)
Definition nbitmap : Z := mkfs_size / BPB + 1.
Definition ninodeblocks : Z := NINODES / IPB + 1.
Definition nlog : Z := LOGSIZE.
Definition nmeta : Z := 2 + nlog + ninodeblocks + nbitmap.
Definition nblocks : Z := mkfs_size - nmeta.
Definition mkfs_sb : superblock := mk_sb mkfs_size nblocks NINODES nlog 2 (2 + nlog) (2 + nlog + ninodeblocks).

Record mkfs_t : Type := mk_mkfs { image : list block; freeinode : Z; freeblock : Z }.
Definition set_image v s := mk_mkfs v (freeinode s) (freeblock s).
Definition set_freeinode v s := mk_mkfs (image s) v (freeblock s).
Definition set_freeblock v s := mk_mkfs (image s) (freeinode s) v.

Abbreviation MK := (M mkfs_t).

Definition zeroes : block := replicate BSIZE 0.
Definition encode_sb (sb : superblock) : list Z :=
  le32 (sb_size sb) ++ le32 (sb_nblocks sb) ++ le32 (sb_ninodes sb) ++ le32 (sb_nlog sb) ++ le32 (sb_logstart sb) ++
  le32 (sb_inodestart sb) ++ le32 (sb_bmapstart sb).

(** A block written past the end leaves a hole before it. *)
Definition write_at (n : nat) (d : block) (im : list block) : list block :=
  if (n <? length im)%nat then <[n := d]> im else im ++ replicate (n - length im) zeroes ++ [d].
Definition wsect (sec : Z) (buf : block) : MK unit := modify (fun s => set_image (write_at (Z.to_nat sec) buf (image s)) s).
Definition rsect (sec : Z) : MK block := fun s =>
  match image s !! Z.to_nat sec with Some d => Ok d s | None => Exited s end.

Definition winode (inum : Z) (ip : dinode) : MK unit :=
  let bn := IBLOCK inum mkfs_sb in
  buf <- rsect bn ;;
  wsect bn (splice buf (dinode_off inum) (encode_dinode ip)).
Definition rinode (inum : Z) : MK dinode :=
  buf <- rsect (IBLOCK inum mkfs_sb) ;;
  ret (decode_dinode buf (dinode_off inum)).

Definition mk_ialloc (type : Z) : MK Z :=
  inum <- gets freeinode ;;
  modify (set_freeinode (u32 (inum + 1))) ;;;
  winode inum (mk_dinode type 0 0 1 0 (replicate (S NDIRECT) 0)) ;;;
  ret inum.

Definition bitmap (used : nat) : block := fold_left bit_set (seq 0 used) zeroes.
Definition mk_balloc (used : Z) : MK unit :=
  if negb (used <? Z.of_nat BSIZE * 8) then panic "assert"
  else wsect (sb_bmapstart mkfs_sb) (bitmap (Z.to_nat used)).

(** [freeblock++]. *)
Definition take_block : MK Z :=
  b <- gets freeblock ;;
  modify (set_freeblock (u32 (b + 1))) ;;;
  ret b.

Definition set_di_addr (k : nat) (a : Z) (v : dinode) : dinode :=
  mk_dinode (di_type v) (di_major v) (di_minor v) (di_nlink v) (di_size v) (<[k := a]> (di_addrs v)).
Definition set_di_size (n : Z) (v : dinode) : dinode :=
  mk_dinode (di_type v) (di_major v) (di_minor v) (di_nlink v) n (di_addrs v).

(** The address in slot [k] of the inode, a fresh block if there is none. *)
Definition slot_block (din : dinode) (k : nat) : MK (dinode * Z) :=
  let a := nth k (di_addrs din) 0 in
  if a =? 0 then b <- take_block ;; ret (set_di_addr k b din, b) else ret (din, a).

(** The block of the file with number [fbn]. *)
Definition file_block (din : dinode) (fbn : Z) : MK (dinode * Z) :=
  if fbn <? Z.of_nat NDIRECT then slot_block din (Z.to_nat fbn)
  else
    p <- slot_block din NDIRECT ;;
    let (din, ind) := (p : dinode * Z) in
    indirect <- rsect ind ;;
    let j := (4 * (Z.to_nat fbn - NDIRECT))%nat in
    if get32 indirect j =? 0 then
      b <- take_block ;;
      wsect ind (splice indirect j (le32 b)) ;;;
      ret (din, b)
    else ret (din, get32 indirect j).

Fixpoint iappend_loop (fuel : nat) (din : dinode) (off : Z) (p : list Z) : MK (dinode * Z) :=
  match p with
  | [] => ret (din, off)
  | _ =>
      match fuel with
      | O => nofuel
      | S fuel' =>
          let fbn := off / Z.of_nat BSIZE in
          if negb (fbn <? MAXFILE) then panic "assert"
          else
            r <- file_block din fbn ;;
            let (din, x) := (r : dinode * Z) in
            let n1 := Z.to_nat (Z.min (Z.of_nat (length p)) ((fbn + 1) * Z.of_nat BSIZE - off)) in
            buf <- rsect x ;;
            wsect x (splice buf (Z.to_nat (off - fbn * Z.of_nat BSIZE)) (take n1 p)) ;;;
            iappend_loop fuel' din (off + Z.of_nat n1) (drop n1 p)
      end
  end.
Definition iappend (inum : Z) (p : list Z) : MK unit :=
  din <- rinode inum ;;
  r <- iappend_loop (length p) din (di_size din) p ;;
  let (din, off) := (r : dinode * Z) in
  winode inum (set_di_size off din).

(** A directory entry. *)
Definition dirent (inum : Z) (name : list Z) : list Z := le16 inum ++ name.
Definition dot_name (dots : list Z) : list Z := dots ++ replicate (DIRSIZ - length dots) 0.

Fixpoint append_pieces (inum : Z) (pieces : list (list Z)) : MK unit :=
  match pieces with
  | [] => ret tt
  | p :: pieces' => iappend inum p ;;; append_pieces inum pieces'
  end.

Definition skip_underscore (name : list Z) : list Z :=
  match name with c :: name' => if c =? 95 then name' else name | [] => name end.

Definition add_file (rootino : Z) (file : list Z * option (list (list Z))) : MK unit :=
  let (name, pieces) := file in
  if existsb (Z.eqb SLASH) name then panic "assert"
  else
    match pieces with
    | None => exited
    | Some pieces =>
        inum <- mk_ialloc T_FILE ;;
        match strncpy (replicate DIRSIZ 0) (skip_underscore name ++ [0]) DIRSIZ with
        | None => fault "strncpy"
        | Some nm =>
            iappend rootino (dirent inum nm) ;;;
            append_pieces inum pieces
        end
    end.
Fixpoint add_files (rootino : Z) (files : list (list Z * option (list (list Z)))) : MK unit :=
  match files with
  | [] => ret tt
  | f :: files' => add_file rootino f ;;; add_files rootino files'
  end.

Definition fix_root (rootino : Z) : MK unit :=
  din <- rinode rootino ;;
  let off := (di_size din / Z.of_nat BSIZE + 1) * Z.of_nat BSIZE in
  winode rootino (set_di_size off din).

(** From an empty image. *)
Definition mkfs_start : mkfs_t := mk_mkfs [] 1 0.
Definition mkfs_main (files : list (list Z * option (list (list Z)))) : MK unit :=
  modify (set_freeblock nmeta) ;;;
  for_range (Z.to_nat mkfs_size) 0 (fun i => wsect (Z.of_nat i) zeroes) ;;;
  wsect 1 (splice zeroes 0 (encode_sb mkfs_sb)) ;;;
  rootino <- mk_ialloc T_DIR ;;
  if negb (rootino =? ROOTINO) then panic "assert"
  else
    iappend rootino (dirent rootino (dot_name [46])) ;;;
    iappend rootino (dirent rootino (dot_name [46; 46])) ;;;
    add_files rootino files ;;;
    fix_root rootino ;;;
    used <- gets freeblock ;;
    mk_balloc used.
