(* ===== verification/MkfsProps.v ===== *)
(** * The image [mkfs.c] builds is the file system the kernel expects

    The state of the builder is described by the blocks the kernel will see,
    [V], with a bitmap that already marks the blocks handed out.  The files under
    construction satisfy the kernel's own invariants over [V] ([ino_ok], [dense],
    [content] of [FsFile]), and the laws of growing and writing a file proved there
    for [bmap] and [writei] serve for [iappend]. *)
From Stdlib Require Import ZArith Lia Bool.
From stdpp Require Import base numbers list strings sets.
From S2P Require Import Prelude Machine Cstring FsState Bio BioInv Log LogInv LogTx Fs FsInode FsAlloc FsFile FsIo FsIoProps FsDir Mkfs.

Section Image.
Context (E : fenv).
Hypothesis Hsb : e_sb E = mkfs_sb.
Hypothesis Hsize : e_size E = mkfs_size.

Lemma mkfs_layout : layout E.
Proof. constructor; unfold lstart, lsize, data_start, bitmap_blocks; rewrite ?Hsb, ?Hsize; vm_compute; repeat split; congruence. Qed.
#[local] Hint Resolve mkfs_layout : core.

Lemma mkfs_data b : data_block E b <-> 59 <= b < 1000.
Proof. unfold data_block. rewrite Hsb. change (data_start mkfs_sb) with 59. change (sb_size mkfs_sb) with 1000. done. Qed.
Lemma mkfs_bblock b : 0 <= b < 1000 -> BBLOCK b mkfs_sb = 58.
Proof. intros Hb. unfold BBLOCK, BPB. rewrite Z.div_small by lia. done. Qed.
Lemma mkfs_iblock n : 0 <= n < 200 -> 32 <= IBLOCK n mkfs_sb < 58.
Proof. intros Hn. unfold IBLOCK, IPB. change (sb_inodestart mkfs_sb) with 32. rewrite u32_small by (rewrite pow2_32; zlia). zlia. Qed.

(** ** The bitmap *)
Lemma bitmap_S n : bitmap (S n) = bit_set (bitmap n) n.
Proof. unfold bitmap. rewrite seq_S, fold_left_app. done. Qed.
Lemma bitmap_spec n : (n <= 4096)%nat -> length (bitmap n) = BSIZE /\ forall j, bit (bitmap n) j = (j <? n)%nat.
Proof.
  induction n as [|n IH]; intros Hn.
  - split; [done|]. intros j. unfold bitmap, bit, get8. cbn [seq fold_left]. unfold zeroes. rewrite nth_replicate, Z.bits_0. by destruct (Nat.ltb_spec j 0); [lia|].
  - destruct IH as [Hl Hb]; [lia|]. rewrite bitmap_S. assert (n / 8 < length (bitmap n))%nat as Hd.
    { rewrite Hl. unfold BSIZE. apply Nat.Div0.div_lt_upper_bound. lia. }
    rewrite bit_set_length by done. split; [done|]. intros j. rewrite bit_set_spec, Hb by done.
    destruct (Nat.eqb_spec n j), (Nat.ltb_spec j n), (Nat.ltb_spec j (S n)); cbn [orb]; (done || lia).
Qed.

(** ** The builder's state and the blocks the kernel will see *)
Record sees (s : mkfs_t) (V : Z -> block) : Prop := {
  v_len : length (image s) = 1000%nat;
  v_block : forall b, 0 <= b < 1000 -> b <> 58 -> image s !! Z.to_nat b = Some (V b);
  v_size : forall b, 0 <= b < 1000 -> length (V b) = BSIZE;
  v_range : 59 <= freeblock s <= 1000;
  v_bitmap : V 58 = bitmap (Z.to_nat (freeblock s));
  v_zero : forall b, freeblock s <= b < 1000 -> V b = zeroes;
}.

Lemma sees_used s V b : sees s V -> 0 <= b < 1000 -> used mkfs_sb V b = (b <? freeblock s).
Proof.
  intros Hv Hb. unfold used. rewrite mkfs_bblock, (v_bitmap _ _ Hv) by done. destruct (v_range _ _ Hv) as [H1 H2].
  rewrite (proj2 (bitmap_spec (Z.to_nat (freeblock s)) ltac:(lia))). unfold BPB. rewrite Z.mod_small by lia.
  destruct (Z.ltb_spec b (freeblock s)), (Nat.ltb_spec (Z.to_nat b) (Z.to_nat (freeblock s))); (done || lia).
Qed.
Lemma sees_meta s V : sees s V -> meta_used E V.
Proof.
  intros Hv b Hb. rewrite Hsb in *. change (data_start mkfs_sb) with 59 in Hb. pose proof (v_range _ _ Hv). rewrite (sees_used s) by (done || lia).
  apply Z.ltb_lt. lia.
Qed.
Lemma sees_fresh s V : sees s V -> freeblock s < 1000 ->
  data_block E (freeblock s) /\ used (e_sb E) V (freeblock s) = false /\ length (V (BBLOCK (freeblock s) (e_sb E))) = BSIZE.
Proof.
  intros Hv Hlt. pose proof (v_range _ _ Hv). rewrite mkfs_data, Hsb, (sees_used s), mkfs_bblock by (done || lia). split_and!; [lia|lia|apply Z.ltb_irrefl|].
  apply (v_size _ _ Hv). lia.
Qed.

Lemma wp_rsect b s V (Q : block -> mkfs_t -> Prop) : sees s V -> 0 <= b < 1000 -> b <> 58 -> Q (V b) s -> wp (rsect b) Q s.
Proof. intros Hv Hb Hn HQ. unfold wp, rsect. by rewrite (v_block _ _ Hv). Qed.

Lemma wp_wsect b d s V (Q : unit -> mkfs_t -> Prop) : sees s V -> 0 <= b < freeblock s -> b <> 58 -> length d = BSIZE ->
  (forall s', sees s' (vset V b d) -> freeblock s' = freeblock s -> freeinode s' = freeinode s -> Q tt s') -> wp (wsect b d) Q s.
Proof.
  intros [H1 H2 H3 H4 H5 H6] Hb Hn Hd HQ. unfold wsect. wp_step. unfold write_at. rewrite (proj2 (Nat.ltb_lt _ _)) by lia.
  apply HQ; [|done|done]. constructor; cbn [image freeblock set_image].
  - by rewrite length_insert.
  - intros c Hc Hc58. destruct (decide (c = b)) as [->|Hne]; [rewrite vset_eq; apply list_lookup_insert_eq; lia|].
    rewrite vset_ne, list_lookup_insert_ne by (done || lia). by apply H2.
  - intros c Hc. destruct (decide (c = b)) as [->|Hne]; [by rewrite vset_eq|rewrite vset_ne by done; by apply H3].
  - done.
  - by rewrite vset_ne.
  - intros c Hc. rewrite vset_ne by lia. by apply H6.
Qed.

(** The next block, as the kernel's [balloc] would have left it. *)
Lemma wp_take_block s V (Q : Z -> mkfs_t -> Prop) : sees s V -> freeblock s < 1000 ->
  (forall s', sees s' (allocated (e_sb E) V (freeblock s)) -> freeblock s' = freeblock s + 1 -> freeinode s' = freeinode s ->
     Q (freeblock s) s') -> wp take_block Q s.
Proof.
  intros Hv Hlt HQ. pose proof Hv as [H1 H2 H3 H4 H5 H6]. unfold take_block. wp_step. wp_step. wp_step. wp_step. wp_step.
  rewrite u32_small by (rewrite pow2_32; lia). apply HQ; [|done|done]. rewrite Hsb. unfold allocated, mark. rewrite mkfs_bblock by lia.
  destruct (bitmap_spec (Z.to_nat (freeblock s)) ltac:(lia)) as [Hbl _].
  assert (Z.to_nat (freeblock s) / 8 < length (bitmap (Z.to_nat (freeblock s))))%nat as Hd.
  { rewrite Hbl. unfold BSIZE. apply Nat.Div0.div_lt_upper_bound. lia. }
  assert (bit_set (V 58) (Z.to_nat (freeblock s mod BPB)) = bitmap (Z.to_nat (freeblock s + 1))) as ->.
  { rewrite H5. unfold BPB. rewrite Z.mod_small by lia. rewrite <- bitmap_S. f_equal. lia. }
  constructor; cbn [image freeblock set_freeblock].
  - done.
  - intros c Hc Hc58. rewrite H2 by done. f_equal. unfold vset. destruct (Z.eqb_spec c (freeblock s)) as [->|]; [apply H6; lia|].
    by rewrite (proj2 (Z.eqb_neq _ _) Hc58).
  - intros c Hc. unfold vset. destruct (c =? freeblock s); [done|]. destruct (c =? 58); [apply (bitmap_spec (Z.to_nat (freeblock s + 1))); lia|by apply H3].
  - lia.
  - rewrite vset_ne by lia. apply vset_eq.
  - intros c Hc. rewrite !vset_ne by lia. apply H6. lia.
Qed.

(** ** The blocks of a file *)
Lemma ino_ind_bounds V x : ino_ok E V x -> ind_of x <> 0 -> 59 <= ind_of x < 1000.
Proof. intros Hok Hi. apply mkfs_data. by apply Hok. Qed.
Lemma ino_addr_bounds V x bn : ino_ok E V x -> (bn < MAXBN)%nat -> addr_of V x bn <> 0 -> 59 <= addr_of V x bn < 1000.
Proof. intros Hok Hbn Hn. apply mkfs_data. by apply Hok. Qed.
(** A block of a file is below the first free one. *)
Lemma used_below s V b : sees s V -> 0 <= b < 1000 -> used (e_sb E) V b = true -> b < freeblock s.
Proof. intros Hv Hb. rewrite Hsb, (sees_used s) by done. apply Z.ltb_lt. Qed.

Lemma wp_slot_block s V x k (Q : dinode * Z -> mkfs_t -> Prop) : sees s V -> let a := nth k (i_addrs x) 0 in
  (a = 0 -> freeblock s < 1000) ->
  (a <> 0 -> Q (dinode_of x, a) s) ->
  (forall s', a = 0 -> sees s' (allocated (e_sb E) V (freeblock s)) -> freeblock s' = freeblock s + 1 -> freeinode s' = freeinode s ->
     Q (dinode_of (set_i_addr k (freeblock s) x), freeblock s) s') ->
  wp (slot_block (dinode_of x) k) Q s.
Proof.
  intros Hv a Hlt H1 H2. unfold slot_block. change (di_addrs (dinode_of x)) with (i_addrs x). fold a.
  destruct (Z.eqb_spec a 0) as [Ha|Ha]; [|wp_step; by apply H1]. wp_step. apply (wp_take_block s V); [done|auto|].
  intros s' Hv' Hf Hi. wp_step. by apply H2.
Qed.

(** Block [bn] of the file is there; [n] blocks were taken for it. *)
Record has_block (V : Z -> block) (x : inode) (bn : nat) (V' : Z -> block) (x' : inode) (n : Z) : Prop := {
  hb_grown : grown E V x V' x';
  hb_other : forall c, (c < MAXBN)%nat -> c <> bn -> addr_of V' x' c = addr_of V x c;
  hb_there : addr_of V' x' bn <> 0;
  hb_ind : ind_of x' <> 0 <-> (ind_of x <> 0 \/ (NDIRECT <= bn)%nat);
  hb_taken : n = (if decide (addr_of V x bn = 0) then 1 else 0) + (if decide ((NDIRECT <= bn)%nat /\ ind_of x = 0) then 1 else 0);
}.

Lemma has_direct s V x k : sees s V -> ino_ok E V x -> (k < NDIRECT)%nat ->
  (nth k (i_addrs x) 0 <> 0 -> has_block V x k V x 0) /\
  (freeblock s < 1000 -> nth k (i_addrs x) 0 = 0 ->
     has_block V x k (allocated (e_sb E) V (freeblock s)) (set_i_addr k (freeblock s) x) 1).
Proof.
  intros Hv Hok Hk. pose proof (sees_meta _ _ Hv) as Hm. assert (forall W y, addr_of W y k = nth k (i_addrs y) 0) as Ha.
  { intros W y. unfold addr_of. by rewrite (proj2 (Nat.ltb_lt _ _) Hk). }
  assert (~ (NDIRECT <= k)%nat) by lia. split.
  - intros Hn. constructor; [by apply grown_refl|done|by rewrite Ha|tauto|]. rewrite Ha, !decide_False by (done || tauto). done.
  - intros Hlt H0. destruct (sees_fresh s V Hv Hlt) as (F1 & F2 & F3). constructor.
    + apply grown_fresh; (done || lia || auto).
    + intros c Hc Hne. rewrite (addr_fresh E) by (done || lia || auto). by rewrite (proj2 (Nat.eqb_neq _ _) Hne).
    + rewrite (addr_fresh E) by (done || lia || auto || (unfold MAXBN; lia)). rewrite Nat.eqb_refl, (proj2 (Nat.ltb_lt _ _) Hk). cbn [andb].
      apply mkfs_data in F1. lia.
    + rewrite (ind_fresh E V) by (done || lia || auto). rewrite (proj2 (Nat.eqb_neq _ _)) by lia. tauto.
    + rewrite Ha, decide_True, decide_False by (done || tauto). done.
Qed.

(** The indirect block, taken if there is none. *)
Record has_ind (V : Z -> block) (x : inode) (V' : Z -> block) (x' : inode) (n : Z) : Prop := {
  hi_grown : grown E V x V' x';
  hi_addr : forall c, (c < MAXBN)%nat -> addr_of V' x' c = addr_of V x c;
  hi_there : ind_of x' <> 0;
  hi_taken : n = if decide (ind_of x = 0) then 1 else 0;
}.
Lemma has_ind_ok s V x : sees s V -> ino_ok E V x ->
  (ind_of x <> 0 -> has_ind V x V x 0) /\
  (freeblock s < 1000 -> ind_of x = 0 ->
     has_ind V x (allocated (e_sb E) V (freeblock s)) (set_i_addr NDIRECT (freeblock s) x) 1).
Proof.
  intros Hv Hok. pose proof (sees_meta _ _ Hv) as Hm. split.
  - intros Hi. constructor; [by apply grown_refl|done|done|by rewrite decide_False].
  - intros Hlt Hi. destruct (sees_fresh s V Hv Hlt) as (F1 & F2 & F3). constructor.
    + apply grown_fresh; (done || lia || auto).
    + intros c Hc. rewrite (addr_fresh E) by (done || lia || auto). by rewrite Nat.ltb_irrefl, andb_false_r.
    + rewrite (ind_fresh E V) by (done || lia || auto). rewrite Nat.eqb_refl. apply mkfs_data in F1. lia.
    + by rewrite decide_True.
Qed.

Lemma addr_indirect V x bn : (NDIRECT <= bn)%nat -> ind_of x <> 0 -> addr_of V x bn = get32 (V (ind_of x)) (4 * (bn - NDIRECT)).
Proof. intros Hge Hi. unfold addr_of. by rewrite (proj2 (Nat.ltb_ge _ _) Hge), (proj2 (Z.eqb_neq _ _) Hi). Qed.

(** The entry of the indirect block, filled if it is empty. *)
Lemma has_entry s V x bn : sees s V -> ino_ok E V x -> (NDIRECT <= bn < MAXBN)%nat -> ind_of x <> 0 ->
  (addr_of V x bn <> 0 -> has_block V x bn V x 0) /\
  (freeblock s < 1000 -> addr_of V x bn = 0 ->
     has_block V x bn (vset (allocated (e_sb E) V (freeblock s)) (ind_of x)
       (splice (V (ind_of x)) (4 * (bn - NDIRECT)) (le32 (freeblock s)))) x 1).
Proof.
  intros Hv Hok Hbn Hi. pose proof (sees_meta _ _ Hv) as Hm. assert (~ ((NDIRECT <= bn)%nat /\ ind_of x = 0)) by tauto. split.
  - intros Hn. constructor; [by apply grown_refl|done|done|tauto|]. by rewrite !decide_False.
  - intros Hlt H0. destruct (sees_fresh s V Hv Hlt) as (F1 & F2 & F3). rewrite addr_indirect in H0 by (done || lia).
    assert (length (V (ind_of x)) = BSIZE) as Hl by (apply (v_size _ _ Hv); pose proof (ino_ind_bounds V x Hok Hi); lia).
    assert (bn - NDIRECT < NINDIRECT)%nat as Hj by (unfold MAXBN in Hbn; lia). constructor.
    + apply grown_entry; (done || auto).
    + intros c Hc Hne. rewrite (addr_entry E) by (done || auto). rewrite (proj2 (Nat.eqb_neq _ _)) by lia. done.
    + rewrite (addr_entry E) by (done || lia || auto). rewrite (proj2 (Nat.eqb_eq _ _)) by lia. apply mkfs_data in F1. lia.
    + tauto.
    + rewrite addr_indirect, decide_True, decide_False by (done || lia). done.
Qed.

Lemma has_block_ind V x V1 x1 n1 bn V2 x2 n2 : ino_ok E V x -> (NDIRECT <= bn < MAXBN)%nat -> has_ind V x V1 x1 n1 -> has_block V1 x1 bn V2 x2 n2 ->
  has_block V x bn V2 x2 (n1 + n2).
Proof.
  intros Hok Hbn [G1 A1 I1 T1] [G2 A2 I2 C2 T2]. constructor.
  - eapply grown_trans; [auto|done|exact G1|exact G2].
  - intros c Hc Hne. by rewrite A2, A1.
  - done.
  - rewrite C2. split; [|by left]. intros _. right. lia.
  - rewrite T1, T2, A1 by lia. rewrite (decide_False (P := _ /\ ind_of x1 = 0)) by tauto.
    destruct (decide (ind_of x = 0)) as [E1|E1], (decide ((NDIRECT <= bn)%nat /\ ind_of x = 0)) as [E2|E2]; try (exfalso; tauto || lia); lia.
Qed.

(** The second half of [file_block], with an indirect block. *)
Lemma wp_file_entry s V x bn (Q : dinode * Z -> mkfs_t -> Prop) : sees s V -> ino_ok E V x -> (NDIRECT <= bn < MAXBN)%nat -> ind_of x <> 0 ->
  freeblock s + (if decide (addr_of V x bn = 0) then 1 else 0) <= 1000 ->
  (forall s' V' n, sees s' V' -> has_block V x bn V' x n -> freeblock s' = freeblock s + n -> freeinode s' = freeinode s ->
     Q (dinode_of x, addr_of V' x bn) s') ->
  wp (indirect <- rsect (ind_of x) ;;
      let j := (4 * (bn - NDIRECT))%nat in
      if get32 indirect j =? 0 then
        b <- take_block ;;
        wsect (ind_of x) (splice indirect j (le32 b)) ;;;
        ret (dinode_of x, b)
      else ret (dinode_of x, get32 indirect j)) Q s.
Proof.
  intros Hv Hok Hbn Hi Hroom HQ. pose proof (ino_ind_bounds V x Hok Hi) as Hib. destruct (has_entry s V x bn Hv Hok Hbn Hi) as [D1 D2].
  destruct (io_ind _ _ _ Hok Hi) as [Hid Hiu]. pose proof (used_below s V (ind_of x) Hv ltac:(lia) Hiu) as Hbelow.
  wp_step. apply (wp_rsect _ s V); [done|lia|lia|]. cbv zeta. rewrite <- (addr_indirect V x bn) by (done || lia).
  destruct (Z.eqb_spec (addr_of V x bn) 0) as [H0|H0].
  - rewrite decide_True in Hroom by done. specialize (D2 ltac:(lia) H0). wp_step. apply (wp_take_block s V); [done|lia|]. intros s1 Hv1 Hf1 Hi1.
    wp_step. eapply wp_wsect; [exact Hv1|lia|lia| |].
    { rewrite splice_length; [apply (v_size _ _ Hv); lia|]. rewrite (v_size _ _ Hv), le32_length by lia. unfold MAXBN, NDIRECT, NINDIRECT, BSIZE in *. lia. }
    intros s2 Hv2 Hf2 Hi2. wp_step. pose proof (HQ s2 _ 1 Hv2 D2 ltac:(lia) ltac:(congruence)) as H.
    assert (freeblock s < 1000) as Hlt by lia. destruct (sees_fresh s V Hv Hlt) as (F1 & F2 & F3).
    rewrite (addr_entry E) in H by (solve [auto] || done || lia || (unfold MAXBN in Hbn; lia) || (apply (v_size _ _ Hv); lia)).
    rewrite (proj2 (Nat.eqb_eq _ _)) in H by lia. exact H.
  - wp_step. eapply HQ; [exact Hv|by apply D1|lia|done].
Qed.

Lemma wp_file_block s V x bn (Q : dinode * Z -> mkfs_t -> Prop) : sees s V -> ino_ok E V x -> (bn < MAXBN)%nat ->
  freeblock s + (if decide (addr_of V x bn = 0) then 1 else 0) + (if decide ((NDIRECT <= bn)%nat /\ ind_of x = 0) then 1 else 0) <= 1000 ->
  (forall s' V' x' n, sees s' V' -> has_block V x bn V' x' n -> freeblock s' = freeblock s + n -> freeinode s' = freeinode s ->
     Q (dinode_of x', addr_of V' x' bn) s') ->
  wp (file_block (dinode_of x) (Z.of_nat bn)) Q s.
Proof.
  intros Hv Hok Hbn Hroom HQ. unfold file_block. rewrite Nat2Z.id. destruct (Nat.ltb_spec bn NDIRECT) as [Hlt|Hge].
  - rewrite (proj2 (Z.ltb_lt _ _)) by lia. destruct (has_direct s V x bn Hv Hok Hlt) as [D1 D2].
    assert (forall W y, addr_of W y bn = nth bn (i_addrs y) 0) as Ha by (intros W y; unfold addr_of; by rewrite (proj2 (Nat.ltb_lt _ _) Hlt)).
    rewrite Ha, (decide_False (P := _ /\ _)) in Hroom by lia. apply (wp_slot_block s V); [done| | |].
    + intros H0. rewrite decide_True in Hroom by done. lia.
    + intros Hn. rewrite <- (Ha V). eapply HQ; [exact Hv|by apply D1|lia|done].
    + intros s' H0 Hv' Hf Hfi. rewrite decide_True in Hroom by done. specialize (D2 ltac:(lia) H0).
      pose proof (HQ s' _ _ 1 Hv' D2 Hf Hfi) as H. rewrite Ha, (nth_addr E V), Nat.eqb_refl in H by (done || lia). exact H.
  - rewrite (proj2 (Z.ltb_ge _ _)) by lia. destruct (has_ind_ok s V x Hv Hok) as [D1 D2].
    assert (forall s1 V1 x1 n1, sees s1 V1 -> has_ind V x V1 x1 n1 -> freeblock s1 = freeblock s + n1 -> freeinode s1 = freeinode s ->
      wp (indirect <- rsect (ind_of x1) ;;
          let j := (4 * (bn - NDIRECT))%nat in
          if get32 indirect j =? 0 then b <- take_block ;; wsect (ind_of x1) (splice indirect j (le32 b)) ;;; ret (dinode_of x1, b)
          else ret (dinode_of x1, get32 indirect j)) Q s1) as Hgo.
    { intros s1 V1 x1 n1 Hv1 Hi1 Hf1 Hfi1. pose proof (hi_taken _ _ _ _ _ Hi1) as Hn1.
      apply (wp_file_entry s1 V1); [done|apply (ex_ok _ _ _ _ _ (hi_grown _ _ _ _ _ Hi1))|done|apply Hi1| |].
      - rewrite (hi_addr _ _ _ _ _ Hi1) by done. destruct (decide (ind_of x = 0)), (decide ((NDIRECT <= bn)%nat /\ ind_of x = 0)); try (exfalso; tauto); lia.
      - intros s2 V2 n2 Hv2 Hb2 Hf2 Hfi2. eapply HQ; [exact Hv2|by eapply has_block_ind|lia|congruence]. }
    wp_step. apply (wp_slot_block s V); [done| | |]; fold (ind_of x).
    + intros H0. rewrite (decide_True (P := _ /\ _)) in Hroom by done. destruct (decide (addr_of V x bn = 0)); lia.
    + intros Hn. by apply (Hgo s V x 0); [|apply D1|lia|].
    + intros s' H0 Hv' Hf Hfi. assert (freeblock s < 1000) as Hlt.
      { rewrite (decide_True (P := _ /\ _)) in Hroom by done. destruct (decide (addr_of V x bn = 0)); lia. }
      pose proof (Hgo s' _ _ 1 Hv' (D2 Hlt H0) Hf Hfi) as H. rewrite (ind_fresh E V), Nat.eqb_refl in H by (done || lia). exact H.
Qed.

(** ** Appending

    A file of [n] bytes has exactly the blocks they need. *)
Definition tight (V : Z -> block) (x : inode) (n : Z) : Prop :=
  (forall bn, (bn < MAXBN)%nat -> addr_of V x bn <> 0 <-> 512 * Z.of_nat bn < n) /\ (ind_of x <> 0 <-> 6144 < n).
Definition cost (n : Z) : Z := (n + 511) / 512 + (if 6144 <? n then 1 else 0).

(** The file has the contents [data], and zeros after them. *)
Record filed (V : Z -> block) (x : inode) (data : list Z) : Prop := {
  fd_ok : ino_ok E V x;
  fd_max : Z.of_nat (length data) <= MAXFILE * Z.of_nat BSIZE;
  fd_tight : tight V x (Z.of_nat (length data));
  fd_data : forall i, 0 <= i < MAXFILE * Z.of_nat BSIZE -> content V x i = nth (Z.to_nat i) data 0;
}.

(** What the next piece, which fits into one block, takes. *)
Lemma cost_piece n m : 0 <= n -> 0 < m -> n mod 512 + m <= 512 ->
  cost (n + m) - cost n = (if decide (n mod 512 = 0) then 1 else 0) + (if decide ((12 <= Z.to_nat (n / 512))%nat /\ n <= 6144) then 1 else 0).
Proof.
  intros Hn Hm Hf. unfold cost. destruct (decide (n mod 512 = 0)), (decide ((12 <= Z.to_nat (n / 512))%nat /\ n <= 6144)),
    (Z.ltb_spec 6144 (n + m)), (Z.ltb_spec 6144 n); zlia.
Qed.

Lemma nth_patched (data src : list Z) i f : 0 <= i -> (f i = nth (Z.to_nat i) data 0) ->
  patched f (Z.of_nat (length data)) src i = nth (Z.to_nat i) (data ++ src) 0.
Proof.
  intros Hi Hf. unfold patched. destruct (Z.leb_spec (Z.of_nat (length data)) i); cbn [andb].
  - rewrite app_nth2 by lia. destruct (Z.ltb_spec i (Z.of_nat (length data) + Z.of_nat (length src))).
    + f_equal. lia.
    + rewrite Hf, !nth_overflow by lia. done.
  - rewrite Hf, app_nth1 by lia. done.
Qed.

Lemma tight_after V x bn V1 x1 k n m (W : Z -> block) : tight V x n -> 0 <= n -> 0 < m -> n mod 512 + m <= 512 -> n + m <= MAXFILE * Z.of_nat BSIZE ->
  bn = Z.to_nat (n / 512) -> has_block V x bn V1 x1 k -> (forall c, (c < MAXBN)%nat -> addr_of W x1 c = addr_of V1 x1 c) -> tight W x1 (n + m).
Proof.
  intros [T1 T2] Hn Hm Hf Hmax -> [G A H I _] HW. unfold MAXFILE, BSIZE, NDIRECT in *. split.
  - intros c Hc. rewrite HW by done. destruct (decide (c = Z.to_nat (n / 512))) as [->|Hne]; [split; [zlia|done]|].
    rewrite A, T1 by done. zlia.
  - rewrite I, T2. zlia.
Qed.

Lemma wp_append_piece s V x data src (K : dinode -> MK (dinode * Z)) (Q : dinode * Z -> mkfs_t -> Prop) :
  let n := Z.of_nat (length data) in let m := Z.of_nat (length src) in
  sees s V -> filed V x data -> 0 < m -> n mod 512 + m <= 512 -> n + m <= MAXFILE * Z.of_nat BSIZE ->
  freeblock s + (cost (n + m) - cost n) <= 1000 ->
  (forall s' V' x', sees s' V' -> extended E V x V' x' -> filed V' x' (data ++ src) -> freeblock s' = freeblock s + (cost (n + m) - cost n) ->
     freeinode s' = freeinode s -> wp (K (dinode_of x')) Q s') ->
  wp (r <- file_block (dinode_of x) (n / 512) ;;
      let (din, b) := (r : dinode * Z) in
      buf <- rsect b ;;
      wsect b (splice buf (Z.to_nat (n mod 512)) src) ;;;
      K din) Q s.
Proof.
  intros n m Hv [Hok Hmx HT Hd] Hm Hf Hmax Hroom HQ. assert (0 <= n) as Hn0 by lia. rewrite (cost_piece n m) in * by done.
  assert (Z.to_nat (n / 512) < MAXBN)%nat as Hbn by (unfold MAXBN, NDIRECT, NINDIRECT, MAXFILE, BSIZE in *; zlia).
  rewrite <- (Z2Nat.id (n / 512)) by zlia. set (bn := Z.to_nat (n / 512)) in *.
  assert ((if decide (addr_of V x bn = 0) then 1 else 0) + (if decide ((NDIRECT <= bn)%nat /\ ind_of x = 0) then 1 else 0) =
    (if decide (n mod 512 = 0) then 1 else 0) + (if decide ((12 <= bn)%nat /\ n <= 6144) then 1 else 0)) as Hcost.
  { destruct HT as [T1 T2]. specialize (T1 bn Hbn). unfold NDIRECT. f_equal.
    - destruct (decide (addr_of V x bn = 0)), (decide (n mod 512 = 0)); try done; exfalso; subst bn; zlia.
    - destruct (decide ((12 <= bn)%nat /\ ind_of x = 0)), (decide ((12 <= bn)%nat /\ n <= 6144)); try done; exfalso; lia. }
  wp_step. apply (wp_file_block s V); [done|done|done|lia|]. intros s1 V1 x1 k Hv1 Hb Hf1 Hfi1.
  pose proof (hb_grown _ _ _ _ _ _ Hb) as Hg. pose proof (ex_ok _ _ _ _ _ Hg) as Hok1. pose proof (hb_there _ _ _ _ _ _ Hb) as Hnz.
  pose proof (ino_addr_bounds V1 x1 bn Hok1 Hbn Hnz) as Hab. destruct (io_used _ _ _ Hok1 bn Hbn Hnz) as [_ Hu1].
  pose proof (used_below s1 V1 (addr_of V1 x1 bn) Hv1 ltac:(lia) Hu1) as Hbelow.
  assert (length (V1 (addr_of V1 x1 bn)) = BSIZE) as Hl1 by (apply (v_size _ _ Hv1); lia).
  wp_step. apply (wp_rsect _ s1 V1); [done|lia|lia|]. wp_step. eapply wp_wsect; [exact Hv1|lia|lia| |].
  { rewrite splice_length; [done|]. rewrite Hl1. unfold BSIZE. zlia. }
  intros s2 Hv2 Hf2 Hfi2. pose proof (hb_taken _ _ _ _ _ _ Hb) as Hk.
  assert (file_written E V x n src (vset V1 (addr_of V1 x1 bn) (splice (V1 (addr_of V1 x1 bn)) (Z.to_nat (n mod 512)) src)) x1) as Hw.
  { eapply grown_written; [auto|done|lia|lia|exact Hg|]. eapply chunk_written; [auto|done|apply (ex_meta _ _ _ _ _ Hg)|lia|lia|lia|done|done|done]. }
  eapply HQ; [exact Hv2|apply Hw| |lia|congruence]. constructor.
  - apply (ex_ok _ _ _ _ _ (fw_ext _ _ _ _ _ _ _ Hw)).
  - rewrite length_app. lia.
  - rewrite length_app, Nat2Z.inj_add. eapply tight_after; [exact HT|lia|lia|done|done|done|exact Hb|]. intros c Hc. apply (own_addr E); (done || auto).
  - intros i Hi. rewrite (fw_content _ _ _ _ _ _ _ Hw) by done. apply nth_patched; [lia|]. by apply Hd.
Qed.

Lemma cost_mono n m : 0 <= n <= m -> 0 <= cost n <= cost m.
Proof. intros H. unfold cost. destruct (Z.ltb_spec 6144 n), (Z.ltb_spec 6144 m); zlia. Qed.

Lemma wp_iappend_loop fuel : forall p data s V x (Q : dinode * Z -> mkfs_t -> Prop),
  let n := Z.of_nat (length data) in let m := Z.of_nat (length p) in
  sees s V -> filed V x data -> (length p <= fuel)%nat -> n + m <= MAXFILE * Z.of_nat BSIZE ->
  freeblock s + (cost (n + m) - cost n) <= 1000 ->
  (forall s' V' x', sees s' V' -> extended E V x V' x' -> filed V' x' (data ++ p) -> freeblock s' = freeblock s + (cost (n + m) - cost n) ->
     freeinode s' = freeinode s -> Q (dinode_of x', n + m) s') ->
  wp (iappend_loop fuel (dinode_of x) n p) Q s.
Proof.
  induction fuel as [|fuel IH]; intros p data s V x Q n m Hv Hfd Hf Hmax Hroom HQ.
  all: destruct (decide (p = [])) as [->|Hne].
  1,3: cbn [iappend_loop]; wp_step; subst m; cbn [length] in *; rewrite Z.add_0_r in *;
    apply (HQ s V x); [done|apply grown_refl; [apply Hfd|by apply (sees_meta s)]|by rewrite app_nil_r|lia|done].
  { destruct p; [done|cbn in Hf; lia]. }
  assert (0 < m) as Hm by (subst m; destruct p; [done|cbn; lia]). assert (0 <= n) as Hn by lia.
  set (n1 := Z.to_nat (Z.min m ((n / Z.of_nat BSIZE + 1) * Z.of_nat BSIZE - n))).
  assert (0 < Z.of_nat n1 <= m /\ n mod 512 + Z.of_nat n1 <= 512) as [Hn1 Hfit] by (subst n1; unfold BSIZE; zlia).
  assert (length (take n1 p) = n1) as Ht by (rewrite length_take; lia).
  assert (length (drop n1 p) = length p - n1)%nat as Hdr by apply length_drop.
  assert (iappend_loop (S fuel) (dinode_of x) n p =
    (if negb (n / 512 <? MAXFILE) then panic "assert" else
     r <- file_block (dinode_of x) (n / 512) ;;
     let (din, b) := (r : dinode * Z) in
     buf <- rsect b ;;
     wsect b (splice buf (Z.to_nat (n mod 512)) (take n1 p)) ;;;
     iappend_loop fuel din (n + Z.of_nat n1) (drop n1 p))) as ->.
  { destruct p; [done|]. cbn [iappend_loop]. replace (n - n / Z.of_nat BSIZE * Z.of_nat BSIZE) with (n mod 512) by (unfold BSIZE; zlia). done. }
  rewrite (proj2 (Z.ltb_lt _ _)) by (unfold MAXFILE, BSIZE in *; zlia). cbn [negb].
  pose proof (cost_mono (n + Z.of_nat n1) (n + m) ltac:(lia)) as Hc. pose proof (cost_mono n (n + Z.of_nat n1) ltac:(lia)) as Hc'.
  apply (wp_append_piece s V x data (take n1 p) (fun din => iappend_loop fuel din (n + Z.of_nat n1) (drop n1 p)));
    rewrite ?Ht; [done|done|lia|done|lia|fold n; lia|].
  intros s1 V1 x1 Hv1 He1 Hfd1 Hfr1 Hfi1. fold n in Hfr1.
  assert (Z.of_nat (length (data ++ take n1 p)) = n + Z.of_nat n1) as Hlen by (rewrite length_app, Ht; lia).
  rewrite <- Hlen. apply (IH (drop n1 p) (data ++ take n1 p) s1 V1); [done|done|lia|lia| |]; rewrite Hlen, Hdr;
    replace (n + Z.of_nat n1 + Z.of_nat (length p - n1)) with (n + m) by lia; [lia|].
  intros s2 V2 x2 Hv2 He2 Hfd2 Hfr2 Hfi2. rewrite <- app_assoc, take_drop in Hfd2.
  apply (HQ s2 V2 x2); [done|eapply extended_trans; [auto|exact He1|exact He2]|done|lia|congruence].
Qed.

(** ** Inodes on the disk *)
Definition blank_inode (n : Z) : inode := mk_inode 1 n 0 (mk_slock false 0) true 0 0 0 0 0 [].
Definition ino (V : Z -> block) (n : Z) : inode :=
  load_dinode (decode_dinode (V (IBLOCK n mkfs_sb)) (dinode_off n)) (blank_inode n).
Lemma dinode_of_ino V n : dinode_of (ino V n) = decode_dinode (V (IBLOCK n mkfs_sb)) (dinode_off n).
Proof. done. Qed.
(** Nothing but what is on the disk. *)
Definition plain_inode (x : inode) : Prop := load_dinode (dinode_of x) (blank_inode (i_inum x)) = x.

Lemma wp_winode s V x (Q : unit -> mkfs_t -> Prop) : sees s V -> inum_ok E x -> length (i_addrs x) = S NDIRECT ->
  (forall s', sees s' (with_dinode E V x) -> freeblock s' = freeblock s -> freeinode s' = freeinode s -> Q tt s') ->
  wp (winode (i_inum x) (dinode_of x)) Q s.
Proof.
  intros Hv Hi Hl HQ. unfold inum_ok in Hi. rewrite Hsb in Hi. pose proof (mkfs_iblock _ Hi) as Hb. pose proof (v_range _ _ Hv).
  unfold winode. cbv zeta. wp_step. apply (wp_rsect _ s V); [done|lia|lia|]. eapply wp_wsect; [exact Hv|lia|lia| |].
  { rewrite splice_length; [apply (v_size _ _ Hv); lia|]. rewrite encode_dinode_length, (v_size _ _ Hv) by (done || lia). apply dinode_off_fits. }
  intros s' Hv' Hf Hfi. apply HQ; [|done|done]. unfold with_dinode. by rewrite Hsb.
Qed.

Lemma wp_rinode s V n (Q : dinode -> mkfs_t -> Prop) : sees s V -> 0 <= n < 200 -> Q (dinode_of (ino V n)) s -> wp (rinode n) Q s.
Proof.
  intros Hv Hn HQ. unfold rinode. pose proof (mkfs_iblock n Hn). wp_step. apply (wp_rsect _ s V); [done|lia|lia|]. wp_step. by rewrite dinode_of_ino in HQ.
Qed.

Lemma ino_written V x : plain_inode x -> dinode_ok (dinode_of x) -> inum_ok E x -> length (V (IBLOCK (i_inum x) mkfs_sb)) = BSIZE ->
  ino (with_dinode E V x) (i_inum x) = x.
Proof.
  intros Hp Hd Hi Hl. unfold ino, with_dinode. rewrite Hsb, vset_eq, decode_encode; [done|done|]. rewrite Hl. apply dinode_off_fits.
Qed.
Lemma ino_other V x n : inum_ok E x -> 0 <= n < 200 -> n <> i_inum x -> length (i_addrs x) = S NDIRECT ->
  length (V (IBLOCK (i_inum x) mkfs_sb)) = BSIZE -> ino (with_dinode E V x) n = ino V n.
Proof.
  intros Hi Hn Hne Hl Hlen. unfold ino. f_equal. pose proof (with_dinode_decode E V x n mkfs_layout Hi) as H. rewrite Hsb in H. by apply H.
Qed.

(** ** Files that do not share blocks *)
Definition owns (V : Z -> block) (x : inode) (b : Z) : Prop :=
  b <> 0 /\ (b = ind_of x \/ exists bn, (bn < MAXBN)%nat /\ addr_of V x bn = b).
Definition apart (V : Z -> block) (x y : inode) : Prop := forall b, owns V x b -> ~ owns V y b.
Lemma apart_sym V x y : apart V x y -> apart V y x.
Proof. intros H b Hy Hx. by eapply H. Qed.

Lemma owns_used V y b : ino_ok E V y -> owns V y b -> data_block E b /\ used (e_sb E) V b = true.
Proof. intros Hok [Hb [->|(bn & Hbn & <-)]]; [by apply Hok|by apply Hok]. Qed.

Section Other.
Context (V : Z -> block) (x : inode) (V1 : Z -> block) (x1 y : inode).
Hypothesis (Hx : ino_ok E V x) (Hy : ino_ok E V y) (Hap : apart V y x) (He : extended E V x V1 x1).

Lemma other_block b : owns V y b -> V1 b = V b.
Proof.
  intros Ho. destruct (owns_used V y b Hy Ho) as [Hd Hu]. pose proof (Hap b Ho) as Hno. destruct Ho as [Hb _].
  apply (ex_frame _ _ _ _ _ He); [by right| |done|].
  - intros ->. apply Hno. by split; [|left].
  - intros bn Hbn Heq. apply Hno. split; [done|]. right. by exists bn.
Qed.
Lemma other_addr bn : addr_of V1 y bn = addr_of V y bn.
Proof.
  unfold addr_of. destruct (bn <? NDIRECT)%nat; [done|]. destruct (Z.eqb_spec (ind_of y) 0) as [|Hi]; [done|].
  rewrite other_block; [done|]. by split; [|left].
Qed.
Lemma other_owns b : owns V1 y b <-> owns V y b.
Proof. unfold owns. by setoid_rewrite other_addr. Qed.
Lemma other_ok : ino_ok E V1 y.
Proof.
  assert (forall b, owns V y b -> used (e_sb E) V1 b = true) as Hu.
  { intros b Ho. destruct (owns_used V y b Hy Ho) as [Hd Hub]. apply (ex_used _ _ _ _ _ He); [|done]. by eapply data_block_used. }
  pose proof Hy as [H1 H2 H3 H4 H5 H6]. split; [done|done| | | |].
  - intros Hi. split; [by apply H3|]. apply Hu. by split; [|left].
  - intros bn Hbn. rewrite other_addr. intros Hn. split; [by apply H4|]. apply Hu. split; [done|]. right. by exists bn.
  - intros bn bn'. rewrite !other_addr. apply H5.
  - intros bn. rewrite other_addr. apply H6.
Qed.
Lemma other_filed data : filed V y data -> filed V1 y data.
Proof.
  intros [F1 F2 [T1 T2] F4]. constructor; [apply other_ok|done|split; [|done]|].
  - intros bn Hbn. rewrite other_addr. by apply T1.
  - intros i Hi. rewrite <- F4 by done. unfold content. rewrite other_addr. destruct (Z.eqb_spec (addr_of V y (Z.to_nat (i / Z.of_nat BSIZE))) 0) as [|Hn]; [done|].
    rewrite other_block; [done|]. split; [done|]. right. eexists. split; [by apply block_index|done].
Qed.
(** The blocks the file has got were free. *)
Lemma other_apart : apart V1 y x1.
Proof.
  intros b Ho [Hb Hb1]. apply other_owns in Ho. destruct (owns_used V y b Hy Ho) as [_ Hu]. apply (Hap b Ho). split; [done|].
  destruct Hb1 as [->|(bn & Hbn & Heq)].
  - left. destruct (decide (ind_of x = 0)) as [H0|H0]; [|by apply (ex_ind _ _ _ _ _ He)].
    rewrite (ex_ind_new _ _ _ _ _ He) in Hu; done.
  - right. exists bn. split; [done|]. destruct (decide (addr_of V x bn = 0)) as [H0|H0].
    + rewrite <- Heq, (ex_new _ _ _ _ _ He) in Hu; [done|done|done|congruence].
    + by rewrite <- Heq, (ex_addr _ _ _ _ _ He).
Qed.
End Other.

(** Writing an inode does not touch the files. *)
Lemma table_filed V x y data : inum_ok E x -> filed V y data -> filed (with_dinode E V x) y data.
Proof.
  intros Hi [F1 F2 [T1 T2] F4]. constructor; [by apply with_dinode_ok|done|split; [|done]|].
  - intros bn Hbn. rewrite with_dinode_addr by done. by apply T1.
  - intros i Hr. rewrite with_dinode_content by done. by apply F4.
Qed.
Lemma table_owns V x y b : inum_ok E x -> ino_ok E V y -> owns (with_dinode E V x) y b <-> owns V y b.
Proof.
  intros Hi Hok. unfold owns. split; intros [Hb H]; (split; [done|]); (destruct H as [H|(bn & Hbn & H)]; [by left|right; exists bn; split; [done|]]).
  - by rewrite with_dinode_addr in H.
  - by rewrite with_dinode_addr.
Qed.
Lemma table_apart V x y z : inum_ok E x -> ino_ok E V y -> ino_ok E V z -> apart V y z -> apart (with_dinode E V x) y z.
Proof. intros Hi Hy Hz Hap b H1 H2. rewrite table_owns in H1, H2 by done. by eapply Hap. Qed.

(** ** The files built so far

    File [i] is inode [1 + i]. *)
Record file_at (V : Z -> block) (n : Z) (ty size : Z) (data : list Z) : Prop := {
  fa_filed : filed V (ino V n) data;
  fa_size : i_size (ino V n) = size;
  fa_type : i_type (ino V n) = ty;
  fa_nlink : i_nlink (ino V n) = 1;
  fa_fields : dinode_ok (dinode_of (ino V n));
}.
Definition files_cost (F : list (Z * list Z)) : Z := foldr (fun f z => cost (Z.of_nat (length (snd f))) + z) 0 F.

Record built (s : mkfs_t) (V : Z -> block) (F : list (Z * list Z)) : Prop := {
  bu_sees : sees s V;
  bu_count : freeinode s = 1 + Z.of_nat (length F) /\ freeinode s <= 200;
  bu_blocks : freeblock s = 59 + files_cost F;
  bu_file : forall i f, F !! i = Some f -> file_at V (1 + Z.of_nat i) (fst f) (Z.of_nat (length (snd f))) (snd f);
  bu_apart : forall i j, (i < length F)%nat -> (j < length F)%nat -> i <> j -> apart V (ino V (1 + Z.of_nat i)) (ino V (1 + Z.of_nat j));
  bu_none : forall n, 0 <= n < 200 -> n = 0 \/ Z.of_nat (length F) < n -> i_type (ino V n) = 0;
  bu_super : V 1 = splice zeroes 0 (encode_sb mkfs_sb);
  bu_log : forall b, 2 <= b < 32 -> V b = zeroes;
}.

Lemma plain_ino V n : plain_inode (ino V n).
Proof. unfold plain_inode, ino. by destruct (decode_dinode _ _). Qed.
Lemma ino_inum V n : i_inum (ino V n) = n.
Proof. done. Qed.

Lemma files_cost_insert F i f ty d : F !! i = Some f -> files_cost (<[i := (ty, d)]> F) = files_cost F + cost (Z.of_nat (length d)) - cost (Z.of_nat (length (snd f))).
Proof.
  revert i. induction F as [|g F IH]; intros i Hi; [done|]. destruct i as [|i]; cbn in Hi.
  - injection Hi as ->. cbn. lia.
  - change (<[S i := (ty, d)]> (g :: F)) with (g :: <[i := (ty, d)]> F). cbn [files_cost foldr]. fold (files_cost F). fold (files_cost (<[i := (ty, d)]> F)). rewrite (IH i) by done. lia.
Qed.
Lemma files_cost_snoc F f : files_cost (F ++ [f]) = files_cost F + cost (Z.of_nat (length (snd f))).
Proof. induction F as [|g F IH]; cbn; [lia|]. fold (files_cost (F ++ [f])). fold (files_cost F). rewrite IH. lia. Qed.

(** The blocks before the inodes are not touched. *)
Lemma table_meta V x b : inum_ok E x -> b < 32 -> with_dinode E V x b = V b.
Proof. intros Hi Hb. unfold inum_ok in Hi. rewrite Hsb in Hi. pose proof (mkfs_iblock _ Hi). unfold with_dinode. rewrite Hsb. apply vset_ne. lia. Qed.
Lemma extended_meta V x V1 x1 b : ino_ok E V x -> extended E V x V1 x1 -> 1 <= b < 58 -> V1 b = V b.
Proof.
  intros Hx He Hb. apply (ex_frame _ _ _ _ _ He); [left; rewrite Hsb; apply Hb| | |].
  - intros ->. pose proof (ino_ind_bounds V x Hx ltac:(lia)). lia.
  - rewrite mkfs_data. lia.
  - intros bn Hbn Heq. pose proof (ino_addr_bounds V x bn Hx Hbn ltac:(lia)). lia.
Qed.
Lemma extended_ino V x V1 x1 n : ino_ok E V x -> extended E V x V1 x1 -> 0 <= n < 200 -> ino V1 n = ino V n.
Proof. intros Hx He Hn. pose proof (mkfs_iblock n Hn). unfold ino. rewrite (extended_meta V x V1 x1); [done..|lia]. Qed.

(** File [i] has been extended from [x] to [x1] and its inode written as [x2]. *)
Section Update.
Context (s s' : mkfs_t) (V V1 : Z -> block) (F : list (Z * list Z)) (i : nat) (ty : Z) (old data : list Z) (x1 : inode).
Hypothesis Hb : built s V F.
Hypothesis Hi : F !! i = Some (ty, old).
Local Abbreviation n := (1 + Z.of_nat i).
Hypothesis He : extended E V (ino V n) V1 x1.
Hypothesis Hf1 : filed V1 x1 data.
Local Abbreviation x2 := (set_i_size (Z.of_nat (length data)) x1).
Local Abbreviation V2 := (with_dinode E V1 x2).
Hypothesis Hv2 : sees s' V2.
Hypothesis Hlen1 : forall b, 0 <= b < 1000 -> length (V1 b) = BSIZE.
Hypothesis Hfb : freeblock s' = freeblock s + (cost (Z.of_nat (length data)) - cost (Z.of_nat (length old))).
Hypothesis Hfi : freeinode s' = freeinode s.

Lemma up_index j : (j < length F)%nat -> 0 <= 1 + Z.of_nat j < 200.
Proof. destruct (bu_count _ _ _ Hb). lia. Qed.
Lemma up_i : (i < length F)%nat.
Proof. by eapply lookup_lt_Some. Qed.
Lemma up_same : x2 = set_i_size (Z.of_nat (length data)) (set_i_addrs (i_addrs x1) (ino V n)).
Proof. f_equal. exact (ex_same _ _ _ _ _ He). Qed.
Lemma up_inum : inum_ok E x2.
Proof. unfold inum_ok. rewrite up_same, Hsb. cbn. apply up_index, up_i. Qed.
Lemma up_fields : dinode_ok (dinode_of x2).
Proof.
  pose proof (bu_file _ _ _ Hb i _ Hi) as [_ _ _ _ [D1 D2 D3]]. pose proof (fd_max _ _ _ Hf1) as Hm. pose proof (fd_ok _ _ _ Hf1) as Hok.
  rewrite up_same. constructor; cbn [dinode_of di_type di_major di_minor di_nlink di_size di_addrs set_i_size set_i_addrs i_type i_major i_minor i_nlink i_size i_addrs].
  - exact D1.
  - unfold is_u32, MAXFILE, BSIZE in *. rewrite pow2_32. lia.
  - split; [apply Hok|]. apply Forall_lookup. intros k a Hk. unfold is_u32. rewrite pow2_32. destruct (decide (a = 0)) as [->|Ha]; [lia|].
    assert (k < S NDIRECT)%nat as Hlt by (rewrite <- (io_len _ _ _ Hok); by eapply lookup_lt_Some).
    assert (nth k (i_addrs x1) 0 = a) as Hnth by (by rewrite nth_lookup, Hk).
    destruct (decide (k = NDIRECT)) as [->|Hne].
    + pose proof (ino_ind_bounds V1 x1 Hok) as Hbd. unfold ind_of in Hbd. rewrite Hnth in Hbd. specialize (Hbd Ha). lia.
    + assert (addr_of V1 x1 k = a) as Haddr by (unfold addr_of; rewrite (proj2 (Nat.ltb_lt _ _)) by lia; done).
      pose proof (ino_addr_bounds V1 x1 k Hok ltac:(unfold MAXBN; lia)) as Hbd. rewrite Haddr in Hbd. specialize (Hbd Ha). lia.
Qed.
Lemma up_len : length (V1 (IBLOCK (i_inum x2) mkfs_sb)) = BSIZE.
Proof. apply Hlen1. pose proof up_inum as Hk. unfold inum_ok in Hk. rewrite Hsb in Hk. pose proof (mkfs_iblock _ Hk). lia. Qed.
Lemma up_ino : ino V2 n = x2.
Proof.
  assert (i_inum x2 = n) as Hn by (by rewrite up_same). rewrite <- Hn at 1. apply ino_written; [|apply up_fields|apply up_inum|apply up_len].
  rewrite up_same. unfold plain_inode, ino. by destruct (decode_dinode _ _).
Qed.
Lemma up_ino_other m : 0 <= m < 200 -> m <> n -> ino V2 m = ino V m.
Proof.
  intros Hm Hne. rewrite ino_other; [|apply up_inum|done|by rewrite up_same|apply (fd_ok _ _ _ Hf1)|apply up_len].
  eapply extended_ino; [|exact He|done]. apply (bu_file _ _ _ Hb i _ Hi).
Qed.
Lemma up_filed : filed V2 x2 data.
Proof. apply table_filed; [apply up_inum|]. destruct Hf1 as [G1 G2 G3 G4]. constructor; [by apply ino_ok_resize|done|done|done]. Qed.
Lemma up_x_ok : ino_ok E V (ino V n).
Proof. apply (bu_file _ _ _ Hb i _ Hi). Qed.

Lemma up_other j f : j <> i -> F !! j = Some f -> filed V1 (ino V (1 + Z.of_nat j)) (snd f) /\ apart V1 (ino V (1 + Z.of_nat j)) x1.
Proof.
  intros Hne Hj. pose proof (bu_file _ _ _ Hb j _ Hj) as Hfa. assert (j < length F)%nat as Hlt by (by eapply lookup_lt_Some).
  assert (apart V (ino V (1 + Z.of_nat j)) (ino V n)) as Hap by (by apply (bu_apart _ _ _ Hb); [|apply up_i|]).
  split; [eapply other_filed; [apply Hfa|exact Hap|exact He|apply Hfa]|eapply other_apart; [apply Hfa|exact Hap|exact He]].
Qed.

Lemma up_owns j f b : j <> i -> F !! j = Some f -> owns V1 (ino V (1 + Z.of_nat j)) b -> owns V (ino V (1 + Z.of_nat j)) b.
Proof.
  intros Hne Hj Ho. assert (j < length F)%nat as Hlt by (by eapply lookup_lt_Some).
  apply (other_owns V (ino V n) V1 x1); [apply (bu_file _ _ _ Hb j _ Hj)|by apply (bu_apart _ _ _ Hb); [|apply up_i|]|exact He|done].
Qed.

Lemma built_update : built s' V2 (<[i := (ty, data)]> F).
Proof.
  assert (forall m, (m < length F)%nat -> m <> i -> ino V2 (1 + Z.of_nat m) = ino V (1 + Z.of_nat m)) as Hino.
  { intros m Hm Hne. apply up_ino_other; [by apply up_index|lia]. }
  constructor.
  - done.
  - rewrite length_insert, Hfi. apply Hb.
  - rewrite Hfb, (bu_blocks _ _ _ Hb), (files_cost_insert _ _ _ _ _ Hi). cbn [snd]. lia.
  - intros j f Hj. destruct (decide (j = i)) as [->|Hne].
    + rewrite list_lookup_insert_eq in Hj by apply up_i. injection Hj as <-. cbn [fst snd].
      pose proof (bu_file _ _ _ Hb i _ Hi) as [_ _ D3 D4 _]. constructor; rewrite up_ino; [apply up_filed|done|by rewrite up_same|by rewrite up_same|apply up_fields].
    + rewrite list_lookup_insert_ne in Hj by done. pose proof (bu_file _ _ _ Hb j _ Hj) as [D1 D2 D3 D4 D5].
      assert (j < length F)%nat as Hlt by (by eapply lookup_lt_Some). constructor; rewrite Hino by done; [|done..].
      apply table_filed; [apply up_inum|]. by apply (up_other j f).
  - rewrite length_insert. assert (forall j, (j < length F)%nat -> j <> i -> apart V2 (ino V2 (1 + Z.of_nat j)) (ino V2 n)) as Hap.
    { intros j Hlt Hne. destruct (lookup_lt_is_Some_2 F j Hlt) as [f Hj]. destruct (up_other j f Hne Hj) as [Hfj Haj]. rewrite Hino, up_ino by done.
      apply table_apart; [apply up_inum|apply Hfj|apply ino_ok_resize, Hf1|]. exact Haj. }
    intros j k Hlj Hlk Hjk. destruct (decide (k = i)) as [->|Hki]; [by apply Hap|]. destruct (decide (j = i)) as [->|Hji]; [by apply apart_sym, Hap|].
    rewrite !Hino by done. destruct (lookup_lt_is_Some_2 F j Hlj) as [f Hj]. destruct (lookup_lt_is_Some_2 F k Hlk) as [g Hk].
    destruct (up_other j f Hji Hj) as [Fj _]. destruct (up_other k g Hki Hk) as [Fk _]. apply table_apart; [apply up_inum|apply Fj|apply Fk|].
    intros b B1 B2. apply (bu_apart _ _ _ Hb j k Hlj Hlk Hjk b); by eapply up_owns.
  - rewrite length_insert. intros m Hm Hout. rewrite up_ino_other; [by apply (bu_none _ _ _ Hb)|done|]. pose proof up_i. lia.
  - rewrite table_meta, (extended_meta V _ _ _ _ up_x_ok He) by (apply up_inum || lia). apply Hb.
  - intros b Hr. rewrite table_meta, (extended_meta V _ _ _ _ up_x_ok He) by (apply up_inum || lia). by apply (bu_log _ _ _ Hb).
Qed.
End Update.

Lemma wp_iappend s V F i ty old p (Q : unit -> mkfs_t -> Prop) : built s V F -> F !! i = Some (ty, old) ->
  Z.of_nat (length (old ++ p)) <= MAXFILE * Z.of_nat BSIZE -> 59 + files_cost (<[i := (ty, old ++ p)]> F) <= 1000 ->
  (forall s' V', built s' V' (<[i := (ty, old ++ p)]> F) -> Q tt s') -> wp (iappend (1 + Z.of_nat i) p) Q s.
Proof.
  intros Hb Hi Hmax Hroom HQ. pose proof (bu_file _ _ _ Hb i _ Hi) as Hfa. cbn [fst snd] in Hfa. rewrite (files_cost_insert _ _ _ _ _ Hi) in Hroom. cbn [snd] in Hroom.
  assert (i < length F)%nat as Hlt by (by eapply lookup_lt_Some). destruct (bu_count _ _ _ Hb) as [Hc1 Hc2]. rewrite length_app, Nat2Z.inj_add in *.
  unfold iappend. wp_step. apply (wp_rinode s V); [apply Hb|lia|]. change (di_size (dinode_of (ino V (1 + Z.of_nat i)))) with (i_size (ino V (1 + Z.of_nat i))).
  rewrite (fa_size _ _ _ _ _ Hfa). wp_step.
  apply (wp_iappend_loop _ p old s V); [apply Hb|apply Hfa|done|lia|rewrite (bu_blocks _ _ _ Hb); lia|].
  intros s1 V1 x1 Hv1 He Hf1 Hfr Hfi. set (x2 := set_i_size (Z.of_nat (length (old ++ p))) x1).
  assert (Z.of_nat (length old) + Z.of_nat (length p) = Z.of_nat (length (old ++ p))) as Hlen by (rewrite length_app; lia). rewrite Hlen in *.
  change (set_di_size (Z.of_nat (length (old ++ p))) (dinode_of x1)) with (dinode_of x2).
  assert (i_inum x2 = 1 + Z.of_nat i) as Hn by (subst x2; by rewrite (up_same V V1 i (old ++ p) x1 He)). rewrite <- Hn.
  apply (wp_winode s1 V1); [done|by eapply up_inum|apply (fd_ok _ _ _ Hf1)|]. intros s2 Hv2 Hf2 Hfi2.
  apply (HQ s2 (with_dinode E V1 x2)). eapply built_update; [exact Hb|exact Hi|exact He|done|exact Hv2|apply Hv1|lia|congruence].
Qed.

(** A new file has no blocks. *)
Definition new_inode (ty n : Z) : inode := load_dinode (mk_dinode ty 0 0 1 0 (replicate (S NDIRECT) 0)) (blank_inode n).
Lemma new_addr V ty n bn : addr_of V (new_inode ty n) bn = 0.
Proof. unfold addr_of, ind_of, new_inode. cbn [load_dinode i_addrs di_addrs]. rewrite !nth_replicate. by destruct (bn <? NDIRECT)%nat. Qed.
Lemma new_filed V ty n : filed V (new_inode ty n) [].
Proof.
  constructor; [|unfold MAXFILE, BSIZE; cbn; lia| |].
  - split; [done|done| | | |]; intros; rewrite ?new_addr in *; done.
  - split; [intros bn _; rewrite new_addr; cbn; lia|]. cbn. lia.
  - intros i Hi. unfold content. rewrite new_addr. cbn. by destruct (Z.to_nat i).
Qed.
Lemma new_owns V ty n b : ~ owns V (new_inode ty n) b.
Proof. intros [Hb [->|(bn & _ & <-)]]; [done|]. by rewrite new_addr in Hb. Qed.

Lemma wp_mk_ialloc s V F ty (Q : Z -> mkfs_t -> Prop) : built s V F -> 1 + Z.of_nat (length F) < 200 -> is_i16 ty ->
  (forall s' V', built s' V' (F ++ [(ty, [])]) -> Q (1 + Z.of_nat (length F)) s') -> wp (mk_ialloc ty) Q s.
Proof.
  intros Hb Hn Hty HQ. destruct (bu_count _ _ _ Hb) as [Hc1 Hc2]. unfold mk_ialloc. wp_step. wp_step. wp_step. wp_step. rewrite Hc1.
  set (n := 1 + Z.of_nat (length F)) in *. rewrite u32_small by (rewrite pow2_32; lia). pose proof (bu_sees _ _ _ Hb) as Hv.
  assert (sees (set_freeinode (n + 1) s) V) as Hv0 by (by destruct Hv). change (mk_dinode ty 0 0 1 0 _) with (dinode_of (new_inode ty n)). wp_step.
  assert (inum_ok E (new_inode ty n)) as Hi by (unfold inum_ok; rewrite Hsb; cbn [new_inode load_dinode blank_inode i_inum]; change (sb_ninodes mkfs_sb) with 200; lia).
  change n with (i_inum (new_inode ty n)) at 1. apply (wp_winode _ V); [done|done|done|]. intros s1 Hv1 Hf1 Hfi1. wp_step.
  apply (HQ s1 (with_dinode E V (new_inode ty n))). cbn [freeblock freeinode set_freeinode] in *.
  assert (dinode_ok (dinode_of (new_inode ty n))) as Hdok.
  { constructor; [split_and!; [done|..]; unfold is_i16; cbn; lia|unfold is_u32; rewrite pow2_32; cbn; lia|]. split; [done|].
    apply Forall_replicate. unfold is_u32. rewrite pow2_32. lia. }
  assert (length (V (IBLOCK n mkfs_sb)) = BSIZE) as Hl by (apply (v_size _ _ Hv); pose proof (mkfs_iblock n ltac:(lia)); lia).
  assert (ino (with_dinode E V (new_inode ty n)) n = new_inode ty n) as Hnew by (by apply (ino_written V (new_inode ty n))).
  assert (forall m, 0 <= m < 200 -> m <> n -> ino (with_dinode E V (new_inode ty n)) m = ino V m) as Hoth by (intros m Hm Hne; by apply ino_other).
  constructor; rewrite ?length_app; cbn [length].
  - done.
  - lia.
  - rewrite Hf1, (bu_blocks _ _ _ Hb), files_cost_snoc. change (cost (Z.of_nat (length (snd (ty, [] : list Z))))) with 0. lia.
  - intros i f Hf. apply lookup_app_Some in Hf as [Hf|[Hge Hf]].
    + assert (i < length F)%nat as Hlt by (by eapply lookup_lt_Some). pose proof (bu_file _ _ _ Hb i _ Hf) as [D1 D2 D3 D4 D5].
      constructor; rewrite Hoth by lia; [by apply table_filed|done..].
    + apply list_lookup_singleton_Some in Hf as [Hi0 <-]. replace (1 + Z.of_nat i) with n by lia. cbn [fst snd].
      constructor; rewrite Hnew; [apply new_filed|done..].
  - intros i j Hli Hlj Hij. destruct (decide (i = length F)) as [->|Hi1]; [fold n; rewrite Hnew; intros b Hb0; by apply new_owns in Hb0|].
    destruct (decide (j = length F)) as [->|Hj1]; [fold n; rewrite Hnew; intros b _ Hb0; by apply new_owns in Hb0|].
    rewrite !Hoth by lia. destruct (lookup_lt_is_Some_2 F i) as [f Hf]; [lia|]. destruct (lookup_lt_is_Some_2 F j) as [g Hg]; [lia|].
    apply table_apart; [done|apply (bu_file _ _ _ Hb i _ Hf)|apply (bu_file _ _ _ Hb j _ Hg)|]. apply (bu_apart _ _ _ Hb); (done || lia).
  - intros m Hm Hout. rewrite Hoth by lia. apply (bu_none _ _ _ Hb); [done|]. lia.
  - rewrite table_meta by (done || lia). apply Hb.
  - intros b Hr. rewrite table_meta by (done || lia). by apply (bu_log _ _ _ Hb).
Qed.

(** ** The empty file system *)
Lemma wp_zero_image n : forall s lo (Q : unit -> mkfs_t -> Prop), image s = replicate lo zeroes ->
  (forall s', image s' = replicate (lo + n) zeroes -> freeblock s' = freeblock s -> freeinode s' = freeinode s -> Q tt s') ->
  wp (for_range n lo (fun i => wsect (Z.of_nat i) zeroes)) Q s.
Proof.
  induction n as [|n IH]; intros s lo Q Hs HQ; cbn [for_range]; [wp_step; apply HQ; [by rewrite Nat.add_0_r|done|done]|].
  wp_step. unfold wsect. wp_step. apply IH; cbn [image set_image freeblock freeinode].
  - unfold write_at. rewrite Hs, length_replicate, Nat2Z.id, Nat.ltb_irrefl, Nat.sub_diag. by rewrite replicate_S_end.
  - intros s' H1 H2 H3. apply HQ; [by rewrite H1; f_equal; lia|done|done].
Qed.

Definition empty_disk : Z -> block := vset (vset (fun _ => zeroes) 1 (splice zeroes 0 (encode_sb mkfs_sb))) 58 (bitmap 59).

Lemma empty_ino n : 0 <= n < 200 -> i_type (ino empty_disk n) = 0.
Proof.
  intros Hn. pose proof (mkfs_iblock n Hn). unfold ino, empty_disk. rewrite !vset_ne by lia.
  cbn [load_dinode decode_dinode i_type di_type]. unfold get16, get8, zeroes. by rewrite !nth_replicate.
Qed.

Lemma empty_built s : image s = <[1%nat := splice zeroes 0 (encode_sb mkfs_sb)]> (replicate 1000 zeroes) -> freeblock s = 59 -> freeinode s = 1 ->
  built s empty_disk [].
Proof.
  intros Hs Hf Hi. constructor.
  - constructor; rewrite ?Hf.
    + by rewrite Hs, length_insert, length_replicate.
    + intros b Hb Hn. rewrite Hs. unfold empty_disk. rewrite (vset_ne _ 58) by done. destruct (decide (b = 1)) as [->|Hne].
      * rewrite vset_eq. apply list_lookup_insert_eq. rewrite length_replicate. lia.
      * rewrite vset_ne, list_lookup_insert_ne by (done || lia). apply lookup_replicate_2. lia.
    + intros b _. unfold empty_disk, vset. destruct (b =? 58); [apply bitmap_spec; lia|]. by destruct (b =? 1).
    + lia.
    + apply vset_eq.
    + intros b Hb. unfold empty_disk. by rewrite !vset_ne by lia.
  - rewrite Hi. cbn. lia.
  - done.
  - done.
  - cbn. lia.
  - intros n Hn _. by apply empty_ino.
  - done.
  - intros b Hb. unfold empty_disk. by rewrite !vset_ne by lia.
Qed.

(** ** Adding the files *)
Lemma files_cost_cons f F : files_cost (f :: F) = cost (Z.of_nat (length (snd f))) + files_cost F.
Proof. done. Qed.
Lemma files_cost_app F G : files_cost (F ++ G) = files_cost F + files_cost G.
Proof. induction F as [|f F IH]; cbn; [done|]. fold (files_cost (F ++ G)). fold (files_cost F). rewrite IH. lia. Qed.
Lemma files_cost_nonneg F : 0 <= files_cost F.
Proof. induction F as [|f F IH]; cbn; [done|]. fold (files_cost F). pose proof (cost_mono 0 (Z.of_nat (length (snd f))) ltac:(lia)). lia. Qed.

Lemma wp_append_pieces pieces : forall s V F i ty old (Q : unit -> mkfs_t -> Prop), built s V F -> F !! i = Some (ty, old) ->
  Z.of_nat (length (old ++ concat pieces)) <= MAXFILE * Z.of_nat BSIZE -> 59 + files_cost (<[i := (ty, old ++ concat pieces)]> F) <= 1000 ->
  (forall s' V', built s' V' (<[i := (ty, old ++ concat pieces)]> F) -> Q tt s') -> wp (append_pieces (1 + Z.of_nat i) pieces) Q s.
Proof.
  induction pieces as [|p pieces IH]; intros s V F i ty old Q Hb Hi Hmax Hroom HQ; cbn [append_pieces concat] in *.
  { wp_step. rewrite app_nil_r, list_insert_id in HQ by done. by apply (HQ s V). }
  assert (i < length F)%nat as Hlt by (by eapply lookup_lt_Some). rewrite (files_cost_insert _ _ _ _ _ Hi) in Hroom. rewrite app_assoc in *.
  rewrite length_app, Nat2Z.inj_add in Hmax, Hroom. cbn [snd] in Hroom.
  pose proof (cost_mono (Z.of_nat (length (old ++ p))) (Z.of_nat (length (old ++ p)) + Z.of_nat (length (concat pieces))) ltac:(lia)) as Hc.
  wp_step. eapply wp_iappend; [exact Hb|exact Hi|lia|rewrite (files_cost_insert _ _ _ _ _ Hi); cbn [snd]; lia|]. intros s1 V1 Hb1.
  eapply IH; [exact Hb1|by apply list_lookup_insert_eq|rewrite length_app, Nat2Z.inj_add; lia| |].
  - rewrite list_insert_insert_eq, (files_cost_insert _ _ _ _ _ Hi), length_app, Nat2Z.inj_add. cbn [snd]. lia.
  - rewrite list_insert_insert_eq. exact HQ.
Qed.

Definition pack (name : list Z) : list Z := default [] (strncpy (replicate DIRSIZ 0) (skip_underscore name ++ [0]) DIRSIZ).
Fixpoint file_entries (k : Z) (files : list (list Z * list (list Z))) : list (list Z) :=
  match files with
  | [] => []
  | (name, _) :: files' => dirent k (pack name) :: file_entries (k + 1) files'
  end.
Definition given (files : list (list Z * list (list Z))) : list (list Z * option (list (list Z))) := map (fun f => (fst f, Some (snd f))) files.
Definition contents (files : list (list Z * list (list Z))) : list (Z * list Z) := map (fun f => (T_FILE, concat (snd f))) files.

(** A file [mkfs] can take. *)
Record file_ok (f : list Z * list (list Z)) : Prop := {
  fo_slash : SLASH ∉ fst f;
  fo_bytes : bytes (fst f);
  fo_size : Z.of_nat (length (concat (snd f))) <= MAXFILE * Z.of_nat BSIZE;
}.
Lemma readable_nul n l : readable n (l ++ [0]).
Proof. revert l. induction n as [|n IH]; intros [|c l]; try done; [by left|]. right. apply IH. Qed.
Lemma pack_ok name : bytes name -> strncpy (replicate DIRSIZ 0) (skip_underscore name ++ [0]) DIRSIZ = Some (pack name) /\
  length (pack name) = DIRSIZ /\ bytes (pack name) /\ cstr DIRSIZ (pack name) = cstr DIRSIZ (skip_underscore name ++ [0]).
Proof.
  intros Hb. destruct (strncpy_name (skip_underscore name ++ [0])) as (nm & H1 & H2 & H3 & H4).
  - split; [|apply readable_nul]. apply Forall_app. split; [|by repeat constructor]. destruct name as [|c name]; [done|]. cbn [skip_underscore].
    apply Forall_cons in Hb as [? ?]. destruct (c =? 95); [done|by constructor].
  - unfold pack. rewrite H1. done.
Qed.
Lemma no_slash name : SLASH ∉ name -> existsb (Z.eqb SLASH) name = false.
Proof.
  intros H. apply not_true_is_false. intros (c & Hc & E0)%existsb_exists. apply Z.eqb_eq in E0 as <-. apply H. by apply list_elem_of_In.
Qed.

Lemma dirent_length n nm : length nm = DIRSIZ -> Z.of_nat (length (dirent n nm)) = 16.
Proof. intros H. unfold dirent. rewrite length_app, H. done. Qed.

Lemma wp_add_file s V root F f (Q : unit -> mkfs_t -> Prop) : built s V ((T_DIR, root) :: F) -> file_ok f -> Z.of_nat (length F) < 198 ->
  let root' := root ++ dirent (2 + Z.of_nat (length F)) (pack (fst f)) in
  Z.of_nat (length root') <= MAXFILE * Z.of_nat BSIZE -> 59 + files_cost ((T_DIR, root') :: F ++ [(T_FILE, concat (snd f))]) <= 1000 ->
  (forall s' V', built s' V' ((T_DIR, root') :: F ++ [(T_FILE, concat (snd f))]) -> Q tt s') -> wp (add_file 1 (fst f, Some (snd f))) Q s.
Proof.
  intros Hb [H1 H2 H3] Hn root' Hmax Hroom HQ. unfold add_file. rewrite no_slash by done. wp_step.
  eapply (wp_mk_ialloc s V ((T_DIR, root) :: F) T_FILE); [exact Hb|cbn [length]; lia|unfold is_i16; done|]. intros s1 V1 Hb1.
  destruct (pack_ok (fst f) H2) as (Hs & Hl & _). rewrite Hs. wp_step. rewrite files_cost_cons, files_cost_snoc in Hroom. cbn [snd] in Hroom.
  pose proof (cost_mono 0 (Z.of_nat (length (concat (snd f)))) ltac:(lia)) as Hc.
  replace (1 + Z.of_nat (length ((T_DIR, root) :: F))) with (2 + Z.of_nat (length F)) by (cbn [length]; lia).
  eapply (wp_iappend s1 V1 (((T_DIR, root) :: F) ++ [(T_FILE, [])]) 0); [exact Hb1|done|exact Hmax| |].
  { cbn [app]. change (<[0%nat:=_]> _) with ((T_DIR, root') :: F ++ [(T_FILE, [])]). rewrite files_cost_cons, files_cost_snoc. cbn [snd]. change (cost (Z.of_nat (length []))) with 0. lia. }
  intros s2 V2 Hb2. cbn [app] in Hb2. change (<[0%nat:=_]> _) with (((T_DIR, root') :: F) ++ [(T_FILE, [])]) in Hb2.
  replace (2 + Z.of_nat (length F)) with (1 + Z.of_nat (S (length F))) by lia.
  assert (<[S (length F) := (T_FILE, [] ++ concat (snd f))]> (((T_DIR, root') :: F) ++ [(T_FILE, [])]) =
    (T_DIR, root') :: F ++ [(T_FILE, concat (snd f))]) as Hins.
  { change ((T_DIR, root') :: <[length F := (T_FILE, concat (snd f))]> (F ++ [(T_FILE, [])]) = (T_DIR, root') :: F ++ [(T_FILE, concat (snd f))]).
    f_equal. rewrite insert_app_r_alt, Nat.sub_diag by lia. done. }
  eapply (wp_append_pieces (snd f) s2 V2 _ (S (length F)) T_FILE []); [exact Hb2| |exact H3| |].
  - rewrite lookup_app_r by (cbn; lia). cbn [length]. by rewrite Nat.sub_diag.
  - rewrite Hins, files_cost_cons, files_cost_snoc. cbn [snd]. lia.
  - rewrite Hins. intros s' V' Hb'. by apply (HQ s' V').
Qed.

Lemma wp_add_files files : forall s V root F (Q : unit -> mkfs_t -> Prop), built s V ((T_DIR, root) :: F) -> Forall file_ok files ->
  Z.of_nat (length F) + Z.of_nat (length files) <= 198 ->
  let root' := root ++ concat (file_entries (2 + Z.of_nat (length F)) files) in
  Z.of_nat (length root') <= MAXFILE * Z.of_nat BSIZE -> 59 + files_cost ((T_DIR, root') :: F ++ contents files) <= 1000 ->
  (forall s' V', built s' V' ((T_DIR, root') :: F ++ contents files) -> Q tt s') -> wp (add_files 1 (given files)) Q s.
Proof.
  induction files as [|f files IH]; intros s V root F Q Hb Hok Hn root' Hmax Hroom HQ; subst root'.
  { cbn [given contents map add_files file_entries concat] in *. wp_step. rewrite !app_nil_r in HQ. by apply (HQ s V). }
  apply Forall_cons in Hok as [Hf Hok]. destruct f as [name pieces]. cbn [given contents map fst snd add_files file_entries concat length] in *.
  change (map _ files) with (given files). change (map (fun f => (T_FILE, concat (snd f))) files) with (contents files) in *.
  replace (2 + Z.of_nat (length F) + 1) with (2 + Z.of_nat (length (F ++ [(T_FILE, concat pieces)]))) in * by (rewrite length_app; cbn; lia).
  rewrite app_assoc in *. rewrite (cons_middle _ F (contents files)), (app_assoc F) in Hroom, HQ. rewrite length_app in Hmax. wp_step.
  apply (wp_add_file s V root F (name, pieces)); [exact Hb|exact Hf|lia| | |].
  - cbn [fst]. lia.
  - cbn [fst snd]. rewrite files_cost_cons in Hroom |- *. cbn [snd] in *. rewrite files_cost_app in Hroom. pose proof (files_cost_nonneg (contents files)).
    match type of Hroom with context [cost (Z.of_nat (length (?r ++ ?e)))] =>
      pose proof (cost_mono (Z.of_nat (length r)) (Z.of_nat (length (r ++ e))) ltac:(rewrite (length_app r e); lia)) end. lia.
  - cbn [fst snd]. intros s1 V1 Hb1. eapply IH; [exact Hb1|done|rewrite length_app; cbn [length]; lia|rewrite length_app; lia|exact Hroom|exact HQ].
Qed.
End Image.
