(* ===== verification/MkfsImage.v ===== *)
(** * The image [mkfs.c] leaves behind

    The last steps of [mkfs] (the size of the root directory, the bitmap) and
    what the kernel finds on the disk: a superblock, an empty log, a root directory
    with one entry per file, and the files. *)
From Stdlib Require Import ZArith Lia Bool.
From stdpp Require Import base numbers list strings.
From S2P Require Import Prelude Machine Cstring FsState Bio BioInv Log LogInv LogTx Fs FsInode FsAlloc FsFile FsIo FsIoProps FsDir Mkfs MkfsProps.

(** The entries of the root directory. *)
Definition root_entries (files : list (list Z * list (list Z))) : list (list Z) :=
  dirent 1 (dot_name [46]) :: dirent 1 (dot_name [46; 46]) :: file_entries 2 files.
(** The blocks [mkfs] needs for the files and the root directory. *)
Definition blocks_needed (files : list (list Z * list (list Z))) : Z :=
  files_cost ((T_DIR, concat (root_entries files)) :: contents files).

Lemma file_entries_lookup files : forall k i f, files !! i = Some f -> file_entries k files !! i = Some (dirent (k + Z.of_nat i) (pack (fst f))).
Proof.
  induction files as [|[name pieces] files IH]; intros k [|i] f Hf; try done.
  - injection Hf as <-. cbn. by rewrite Z.add_0_r.
  - transitivity (file_entries (k + 1) files !! i); [done|]. rewrite (IH (k + 1) i f Hf). do 2 f_equal. lia.
Qed.
Lemma file_entries_ok files : forall k, Forall file_ok files -> 0 < k -> k + Z.of_nat (length files) < 65536 ->
  Forall (fun e => length e = 16%nat /\ bytes e) (file_entries k files) /\ length (file_entries k files) = length files.
Proof.
  induction files as [|[name pieces] files IH]; intros k Hok Hk Hn; [by split|]. apply Forall_cons in Hok as [Hf Hok]. cbn [file_entries length] in *.
  destruct (IH (k + 1) Hok) as [H1 H2]; [lia|lia|]. split; [|by rewrite H2]. constructor; [|done].
  destruct (pack_ok name (fo_bytes _ Hf)) as (_ & Hl & Hb & _). destruct (new_entry_ok k (pack name)) as (? & ? & _); [lia|done|done|done].
Qed.
Lemma root_entries_ok files : Forall file_ok files -> (length files <= 198)%nat ->
  Forall (fun e => length e = 16%nat /\ bytes e) (root_entries files) /\ length (root_entries files) = (2 + length files)%nat.
Proof.
  intros Hok Hn. destruct (file_entries_ok files 2 Hok) as [H1 H2]; [lia|lia|]. split; [|cbn; by rewrite H2].
  repeat (constructor; [split; [done|repeat constructor; done]|]). done.
Qed.

Lemma concat_length16 es : Forall (fun e : list Z => length e = 16%nat /\ bytes e) es -> length (concat es) = (16 * length es)%nat /\ bytes (concat es).
Proof.
  induction 1 as [|e es [H1 H2] _ [IH1 IH2]]; [by split; [|constructor]|]. cbn [concat]. rewrite length_app, IH1. split; [cbn; lia|by apply Forall_app].
Qed.
Lemma concat_entry es : forall j e, Forall (fun e : list Z => length e = 16%nat /\ bytes e) es -> es !! j = Some e ->
  take 16 (drop (16 * j) (concat es)) = e.
Proof.
  induction es as [|e0 es IH]; intros [|j] e Hes Hj; try done; apply Forall_cons in Hes as [[Hl Hb] Hes]; cbn [concat].
  - injection Hj as <-. rewrite Nat.mul_0_r, drop_0. by rewrite <- Hl, take_app_length.
  - replace (16 * S j)%nat with (length e0 + 16 * j)%nat by lia. rewrite drop_app_add. by apply IH.
Qed.

Section Image.
Context (E : fenv).
Hypothesis Hsb : e_sb E = mkfs_sb.
Hypothesis Hsize : e_size E = mkfs_size.

(** Part of a file whose contents are known. *)
Lemma filed_bytes V x data off n : filed E V x data -> 0 <= off -> 0 <= n -> off + n <= Z.of_nat (length data) ->
  bytes_at V x off n = take (Z.to_nat n) (drop (Z.to_nat off) data).
Proof.
  intros Hf Ho Hn Hle. pose proof (fd_max _ _ _ _ Hf). apply list_eq_same_length with (n := Z.to_nat n).
  - rewrite length_take, length_drop. lia.
  - apply bytes_at_length.
  - intros i a b Hi Ha Hb. rewrite bytes_at_lookup in Ha by done. injection Ha as <-. rewrite (fd_data _ _ _ _ Hf) by lia.
    rewrite lookup_take_lt, lookup_drop in Hb by done. replace (Z.to_nat (off + Z.of_nat i)) with (Z.to_nat off + i)%nat by lia.
    symmetry. by apply nth_lookup_Some with (d := 0) in Hb.
Qed.
Lemma filed_dense V x data : filed E V x data -> i_size x = Z.of_nat (length data) -> dense V x.
Proof.
  intros Hf Hs. pose proof (fd_max _ _ _ _ Hf). split; [lia|]. intros i Hi. apply (fd_tight _ _ _ _ Hf); [apply block_index; lia|].
  unfold BSIZE. zlia.
Qed.

(** What [filed] says does not depend on the size in the inode. *)
Lemma filed_size V x data n : filed E V x data -> filed E V (set_i_size n x) data.
Proof. by intros [[] ? [] ?]. Qed.
Lemma owns_size V x n b : owns V (set_i_size n x) b <-> owns V x b.
Proof. done. Qed.

(** ** The last steps *)
Definition rounded (n : Z) : Z := (n / Z.of_nat BSIZE + 1) * Z.of_nat BSIZE.
Definition holds_image (s : mkfs_t) (V : Z -> block) : Prop :=
  length (image s) = Z.to_nat mkfs_size /\ forall b, 0 <= b < mkfs_size -> image s !! Z.to_nat b = Some (V b).

Lemma wp_balloc s V (Q : unit -> mkfs_t -> Prop) : sees s V -> (forall s', holds_image s' V -> Q tt s') -> wp (used <- gets freeblock ;; mk_balloc used) Q s.
Proof.
  intros Hv HQ. pose proof (v_range _ _ Hv). pose proof (v_len _ _ Hv). wp_step. wp_step. unfold mk_balloc, BSIZE.
  destruct (Z.ltb_spec (freeblock s) (Z.of_nat 512 * 8)); [cbn [negb]|lia]. unfold wsect. wp_step. change (Z.to_nat (sb_bmapstart mkfs_sb)) with 58%nat.
  apply HQ. unfold holds_image. cbn [image set_image]. unfold write_at. destruct (Nat.ltb_spec 58 (length (image s))); [|lia]. rewrite length_insert. split; [done|].
  change mkfs_size with 1000. intros b Hb. destruct (decide (b = 58)) as [->|Hne].
  - rewrite (v_bitmap _ _ Hv). apply list_lookup_insert_eq. lia.
  - rewrite list_lookup_insert_ne by lia. by apply (v_block _ _ Hv).
Qed.

Lemma wp_fix_root s V root F (Q : unit -> mkfs_t -> Prop) : built E s V ((T_DIR, root) :: F) -> Z.of_nat (length root) < 2 ^ 31 ->
  (forall s', let V' := with_dinode E V (set_i_size (rounded (Z.of_nat (length root))) (ino V 1)) in sees s' V' -> freeblock s' = freeblock s -> Q tt s') ->
  wp (fix_root 1) Q s.
Proof.
  intros Hb Hr HQ. pose proof (bu_file _ _ _ _ Hb 0 _ eq_refl) as Hf. change (1 + Z.of_nat 0) with 1 in Hf. cbn [fst snd] in Hf.
  unfold fix_root. wp_step. eapply wp_rinode; [apply Hb|lia|]. change (di_size (dinode_of (ino V 1))) with (i_size (ino V 1)).
  rewrite (fa_size _ _ _ _ _ _ Hf). fold (rounded (Z.of_nat (length root))).
  set (x := set_i_size (rounded (Z.of_nat (length root))) (ino V 1)) in *. change (set_di_size _ _) with (dinode_of x).
  change 1 with (i_inum x) at 1. eapply (wp_winode E Hsb); [apply Hb| |apply (fd_ok _ _ _ _ (fa_filed _ _ _ _ _ _ Hf))|].
  - unfold inum_ok. rewrite Hsb. done.
  - intros s' H1 H2 _. by apply HQ.
Qed.

(** ** The empty file system, with its root directory *)
Lemma wp_mkfs_root (k : Z -> MK unit) Q :
  (forall s V, built E s V [(T_DIR, concat (root_entries []))] -> wp (k 1) Q s) ->
  wp (modify (set_freeblock nmeta) ;;;
      for_range (Z.to_nat mkfs_size) 0 (fun i => wsect (Z.of_nat i) zeroes) ;;;
      wsect 1 (splice zeroes 0 (encode_sb mkfs_sb)) ;;;
      rootino <- mk_ialloc T_DIR ;;
      if negb (rootino =? ROOTINO) then panic "assert"
      else
        iappend rootino (dirent rootino (dot_name [46])) ;;;
        iappend rootino (dirent rootino (dot_name [46; 46])) ;;; k rootino) Q mkfs_start.
Proof.
  intros Hk. wp_step. wp_step. wp_step. apply wp_zero_image; [done|]. intros s Hs Hf Hi. rewrite Nat.add_0_l in Hs. change (Z.to_nat mkfs_size) with 1000%nat in Hs.
  wp_step. unfold wsect at 1. wp_step. wp_step.
  eapply (wp_mk_ialloc E Hsb Hsize _ empty_disk []); [|done|unfold is_i16; done|].
  { apply empty_built; [cbn [image set_image]|done|done]. unfold write_at. rewrite Hs, length_replicate. done. }
  intros s1 V1 Hb1. change (1 + Z.of_nat (length [])) with 1. change (negb (1 =? ROOTINO)) with false. cbv iota.
  change ([] ++ [(T_DIR, [])]) with [(T_DIR, [] : list Z)] in Hb1.
  wp_step. apply (wp_iappend E Hsb Hsize s1 V1 _ 0 T_DIR [] _ _ Hb1); [done|done|done|]. intros s2 V2 Hb2.
  wp_step. apply (wp_iappend E Hsb Hsize s2 V2 _ 0 T_DIR (dirent 1 (dot_name [46])) _ _ Hb2); [done|done|done|]. intros s3 V3 Hb3. by apply (Hk s3 V3).
Qed.

(** ** What the kernel finds

    Inode 1 is the root directory, inode [2 + i] is file [i]. *)
Record kernel_image (V : Z -> block) (files : list (list Z * list (list Z))) : Prop := {
  ki_super : decode_sb (V 1) = e_sb E;
  ki_layout : layout E;
  ki_log : get32 (V (sb_logstart (e_sb E))) 0 = 0;
  ki_meta : meta_used E V;
  ki_used : forall b, data_block E b -> used (e_sb E) V b = (b <? data_start (e_sb E) + blocks_needed files);
  ki_file : forall i f, files !! i = Some f -> let x := ino V (2 + Z.of_nat i) in
    i_type x = T_FILE /\ i_nlink x = 1 /\ i_size x = Z.of_nat (length (concat (snd f))) /\ ino_ok E V x /\ dense V x /\
    bytes_at V x 0 (i_size x) = concat (snd f);
  ki_root : let x := ino V 1 in
    i_type x = T_DIR /\ i_nlink x = 1 /\ ino_ok E V x /\ i_size x = rounded (16 * (2 + Z.of_nat (length files))) /\
    (if decide ((2 + Z.of_nat (length files)) mod 32 = 0) then addr_of V x ((2 + length files) / 32) = 0 else dir_ok E V x);
  ki_dots : entry V (ino V 1) 0 = new_entry 1 (dot_name [46]) /\ entry V (ino V 1) 1 = new_entry 1 (dot_name [46; 46]);
  ki_entry : forall i f, files !! i = Some f -> let e := entry V (ino V 1) (2 + i) in
    de_inum e = 2 + Z.of_nat i /\ cstr DIRSIZ (de_name e) = cstr DIRSIZ (skip_underscore (fst f) ++ [0]);
  ki_rest : forall j, (2 + length files <= j < entries (ino V 1))%nat -> de_inum (entry V (ino V 1) j) = 0;
  ki_apart : forall i j, (i <= length files)%nat -> (j <= length files)%nat -> i <> j -> apart V (ino V (1 + Z.of_nat i)) (ino V (1 + Z.of_nat j));
  ki_free : forall n, 1 + Z.of_nat (length files) < n < sb_ninodes (e_sb E) -> i_type (ino V n) = 0;
}.

Section Done.
Context (s s' : mkfs_t) (V : Z -> block) (files : list (list Z * list (list Z))).
Hypothesis Hok : Forall file_ok files.
Hypothesis Hn : (length files <= 198)%nat.
Hypothesis Hb : built E s V ((T_DIR, concat (root_entries files)) :: contents files).
Let n := 16 * (2 + Z.of_nat (length files)).
Let x := set_i_size (rounded n) (ino V 1).
Let V' := with_dinode E V x.
Hypothesis Hv : sees s' V'.
Hypothesis Hfree : freeblock s' = freeblock s.

Lemma dn_inum : inum_ok E x.
Proof. unfold inum_ok. rewrite Hsb. done. Qed.
Lemma dn_root : file_at E V 1 T_DIR n (concat (root_entries files)).
Proof.
  pose proof (bu_file _ _ _ _ Hb 0 _ eq_refl) as H. destruct (root_entries_ok files Hok Hn) as [H1 H2]. destruct (concat_length16 _ H1) as [H3 _].
  cbn [fst snd] in H. rewrite H3, H2 in H. replace n with (Z.of_nat (16 * (2 + length files))) by lia. exact H.
Qed.
Lemma dn_len b : 0 <= b < 1000 -> length (V b) = BSIZE.
Proof. apply (bu_sees _ _ _ _ Hb). Qed.
Lemma dn_rounded : 0 <= rounded n < 4000 /\ n < rounded n.
Proof. unfold rounded, BSIZE. subst n. zlia. Qed.
Lemma dn_x : ino V' 1 = x.
Proof.
  pose proof dn_rounded as Hr. apply (ino_written E Hsb V x); [done| |apply dn_inum|].
  - pose proof (fa_fields _ _ _ _ _ _ dn_root) as [D1 D2 D3]. constructor; [exact D1| |exact D3]. unfold is_u32. rewrite pow2_32. cbn [dinode_of di_size x set_i_size i_size]. lia.
  - apply dn_len. pose proof (mkfs_iblock 1). cbn [i_inum x set_i_size]. change (i_inum (ino V 1)) with 1. lia.
Qed.
Lemma dn_other m : 0 <= m < 200 -> m <> 1 -> ino V' m = ino V m.
Proof.
  intros Hm Hne. apply (ino_other E Hsb Hsize); [apply dn_inum|done|done|apply (fd_ok _ _ _ _ (fa_filed _ _ _ _ _ _ dn_root))|].
  apply dn_len. pose proof (mkfs_iblock 1). change (i_inum x) with 1. lia.
Qed.
Lemma dn_filed : filed E V' x (concat (root_entries files)).
Proof. apply (table_filed E Hsb Hsize); [apply dn_inum|]. apply filed_size, dn_root. Qed.

Lemma dn_file i f : files !! i = Some f -> file_at E V' (2 + Z.of_nat i) T_FILE (Z.of_nat (length (concat (snd f)))) (concat (snd f)).
Proof.
  intros Hf. pose proof (lookup_lt_Some _ _ _ Hf) as Hi. assert (((T_DIR, concat (root_entries files)) :: contents files) !! S i = Some (T_FILE, concat (snd f))) as Hf'.
  { change (contents files !! i = Some (T_FILE, concat (snd f))). unfold contents. change (map ?g files) with (g <$> files). by rewrite list_lookup_fmap, Hf. }
  destruct (bu_file _ _ _ _ Hb _ _ Hf') as [D1 D2 D3 D4 D5]. cbn [fst snd] in *. replace (1 + Z.of_nat (S i)) with (2 + Z.of_nat i) in * by lia.
  constructor; rewrite dn_other by lia; [|done..]. apply (table_filed E Hsb Hsize); [apply dn_inum|done].
Qed.
Lemma dn_ok i : (i <= length files)%nat -> ino_ok E V (ino V (1 + Z.of_nat i)).
Proof.
  intros Hi. destruct (lookup_lt_is_Some_2 ((T_DIR, concat (root_entries files)) :: contents files) i) as [f Hf].
  { cbn [length]. unfold contents. rewrite length_map. lia. }
  apply (bu_file _ _ _ _ Hb _ _ Hf).
Qed.
Lemma dn_apart i j : (i <= length files)%nat -> (j <= length files)%nat -> i <> j -> apart V' (ino V' (1 + Z.of_nat i)) (ino V' (1 + Z.of_nat j)).
Proof.
  intros Hi Hj Hij.
  assert (forall k b, (k <= length files)%nat -> owns V' (ino V' (1 + Z.of_nat k)) b <-> owns V (ino V (1 + Z.of_nat k)) b) as Ho.
  { intros k b Hk. destruct k as [|k].
    - change (1 + Z.of_nat 0) with 1. rewrite dn_x. etransitivity; [apply (table_owns E Hsb Hsize); [apply dn_inum|]|apply owns_size].
      apply (fd_ok _ _ _ _ (filed_size _ _ _ _ (fa_filed _ _ _ _ _ _ dn_root))).
    - rewrite dn_other by lia. apply (table_owns E Hsb Hsize); [apply dn_inum|by apply dn_ok]. }
  intros b H1%Ho H2%Ho; [|done..]. eapply (bu_apart _ _ _ _ Hb i j); [..|exact H1|exact H2]; cbn [length]; unfold contents; rewrite ?length_map; lia.
Qed.

Lemma dn_length : Z.of_nat (length (concat (root_entries files))) = n.
Proof. destruct (root_entries_ok files Hok Hn) as [H1 H2]. destruct (concat_length16 _ H1) as [H3 _]. subst n. lia. Qed.
Lemma dn_entry j e : root_entries files !! j = Some e -> entry V' x j = e.
Proof.
  intros Hj. destruct (root_entries_ok files Hok Hn) as [H1 H2]. pose proof (lookup_lt_Some _ _ _ Hj). pose proof dn_length.
  unfold entry. rewrite (filed_bytes _ _ _ _ _ dn_filed) by lia. replace (Z.to_nat (16 * Z.of_nat j)) with (16 * j)%nat by lia. by apply concat_entry.
Qed.
Lemma dn_rest j : (2 + length files <= j < entries x)%nat -> de_inum (entry V' x j) = 0.
Proof.
  intros Hj. pose proof dn_rounded as Hr. unfold entries in Hj. cbn [x set_i_size i_size] in Hj. pose proof dn_length as Hlen.
  assert (forall k, (k < 16)%nat -> get8 (entry V' x j) k = 0) as Hz.
  { intros k Hk. unfold get8. apply nth_lookup_Some. unfold entry. rewrite bytes_at_lookup by lia. f_equal.
    rewrite (fd_data _ _ _ _ dn_filed) by (unfold MAXFILE, BSIZE; zlia). apply nth_overflow. lia. }
  unfold de_inum, get16. by rewrite !Hz by lia.
Qed.
Lemma dn_dir : if decide ((2 + Z.of_nat (length files)) mod 32 = 0) then addr_of V' x ((2 + length files) / 32) = 0 else dir_ok E V' x.
Proof.
  destruct (fd_tight _ _ _ _ dn_filed) as [Ht _]. rewrite dn_length in Ht. case_decide as Hm.
  - destruct (decide (addr_of V' x ((2 + length files) / 32) = 0)) as [|Hne]; [done|exfalso].
    assert (Z.of_nat ((2 + length files) / 32) = (2 + Z.of_nat (length files)) / 32) as Hq by (rewrite Nat2Z.inj_div; f_equal; lia).
    apply Ht in Hne; [|unfold MAXBN, NDIRECT, NINDIRECT]; subst n; zlia.
  - pose proof dn_rounded. constructor; [apply (fd_ok _ _ _ _ dn_filed)| |apply dn_inum|apply (fa_type _ _ _ _ _ _ dn_root)| |].
    + split; [cbn [x set_i_size i_size]; unfold MAXFILE, BSIZE; lia|]. intros i Hi. cbn [x set_i_size i_size] in Hi.
      apply Ht; [apply block_index; unfold MAXFILE, BSIZE in *; lia|]. unfold rounded, BSIZE in *. subst n. zlia.
    + cbn [x set_i_size i_size]. unfold rounded, BSIZE. zlia.
    + intros i Hi. cbn [x set_i_size i_size] in Hi. rewrite (fd_data _ _ _ _ dn_filed) by (unfold MAXFILE, BSIZE; lia).
      destruct (root_entries_ok files Hok Hn) as [H1 _]. destruct (concat_length16 _ H1) as [_ Hby].
      destruct (nth_in_or_default (Z.to_nat i) (concat (root_entries files)) 0) as [Hin| ->]; [|lia]. by apply (proj1 (List.Forall_forall _ _) Hby).
Qed.

Lemma done_image : kernel_image V' files.
Proof.
  pose proof dn_x as Hx. pose proof (bu_sees _ _ _ _ Hb) as Hv0. constructor; rewrite ?Hx.
  - rewrite Hsb. unfold V'. rewrite (table_meta E Hsb), (bu_super _ _ _ _ Hb) by (apply dn_inum || lia). by vm_compute.
  - by apply mkfs_layout.
  - rewrite Hsb. change (sb_logstart mkfs_sb) with 2. unfold V'. rewrite (table_meta E Hsb), (bu_log _ _ _ _ Hb) by (apply dn_inum || lia). by vm_compute.
  - by apply (sees_meta E Hsb s').
  - intros b Hd. apply (mkfs_data E Hsb) in Hd. rewrite Hsb, (sees_used s'), Hfree, (bu_blocks _ _ _ _ Hb) by (done || lia). done.
  - intros i f Hf. cbv zeta. destruct (dn_file i f Hf) as [D1 D2 D3 D4 D5]. rewrite D2. split_and!; [done|done|done|apply D1|by eapply filed_dense|].
    rewrite (filed_bytes _ _ _ _ _ D1), drop_0 by lia. rewrite take_ge by lia. done.
  - cbv zeta. split_and!; [apply dn_root|apply dn_root|apply dn_filed|done|apply dn_dir].
  - split; by apply dn_entry.
  - intros i f Hf. cbv zeta. rewrite (dn_entry (2 + i) (dirent (2 + Z.of_nat i) (pack (fst f)))).
    + assert (file_ok f) as [_ Hby _] by (by eapply Forall_lookup_1). destruct (pack_ok (fst f) Hby) as (_ & Hl & Hb1 & Hc).
      pose proof (lookup_lt_Some _ _ _ Hf). destruct (new_entry_ok (2 + Z.of_nat i) (pack (fst f))) as (_ & _ & H3 & H4); [lia|done|done|].
      change (dirent _ _) with (new_entry (2 + Z.of_nat i) (pack (fst f))). rewrite H3, H4. done.
    + by apply (file_entries_lookup files 2 i f).
  - apply dn_rest.
  - apply dn_apart.
  - rewrite Hsb. change (sb_ninodes mkfs_sb) with 200. intros m Hm. rewrite dn_other by lia. apply (bu_none _ _ _ _ Hb); [lia|].
    right. cbn [length]. unfold contents. rewrite length_map. lia.
Qed.
End Done.

Lemma wp_mkfs files : Forall file_ok files -> (length files <= 198)%nat -> blocks_needed files <= sb_nblocks mkfs_sb ->
  wp (mkfs_main (given files)) (fun _ s => exists V, holds_image s V /\ kernel_image V files) mkfs_start.
Proof.
  intros Hok Hn Hroom. unfold blocks_needed in Hroom. change (sb_nblocks mkfs_sb) with 941 in Hroom.
  pose proof (root_entries_ok files Hok Hn) as [H1 H2]. destruct (concat_length16 _ H1) as [H3 _]. rewrite H2 in H3.
  unfold mkfs_main. apply (wp_mkfs_root (fun rootino => add_files rootino (given files) ;;; fix_root rootino ;;; used <- gets freeblock ;; mk_balloc used)).
  intros s V Hb. wp_step.
  assert (concat (root_entries []) ++ concat (file_entries 2 files) = concat (root_entries files)) as Hcat by done.
  apply (wp_add_files E Hsb Hsize files s V (concat (root_entries [])) [] _ Hb Hok); change (2 + Z.of_nat (length [])) with 2; rewrite ?Hcat; cbn [length app].
  - lia.
  - unfold MAXFILE, BSIZE. lia.
  - lia.
  - intros s1 V1 Hb1. wp_step. eapply wp_fix_root; [exact Hb1|rewrite pow2_31; lia|]. intros s2. cbv zeta. intros Hv Hf.
    replace (Z.of_nat (length (concat (root_entries files)))) with (16 * (2 + Z.of_nat (length files))) in Hv by lia.
    eapply wp_balloc; [exact Hv|]. intros s3 Hi. eexists. split; [exact Hi|]. eapply done_image; [done|done|exact Hb1|exact Hv|done].
Qed.
End Image.

(** C9: [mkfs] builds the file system the kernel expects.  Given files whose names have no slash, at most 198 of
    them, none larger than the largest file and all together small enough for the
    disk, [mkfs] fails no assertion and leaves an image of 1000 blocks in which
    the superblock is the one the kernel reads, the log is empty, the bitmap marks
    exactly the blocks handed out, inode [2 + i] is file [i] with its contents,
    entry [2 + i] of the root directory names it, no two files share a block and
    the other inodes are free.  The root directory satisfies the invariant of the kernel's
    directory code unless its entries fill their last block: then its size
    reaches into a block it does not have. *)
Theorem mkfs_builds_image E files : e_sb E = mkfs_sb -> e_size E = mkfs_size ->
  Forall file_ok files -> (length files <= 198)%nat -> blocks_needed files <= sb_nblocks mkfs_sb ->
  wp (mkfs_main (given files)) (fun _ s => exists V, holds_image s V /\ kernel_image E V files) mkfs_start.
Proof. intros H1 H2. by apply wp_mkfs. Qed.

(** Two files, one with the underscore of the build. *)
Definition demo_files : list (list Z * list (list Z)) := [([95; 99; 97; 116], [[1; 2; 3]; [4]]); ([82], [])].
Definition demo_env : fenv := mk_fenv 0 mkfs_size (fun _ => []) [] mkfs_sb (mk_log 2 30 0 false 1 (mk_lh 0 [])) [] [].
Lemma mkfs_builds_image_witness :
  wp (mkfs_main (given demo_files)) (fun _ s => exists V, holds_image s V /\ kernel_image demo_env V demo_files) mkfs_start.
Proof.
  apply mkfs_builds_image; [reflexivity|reflexivity| |cbn; lia|by vm_compute].
  repeat constructor; try (cbn; lia); try (by vm_compute); intros H; repeat (apply elem_of_cons in H as [H|H]; [discriminate H|]); by apply elem_of_nil in H.
Defined.
