(* ===== verification/Pipe.v ===== *)
(** * [pipe.c]: pipes between processes

    A pipe lives in a page of its own: the lock, a ring of 512 bytes and two
    counters that run on and wrap around at 2^32.  Reader and writer copy from
    and to user memory through the page tables of the running process.

    Then: the ring is a first-in first-out queue of bounded length.  The
    abstract queue appends what is written and hands out what is read, and a
    writer that finds it full, like a reader that finds it empty, waits. *)
From Stdlib Require Import ZArith Lia Bool.
From stdpp Require Import base numbers list strings.
From S2P Require Import Prelude Machine Cstring Kalloc Segments Vm Kstate Shm Proc Sched FsState.

(** ** Memory under the page tables of the running process

    The kernel follows user pointers directly.  An access the tables do not
    allow is a page fault in kernel mode, on which [trap] stops the machine;
    [CR0_WP] is set, so this includes writes to read-only pages. *)
Definition writable_at (m : memory) (d va : Z) : bool :=
  let pde := load32 m (d + 4 * PDX va) in
  has pde PTE_W && has (load32 m (P2V (PTE_ADDR pde) + 4 * PTX va)) PTE_W.

Section Umem.
Context {F : Type}.
Abbreviation K := (M (kst F)).

Definition uload8 (va : Z) : K Z := fun s =>
  match translate (mem (km s)) (P2V (cr3 (hw s))) va with
  | Some pa => Ok (load8 (mem (km s)) (P2V pa)) s
  | None => Panic "trap" s
  end.
Definition ustore8 (va v : Z) : K unit := fun s =>
  match translate (mem (km s)) (P2V (cr3 (hw s))) va with
  | Some pa =>
      if writable_at (mem (km s)) (P2V (cr3 (hw s))) va
      then Ok tt (set_km (set_mem (store8 (mem (km s)) (P2V pa) v) (km s)) s)
      else Panic "trap" s
  | None => Panic "trap" s
  end.

(** Several bytes, in order. *)
Fixpoint uload (n : nat) (va : Z) : K (list Z) :=
  match n with
  | O => ret []
  | S n' => c <- uload8 va ;; r <- uload n' (u32 (va + 1)) ;; ret (c :: r)
  end.
Fixpoint ustore (va : Z) (bytes : list Z) : K unit :=
  match bytes with
  | [] => ret tt
  | c :: r => ustore8 va c ;;; ustore (u32 (va + 1)) r
  end.
Definition uload32 (va : Z) : K Z := d <- uload 4 va ;; ret (get32 d 0).
Definition ustore32 (va v : Z) : K unit := ustore va (le32 v).
End Umem.

(** ** [struct pipe] *)
Definition PIPESIZE : Z := 512.
Definition pipe_data : Z := 52.
Definition pipe_nread : Z := 564.
Definition pipe_nwrite : Z := 568.
Definition pipe_readopen : Z := 572.
Definition pipe_writeopen : Z := 576.

Section Pipe.
Context {I : KernelImage} {L : Literals} {P : ProcImage} {F : Type} {FL : FsLocks F} {W : Wakeups}.
Abbreviation K := (M (kst F)).

(** The word [lk->locked] at the start of the structure. *)
Definition pipe_locked (p : Z) (s : kst F) : bool := negb (load32 (mem (km s)) p =? 0).
Definition set_pipe_locked (p : Z) (b : bool) (s : kst F) : kst F :=
  set_km (set_mem (store32 (mem (km s)) p (Z.b2z b)) (km s)) s.
Definition acquire_pipe (p : Z) : K unit := acquire_flag (pipe_locked p) (set_pipe_locked p).
Definition release_pipe (p : Z) : K unit := release_flag (pipe_locked p) (set_pipe_locked p).
Definition pipe_lockref (p : Z) : lockref := mk_lockref (acquire_pipe p) (release_pipe p).

Definition pget (p off : Z) : K Z := on_mem (read32 (p + off)).
Definition pput (p off v : Z) : K unit := on_mem (write32 (p + off) v).

Definition pipeclose (p : Z) (writable : bool) : K unit :=
  acquire_pipe p ;;;
  (if writable then
     pput p pipe_writeopen 0 ;;;
     wakeup (p + pipe_nread)
   else
     pput p pipe_readopen 0 ;;;
     wakeup (p + pipe_nwrite)) ;;;
  r <- pget p pipe_readopen ;;
  w <- pget p pipe_writeopen ;;
  if (r =? 0) && (w =? 0) then
    release_pipe p ;;;
    on_mem (kfree p)
  else release_pipe p.

(** The inner loop of [pipewrite]: [false] is the early return of -1. *)
Fixpoint pipewrite_wait (fuel : nat) (p : Z) : K bool :=
  nw <- pget p pipe_nwrite ;;
  nr <- pget p pipe_nread ;;
  if nw =? u32 (nr + PIPESIZE) then
    ro <- pget p pipe_readopen ;;
    me <- myproc ;;
    q <- get_proc me ;;
    if (ro =? 0) || killed q then
      release_pipe p ;;;
      ret false
    else
      match fuel with
      | O => nofuel
      | S fuel' =>
          wakeup (p + pipe_nread) ;;;
          sleep (p + pipe_nwrite) (Some (pipe_lockref p)) ;;;
          pipewrite_wait fuel' p
      end
  else ret true.

(** The bytes from [addr] on. *)
Fixpoint pipewrite_loop (n : nat) (p addr : Z) : K bool :=
  match n with
  | O => ret true
  | S n' =>
      ok <- pipewrite_wait wakeups p ;;
      if ok : bool then
        c <- uload8 addr ;;
        nw <- pget p pipe_nwrite ;;
        on_mem (modify (fun s => set_mem (store8 (mem s) (p + pipe_data + nw mod PIPESIZE) c) s)) ;;;
        pput p pipe_nwrite (u32 (nw + 1)) ;;;
        pipewrite_loop n' p (u32 (addr + 1))
      else ret false
  end.

Definition pipewrite (p addr n : Z) : K Z :=
  acquire_pipe p ;;;
  ok <- pipewrite_loop (Z.to_nat n) p addr ;;
  if ok : bool then
    wakeup (p + pipe_nread) ;;;
    release_pipe p ;;;
    ret n
  else ret (-1).

(** The first loop of [piperead]. *)
Fixpoint piperead_wait (fuel : nat) (p : Z) : K bool :=
  nr <- pget p pipe_nread ;;
  nw <- pget p pipe_nwrite ;;
  wo <- pget p pipe_writeopen ;;
  if (nr =? nw) && negb (wo =? 0) then
    me <- myproc ;;
    q <- get_proc me ;;
    if killed q then
      release_pipe p ;;;
      ret false
    else
      match fuel with
      | O => nofuel
      | S fuel' =>
          sleep (p + pipe_nread) (Some (pipe_lockref p)) ;;;
          piperead_wait fuel' p
      end
  else ret true.

(** The copying loop: how many bytes were copied. *)
Fixpoint piperead_loop (n : nat) (p addr : Z) : K Z :=
  match n with
  | O => ret 0
  | S n' =>
      nr <- pget p pipe_nread ;;
      nw <- pget p pipe_nwrite ;;
      if nr =? nw then ret 0
      else
        c <- on_mem (gets (fun s => load8 (mem s) (p + pipe_data + nr mod PIPESIZE))) ;;
        pput p pipe_nread (u32 (nr + 1)) ;;;
        ustore8 addr c ;;;
        k <- piperead_loop n' p (u32 (addr + 1)) ;;
        ret (k + 1)
  end.

Definition piperead (p addr n : Z) : K Z :=
  acquire_pipe p ;;;
  ok <- piperead_wait wakeups p ;;
  if ok : bool then
    k <- piperead_loop (Z.to_nat n) p addr ;;
    wakeup (p + pipe_nwrite) ;;;
    release_pipe p ;;;
    ret k
  else ret (-1).
End Pipe.

(** * The ring is a bounded queue

    [holds m p q ro wo]: the page at [p] is a pipe whose ring contains the
    bytes [q], oldest first.  [sends] and [receives] say what a writer and a
    reader may do to such a queue, across the points where they sleep. *)

(** ** The ring in memory *)
Record holds (m : memory) (p : Z) (q : list Z) (ro wo : Z) : Prop := {
  h_count : u32 (load32 m (p + pipe_nwrite) - load32 m (p + pipe_nread)) = Z.of_nat (length q);
  h_bound : (length q <= 512)%nat;
  h_bytes : forall j b, q !! j = Some b ->
    load8 m (p + pipe_data + u32 (load32 m (p + pipe_nread) + Z.of_nat j) mod PIPESIZE) = b;
  h_readopen : load32 m (p + pipe_readopen) = ro;
  h_writeopen : load32 m (p + pipe_writeopen) = wo;
}.

(** Memory that differs at most in the bytes [lo, hi) of the page at [p]. *)
Definition differs (p lo hi : Z) (m m' : memory) : Prop := forall a, a < p + lo \/ p + hi <= a -> m' a = m a.

Lemma differs_word p lo hi m m' a : differs p lo hi m m' -> a + 4 <= p + lo \/ p + hi <= a -> load32 m' a = load32 m a.
Proof. intros H Ha. apply load32_agree. intros x Hx. apply H. lia. Qed.
Lemma differs_byte p lo hi m m' a : differs p lo hi m m' -> a < p + lo \/ p + hi <= a -> load8 m' a = load8 m a.
Proof. intros H Ha. unfold load8. by rewrite H. Qed.
Lemma differs_store32 m p off v : differs p off (off + 4) m (store32 m (p + off) v).
Proof. intros a Ha. apply store32_out. lia. Qed.
Lemma differs_store8 m p off v : differs p off (off + 1) m (store8 m (p + off) v).
Proof. intros a Ha. apply store8_ne. lia. Qed.

Ltac offs := unfold PIPESIZE, pipe_data, pipe_nread, pipe_nwrite, pipe_readopen, pipe_writeopen in *.

(** The lock word is not part of the queue. *)
Lemma holds_lock m m' p q ro wo : differs p 0 52 m m' -> holds m p q ro wo -> holds m' p q ro wo.
Proof.
  intros Hd [H1 H2 H3 H4 H5]. constructor; offs.
  - by rewrite !(differs_word _ _ _ _ _ _ Hd) by lia.
  - done.
  - intros j b Hj. rewrite (differs_word _ _ _ _ _ _ Hd) by lia. rewrite (differs_byte _ _ _ _ _ _ Hd) by zlia. by apply H3.
  - by rewrite (differs_word _ _ _ _ _ _ Hd) by lia.
  - by rewrite (differs_word _ _ _ _ _ _ Hd) by lia.
Qed.

Lemma holds_full m p q ro wo : holds m p q ro wo ->
  (load32 m (p + pipe_nwrite) =? u32 (load32 m (p + pipe_nread) + PIPESIZE)) = (length q =? 512)%nat.
Proof.
  intros [H1 H2 _ _ _]. pose proof (load32_range m (p + pipe_nwrite)). pose proof (load32_range m (p + pipe_nread)).
  revert H1. generalize dependent (load32 m (p + pipe_nwrite)). generalize dependent (load32 m (p + pipe_nread)).
  intros nr Hr nw Hw H1. unfold PIPESIZE. apply Bool.eq_iff_eq_true. rewrite Z.eqb_eq, Nat.eqb_eq. i32lia.
Qed.
Lemma holds_empty m p q ro wo : holds m p q ro wo ->
  (load32 m (p + pipe_nread) =? load32 m (p + pipe_nwrite)) = bool_decide (q = []).
Proof.
  intros [H1 H2 _ _ _]. pose proof (load32_range m (p + pipe_nwrite)). pose proof (load32_range m (p + pipe_nread)).
  revert H1. generalize dependent (load32 m (p + pipe_nwrite)). generalize dependent (load32 m (p + pipe_nread)).
  intros nr Hr nw Hw H1. apply Bool.eq_iff_eq_true. rewrite Z.eqb_eq, bool_decide_eq_true.
  split; [intros ->; rewrite Z.sub_diag in H1; destruct q; [done|discriminate H1]|intros ->; simpl in H1; i32lia].
Qed.

(** One byte in: [data\[nwrite++ % PIPESIZE\] = c]. *)
Definition put_byte (p c : Z) (m : memory) : memory :=
  let nw := load32 m (p + pipe_nwrite) in
  store32 (store8 m (p + pipe_data + nw mod PIPESIZE) c) (p + pipe_nwrite) (u32 (nw + 1)).
(** One byte out: [data\[nread++ % PIPESIZE\]]. *)
Definition head_byte (p : Z) (m : memory) : Z := load8 m (p + pipe_data + load32 m (p + pipe_nread) mod PIPESIZE).
Definition drop_byte (p : Z) (m : memory) : memory := store32 m (p + pipe_nread) (u32 (load32 m (p + pipe_nread) + 1)).

Lemma differs_put p c m : differs p 52 572 m (put_byte p c m).
Proof.
  intros a Ha. unfold put_byte. offs. rewrite store32_out by lia. apply store8_ne. zlia.
Qed.
Lemma differs_drop p m : differs p 52 572 m (drop_byte p m).
Proof. intros a Ha. unfold drop_byte. offs. apply store32_out. lia. Qed.

Lemma put_words p c m : 0 <= p ->
  load32 (put_byte p c m) (p + pipe_nwrite) = u32 (load32 m (p + pipe_nwrite) + 1) /\
  load32 (put_byte p c m) (p + pipe_nread) = load32 m (p + pipe_nread) /\
  forall k, 0 <= k < 512 -> load8 (put_byte p c m) (p + pipe_data + k) =
    if k =? load32 m (p + pipe_nwrite) mod PIPESIZE then u8 c else load8 m (p + pipe_data + k).
Proof.
  intros Hp. unfold put_byte. split_and!.
  - by rewrite load32_store32_eq, u32_idemp.
  - rewrite load32_store32_ne by (offs; lia). offs. apply (differs_word (p + 52) 0 512 m); [|lia].
    intros a Ha. apply store8_ne. zlia.
  - intros k Hk. unfold load8 at 1. rewrite store32_out by (offs; lia).
    destruct (Z.eqb_spec k (load32 m (p + pipe_nwrite) mod PIPESIZE)) as [->|Hne].
    + rewrite store8_eq. apply Z.mod_mod. lia.
    + rewrite store8_ne by lia. done.
Qed.

Lemma ring_slot nr nw j (n : nat) : 0 <= nr < 2 ^ 32 -> 0 <= nw < 2 ^ 32 -> u32 (nw - nr) = Z.of_nat n -> (n < 512)%nat ->
  (j < n)%nat -> u32 (nr + Z.of_nat j) mod 512 <> nw mod 512.
Proof. intros. i32lia. Qed.
Lemma ring_last nr nw (n : nat) : 0 <= nr < 2 ^ 32 -> 0 <= nw < 2 ^ 32 -> u32 (nw - nr) = Z.of_nat n ->
  u32 (nr + Z.of_nat n) mod 512 = nw mod 512.
Proof. intros. i32lia. Qed.

Lemma holds_put m p q ro wo c : 0 <= p -> 0 <= c < 256 -> (length q < 512)%nat -> holds m p q ro wo ->
  holds (put_byte p c m) p (q ++ [c]) ro wo.
Proof.
  intros Hp Hc Hlt [H1 H2 H3 H4 H5]. pose proof (differs_put p c m) as Hd.
  destruct (put_words p c m Hp) as (Hw & Hr & Hb).
  pose proof (load32_range m (p + pipe_nwrite)) as Hw'. pose proof (load32_range m (p + pipe_nread)) as Hr'.
  constructor.
  - rewrite Hw, Hr, length_app. cbn [length].
    revert H1 Hlt Hw' Hr'. clear. generalize (load32 m (p + pipe_nwrite)) (load32 m (p + pipe_nread)). intros. i32lia.
  - rewrite length_app. cbn. lia.
  - intros j b Hj. rewrite Hr. rewrite Hb by (unfold PIPESIZE; zlia). unfold PIPESIZE.
    apply lookup_app_Some in Hj as [Hj|[Hge Hj]].
    + pose proof (lookup_lt_Some _ _ _ Hj) as Hlt'.
      rewrite (proj2 (Z.eqb_neq _ _)) by (eapply ring_slot; [done..|lia]). by apply H3.
    + apply list_lookup_singleton_Some in Hj as [Hj <-]. replace j with (length q) by lia.
      rewrite (ring_last _ (load32 m (p + pipe_nwrite))), Z.eqb_refl by done. by apply u8_small.
  - rewrite <- H4. offs. apply (differs_word _ _ _ _ _ _ Hd). lia.
  - rewrite <- H5. offs. apply (differs_word _ _ _ _ _ _ Hd). lia.
Qed.

Lemma holds_take m p c q ro wo : 0 <= p -> holds m p (c :: q) ro wo ->
  head_byte p m = c /\ holds (drop_byte p m) p q ro wo.
Proof.
  intros Hp [H1 H2 H3 H4 H5]. pose proof (differs_store32 m p pipe_nread (u32 (load32 m (p + pipe_nread) + 1))) as Hd.
  fold (drop_byte p m) in Hd. pose proof (load32_range m (p + pipe_nwrite)) as Hw'. pose proof (load32_range m (p + pipe_nread)) as Hr'.
  assert (load32 (drop_byte p m) (p + pipe_nread) = u32 (load32 m (p + pipe_nread) + 1)) as Hr.
  { unfold drop_byte. by rewrite load32_store32_eq, u32_idemp. }
  assert (load32 (drop_byte p m) (p + pipe_nwrite) = load32 m (p + pipe_nwrite)) as Hw.
  { apply (differs_word _ _ _ _ _ _ Hd). offs. lia. }
  split.
  { rewrite <- (H3 0%nat c) by done. unfold head_byte. rewrite Z.add_0_r. by rewrite u32_small. }
  cbn [length] in H1, H2. constructor.
  - rewrite Hw, Hr. revert H1 Hw' Hr' H2. clear. generalize (load32 m (p + pipe_nwrite)) (load32 m (p + pipe_nread)). intros. i32lia.
  - lia.
  - intros j b Hj. rewrite Hr. rewrite <- (H3 (S j) b) by done.
    rewrite (differs_byte _ _ _ _ _ _ Hd) by (offs; zlia). f_equal. f_equal. f_equal. unfold u32.
    rewrite Zplus_mod_idemp_l. f_equal. lia.
  - rewrite <- H4. apply (differs_word _ _ _ _ _ _ Hd). offs. lia.
  - rewrite <- H5. apply (differs_word _ _ _ _ _ _ Hd). offs. lia.
Qed.
