(* ===== verification/PipeProps.v ===== *)
(** * [pipewrite] and [piperead] refine the queue

    The protocol of a writer and of a reader, and the proof that the code of
    [pipe.c] follows it: every byte goes through the queue once and in order,
    a writer sleeps only on a full queue with no reader left asleep, a reader
    only on an empty one. *)
From Stdlib Require Import ZArith Lia Bool.
From stdpp Require Import base numbers list strings.
From S2P Require Import Prelude Machine Cstring Kalloc Segments Vm VmInv VmMap VmUser VmAlloc VmKern VmCopy VmProps Kstate Shm Proc Sched ProcFamily ProcAlloc FsState Pipe.

Section PipeProps.
Context {F : Type} {FL : FsLocks F} {W : Wakeups}.
Context (p : Z) (me : nat).
Abbreviation K := (M (kst F)).
Implicit Types s : kst F.

Definition kmemory (s : kst F) : memory := mem (km s).
Definition set_memory (m : memory) (s : kst F) : kst F := set_km (set_mem m (km s)) s.
Definition udir (s : kst F) : Z := P2V (cr3 (hw s)).

(** Process [me] runs, the only locks held are those named. *)
Record calm (pt lk : bool) s : Prop := {
  c_len : length (procs s) = NPROCS;
  c_cur : cur s = me;
  c_proc : is_Some (procs s !! me);
  c_pt : ptable_lock s = pt;
  c_sh : sh_locked s = false;
  c_km : kmem_lock (km s) = false;
  c_fs : fs_locks (fs s) = 0;
  c_pipe : pipe_locked p s = lk;
}.

(** ** User memory away from the pipe's page *)
Definition apart (a n : Z) : Prop := a + n <= p \/ p + PGSIZE <= a.
Record user_at (m : memory) (d va pa : Z) : Prop := {
  ua_translate : translate m d va = Some pa;
  ua_pde : apart (d + 4 * PDX va) 4;
  ua_pte : apart (P2V (PTE_ADDR (load32 m (d + 4 * PDX va))) + 4 * PTX va) 4;
  ua_byte : apart (P2V pa) 1;
}.

(** The bytes from [va] on. *)
Fixpoint user_src (m : memory) (d va : Z) (bytes : list Z) : Prop :=
  match bytes with
  | [] => True
  | b :: t => (exists pa, user_at m d va pa /\ load8 m (P2V pa) = b) /\ user_src m d (u32 (va + 1)) t
  end.

Lemma translate_ext m m' d va : load32 m' (d + 4 * PDX va) = load32 m (d + 4 * PDX va) ->
  load32 m' (P2V (PTE_ADDR (load32 m (d + 4 * PDX va))) + 4 * PTX va) =
  load32 m (P2V (PTE_ADDR (load32 m (d + 4 * PDX va))) + 4 * PTX va) ->
  translate m' d va = translate m d va /\ writable_at m' d va = writable_at m d va.
Proof. intros H1 H2. unfold translate, writable_at. by rewrite H1, H2. Qed.

Lemma user_at_ext m m' d va pa : differs p 0 PGSIZE m m' -> user_at m d va pa ->
  user_at m' d va pa /\ writable_at m' d va = writable_at m d va /\ load8 m' (P2V pa) = load8 m (P2V pa).
Proof.
  intros Hd [H1 H2 H3 H4]. unfold apart in *.
  assert (load32 m' (d + 4 * PDX va) = load32 m (d + 4 * PDX va)) as E1 by (apply (differs_word _ _ _ _ _ _ Hd); lia).
  destruct (translate_ext m m' d va E1) as [E2 E3]; [apply (differs_word _ _ _ _ _ _ Hd); lia|].
  split_and!; [|done|apply (differs_byte _ _ _ _ _ _ Hd); lia]. constructor; [by rewrite E2|done|by rewrite E1|done].
Qed.

Lemma user_src_ext m m' d va l : differs p 0 PGSIZE m m' -> user_src m d va l -> user_src m' d va l.
Proof.
  intros Hd. revert va. induction l as [|b l IH]; intros va; [done|]. intros [(pa & Hpa & Hb) Hl]. split; [|by apply IH].
  destruct (user_at_ext m m' d va pa Hd Hpa) as (H1 & _ & H3). exists pa. split; [done|by rewrite H3].
Qed.

(** ** Steps on the pipe's page *)
Lemma differs_page lo hi m m' : 0 <= lo -> hi <= PGSIZE -> differs p lo hi m m' -> differs p 0 PGSIZE m m'.
Proof. intros H1 H2 Hd a Ha. apply Hd. lia. Qed.

Lemma wp_pget off s (Q : Z -> kst F -> Prop) : Q (load32 (kmemory s) (p + off)) s -> wp (pget p off) Q s.
Proof. intros HQ. apply wp_lift, wp_gets. by destruct s. Qed.
Lemma wp_pput off v s (Q : unit -> kst F -> Prop) :
  Q tt (set_memory (store32 (kmemory s) (p + off) v) s) -> wp (pput p off v) Q s.
Proof. intros HQ. by apply wp_lift, wp_modify. Qed.
Lemma wp_release_pipe s (Q : unit -> kst F -> Prop) : pipe_locked p s = true ->
  Q tt (set_pipe_locked p false s) -> wp (release_pipe p) Q s.
Proof. intros Hl HQ. unfold release_pipe, release_flag. wp_steps. by rewrite Hl. Qed.
Lemma wp_acquire_pipe s (Q : unit -> kst F -> Prop) : pipe_locked p s = false ->
  Q tt (set_pipe_locked p true s) -> wp (acquire_pipe p) Q s.
Proof. intros Hl HQ. unfold acquire_pipe, acquire_flag. wp_steps. by rewrite Hl. Qed.

Lemma wp_uload8 va pa s (Q : Z -> kst F -> Prop) : user_at (kmemory s) (udir s) va pa ->
  Q (load8 (kmemory s) (P2V pa)) s -> wp (uload8 va) Q s.
Proof. intros [H _ _ _] HQ. unfold wp, uload8. unfold kmemory, udir in *. by rewrite H. Qed.

Lemma pipe_locked_set b s : pipe_locked p (set_pipe_locked p b s) = b.
Proof. unfold pipe_locked, set_pipe_locked. cbn. rewrite load32_store32_eq. by destruct b. Qed.
Lemma calm_set_lock pt b b' s : calm pt b s -> calm pt b' (set_pipe_locked p b' s).
Proof. intros []. constructor; try done. apply pipe_locked_set. Qed.
Lemma differs_lock b s : differs p 0 4 (kmemory s) (kmemory (set_pipe_locked p b s)).
Proof.
  unfold set_pipe_locked, kmemory. cbn [km set_km mem set_mem]. pose proof (differs_store32 (mem (km s)) p 0 (Z.b2z b)) as H.
  by rewrite Z.add_0_r in H.
Qed.
Lemma calm_memory pt lk m s : calm pt lk s -> differs p 4 PGSIZE (kmemory s) m -> calm pt lk (set_memory m s).
Proof.
  intros [] Hd. constructor; try done. rewrite <- c_pipe0. unfold pipe_locked. cbn.
  rewrite (differs_word _ _ _ _ _ _ Hd) by (kconst; lia). done.
Qed.
Lemma calm_wake pt lk c s : calm pt lk s -> calm pt lk (set_procs (wake c <$> procs s) s).
Proof.
  intros []. constructor; try done; cbn [procs set_procs].
  - by rewrite length_fmap.
  - rewrite list_lookup_fmap. destruct c_proc0 as [q ->]. by eexists.
Qed.

(** The queue, whatever the ends are. *)
Definition queue s (q : list Z) : Prop := exists ro wo, holds (kmemory s) p q ro wo.
Definition nobody_on (c : Z) s : Prop := forall i r, procs s !! i = Some r -> state r = SLEEPING -> i <> me -> chan r <> c.

(** Asleep on channel [c]. *)
Record dormant (c : Z) s : Prop := {
  d_calm : calm true false s;
  d_proc : exists r, procs s !! me = Some r /\ state r = SLEEPING /\ chan r = c;
}.

Lemma calm_ncli s : calm true false s -> ncli_of s = 1.
Proof. intros []. unfold ncli_of. by rewrite c_pt0, c_sh0, c_km0, c_fs0. Qed.

(** [sleep] on the pipe: where it stops and where it goes on. *)
Lemma pipe_sleep c s : calm false true s -> exists s' k,
  sleep c (Some (pipe_lockref p)) s = Sleeping c s' k /\ dormant c s' /\
  differs p 0 4 (kmemory s) (kmemory s') /\ udir s' = udir s /\
  (forall i, i <> me -> procs s' !! i = procs s !! i) /\
  forall t, k t = woken me (Some (pipe_lockref p)) t.
Proof.
  intros Hc. destruct (c_proc _ _ _ Hc) as [r Hr]. pose proof (c_cur _ _ _ Hc) as Hcur.
  set (s1 := set_pipe_locked p false (set_ptable_lock true s)).
  assert (calm true false s1) as Hc1.
  { apply (calm_set_lock _ true). destruct Hc. by constructor. }
  destruct (sleep_lock c (pipe_lockref p) s s1 r) as (k & Hrun & Hk).
  - apply (c_pt _ _ _ Hc).
  - assert (wp (release_pipe p) (fun _ s' => s' = s1) (set_ptable_lock true s)) as Hw.
    { apply wp_release_pipe; [apply (c_pipe _ _ _ Hc)|done]. }
    apply wp_ok in Hw as ([] & s' & Hrun & ->). exact Hrun.
  - done.
  - done.
  - by apply calm_ncli.
  - by rewrite Hcur.
  - rewrite Hcur in Hrun, Hk. eexists _, k. split; [exact Hrun|]. pose proof (lookup_lt_Some _ _ _ Hr) as Hlt.
    split_and!; [|exact (differs_lock false (set_ptable_lock true s))|done| |done].
    + constructor.
      * destruct Hc1. constructor; try done; cbn [procs set_procs].
        -- by rewrite length_insert.
        -- rewrite list_lookup_insert_eq by done. by eexists.
      * exists (asleep c r). split; [by apply list_lookup_insert_eq|done].
    + intros i Hi. cbn [procs set_procs]. by rewrite list_lookup_insert_ne by done.
Qed.

(** The process goes on when the scheduler has picked it again. *)
Lemma wp_pipe_woken s (Q : unit -> kst F -> Prop) : calm true false s ->
  (forall s', calm false true s' -> differs p 0 4 (kmemory s) (kmemory s') -> udir s' = udir s -> Q tt s') ->
  wp (woken me (Some (pipe_lockref p))) Q s.
Proof.
  intros Hc HQ. destruct (c_proc _ _ _ Hc) as [r Hr]. pose proof (lookup_lt_Some _ _ _ Hr) as Hlt.
  unfold woken. wp_step. apply (wp_upd_proc s me r); [done|]. wp_step.
  apply wp_release_ptable; [apply (c_pt _ _ _ Hc)|].
  set (s1 := set_ptable_lock false (set_procs (<[me := set_chan 0 r]> (procs s)) s)).
  assert (calm false false s1) as Hc1.
  { destruct Hc. constructor; try done; cbn [procs set_procs set_ptable_lock s1].
    - by rewrite length_insert.
    - rewrite list_lookup_insert_eq by done. by eexists. }
  apply wp_acquire_pipe; [apply (c_pipe _ _ _ Hc1)|]. apply HQ.
  - by apply (calm_set_lock _ false).
  - exact (differs_lock true s1).
  - done.
Qed.

Lemma queue_lock s s' q : differs p 0 4 (kmemory s) (kmemory s') -> queue s q -> queue s' q.
Proof.
  intros Hd (ro & wo & H). exists ro, wo. eapply holds_lock; [|exact H].
  intros a Ha. apply Hd. lia.
Qed.

(** ** Writers

    [bytes] are to be written from user address [addr]; [todo] is what is left.
    [sends Q todo q r]: with [q] in the queue and [todo] to go, [r] puts some
    more bytes in; when it sleeps the queue is full and no reader is left
    asleep, and woken in any state with a queue [q'] it goes on with the rest. *)
Section Writer.
Context (addr : Z) (bytes : list Z).

Definition left_at (todo : list Z) : Z := u32 (addr + Z.of_nat (length bytes - length todo)).
Definition src s (todo : list Z) : Prop := user_src (kmemory s) (udir s) (left_at todo) todo.

Fixpoint sends {A} (Q : list Z -> list Z -> A -> kst F -> Prop) (todo q : list Z) (r : res (kst F) A) : Prop :=
  match r with
  | Ok a s => Q todo q a s
  | Sleeping c s k =>
      c = p + pipe_nwrite /\ dormant c s /\ nobody_on (p + pipe_nread) s /\
      exists j, (j < length todo)%nat /\ length (q ++ take j todo) = 512%nat /\ queue s (q ++ take j todo) /\
        forall q' s', calm true false s' -> queue s' q' -> src s' (drop j todo) -> sends Q (drop j todo) q' (k s')
  | NoFuel s => exists j, length (q ++ take j todo) = 512%nat
  | _ => False
  end.

Lemma sends_bind {A B} (Q : list Z -> list Z -> B -> kst F -> Prop) (k : A -> K B) r : forall todo q,
  sends (fun todo' q' a s' => sends Q todo' q' (k a s')) todo q r -> sends Q todo q (bind_res r k).
Proof.
  induction r as [| | |c s resume IH| |]; intros todo q; simpl; try done.
  intros (Hc & Hd & Hn & j & Hj & Hl & Hq & Hk). split_and!; [done..|]. exists j. split_and!; [done..|].
  intros q' s' H1 H2 H3. apply IH, Hk; done.
Qed.

Lemma sends_shift {A} (Q : list Z -> list Z -> A -> kst F -> Prop) x t q r :
  (forall a s, Q t (q ++ [x]) a s -> Q (x :: t) q a s) -> sends Q t (q ++ [x]) r -> sends Q (x :: t) q r.
Proof.
  intros HQ. destruct r as [a s| | |c s resume| |s]; simpl; try done.
  - apply HQ.
  - intros (Hc & Hd & Hn & j & Hj & Hl & Hq & Hk). split_and!; [done..|]. exists (S j). cbn [take drop].
    rewrite (cons_middle x), app_assoc. split_and!; [lia|done..].
  - intros [j Hl]. exists (S j). cbn [take]. by rewrite (cons_middle x), app_assoc.
Qed.

Lemma sends_mono {A} (Q Q' : list Z -> list Z -> A -> kst F -> Prop) r : forall todo q,
  (forall todo q a s, Q todo q a s -> Q' todo q a s) -> sends Q todo q r -> sends Q' todo q r.
Proof.
  induction r as [| | |c s resume IH| |]; intros todo q HQ; simpl; try done; [apply HQ|].
  intros (Hc & Hd & Hn & j & Hj & Hl & Hq & Hk). split_and!; [done..|]. exists j. split_and!; [done..|].
  intros q' s' H1 H2 H3. apply IH; [done|]. by apply Hk.
Qed.

Lemma sends_wp {A} (m : K A) (Q : list Z -> list Z -> A -> kst F -> Prop) todo q s :
  wp m (Q todo q) s -> sends Q todo q (m s).
Proof. unfold wp. destruct (m s); done. Qed.

Lemma sends_then {A B} (m : K A) (k : A -> K B) (Q : list Z -> list Z -> B -> kst F -> Prop) todo q s :
  wp m (fun a s' => sends Q todo q (k a s')) s -> sends Q todo q (bind m k s).
Proof. intros H. apply sends_bind, sends_wp, H. Qed.

(** The queue is full and the reader gone, or the writer killed. *)
Definition refused s (q : list Z) : Prop :=
  length q = 512%nat /\ ((exists wo, holds (kmemory s) p q 0 wo) \/ (queue s q /\ exists r, procs s !! me = Some r /\ killed r = true)).

Lemma src_lock s s' todo : differs p 0 4 (kmemory s) (kmemory s') -> udir s' = udir s -> src s todo -> src s' todo.
Proof.
  intros Hd Hu. unfold src. rewrite Hu. apply user_src_ext. eapply differs_page; [..|exact Hd]; [lia|by kconst].
Qed.

Lemma nobody_wake c s : nobody_on c (set_procs (wake c <$> procs s) s).
Proof.
  intros i r Hi Hs _ Hch. cbn [procs set_procs] in Hi. rewrite list_lookup_fmap in Hi.
  destruct (procs s !! i) as [r0|]; [|done]. injection Hi as <-. revert Hs Hch. unfold wake.
  destruct (bool_decide_reflect (state r0 = SLEEPING)); cbn [andb]; [|done].
  destruct (Z.eqb_spec (chan r0) c); done.
Qed.

Lemma refuses todo (Q : list Z -> list Z -> bool -> kst F -> Prop) s q ro wo r : calm false true s ->
  holds (kmemory s) p q ro wo -> length q = 512%nat -> procs s !! me = Some r -> (ro =? 0) || killed r = true ->
  (forall q' s', calm false false s' -> refused s' q' -> Q todo q' false s') ->
  sends Q todo q ((release_pipe p ;;; ret false) s).
Proof.
  intros Hc Hh Hfull Hr Hstop HQ. apply sends_then, wp_release_pipe; [apply (c_pipe _ _ _ Hc)|].
  apply HQ; [by apply (calm_set_lock _ true)|]. split; [done|].
  assert (holds (kmemory (set_pipe_locked p false s)) p q ro wo) as Hh'.
  { eapply holds_lock; [|exact Hh]. intros a Ha. apply differs_lock. lia. }
  apply orb_prop in Hstop as [Hz|Hk].
  - left. apply Z.eqb_eq in Hz as ->. by exists wo.
  - right. split; [by exists ro, wo|by exists r].
Qed.

Lemma sends_wait todo (Q : list Z -> list Z -> bool -> kst F -> Prop) fuel : forall s q,
  todo <> [] -> calm false true s -> queue s q -> src s todo ->
  (forall q' s', calm false true s' -> queue s' q' -> (length q' < 512)%nat -> src s' todo -> Q todo q' true s') ->
  (forall q' s', calm false false s' -> refused s' q' -> Q todo q' false s') ->
  sends Q todo q (pipewrite_wait fuel p s).
Proof.
  induction fuel as [|fuel IH]; intros s q Hne Hc Hq Hsrc Hgo Hno; cbn [pipewrite_wait];
    apply sends_then, wp_pget, sends_then, wp_pget; destruct Hq as (ro & wo & Hh); rewrite (holds_full _ _ _ _ _ Hh);
    destruct (Nat.eqb_spec (length q) 512) as [Hfull|Hroom];
    try (apply Hgo; [done|by exists ro, wo| |done]; pose proof (h_bound _ _ _ _ _ Hh); lia);
    apply sends_then, wp_pget, sends_then, wp_gets, sends_then; rewrite (c_cur _ _ _ Hc), (h_readopen _ _ _ _ _ Hh);
    destruct (c_proc _ _ _ Hc) as [r Hr]; apply (wp_get_proc s me r); try done;
    destruct ((ro =? 0) || killed r) eqn:Hstop;
    try (by eapply refuses; eauto).
  - exists 0%nat. cbn [take]. by rewrite app_nil_r.
  - apply sends_then, wp_wakeup; [apply (c_len _ _ _ Hc)|apply (c_pt _ _ _ Hc)|].
    set (s1 := set_procs (wake (p + pipe_nread) <$> procs s) s).
    assert (calm false true s1) as Hc1 by by apply calm_wake.
    destruct (pipe_sleep (p + pipe_nwrite) s1 Hc1) as (s2 & k & Hrun & Hd & Hdif & Hu & Hoth & Hk).
    unfold bind. rewrite Hrun. cbn [bind_res sends]. split_and!; [done|done| |].
    + intros i r' Hi Hs Hme. rewrite Hoth in Hi by done. by eapply nobody_wake.
    + exists 0%nat. cbn [take drop]. rewrite app_nil_r. split_and!; [destruct todo; [done|cbn; lia]|done| |].
      { eapply queue_lock; [exact Hdif|]. by exists ro, wo. }
      intros q' s' Hc' Hq' Hs'. rewrite Hk.
      change (sends Q todo q' (bind (woken me (Some (pipe_lockref p))) (fun _ => pipewrite_wait fuel p) s')).
      apply sends_then, wp_pipe_woken; [done|]. intros s3 Hc3 Hd3 Hu3. apply IH; [done|done| | |done|done].
      * by eapply queue_lock.
      * by eapply src_lock.
Qed.

(** What a writer has done at the end. *)
Definition sent (todo q : list Z) (ok : bool) s : Prop :=
  if ok then calm false true s /\ queue s (q ++ todo)
  else calm false false s /\ exists j, (j < length todo)%nat /\ refused s (q ++ take j todo).

Lemma sent_shift x t q ok s : sent t (q ++ [x]) ok s -> sent (x :: t) q ok s.
Proof.
  unfold sent. rewrite <- app_assoc. destruct ok; [done|]. intros (Hc & j & Hj & Hr). split; [done|].
  exists (S j). cbn [take length]. rewrite <- app_assoc in Hr. split; [lia|done].
Qed.

Lemma left_at_next x t : (length (x :: t) <= length bytes)%nat -> u32 (left_at (x :: t) + 1) = left_at t.
Proof.
  cbn [length]. intros H. unfold left_at, u32. cbn [length]. rewrite Zplus_mod_idemp_l. f_equal.
  replace (length bytes - length t)%nat with (S (length bytes - S (length t))) by lia. lia.
Qed.

Lemma put_step x t s q : 0 <= p -> (length (x :: t) <= length bytes)%nat -> calm false true s -> queue s q ->
  (length q < 512)%nat -> src s (x :: t) ->
  let s' := set_memory (put_byte p x (kmemory s)) s in
  calm false true s' /\ queue s' (q ++ [x]) /\ src s' t.
Proof.
  intros Hp Hlen Hc (ro & wo & Hh) Hroom [(pa & Hpa & Hb) Hsrc] s'.
  pose proof (differs_put p x (kmemory s)) as Hd. split_and!.
  - apply calm_memory; [done|]. intros a Ha. apply Hd. kconst. lia.
  - exists ro, wo. apply holds_put; [done| |done|done]. rewrite <- Hb. apply load8_range.
  - unfold src. rewrite <- (left_at_next x t) by done. eapply user_src_ext; [|exact Hsrc].
    eapply differs_page; [..|exact Hd]; [lia|by kconst].
Qed.

Lemma sends_loop todo : forall s q, 0 <= p -> (length todo <= length bytes)%nat -> calm false true s -> queue s q -> src s todo ->
  sends sent todo q (pipewrite_loop (length todo) p (left_at todo) s).
Proof.
  induction todo as [|x t IH]; intros s q Hp Hlen Hc Hq Hsrc; cbn [length pipewrite_loop].
  { split; [done|]. by rewrite app_nil_r. }
  apply sends_bind. apply sends_wait; [done|done|done|done| |].
  - intros q' s' Hc' Hq' Hroom Hsrc'. destruct (put_step x t s' q' Hp Hlen Hc' Hq' Hroom Hsrc') as (H1 & H2 & H3).
    destruct Hsrc' as [(pa & Hpa & Hb) _].
    apply sends_then, (wp_uload8 _ pa); [done|]. rewrite Hb. apply sends_then, wp_pget.
    apply sends_then, wp_lift, wp_modify, sends_then, wp_pput. rewrite left_at_next by done.
    apply sends_shift; [intros a s0; apply sent_shift|].
    cbn [length] in Hlen. apply IH; [done|lia|exact H1|exact H2|exact H3].
  - intros q' s' Hc' Href. split; [done|]. exists 0%nat. cbn [take]. rewrite app_nil_r. split; [cbn; lia|done].
Qed.

(** The result of the call. *)
Definition write_result (todo q : list Z) (r : Z) s : Prop :=
  calm false false s /\
  ((r = Z.of_nat (length bytes) /\ queue s (q ++ todo) /\ nobody_on (p + pipe_nread) s) \/
   (r = -1 /\ exists j, (j < length todo)%nat /\ refused s (q ++ take j todo))).

Lemma pipewrite_sends s q : 0 <= p -> 0 <= addr < 2 ^ 32 -> calm false false s -> queue s q ->
  user_src (kmemory s) (udir s) addr bytes ->
  sends write_result bytes q (pipewrite p addr (Z.of_nat (length bytes)) s).
Proof.
  intros Hp Ha Hc Hq Hsrc. unfold pipewrite. apply sends_then, wp_acquire_pipe; [apply (c_pipe _ _ _ Hc)|].
  rewrite Nat2Z.id. assert (addr = left_at bytes) as Hat.
  { unfold left_at. rewrite Nat.sub_diag, Z.add_0_r. by rewrite u32_small. }
  pose proof (differs_lock true s) as Hd.
  rewrite Hat. apply sends_bind. eapply sends_mono; [|apply sends_loop].
  - intros todo q' ok s' Hs. destruct ok; cbn [sent] in Hs.
    + destruct Hs as [Hc' Hq']. apply sends_then, wp_wakeup; [apply (c_len _ _ _ Hc')|apply (c_pt _ _ _ Hc')|].
      apply sends_then, wp_release_pipe; [apply (c_pipe _ _ _ Hc')|]. split.
      * by apply (calm_set_lock _ true), calm_wake.
      * left. split_and!; [done| |].
        -- eapply queue_lock; [|exact Hq']. apply (differs_lock false (set_procs _ s')).
        -- intros i r. exact (nobody_wake (p + pipe_nread) s' i r).
    + destruct Hs as (Hc' & j & Hj & Hr). split; [done|]. right. split; [done|]. by exists j.
  - done.
  - done.
  - by apply (calm_set_lock _ false).
  - by eapply queue_lock.
  - eapply src_lock; [exact Hd|done|]. unfold src. by rewrite <- Hat.
Qed.
End Writer.

(** ** Readers: where the bytes go *)
Fixpoint uvas (n : nat) (va : Z) : list Z :=
  match n with O => [] | S n' => va :: uvas n' (u32 (va + 1)) end.

(** The address [a] is not in the table entries that translate [va]. *)
Record untabled (m : memory) (d va a : Z) : Prop := {
  un_pde : a < d + 4 * PDX va \/ d + 4 * PDX va + 4 <= a;
  un_pte : let t := P2V (PTE_ADDR (load32 m (d + 4 * PDX va))) + 4 * PTX va in a < t \/ t + 4 <= a;
}.
Record user_dst (m : memory) (d : Z) (vas pas : list Z) : Prop := {
  ud_at : Forall2 (fun va pa => user_at m d va pa /\ writable_at m d va = true) vas pas;
  ud_tables : forall va pa, va ∈ vas -> pa ∈ pas -> untabled m d va (P2V pa);
  ud_nodup : NoDup (P2V <$> pas);
}.

(** Memory that differs at most in the pipe's page and at the addresses [pas]. *)
Definition moved (pas : list Z) (m m' : memory) : Prop := forall a, apart a 1 -> a ∉ P2V <$> pas -> m' a = m a.

Lemma moved_word pas m m' a : moved pas m m' -> apart a 4 -> (forall pa, pa ∈ pas -> P2V pa < a \/ a + 4 <= P2V pa) ->
  load32 m' a = load32 m a.
Proof.
  intros Hm Ha Hp. apply load32_agree. intros x Hx. apply Hm; [unfold apart in *; lia|].
  intros (pa & -> & Hin)%list_elem_of_fmap. specialize (Hp pa Hin). lia.
Qed.

Lemma moved_user_at pas m m' d va pa : moved pas m m' -> user_at m d va pa -> (forall pa', pa' ∈ pas -> untabled m d va (P2V pa')) ->
  user_at m' d va pa /\ writable_at m' d va = writable_at m d va /\ load32 m' (d + 4 * PDX va) = load32 m (d + 4 * PDX va).
Proof.
  intros Hm [H1 H2 H3 H4] Hu.
  assert (load32 m' (d + 4 * PDX va) = load32 m (d + 4 * PDX va)) as E.
  { apply (moved_word pas); [done..|]. intros pa' Hin. destruct (Hu pa' Hin). lia. }
  destruct (translate_ext m m' d va E) as [E2 E3].
  { apply (moved_word pas); [done..|]. intros pa' Hin. destruct (Hu pa' Hin) as [_ Hpte]. cbn in Hpte. lia. }
  split_and!; [|done|done]. constructor; [by rewrite E2|done|by rewrite E|done].
Qed.

Lemma user_dst_tail m m' d va pa vas pas : user_dst m d (va :: vas) (pa :: pas) -> moved [pa] m m' ->
  user_dst m' d vas pas.
Proof.
  intros [H1 H2 H3] Hm. apply Forall2_cons in H1 as [Hh Ht]. constructor.
  - assert (forall va', va' ∈ vas -> untabled m d va' (P2V pa)) as Hu by (intros va' Hin; apply H2; by left || by right).
    clear H2 H3 Hh. induction Ht as [|va' pa' vas' pas' [Hat Hw] Ht IH]; constructor.
    + destruct (moved_user_at [pa] m m' d va' pa' Hm Hat) as (H1 & H2 & _).
      { intros x Hx. apply list_elem_of_singleton in Hx as ->. apply Hu. by left. }
      split; [done|by rewrite H2].
    + apply IH. intros va'' Hin. apply Hu. by right.
  - intros va' pa' Hv Hp. assert (untabled m d va' (P2V pa')) as Hun by (apply H2; by right).
    assert (untabled m d va' (P2V pa)) as Hun0 by (apply H2; [by right|by left]).
    destruct (list_elem_of_lookup_1 _ _ Hv) as [i Hi].
    destruct (Forall2_lookup_l _ _ _ _ _ Ht Hi) as (pa'' & _ & Hat & _).
    destruct (moved_user_at [pa] m m' d va' pa'' Hm Hat) as (_ & _ & E).
    { intros x Hx. by apply list_elem_of_singleton in Hx as ->. }
    destruct Hun as [U1 U2]. constructor; [done|]. cbn. by rewrite E.
  - cbn in H3. by apply NoDup_cons in H3 as [_ H3].
Qed.

Lemma holds_page m m' q ro wo : (forall a, p <= a < p + PGSIZE -> m' a = m a) -> holds m p q ro wo -> holds m' p q ro wo.
Proof.
  intros Ha [H1 H2 H3 H4 H5].
  assert (forall o, 0 <= o <= 600 -> load32 m' (p + o) = load32 m (p + o)) as Hw.
  { intros o Ho. apply load32_agree. intros x Hx. apply Ha. kconst. lia. }
  constructor; rewrite ?Hw by (offs; lia); try done.
  intros j b Hj. rewrite <- (H3 j b Hj). unfold load8. rewrite Ha; [done|].
  kconst. offs. zlia.
Qed.

Lemma calm_page pt lk m s : calm pt lk s -> load32 m p = load32 (kmemory s) p -> calm pt lk (set_memory m s).
Proof. intros [] E. constructor; try done. rewrite <- c_pipe0. unfold pipe_locked. cbn. by rewrite E. Qed.

Lemma wp_ustore8 va pa v s (Q : unit -> kst F -> Prop) : user_at (kmemory s) (udir s) va pa ->
  writable_at (kmemory s) (udir s) va = true ->
  Q tt (set_memory (store8 (kmemory s) (P2V pa) v) s) -> wp (ustore8 va v) Q s.
Proof. intros [H _ _ _] Hw HQ. unfold wp, ustore8. unfold kmemory, udir in *. by rewrite H, Hw. Qed.

(** A state in which the user's buffer got [l] and the queue is [q]. *)
Record taken s (vas pas l q : list Z) s' : Prop := {
  t_calm : calm false true s';
  t_udir : udir s' = udir s;
  t_procs : procs s' = procs s;
  t_queue : exists ro wo, holds (kmemory s') p q ro wo;
  t_moved : moved (take (length l) pas) (kmemory s) (kmemory s');
  t_bytes : Forall2 (fun pa b => load8 (kmemory s') (P2V pa) = b) (take (length l) pas) l;
}.

(** One byte from the queue to the user. *)
Lemma take_step s va pa vas pas c q ro wo : 0 <= p -> calm false true s -> holds (kmemory s) p (c :: q) ro wo ->
  user_dst (kmemory s) (udir s) (va :: vas) (pa :: pas) ->
  let m1 := drop_byte p (kmemory s) in
  let m2 := store8 m1 (P2V pa) c in
  calm false true (set_memory m1 s) /\ user_at m1 (udir s) va pa /\ writable_at m1 (udir s) va = true /\
  calm false true (set_memory m2 s) /\ holds m2 p q ro wo /\ moved [pa] (kmemory s) m2 /\
  user_dst m2 (udir s) vas pas /\ load8 m2 (P2V pa) = c.
Proof.
  intros Hp Hc Hh Hd m1 m2. destruct (holds_take _ _ _ _ _ _ Hp Hh) as [Hb Hh1].
  pose proof (differs_drop p (kmemory s)) as Hdif. fold m1 in Hdif, Hh1.
  assert (differs p 0 PGSIZE (kmemory s) m1) as Hdp by (eapply differs_page; [..|exact Hdif]; [lia|by kconst]).
  assert (calm false true (set_memory m1 s)) as Hc1.
  { apply calm_page; [done|]. apply (differs_word _ _ _ _ _ _ Hdif). lia. }
  pose proof (ud_at _ _ _ _ Hd) as Hat. apply Forall2_cons in Hat as [[Hat Hw] _].
  destruct (user_at_ext _ _ _ _ _ Hdp Hat) as (Hat1 & Hw1 & _).
  pose proof (ua_byte _ _ _ _ Hat) as Hap. unfold apart in Hap.
  assert (moved [pa] (kmemory s) m2) as Hmv.
  { intros a Ha Hn. unfold m2. rewrite store8_ne by (intros ->; apply Hn; by left). apply Hdp. unfold apart in Ha. lia. }
  split_and!; [done|done|by rewrite Hw1| | |done|by eapply user_dst_tail|].
  - apply calm_page; [done|]. unfold m2. rewrite <- (differs_word _ _ _ _ _ p Hdif) by lia.
    apply load32_agree. intros x Hx. apply store8_ne. kconst. lia.
  - eapply holds_page; [|exact Hh1]. intros a Ha. apply store8_ne. lia.
  - unfold load8, m2. rewrite store8_eq. unfold u8. rewrite Z.mod_mod by lia. rewrite <- Hb. apply u8_small, load8_range.
Qed.

Lemma apart_moved pas m m' a : moved pas m m' -> apart a 1 -> a ∉ P2V <$> pas -> load8 m' a = load8 m a.
Proof. intros Hm Ha Hn. unfold load8. by rewrite Hm. Qed.

Lemma wp_piperead_loop n : forall va pas s q ro wo, 0 <= p -> calm false true s -> holds (kmemory s) p q ro wo ->
  user_dst (kmemory s) (udir s) (uvas n va) pas ->
  wp (piperead_loop n p va) (fun k s' => k = Z.of_nat (n `min` length q) /\
    taken s (uvas n va) pas (take n q) (drop n q) s') s.
Proof.
  induction n as [|n IH]; intros va pas s q ro wo Hp Hc Hh Hd; cbn [piperead_loop].
  { apply wp_ret. split; [done|]. constructor; try done. by exists ro, wo. }
  wp_step. apply wp_pget. wp_step. apply wp_pget. rewrite (holds_empty _ _ _ _ _ Hh).
  destruct q as [|c q].
  { apply wp_ret. split; [done|]. constructor; try done. by exists ro, wo. }
  rewrite bool_decide_eq_false_2 by done. wp_step. apply wp_lift, wp_gets. wp_step. apply wp_pput.
  cbn [uvas] in Hd |- *. pose proof (ud_at _ _ _ _ Hd) as Hat. destruct pas as [|pa pas]; [by inversion Hat|].
  destruct (take_step s va pa _ pas c q ro wo Hp Hc Hh Hd) as (Hc1 & Ha1 & Hw1 & Hc2 & Hh2 & Hmv & Hd2 & Hb2).
  destruct (holds_take _ _ _ _ _ _ Hp Hh) as [Hhead _]. unfold head_byte in Hhead.
  wp_step. apply (wp_ustore8 _ pa); [exact Ha1|exact Hw1|]. wp_step.
  change (load8 _ _) with (head_byte p (kmemory s)). rewrite (proj1 (holds_take _ _ _ _ _ _ Hp Hh)).
  eapply wp_mono; [apply (IH _ pas _ q ro wo Hp Hc2 Hh2 Hd2)|]. intros k s' [-> Ht]. apply wp_ret.
  split; [cbn [length]; lia|]. destruct Ht as [T1 T2 T3 T4 T5 T6]. pose proof (ud_nodup _ _ _ _ Hd) as Hnd.
  cbn [fmap list_fmap] in Hnd. apply NoDup_cons in Hnd as [Hni _].
  assert (P2V pa ∉ P2V <$> take (length (take n q)) pas) as Hni'.
  { intros (x & E & Hx)%list_elem_of_fmap. apply Hni. apply list_elem_of_fmap. exists x. split; [done|].
    by apply (subseteq_take (length (take n q)) pas). }
  apply Forall2_cons in Hat as [[Hat _] _]. pose proof (ua_byte _ _ _ _ Hat) as Hap.
  constructor; [done|done|done|done| |].
  - intros a Ha Hn. cbn [take length] in Hn. rewrite T5; [|done|intros Hin; apply Hn; by right].
    apply Hmv; [done|]. intros Hin. apply Hn. apply list_elem_of_singleton in Hin as ->. by left.
  - cbn [take length]. constructor; [|done]. rewrite (apart_moved _ _ _ _ T5 Hap Hni'). exact Hb2.
Qed.

(** The reader's buffer then reads as the bytes taken. *)
Lemma taken_src s va n pas l q s' : user_dst (kmemory s) (udir s) (uvas n va) pas -> (length l <= n)%nat ->
  taken s (uvas n va) pas l q s' -> user_src (kmemory s') (udir s') va l.
Proof.
  intros [H1 H2 _] Hlen [_ T2 _ _ T5 T6]. rewrite T2. clear T2.
  assert (forall va' pa, va' ∈ uvas n va -> pa ∈ take (length l) pas -> untabled (kmemory s) (udir s) va' (P2V pa)) as Hun.
  { intros va' pa Hv Hpa. apply H2; [done|]. by apply (subseteq_take (length l) pas). }
  clear H2. revert Hun T5. generalize (take (length l) pas) at 1 2 as moves. intros moves Hun Hmv.
  revert va n pas H1 Hlen T6 Hun. induction l as [|b l IH]; intros va n pas H1 Hlen T6 Hun; [done|].
  destruct n as [|n]; [cbn in Hlen; lia|]. cbn [uvas] in H1, Hun. destruct pas as [|pa pas]; [by inversion H1|].
  apply Forall2_cons in H1 as [[Hat _] H1]. cbn [length take] in T6. apply Forall2_cons in T6 as [Hb T6].
  split.
  - exists pa. split; [|done]. apply (moved_user_at moves (kmemory s)); [done|done|].
    intros pa' Hin. apply Hun; [by left|done].
  - apply (IH _ n pas); [done|cbn in Hlen; lia|done|]. intros va' pa' Hv Hp'. apply Hun; [by right|done].
Qed.

(** ** Readers

    [receives Q q r]: when the reader sleeps the queue is empty and the other
    end open, and woken in any state with a queue [q'] it goes on. *)
Section Reader.
Context (addr : Z) (n : nat).

Definition dst s (pas : list Z) : Prop := user_dst (kmemory s) (udir s) (uvas n addr) pas.

Fixpoint receives {A} (Q : list Z -> A -> kst F -> Prop) (q : list Z) (r : res (kst F) A) : Prop :=
  match r with
  | Ok a s => Q q a s
  | Sleeping c s k =>
      c = p + pipe_nread /\ dormant c s /\ q = [] /\ (exists ro wo, wo <> 0 /\ holds (kmemory s) p [] ro wo) /\
      forall q' s' pas, calm true false s' -> queue s' q' -> dst s' pas -> receives Q q' (k s')
  | NoFuel s => q = []
  | _ => False
  end.

Lemma receives_bind {A B} (Q : list Z -> B -> kst F -> Prop) (k : A -> K B) r : forall q,
  receives (fun q' a s' => receives Q q' (k a s')) q r -> receives Q q (bind_res r k).
Proof.
  induction r as [| | |c s resume IH| |]; intros q; simpl; try done.
  intros (Hc & Hd & Hq & Hh & Hk). split_and!; [done..|]. intros q' s' pas H1 H2 H3. eapply IH, Hk; done.
Qed.
Lemma receives_then {A B} (m : K A) (k : A -> K B) (Q : list Z -> B -> kst F -> Prop) q s :
  wp m (fun a s' => receives Q q (k a s')) s -> receives Q q (bind m k s).
Proof. intros H. apply receives_bind. revert H. unfold wp. by destruct (m s). Qed.

(** Nothing was read: the queue is empty, and the reader was killed. *)
Definition read_result (q : list Z) (r : Z) s : Prop :=
  calm false false s /\
  ((r = Z.of_nat (n `min` length q) /\ queue s (drop n q) /\ user_src (kmemory s) (udir s) addr (take n q) /\
    nobody_on (p + pipe_nwrite) s) \/
   (r = -1 /\ q = [] /\ queue s [] /\ exists r, procs s !! me = Some r /\ killed r = true)).

Lemma dst_lock s s' pas : differs p 0 4 (kmemory s) (kmemory s') -> udir s' = udir s -> dst s pas -> dst s' pas.
Proof.
  intros Hd Hu [H1 H2 H3]. assert (moved [] (kmemory s) (kmemory s')) as Hm.
  { intros a Ha _. apply Hd. unfold apart in Ha. revert Ha. kconst. lia. }
  unfold dst. rewrite Hu. constructor; [|intros va pa Hv Hp|done].
  - eapply Forall2_impl; [exact H1|]. intros va pa [Hat Hw].
    destruct (moved_user_at [] _ _ _ _ _ Hm Hat) as (A1 & A2 & _); [by intros ? ?%not_elem_of_nil|].
    split; [done|by rewrite A2].
  - destruct (H2 va pa Hv Hp) as [U1 U2]. constructor; [done|]. destruct (list_elem_of_lookup_1 _ _ Hv) as [i Hi].
    destruct (Forall2_lookup_l _ _ _ _ _ H1 Hi) as (pa'' & _ & Hat & _).
    destruct (moved_user_at [] _ _ _ _ _ Hm Hat) as (_ & _ & E); [by intros ? ?%not_elem_of_nil|]. by rewrite E.
Qed.

Lemma read_wait_killed (Q : list Z -> bool -> kst F -> Prop) s ro wo : calm false true s -> holds (kmemory s) p [] ro wo ->
  (forall s', calm false false s' -> queue s' [] -> procs s' = procs s -> Q [] false s') ->
  receives Q [] ((release_pipe p ;;; ret false) s).
Proof.
  intros Hc Hh HQ. apply receives_then, wp_release_pipe; [apply (c_pipe _ _ _ Hc)|].
  apply HQ; [by apply (calm_set_lock _ true)| |done].
  eapply queue_lock; [apply differs_lock|]. by exists ro, wo.
Qed.

Lemma receives_wait (Q : list Z -> bool -> kst F -> Prop) fuel : forall s q pas,
  calm false true s -> queue s q -> dst s pas ->
  (forall q' s' pas, calm false true s' -> queue s' q' -> dst s' pas -> Q q' true s') ->
  (forall s' r, calm false false s' -> queue s' [] -> procs s' !! me = Some r -> killed r = true -> Q [] false s') ->
  receives Q q (piperead_wait fuel p s).
Proof.
  induction fuel as [|fuel IH]; intros s q pas Hc (ro & wo & Hh) Hd Hgo Hno; cbn [piperead_wait];
    apply receives_then, wp_pget, receives_then, wp_pget, receives_then, wp_pget;
    rewrite (holds_empty _ _ _ _ _ Hh), (h_writeopen _ _ _ _ _ Hh);
    destruct (bool_decide_reflect (q = [])) as [->|Hne]; cbn [andb];
    try (eapply Hgo; [done|by exists ro, wo|done]);
    destruct (Z.eqb_spec wo 0) as [->|Hwo]; cbn [negb];
    try (eapply Hgo; [done|by exists ro, 0|done]);
    apply receives_then, wp_gets, receives_then; rewrite (c_cur _ _ _ Hc);
    destruct (c_proc _ _ _ Hc) as [r Hr]; apply (wp_get_proc s me r); try done;
    destruct (killed r) eqn:Hk;
    try (by eapply read_wait_killed; [done|done|]; intros s' H1 H2 H3; apply (Hno s' r); [done|done|by rewrite H3|done]).
  - done.
  - destruct (pipe_sleep (p + pipe_nread) s Hc) as (s2 & k & Hrun & Hdo & Hdif & Hu & Hoth & Hk2).
    unfold bind. rewrite Hrun. cbn [bind_res receives]. split_and!; [done|done|done| |].
    + exists ro, wo. split; [done|]. eapply holds_lock; [|exact Hh]. intros a Ha. apply Hdif. lia.
    + intros q' s' pas' Hc' Hq' Hd'. rewrite Hk2.
      change (receives Q q' (bind (woken me (Some (pipe_lockref p))) (fun _ => piperead_wait fuel p) s')).
      apply receives_then, wp_pipe_woken; [done|]. intros s3 Hc3 Hd3 Hu3. eapply IH; [done| | |done|done].
      * by eapply queue_lock.
      * by eapply dst_lock.
Qed.

Lemma piperead_receives s q pas : 0 <= p -> calm false false s -> queue s q -> dst s pas ->
  receives read_result q (piperead p addr (Z.of_nat n) s).
Proof.
  intros Hp Hc Hq Hd. unfold piperead. apply receives_then, wp_acquire_pipe; [apply (c_pipe _ _ _ Hc)|].
  pose proof (differs_lock true s) as Hdif. rewrite Nat2Z.id. apply receives_bind.
  apply (receives_wait _ _ _ _ pas); [by apply (calm_set_lock _ false)|by eapply queue_lock|by eapply dst_lock| |].
  - intros q' s' pas' Hc' (ro & wo & Hh) Hd'. apply receives_then.
    eapply wp_mono; [by apply (wp_piperead_loop n addr pas' s' q' ro wo)|]. intros k s2 [-> Ht].
    assert (user_src (kmemory s2) (udir s2) addr (take n q')) as Hsrc.
    { apply (taken_src s' addr n pas' _ (drop n q')); [done|rewrite length_take; lia|done]. }
    destruct Ht as [T1 T2 T3 T4 T5 T6]. apply receives_then, wp_wakeup; [apply (c_len _ _ _ T1)|apply (c_pt _ _ _ T1)|].
    apply receives_then, wp_release_pipe; [apply (c_pipe _ _ _ T1)|]. split; [by apply (calm_set_lock _ true), calm_wake|].
    left. split_and!; [done| | |].
    + eapply queue_lock; [|exact T4]. apply (differs_lock false (set_procs _ s2)).
    + eapply user_src_ext; [|exact Hsrc]. eapply differs_page; [..|apply (differs_lock false (set_procs _ s2))]; [lia|by kconst].
    + intros i r. exact (nobody_wake (p + pipe_nwrite) s2 i r).
  - intros s' r Hc' Hq' Hr Hk. split; [done|]. right. split_and!; [done..|]. by exists r.
Qed.
End Reader.
End PipeProps.


(** C12: a pipe is a bounded first-in first-out queue of bytes.  From a state in
    which the pipe at [p] holds [q], [pipewrite] of [bytes] appends them in
    order: when it sleeps the ring is full with a prefix of what was left, no
    reader is asleep, and woken with any queue it goes on with exactly the
    rest; it returns the count with all bytes appended and the readers woken,
    or -1 with the ring full and the read end closed or the writer killed.
    [piperead] sleeps only on an empty queue with the write end open; it
    returns the number of bytes there were, up to [n], the user's buffer reads
    as those bytes, and the queue is what follows them; or -1 on an empty
    queue when the reader was killed.  The counters wrap around at 2^32. *)
Theorem pipe_is_queue {F : Type} {FL : FsLocks F} {W : Wakeups} (p : Z) (me : nat) (addr : Z) (bytes : list Z) (n : nat)
    (q pas : list Z) (s : kst F) :
  0 <= p -> 0 <= addr < 2 ^ 32 -> calm p me false false s -> queue p s q ->
  user_src p (kmemory s) (udir s) addr bytes -> dst p addr n s pas ->
  sends p me addr bytes (write_result p me bytes) bytes q (pipewrite p addr (Z.of_nat (length bytes)) s) /\
  receives p me addr n (read_result p me addr n) q (piperead p addr (Z.of_nat n) s).
Proof. intros Hp Ha Hc Hq Hs Hd. split; [by apply pipewrite_sends|by eapply piperead_receives]. Qed.

(** A pipe in a page of zeroes, used by the process of [alloc_kst]. *)
Definition pipe_demo : Z := 0x80407000.
Definition pipe_kst : kst unit := set_hw (mk_regs (V2P demo_dir) 0 0 0 0 0 null_seg) alloc_kst.
Definition pipe_wakeups : Wakeups := {| wakeups := 2 |}.

Lemma pipe_demo_calm : @calm unit no_locks pipe_demo 0 false false pipe_kst.
Proof. by constructor. Qed.
Lemma pipe_demo_queue : queue pipe_demo pipe_kst [].
Proof. exists 0, 0. constructor; try done. cbn. lia. Qed.
Lemma pipe_demo_at va : va = 16 \/ va = 17 ->
  user_at pipe_demo (kmemory pipe_kst) (udir pipe_kst) va (0x402000 + va) /\
  load8 (kmemory pipe_kst) (P2V (0x402000 + va)) = 0 /\ writable_at (kmemory pipe_kst) (udir pipe_kst) va = true.
Proof.
  intros [->| ->]; (split; [constructor|split; reflexivity]);
    first [reflexivity|vm_compute; left; discriminate|vm_compute; right; discriminate].
Qed.

#[local] Existing Instance no_locks.
#[local] Existing Instance pipe_wakeups.
Lemma pipe_is_queue_witness :
  sends pipe_demo 0 16 [0; 0] (write_result pipe_demo 0 [0; 0]) [0; 0] [] (pipewrite pipe_demo 16 2 pipe_kst) /\
  receives pipe_demo 0 16 2 (read_result pipe_demo 0 16 2) [] (piperead pipe_demo 16 2 pipe_kst).
Proof.
  apply (pipe_is_queue pipe_demo 0 16 [0; 0] 2 [] [0x402010; 0x402011] pipe_kst).
  - done.
  - by rewrite pow2_32.
  - apply pipe_demo_calm.
  - apply pipe_demo_queue.
  - destruct (pipe_demo_at 16) as (A1 & B1 & _); [by left|]. destruct (pipe_demo_at 17) as (A2 & B2 & _); [by right|].
    split; [exists 0x402010; exact (conj A1 B1)|]. split; [exists 0x402011; exact (conj A2 B2)|exact I].
  - constructor.
    + destruct (pipe_demo_at 16) as (A1 & _ & C1); [by left|]. destruct (pipe_demo_at 17) as (A2 & _ & C2); [by right|].
      constructor; [exact (conj A1 C1)|]. constructor; [exact (conj A2 C2)|constructor].
    + intros va pa Hv Hp. assert (va = 16 \/ va = 17) as Hv' by (by repeat (apply elem_of_cons in Hv as [->|Hv]; [auto|]); apply elem_of_nil in Hv).
      assert (pa = 0x402010 \/ pa = 0x402011) as Hp' by (by repeat (apply elem_of_cons in Hp as [->|Hp]; [auto|]); apply elem_of_nil in Hp).
      destruct Hv' as [->| ->], Hp' as [->| ->]; constructor; vm_compute; try (by left); by right.
    + by apply (bool_decide_unpack _).
Defined.
