(* ===== verification/Ksys.v ===== *)
(** * The whole kernel state, and the file system run by a process

    [kst ksys] puts the file system, the clock and a semaphore beside the
    process table and the memory.  [run_fs] runs file-system code for the
    current process: its wake-ups go to the process table, and where it waits
    for a sleep lock or for the log the process goes to sleep there.

    The kernel runs one piece of code between two points where a process gives
    up the processor, so the wake-ups recorded up to such a point are delivered
    when it is reached. *)
From Stdlib Require Import ZArith Lia Bool.
From stdpp Require Import base numbers list strings.
From S2P Require Import Prelude Machine Cstring Kalloc Segments Vm Kstate Shm Proc Sched Sem FsState.

Record ksys : Type := mk_ksys {
  k_fs : fsys;
  k_ticks : Z;
  k_tickslock : bool;
  k_sem : sem_t;
}.
Definition set_k_fs v k := mk_ksys v (k_ticks k) (k_tickslock k) (k_sem k).
Definition set_k_ticks v k := mk_ksys (k_fs k) v (k_tickslock k) (k_sem k).
Definition set_k_tickslock v k := mk_ksys (k_fs k) (k_ticks k) v (k_sem k).
Definition set_k_sem v k := mk_ksys (k_fs k) (k_ticks k) (k_tickslock k) v.

#[export] Instance ksys_sem : Lens ksys sem_t := {| lget := k_sem; lput := set_k_sem |}.
#[export] Instance ksys_sem_ok : LensOk ksys_sem.
Proof. by constructor; intros; [|destruct f|]. Qed.

(** A pipe's lock is a word of its page; it is never held across [sched]. *)
#[export] Instance ksys_locks : FsLocks ksys :=
  {| fs_locks := fun k => Z.of_nat (length (held (k_fs k))) + Z.b2z (k_tickslock k) + Z.b2z (sem_lk (k_sem k)) |}.

Abbreviation KS := (M (kst ksys)).

Definition fsys_of (s : kst ksys) : fsys := k_fs (fs s).
Definition put_fsys (f : fsys) (s : kst ksys) : kst ksys := set_fs (set_k_fs f (fs s)) s.

Section Run.
Context {P : ProcImage}.

(** Deliver the recorded wake-ups, oldest first. *)
Fixpoint wake_all (l : list Z) : KS unit :=
  match l with
  | [] => ret tt
  | c :: l' => wakeup c ;;; wake_all l'
  end.
Definition drain : KS unit :=
  f <- gets fsys_of ;;
  modify (put_fsys (set_wakes [] f)) ;;;
  wake_all (reverse (wakes f)).

(** The file-system code has released its own lock when it sleeps. *)
Definition no_lock : @lockref ksys := mk_lockref (ret tt) (ret tt).

(** The pid a sleep lock records, and the flag a waiting reader looks at, are
    the caller's. *)
Definition enter_fs : KS unit :=
  me <- myproc ;;
  p <- get_proc me ;;
  modify (fun s => put_fsys (set_fkilled (killed p) (set_fpid (pid p) (fsys_of s))) s).

Fixpoint run_res {A} (r : res fsys A) : KS A :=
  match r with
  | Ok a f => modify (put_fsys f) ;;; drain ;;; ret a
  | Panic w f => modify (put_fsys f) ;;; panic w
  | Exited f => modify (put_fsys f) ;;; exited
  | Sleeping c f resume =>
      modify (put_fsys f) ;;;
      drain ;;;
      sleep c (Some no_lock) ;;;
      enter_fs ;;;
      fun s => run_res (resume (fsys_of s)) s
  | Fault w f => modify (put_fsys f) ;;; fault w
  | NoFuel f => modify (put_fsys f) ;;; nofuel
  end.

Definition run_fs {A} (m : FS A) : KS A :=
  enter_fs ;;;
  fun s => run_res (m (fsys_of s)) s.
End Run.
