(* ===== verification/File.v ===== *)
(** * [file.c]: open files, and the pipes among them

    A [struct file] is an entry of the open-file table; a descriptor of a
    process holds its address.  Data go between files and user memory.  The
    file also makes the file system the one [proc.c] calls ([kernel_fs]). *)
From Stdlib Require Import ZArith Lia Bool.
From stdpp Require Import base numbers list strings.
From S2P Require Import Prelude Machine Cstring Kalloc Segments Vm Kstate Shm Proc Sched Sem FsState Bio Log Fs Pipe Ksys.

(** Where the linker put the tables, and the name of a pipe's lock. *)
Class FsPtrs : Type := {
  ftable_file : Z;
  icache_inode : Z;
  lit_pipe : Z;
}.
Definition sizeof_file : Z := 24.
Definition sizeof_inode : Z := 144.

Definition set_f_ref v f := mk_file (f_type f) v (f_readable f) (f_writable f) (f_pipe f) (f_ip f) (f_off f).
Definition set_f_type v f := mk_file v (f_ref f) (f_readable f) (f_writable f) (f_pipe f) (f_ip f) (f_off f).
Definition set_f_mode r w f := mk_file (f_type f) (f_ref f) r w (f_pipe f) (f_ip f) (f_off f).
Definition set_f_pipe v f := mk_file (f_type f) (f_ref f) (f_readable f) (f_writable f) v (f_ip f) (f_off f).
Definition set_f_ip v f := mk_file (f_type f) (f_ref f) (f_readable f) (f_writable f) (f_pipe f) v (f_off f).
Definition set_f_off v f := mk_file (f_type f) (f_ref f) (f_readable f) (f_writable f) (f_pipe f) (f_ip f) v.

(** ** The table *)
Definition filealloc : FS (option nat) :=
  fs_acquire FtableLock ;;;
  r <- for_find NFILE 0 (fun i =>
    f <- get_file i ;;
    if f_ref f =? 0 then
      upd_file i (set_f_ref 1) ;;;
      fs_release FtableLock ;;;
      ret (Some i)
    else ret None) ;;
  match r with
  | Some i => ret (Some i)
  | None => fs_release FtableLock ;;; ret None
  end.

Definition filedup (i : nat) : FS nat :=
  fs_acquire FtableLock ;;;
  f <- get_file i ;;
  if f_ref f <? 1 then panic "filedup"
  else
    upd_file i (set_f_ref (i32 (f_ref f + 1))) ;;;
    fs_release FtableLock ;;;
    ret i.

(** [fileclose] up to the point where it gives up the table: the file when
    this was the last reference. *)
Definition fileclose_drop (i : nat) : FS (option file) :=
  fs_acquire FtableLock ;;;
  f <- get_file i ;;
  if f_ref f <? 1 then panic "fileclose"
  else
    upd_file i (set_f_ref (f_ref f - 1)) ;;;
    if 0 <? f_ref f - 1 then
      fs_release FtableLock ;;;
      ret None
    else
      ff <- get_file i ;;
      upd_file i (set_f_ref 0) ;;;
      upd_file i (set_f_type FD_NONE) ;;;
      fs_release FtableLock ;;;
      ret (Some ff).

Section File.
Context {I : KernelImage} {L : Literals} {P : ProcImage} {FI : FsImage} {W : Wakeups} {DS : DevSw} {FP : FsPtrs}.

Definition file_ptr (i : nat) : Z := ftable_file + sizeof_file * Z.of_nat i.
Definition file_idx (p : Z) : nat := Z.to_nat ((p - ftable_file) / sizeof_file).
Definition inode_ptr (i : nat) : Z := icache_inode + sizeof_inode * Z.of_nat i.
Definition inode_idx (p : Z) : nat := Z.to_nat ((p - icache_inode) / sizeof_inode).

Definition fileclose (i : nat) : KS unit :=
  r <- run_fs (fileclose_drop i) ;;
  match r with
  | None => ret tt
  | Some ff =>
      match f_type ff with
      | FD_PIPE => pipeclose (f_pipe ff) (f_writable ff)
      | FD_INODE =>
          run_fs Log.begin_op ;;;
          run_fs (Fs.iput (f_ip ff)) ;;;
          run_fs Log.end_op
      | FD_NONE => ret tt
      end
  end.

Definition filestat (i : nat) : KS (option stat_t) :=
  f <- run_fs (get_file i) ;;
  match f_type f with
  | FD_INODE =>
      run_fs (ilock (f_ip f)) ;;;
      st <- run_fs (stati (f_ip f)) ;;
      run_fs (iunlock (f_ip f)) ;;;
      ret (Some st)
  | _ => ret None
  end.

Definition fileread (i : nat) (addr n : Z) : KS Z :=
  f <- run_fs (get_file i) ;;
  if negb (f_readable f) then ret (-1)
  else match f_type f with
  | FD_PIPE => piperead (f_pipe f) addr n
  | FD_INODE =>
      run_fs (ilock (f_ip f)) ;;;
      f <- run_fs (get_file i) ;;
      r <- run_fs (readi (f_ip f) (f_off f) (u32 n)) ;;
      ustore addr (snd r) ;;;
      when (0 <? fst r) (run_fs (upd_file i (fun f => set_f_off (u32 (f_off f + fst r)) f))) ;;;
      run_fs (iunlock (f_ip f)) ;;;
      ret (fst r)
  | FD_NONE => panic "fileread"
  end.

(** The bytes that can be read from a user address on, up to [n]. *)
Fixpoint upeek (n : nat) (va : Z) (s : kst ksys) : list Z :=
  match n with
  | O => []
  | S n' => match uload8 va s with Ok c _ => c :: upeek n' (u32 (va + 1)) s | _ => [] end
  end.

Definition write_max : Z := ((LOGSIZE - 1 - 1 - 2) / 2) * 512.

(** One round of [filewrite]; [writei] runs into a page fault when it reads
    past the last readable byte. *)
Definition filewrite_round (i : nat) (addr n1 : Z) : KS Z :=
  run_fs Log.begin_op ;;;
  f <- run_fs (get_file i) ;;
  run_fs (ilock (f_ip f)) ;;;
  f <- run_fs (get_file i) ;;
  src <- gets (upeek (Z.to_nat n1) addr) ;;
  r <- run_fs (writei (f_ip f) src (f_off f) n1) ;;
  if (0 <? r) && (Z.of_nat (length src) <? n1) then panic "trap"
  else
    when (0 <? r) (run_fs (upd_file i (fun f => set_f_off (u32 (f_off f + r)) f))) ;;;
    run_fs (iunlock (f_ip f)) ;;;
    run_fs Log.end_op ;;;
    ret r.

(** The loop of [filewrite]: the final value of [i]. *)
Fixpoint filewrite_loop (fuel : nat) (f : nat) (addr n i : Z) : KS Z :=
  if i <? n then
    match fuel with
    | O => nofuel
    | S fuel' =>
        let n1 := if write_max <? n - i then write_max else n - i in
        r <- filewrite_round f (u32 (addr + i)) n1 ;;
        if r <? 0 then ret i
        else if negb (r =? n1) then panic "short filewrite"
        else filewrite_loop fuel' f addr n (i + r)
    end
  else ret i.

Definition filewrite (i : nat) (addr n : Z) : KS Z :=
  f <- run_fs (get_file i) ;;
  if negb (f_writable f) then ret (-1)
  else match f_type f with
  | FD_PIPE => pipewrite (f_pipe f) addr n
  | FD_INODE =>
      k <- filewrite_loop (S (Z.to_nat (n / write_max))) i addr n 0 ;;
      ret (if k =? n then n else -1)
  | FD_NONE => panic "filewrite"
  end.

(** ** [pipealloc] *)
Definition close_opt (o : option nat) : KS unit :=
  match o with Some i => fileclose i | None => ret tt end.

Definition initlock_mem (p name : Z) : KS unit :=
  on_mem (write32 (p + 4) name) ;;;
  on_mem (write32 p 0) ;;;
  on_mem (write32 (p + 8) 0).

Definition pipealloc : KS (option (nat * nat)) :=
  f0 <- run_fs filealloc ;;
  f1 <- match f0 with Some _ => run_fs filealloc | None => ret None end ;;
  p <- match f1 with Some _ => on_mem kalloc | None => ret 0 end ;;
  match f0, f1 with
  | Some a, Some b =>
      if p =? 0 then close_opt f0 ;;; close_opt f1 ;;; ret None
      else
        pput p pipe_readopen 1 ;;;
        pput p pipe_writeopen 1 ;;;
        pput p pipe_nwrite 0 ;;;
        pput p pipe_nread 0 ;;;
        initlock_mem p lit_pipe ;;;
        run_fs (upd_file a (fun f => set_f_pipe p (set_f_mode true false (set_f_type FD_PIPE f)))) ;;;
        run_fs (upd_file b (fun f => set_f_pipe p (set_f_mode false true (set_f_type FD_PIPE f)))) ;;;
        ret (Some (a, b))
  | _, _ => close_opt f0 ;;; close_opt f1 ;;; ret None
  end.

(** ** The file system as [proc.c] sees it *)
Definition cwd_idx : KS nat :=
  me <- myproc ;;
  p <- get_proc me ;;
  ret (inode_idx (cwd p)).

Definition kernel_fs : FsOps ksys :=
  {| Kstate.filedup := fun p => i <- run_fs (filedup (file_idx p)) ;; ret (file_ptr i);
     Kstate.fileclose := fun p => fileclose (file_idx p);
     Kstate.idup := fun p => i <- run_fs (Fs.idup (inode_idx p)) ;; ret (inode_ptr i);
     Kstate.iput := fun p => run_fs (Fs.iput (inode_idx p));
     Kstate.begin_op := run_fs Log.begin_op;
     Kstate.end_op := run_fs Log.end_op;
     Kstate.namei := fun path =>
       c <- cwd_idx ;;
       r <- run_fs (Fs.namei c path) ;;
       ret (match r with Some i => inode_ptr i | None => 0 end) |}.
End File.
