(* ===== verification/Syscall.v ===== *)
(** * [syscall.c], [sysproc.c]: system-call arguments and process calls

    Arguments come from the user stack, through the page tables of the caller.
    An out-parameter is the result in [Some]; [None] is the return value -1.
    A string argument is its address and its bytes without the final 0. *)
From Stdlib Require Import ZArith Lia Bool.
From stdpp Require Import base numbers list strings.
From S2P Require Import Prelude Machine Cstring Kalloc Segments Vm Kstate Shm Proc Sched Sem FsState Bio Log Fs Pipe Ksys File.

Class TimeImage : Type := { ticks_addr : Z }.

Section Args.
Context {F : Type}.
Abbreviation K := (M (kst F)).

Definition curproc : K proc := me <- myproc ;; get_proc me.

Definition fetchint (addr : Z) : K (option Z) :=
  p <- curproc ;;
  if (sz p <=? addr) || (sz p <? u32 (addr + 4)) then ret None
  else
    v <- uload32 addr ;;
    ret (Some (i32 v)).

(** The bytes up to the first 0, looking at [n] of them at most. *)
Fixpoint fetchstr_loop (n : nat) (a : Z) : K (option (list Z)) :=
  match n with
  | O => ret None
  | S n' =>
      c <- uload8 a ;;
      if c =? 0 then ret (Some [])
      else
        r <- fetchstr_loop n' (a + 1) ;;
        ret (option_map (cons c) r)
  end.

Definition fetchstr (addr : Z) : K (option (Z * list Z)) :=
  p <- curproc ;;
  if sz p <=? addr then ret None
  else
    r <- fetchstr_loop (Z.to_nat (sz p - addr)) addr ;;
    ret (option_map (fun b => (addr, b)) r).

Definition argint (n : Z) : K (option Z) :=
  p <- curproc ;;
  esp <- on_mem (read32 (tf p + tf_esp)) ;;
  fetchint (u32 (esp + 4 + 4 * n)).

Definition argptr (n size : Z) : K (option Z) :=
  p <- curproc ;;
  r <- argint n ;;
  match r with
  | None => ret None
  | Some i =>
      let a := u32 i in
      if (a <? KERNBASE) && (KERNBASE - PGSIZE * 32 <=? a) then ret (Some a)
      else if (size <? 0) || (sz p <=? a) || (sz p <? u32 (a + size)) then ret None
      else ret (Some a)
  end.

Definition argstr (n : Z) : K (option (Z * list Z)) :=
  r <- argint n ;;
  match r with
  | None => ret None
  | Some i => fetchstr (u32 i)
  end.
End Args.

(** ** [sysproc.c] *)
Section Sysproc.
Context {I : KernelImage} {L : Literals} {P : ProcImage} {FI : FsImage} {W : Wakeups} {DS : DevSw} {FP : FsPtrs} {TI : TimeImage}.
#[local] Existing Instance kernel_fs.

Definition sys_fork : KS Z := fork.
Definition sys_exit : KS Z := exit ;;; ret 0.
Definition sys_wait : KS Z := wait wakeups.

Definition sys_kill : KS Z :=
  r <- argint 0 ;;
  match r with None => ret (-1) | Some pd => kill pd end.

Definition sys_getpid : KS Z := p <- curproc ;; ret (pid p).

Definition sys_sbrk : KS Z :=
  r <- argint 0 ;;
  match r with
  | None => ret (-1)
  | Some n =>
      p <- curproc ;;
      let addr := i32 (sz p) in
      g <- growproc n ;;
      if g <? 0 then ret (-1) else ret addr
  end.

Definition ticks_of (s : kst ksys) : Z := k_ticks (fs s).
Definition tickslock_of (s : kst ksys) : bool := k_tickslock (fs s).
Definition set_tickslock (b : bool) (s : kst ksys) : kst ksys := set_fs (set_k_tickslock b (fs s)) s.
Definition acquire_ticks : KS unit := acquire_flag tickslock_of set_tickslock.
Definition release_ticks : KS unit := release_flag tickslock_of set_tickslock.
Definition ticks_lockref : lockref := mk_lockref acquire_ticks release_ticks.

(** [n] is converted to [uint] by the comparison. *)
Fixpoint sys_sleep_loop (fuel : nat) (ticks0 n : Z) : KS Z :=
  t <- gets ticks_of ;;
  if u32 (t - ticks0) <? u32 n then
    p <- curproc ;;
    if killed p then release_ticks ;;; ret (-1)
    else
      match fuel with
      | O => nofuel
      | S fuel' =>
          sleep ticks_addr (Some ticks_lockref) ;;;
          sys_sleep_loop fuel' ticks0 n
      end
  else release_ticks ;;; ret 0.

Definition sys_sleep : KS Z :=
  r <- argint 0 ;;
  match r with
  | None => ret (-1)
  | Some n =>
      acquire_ticks ;;;
      ticks0 <- gets ticks_of ;;
      sys_sleep_loop wakeups ticks0 n
  end.

Definition sys_uptime : KS Z :=
  acquire_ticks ;;;
  xticks <- gets ticks_of ;;
  release_ticks ;;;
  ret (i32 xticks).

(** The key is what can be read from its address on. *)
Definition sys_shmget : KS Z :=
  r <- argstr 0 ;;
  match r with
  | None => ret (-1)
  | Some (a, b) =>
      let temp := Z.of_nat (length b) in
      if (temp <=? 0) || (16 <? temp) then ret (-1)
      else
        key <- gets (upeek 17 a) ;;
        v <- shmget exit key ;;
        ret (i32 v)
  end.

Definition sys_shmrem : KS Z :=
  r <- argstr 0 ;;
  match r with
  | None => ret (-1)
  | Some (a, b) =>
      let temp := Z.of_nat (length b) in
      if (temp <=? 0) || (16 <? temp) then ret (-1)
      else
        key <- gets (upeek 17 a) ;;
        shmrem key
  end.

(** The semaphore calls, for pointers to the semaphore of the state. *)
Definition sizeof_sem_ptr : Z := 4.

Definition sys_sem_init : KS Z :=
  r <- argptr 0 sizeof_sem_ptr ;;
  match r with
  | None => ret (-1)
  | Some sem =>
      v <- argint 1 ;;
      match v with
      | None => ret (-1)
      | Some value => sem_init value ;;; ret 1
      end
  end.

Definition sys_sem_up : KS Z :=
  r <- argptr 0 sizeof_sem_ptr ;;
  match r with
  | None => ret (-1)
  | Some sem => sem_up sem ;;; ret 1
  end.

Definition sys_sem_down : KS Z :=
  r <- argptr 0 sizeof_sem_ptr ;;
  match r with
  | None => ret (-1)
  | Some sem => sem_down wakeups sem ;;; ret 1
  end.

Definition sys_isActive : KS Z :=
  r <- argptr 0 sizeof_sem_ptr ;;
  match r with
  | None => ret (-1)
  | Some _ => isActive
  end.
End Sysproc.
