(* ===== verification/SyscallProps.v ===== *)
(** * What the argument checks of [syscall.c] accept

    For a process whose memory below [sz] is mapped: the value of an integer
    argument, the pointers [argptr] lets through and the strings [argstr]
    finds, as functions of the bytes of user memory. *)
From Stdlib Require Import ZArith Lia Bool.
From stdpp Require Import base numbers list strings.
From S2P Require Import Prelude Machine Cstring Kalloc Segments Vm VmInv VmMap VmUser VmAlloc VmKern VmCopy VmProps Kstate Shm Proc Sched ProcFamily ProcAlloc Sem FsState Bio Log Fs Pipe PipeProps Ksys File Syscall.

Section Args.
Context {F : Type}.
Implicit Types s : kst F.

(** The byte, and the 32-bit word, at a user address. *)
Definition ubyte s (va : Z) : Z := match uload8 va s with Ok c _ => c | _ => 0 end.
Definition uword s (va : Z) : Z := get32 [ubyte s va; ubyte s (va + 1); ubyte s (va + 2); ubyte s (va + 3)] 0.

Record user_ok s (p : proc) : Prop := {
  uo_proc : procs s !! cur s = Some p;
  uo_sz : 0 <= sz p <= KERNBASE;
  uo_mapped : forall va, 0 <= va < sz p -> is_Some (translate (kmemory s) (udir s) va);
}.

(** Where the [n]th argument is, and whether that is in user memory. *)
Definition arg_addr s (p : proc) (n : Z) : Z := u32 (load32 (kmemory s) (tf p + tf_esp) + 4 + 4 * n).
Definition arg_there s (p : proc) (n : Z) : bool := arg_addr s p n + 4 <=? sz p.
Definition in_window (a : Z) : bool := (a <? KERNBASE) && (KERNBASE - PGSIZE * 32 <=? a).

Lemma run_uload8 s p va : user_ok s p -> 0 <= va < sz p -> uload8 va s = Ok (ubyte s va) s.
Proof.
  intros Hu Hva. destruct (uo_mapped _ _ Hu va Hva) as [pa Hpa]. unfold ubyte, uload8.
  unfold kmemory, udir in Hpa. by rewrite Hpa.
Qed.
Lemma ubyte_range s va : 0 <= ubyte s va < 256.
Proof. unfold ubyte, uload8. destruct (translate _ _ _); [apply load8_range|lia]. Qed.
Lemma uword_range s va : 0 <= uword s va < 2 ^ 32.
Proof.
  unfold uword, get32, get16, get8. cbn [nth Nat.add]. rewrite pow2_32.
  pose proof (ubyte_range s va). pose proof (ubyte_range s (va + 1)). pose proof (ubyte_range s (va + 2)).
  pose proof (ubyte_range s (va + 3)). lia.
Qed.

Lemma run_uload32 s p va : user_ok s p -> 0 <= va -> va + 4 <= sz p -> uload32 va s = Ok (uword s va) s.
Proof.
  intros Hu H0 H4. pose proof (uo_sz _ _ Hu) as Hsz.
  assert (forall x, 0 <= x <= sz p -> u32 x = x) as Hs by (intros x Hx; apply u32_small; klia).
  unfold uload32, uload, bind, ret. rewrite (run_uload8 s p va) by (done || lia). cbn [bind_res].
  rewrite (Hs (va + 1)) by lia. rewrite (run_uload8 s p (va + 1)) by (done || lia). cbn [bind_res].
  rewrite (Hs (va + 1 + 1)) by lia. replace (va + 1 + 1) with (va + 2) by lia.
  rewrite (run_uload8 s p (va + 2)) by (done || lia). cbn [bind_res].
  rewrite (Hs (va + 2 + 1)) by lia. replace (va + 2 + 1) with (va + 3) by lia.
  rewrite (run_uload8 s p (va + 3)) by (done || lia). reflexivity.
Qed.

Lemma run_curproc s p : procs s !! cur s = Some p -> curproc s = Ok p s.
Proof. intros H. unfold curproc, myproc, bind, gets, get_proc. cbn [bind_res]. by rewrite H. Qed.

Lemma run_fetchint s p a : user_ok s p -> 0 <= a < 2 ^ 32 ->
  fetchint a s = Ok (if a + 4 <=? sz p then Some (i32 (uword s a)) else None) s.
Proof.
  intros Hu Ha. pose proof (uo_sz _ _ Hu) as Hsz. unfold fetchint. erewrite bind_ok by (apply run_curproc, Hu).
  destruct (Z.leb_spec (sz p) a) as [Hge|Hlt]; cbn [orb].
  { by destruct (Z.leb_spec (a + 4) (sz p)); [lia|]. }
  rewrite u32_small by klia. destruct (Z.ltb_spec (sz p) (a + 4)), (Z.leb_spec (a + 4) (sz p)); try lia; [done|].
  erewrite bind_ok by (apply (run_uload32 s p); [done|lia|lia]). done.
Qed.

Lemma run_read32 s a : on_mem (read32 a) s = Ok (load32 (kmemory s) a) s.
Proof. by destruct s. Qed.

Lemma run_argint s p n : user_ok s p ->
  argint n s = Ok (if arg_there s p n then Some (i32 (uword s (arg_addr s p n))) else None) s.
Proof.
  intros Hu. unfold argint. erewrite bind_ok by (apply run_curproc, Hu).
  erewrite bind_ok by apply run_read32. apply run_fetchint; [done|apply u32_range].
Qed.

Lemma u32_i32 x : 0 <= x < 2 ^ 32 -> u32 (i32 x) = x.
Proof. intros. i32lia. Qed.

Lemma run_argptr s p n size : user_ok s p -> - 2 ^ 31 <= size < 2 ^ 31 ->
  let a := uword s (arg_addr s p n) in
  argptr n size s = Ok (if arg_there s p n && (in_window a || ((0 <=? size) && (a <? sz p) && (a + size <=? sz p)))
                        then Some a else None) s.
Proof.
  intros Hu Hsize a. pose proof (uo_sz _ _ Hu) as Hsz. pose proof (uword_range s (arg_addr s p n)) as Ha. fold a in Ha.
  unfold argptr. erewrite bind_ok by (apply run_curproc, Hu). erewrite bind_ok by (by apply run_argint).
  destruct (arg_there s p n); cbn [andb]; [|done]. fold a. rewrite u32_i32 by done. unfold in_window.
  destruct ((a <? KERNBASE) && (KERNBASE - PGSIZE * 32 <=? a)); cbn [orb]; [done|].
  destruct (Z.ltb_spec size 0), (Z.leb_spec 0 size); cbn [orb andb]; try lia; [done|].
  destruct (Z.leb_spec (sz p) a), (Z.ltb_spec a (sz p)); cbn [orb andb]; try lia; [done|].
  rewrite u32_small by klia. by destruct (Z.ltb_spec (sz p) (a + size)), (Z.leb_spec (a + size) (sz p)); try lia.
Qed.

(** The string that starts at [a] and ends before [a + n]. *)
Definition string_at s (a : Z) (n : nat) (r : option (list Z)) : Prop :=
  match r with
  | Some b => (length b < n)%nat /\ (forall j x, b !! j = Some x -> x = ubyte s (a + Z.of_nat j) /\ x <> 0) /\
      ubyte s (a + Z.of_nat (length b)) = 0
  | None => forall j, (j < n)%nat -> ubyte s (a + Z.of_nat j) <> 0
  end.

Lemma run_fetchstr_loop s p n : forall a, user_ok s p -> 0 <= a -> a + Z.of_nat n <= sz p ->
  exists r, fetchstr_loop n a s = Ok r s /\ string_at s a n r.
Proof.
  induction n as [|n IH]; intros a Hu H0 Hn; cbn [fetchstr_loop].
  { exists None. split; [done|]. intros j Hj. lia. }
  erewrite bind_ok by (apply (run_uload8 s p); [done|lia]). destruct (Z.eqb_spec (ubyte s a) 0) as [Hz|Hnz].
  { exists (Some []). split; [done|]. split; [cbn; lia|]. split; [done|]. cbn. by rewrite Z.add_0_r. }
  destruct (IH (a + 1) Hu) as (r & Hr & Hs); [lia|lia|]. erewrite bind_ok by exact Hr. eexists. split; [done|].
  assert (forall j, a + 1 + Z.of_nat j = a + Z.of_nat (S j)) as Hj by lia.
  destruct r as [b|]; cbn [option_map string_at] in *.
  - destruct Hs as (Hl & Hb & Hend). split; [cbn; lia|]. split.
    + intros [|j] x; cbn; [intros [= <-]; by rewrite Z.add_0_r|]. intros Hx. rewrite <- Hj. by apply Hb.
    + cbn [length]. by rewrite <- Hj.
  - intros [|j] Hlt; [by rewrite Z.add_0_r|]. rewrite <- Hj. apply Hs. lia.
Qed.

Lemma run_argstr s p n : user_ok s p ->
  let a := uword s (arg_addr s p n) in
  exists r, argstr n s = Ok r s /\
    match r with
    | Some (a', b) => arg_there s p n = true /\ a' = a /\ a < sz p /\ string_at s a (Z.to_nat (sz p - a)) (Some b)
    | None => arg_there s p n = true -> a < sz p -> string_at s a (Z.to_nat (sz p - a)) None
    end.
Proof.
  intros Hu a. pose proof (uword_range s (arg_addr s p n)) as Ha. fold a in Ha.
  unfold argstr. erewrite bind_ok by (by apply run_argint).
  destruct (arg_there s p n); [|by exists None]. fold a. rewrite u32_i32 by done. unfold fetchstr.
  erewrite bind_ok by (apply run_curproc, Hu). destruct (Z.leb_spec (sz p) a) as [Hge|Hlt].
  { exists None. split; [done|]. lia. }
  destruct (run_fetchstr_loop s p (Z.to_nat (sz p - a)) a Hu) as (r & Hr & Hs); [lia|lia|].
  erewrite bind_ok by exact Hr. eexists. split; [done|]. destruct r; [split; [done|]; split; [done|]; split; [done|exact Hs]|intros _ _; exact Hs].
Qed.
End Args.

(** C13: the checks on system-call arguments.  For a process whose memory below
    [sz] is mapped, no check faults.  An integer argument is the word on the
    user stack when that lies below [sz], and refused otherwise.  [argptr]
    lets a pointer through exactly when the whole block lies below [sz], or
    when the address is in the window of the shared pages; in the window
    neither the size nor the mapping is looked at.  [argstr] finds exactly the
    strings that end below [sz]. *)
Theorem argument_checks {F : Type} (s : kst F) (p : proc) (n size : Z) :
  user_ok s p -> - 2 ^ 31 <= size < 2 ^ 31 ->
  let a := uword s (arg_addr s p n) in
  argint n s = Ok (if arg_there s p n then Some (i32 a) else None) s /\
  argptr n size s = Ok (if arg_there s p n && (in_window a || ((0 <=? size) && (a <? sz p) && (a + size <=? sz p)))
                        then Some a else None) s /\
  exists r, argstr n s = Ok r s /\
    match r with
    | Some (a', b) => arg_there s p n = true /\ a' = a /\ a < sz p /\ string_at s a (Z.to_nat (sz p - a)) (Some b)
    | None => arg_there s p n = true -> a < sz p -> string_at s a (Z.to_nat (sz p - a)) None
    end.
Proof. intros Hu Hsize. split; [by apply run_argint|]. split; [by apply run_argptr|by apply run_argstr]. Qed.

(** A process of one page; its trap frame is full of zeroes, so its stack
    pointer is 0 and the first argument is the word at address 4. *)
Definition arg_proc : proc := set_tf 0x80407000 (plain_proc RUNNING 1).
Definition arg_kst : kst unit :=
  mk_kst demo_space (mk_shm false [] []) false [arg_proc] 2 None 0 (mk_regs (V2P demo_dir) 0 0 0 0 0 null_seg) tt.

Lemma arg_user_ok : user_ok arg_kst arg_proc.
Proof.
  constructor; [done|by kconst|]. intros va Hva. change (sz arg_proc) with 4096 in Hva.
  exists (0x402000 + va). unfold translate. change (kmemory arg_kst) with demo_mem. change (udir arg_kst) with demo_dir.
  assert (PDX va = 0) as -> by (rewrite PDX_eq; zlia). assert (PTX va = 0) as -> by (rewrite PTX_eq; zlia).
  replace (va mod PGSIZE) with va by (kconst; zlia). reflexivity.
Qed.

Lemma argument_checks_witness : argint 0 arg_kst = Ok (Some 0) arg_kst /\ argptr 0 8 arg_kst = Ok (Some 0) arg_kst.
Proof.
  destruct (argument_checks arg_kst arg_proc 0 8 arg_user_ok) as (H1 & H2 & _); [by rewrite pow2_31|].
  split; [exact H1|exact H2].
Defined.
