(* ===== verification/Sysfile.v ===== *)
(** * [sysfile.c]: the file-system calls

    Each call checks its arguments for the calling process and then runs its
    transaction; the transactions are computations of the file system alone.
    A path is the bytes of the string with its final 0, [cwd] the current
    directory of the caller. *)
From Stdlib Require Import ZArith Lia Bool.
From stdpp Require Import base numbers list strings.
From S2P Require Import Prelude Machine Cstring Kalloc Segments Vm Kstate Shm Proc Sched Sem FsState Bio Log Fs Pipe Ksys File Syscall.

Definition O_RDONLY : Z := 0.
Definition O_WRONLY : Z := 1.
Definition O_RDWR : Z := 2.
Definition O_CREATE : Z := 0x200.
Definition MAXARG : Z := 32.
Definition sizeof_stat : Z := 20.

(** [struct stat] in memory: two gaps follow the [short] fields. *)
Definition encode_stat (st : stat_t) : list (nat * list Z) :=
  [(0%nat, le16 (st_type st)); (4%nat, le32 (st_dev st)); (8%nat, le32 (st_ino st));
   (12%nat, le16 (st_nlink st)); (16%nat, le32 (st_size st))].

Definition dot : list Z := [46; 0].
Definition dotdot : list Z := [46; 46; 0].

Section Transactions.
Context {FI : FsImage} {W : Wakeups} {DS : DevSw}.

(** ** Transactions *)
Definition link_undo (ip : nat) : FS Z :=
  ilock ip ;;;
  upd_inode ip (fun x => set_i_nlink (i16 (i_nlink x - 1)) x) ;;;
  iupdate ip ;;;
  iunlockput ip ;;;
  end_op ;;;
  ret (-1).

Definition link_tx (cwd : nat) (old new : list Z) : FS Z :=
  begin_op ;;;
  r <- namei cwd old ;;
  match r with
  | None => end_op ;;; ret (-1)
  | Some ip =>
      ilock ip ;;;
      x <- get_inode ip ;;
      if i_type x =? T_DIR then
        iunlockput ip ;;;
        end_op ;;;
        ret (-1)
      else
        upd_inode ip (set_i_nlink (i16 (i_nlink x + 1))) ;;;
        iupdate ip ;;;
        iunlock ip ;;;
        d <- nameiparent cwd new (replicate DIRSIZ 0) ;;
        match d with
        | (None, _) => link_undo ip
        | (Some dp, name) =>
            ilock dp ;;;
            y <- get_inode dp ;;
            x <- get_inode ip ;;
            bad <- (if negb (i_dev y =? i_dev x) then ret true
                    else r <- dirlink dp name (i_inum x) ;; ret (r <? 0)) ;;
            if bad : bool then
              iunlockput dp ;;;
              link_undo ip
            else
              iunlockput dp ;;;
              iput ip ;;;
              end_op ;;;
              ret 0
        end
  end.

(** The loop of [isdirempty] from entry [off] on. *)
Fixpoint isdirempty_loop (fuel : nat) (dp : nat) (off : Z) : FS bool :=
  x <- get_inode dp ;;
  if i_size x <=? off then ret true else
  match fuel with
  | O => nofuel
  | S fuel' =>
      r <- readi dp off 16 ;;
      if negb (fst r =? 16) then panic "isdirempty: readi" else
      if negb (de_inum (snd r) =? 0) then ret false else isdirempty_loop fuel' dp (off + 16)
  end.
Definition isdirempty (dp : nat) : FS bool :=
  x <- get_inode dp ;;
  isdirempty_loop (dir_fuel x) dp 32.

(** [namecmp(s, t) == 0]. *)
Definition same_name (s t : list Z) : FS bool :=
  match namecmp s t with
  | Some c => ret (c =? 0)
  | None => fault "namecmp"
  end.

Definition unlink_bad (dp : nat) : FS Z :=
  iunlockput dp ;;;
  end_op ;;;
  ret (-1).

Definition unlink_entry (dp ip : nat) (off : Z) : FS Z :=
  r <- writei dp (replicate 16 0) off 16 ;;
  if negb (r =? 16) then panic "unlink: writei" else
  x <- get_inode ip ;;
  when (i_type x =? T_DIR) (
    upd_inode dp (fun y => set_i_nlink (i16 (i_nlink y - 1)) y) ;;;
    iupdate dp) ;;;
  iunlockput dp ;;;
  upd_inode ip (fun x => set_i_nlink (i16 (i_nlink x - 1)) x) ;;;
  iupdate ip ;;;
  iunlockput ip ;;;
  end_op ;;;
  ret 0.

Definition unlink_tx (cwd : nat) (path : list Z) : FS Z :=
  begin_op ;;;
  d <- nameiparent cwd path (replicate DIRSIZ 0) ;;
  match d with
  | (None, _) => end_op ;;; ret (-1)
  | (Some dp, name) =>
      ilock dp ;;;
      d1 <- same_name name dot ;;
      d2 <- (if d1 : bool then ret true else same_name name dotdot) ;;
      if d2 : bool then unlink_bad dp else
      r <- dirlookup dp name ;;
      match r with
      | None => unlink_bad dp
      | Some (ip, off) =>
          ilock ip ;;;
          x <- get_inode ip ;;
          if i_nlink x <? 1 then panic "unlink: nlink < 1" else
          full <- (if i_type x =? T_DIR then e <- isdirempty ip ;; ret (negb e) else ret false) ;;
          if full : bool then
            iunlockput ip ;;;
            unlink_bad dp
          else unlink_entry dp ip off
      end
  end.

Definition create_new (dp : nat) (name : list Z) (type major minor : Z) : FS (option nat) :=
  y <- get_inode dp ;;
  ip <- ialloc (i_dev y) type ;;
  ilock ip ;;;
  upd_inode ip (fun x => set_i_nlink 1 (set_i_devno major minor x)) ;;;
  iupdate ip ;;;
  x <- get_inode ip ;;
  when (type =? T_DIR) (
    upd_inode dp (fun y => set_i_nlink (i16 (i_nlink y + 1)) y) ;;;
    iupdate dp ;;;
    r <- dirlink ip dot (i_inum x) ;;
    if r <? 0 then panic "create dots" else
    r <- dirlink ip dotdot (i_inum y) ;;
    if r <? 0 then panic "create dots" else ret tt) ;;;
  r <- dirlink dp name (i_inum x) ;;
  if r <? 0 then panic "create: dirlink" else
  iunlockput dp ;;;
  ret (Some ip).

Definition create (cwd : nat) (path : list Z) (type major minor : Z) : FS (option nat) :=
  d <- nameiparent cwd path (replicate DIRSIZ 0) ;;
  match d with
  | (None, _) => ret None
  | (Some dp, name) =>
      ilock dp ;;;
      r <- dirlookup dp name ;;
      match r with
      | Some (ip, _) =>
          iunlockput dp ;;;
          ilock ip ;;;
          x <- get_inode ip ;;
          if (type =? T_FILE) && (i_type x =? T_FILE) then ret (Some ip)
          else
            iunlockput ip ;;;
            ret None
      | None => create_new dp name type major minor
      end
  end.

(** The inode [open] goes on with, locked; [None] after [end_op]. *)
Definition open_inode (cwd : nat) (path : list Z) (omode : Z) : FS (option nat) :=
  if negb (Z.land omode O_CREATE =? 0) then
    r <- create cwd path T_FILE 0 0 ;;
    match r with
    | None => end_op ;;; ret None
    | Some ip => ret (Some ip)
    end
  else
    r <- namei cwd path ;;
    match r with
    | None => end_op ;;; ret None
    | Some ip =>
        ilock ip ;;;
        x <- get_inode ip ;;
        if (i_type x =? T_DIR) && negb (omode =? O_RDONLY) then
          iunlockput ip ;;;
          end_op ;;;
          ret None
        else ret (Some ip)
    end.

(** [mkdir] and [mknod] after [begin_op], with their arguments or without. *)
Definition mk_tx (cwd : nat) (arg : option (list Z * Z * Z * Z)) : FS Z :=
  r <- match arg with
       | None => ret None
       | Some (path, type, major, minor) => create cwd path type major minor
       end ;;
  match r with
  | None => end_op ;;; ret (-1)
  | Some ip =>
      iunlockput ip ;;;
      end_op ;;;
      ret 0
  end.

(** [chdir] after [begin_op]: the new current directory. *)
Definition chdir_tx (cwd : nat) (path : option (list Z)) : FS (option nat) :=
  r <- match path with None => ret None | Some path => namei cwd path end ;;
  match r with
  | None => end_op ;;; ret None
  | Some ip =>
      ilock ip ;;;
      x <- get_inode ip ;;
      if negb (i_type x =? T_DIR) then
        iunlockput ip ;;;
        end_op ;;;
        ret None
      else
        iunlock ip ;;;
        iput cwd ;;;
        end_op ;;;
        ret (Some ip)
  end.
End Transactions.

(** ** The calls *)
Section Sysfile.
Context {I : KernelImage} {L : Literals} {P : ProcImage} {FI : FsImage} {W : Wakeups} {DS : DevSw} {FP : FsPtrs}.

(** The descriptor and the file behind it. *)
Definition argfd (n : Z) : KS (option (nat * nat)) :=
  r <- argint n ;;
  match r with
  | None => ret None
  | Some fd =>
      if (fd <? 0) || (NOFILE <=? fd) then ret None
      else
        p <- curproc ;;
        let f := nth (Z.to_nat fd) (ofile p) 0 in
        if f =? 0 then ret None else ret (Some (Z.to_nat fd, file_idx f))
  end.

Definition set_fd (fd : nat) (v : Z) : KS unit :=
  me <- myproc ;;
  upd_proc me (fun p => set_ofile (<[fd := v]> (ofile p)) p).

Definition fdalloc (f : nat) : KS (option nat) :=
  for_find NOFILES 0 (fun fd =>
    p <- curproc ;;
    if nth fd (ofile p) 0 =? 0 then
      set_fd fd (file_ptr f) ;;;
      ret (Some fd)
    else ret None).

Definition sys_dup : KS Z :=
  r <- argfd 0 ;;
  match r with
  | None => ret (-1)
  | Some (_, f) =>
      d <- fdalloc f ;;
      match d with
      | None => ret (-1)
      | Some fd => run_fs (filedup f) ;;; ret (Z.of_nat fd)
      end
  end.

(** The arguments of [read] and [write]: file, address and count. *)
Definition rw_args : KS (option (nat * Z * Z)) :=
  r <- argfd 0 ;;
  match r with
  | None => ret None
  | Some (_, f) =>
      n <- argint 2 ;;
      match n with
      | None => ret None
      | Some n =>
          a <- argptr 1 n ;;
          match a with
          | None => ret None
          | Some a => ret (Some (f, a, n))
          end
      end
  end.

Definition sys_read : KS Z :=
  r <- rw_args ;;
  match r with
  | None => ret (-1)
  | Some (f, a, n) => fileread f a n
  end.

Definition sys_write : KS Z :=
  r <- rw_args ;;
  match r with
  | None => ret (-1)
  | Some (f, a, n) => filewrite f a n
  end.

Definition sys_close : KS Z :=
  r <- argfd 0 ;;
  match r with
  | None => ret (-1)
  | Some (fd, f) =>
      set_fd fd 0 ;;;
      fileclose f ;;;
      ret 0
  end.

Fixpoint ustore_fields (a : Z) (l : list (nat * list Z)) : KS unit :=
  match l with
  | [] => ret tt
  | (off, b) :: l' => ustore (u32 (a + Z.of_nat off)) b ;;; ustore_fields a l'
  end.

Definition sys_fstat : KS Z :=
  r <- argfd 0 ;;
  match r with
  | None => ret (-1)
  | Some (_, f) =>
      a <- argptr 1 sizeof_stat ;;
      match a with
      | None => ret (-1)
      | Some a =>
          st <- filestat f ;;
          match st with
          | None => ret (-1)
          | Some st => ustore_fields a (encode_stat st) ;;; ret 0
          end
      end
  end.

Definition path_of (r : Z * list Z) : list Z := snd r ++ [0].

Definition sys_link : KS Z :=
  r <- argstr 0 ;;
  match r with
  | None => ret (-1)
  | Some old =>
      r <- argstr 1 ;;
      match r with
      | None => ret (-1)
      | Some new =>
          c <- cwd_idx ;;
          run_fs (link_tx c (path_of old) (path_of new))
      end
  end.

Definition sys_unlink : KS Z :=
  r <- argstr 0 ;;
  match r with
  | None => ret (-1)
  | Some path =>
      c <- cwd_idx ;;
      run_fs (unlink_tx c (path_of path))
  end.

(** The second half of [open]: a file and a descriptor for the inode. *)
Definition open_file (ip : nat) (omode : Z) : KS Z :=
  f <- run_fs filealloc ;;
  fd <- match f with Some f => fdalloc f | None => ret None end ;;
  match f, fd with
  | Some f, Some fd =>
      run_fs (iunlock ip) ;;;
      run_fs end_op ;;;
      run_fs (upd_file f (fun x =>
        set_f_mode (Z.land omode O_WRONLY =? 0)
          (negb (Z.land omode O_WRONLY =? 0) || negb (Z.land omode O_RDWR =? 0))
          (set_f_off 0 (set_f_ip ip (set_f_type FD_INODE x))))) ;;;
      ret (Z.of_nat fd)
  | _, _ =>
      close_opt f ;;;
      run_fs (iunlockput ip) ;;;
      run_fs end_op ;;;
      ret (-1)
  end.

Definition sys_open : KS Z :=
  r <- argstr 0 ;;
  match r with
  | None => ret (-1)
  | Some path =>
      m <- argint 1 ;;
      match m with
      | None => ret (-1)
      | Some omode =>
          run_fs begin_op ;;;
          c <- cwd_idx ;;
          ip <- run_fs (open_inode c (path_of path) omode) ;;
          match ip with
          | None => ret (-1)
          | Some ip => open_file ip omode
          end
      end
  end.

Definition sys_mkdir : KS Z :=
  run_fs begin_op ;;;
  r <- argstr 0 ;;
  c <- cwd_idx ;;
  run_fs (mk_tx c (option_map (fun path => (path_of path, T_DIR, 0, 0)) r)).

(** [major] and [minor] are converted to [short]. *)
Definition mknod_args : KS (option (list Z * Z * Z * Z)) :=
  r <- argstr 0 ;;
  match r with
  | None => ret None
  | Some path =>
      major <- argint 1 ;;
      match major with
      | None => ret None
      | Some major =>
          minor <- argint 2 ;;
          match minor with
          | None => ret None
          | Some minor => ret (Some (path_of path, T_DEV, i16 major, i16 minor))
          end
      end
  end.

Definition sys_mknod : KS Z :=
  run_fs begin_op ;;;
  a <- mknod_args ;;
  c <- cwd_idx ;;
  run_fs (mk_tx c a).

Definition sys_chdir : KS Z :=
  run_fs begin_op ;;;
  r <- argstr 0 ;;
  c <- cwd_idx ;;
  ip <- run_fs (chdir_tx c (option_map path_of r)) ;;
  match ip with
  | None => ret (-1)
  | Some ip =>
      me <- myproc ;;
      upd_proc me (set_cwd (inode_ptr ip)) ;;;
      ret 0
  end.

Definition sys_pipe : KS Z :=
  a <- argptr 0 8 ;;
  match a with
  | None => ret (-1)
  | Some fd =>
      r <- pipealloc ;;
      match r with
      | None => ret (-1)
      | Some (rf, wf) =>
          fd0 <- fdalloc rf ;;
          fd1 <- match fd0 with Some _ => fdalloc wf | None => ret None end ;;
          match fd0, fd1 with
          | Some fd0, Some fd1 =>
              ustore32 fd (Z.of_nat fd0) ;;;
              ustore32 (u32 (fd + 4)) (Z.of_nat fd1) ;;;
              ret 0
          | _, _ =>
              match fd0 with Some fd0 => set_fd fd0 0 | None => ret tt end ;;;
              fileclose rf ;;;
              fileclose wf ;;;
              ret (-1)
          end
      end
  end.
End Sysfile.
