(* ===== verification/Exec.v ===== *)
(** * [exec.c] and the dispatch of system calls and traps

    [exec] builds a new address space from an ELF file and commits to it at the
    end.  [syscall] dispatches on the number in the trap frame, [trap] on the
    cause.  The argument strings and the path are the bytes without their final
    0; the process cannot change them between [sys_exec] and [exec]. *)
From Stdlib Require Import ZArith Lia Bool.
From stdpp Require Import base numbers list strings.
From S2P Require Import Prelude Machine Cstring Kalloc Segments Vm Kstate Shm Proc Sched Sem FsState Bio Log Fs Pipe Ksys File Syscall Sysfile.

(** ** ELF headers *)
Definition ELF_MAGIC : Z := 0x464C457F.
Definition ELF_PROG_LOAD : Z := 1.
Definition sizeof_elfhdr : Z := 52.
Definition sizeof_proghdr : Z := 32.

Record elfhdr : Type := mk_elf { e_magic : Z; e_entry : Z; e_phoff : Z; e_phnum : Z }.
Definition decode_elf (d : list Z) : elfhdr := mk_elf (get32 d 0) (get32 d 24) (get32 d 28) (get16 d 44).

Record proghdr : Type := mk_ph { ph_type : Z; ph_off : Z; ph_vaddr : Z; ph_filesz : Z; ph_memsz : Z }.
Definition decode_ph (d : list Z) : proghdr :=
  mk_ph (get32 d 0) (get32 d 4) (get32 d 8) (get32 d 16) (get32 d 20).

(** What follows the last slash. *)
Fixpoint last_elem (last s : list Z) : list Z :=
  match s with
  | [] => last
  | c :: s' => last_elem (if c =? SLASH then s' else last) s'
  end.

Section Exec.
Context {I : KernelImage} {L : Literals} {P : ProcImage} {FI : FsImage} {W : Wakeups} {DS : DevSw} {FP : FsPtrs} {TI : TimeImage}.

(** The label [bad]. *)
Definition exec_bad (pgdir : Z) (ip : option nat) : KS Z :=
  when (negb (pgdir =? 0)) (on_mem (freevm pgdir)) ;;;
  match ip with
  | Some ip => run_fs (iunlockput ip) ;;; run_fs end_op
  | None => ret tt
  end ;;;
  ret (-1).

(** [readi] into kernel memory. *)
Definition readi_mem (ip : nat) (dst off n : Z) : KS Z :=
  r <- run_fs (readi ip off n) ;;
  on_mem (write_bytes dst (snd r)) ;;;
  ret (fst r).

(** One program header: the new size, or [None] for [goto bad]. *)
Definition exec_segment (ip : nat) (pgdir sz : Z) (ph : proghdr) : KS (option Z) :=
  if negb (ph_type ph =? ELF_PROG_LOAD) then ret (Some sz)
  else if ph_memsz ph <? ph_filesz ph then ret None
  else if u32 (ph_vaddr ph + ph_memsz ph) <? ph_vaddr ph then ret None
  else
    sz <- on_mem (allocuvm pgdir sz (u32 (ph_vaddr ph + ph_memsz ph))) ;;
    if sz =? 0 then ret None
    else if negb (ph_vaddr ph mod PGSIZE =? 0) then ret None
    else
      r <- loaduvm (fun A => @on_mem ksys A) (readi_mem ip) pgdir (ph_vaddr ph) (ph_off ph) (ph_filesz ph) ;;
      if r <? 0 then ret None else ret (Some sz).

Fixpoint exec_load (n : nat) (ip : nat) (pgdir off sz : Z) : KS (option Z) :=
  match n with
  | O => ret (Some sz)
  | S n' =>
      r <- run_fs (readi ip off sizeof_proghdr) ;;
      if negb (fst r =? sizeof_proghdr) then ret None
      else
        sz <- exec_segment ip pgdir sz (decode_ph (snd r)) ;;
        match sz with
        | None => ret None
        | Some sz => exec_load n' ip pgdir (u32 (off + sizeof_proghdr)) sz
        end
  end.

(** The argument strings: the stack pointer and their addresses. *)
Fixpoint exec_args (pgdir sp argc : Z) (argv : list (list Z)) (ustack : list Z) : KS (option (Z * list Z)) :=
  match argv with
  | [] => ret (Some (sp, ustack))
  | a :: argv' =>
      if MAXARG <=? argc then ret None
      else
        let len := Z.of_nat (length a) + 1 in
        let sp := Z.land (u32 (sp - len)) (u32 (Z.lnot 3)) in
        r <- on_mem (copyout pgdir sp (a ++ [0])) ;;
        if r <? 0 then ret None
        else exec_args pgdir sp (argc + 1) argv' (ustack ++ [sp])
  end.

(** The stack: strings, then return address, [argc], [argv] and the array. *)
Definition exec_stack (pgdir sz : Z) (argv : list (list Z)) : KS (option Z) :=
  r <- exec_args pgdir sz 0 argv [] ;;
  match r with
  | None => ret None
  | Some (sp, ustack) =>
      let argc := Z.of_nat (length argv) in
      let words := [0xffffffff; argc; u32 (sp - (argc + 1) * 4)] ++ ustack ++ [0] in
      let sp := u32 (sp - (3 + argc + 1) * 4) in
      r <- on_mem (copyout pgdir sp (concat (map le32 words))) ;;
      if r <? 0 then ret None else ret (Some sp)
  end.

Definition exec_commit (path : list Z) (pgd sz sp entry : Z) : KS Z :=
  me <- myproc ;;
  p <- get_proc me ;;
  nm <- of_option (safestrcpy (name p) (last_elem path path ++ [0]) 16) ;;
  upd_proc me (set_name nm) ;;;
  let old := pgdir p in
  upd_proc me (set_pgdir pgd) ;;;
  upd_proc me (set_sz sz) ;;;
  on_mem (write32 (tf p + tf_eip) entry) ;;;
  on_mem (write32 (tf p + tf_esp) sp) ;;;
  switchuvm me ;;;
  on_mem (freevm old) ;;;
  ret 0.

(** From the stack pages on, with the file closed. *)
Definition exec_finish (path : list Z) (argv : list (list Z)) (pgdir sz entry : Z) : KS Z :=
  let sz := PGROUNDUP sz in
  sz <- on_mem (allocuvm pgdir sz (u32 (sz + 2 * PGSIZE))) ;;
  if sz =? 0 then exec_bad pgdir None
  else
    on_mem (clearpteu pgdir (u32 (sz - 2 * PGSIZE))) ;;;
    r <- exec_stack pgdir sz argv ;;
    match r with
    | None => exec_bad pgdir None
    | Some sp => exec_commit path pgdir sz sp entry
    end.

Definition exec (path : list Z) (argv : list (list Z)) : KS Z :=
  run_fs begin_op ;;;
  c <- cwd_idx ;;
  r <- run_fs (namei c (path ++ [0])) ;;
  match r with
  | None => run_fs end_op ;;; ret (-1)
  | Some ip =>
      run_fs (ilock ip) ;;;
      r <- run_fs (readi ip 0 sizeof_elfhdr) ;;
      if negb (fst r =? sizeof_elfhdr) then exec_bad 0 (Some ip)
      else
        let elf := decode_elf (snd r) in
        if negb (e_magic elf =? ELF_MAGIC) then exec_bad 0 (Some ip)
        else
          pgdir <- on_mem setupkvm ;;
          if pgdir =? 0 then exec_bad 0 (Some ip)
          else
            r <- exec_load (Z.to_nat (e_phnum elf)) ip pgdir (e_phoff elf) 0 ;;
            match r with
            | None => exec_bad pgdir (Some ip)
            | Some sz =>
                run_fs (iunlockput ip) ;;;
                run_fs end_op ;;;
                exec_finish path argv pgdir sz (e_entry elf)
            end
  end.

(** The argument vector: up to [n] entries from address [a] on. *)
Fixpoint exec_argv (n : nat) (a : Z) : KS (option (list (list Z))) :=
  match n with
  | O => ret None
  | S n' =>
      r <- fetchint a ;;
      match r with
      | None => ret None
      | Some uarg =>
          if uarg =? 0 then ret (Some [])
          else
            s <- fetchstr (u32 uarg) ;;
            match s with
            | None => ret None
            | Some (_, s) =>
                l <- exec_argv n' (u32 (a + 4)) ;;
                ret (option_map (cons s) l)
            end
      end
  end.

Definition sys_exec : KS Z :=
  r <- argstr 0 ;;
  match r with
  | None => ret (-1)
  | Some (_, path) =>
      u <- argint 1 ;;
      match u with
      | None => ret (-1)
      | Some uargv =>
          l <- exec_argv (Z.to_nat MAXARG) (u32 uargv) ;;
          match l with
          | None => ret (-1)
          | Some argv => exec path argv
          end
      end
  end.

(** ** [syscall] *)
Definition syscalls : list (option (KS Z)) :=
  [None; Some sys_fork; Some sys_exit; Some sys_wait; Some sys_pipe; Some sys_read; Some sys_kill; Some sys_exec;
   Some sys_fstat; Some sys_chdir; Some sys_dup; Some sys_getpid; Some sys_sbrk; Some sys_sleep; Some sys_uptime;
   Some sys_open; Some sys_write; Some sys_mknod; Some sys_unlink; Some sys_link; Some sys_mkdir; Some sys_close;
   Some sys_shmget; Some sys_shmrem; Some sys_sem_init; Some sys_sem_up; Some sys_sem_down; Some sys_isActive].

Definition set_eax (v : Z) : KS unit :=
  p <- curproc ;;
  on_mem (write32 (tf p + tf_eax) (u32 v)).

(** The message about an unknown number goes to the console only. *)
Definition syscall : KS unit :=
  p <- curproc ;;
  num <- on_mem (read32 (tf p + tf_eax)) ;;
  let num := i32 num in
  match (if (0 <? num) && (num <? Z.of_nat (length syscalls)) then nth (Z.to_nat num) syscalls None else None) with
  | Some f => v <- f ;; set_eax v
  | None => set_eax (-1)
  end.

(** ** [trap] *)
Definition T_IRQ0 : Z := 32.
Definition IRQ_TIMER : Z := 0.
Definition IRQ_KBD : Z := 1.
Definition IRQ_COM1 : Z := 4.
Definition IRQ_IDE : Z := 14.
Definition IRQ_SPURIOUS : Z := 31.
Definition tf_trapno : Z := 48.

(** The device drivers' interrupt handlers, and the processor's number. *)
Class Drivers : Type := {
  ideintr : KS unit;
  kbdintr : KS unit;
  uartintr : KS unit;
  lapiceoi : KS unit;
  cpuid : Z;
}.
Context {DR : Drivers}.
#[local] Existing Instance kernel_fs.

Definition tick : KS unit :=
  acquire_ticks ;;;
  modify (fun s => set_fs (set_k_ticks (u32 (ticks_of s + 1)) (fs s)) s) ;;;
  wakeup ticks_addr ;;;
  release_ticks.

(** The [switch] on the trap number; [cs] is that of the interrupted code. *)
Definition trap_device (trapno cs : Z) : KS unit :=
  if trapno =? T_IRQ0 + IRQ_TIMER then when (cpuid =? 0) tick ;;; lapiceoi
  else if trapno =? T_IRQ0 + IRQ_IDE then ideintr ;;; lapiceoi
  else if trapno =? T_IRQ0 + IRQ_IDE + 1 then ret tt
  else if trapno =? T_IRQ0 + IRQ_KBD then kbdintr ;;; lapiceoi
  else if trapno =? T_IRQ0 + IRQ_COM1 then uartintr ;;; lapiceoi
  else if (trapno =? T_IRQ0 + 7) || (trapno =? T_IRQ0 + IRQ_SPURIOUS) then lapiceoi
  else if Z.land cs 3 =? 0 then panic "trap"
  else me <- myproc ;; upd_proc me (set_killed true).

Definition exit_if_killed : KS unit := p <- curproc ;; when (killed p) exit.

(** [trap] for a process; the trap frame is at [t]. *)
Definition trap (t : Z) : KS unit :=
  trapno <- on_mem (read32 (t + tf_trapno)) ;;
  if trapno =? T_SYSCALL then
    exit_if_killed ;;;
    me <- myproc ;;
    upd_proc me (set_tf t) ;;;
    syscall ;;;
    exit_if_killed
  else
    cs <- on_mem (read16 (t + tf_cs)) ;;
    trap_device trapno cs ;;;
    when (Z.land cs 3 =? DPL_USER) exit_if_killed ;;;
    p <- curproc ;;
    when (bool_decide (state p = RUNNING) && (trapno =? T_IRQ0 + IRQ_TIMER)) yield ;;;
    when (Z.land cs 3 =? DPL_USER) exit_if_killed.
End Exec.
