(* ===== verification/ExecProps.v ===== *)
(** * The stack [exec] builds

    [exec_stack] copies the argument strings and the words below them to the
    top page of the new address space.  The theorem reads that page the way
    the new program does: [main] is called with [argc] and [argv], and [argv]
    leads to the strings. *)
From Stdlib Require Import ZArith Lia Bool.
From stdpp Require Import base numbers list strings.
From S2P Require Import Prelude Machine Cstring Kalloc Segments Vm VmInv VmUser VmProps Kstate Shm Proc Sched Sem FsState FsInode LogCrash Fs Pipe Ksys File Syscall Sysfile Exec.

(** ** What user code reads *)
Definition user_byte (m : memory) (pgdir va : Z) : Z := m (ubyte m pgdir va).
Definition user_word (m : memory) (pgdir va : Z) : Z :=
  user_byte m pgdir va + 256 * user_byte m pgdir (va + 1) +
  65536 * (user_byte m pgdir (va + 2) + 256 * user_byte m pgdir (va + 3)).

(** The bytes [b] from [va] on. *)
Definition user_bytes (m : memory) (pgdir va : Z) (b : list Z) : Prop :=
  forall i v, b !! i = Some v -> user_byte m pgdir (va + Z.of_nat i) = v.

(** The frame of a call of [main]: a return address, [argc], [argv], and the
    vector at [argv] with the strings it points to. *)
Record main_frame (m : memory) (pgdir sp : Z) (argv : list (list Z)) : Prop := {
  mf_ret : user_word m pgdir sp = 0xffffffff;
  mf_argc : user_word m pgdir (sp + 4) = Z.of_nat (length argv);
  mf_argv : user_word m pgdir (sp + 8) = sp + 12;
  mf_strings : forall i a, argv !! i = Some a ->
    user_bytes m pgdir (user_word m pgdir (sp + 12 + 4 * Z.of_nat i)) (a ++ [0]);
  mf_null : user_word m pgdir (sp + 12 + 4 * Z.of_nat (length argv)) = 0;
}.

(** The room a string takes, and all that [exec_stack] puts on the stack. *)
Definition string_room (a : list Z) : Z := (Z.of_nat (length a) + 4) / 4 * 4.
Definition strings_room (argv : list (list Z)) : Z := foldr (fun a n => string_room a + n) 0 argv.
Definition stack_room (argv : list (list Z)) : Z := strings_room argv + 4 * (4 + Z.of_nat (length argv)).

Definition is_bytes (a : list Z) : Prop := Forall (fun c => 0 <= c < 256) a.

Lemma strings_room_nonneg argv : 0 <= strings_room argv.
Proof.
  induction argv as [|a argv IH]; [done|]. simpl. unfold string_room. pose proof (Z.div_pos (Z.of_nat (length a) + 4) 4). lia.
Qed.

Lemma align4 x : 0 <= x < 2 ^ 32 -> Z.land x (u32 (Z.lnot 3)) = x - x mod 4.
Proof. intros. by apply (land_high_mask x 2). Qed.

Section Stack.
Context {I : KernelImage} {IO : KernelImageOk I}.
Context (pgdir sz : Z) (fl : list Z).

(** [s'] differs from [s] in bytes of the stack page from [lo] up to [hi]. *)
Record stacked (s s' : kmem_t) (lo hi : Z) : Prop := {
  st_inv : uvm_inv s' pgdir fl;
  st_pte : forall v, pte_val (mem s') pgdir v = pte_val (mem s) pgdir v;
  st_user : forall v, sz - 4096 <= v < sz -> v < lo \/ hi <= v -> user_byte (mem s') pgdir v = user_byte (mem s) pgdir v;
  st_frame : forall x, (forall v, lo <= v < hi -> x <> ubyte (mem s) pgdir v) -> mem s' x = mem s x;
}.

(** The stack page is mapped for the user, below [sz]. *)
Record stack_page (s : kmem_t) : Prop := {
  sp_inv : uvm_inv s pgdir fl;
  sp_user : user_page (mem s) pgdir (sz - 4096);
  sp_sz : 4096 <= sz <= KERNBASE;
  sp_aligned : sz mod 4096 = 0;
}.

Lemma in_stack_page v : sz mod 4096 = 0 -> sz - 4096 <= v < sz -> v - v mod 4096 = sz - 4096.
Proof. intros. zlia. Qed.

Lemma stack_ubyte_inj s v w : stack_page s -> sz - 4096 <= v < sz -> sz - 4096 <= w < sz ->
  ubyte (mem s) pgdir v = ubyte (mem s) pgdir w -> v = w.
Proof.
  intros [Hi [Hm _] Hsz Ha] Hv Hw. apply (ubyte_inj s pgdir fl); [done|lia|lia|by rewrite in_stack_page|by rewrite in_stack_page].
Qed.

Lemma stacked_page s s' lo hi : stack_page s -> stacked s s' lo hi -> stack_page s'.
Proof.
  intros [Hi [Hm Hu] Hsz Ha] [Hi' Hp _ _]. constructor; [done| |done|done].
  split; [|by rewrite Hp]. unfold mapped in *. by rewrite Hp.
Qed.

Lemma stacked_ubyte s s' lo hi v : stacked s s' lo hi -> ubyte (mem s') pgdir v = ubyte (mem s) pgdir v.
Proof. intros H. unfold ubyte, frame_of. by rewrite (st_pte _ _ _ _ H). Qed.

Lemma stacked_trans s s1 s2 lo mid hi : lo <= mid -> mid <= hi ->
  stacked s s1 mid hi -> stacked s1 s2 lo mid -> stacked s s2 lo hi.
Proof.
  intros Hlo Hhi H1 H2. constructor.
  - apply H2.
  - intros v. by rewrite (st_pte _ _ _ _ H2), (st_pte _ _ _ _ H1).
  - intros v Hv Ho. rewrite (st_user _ _ _ _ H2), (st_user _ _ _ _ H1) by lia. done.
  - intros x Hx. rewrite (st_frame _ _ _ _ H2), (st_frame _ _ _ _ H1); [done| |].
    + intros v Hv. apply Hx. lia.
    + intros v Hv. rewrite (stacked_ubyte _ _ _ _ _ H1). apply Hx. lia.
Qed.

(** What lies outside the changed part of the page stays readable. *)
Lemma stacked_bytes s s' lo hi va b : stacked s s' lo hi ->
  sz - 4096 <= va -> va + Z.of_nat (length b) <= sz -> va + Z.of_nat (length b) <= lo \/ hi <= va ->
  user_bytes (mem s) pgdir va b -> user_bytes (mem s') pgdir va b.
Proof.
  intros H Hlo Hhi Ho Hb i v Hi. pose proof (lookup_lt_Some _ _ _ Hi).
  rewrite (st_user _ _ _ _ H) by lia. by apply Hb.
Qed.

Lemma wp_copyout_stack s va b (Q : Z -> kmem_t -> Prop) :
  stack_page s -> sz - 4096 <= va -> va + Z.of_nat (length b) <= sz -> is_bytes b ->
  (forall s', stacked s s' va (va + Z.of_nat (length b)) -> user_bytes (mem s') pgdir va b -> Q 0 s') ->
  wp (copyout pgdir va b) Q s.
Proof.
  intros Hs Hlo Hhi Hb HQ. destruct (Hs) as [Hi Hu Hsz Ha].
  apply (wp_copyout_loop _ s pgdir va b fl); [done|lia|lia|unfold PGSIZE; lia| |].
  { intros i Hin. by rewrite in_stack_page by lia. }
  intros s' (Hi' & Hp & Hw & Hk). assert (forall v, ubyte (mem s') pgdir v = ubyte (mem s) pgdir v) as Hub.
  { intros v. unfold ubyte, frame_of. by rewrite Hp. }
  apply HQ.
  - constructor; [done|done| |].
    + intros v Hv Ho. unfold user_byte. rewrite Hub. apply Hk. intros i Hin He.
      apply stack_ubyte_inj in He; [lia|done|lia|lia].
    + intros x Hx. apply Hk. intros i Hin. apply Hx. lia.
  - intros i v Hv. unfold user_byte. rewrite Hub. pose proof (lookup_lt_Some _ _ _ Hv).
    rewrite Hw, Nat2Z.id, (nth_lookup_Some _ _ _ _ Hv) by lia.
    apply u8_small. by apply (Forall_lookup_1 _ _ _ _ Hb Hv).
Qed.

(** The addresses [exec_args] records for the strings of [argv], which it puts
    between [lo] and [hi]. *)
Definition placed (s : kmem_t) (lo hi : Z) (argv : list (list Z)) (sps : list Z) : Prop :=
  Forall2 (fun a v => lo <= v /\ v + Z.of_nat (length a) + 1 <= hi /\ user_bytes (mem s) pgdir v (a ++ [0])) argv sps.

Lemma placed_stacked s s' lo hi lo' argv sps : stacked s s' lo' lo -> sz - 4096 <= lo -> hi <= sz ->
  placed s lo hi argv sps -> placed s' lo hi argv sps.
Proof.
  intros H Hlo Hhi. intros HP. apply (Forall2_impl _ _ _ _ HP). intros a v (A & B & C). split; [done|]. split; [done|].
  apply (stacked_bytes s s' lo' lo); [done|lia| | |done]; rewrite length_app; simpl; lia.
Qed.

Lemma placed_weaken s lo hi lo' hi' argv sps : lo' <= lo -> hi <= hi' ->
  placed s lo hi argv sps -> placed s lo' hi' argv sps.
Proof. intros ? ?. intros HP. apply (Forall2_impl _ _ _ _ HP). intros a v (A & B & C). split; [lia|]. split; [lia|done]. Qed.

Lemma wp_exec_args argv : forall (t : kst ksys) sp argc us (Q : option (Z * list Z) -> kst ksys -> Prop),
  stack_page (km t) -> Forall is_bytes argv -> sp mod 4 = 0 -> sp <= sz -> sz - 4096 <= sp - strings_room argv ->
  argc + Z.of_nat (length argv) <= MAXARG ->
  (forall s' sps, stacked (km t) s' (sp - strings_room argv) sp -> placed s' (sp - strings_room argv) sp argv sps ->
     Q (Some (sp - strings_room argv, us ++ sps)) (set_km s' t)) ->
  wp (exec_args pgdir sp argc argv us) Q t.
Proof.
  induction argv as [|a argv IH]; intros t sp argc us Q Hs Hb Hal Hhi Hlo Hn HQ; cbn [exec_args].
  { wp_step. replace sp with (sp - strings_room []) at 1 by (simpl; lia).
    replace us with (us ++ []) by apply app_nil_r. replace t with (set_km (km t) t) by by destruct t.
    apply HQ; [|constructor]. simpl. rewrite Z.sub_0_r.
    constructor; [apply Hs|done|done|done]. }
  apply Forall_cons in Hb as [Ha Hb]. cbn [strings_room foldr] in Hlo. fold (strings_room argv) in *. cbn [length] in Hn.
  pose proof (strings_room_nonneg argv) as Hr. unfold string_room in Hlo at 1.
  pose proof (sp_sz _ Hs) as Hsz. unfold KERNBASE in Hsz.
  replace (MAXARG <=? argc) with false by lia.
  set (sp' := sp - string_room a). assert (Z.land (u32 (sp - (Z.of_nat (length a) + 1))) (u32 (Z.lnot 3)) = sp') as ->.
  { unfold sp', string_room. rewrite u32_small, align4 by (rewrite pow2_32; zlia). zlia. }
  assert (Z.of_nat (length (a ++ [0])) = Z.of_nat (length a) + 1) as Hl by (rewrite length_app; simpl; lia).
  wp_step. apply wp_lift, wp_copyout_stack; [done|unfold sp', string_room; zlia|unfold sp', string_room; rewrite Hl; zlia| |].
  { apply Forall_app. split; [done|by repeat constructor]. }
  intros s1 H1 B1. rewrite Hl in H1. cbn [Z.ltb Z.compare].
  assert (stacked (km t) s1 sp' sp) as H1'.
  { destruct H1 as [A B C D]. constructor; [done|done| |].
    - intros v Hv Ho. apply C; [done|]. unfold sp', string_room in *. zlia.
    - intros x Hx. apply D. intros v Hv. apply Hx. unfold sp', string_room in *. zlia. }
  apply IH; [by apply (stacked_page (km t) s1 sp' sp)|done|unfold sp', string_room; zlia|unfold sp', string_room; zlia| |lia|].
  { unfold sp', string_room. lia. }
  change (km (set_km s1 t)) with s1. intros s2 sps H2 P2.
  assert (sp - strings_room (a :: argv) = sp' - strings_room argv) as E by (unfold sp'; simpl; lia).
  rewrite E in HQ. rewrite <- app_assoc. cbn [app]. change (set_km s2 (set_km s1 t)) with (set_km s2 t).
  apply HQ.
  - apply (stacked_trans _ s1 _ _ sp'); [lia|unfold sp', string_room; zlia|done|done].
  - constructor; [|apply (placed_weaken _ (sp' - strings_room argv) sp'); [lia|unfold sp', string_room; zlia|done]].
    split; [lia|]. split; [unfold sp', string_room; zlia|].
    apply (stacked_bytes s1 s2 (sp' - strings_room argv) sp'); [done|unfold sp', string_room; lia| |lia|done].
    rewrite Hl. unfold sp', string_room. zlia.
Qed.
End Stack.

Lemma is_bytes_le32 words : is_bytes (concat (map le32 words)).
Proof.
  induction words as [|w words IH]; [constructor|]. cbn [map concat]. apply Forall_app. split; [|done].
  repeat constructor; apply Z.mod_pos_bound; lia.
Qed.

(** Word [j] of an array of words in user memory. *)
Lemma user_word_at m pgdir va words j w : user_bytes m pgdir va (concat (map le32 words)) ->
  words !! j = Some w -> 0 <= w < 2 ^ 32 -> user_word m pgdir (va + 4 * Z.of_nat j) = w.
Proof.
  intros Hb Hj Hw. rewrite <- (Z.mod_small w (2 ^ 32)), <- (get32_concat words j w) by done.
  pose proof (lookup_lt_Some _ _ _ Hj) as Hl. pose proof (concat_le32_length words) as Hlen.
  assert (forall k, (k < 4)%nat ->
    user_byte m pgdir (va + 4 * Z.of_nat j + Z.of_nat k) = get8 (concat (map le32 words)) (4 * j + k)) as Hk.
  { intros k Hk. destruct (lookup_lt_is_Some_2 (concat (map le32 words)) (4 * j + k)) as [v Hv]; [lia|].
    unfold get8. rewrite (nth_lookup_Some _ _ _ _ Hv), <- (Hb _ _ Hv). f_equal. lia. }
  pose proof (Hk 0%nat) as H0. pose proof (Hk 1%nat) as H1. pose proof (Hk 2%nat) as H2. pose proof (Hk 3%nat) as H3.
  rewrite Z.add_0_r, Nat.add_0_r in H0. unfold user_word, get32, get16.
  rewrite <- Nat.add_assoc. cbn [Nat.add] in *. change (Z.of_nat 1) with 1 in H1. change (Z.of_nat 2) with 2 in H2.
  change (Z.of_nat 3) with 3 in H3. rewrite H0, H1, H2, H3 by lia. done.
Qed.

Section Frame.
Context {I : KernelImage} {IO : KernelImageOk I}.

(** The words of the frame, in place below strings that stay where they are. *)
Lemma frame_in_place pgdir sz fl s s' lo argv sps :
  let argc := Z.of_nat (length argv) in
  let sp := lo - 4 * (4 + argc) in
  0 <= sp -> lo <= sz <= KERNBASE -> sz - 4096 <= sp -> length sps = length argv ->
  placed pgdir s lo sz argv sps -> stacked pgdir sz fl s s' sp lo ->
  user_bytes (mem s') pgdir sp (concat (map le32 ([0xffffffff; argc; sp + 12] ++ sps ++ [0]))) ->
  main_frame (mem s') pgdir sp argv.
Proof.
  intros argc sp Hsp Hk Hlo Hlen Hp Hst Hw. set (words := _ ++ _ ++ _) in Hw.
  pose proof (placed_stacked pgdir sz fl s s' lo sz sp argv sps Hst ltac:(lia) ltac:(lia) Hp) as Hp'.
  assert (0 <= argc <= 1024) as Hac by (unfold sp in Hlo; lia).
  assert (forall j w, words !! j = Some w -> 0 <= w < 2 ^ 32 -> user_word (mem s') pgdir (sp + 4 * Z.of_nat j) = w) as Hat
    by (intros; eapply user_word_at; eauto).
  constructor.
  - rewrite <- (Hat 0%nat 0xffffffff) by done. f_equal. lia.
  - apply (Hat 1%nat argc); [done|]. rewrite pow2_32. lia.
  - apply (Hat 2%nat (sp + 12)); [done|]. unfold KERNBASE in *. rewrite pow2_32. lia.
  - intros i a Hi. destruct (Forall2_lookup_l _ _ _ _ _ Hp' Hi) as (v & Hv & Hv1 & Hv2 & Hv3).
    replace (sp + 12 + 4 * Z.of_nat i) with (sp + 4 * Z.of_nat (3 + i)) by lia. rewrite (Hat _ v); [done| |].
    + change (words !! (3 + i)%nat) with ((sps ++ [0]) !! i). rewrite lookup_app_l; [done|]. by apply lookup_lt_Some in Hv.
    + unfold KERNBASE in *. rewrite pow2_32. lia.
  - replace (sp + 12 + 4 * Z.of_nat (length argv)) with (sp + 4 * Z.of_nat (3 + length sps)) by lia.
    apply Hat; [|by rewrite pow2_32]. change (words !! (3 + length sps)%nat) with ((sps ++ [0]) !! length sps).
    rewrite lookup_app_r by lia. by rewrite Nat.sub_diag.
Qed.

Lemma wp_exec_stack (t : kst ksys) pgdir sz fl argv (Q : option Z -> kst ksys -> Prop) :
  stack_page pgdir sz fl (km t) -> Forall is_bytes argv -> Z.of_nat (length argv) <= MAXARG -> stack_room argv <= 4096 ->
  (forall s', main_frame (mem s') pgdir (sz - stack_room argv) argv ->
     stacked pgdir sz fl (km t) s' (sz - stack_room argv) sz -> Q (Some (sz - stack_room argv)) (set_km s' t)) ->
  wp (exec_stack pgdir sz argv) Q t.
Proof.
  intros Hs Hb Hn Hroom HQ. pose proof (sp_sz _ _ _ _ Hs) as Hsz. pose proof (sp_aligned _ _ _ _ Hs) as Hal.
  pose proof (strings_room_nonneg argv) as Hr. unfold stack_room in *.
  unfold exec_stack. wp_step. apply (wp_exec_args pgdir sz fl); [done|done|zlia|lia|lia|lia|].
  intros s1 sps H1 P1. set (argc := Z.of_nat (length argv)) in *. set (lo := sz - strings_room argv) in *.
  assert (length sps = length argv) as Hlen by (symmetry; by apply (Forall2_length _ _ _ P1)).
  set (sp := lo - 4 * (4 + argc)). assert (sz - (strings_room argv + 4 * (4 + argc)) = sp) as E by (unfold sp, lo; lia).
  rewrite E in HQ. cbv beta iota zeta.
  replace (u32 (lo - (3 + argc + 1) * 4)) with sp by (symmetry; unfold sp, lo, KERNBASE in *; rewrite u32_small by (rewrite pow2_32; lia); lia).
  replace (u32 (lo - (argc + 1) * 4)) with (sp + 12) by (symmetry; unfold sp, lo, KERNBASE in *; rewrite u32_small by (rewrite pow2_32; lia); lia).
  set (words := [_; _; _] ++ _ ++ _).
  assert (Z.of_nat (length (concat (map le32 words))) = lo - sp) as Hw.
  { rewrite concat_le32_length. unfold words. rewrite !length_app, Hlen. cbn [length]. unfold sp. lia. }
  wp_step. apply wp_lift, (wp_copyout_stack pgdir sz fl); [by apply (stacked_page _ _ _ (km t) s1 lo sz)|unfold sp, lo; lia|lia|apply is_bytes_le32|].
  rewrite Hw. replace (sp + (lo - sp)) with lo by lia. intros s2 H2 B2. cbn [Z.ltb Z.compare]. wp_step.
  change (set_km s2 (set_km s1 t)) with (set_km s2 t). apply HQ.
  - apply (frame_in_place pgdir sz fl s1 s2 lo argv sps); unfold lo, sp in *; try done; lia.
  - apply (stacked_trans _ _ _ _ s1 _ _ lo); [unfold sp; lia|unfold lo; lia|done|done].
Qed.
End Frame.

(** C23: [exec] hands the new program its arguments.  When the top page of the
    new address space is there for the user, the arguments are at most
    [MAXARG] and everything fits into the page, the stack pointer is the frame
    of a call of [main]: a return address that traps, [argc], the address of
    [argv], the addresses of copies of the strings in order, and the null
    pointer.  No page table entry changes, and no byte but those of the page
    from the stack pointer up. *)
Theorem exec_stack_main_frame {I : KernelImage} {IO : KernelImageOk I} (t : kst ksys) (pgdir sz : Z) (fl : list Z) (argv : list (list Z)) :
  stack_page pgdir sz fl (km t) -> Forall is_bytes argv -> Z.of_nat (length argv) <= MAXARG -> stack_room argv <= 4096 ->
  exists s', exec_stack pgdir sz argv t = Ok (Some (sz - stack_room argv)) (set_km s' t) /\
    main_frame (mem s') pgdir (sz - stack_room argv) argv /\
    stacked pgdir sz fl (km t) s' (sz - stack_room argv) sz.
Proof.
  intros Hs Hb Hn Hr.
  assert (wp (exec_stack pgdir sz argv) (fun r t' => exists s', r = Some (sz - stack_room argv) /\ t' = set_km s' t /\
    main_frame (mem s') pgdir (sz - stack_room argv) argv /\ stacked pgdir sz fl (km t) s' (sz - stack_room argv) sz) t) as H.
  { apply (wp_exec_stack t pgdir sz fl argv); try done. intros s' Hm Hst. by exists s'. }
  apply wp_ok in H as (r & t' & He & s' & -> & -> & Hm & Hst). by exists s'.
Qed.

(** [ls -l] in a space of one page. *)
Definition exec_kst : kst ksys :=
  mk_kst demo_space (mk_shm false [] []) false [] 1 None 0 (mk_regs 0 0 0 0 0 0 null_seg)
    (mk_ksys (power_on 0 (fun _ => [])) 0 false (mk_sem false 0 0 0 0)).
Definition ls_l : list (list Z) := [[108; 115]; [45; 108]].

Lemma exec_stack_main_frame_witness : exists s',
  exec_stack demo_dir 4096 ls_l exec_kst = Ok (Some 4064) (set_km s' exec_kst) /\ main_frame (mem s') demo_dir 4064 ls_l.
Proof.
  destruct (@exec_stack_main_frame Kalloc.demo_image Kalloc.demo_image_ok exec_kst demo_dir 4096 demo_fl ls_l) as (s' & H1 & H2 & _).
  - constructor; [exact demo_uvm|by split|by kconst|done].
  - by repeat constructor.
  - done.
  - done.
  - exists s'. split; [exact H1|exact H2].
Defined.
