(* ===== verification/Frame.v ===== *)
(** * What a computation leaves alone

    [leaves v naps m]: the computation [m] does not change the view [v] of the
    state between two points where it gives up the processor; while it is
    asleep others may change it.  With [naps] false it never sleeps.  It does
    not stop with one of the messages by which [file.c] reports a reference
    count that is wrong ([count_panic]).

    The rules follow the structure of the code, so the hint database [frame]
    and the tactic [frame] prove such facts for whole functions.  The second
    part has them for the memory code: it never sleeps. *)
From Stdlib Require Import ZArith Lia Bool.
From stdpp Require Import base numbers list strings.
From S2P Require Import Prelude Machine Cstring Kalloc Vm.

Definition count_panic (w : string) : bool := String.eqb w "filedup" || String.eqb w "fileclose".

Section Leaves.
Context {S V : Type} (v : S -> V) (naps : bool).

Fixpoint leaves_res {A} (t : V) (r : res S A) : Prop :=
  match r with
  | Ok _ s => v s = t
  | Panic w _ => count_panic w = false
  | Exited _ => False
  | Sleeping _ s resume => naps = true /\ v s = t /\ forall s', leaves_res (v s') (resume s')
  | Fault _ _ | NoFuel _ => True
  end.

Definition leaves {A} (m : M S A) : Prop := forall s, leaves_res (v s) (m s).

Lemma leaves_ret {A} (a : A) : leaves (ret a).
Proof. by intros s. Qed.
Lemma leaves_gets {A} (f : S -> A) : leaves (gets f).
Proof. by intros s. Qed.
Lemma leaves_modify f : (forall s, v (f s) = v s) -> leaves (modify f).
Proof. intros H s. apply H. Qed.
Lemma leaves_panic {A} w : count_panic w = false -> leaves (panic (A := A) w).
Proof. by intros H s. Qed.
Lemma leaves_fault {A} w : leaves (fault (A := A) w).
Proof. by intros s. Qed.
Lemma leaves_nofuel {A} : leaves (nofuel (A := A)).
Proof. by intros s. Qed.

Lemma leaves_bind {A B} (m : M S A) (k : A -> M S B) : leaves m -> (forall a, leaves (k a)) -> leaves (bind m k).
Proof.
  intros Hm Hk s. unfold bind. specialize (Hm s). revert Hm. generalize (v s), (m s). intros t r. revert t.
  induction r as [a s'| | |c s' resume IH| |]; intros t; cbn [leaves_res bind_res]; try done.
  - intros <-. apply Hk.
  - intros (? & ? & H). split; [done|]. split; [done|]. intros s''. apply IH, H.
Qed.

Lemma leaves_when b (m : M S unit) : leaves m -> leaves (when b m).
Proof. intros H. by destruct b. Qed.

Lemma leaves_for_range n : forall lo body, (forall i, leaves (body i)) -> leaves (for_range n lo body).
Proof. induction n as [|n IH]; intros lo body H; [apply leaves_ret|]. apply leaves_bind; auto. Qed.

Lemma leaves_for_find {A} n : forall lo (body : nat -> M S (option A)), (forall i, leaves (body i)) -> leaves (for_find n lo body).
Proof.
  induction n as [|n IH]; intros lo body H; [apply leaves_ret|]. apply leaves_bind; [done|].
  intros [a|]; [apply leaves_ret|auto].
Qed.

Lemma leaves_first_in {A} l (test : A -> M S bool) : (forall a, leaves (test a)) -> leaves (first_in l test).
Proof.
  intros H. induction l as [|a l IH]; [apply leaves_ret|]. apply leaves_bind; [done|].
  intros []; [apply leaves_ret|done].
Qed.

Lemma leaves_acquire_flag get set : (forall b s, v (set b s) = v s) -> leaves (acquire_flag get set).
Proof. intros H. apply leaves_bind; [apply leaves_gets|]. intros []; [by apply leaves_panic|by apply leaves_modify]. Qed.
Lemma leaves_release_flag get set : (forall b s, v (set b s) = v s) -> leaves (release_flag get set).
Proof. intros H. apply leaves_bind; [apply leaves_gets|]. intros []; [by apply leaves_modify|by apply leaves_panic]. Qed.
End Leaves.

Lemma leaves_sleep_on {S V} (v : S -> V) c : leaves v true (sleep_on c).
Proof. intros s. split; [done|]. split; [done|]. by intros s'. Qed.

Lemma leaves_naps {S V} (v : S -> V) b {A} (m : M S A) : leaves v false m -> leaves v b m.
Proof.
  intros H s. specialize (H s). revert H. generalize (v s), (m s). intros t r.
  destruct r; cbn [leaves_res]; try done. by intros [[=] _].
Qed.

(** [tries m R s]: run from [s] the computation does not sleep, and returns
    with [R] if it returns. *)
Definition tries {S A} (m : M S A) (R : A -> S -> Prop) (s : S) : Prop :=
  match m s with
  | Ok a s' => R a s'
  | Panic w _ => count_panic w = false
  | Sleeping _ _ _ | Exited _ => False
  | Fault _ _ | NoFuel _ => True
  end.

Section Tries.
Context {S : Type}.
Implicit Types s : S.

Lemma tries_bind {A B} (m : M S A) (k : A -> M S B) R s :
  tries m (fun a s' => tries (k a) R s') s -> tries (bind m k) R s.
Proof. unfold tries, bind. by destruct (m s). Qed.

Lemma tries_mono {A} (m : M S A) (R R' : A -> S -> Prop) s :
  tries m R s -> (forall a s', R a s' -> R' a s') -> tries m R' s.
Proof. unfold tries. destruct (m s); auto. Qed.

Lemma tries_when (b : bool) (m : M S unit) R s :
  (b = true -> tries m R s) -> (b = false -> R tt s) -> tries (when b m) R s.
Proof. destruct b; intros H1 H2; [by apply H1|by apply H2]. Qed.

Lemma tries_leaves {V} (v : S -> V) {A} (m : M S A) R s :
  leaves v false m -> (forall a s', v s' = v s -> R a s') -> tries m R s.
Proof. intros Hm HR. specialize (Hm s). unfold tries. destruct (m s); simpl in Hm; auto. by destruct Hm as [[=] _]. Qed.

Lemma leaves_tries {V} (v : S -> V) {A} (m : M S A) :
  (forall s, tries m (fun _ s' => v s' = v s) s) -> leaves v false m.
Proof. intros H s. specialize (H s). unfold tries in H. by destruct (m s). Qed.

(** [J i]: the rounds before [i] are done. *)
Lemma tries_for_range (J : nat -> S -> Prop) n : forall lo body (R : unit -> S -> Prop) s,
  J lo s -> (forall i s', (lo <= i < lo + n)%nat -> J i s' -> tries (body i) (fun _ => J (Datatypes.S i)) s') ->
  (forall s', J (lo + n)%nat s' -> R tt s') -> tries (for_range n lo body) R s.
Proof.
  induction n as [|n IH]; intros lo body R s HJ Hb HR; cbn [for_range].
  { apply HR. by rewrite Nat.add_0_r. }
  apply tries_bind. eapply tries_mono; [apply Hb; [lia|done]|]. intros [] s' HJ'.
  apply IH; [done|intros; apply Hb; [lia|done]|]. intros s'' H. apply HR.
  by replace (lo + Datatypes.S n)%nat with (Datatypes.S lo + n)%nat by lia.
Qed.

(** The state does not change until the loop ends. *)
Lemma tries_for_find {A} n : forall lo (body : nat -> M S (option A)) (R : option A -> S -> Prop) s,
  (forall i, (lo <= i < lo + n)%nat ->
     tries (body i) (fun r s' => match r with Some a => R (Some a) s' | None => s' = s end) s) ->
  R None s -> tries (for_find n lo body) R s.
Proof.
  induction n as [|n IH]; intros lo body R s Hb HR; cbn [for_find]; [exact HR|].
  apply tries_bind. eapply tries_mono; [apply Hb; lia|]. intros [a|] s'; [done|]. intros ->.
  apply IH; [intros; apply Hb; lia|done].
Qed.
End Tries.

Create HintDb frame discriminated.
#[export] Hint Constants Opaque : frame.
#[export] Hint Variables Opaque : frame.
#[export] Hint Resolve leaves_ret leaves_gets leaves_fault leaves_nofuel leaves_sleep_on : frame.
#[export] Hint Extern 1 (leaves _ _ (modify _)) => apply leaves_modify; intros ?; reflexivity : frame.

(** One step along the structure of a computation. *)
Ltac frame_step :=
  lazymatch goal with
  | |- leaves _ _ (bind _ _) => apply leaves_bind; [|intros ?]
  | |- leaves _ _ (panic _) => apply leaves_panic; reflexivity
  | |- leaves _ _ (when _ _) => apply leaves_when
  | |- leaves _ _ (for_range _ _ _) => apply leaves_for_range; intros ?
  | |- leaves _ _ (for_find _ _ _) => apply leaves_for_find; intros ?
  | |- leaves _ _ (first_in _ _) => apply leaves_first_in; intros ?
  | |- leaves _ _ (acquire_flag _ _) => apply leaves_acquire_flag; intros ? ?; reflexivity
  | |- leaves _ _ (release_flag _ _) => apply leaves_release_flag; intros ? ?; reflexivity
  | |- leaves _ _ (let _ := _ in _) => cbv zeta
  | |- leaves _ _ (match ?x with _ => _ end) => destruct x
  | _ => solve [auto with frame]
  end.
Ltac frame := intros; repeat frame_step.

(** The same for [tries]; [tries_frame v] passes over code that leaves [v] alone. *)
Ltac tries_step :=
  lazymatch goal with
  | |- tries (bind _ _) _ _ => apply tries_bind
  | |- tries (ret ?a) ?R ?s => change (R a s); cbv beta iota
  | |- tries (gets ?f) ?R ?s => change (R (f s) s); cbv beta iota
  | |- tries (modify ?f) ?R ?s => change (R tt (f s)); cbv beta iota
  | |- tries (panic _) _ _ => reflexivity
  | |- tries (fault _) _ _ => exact Logic.I
  | |- tries nofuel _ _ => exact Logic.I
  end.
Ltac tries_frame v := apply (tries_leaves v); [frame|].

(** ** The memory code *)
Section Memory.
Context {I : KernelImage}.
Local Abbreviation mem_only := (leaves (fun _ : kmem_t => tt) false).

Lemma mem_read32 a : mem_only (read32 a).
Proof. unfold read32. frame. Qed.
Lemma mem_write32 a x : mem_only (write32 a x).
Proof. unfold write32. frame. Qed.
Lemma mem_memset a c n : mem_only (memsetM a c n).
Proof. unfold memsetM. frame. Qed.
Lemma mem_memmove a c n : mem_only (memmoveM a c n).
Proof. unfold memmoveM. frame. Qed.
#[local] Hint Resolve mem_read32 mem_write32 mem_memset mem_memmove : frame.

Lemma mem_kfree a : mem_only (kfree a).
Proof. unfold kfree. frame. Qed.
Lemma mem_kalloc : mem_only kalloc.
Proof. unfold kalloc. frame. Qed.
#[local] Hint Resolve mem_kfree mem_kalloc : frame.

Lemma mem_walkpgdir d a b : mem_only (walkpgdir d a b).
Proof. unfold walkpgdir. frame. Qed.
#[local] Hint Resolve mem_walkpgdir : frame.

Lemma mem_mappages d a n pa perm : mem_only (mappages d a n pa perm).
Proof.
  unfold mappages. cbv zeta. generalize (S (Z.to_nat (u32 (PGROUNDDOWN (u32 (a + n - 1)) - PGROUNDDOWN a) / PGSIZE))).
  intros fuel. generalize (PGROUNDDOWN a). revert pa.
  induction fuel as [|fuel IH]; intros pa x; cbn [mappages_loop]; frame.
Qed.
#[local] Hint Resolve mem_mappages : frame.

Lemma mem_deallocuvm d o n : mem_only (deallocuvm d o n).
Proof.
  unfold deallocuvm. frame. generalize (S (Z.to_nat ((o - PGROUNDUP n) / PGSIZE + 1))). generalize (PGROUNDUP n).
  intros a fuel. revert a. induction fuel as [|fuel IH]; intros a; cbn [deallocuvm_loop]; frame.
Qed.
#[local] Hint Resolve mem_deallocuvm : frame.

Lemma mem_freevm d : mem_only (freevm d).
Proof.
  unfold freevm. frame. generalize (Z.to_nat NPDENTRIES), 0. intros fuel.
  induction fuel as [|fuel IH]; intros i; cbn [freevm_loop]; frame.
Qed.
#[local] Hint Resolve mem_freevm : frame.

Lemma mem_setupkvm : mem_only setupkvm.
Proof.
  unfold setupkvm. frame. generalize kmap. intros ks. induction ks as [|k ks IH]; cbn [setupkvm_loop]; frame.
Qed.
#[local] Hint Resolve mem_setupkvm : frame.

Lemma mem_write_bytes b : forall a, mem_only (write_bytes a b).
Proof. induction b as [|x b IH]; intros a; cbn [write_bytes]; frame. Qed.
#[local] Hint Resolve mem_write_bytes : frame.

Lemma mem_allocuvm d o n : mem_only (allocuvm d o n).
Proof.
  unfold allocuvm. frame. generalize (S (Z.to_nat ((n - PGROUNDUP o) / PGSIZE + 1))). generalize (PGROUNDUP o).
  intros a fuel. revert a. induction fuel as [|fuel IH]; intros a; cbn [allocuvm_loop]; frame.
Qed.
Lemma mem_clearpteu d a : mem_only (clearpteu d a).
Proof. unfold clearpteu. frame. Qed.

Lemma mem_copyuvm d n : mem_only (copyuvm d n).
Proof.
  unfold copyuvm. frame. generalize (S (Z.to_nat (n / PGSIZE + 1))), 0. intros fuel.
  induction fuel as [|fuel IH]; intros i; cbn [copyuvm_loop]; frame.
Qed.

Lemma mem_uva2ka d a : mem_only (uva2ka d a).
Proof. unfold uva2ka. frame. Qed.
#[local] Hint Resolve mem_uva2ka : frame.

Lemma mem_copyout d a b : mem_only (copyout d a b).
Proof.
  unfold copyout. generalize (S (length b)). intros fuel. revert a b.
  induction fuel as [|fuel IH]; intros a b; destruct b; cbn [copyout_loop]; frame.
Qed.
End Memory.
#[export] Hint Resolve mem_read32 mem_write32 mem_memset mem_memmove mem_kfree mem_kalloc mem_walkpgdir mem_mappages
  mem_deallocuvm mem_freevm mem_setupkvm mem_write_bytes mem_allocuvm mem_clearpteu mem_copyuvm mem_copyout : frame.
