(* ===== verification/FsFrame.v ===== *)
(** * The file system leaves the open-file table alone

    Below [file.c] no code changes the reference count or the type of an open
    file: [bio.c], [log.c], [fs.c] and the transactions of [sysfile.c] leave
    the view [fview] of the table alone.  Device drivers behind [devsw] are
    taken to do so as well ([DevSwOk]). *)
From Stdlib Require Import ZArith Lia Bool.
From stdpp Require Import base numbers list strings.
From S2P Require Import Prelude Machine Cstring Kalloc Segments Vm Kstate Shm Proc Sched Sem FsState Bio Log Fs Pipe Ksys File Syscall Sysfile Frame.

Definition fkey (f : file) : Z * fdtype := (f_ref f, f_type f).
Definition fview (s : fsys) : list (Z * fdtype) := fkey <$> ftable s.

Local Abbreviation fs_only := (leaves fview true).

Class DevSwOk (DS : DevSw) : Prop := {
  dev_read_frame : forall major rd ip n, dev_read major = Some rd -> fs_only (rd ip n);
  dev_write_frame : forall major wr ip src n, dev_write major = Some wr -> fs_only (wr ip src n);
}.

Section Table.
Lemma fs_get_at {A} b (l : fsys -> list A) i : leaves fview b (get_at l i).
Proof. intros s. unfold get_at. by destruct (l s !! i). Qed.
Lemma fs_upd_buf b i f : leaves fview b (upd_buf i f).
Proof. intros s. unfold upd_buf. by destruct (bufs s !! i). Qed.
Lemma fs_upd_inode b i f : leaves fview b (upd_inode i f).
Proof. intros s. unfold upd_inode. by destruct (icache s !! i). Qed.
Lemma fs_upd_file b i f : (forall x, fkey (f x) = fkey x) -> leaves fview b (upd_file i f).
Proof.
  intros H s. unfold upd_file. destruct (ftable s !! i) as [x|] eqn:E; [|done]. cbn [leaves_res].
  unfold fview. cbn [ftable set_ftable]. rewrite list_fmap_insert, H. apply list_insert_id. by rewrite list_lookup_fmap, E.
Qed.
End Table.
#[export] Hint Resolve fs_get_at fs_upd_buf fs_upd_inode : frame.

Section Fs.
Context {I : FsImage} {W : Wakeups} {DS : DevSw} {DO : DevSwOk DS}.

Lemma fs_acquire_frame b l : leaves fview b (fs_acquire l).
Proof. unfold fs_acquire. frame. Qed.
Lemma fs_release_frame b l : leaves fview b (fs_release l).
Proof. unfold fs_release. frame. Qed.
Lemma fs_wakeup_frame b c : leaves fview b (fs_wakeup c).
Proof. unfold fs_wakeup. frame. Qed.
Lemma fs_get_buf b i : leaves fview b (get_buf i).
Proof. apply fs_get_at. Qed.
Lemma fs_get_inode b i : leaves fview b (get_inode i).
Proof. apply fs_get_at. Qed.
Lemma fs_get_file b i : leaves fview b (get_file i).
Proof. apply fs_get_at. Qed.
#[local] Hint Resolve fs_acquire_frame fs_release_frame fs_wakeup_frame fs_get_buf fs_get_inode fs_get_file : frame.

Lemma fs_acquiresleep c get set n : fs_only get -> (forall l, fs_only (set l)) -> fs_only (acquiresleep c get set n).
Proof. intros Hg Hs. induction n as [|n IH]; cbn [acquiresleep]; frame. Qed.
Lemma fs_releasesleep c set : (forall l, fs_only (set l)) -> fs_only (releasesleep c set).
Proof. intros Hs. unfold releasesleep. frame. Qed.
Lemma fs_holdingsleep get : fs_only get -> fs_only (holdingsleep get).
Proof. intros Hg. unfold holdingsleep. frame. Qed.

Lemma fs_buf_lock i : fs_only (get_buf_lock i).
Proof. unfold get_buf_lock. frame. Qed.
Lemma fs_put_buf_lock i l : fs_only (put_buf_lock i l).
Proof. unfold put_buf_lock. frame. Qed.
Lemma fs_inode_lock i : fs_only (get_inode_lock i).
Proof. unfold get_inode_lock. frame. Qed.
Lemma fs_put_inode_lock i l : fs_only (put_inode_lock i l).
Proof. unfold put_inode_lock. frame. Qed.
Lemma fs_buf_data i : fs_only (buf_data i).
Proof. unfold buf_data. frame. Qed.
Lemma fs_set_buf_data i d : fs_only (set_buf_data i d).
Proof. unfold set_buf_data. frame. Qed.
#[local] Hint Resolve fs_acquiresleep fs_releasesleep fs_holdingsleep fs_buf_lock fs_put_buf_lock fs_inode_lock
  fs_put_inode_lock fs_buf_data fs_set_buf_data : frame.

(** ** [bio.c], [memide.c] *)
Lemma fs_bget d n : fs_only (bget d n).
Proof. unfold bget, buf_acquiresleep. frame. Qed.
Lemma fs_iderw i : fs_only (iderw i).
Proof. unfold iderw, buf_holdingsleep, disk_write. frame. Qed.
#[local] Hint Resolve fs_bget fs_iderw : frame.
Lemma fs_bread d n : fs_only (bread d n).
Proof. unfold bread. frame. Qed.
Lemma fs_bwrite i : fs_only (bwrite i).
Proof. unfold bwrite, buf_holdingsleep. frame. Qed.
Lemma fs_brelse i : fs_only (brelse i).
Proof. unfold brelse, buf_holdingsleep, buf_releasesleep. frame. Qed.
#[local] Hint Resolve fs_bread fs_bwrite fs_brelse : frame.

(** ** [log.c] *)
Lemma fs_upd_log f : fs_only (upd_log f).
Proof. unfold upd_log. frame. Qed.
Lemma fs_get_lh_n : fs_only get_lh_n.
Proof. unfold get_lh_n. frame. Qed.
Lemma fs_get_lh i : fs_only (get_lh i).
Proof. apply fs_get_at. Qed.
Lemma fs_set_lh i x : fs_only (set_lh i x).
Proof. intros s. unfold set_lh. by destruct (_ <? _)%nat. Qed.
#[local] Hint Resolve fs_upd_log fs_get_lh_n fs_get_lh fs_set_lh : frame.
Lemma fs_install_trans : fs_only install_trans.
Proof. unfold install_trans. frame. Qed.
Lemma fs_write_head : fs_only write_head.
Proof. unfold write_head. frame. Qed.
Lemma fs_write_log : fs_only write_log.
Proof. unfold write_log. frame. Qed.
#[local] Hint Resolve fs_install_trans fs_write_head fs_write_log : frame.
Lemma fs_begin_op : fs_only Log.begin_op.
Proof.
  unfold Log.begin_op. frame. generalize wakeups. intros n. induction n as [|n IH]; cbn [begin_op_loop]; unfold log_sleep; frame.
Qed.
Lemma fs_end_op : fs_only Log.end_op.
Proof. unfold Log.end_op, commit. frame. Qed.
Lemma fs_log_write i : fs_only (log_write i).
Proof. unfold log_write. frame. Qed.
Lemma fs_readsb d : fs_only (readsb d).
Proof. unfold readsb. frame. Qed.
#[local] Hint Resolve fs_begin_op fs_end_op fs_log_write fs_readsb : frame.

(** ** [fs.c] *)
Lemma fs_balloc d : fs_only (balloc d).
Proof. unfold balloc, get_sb, bzero. frame. Qed.
Lemma fs_bfree d b : fs_only (bfree d b).
Proof. unfold bfree. frame. Qed.
Lemma fs_iget d n : fs_only (iget d n).
Proof. unfold iget. frame. Qed.
Lemma fs_idup i : fs_only (Fs.idup i).
Proof. unfold Fs.idup. frame. Qed.
Lemma fs_iupdate i : fs_only (iupdate i).
Proof. unfold iupdate, get_sb. frame. Qed.
#[local] Hint Resolve fs_balloc fs_bfree fs_iget fs_idup fs_iupdate : frame.
Lemma fs_ialloc d t : fs_only (ialloc d t).
Proof. unfold ialloc, get_sb. frame. Qed.
Lemma fs_ilock i : fs_only (ilock i).
Proof. unfold ilock, get_sb. frame. Qed.
Lemma fs_iunlock i : fs_only (iunlock i).
Proof. unfold iunlock. frame. Qed.
Lemma fs_bmap i n : fs_only (bmap i n).
Proof. unfold bmap. frame. Qed.
Lemma fs_itrunc i : fs_only (itrunc i).
Proof. unfold itrunc. frame. Qed.
Lemma fs_stati i : fs_only (stati i).
Proof. unfold stati. frame. Qed.
#[local] Hint Resolve fs_ialloc fs_ilock fs_iunlock fs_bmap fs_itrunc fs_stati : frame.
Lemma fs_iput i : fs_only (Fs.iput i).
Proof. unfold Fs.iput. frame. Qed.
#[local] Hint Resolve fs_iput : frame.
Lemma fs_iunlockput i : fs_only (iunlockput i).
Proof. unfold iunlockput. frame. Qed.
Lemma fs_readi i off n : fs_only (readi i off n).
Proof.
  unfold readi. apply leaves_bind; [frame|]. intros x. destruct (_ =? _).
  { destruct (_ || _); [frame|]. destruct (dev_read _) as [rd|] eqn:E; [by eapply dev_read_frame|frame]. }
  frame. generalize (chunks (if i_size x <? off + n then i_size x - off else n)). intros fuel.
  generalize (if i_size x <? off + n then i_size x - off else n). revert off.
  induction fuel as [|fuel IH]; intros off k; cbn [readi_loop]; frame.
Qed.
Lemma fs_writei i src off n : fs_only (writei i src off n).
Proof.
  unfold writei. apply leaves_bind; [frame|]. intros x. destruct (_ =? _).
  { destruct (_ || _); [frame|]. destruct (dev_write _) as [wr|] eqn:E; [by eapply dev_write_frame|frame]. }
  frame. generalize (chunks n). intros fuel. revert src off n.
  induction fuel as [|fuel IH]; intros src off n; cbn [writei_loop]; frame.
Qed.
#[local] Hint Resolve fs_iunlockput fs_readi fs_writei : frame.

Lemma fs_dirlookup i name : fs_only (dirlookup i name).
Proof.
  unfold dirlookup. frame. generalize (dir_fuel a), 0. intros fuel.
  induction fuel as [|fuel IH]; intros off; cbn [dirlookup_loop]; frame.
Qed.
#[local] Hint Resolve fs_dirlookup : frame.
Lemma fs_dirlink i name n : fs_only (dirlink i name n).
Proof.
  unfold dirlink. frame. match goal with |- context [dir_fuel ?x] => generalize (dir_fuel x), 0 end. intros fuel.
  induction fuel as [|fuel IH]; intros off; cbn [dirlink_loop]; frame.
Qed.
Lemma fs_namex c path b name : fs_only (namex c path b name).
Proof.
  unfold namex. apply leaves_bind; [frame|]. intros ip. generalize (length path). intros fuel. revert ip path name.
  induction fuel as [|fuel IH]; intros ip path name; cbn [namex_loop]; frame.
Qed.
#[local] Hint Resolve fs_dirlink fs_namex : frame.
Lemma fs_namei c path : fs_only (Fs.namei c path).
Proof. unfold Fs.namei. frame. Qed.
Lemma fs_nameiparent c path name : fs_only (Fs.nameiparent c path name).
Proof. unfold Fs.nameiparent. frame. Qed.
#[local] Hint Resolve fs_namei fs_nameiparent : frame.

(** ** The transactions of [sysfile.c] *)
Lemma fs_link_undo i : fs_only (link_undo i).
Proof. unfold link_undo. frame. Qed.
#[local] Hint Resolve fs_link_undo : frame.
Lemma fs_link_tx c a b : fs_only (link_tx c a b).
Proof. unfold link_tx. frame. Qed.
Lemma fs_isdirempty i : fs_only (isdirempty i).
Proof.
  unfold isdirempty. frame. generalize (dir_fuel a), 32. intros fuel.
  induction fuel as [|fuel IH]; intros off; cbn [isdirempty_loop]; frame.
Qed.
#[local] Hint Resolve fs_isdirempty : frame.
Lemma fs_unlink_tx c a : fs_only (unlink_tx c a).
Proof. unfold unlink_tx, unlink_bad, unlink_entry, same_name. frame. Qed.
Lemma fs_create c path t ma mi : fs_only (create c path t ma mi).
Proof. unfold create, create_new. frame. Qed.
#[local] Hint Resolve fs_create : frame.
Lemma fs_open_inode c path m : fs_only (open_inode c path m).
Proof. unfold open_inode. frame. Qed.
Lemma fs_mk_tx c a : fs_only (mk_tx c a).
Proof. unfold mk_tx. frame. Qed.
Lemma fs_chdir_tx c a : fs_only (chdir_tx c a).
Proof. unfold chdir_tx. frame. Qed.
End Fs.
#[export] Hint Resolve fs_acquire_frame fs_release_frame fs_get_file fs_begin_op fs_end_op fs_idup fs_iput fs_ilock fs_iunlock fs_iunlockput fs_stati fs_readi
  fs_writei fs_namei fs_link_tx fs_unlink_tx fs_open_inode fs_mk_tx fs_chdir_tx : frame.
