(* ===== verification/KFrame.v ===== *)
(** * What kernel code leaves alone

    [kview] is the part of the kernel state that counting the references to
    open files is about: the running process, the counts and types of the open
    files, and of each process its descriptors and whether it is alive.  Most
    kernel code leaves it alone. *)
From Stdlib Require Import ZArith Lia Bool.
From stdpp Require Import base numbers list strings.
From S2P Require Import Prelude Machine Cstring Kalloc Segments Vm Kstate Shm Proc Sched Sem FsState Bio Log Fs Pipe Ksys File Syscall Sysfile Exec Frame FsFrame.

(** Neither unused nor a zombie. *)
Definition live (p : proc) : bool := match state p with UNUSED | ZOMBIE => false | _ => true end.
Definition pkey (p : proc) : list Z * bool := (ofile p, live p).

Record kv : Type := mk_kv {
  v_cur : nat;
  v_files : list (Z * fdtype);
  v_procs : list (list Z * bool);
}.
Definition kview (s : kst ksys) : kv := mk_kv (cur s) (fview (fsys_of s)) (pkey <$> procs s).

Local Abbreviation calm := (leaves kview false).

(** ** Accesses to the state *)
Lemma k_on_mem {A} (m : M kmem_t A) : leaves (fun _ => tt) false m -> calm (on_mem (F := ksys) m).
Proof.
  intros H s. unfold on_mem, lift. specialize (H (km s)). revert H. generalize (m (km s)). intros r.
  destruct r; cbn [leaves_res lift_res]; try done. by intros [[=] _].
Qed.

Lemma mem_read16 a : leaves (fun _ : kmem_t => tt) false (read16 a).
Proof. unfold read16. frame. Qed.
#[export] Hint Resolve mem_read16 : frame.

Lemma k_get_proc i : calm (get_proc (F := ksys) i).
Proof. intros s. unfold get_proc. by destruct (procs s !! i). Qed.

Lemma kview_upd i p f s : procs s !! i = Some p -> pkey (f p) = pkey p ->
  kview (set_procs (<[i := f p]> (procs s)) s) = kview s.
Proof.
  intros Hp Hf. unfold kview. cbn [procs set_procs cur]. f_equal. rewrite list_fmap_insert, Hf.
  apply list_insert_id. by rewrite list_lookup_fmap, Hp.
Qed.

Lemma k_upd_proc i f : (forall p, pkey (f p) = pkey p) -> calm (upd_proc (F := ksys) i f).
Proof.
  intros H s. unfold upd_proc. destruct (procs s !! i) as [p|] eqn:E; [|done]. by apply kview_upd.
Qed.
Lemma k_upd_pshm i f : calm (upd_pshm (F := ksys) i f).
Proof. by apply k_upd_proc. Qed.

Lemma tries_get_proc i s (R : proc -> kst ksys -> Prop) :
  (forall p, procs s !! i = Some p -> R p s) -> tries (get_proc i) R s.
Proof. intros HR. unfold tries, get_proc. destruct (procs s !! i); auto. Qed.
Lemma tries_upd_proc i f s (R : unit -> kst ksys -> Prop) :
  (forall p, procs s !! i = Some p -> R tt (set_procs (<[i := f p]> (procs s)) s)) -> tries (upd_proc i f) R s.
Proof. intros HR. unfold tries, upd_proc. destruct (procs s !! i); auto. Qed.

Lemma k_myproc : calm (myproc (F := ksys)).
Proof. apply leaves_gets. Qed.
Lemma k_of_option {A} (o : option A) : calm (of_option (F := ksys) o).
Proof. destruct o; unfold of_option; frame. Qed.
Lemma k_set_info i x : calm (set_info (F := ksys) i x).
Proof. unfold set_info. frame. Qed.
Lemma k_set_shkey i x : calm (set_shkey (F := ksys) i x).
Proof. unfold set_shkey. frame. Qed.
#[export] Hint Resolve k_get_proc k_upd_pshm k_myproc k_of_option k_set_info k_set_shkey k_on_mem : frame.
#[export] Hint Extern 1 (leaves kview false (upd_proc _ _)) => apply k_upd_proc; intros; reflexivity : frame.

Section Code.
Context {I : KernelImage} {L : Literals} {P : ProcImage} {FI : FsImage} {W : Wakeups} {DS : DevSw} {FP : FsPtrs} {TI : TimeImage}.

(** ** [proc.c] *)
Lemma k_acquire_ptable : calm (acquire_ptable (F := ksys)).
Proof. unfold acquire_ptable. frame. Qed.
Lemma k_release_ptable : calm (release_ptable (F := ksys)).
Proof. unfold release_ptable. frame. Qed.
Lemma k_switchuvm i : calm (switchuvm (F := ksys) i).
Proof. unfold switchuvm. frame. Qed.
Lemma k_clear_shm i : calm (clear_shm (F := ksys) i).
Proof. unfold clear_shm. frame. Qed.
#[local] Hint Resolve k_acquire_ptable k_release_ptable k_switchuvm k_clear_shm : frame.
Lemma k_growproc n : calm (growproc (F := ksys) n).
Proof. unfold growproc. frame. Qed.

(** A process that sleeps is alive, and stays so when it is woken. *)
Lemma tries_wake i p s (R : unit -> kst ksys -> Prop) : procs s !! i = Some p -> state p = SLEEPING ->
  (forall s', kview s' = kview s -> R tt s') -> tries (upd_proc i (set_state RUNNABLE)) R s.
Proof.
  intros Hp Hst HR. apply tries_upd_proc. intros q Hq. apply HR, kview_upd; [done|].
  simplify_eq. unfold pkey, live. cbn [state set_state ofile]. by rewrite Hst.
Qed.

Lemma k_wakeup1 c : calm (wakeup1 (F := ksys) c).
Proof.
  unfold wakeup1. apply leaves_for_range. intros i. apply leaves_tries. intros s.
  apply tries_bind, tries_get_proc. intros p Hp. apply tries_when; [|done]. intros Hb.
  apply andb_true_iff in Hb as [Hb _]. apply bool_decide_eq_true in Hb. by apply (tries_wake i p).
Qed.
#[local] Hint Resolve k_wakeup1 : frame.
Lemma k_wakeup c : calm (wakeup (F := ksys) c).
Proof. unfold wakeup. frame. Qed.
#[local] Hint Resolve k_wakeup : frame.

Lemma k_kill pd : calm (kill (F := ksys) pd).
Proof.
  unfold kill. apply leaves_bind; [frame|intros _]. apply leaves_bind; [|frame]. apply leaves_for_find. intros i.
  apply leaves_tries. intros s. apply tries_bind, tries_get_proc. intros p Hp.
  destruct (_ =? _); [|done]. apply tries_bind, tries_upd_proc. intros q Hq. simplify_eq.
  set (s1 := set_procs _ s). assert (kview s1 = kview s) as E1 by by apply (kview_upd i p (set_killed true)).
  apply tries_bind, tries_when.
  - intros Hb. apply bool_decide_eq_true in Hb. apply (tries_wake i (set_killed true p)); [|done|].
    { apply list_lookup_insert_eq. by eapply lookup_lt_Some. }
    intros s2 E2. tries_frame kview. congruence.
  - intros _. tries_frame kview. congruence.
Qed.

(** ** [shm.c] *)
Lemma k_sh_acquire : calm (sh_acquire (F := ksys)).
Proof. unfold sh_acquire. frame. Qed.
Lemma k_sh_release : calm (sh_release (F := ksys)).
Proof. unfold sh_release. frame. Qed.
Lemma k_clear_pte a : calm (clear_pte (F := ksys) a).
Proof. unfold clear_pte. frame. Qed.
#[local] Hint Resolve k_sh_acquire k_sh_release k_clear_pte : frame.
Lemma k_shmrem key : calm (shmrem (F := ksys) key).
Proof. unfold shmrem, shmrem_all, shmrem_drop, shmrem_slot. frame. Qed.
Lemma k_shmget_search n : forall i key ff, calm (shmget_search (F := ksys) n i key ff).
Proof. induction n as [|n IH]; intros i key ff; cbn [shmget_search]; frame. Qed.
Lemma k_copy_key d key : calm (copy_key (F := ksys) d key).
Proof. unfold copy_key. frame. Qed.
Lemma k_slot_index pos : calm (slot_index (F := ksys) pos).
Proof. unfold slot_index. frame. Qed.
Lemma k_map_shared a : calm (map_shared (F := ksys) a).
Proof. unfold map_shared, find_pos. frame. Qed.

(** ** [semaphores.c] *)
Lemma k_on_sem f : calm (on_sem (F := ksys) f).
Proof. unfold on_sem. frame. Qed.
Lemma k_acquire_sem : calm (acquire_sem (F := ksys)).
Proof. unfold acquire_sem. frame. Qed.
Lemma k_release_sem : calm (release_sem (F := ksys)).
Proof. unfold release_sem. frame. Qed.
#[local] Hint Resolve k_on_sem k_acquire_sem k_release_sem : frame.
Lemma k_sem_init x : calm (sem_init (F := ksys) x).
Proof. unfold sem_init. frame. Qed.
Lemma k_sem_up x : calm (sem_up (F := ksys) x).
Proof. unfold sem_up. frame. Qed.
Lemma k_isActive : calm (isActive (F := ksys)).
Proof. unfold isActive. frame. Qed.

(** ** User memory and [pipe.c] *)
Lemma k_uload8 a : calm (uload8 (F := ksys) a).
Proof. intros s. unfold uload8. by destruct (translate _ _ _). Qed.
Lemma k_ustore8 a x : calm (ustore8 (F := ksys) a x).
Proof. intros s. unfold ustore8. destruct (translate _ _ _); [|done]. by destruct (writable_at _ _ _). Qed.
#[local] Hint Resolve k_uload8 k_ustore8 : frame.
Lemma k_uload n : forall a, calm (uload (F := ksys) n a).
Proof. induction n as [|n IH]; intros a; cbn [uload]; frame. Qed.
Lemma k_ustore b : forall a, calm (ustore (F := ksys) a b).
Proof. induction b as [|x b IH]; intros a; cbn [ustore]; frame. Qed.
#[local] Hint Resolve k_uload k_ustore : frame.
Lemma k_uload32 a : calm (uload32 (F := ksys) a).
Proof. unfold uload32. frame. Qed.
Lemma k_ustore32 a x : calm (ustore32 (F := ksys) a x).
Proof. unfold ustore32. frame. Qed.
#[local] Hint Resolve k_uload32 : frame.

Lemma k_pget p off : calm (pget (F := ksys) p off).
Proof. unfold pget. frame. Qed.
Lemma k_pput p off x : calm (pput (F := ksys) p off x).
Proof. unfold pput. frame. Qed.
Lemma k_acquire_pipe p : calm (acquire_pipe (F := ksys) p).
Proof. unfold acquire_pipe. frame. Qed.
Lemma k_release_pipe p : calm (release_pipe (F := ksys) p).
Proof. unfold release_pipe. frame. Qed.
#[local] Hint Resolve k_pget k_pput k_acquire_pipe k_release_pipe : frame.
Lemma k_pipeclose p b : calm (pipeclose (F := ksys) p b).
Proof. unfold pipeclose. frame. Qed.
Lemma k_piperead_loop n : forall p a, calm (piperead_loop (F := ksys) n p a).
Proof. induction n as [|n IH]; intros p a; cbn [piperead_loop]; frame. Qed.

(** ** Running the file system, and its locks *)
Lemma k_drain : calm drain.
Proof.
  unfold drain. apply leaves_tries. intros s. tries_step. tries_step. tries_step. tries_step.
  apply (tries_leaves kview); [|by intros _ s' ->].
  generalize (reverse (wakes (fsys_of s))). intros l. induction l as [|c l IH]; cbn [wake_all]; frame.
Qed.
Lemma k_enter_fs : calm enter_fs.
Proof. unfold enter_fs. frame. Qed.
Lemma k_initlock_mem p x : calm (initlock_mem p x).
Proof. unfold initlock_mem. frame. Qed.
Lemma k_cwd_idx : calm cwd_idx.
Proof. unfold cwd_idx. frame. Qed.

(** ** [syscall.c], [sysproc.c] *)
Lemma k_curproc : calm (curproc (F := ksys)).
Proof. unfold curproc. frame. Qed.
#[local] Hint Resolve k_curproc : frame.
Lemma k_fetchint a : calm (fetchint (F := ksys) a).
Proof. unfold fetchint. frame. Qed.
Lemma k_fetchstr_loop n : forall a, calm (fetchstr_loop (F := ksys) n a).
Proof. induction n as [|n IH]; intros a; cbn [fetchstr_loop]; frame. Qed.
#[local] Hint Resolve k_fetchint k_fetchstr_loop : frame.
Lemma k_fetchstr a : calm (fetchstr (F := ksys) a).
Proof. unfold fetchstr. frame. Qed.
Lemma k_argint n : calm (argint (F := ksys) n).
Proof. unfold argint. frame. Qed.
#[local] Hint Resolve k_fetchstr k_argint : frame.
Lemma k_argptr n x : calm (argptr (F := ksys) n x).
Proof. unfold argptr. frame. Qed.
Lemma k_argstr n : calm (argstr (F := ksys) n).
Proof. unfold argstr. frame. Qed.
Lemma k_acquire_ticks : calm acquire_ticks.
Proof. unfold acquire_ticks. frame. Qed.
Lemma k_release_ticks : calm release_ticks.
Proof. unfold release_ticks. frame. Qed.
Lemma k_exec_argv n : forall a, calm (exec_argv n a).
Proof. induction n as [|n IH]; intros a; cbn [exec_argv]; frame. Qed.
Lemma k_exec_args argv : forall d sp argc us, calm (exec_args d sp argc argv us).
Proof. induction argv as [|a argv IH]; intros d sp argc us; cbn [exec_args]; frame. Qed.
#[local] Hint Resolve k_exec_args : frame.
Lemma k_exec_stack d n argv : calm (exec_stack d n argv).
Proof. unfold exec_stack. frame. Qed.
Lemma k_exec_commit path d n sp e : calm (exec_commit path d n sp e).
Proof. unfold exec_commit. frame. Qed.
Lemma k_set_eax x : calm (set_eax x).
Proof. unfold set_eax. frame. Qed.
Lemma k_ustore_fields l : forall a, calm (ustore_fields a l).
Proof. induction l as [|[off b] l IH]; intros a; cbn [ustore_fields]; frame. Qed.
End Code.
#[export] Hint Resolve k_acquire_ptable k_release_ptable k_switchuvm k_clear_shm k_growproc k_wakeup1 k_wakeup k_kill
  k_sh_acquire k_sh_release k_clear_pte k_shmrem k_shmget_search k_copy_key k_slot_index k_map_shared k_on_sem k_acquire_sem
  k_release_sem k_sem_init k_sem_up k_isActive k_uload8 k_ustore8 k_uload k_ustore k_uload32 k_ustore32 k_pget k_pput
  k_acquire_pipe k_release_pipe k_pipeclose k_piperead_loop k_drain k_enter_fs k_initlock_mem k_cwd_idx k_curproc k_fetchint
  k_fetchstr k_argint k_argptr k_argstr k_acquire_ticks k_release_ticks k_exec_argv k_exec_stack k_exec_commit k_set_eax
  k_ustore_fields : frame.
