(* ===== verification/Devices.v ===== *)
(** * The console in the kernel

    The interrupt handlers of the keyboard and the serial line as [trap] calls
    them, with [procdump] of [proc.c] for control-P; and the promises by which
    the rest of the kernel knows its devices, [DevSwOk] for the entries of
    [devsw] and [DriversOk] for the interrupt handlers, which the console
    keeps. *)
From Stdlib Require Import ZArith Lia Bool.
From stdpp Require Import base numbers list strings.
From S2P Require Import Prelude Machine Cstring Kalloc Segments Vm Kstate Shm Proc Sched Sem Spinlock FsState Bio Log Fs Console Pipe Ksys File Syscall Sysfile Exec Frame FsFrame KFrame.

(** Code of an interrupt runs for no process. *)
Definition intr_fs {P : ProcImage} {A} (m : FS A) : KS A := fun s => run_res (m (fsys_of s)) s.

Definition state_name (st : procstate) : list Z :=
  match st with
  | UNUSED => text "unused"
  | EMBRYO => text "embryo"
  | SLEEPING => text "sleep "
  | RUNNABLE => text "runble"
  | RUNNING => text "run   "
  | ZOMBIE => text "zombie"
  end.

Section Handlers.
Context {P : ProcImage} {CI : ConsImage}.

(** The words 1 and 2 stand for the addresses of the two strings. *)
Definition dump_line (p : proc) : KS unit :=
  intr_fs (cprintf (fun a => if a =? 1 then state_name (state p) else cstr 16 (name p)) (Some (text "%d %s %s")) [pid p; 1; 2]).

(** The return addresses up to the first null one. *)
Fixpoint dump_pcs (pcs : list Z) : KS unit :=
  match pcs with
  | [] => ret tt
  | pc :: pcs' => if pc =? 0 then ret tt else intr_fs (cprintf (fun _ => []) (Some (text " %p")) [pc]) ;;; dump_pcs pcs'
  end.

Definition ctx_ebp : Z := 12.
Definition procdump_slot (i : nat) : KS unit :=
  p <- get_proc i ;;
  match state p with
  | UNUSED => ret tt
  | st =>
      dump_line p ;;;
      when (bool_decide (st = SLEEPING)) (
        ebp <- on_mem (read32 (context p + ctx_ebp)) ;;
        m <- gets (fun s => mem (km s)) ;;
        dump_pcs (Spin.getcallerpcs m (u32 (ebp + 8)))) ;;;
      intr_fs (cprintf (fun _ => []) (Some [10]) [])
  end.
Definition procdump : KS unit := for_range NPROCS 0 procdump_slot.

Definition kbdintr : KS unit := d <- intr_fs kbdintr_fs ;; when d procdump.
Definition uartintr : KS unit := d <- intr_fs uartintr_fs ;; when d procdump.

(** The kernel with the memory disk, whose [ideintr] does nothing; the
    interrupt controller is hardware. *)
Definition console_drivers (eoi : KS unit) (cpu : Z) : Drivers :=
  {| ideintr := ret tt; Exec.kbdintr := kbdintr; Exec.uartintr := uartintr; lapiceoi := eoi; cpuid := cpu |}.
End Handlers.

(** ** The promises of the handlers *)

(** The interrupt handlers of the devices do not touch files, descriptors or
    the life of processes. *)
Class DriversOk (DR : Drivers) : Prop := {
  ide_frame : leaves kview false ideintr;
  kbd_frame : leaves kview false Exec.kbdintr;
  uart_frame : leaves kview false Exec.uartintr;
  eoi_frame : leaves kview false lapiceoi;
}.

Local Abbreviation quiet := (leaves fview false).

Lemma fs_on_console b f : leaves fview b (on_console f).
Proof. apply leaves_modify. by intros s. Qed.
Lemma fs_get_console b {A} (f : console -> A) : leaves fview b (get_console f).
Proof. apply leaves_gets. Qed.
#[local] Hint Resolve fs_on_console fs_get_console fs_acquire_frame fs_release_frame fs_wakeup_frame : frame.

Lemma fs_uartputc c : quiet (uartputc c).
Proof. unfold uartputc. frame. Qed.
Lemma fs_cgaputc c : quiet (cgaputc c).
Proof. unfold cgaputc. frame. Qed.
#[local] Hint Resolve fs_uartputc fs_cgaputc : frame.
Lemma fs_consputc c : quiet (consputc c).
Proof. unfold consputc. frame. Qed.
#[local] Hint Resolve fs_consputc : frame.
Lemma fs_consputs l : quiet (consputs l).
Proof. induction l as [|c l IH]; cbn [consputs]; frame. Qed.
#[local] Hint Resolve fs_consputs : frame.
Lemma fs_printint x b s : quiet (printint x b s).
Proof. unfold printint. frame. Qed.
#[local] Hint Resolve fs_printint : frame.

(** Two characters of the format may go in one round. *)
Lemma fs_cprintf_loop str fmt : forall args, quiet (cprintf_loop str fmt args).
Proof.
  assert (forall n fmt, (length fmt <= n)%nat -> forall args, quiet (cprintf_loop str fmt args)) as H; [|intros; by eapply H].
  induction n as [|n IH]; intros [|c fmt1] Hl args; simpl in Hl; try lia; cbn [cprintf_loop]; [frame..|].
  destruct (negb _); [apply leaves_bind; [frame|intros _; apply IH; lia]|]. destruct fmt1 as [|d fmt2]; simpl in Hl; [frame|].
  assert (forall args, quiet (cprintf_loop str fmt2 args)) as H2 by (intros; apply IH; lia).
  destruct (d =? 100); [destruct args; frame|]. destruct (_ || _); [destruct args; frame|]. destruct (d =? 115); [destruct args; frame|]. frame.
Qed.
#[local] Hint Resolve fs_cprintf_loop : frame.
Lemma fs_cprintf str fmt args : quiet (cprintf str fmt args).
Proof. unfold cprintf. destruct fmt; frame. Qed.
#[local] Hint Resolve fs_cprintf : frame.

Lemma fs_kbdgetc : quiet kbdgetc.
Proof. unfold kbdgetc. apply leaves_bind; [frame|intros [|data q]; frame]. Qed.
Lemma fs_uartgetc : quiet uartgetc.
Proof. unfold uartgetc. apply leaves_bind; [frame|intros u]. destruct (negb u); [frame|]. apply leaves_bind; [frame|intros [|c q]; frame]. Qed.

Section Frames.
Context {I : FsImage} {W : Wakeups} {P : ProcImage} {CI : ConsImage}.

Lemma fs_kill_line n : quiet (kill_line n).
Proof. induction n as [|n IH]; cbn [kill_line]; unfold in_cell; frame. Qed.
#[local] Hint Resolve fs_kill_line : frame.
Lemma fs_input_char c d : quiet (input_char c d).
Proof. unfold input_char, backspace, type_char. frame. Qed.
#[local] Hint Resolve fs_input_char : frame.
Lemma fs_consoleintr n getc : quiet getc -> quiet (consoleintr n getc).
Proof.
  intros Hg. assert (forall d, quiet (consoleintr_loop n getc d)) as Hl; [|unfold consoleintr; frame].
  induction n as [|n IH]; intros d; cbn [consoleintr_loop]; frame.
Qed.

Lemma fs_consoleread_wait n : leaves fview true (consoleread_wait n).
Proof. induction n as [|n IH]; cbn [consoleread_wait]; frame. Qed.
#[local] Hint Resolve fs_consoleread_wait : frame.
Lemma fs_consoleread_loop n : forall first, leaves fview true (consoleread_loop n first).
Proof. induction n as [|n IH]; intros first; cbn [consoleread_loop]; unfold in_cell; frame. Qed.
#[local] Hint Resolve fs_consoleread_loop fs_ilock fs_iunlock : frame.

#[export] Instance console_devsw_ok : DevSwOk console_devsw.
Proof.
  constructor; intros major f ip; cbn [dev_read dev_write console_devsw]; intros *; destruct (_ =? _); intros [= <-].
  - unfold consoleread. frame.
  - unfold consolewrite. pose proof (fun l => leaves_naps fview true _ (fs_consputs l)) as Hp. frame.
Qed.

Lemma k_intr_fs {A} (m : FS A) : quiet m -> leaves kview false (intr_fs m).
Proof.
  intros Hm. apply leaves_tries. intros s. unfold intr_fs. specialize (Hm (fsys_of s)). unfold tries.
  destruct (m (fsys_of s)) as [a f|w f| |c f k|w f|f]; cbn [leaves_res run_res] in *; try done; [|by destruct Hm as [[=] _]].
  change (tries (modify (put_fsys f) ;;; drain ;;; ret a) (fun _ s' => kview s' = kview s) s). tries_step. tries_step. tries_step.
  tries_frame kview. intros _ s2 Hv. tries_step. rewrite Hv. unfold kview. cbn [cur procs put_fsys set_fs]. f_equal. exact Hm.
Qed.
#[local] Hint Resolve k_intr_fs fs_cprintf : frame.

Lemma k_dump_pcs l : leaves kview false (dump_pcs l).
Proof. induction l as [|pc l IH]; cbn [dump_pcs]; frame. Qed.
#[local] Hint Resolve k_dump_pcs : frame.
Lemma k_procdump : leaves kview false procdump.
Proof.
  apply leaves_for_range. intros i. unfold procdump_slot, dump_line. apply leaves_bind; [frame|intros p]. destruct (state p); frame.
Qed.
#[local] Hint Resolve k_procdump : frame.

Lemma console_drivers_ok eoi cpu : leaves kview false eoi -> DriversOk (console_drivers eoi cpu).
Proof.
  intros He. pose proof fs_kbdgetc. pose proof fs_uartgetc.
  assert (quiet kbdintr_fs) by (unfold kbdintr_fs; apply leaves_bind; [frame|intros q; by apply fs_consoleintr]).
  assert (quiet uartintr_fs) by (unfold uartintr_fs; apply leaves_bind; [frame|intros q; by apply fs_consoleintr]).
  constructor; cbn [ideintr Exec.kbdintr Exec.uartintr lapiceoi console_drivers]; unfold kbdintr, uartintr; frame.
Qed.
End Frames.
