(* ===== verification/Refs.v ===== *)
(** * References to open files

    The count of every open file is the number of descriptors that refer to
    it.  [counted E h v] says so of the view [v] of a kernel state, up to what
    the code that runs has in hand: [h j] references to file [j] for which it
    holds no descriptor (or a negative number when the descriptor came first).
    [E i] is the descriptor that process [i] is just closing in [exit]: [exit]
    gives the file up first and clears the entry afterwards, and may sleep in
    between, so that entry does not count.  A free file has no type. *)
From Stdlib Require Import ZArith Lia Bool.
From stdpp Require Import base numbers list strings.
From S2P Require Import Prelude Machine Cstring Kalloc Segments Vm Kstate Shm Proc Sched Sem FsState Bio Log Fs Pipe Ksys File Syscall Sysfile Exec Frame FsFrame KFrame.

(** ** Sums over lists *)
Definition total {A} (f : A -> Z) (l : list A) : Z := foldr (fun x n => f x + n) 0 l.

Lemma total_insert {A} (f : A -> Z) l i x y : l !! i = Some x -> total f (<[i := y]> l) = total f l - f x + f y.
Proof.
  revert i. induction l as [|z l IH]; intros [|i] H; simplify_eq/=; [lia|]. rewrite (IH i H). lia.
Qed.

Lemma total_bound {A} (f : A -> Z) c l : (forall x, x ∈ l -> 0 <= f x <= c) -> 0 <= total f l <= c * Z.of_nat (length l).
Proof.
  induction l as [|x l IH]; intros H; [simpl; lia|]. pose proof (H x ltac:(by left)).
  destruct IH as [I1 I2]; [intros; apply H; by right|]. simpl total. simpl length. lia.
Qed.

Lemma total_nonneg {A} (f : A -> Z) l : (forall x, 0 <= f x) -> 0 <= total f l.
Proof. intros H. induction l as [|x l IH]; [done|]. simpl. pose proof (H x). lia. Qed.

Lemma total_ge {A} (f : A -> Z) l i x : (forall x, 0 <= f x) -> l !! i = Some x -> f x <= total f l.
Proof.
  intros H. revert i. induction l as [|z l IH]; intros [|i] Hi; simplify_eq/=.
  - pose proof (total_nonneg f l H). lia.
  - pose proof (H z). pose proof (IH i Hi). lia.
Qed.

(** ** Counting descriptors *)
Definition hit (v x : Z) : Z := if x =? v then 1 else 0.
Definition occ (v : Z) (r : list Z) : Z := total (hit v) r.
Definition uses (v : Z) (R : list (list Z)) : Z := total (occ v) R.

(** The descriptors of a process that count. *)
Definition row (e : option nat) (r : list Z) : list Z := match e with None => r | Some fd => <[fd := 0]> r end.
Definition rows (E : nat -> option nat) (ps : list (list Z * bool)) : list (list Z) := imap (fun i p => row (E i) (fst p)) ps.

Lemma rows_lookup E ps i r l : ps !! i = Some (r, l) -> rows E ps !! i = Some (row (E i) r).
Proof. intros H. unfold rows. by rewrite list_lookup_imap, H. Qed.
Lemma rows_insert E ps i p q : ps !! i = Some q -> rows E (<[i := p]> ps) = <[i := row (E i) (fst p)]> (rows E ps).
Proof.
  intros H. apply lookup_lt_Some in H. unfold rows. apply list_eq. intros k. rewrite list_lookup_imap.
  destruct (decide (i = k)) as [->|Hne].
  - rewrite !list_lookup_insert_eq by (rewrite ?length_imap; lia). done.
  - rewrite !list_lookup_insert_ne, list_lookup_imap by done. done.
Qed.

(** ** The invariant *)
Class FsPtrsOk (FP : FsPtrs) : Prop := { ftable_pos : 0 < ftable_file }.

Section Counted.
Context {FP : FsPtrs} {FO : FsPtrsOk FP}.

Definition file_or_null (v : Z) : Prop := v = 0 \/ exists j, (j < NFILE)%nat /\ v = file_ptr j.

Record desc_ok (e : option nat) (p : list Z * bool) : Prop := {
  do_length : length (fst p) = NOFILES;
  do_files : Forall file_or_null (fst p);
  do_dead : snd p = false -> e = None /\ fst p = replicate NOFILES 0;
}.

Record counted (E : nat -> option nat) (h : nat -> Z) (v : kv) : Prop := {
  ct_procs : length (v_procs v) = NPROCS;
  ct_files : length (v_files v) = NFILE;
  ct_desc : forall i p, v_procs v !! i = Some p -> desc_ok (E i) p;
  ct_refs : forall j k, v_files v !! j = Some k -> fst k = uses (file_ptr j) (rows E (v_procs v)) + h j;
  ct_free : forall j k, v_files v !! j = Some k -> fst k = 0 -> snd k = FD_NONE;
}.

Definition none : nat -> Z := fun _ => 0.
(** One more reference to file [i] in hand. *)
Definition plus (i : nat) (n : Z) (h : nat -> Z) : nat -> Z := fun j => h j + (if (j =? i)%nat then n else 0).

Lemma counted_ext E E' h h' v : counted E h v -> (forall i, E i = E' i) -> (forall j, h j = h' j) -> counted E' h' v.
Proof.
  intros [H1 H2 H3 H4 H5] HE Hh. constructor; [done|done| | |done].
  - intros i p Hp. rewrite <- HE. by apply H3.
  - intros j k Hk. rewrite <- Hh, (H4 j k Hk). f_equal. unfold rows. f_equal. apply imap_ext. intros i p _. by rewrite HE.
Qed.

Lemma file_ptr_inj i j : file_ptr i = file_ptr j -> i = j.
Proof. unfold file_ptr, sizeof_file. lia. Qed.
Lemma file_ptr_nonzero i : file_ptr i <> 0.
Proof. pose proof (ftable_pos (FP := FP)). unfold file_ptr, sizeof_file. lia. Qed.
Lemma file_idx_ptr i : file_idx (file_ptr i) = i.
Proof.
  unfold file_idx, file_ptr. replace (ftable_file + sizeof_file * Z.of_nat i - ftable_file) with (Z.of_nat i * sizeof_file) by lia.
  rewrite Z.div_mul by done. lia.
Qed.

Lemma hit_ptr i j : hit (file_ptr j) (file_ptr i) = if (j =? i)%nat then 1 else 0.
Proof.
  unfold hit. destruct (Nat.eqb_spec j i) as [->|H]; [by rewrite Z.eqb_refl|].
  rewrite (proj2 (Z.eqb_neq _ _)); [done|]. intros E. by apply file_ptr_inj in E.
Qed.
Lemma hit_null j : hit (file_ptr j) 0 = 0.
Proof. unfold hit. rewrite (proj2 (Z.eqb_neq _ _)); [done|]. intros E. symmetry in E. by apply file_ptr_nonzero in E. Qed.

Lemma occ_bound v r : 0 <= occ v r <= Z.of_nat (length r).
Proof. destruct (total_bound (hit v) 1 r) as [H1 H2]; [unfold hit; intros x _; destruct (_ =? _); lia|]. unfold occ. lia. Qed.

Lemma uses_bound E h v x : counted E h v -> 0 <= uses x (rows E (v_procs v)) <= 1024.
Proof.
  intros H. destruct (total_bound (occ x) 16 (rows E (v_procs v))) as [H1 H2].
  - intros r Hr. apply list_elem_of_lookup in Hr as [i Hr]. unfold rows in Hr. rewrite list_lookup_imap in Hr.
    destruct (v_procs v !! i) as [p|] eqn:Ep; [|done]. simplify_eq/=.
    pose proof (occ_bound x (row (E i) (fst p))) as Ho.
    assert (length (row (E i) (fst p)) = 16%nat) as Hl; [|lia].
    destruct (ct_desc _ _ _ H i p Ep) as [Hlen _ _]. unfold row. destruct (E i); [rewrite length_insert|]; by rewrite Hlen.
  - unfold rows in H2 at 2. rewrite length_imap, (ct_procs _ _ _ H) in H2. unfold uses. split; [done|]. unfold NPROCS in *. lia.
Qed.

(** ** Changes of the view *)
Definition with_file (i : nat) (k : Z * fdtype) (v : kv) : kv := mk_kv (v_cur v) (<[i := k]> (v_files v)) (v_procs v).
Definition with_desc (i : nat) (p : list Z * bool) (v : kv) : kv := mk_kv (v_cur v) (v_files v) (<[i := p]> (v_procs v)).
Definition setE (i : nat) (e : option nat) (E : nat -> option nat) : nat -> option nat := fun j => if (j =? i)%nat then e else E j.

Lemma setE_eq i e E : setE i e E i = e.
Proof. unfold setE. by rewrite Nat.eqb_refl. Qed.
Lemma setE_ne i e E j : j <> i -> setE i e E j = E j.
Proof. intros H. unfold setE. by rewrite (proj2 (Nat.eqb_neq _ _)). Qed.
Lemma setE_self i E j : setE i (E i) E j = E j.
Proof. unfold setE. by destruct (Nat.eqb_spec j i) as [->|]. Qed.
Lemma setE_setE i e e' E j : setE i e (setE i e' E) j = setE i e E j.
Proof. unfold setE. by destruct (j =? i)%nat. Qed.

Lemma with_desc_id i p v : v_procs v !! i = Some p -> with_desc i p v = v.
Proof. intros H. unfold with_desc. rewrite list_insert_id by done. by destruct v. Qed.

Lemma counted_file E h v i n t n' t' : counted E h v -> v_files v !! i = Some (n, t) -> (n' = 0 -> t' = FD_NONE) ->
  counted E (plus i (n' - n) h) (with_file i (n', t') v).
Proof.
  intros H Hi Ht. pose proof (lookup_lt_Some _ _ _ Hi) as Hlt. destruct H as [H1 H2 H3 H4 H5].
  constructor; [done|by cbn; rewrite length_insert|done| |]; cbn [v_files with_file v_procs]; intros j k Hk;
    (destruct (decide (i = j)) as [->|Hne]; [rewrite list_lookup_insert_eq in Hk by done; simplify_eq/=|rewrite list_lookup_insert_ne in Hk by done]).
  - unfold plus. rewrite Nat.eqb_refl. pose proof (H4 j _ Hi). simpl in *. lia.
  - unfold plus. rewrite (proj2 (Nat.eqb_neq j i)) by done. rewrite (H4 j k Hk). lia.
  - done.
  - by apply (H5 j).
Qed.

Lemma rows_setE E i e ps p : ps !! i = Some p -> rows (setE i e E) ps = <[i := row e (fst p)]> (rows E ps).
Proof.
  intros H. pose proof (lookup_lt_Some _ _ _ H). unfold rows. apply list_eq. intros k. rewrite list_lookup_imap.
  destruct (decide (i = k)) as [->|Hne].
  - rewrite list_lookup_insert_eq by (rewrite length_imap; lia). by rewrite H, setE_eq.
  - rewrite list_lookup_insert_ne, list_lookup_imap by done. destruct (ps !! k); [|done]. simpl. by rewrite setE_ne.
Qed.

Lemma counted_change E h v i p e' p' h' : counted E h v -> v_procs v !! i = Some p -> desc_ok e' p' ->
  (forall j, h' j = h j + occ (file_ptr j) (row (E i) (fst p)) - occ (file_ptr j) (row e' (fst p'))) ->
  counted (setE i e' E) h' (with_desc i p' v).
Proof.
  intros H Hi Hok Hh. pose proof (lookup_lt_Some _ _ _ Hi) as Hlt. destruct H as [H1 H2 H3 H4 H5].
  constructor; cbn [v_files with_desc v_procs]; [by rewrite length_insert|done| | |done].
  - intros k q Hq. destruct (decide (i = k)) as [->|Hne].
    + rewrite list_lookup_insert_eq in Hq by done. simplify_eq. by rewrite setE_eq.
    + rewrite list_lookup_insert_ne in Hq by done. rewrite setE_ne by done. by apply H3.
  - intros j k Hk. rewrite (H4 j k Hk), Hh. rewrite (rows_setE E i e' _ p') by by apply list_lookup_insert_eq.
    rewrite (rows_insert E _ i p' p) by done. rewrite list_insert_insert_eq. unfold uses.
    destruct p as [r l]. rewrite (total_insert _ _ i (row (E i) r)) by (by eapply rows_lookup). simpl. lia.
Qed.

Lemma occ_insert x r fd old w : r !! fd = Some old -> occ x (<[fd := w]> r) = occ x r - hit x old + hit x w.
Proof. apply total_insert. Qed.

(** A descriptor changes. *)
Lemma counted_desc E h v i r fd old w : counted E h v -> v_procs v !! i = Some (r, true) -> E i = None ->
  r !! fd = Some old -> file_or_null w ->
  counted E (fun j => h j + hit (file_ptr j) old - hit (file_ptr j) w) (with_desc i (<[fd := w]> r, true) v).
Proof.
  intros H Hi He Hfd Hw. destruct (ct_desc _ _ _ H i _ Hi) as [D1 D2 _].
  eapply counted_ext; [apply (counted_change E h v i (r, true) None (<[fd := w]> r, true)
    (fun j => h j + hit (file_ptr j) old - hit (file_ptr j) w)); [done|done| |]| |done].
  - constructor; [by simpl; rewrite length_insert|by apply Forall_insert|done].
  - intros j. rewrite He. simpl. rewrite (occ_insert _ _ _ old) by done. lia.
  - intros j. rewrite <- He. apply setE_self.
Qed.

(** [exit] has given up the file of a descriptor it still has to clear. *)
Lemma counted_stale E h v i r fd old : counted E h v -> v_procs v !! i = Some (r, true) -> E i = None -> r !! fd = Some old ->
  counted (setE i (Some fd) E) (fun j => h j + hit (file_ptr j) old) v.
Proof.
  intros H Hi He Hfd. destruct (ct_desc _ _ _ H i _ Hi) as [D1 D2 _].
  rewrite <- (with_desc_id i (r, true) v) by done. apply (counted_change E h v i (r, true)); [done|done|by constructor|].
  intros j. rewrite He. simpl. rewrite (occ_insert _ _ _ old), hit_null by done. lia.
Qed.

Lemma counted_clear E h v i r fd : counted E h v -> v_procs v !! i = Some (r, true) -> E i = Some fd ->
  counted (setE i None E) h (with_desc i (<[fd := 0]> r, true) v).
Proof.
  intros H Hi He. destruct (ct_desc _ _ _ H i _ Hi) as [D1 D2 _].
  apply (counted_change E h v i (r, true)); [done|done| |intros j; rewrite He; simpl; lia].
  constructor; [by simpl; rewrite length_insert|apply Forall_insert; [done|by left]|done].
Qed.

(** A slot is taken or given back. *)
Lemma counted_alive E h v i r l l' : counted E h v -> v_procs v !! i = Some (r, l) -> r = replicate NOFILES 0 -> E i = None ->
  counted E h (with_desc i (r, l') v).
Proof.
  intros H Hi Hr He. destruct (ct_desc _ _ _ H i _ Hi) as [D1 D2 _].
  eapply counted_ext; [apply (counted_change E h v i (r, l) None (r, l') h); [done|done|by constructor|]| |done].
  - intros j. rewrite He. simpl. lia.
  - intros j. rewrite <- He. apply setE_self.
Qed.

Lemma uses_pos E ps i r l fd j : ps !! i = Some (r, l) -> E i = None -> r !! fd = Some (file_ptr j) ->
  1 <= uses (file_ptr j) (rows E ps).
Proof.
  intros Hi He Hfd. apply (rows_lookup E) in Hi. rewrite He in Hi. simpl in Hi.
  assert (1 <= occ (file_ptr j) r) as H1.
  { replace 1 with (hit (file_ptr j) (file_ptr j)) by (unfold hit; by rewrite Z.eqb_refl).
    apply (total_ge _ _ fd); [|done]. intros x. unfold hit. destruct (_ =? _); lia. }
  pose proof (total_ge (occ (file_ptr j)) _ i r ltac:(intros x; apply occ_bound) Hi). unfold uses. lia.
Qed.
End Counted.
