(* ===== verification/RefLogic.v ===== *)
(** * Reasoning about one process among others

    A rely-guarantee logic for the references to open files.  Process [me]
    runs; from where it got the processor until it gives it up again it may
    change its own descriptors, those of a slot that was not alive, and the
    table of files, but not the descriptors of other processes ([mine]).
    While it sleeps the others run, under the same rule, so it finds its own
    descriptors as it left them ([resumed]).  At every such point, and when it
    exits, the references are counted.

    [safe Q E v r]: the rest of a computation, [r], keeps to this when the
    processor was last taken in view [v], and ends with [Q].

    A process may sleep with a descriptor for which it has already given up the
    reference only when it will never use it again: what is left of its
    computation never returns ([gone]).  So it is for [exit], whose parts are
    reasoned about in a [Mode] of their own. *)
From Stdlib Require Import ZArith Lia Bool.
From stdpp Require Import base numbers list strings.
From S2P Require Import Prelude Machine Cstring Kalloc Segments Vm Kstate Shm Proc Sched Sem FsState Bio Log Fs Pipe Ksys File Syscall Sysfile Exec Frame FsFrame KFrame Refs.

(** No way of going on ends with a return: the process exits, or stops. *)
Fixpoint gone {A} (r : res (kst ksys) A) : Prop :=
  match r with
  | Ok _ _ => False
  | Sleeping _ _ resume => forall s, gone (resume s)
  | Panic _ _ | Exited _ | Fault _ _ | NoFuel _ => True
  end.

Lemma gone_bind {A B} (r : res (kst ksys) A) (k : A -> KS B) : gone r -> gone (bind_res r k).
Proof. induction r as [| | |c s resume IH| |]; cbn [gone bind_res]; try done. intros H s'. by apply IH. Qed.
Lemma gone_after {A B} (m : KS A) (k : A -> KS B) s : (forall a s', gone (k a s')) -> gone (bind m k s).
Proof. intros H. unfold bind. induction (m s) as [| | |c s1 resume IH| |]; cbn [gone bind_res]; try done. Qed.

(** Is the code part of [exit]? *)
Class Mode : Type := in_exit : Prop.
Definition to_user : Mode := False.

Section Ready.
Context {FP : FsPtrs} {FO : FsPtrsOk FP} {X : Mode} (me : nat).

Definition mine (v0 v : kv) : Prop := forall j r, j <> me -> v_procs v0 !! j = Some (r, true) -> v_procs v !! j = Some (r, true).

(** [e] is the descriptor [me] is closing in [exit]. *)
Record ready (e : option nat) (h : nat -> Z) (E : nat -> option nat) (v0 v : kv) : Prop := {
  rd_cur : v_cur v = me;
  rd_live : exists r, v_procs v !! me = Some (r, true);
  rd_mine : mine v0 v;
  rd_counted : counted (setE me e E) h v;
  rd_exit : match e with None => True | Some _ => in_exit end;
}.

Record resumed (e : option nat) (v : kv) (E : nat -> option nat) (v' : kv) : Prop := {
  wk_cur : v_cur v' = me;
  wk_desc : v_procs v' !! me = v_procs v !! me;
  wk_counted : counted (setE me e E) none v';
}.
End Ready.

Lemma ready_mode {FP : FsPtrs} {FO : FsPtrsOk FP} (X Y : Mode) me e h E v0 v : (X -> Y) ->
  ready (X := X) me e h E v0 v -> ready (X := Y) me e h E v0 v.
Proof. intros H [H1 H2 H3 H4 H5]. constructor; try done. destruct e; [by apply H|done]. Qed.

Section Logic.
Context {FP : FsPtrs} {FO : FsPtrsOk FP} {X : Mode} (me : nat).
Abbreviation ready := (ready me).
Abbreviation mine := (mine me).
Abbreviation resumed := (resumed me).

(** The mode of a process that is to go on with [resume]. *)
Definition leaving {A} (resume : kst ksys -> res (kst ksys) A) : Mode := in_exit \/ forall s, gone (resume s).

Fixpoint safe {A} (Q : (nat -> option nat) -> kv -> A -> kst ksys -> Prop) (E : nat -> option nat) (v0 : kv)
    (r : res (kst ksys) A) : Prop :=
  match r with
  | Ok a s => Q E v0 a s
  | Panic w _ => count_panic w = false
  | Exited s => mine v0 (kview s) /\ counted (setE me None E) none (kview s)
  | Sleeping _ s resume =>
      exists e, RefLogic.ready (X := leaving resume) me e none E v0 (kview s) /\
        forall E' s', resumed e (kview s) E' (kview s') -> safe Q E' (kview s') (resume s')
  | Fault _ _ | NoFuel _ => True
  end.

Definition rg {A} (m : KS A) (Q : (nat -> option nat) -> kv -> A -> kst ksys -> Prop) E v0 (s : kst ksys) : Prop :=
  safe Q E v0 (m s).

Lemma rg_bind {A B} (m : KS A) (k : A -> KS B) Q E v0 s :
  rg m (fun E v0 a s' => rg (k a) Q E v0 s') E v0 s -> rg (bind m k) Q E v0 s.
Proof.
  unfold rg, bind. generalize (m s). intros r. revert E v0.
  induction r as [| | |c s' resume IH| |]; intros E v0; cbn [safe bind_res]; try done.
  intros (e & H1 & H2). exists e. split; [|intros E' s'' Hw; by apply IH, H2].
  apply (ready_mode (leaving resume)); [|done]. intros [H|H]; [by left|]. right. intros s0. by apply gone_bind.
Qed.

Lemma rg_mono {A} (m : KS A) (Q Q' : (nat -> option nat) -> kv -> A -> kst ksys -> Prop) E v0 s :
  rg m Q E v0 s -> (forall E v0 a s', Q E v0 a s' -> Q' E v0 a s') -> rg m Q' E v0 s.
Proof.
  unfold rg. generalize (m s). intros r H HQ. revert E v0 H.
  induction r as [| | |c s' resume IH| |]; intros E v0; cbn [safe]; auto.
  intros (e & H1 & H2). exists e. split; [done|]. intros E' s'' Hw. by apply IH, H2.
Qed.

Lemma rg_tries {A} (m : KS A) (Q : (nat -> option nat) -> kv -> A -> kst ksys -> Prop) E v0 s :
  tries m (fun a s' => Q E v0 a s') s -> rg m Q E v0 s.
Proof. unfold tries, rg. by destruct (m s). Qed.

(** Code that keeps [me] ready, and its descriptors as they are. *)
Definition kept (e : option nat) (v : kv) (E : nat -> option nat) (v0 v' : kv) : Prop :=
  ready e none E v0 v' /\ v_procs v' !! me = v_procs v !! me.
Definition keeps {A} (m : KS A) : Prop := forall e E v0 s, ready e none E v0 (kview s) ->
  rg m (fun E v0 _ s' => kept e (kview s) E v0 (kview s')) E v0 s.

Lemma keeps_leaves {A} (m : KS A) : leaves kview false m -> keeps m.
Proof.
  intros H e E v0 s Hr. apply rg_tries, (tries_leaves kview); [done|]. intros a s' Hv. by rewrite Hv.
Qed.

Lemma keeps_bind {A B} (m : KS A) (k : A -> KS B) : keeps m -> (forall a, keeps (k a)) -> keeps (bind m k).
Proof.
  intros Hm Hk e E v0 s Hr. apply rg_bind. eapply rg_mono; [by apply Hm|]. intros E' v0' a s' [H1 H2].
  eapply rg_mono; [by apply Hk|]. intros E'' v0'' b s'' [H3 H4]. split; [done|congruence].
Qed.

Lemma keeps_when b (m : KS unit) : keeps m -> keeps (when b m).
Proof. intros H. destruct b; [done|]. by apply keeps_leaves, leaves_ret. Qed.
Lemma keeps_for_range n : forall lo body, (forall i, keeps (body i)) -> keeps (for_range n lo body).
Proof. induction n as [|n IH]; intros lo body H; [apply keeps_leaves, leaves_ret|]. apply keeps_bind; auto. Qed.
Lemma keeps_for_find {A} n : forall lo (body : nat -> KS (option A)), (forall i, keeps (body i)) -> keeps (for_find n lo body).
Proof.
  induction n as [|n IH]; intros lo body H; [apply keeps_leaves, leaves_ret|]. apply keeps_bind; [done|].
  intros [a|]; [apply keeps_leaves, leaves_ret|auto].
Qed.
End Logic.

(** Code that never returns may be reasoned about as part of [exit]. *)
Lemma rg_gone {FP : FsPtrs} {FO : FsPtrsOk FP} {X : Mode} me {A} (m : KS A) Q Q' E v0 s : gone (m s) ->
  rg (X := True) me m Q' E v0 s -> rg me m Q E v0 s.
Proof.
  unfold rg. generalize (m s). intros r. revert E v0.
  induction r as [| | |c s' resume IH| |]; intros E v0 Hg; cbn [safe gone] in *; try done.
  intros (e & H1 & H2). exists e. split; [|intros E' s'' Hw; by apply IH, H2]. eapply (ready_mode (leaving (X := True) resume)); [|done]. intros _. by right.
Qed.

Create HintDb keep discriminated.
#[export] Hint Constants Opaque : keep.
#[export] Hint Variables Opaque : keep.

Ltac keep_step :=
  lazymatch goal with
  | |- keeps _ (bind _ _) => apply keeps_bind; [|intros ?]
  | |- keeps _ (when _ _) => apply keeps_when
  | |- keeps _ (for_range _ _ _) => apply keeps_for_range; intros ?
  | |- keeps _ (for_find _ _ _) => apply keeps_for_find; intros ?
  | |- keeps _ (let _ := _ in _) => cbv zeta
  | |- keeps _ (match ?x with _ => _ end) => first [solve [auto with keep frame]|solve [apply keeps_leaves; frame]|destruct x]
  | _ => first [solve [auto with keep frame]|solve [apply keeps_leaves; frame]]
  end.
Ltac keep := intros; repeat keep_step.

Section Sleep.
Context {I : KernelImage} {L : Literals} {P : ProcImage} {W : Wakeups}.
Context {FP : FsPtrs} {FO : FsPtrsOk FP} {X : Mode} (me : nat).

Lemma kept_refl e E v0 v : ready me e none E v0 v -> kept me e v E v0 v.
Proof. by split. Qed.

(** Giving up the processor. *)
Lemma keeps_sleep_on c : keeps me (sleep_on c).
Proof.
  intros e E v0 s Hr. exists e. split; [apply (ready_mode X); [by left|done]|]. intros E' s' Hw. cbn [safe].
  destruct Hr as [_ [r Hl] _ _ He]. split; [|apply Hw]. constructor; [apply Hw| |by intros j r' _|apply Hw|done].
  exists r. by rewrite (wk_desc _ _ _ _ _ Hw).
Qed.

Lemma keeps_sched : keeps me (sched (F := ksys)).
Proof.
  unfold sched. keep. apply keeps_sleep_on.
Qed.

Lemma rg_myproc {B} (k : nat -> KS B) Q E v0 s : cur s = me -> rg me (k me) Q E v0 s -> rg me (bind myproc k) Q E v0 s.
Proof. intros <- H. exact H. Qed.
Lemma keeps_myproc {B} (k : nat -> KS B) : keeps me (k me) -> keeps me (bind myproc k).
Proof. intros H e E v0 s Hr. apply rg_myproc; [apply Hr|by apply H]. Qed.

(** The running process is alive whatever its new state is. *)
Lemma keeps_set_state st : st <> UNUSED -> st <> ZOMBIE -> keeps me (upd_proc me (set_state st)).
Proof.
  intros H1 H2 e E v0 s Hr. apply rg_tries, tries_upd_proc. intros p Hp.
  assert (kview (set_procs (<[me := set_state st p]> (procs s)) s) = kview s) as ->; [|by apply kept_refl].
  apply kview_upd; [done|]. unfold pkey. f_equal. destruct Hr as [Hc [r Hl] _ _]. simpl in Hl.
  rewrite list_lookup_fmap, Hp in Hl. simpl in Hl. injection Hl as _ ->. unfold live. by destruct st.
Qed.

Lemma keeps_sleep c lk : (forall l, lk = Some l -> leaves kview false (lk_acquire l) /\ leaves kview false (lk_release l)) ->
  keeps me (sleep c lk).
Proof.
  intros Hlk. unfold sleep. apply keeps_myproc. apply keeps_bind.
  { destruct lk as [l|]; [destruct (Hlk l eq_refl)|]; keep. }
  intros _. apply keeps_bind; [keep|intros _]. apply keeps_bind; [by apply keeps_set_state|intros _].
  apply keeps_bind; [apply keeps_sched|intros _]. apply keeps_bind; [keep|intros _].
  destruct lk as [l|]; [destruct (Hlk l eq_refl)|]; keep.
Qed.
Lemma keeps_sleep_lock c l : leaves kview false (lk_acquire l) -> leaves kview false (lk_release l) -> keeps me (sleep c (Some l)).
Proof. intros H1 H2. apply keeps_sleep. by intros ? [= <-]. Qed.
Lemma keeps_sleep_none c : keeps me (sleep (F := ksys) c None).
Proof. by apply keeps_sleep. Qed.

(** ** Running the file system *)
Lemma kview_put f s : fview f = fview (fsys_of s) -> kview (put_fsys f s) = kview s.
Proof. intros H. unfold kview. cbn [cur procs put_fsys set_fs]. by rewrite <- H. Qed.

Lemma keeps_run_res {A} (r : res fsys A) : forall e E v0 s, ready me e none E v0 (kview s) ->
  leaves_res fview true (fview (fsys_of s)) r ->
  rg me (run_res r) (fun E v0 _ s' => kept me e (kview s) E v0 (kview s')) E v0 s.
Proof.
  induction r as [a f|w f|f|c f resume IH|w f|f]; intros e E v0 s Hr H; cbn [leaves_res] in H; cbn [run_res]; try done.
  - apply rg_tries, tries_bind. tries_step. apply tries_bind. tries_frame kview. intros _ s' Hv.
    tries_step. rewrite Hv, kview_put by done. by apply kept_refl.
  - destruct H as (_ & Hf & Hres). apply rg_bind, rg_tries. tries_step.
    assert (kview (put_fsys f s) = kview s) as Hv by by apply kview_put.
    apply rg_bind. eapply rg_mono; [apply keeps_leaves; [frame|by rewrite Hv]|]. intros E1 v1 _ s1 [H1 H1'].
    apply rg_bind. eapply rg_mono; [by apply keeps_sleep_lock; [unfold no_lock; frame..|]|]. intros E2 v2 _ s2 [H2 H2'].
    apply rg_bind. eapply rg_mono; [apply keeps_leaves; [frame|done]|]. intros E3 v3 _ s3 [H3 H3'].
    eapply rg_mono; [apply (IH (fsys_of s3) e E3 v3 s3); [done|apply Hres]|]. intros E4 v4 b s4 [H4 H4'].
    split; [done|]. by rewrite H4', H3', H2', H1', Hv.
Qed.

Lemma keeps_run_fs {A} (m : FS A) : leaves fview true m -> keeps me (run_fs m).
Proof.
  intros Hm e E v0 s Hr. unfold run_fs. apply rg_bind. eapply rg_mono; [apply keeps_leaves; [frame|done]|].
  intros E1 v1 _ s1 [H1 H1']. eapply rg_mono; [apply keeps_run_res; [done|apply Hm]|].
  intros E2 v2 a s2 [H2 H2']. split; [done|congruence].
Qed.

(** File-system code that does not sleep, with its effect on the table. *)
Lemma tries_run_fs {A} (m : FS A) (R : A -> kst ksys -> Prop) s :
  (forall f, fview f = fview (fsys_of s) -> tries m (fun a f' => forall s',
     kview s' = mk_kv (cur s) (fview f') (v_procs (kview s)) -> R a s') f) -> tries (run_fs m) R s.
Proof.
  intros H. unfold run_fs. apply tries_bind. tries_frame kview. intros _ s1 Hv1.
  specialize (H (fsys_of s1) ltac:(by injection Hv1)). unfold tries at 1 in H. unfold tries.
  destruct (m (fsys_of s1)) as [a f|w f| | |w f|f]; cbn [run_res]; try done.
  change (tries (modify (put_fsys f) ;;; drain ;;; ret a) R s1). tries_step. tries_step. tries_step.
  tries_frame kview. intros _ s2 Hv2. tries_step. apply H. rewrite Hv2. unfold kview in *. injection Hv1 as H1 H2 H3.
  cbn [cur procs put_fsys set_fs v_procs]. by rewrite H1, H3.
Qed.
End Sleep.
#[export] Hint Resolve keeps_sched keeps_sleep_none keeps_sleep_lock keeps_run_fs : keep.
