(* ===== verification/RefFiles.v ===== *)
(** * [file.c] and descriptors: the effect on the counts

    The operations of [file.c] that change counts, [filealloc], [filedup],
    [fileclose] and [pipealloc], and the functions of [sysfile.c] that give
    and take descriptors. *)
From Stdlib Require Import ZArith Lia Bool.
From stdpp Require Import base numbers list strings.
From S2P Require Import Prelude Machine Cstring Kalloc Segments Vm Kstate Shm Proc Sched Sem FsState Bio Log Fs Pipe Ksys File Syscall Sysfile Exec Frame FsFrame KFrame Refs RefLogic.

(** ** The table of files *)
Section Table.
Implicit Types f : fsys.

Lemma tries_get_file i f (R : file -> fsys -> Prop) : (forall x, ftable f !! i = Some x -> R x f) -> tries (get_file i) R f.
Proof. intros HR. unfold tries, get_file, get_at. destruct (ftable f !! i); auto. Qed.
Lemma tries_upd_file i g f (R : unit -> fsys -> Prop) :
  (forall x, ftable f !! i = Some x -> R tt (set_ftable (<[i := g x]> (ftable f)) f)) -> tries (upd_file i g) R f.
Proof. intros HR. unfold tries, upd_file. destruct (ftable f !! i); auto. Qed.

Lemma fview_lookup f i x : ftable f !! i = Some x -> fview f !! i = Some (fkey x).
Proof. intros H. unfold fview. by rewrite list_lookup_fmap, H. Qed.
Lemma fview_set f i y : fview (set_ftable (<[i := y]> (ftable f)) f) = <[i := fkey y]> (fview f).
Proof. unfold fview. cbn [ftable set_ftable]. apply list_fmap_insert. Qed.

(** Passing over the lock operations. *)
Ltac skip := apply tries_bind; tries_frame fview; intros ? ? ?.

Lemma tries_filedup i f n t (R : nat -> fsys -> Prop) : fview f !! i = Some (n, t) -> 1 <= n < 2 ^ 31 - 1 ->
  (forall f', fview f' = <[i := (n + 1, t)]> (fview f) -> R i f') -> tries (File.filedup i) R f.
Proof.
  intros Hi Hn HR. unfold File.filedup. skip. apply tries_bind, tries_get_file. intros x Hx.
  pose proof (fview_lookup _ _ _ Hx) as Hk. rewrite H, Hi in Hk. injection Hk as -> ->.
  replace (f_ref x <? 1) with false by lia. apply tries_bind, tries_upd_file. intros y Hy. simplify_eq.
  skip. tries_step. apply HR. rewrite H0, fview_set, H. unfold fkey. cbn [f_ref f_type set_f_ref].
  rewrite i32_small by lia. done.
Qed.

Lemma tries_fileclose_drop i f n t (R : option file -> fsys -> Prop) : fview f !! i = Some (n, t) -> 1 <= n ->
  (forall r f', match r with
     | None => 1 < n /\ fview f' = <[i := (n - 1, t)]> (fview f)
     | Some ff => n = 1 /\ f_type ff = t /\ fview f' = <[i := (0, FD_NONE)]> (fview f)
     end -> R r f') -> tries (fileclose_drop i) R f.
Proof.
  intros Hi Hn HR. unfold fileclose_drop. skip. apply tries_bind, tries_get_file. intros x Hx.
  pose proof (fview_lookup _ _ _ Hx) as Hk. rewrite H, Hi in Hk. injection Hk as -> ->.
  replace (f_ref x <? 1) with false by lia. apply tries_bind, tries_upd_file. intros y Hy. simplify_eq.
  set (f1 := set_ftable _ _). assert (fview f1 = <[i := (f_ref x - 1, f_type x)]> (fview f)) as H1.
  { unfold f1. by rewrite fview_set, H. }
  destruct (Z.ltb_spec 0 (f_ref x - 1)) as [Hlt|Hge].
  - skip. tries_step. apply HR. split; [lia|]. congruence.
  - apply tries_bind, tries_get_file. intros y Hy'. apply tries_bind, tries_upd_file. intros z Hz.
    apply tries_bind, tries_upd_file. intros w Hw. skip. tries_step. apply HR.
    pose proof (fview_lookup _ _ _ Hy') as Hk. rewrite H1, list_lookup_insert_eq in Hk by (by eapply lookup_lt_Some).
    injection Hk as Hr Ht. split; [lia|]. split; [done|]. rewrite H0, !fview_set, H1, !list_insert_insert_eq.
    unfold fkey. cbn [f_ref f_type set_f_type]. cbn [ftable set_ftable] in Hw.
    rewrite list_lookup_insert_eq in Hw by (by eapply lookup_lt_Some). injection Hw as <-. done.
Qed.

Lemma tries_filealloc f (R : option nat -> fsys -> Prop) :
  (forall r f', match r with
     | None => fview f' = fview f
     | Some i => exists t, fview f !! i = Some (0, t) /\ fview f' = <[i := (1, t)]> (fview f)
     end -> R r f') -> tries filealloc R f.
Proof.
  intros HR. unfold filealloc. skip. apply tries_bind, tries_for_find.
  - intros i _. apply tries_bind, tries_get_file. intros x Hx. destruct (Z.eqb_spec (f_ref x) 0) as [E|E]; [|done].
    apply tries_bind, tries_upd_file. intros y Hy. simplify_eq. skip. tries_step. tries_step. apply HR.
    exists (f_type x). rewrite <- H, (fview_lookup _ _ _ Hx), H0, fview_set. unfold fkey. by rewrite E.
  - skip. tries_step. apply HR. congruence.
Qed.
End Table.

Section Files.
Context {I : KernelImage} {L : Literals} {P : ProcImage} {FI : FsImage} {W : Wakeups} {DS : DevSw} {DO : DevSwOk DS}.
Context {FP : FsPtrs} {FO : FsPtrsOk FP} {X : Mode}.

Lemma kview_with_file s s' f f' i k : fview f = fview (fsys_of s) -> fview f' = <[i := k]> (fview f) ->
  kview s' = mk_kv (cur s) (fview f') (v_procs (kview s)) -> kview s' = with_file i k (kview s).
Proof. intros H1 H2 ->. unfold with_file. simpl. by rewrite H2, H1. Qed.

Lemma tries_run_filedup i s n t (R : nat -> kst ksys -> Prop) : v_files (kview s) !! i = Some (n, t) -> 1 <= n < 2 ^ 31 - 1 ->
  (forall s', kview s' = with_file i (n + 1, t) (kview s) -> R i s') -> tries (run_fs (File.filedup i)) R s.
Proof.
  intros Hi Hn HR. apply tries_run_fs. intros f Hf. apply (tries_filedup i f n t); [by rewrite Hf|done|].
  intros f' Hf' s' Hs'. by eapply HR, kview_with_file.
Qed.

Lemma tries_run_drop i s n t (R : option file -> kst ksys -> Prop) : v_files (kview s) !! i = Some (n, t) -> 1 <= n ->
  (forall r s', match r with
     | None => 1 < n /\ kview s' = with_file i (n - 1, t) (kview s)
     | Some ff => n = 1 /\ f_type ff = t /\ kview s' = with_file i (0, FD_NONE) (kview s)
     end -> R r s') -> tries (run_fs (fileclose_drop i)) R s.
Proof.
  intros Hi Hn HR. apply tries_run_fs. intros f Hf. apply (tries_fileclose_drop i f n t); [by rewrite Hf|done|].
  intros r f' Hf' s' Hs'. apply HR. destruct r as [ff|].
  - destruct Hf' as (? & ? & Hf'). split; [done|]. split; [done|]. by eapply kview_with_file.
  - destruct Hf' as (? & Hf'). split; [done|]. by eapply kview_with_file.
Qed.

Lemma tries_run_filealloc s (R : option nat -> kst ksys -> Prop) :
  (forall r s', match r with
     | None => kview s' = kview s
     | Some i => exists t, v_files (kview s) !! i = Some (0, t) /\ kview s' = with_file i (1, t) (kview s)
     end -> R r s') -> tries (run_fs filealloc) R s.
Proof.
  intros HR. apply tries_run_fs. intros f Hf. apply tries_filealloc. intros r f' Hf' s' Hs'. apply HR. destruct r as [i|].
  - destruct Hf' as (t & H1 & H2). exists t. rewrite Hf in H1. split; [exact H1|]. by eapply kview_with_file.
  - rewrite Hs', Hf', Hf. done.
Qed.

(** A reference less, for a file that is not the last reference to an inode. *)
Definition dropped (n : Z) (t : fdtype) : Z * fdtype := if 1 <? n then (n - 1, t) else (0, FD_NONE).

Lemma tries_fileclose i s n t (R : unit -> kst ksys -> Prop) : v_files (kview s) !! i = Some (n, t) -> 1 <= n -> t <> FD_INODE ->
  (forall s', kview s' = with_file i (dropped n t) (kview s) -> R tt s') -> tries (File.fileclose i) R s.
Proof.
  intros Hi Hn Ht HR. unfold File.fileclose. apply tries_bind, (tries_run_drop i s n t); [done|done|]. intros [ff|] s1 H1.
  - destruct H1 as (Hn1 & Hff & Hs1). assert (kview s1 = with_file i (dropped n t) (kview s)) as Hs1' by by rewrite Hn1.
    destruct (f_type ff) eqn:E; [by apply HR| |congruence].
    tries_frame kview. intros [] s2 Hs2. apply HR. by rewrite Hs2.
  - destruct H1 as (Hlt & Hs1). tries_step. apply HR. unfold dropped. by rewrite (proj2 (Z.ltb_lt 1 n)).
Qed.

Lemma counted_lookup E h v i : counted E h v -> (i < NFILE)%nat -> exists n t, v_files v !! i = Some (n, t) /\
  n = uses (file_ptr i) (rows E (v_procs v)) + h i /\ 0 <= n - h i <= 1024.
Proof.
  intros H Hi. destruct (lookup_lt_is_Some_2 (v_files v) i) as [[n t] Hk]; [by rewrite (ct_files _ _ _ H)|].
  pose proof (ct_refs _ _ _ H i _ Hk) as Hr. pose proof (uses_bound _ _ _ (file_ptr i) H). simpl in Hr.
  exists n, t. split; [done|]. split; [done|lia].
Qed.

(** With a changed file and the reference in hand or gone. *)
Lemma ready_file me e h h' E v0 v i n t n' t' : ready me e h E v0 v -> v_files v !! i = Some (n, t) -> (n' = 0 -> t' = FD_NONE) ->
  (forall j, h' j = plus i (n' - n) h j) -> ready me e h' E v0 (with_file i (n', t') v).
Proof.
  intros [H1 H2 H3 H4 H5] Hi Ht Hh. constructor; [done|done|done| |done].
  eapply counted_ext; [by eapply counted_file|done|]. intros j. by rewrite Hh.
Qed.

Lemma rg_fileclose me i e E v0 s : ready me e (plus i 1 none) E v0 (kview s) -> (i < NFILE)%nat ->
  rg me (File.fileclose i) (fun E v0 _ s' => kept me e (kview s) E v0 (kview s')) E v0 s.
Proof.
  intros Hr Hi. destruct (counted_lookup _ _ _ i (rd_counted _ _ _ _ _ _ Hr) Hi) as (n & t & Hk & Hn & Hb).
  assert (plus i 1 none i = 1) as Hp by (unfold plus; by rewrite Nat.eqb_refl). rewrite Hp in Hn, Hb.
  unfold File.fileclose. apply rg_bind, rg_tries, (tries_run_drop i s n t); [done|lia|]. intros r s1 Hs1.
  assert (ready me e none E v0 (kview s1) /\ v_procs (kview s1) !! me = v_procs (kview s) !! me) as [Hr1 Hd1].
  { destruct r as [ff|]; [destruct Hs1 as (Hn1 & _ & ->)|destruct Hs1 as (Hlt & ->)]; (split; [|done]);
      (eapply ready_file; [done|done|intros; try done; lia|]; intros j; unfold plus, none; destruct (j =? i)%nat; lia). }
  assert (keeps me (match r with
    | None => ret tt
    | Some ff => match f_type ff with
      | FD_PIPE => pipeclose (f_pipe ff) (f_writable ff)
      | FD_INODE => run_fs Log.begin_op ;;; run_fs (Fs.iput (f_ip ff)) ;;; run_fs Log.end_op
      | FD_NONE => ret tt
      end end)) as Hk2 by keep.
  eapply rg_mono; [by apply Hk2|]. intros E2 v2 _ s2 [H2 H2']. split; [done|congruence].
Qed.

(** ** Descriptors *)
Lemma kview_with_desc s i p g : procs s !! i = Some p -> kview (set_procs (<[i := g p]> (procs s)) s) = with_desc i (pkey (g p)) (kview s).
Proof. intros H. unfold kview, with_desc. cbn [cur procs set_procs]. by rewrite list_fmap_insert. Qed.

Lemma procs_view s i r l : v_procs (kview s) !! i = Some (r, l) -> exists p, procs s !! i = Some p /\ ofile p = r /\ live p = l.
Proof. cbn [v_procs kview]. rewrite list_lookup_fmap. destruct (procs s !! i) as [p|]; [|done]. intros [= <- <-]. by exists p. Qed.

Lemma tries_set_ofile i s r fd w (R : unit -> kst ksys -> Prop) : v_procs (kview s) !! i = Some (r, true) ->
  (forall s', kview s' = with_desc i (<[fd := w]> r, true) (kview s) -> R tt s') ->
  tries (upd_proc i (fun p => set_ofile (<[fd := w]> (ofile p)) p)) R s.
Proof.
  intros Hi HR. apply procs_view in Hi as (p & Hp & Hr & Hl). apply tries_upd_proc. intros q Hq. simplify_eq.
  apply HR. rewrite (kview_with_desc s i p) by done. unfold pkey, live in *. cbn [ofile state set_ofile]. by rewrite Hl.
Qed.

Lemma tries_set_fd s r fd w (R : unit -> kst ksys -> Prop) : v_procs (kview s) !! cur s = Some (r, true) ->
  (forall s', kview s' = with_desc (cur s) (<[fd := w]> r, true) (kview s) -> R tt s') -> tries (set_fd fd w) R s.
Proof. intros Hi HR. unfold set_fd, myproc. tries_step. tries_step. by apply (tries_set_ofile (cur s) s r). Qed.

Lemma nth_null (r : list Z) fd : (fd < length r)%nat -> nth fd r 0 = 0 -> r !! fd = Some 0.
Proof. intros H E. destruct (lookup_lt_is_Some_2 r fd H) as [x Hx]. by rewrite (nth_lookup_Some _ _ _ _ Hx) in E; subst. Qed.

Lemma tries_fdalloc f s r (R : option nat -> kst ksys -> Prop) : v_procs (kview s) !! cur s = Some (r, true) -> length r = NOFILES ->
  (forall fd s', r !! fd = Some 0 -> kview s' = with_desc (cur s) (<[fd := file_ptr f]> r, true) (kview s) -> R (Some fd) s') ->
  R None s -> tries (fdalloc f) R s.
Proof.
  intros Hi Hl HR HN. pose proof (procs_view _ _ _ _ Hi) as (p & Hp & Hr & _). unfold fdalloc. apply tries_for_find; [|done].
  intros fd Hfd. apply tries_bind. unfold curproc, myproc. tries_step. tries_step. apply tries_get_proc. intros q Hq. simplify_eq.
  destruct (Z.eqb_spec (nth fd (ofile p) 0) 0) as [E|E]; [|done]. apply tries_bind, (tries_set_fd s (ofile p)); [done|].
  intros s1 Hs1. tries_step. apply HR; [|done]. apply nth_null; [lia|done].
Qed.

Lemma tries_argfd n s r (R : option (nat * nat) -> kst ksys -> Prop) : v_procs (kview s) !! cur s = Some (r, true) ->
  Forall file_or_null r -> length r = NOFILES ->
  (forall fd f s', (f < NFILE)%nat -> r !! fd = Some (file_ptr f) -> kview s' = kview s -> R (Some (fd, f)) s') ->
  (forall s', kview s' = kview s -> R None s') -> tries (argfd n) R s.
Proof.
  intros Hi Hf Hl HR HN. unfold argfd. apply tries_bind. tries_frame kview. intros [fd|] s1 Hs1; [|by apply HN].
  destruct ((fd <? 0) || (NOFILE <=? fd)) eqn:Eb; [by apply HN|]. unfold NOFILE in Eb. unfold NOFILES in Hl.
  assert (cur s1 = cur s) as Hc by by injection Hs1.
  apply tries_bind. unfold curproc, myproc. tries_step. tries_step. apply tries_get_proc. intros p Hp.
  rewrite <- Hs1 in Hi. apply procs_view in Hi as (q & Hq & Hr & _). rewrite Hc, Hq in Hp. injection Hp as ->. subst r.
  destruct (lookup_lt_is_Some_2 (ofile p) (Z.to_nat fd)) as [x Hx]; [lia|]. rewrite (nth_lookup_Some _ _ _ _ Hx).
  destruct (Z.eqb_spec x 0) as [E|E]; [by apply HN|]. tries_step.
  destruct (Forall_lookup_1 _ _ _ _ Hf Hx) as [|(j & Hj & ->)]; [done|]. rewrite file_idx_ptr. by apply HR.
Qed.
End Files.
