(* ===== verification/RefCalls.v ===== *)
(** * System calls and the references to open files

    [serves m]: run for a process of which nothing is in hand, [m] keeps to
    the rules of [RefLogic] and comes back to such a state. *)
From Stdlib Require Import ZArith Lia Bool.
From stdpp Require Import base numbers list strings.
From S2P Require Import Prelude Machine Cstring Kalloc Segments Vm Kstate Shm Proc Sched Sem FsState Bio Log Fs Pipe Ksys File Syscall Sysfile Exec Frame FsFrame KFrame Refs RefLogic RefFiles.

Section Serves.
Context {FP : FsPtrs} {FO : FsPtrsOk FP} {X : Mode} (me : nat).

Definition serves {A} (m : KS A) : Prop := forall E v0 s, ready me None none E v0 (kview s) ->
  rg me m (fun E v0 _ s' => ready me None none E v0 (kview s')) E v0 s.

Lemma serves_keeps {A} (m : KS A) : keeps me m -> serves m.
Proof. intros H E v0 s Hr. eapply rg_mono; [by apply H|]. by intros ? ? ? ? [? _]. Qed.
Lemma serves_bind {A B} (m : KS A) (k : A -> KS B) : serves m -> (forall a, serves (k a)) -> serves (bind m k).
Proof. intros Hm Hk E v0 s Hr. apply rg_bind. eapply rg_mono; [by apply Hm|]. intros. by apply Hk. Qed.
Lemma serves_when b (m : KS unit) : serves m -> serves (when b m).
Proof. intros H. destruct b; [done|]. by apply serves_keeps, keeps_leaves, leaves_ret. Qed.
Lemma serves_tries {A} (m : KS A) : (forall E v0 s, ready me None none E v0 (kview s) ->
  tries m (fun _ s' => ready me None none E v0 (kview s')) s) -> serves m.
Proof. intros H E v0 s Hr. by apply rg_tries, H. Qed.

(** What a process that is ready has. *)
Lemma ready_row e h E v0 s : ready me e h E v0 (kview s) -> exists r, v_procs (kview s) !! cur s = Some (r, true) /\
  cur s = me /\ length r = NOFILES /\ Forall file_or_null r.
Proof.
  intros [H1 [r H2] _ H4 _]. exists r. change (v_cur (kview s)) with (cur s) in H1. rewrite H1.
  destruct (ct_desc _ _ _ H4 me _ H2) as [D1 D2 _]. done.
Qed.

Lemma ready_desc h h' E v0 v r fd old w : ready me None h E v0 v -> v_procs v !! me = Some (r, true) -> r !! fd = Some old ->
  file_or_null w -> (forall j, h' j = h j + hit (file_ptr j) old - hit (file_ptr j) w) ->
  ready me None h' E v0 (with_desc me (<[fd := w]> r, true) v).
Proof.
  intros [H1 H2 H3 H4 H5] Hme Hfd Hw Hh. pose proof (lookup_lt_Some _ _ _ Hme). constructor; [done| | | |done].
  - exists (<[fd := w]> r). simpl. by rewrite list_lookup_insert_eq.
  - intros j x Hj Hx. simpl. rewrite list_lookup_insert_ne by done. by apply H3.
  - eapply counted_ext; [eapply (counted_desc _ h v me r fd old w); try done; apply setE_eq|done|]. intros j. by rewrite Hh.
Qed.

Lemma ready_ext e h h' E v0 v : ready me e h E v0 v -> (forall j, h j = h' j) -> ready me e h' E v0 v.
Proof. intros [H1 H2 H3 H4 H5] Hh. constructor; [done|done|done|by eapply counted_ext|done]. Qed.
End Serves.

Ltac serve_step :=
  lazymatch goal with
  | |- serves _ (bind _ _) => apply serves_bind; [|intros ?]
  | |- serves _ (let _ := _ in _) => cbv zeta
  | |- serves _ (match ?x with _ => _ end) => first [solve [auto with keep frame]|solve [apply serves_keeps; keep]|destruct x]
  | _ => first [solve [auto with keep frame]|solve [apply serves_keeps; keep]]
  end.
Ltac serve := intros; repeat serve_step.

Section Calls.
Context {I : KernelImage} {L : Literals} {P : ProcImage} {FI : FsImage} {W : Wakeups} {DS : DevSw} {DO : DevSwOk DS}.
Context {FP : FsPtrs} {FO : FsPtrsOk FP} {TI : TimeImage} {X : Mode} (me : nat).

(** ** [dup] and [close] *)
Lemma serves_dup : serves me sys_dup.
Proof.
  apply serves_tries. intros E v0 s Hr. destruct (ready_row me _ _ _ _ _ Hr) as (r & Hrow & Hc & Hl & Hf).
  unfold sys_dup. apply tries_bind, (tries_argfd 0 s r); [done|done|done| |intros s1 Hs1; red; simpl; by rewrite Hs1].
  intros fd f s1 Hlt Hfd Hs1. rewrite <- Hs1 in Hr, Hrow. assert (cur s1 = cur s) as Hc1 by by injection Hs1.
  apply tries_bind, (tries_fdalloc f s1 r); [by rewrite Hc1|done| |done].
  intros fd1 s2 Hfd1 Hs2. rewrite Hc1, Hc in Hs2. rewrite Hc in Hrow.
  destruct (counted_lookup _ _ _ f (rd_counted _ _ _ _ _ _ Hr) Hlt) as (n & t & Hk & Hn & Hb).
  pose proof (uses_pos (setE me None E) _ me r true fd f Hrow (setE_eq _ _ _) Hfd) as Hpos. unfold none in Hn, Hb.
  apply tries_bind, (tries_run_filedup f s2 n t); [by rewrite Hs2|lia|]. intros s3 Hs3. tries_step. rewrite Hs3.
  eapply (ready_file me None (fun j => hit (file_ptr j) 0 - hit (file_ptr j) (file_ptr f))); [|by rewrite Hs2|lia|].
  - rewrite Hs2. eapply ready_desc; [done|done|done|by right; exists f|]. intros j. unfold none. lia.
  - intros j. unfold plus, none. rewrite hit_null, hit_ptr. destruct (j =? f)%nat; lia.
Qed.

Lemma serves_close : serves me sys_close.
Proof.
  intros E v0 s Hr. destruct (ready_row me _ _ _ _ _ Hr) as (r & Hrow & Hc & Hl & Hf).
  unfold sys_close. apply rg_bind, rg_tries, (tries_argfd 0 s r); [done|done|done| |intros s1 Hs1; red; simpl; by rewrite Hs1].
  intros fd f s1 Hlt Hfd Hs1. rewrite <- Hs1 in Hr, Hrow. assert (cur s1 = cur s) as Hc1 by by injection Hs1.
  apply rg_bind, rg_tries, (tries_set_fd s1 r); [by rewrite Hc1|]. intros s2 Hs2. rewrite Hc1, Hc in Hs2. rewrite Hc in Hrow.
  apply rg_bind. eapply rg_mono; [apply (rg_fileclose me f None); [|done]|by intros ? ? ? ? [? _]].
  rewrite Hs2. eapply ready_desc; [done|done|done|by left|]. intros j. unfold plus, none. rewrite hit_null, hit_ptr. lia.
Qed.

(** ** [open] *)

(** A file from [filealloc] is in hand, and has no type. *)
Lemma ready_filealloc e h E v0 v i t : ready me e h E v0 v -> v_files v !! i = Some (0, t) ->
  ready me e (plus i 1 h) E v0 (with_file i (1, t) v) /\ t = FD_NONE /\ (i < NFILE)%nat.
Proof.
  intros Hr Hk. split; [by eapply ready_file|]. pose proof (rd_counted _ _ _ _ _ _ Hr) as Hc. split.
  - by apply (ct_free _ _ _ Hc i _ Hk).
  - apply lookup_lt_Some in Hk. by rewrite (ct_files _ _ _ Hc) in Hk.
Qed.

(** A descriptor for the file in hand. *)
Lemma ready_fdalloc h E v0 v r fd f : ready me None (plus f 1 h) E v0 v -> v_procs v !! me = Some (r, true) -> r !! fd = Some 0 ->
  (f < NFILE)%nat -> ready me None h E v0 (with_desc me (<[fd := file_ptr f]> r, true) v).
Proof.
  intros Hr Hrow Hfd Hf. eapply ready_desc; [done|done|done|by right; exists f|].
  intros j. unfold plus. rewrite hit_null, hit_ptr. lia.
Qed.

(** Giving a file its type. *)
Lemma tries_run_upd i g s n t t' (R : unit -> kst ksys -> Prop) : v_files (kview s) !! i = Some (n, t) ->
  (forall x, fkey (g x) = (f_ref x, t')) ->
  (forall s', kview s' = with_file i (n, t') (kview s) -> R tt s') -> tries (run_fs (upd_file i g)) R s.
Proof.
  intros Hi Hg HR. apply tries_run_fs. intros fs Hfs. apply tries_upd_file. intros x Hx s' Hs'. apply HR.
  pose proof (fview_lookup _ _ _ Hx) as Hk. rewrite Hfs in Hk. simpl in Hi. rewrite Hi in Hk. injection Hk as -> ->.
  apply (kview_with_file s s' fs (set_ftable (<[i := g x]> (ftable fs)) fs)); [done| |done]. by rewrite fview_set, Hg.
Qed.

Lemma tries_set_type f g t' E v0 s r fd (R : unit -> kst ksys -> Prop) : ready me None none E v0 (kview s) -> (f < NFILE)%nat ->
  v_procs (kview s) !! me = Some (r, true) -> r !! fd = Some (file_ptr f) -> (forall x, fkey (g x) = (f_ref x, t')) ->
  (forall s', ready me None none E v0 (kview s') -> R tt s') -> tries (run_fs (upd_file f g)) R s.
Proof.
  intros Hr Hf Hrow Hfd Hg HR. destruct (counted_lookup _ _ _ f (rd_counted _ _ _ _ _ _ Hr) Hf) as (n & t & Hk & Hn & Hb).
  pose proof (uses_pos (setE me None E) _ me r true fd f Hrow (setE_eq _ _ _) Hfd) as Hpos. unfold none in Hn, Hb.
  apply (tries_run_upd f g s n t t'); [done|done|]. intros s' Hs'. apply HR. rewrite Hs'.
  eapply ready_file; [done|done|lia|]. intros j. unfold plus, none. destruct (_ =? _)%nat; lia.
Qed.

Lemma serves_open_file ip omode : serves me (open_file ip omode).
Proof.
  assert (serves me (run_fs (iunlockput ip) ;;; run_fs Log.end_op ;;; ret (-1))) as Hbad by serve.
  intros E v0 s Hr. unfold open_file. apply rg_bind, rg_tries, tries_run_filealloc. intros [f|] s1 Hs1.
  2:{ apply rg_bind, rg_tries. tries_step. apply rg_bind, rg_tries. cbn [close_opt]. tries_step. apply Hbad. by rewrite Hs1. }
  destruct Hs1 as (t & Hk & Hs1). destruct (ready_filealloc _ _ _ _ _ _ _ Hr Hk) as (Hr1 & -> & Hf). rewrite <- Hs1 in Hr1.
  destruct (ready_row me _ _ _ _ _ Hr1) as (r & Hrow & Hc & Hl & _).
  apply rg_bind, rg_tries, (tries_fdalloc f s1 r); [done|done| |].
  2:{ apply rg_bind. eapply rg_mono; [by apply rg_fileclose|]. intros E2 v2 _ s2 [H2 _]. by apply Hbad. }
  intros fd s2 Hfd Hs2. rewrite Hc in Hrow, Hs2.
  assert (ready me None none E v0 (kview s2)) as Hr2 by (rewrite Hs2; by apply ready_fdalloc).
  assert (v_procs (kview s2) !! me = Some (<[fd := file_ptr f]> r, true)) as Hrow2.
  { rewrite Hs2. simpl. apply list_lookup_insert_eq. by eapply lookup_lt_Some. }
  apply rg_bind. eapply rg_mono; [apply keeps_run_fs; [frame|done]|]. intros E3 v3 _ s3 [H3 H3'].
  apply rg_bind. eapply rg_mono; [apply keeps_run_fs; [frame|done]|]. intros E4 v4 _ s4 [H4 H4'].
  apply rg_bind, rg_tries. eapply (tries_set_type f _ FD_INODE E4 v4 s4 (<[fd := file_ptr f]> r) fd); [done|done|congruence| |done|by intros].
  apply list_lookup_insert_eq. by eapply lookup_lt_Some.
Qed.

Lemma serves_open : serves me sys_open.
Proof. unfold sys_open. serve. apply serves_open_file. Qed.

(** ** [pipe] *)
(** Closing a file in hand that is no inode. *)
Lemma tries_close_held e i h h' E v0 s n t (R : unit -> kst ksys -> Prop) : ready me e h E v0 (kview s) ->
  v_files (kview s) !! i = Some (n, t) -> 1 <= n -> t <> FD_INODE -> (forall j, h j = plus i 1 h' j) ->
  (forall s', ready me e h' E v0 (kview s') -> kview s' = with_file i (dropped n t) (kview s) -> R tt s') ->
  tries (File.fileclose i) R s.
Proof.
  intros Hr Hk Hn Ht Hh HR. apply (tries_fileclose i s n t); [done|done|done|]. intros s' Hs'. apply HR; [|done]. rewrite Hs'.
  unfold dropped. destruct (Z.ltb_spec 1 n); (eapply ready_file; [done|done|first [done|lia]|]); intros j; unfold plus in *;
    rewrite Hh; destruct (_ =? _)%nat; lia.
Qed.

Lemma files_ne v i j k : j <> i -> v_files (with_file i k v) !! j = v_files v !! j.
Proof. intros H. simpl. by rewrite list_lookup_insert_ne by done. Qed.
Lemma files_eq v i k : (i < length (v_files v))%nat -> v_files (with_file i k v) !! i = Some k.
Proof. intros H. simpl. by rewrite list_lookup_insert_eq. Qed.

Definition pair_held (a b : nat) (s : kst ksys) : Prop :=
  a <> b /\ (a < NFILE)%nat /\ (b < NFILE)%nat /\
  v_files (kview s) !! a = Some (1, FD_PIPE) /\ v_files (kview s) !! b = Some (1, FD_PIPE).

Lemma tries_pipealloc E v0 s (R : option (nat * nat) -> kst ksys -> Prop) : ready me None none E v0 (kview s) ->
  (forall s', ready me None none E v0 (kview s') -> R None s') ->
  (forall a b s', ready me None (plus a 1 (plus b 1 none)) E v0 (kview s') -> pair_held a b s' -> R (Some (a, b)) s') ->
  tries pipealloc R s.
Proof.
  intros Hr HN HS. unfold pipealloc. apply tries_bind, tries_run_filealloc. intros [a|] s1 Hs1; cbv beta iota.
  2:{ do 2 (tries_step; tries_step). apply HN. by rewrite Hs1. }
  destruct Hs1 as (t & Hk & Hs1). destruct (ready_filealloc _ _ _ _ _ _ _ Hr Hk) as (Hr1 & -> & Ha). rewrite <- Hs1 in Hr1.
  assert (v_files (kview s1) !! a = Some (1, FD_NONE)) as Ha1 by (rewrite Hs1; apply files_eq; by eapply lookup_lt_Some).
  apply tries_bind, tries_run_filealloc. intros [b|] s2 Hs2; cbv beta iota.
  2:{ tries_step. tries_step. cbn [close_opt]. apply tries_bind. rewrite <- Hs2 in Hr1, Ha1.
      eapply (tries_close_held None a _ none); [exact Hr1|exact Ha1|done|done|done|]. intros s3 H3 _. by apply HN. }
  destruct Hs2 as (t & Hk2 & Hs2). destruct (ready_filealloc _ _ _ _ _ _ _ Hr1 Hk2) as (Hr2 & -> & Hb). rewrite <- Hs2 in Hr2.
  assert (a <> b) as Hab by (intros ->; congruence).
  assert (v_files (kview s2) !! b = Some (1, FD_NONE)) as Hb2 by (rewrite Hs2; apply files_eq; by eapply lookup_lt_Some).
  rewrite <- (files_ne _ b a (1, FD_NONE)), <- Hs2 in Ha1 by done.
  apply tries_bind. tries_frame kview. intros p s3 Hs3. rewrite <- Hs3 in Hr2, Ha1, Hb2. cbv beta iota.
  assert (forall j, plus b 1 (plus a 1 none) j = plus a 1 (plus b 1 none) j) as Hcomm by (intros j; unfold plus; lia).
  destruct (p =? 0).
  - cbn [close_opt]. apply tries_bind. eapply (tries_close_held None a _ (plus b 1 none)); [exact Hr2|exact Ha1|done|done|exact Hcomm|].
    intros s4 H4 Hs4. apply tries_bind. rewrite <- (files_ne _ a b (dropped 1 FD_NONE)), <- Hs4 in Hb2 by done.
    eapply (tries_close_held None b _ none); [exact H4|exact Hb2|done|done|done|]. intros s5 H5 _. by apply HN.
  - do 5 (apply tries_bind; tries_frame kview; let s' := fresh "s" in let H := fresh in intros ? s' H;
          rewrite <- H in Hr2, Ha1, Hb2; clear H).
    apply tries_bind. eapply (tries_run_upd a _ _ 1 FD_NONE FD_PIPE); [exact Ha1|done|]. intros s9 Hs9.
    rewrite <- (files_ne _ a b (1, FD_PIPE)), <- Hs9 in Hb2 by done.
    apply tries_bind. eapply (tries_run_upd b _ _ 1 FD_NONE FD_PIPE); [exact Hb2|done|]. intros s10 Hs10. tries_step. apply HS.
    + rewrite Hs10. eapply ready_file; [rewrite Hs9; eapply ready_file; [exact Hr2|exact Ha1|done|reflexivity]|exact Hb2|done|].
      intros j. unfold plus. repeat destruct (_ =? _)%nat; lia.
    + split; [done|]. split; [done|]. split; [done|]. rewrite Hs10. split; [|apply files_eq; by eapply lookup_lt_Some].
      rewrite files_ne, Hs9 by done. apply files_eq. by eapply lookup_lt_Some.
Qed.

Lemma tries_close_pair a b E v0 s : ready me None (plus a 1 (plus b 1 none)) E v0 (kview s) -> pair_held a b s ->
  tries (File.fileclose a ;;; File.fileclose b ;;; ret (-1)) (fun _ s' => ready me None none E v0 (kview s')) s.
Proof.
  intros Hr (Hab & Ha & Hb & Hka & Hkb). apply tries_bind.
  eapply (tries_close_held None a _ (plus b 1 none)); [exact Hr|exact Hka|done|done|done|]. intros s1 H1 Hs1.
  rewrite <- (files_ne _ a b (dropped 1 FD_PIPE)), <- Hs1 in Hkb by done. apply tries_bind.
  by eapply (tries_close_held None b _ none); [exact H1|exact Hkb|done|done|done|].
Qed.

Lemma pair_held_desc a b s s' i p : pair_held a b s -> kview s' = with_desc i p (kview s) -> pair_held a b s'.
Proof. unfold pair_held. by intros H ->. Qed.

Lemma serves_pipe : serves me sys_pipe.
Proof.
  apply serves_tries. intros E v0 s Hr. unfold sys_pipe. apply tries_bind. tries_frame kview. intros [fd|] s1 Hs1; cbv beta iota.
  2:{ tries_step. by rewrite Hs1. }
  rewrite <- Hs1 in Hr. apply tries_bind, (tries_pipealloc E v0); [done|done|]. intros a b s2 Hr2 Hp2.
  destruct (ready_row me _ _ _ _ _ Hr2) as (r & Hrow & Hc & Hl & _).
  apply tries_bind, (tries_fdalloc a s2 r); [done|done| |].
  2:{ tries_step. tries_step. tries_step. tries_step. by apply tries_close_pair. }
  intros fd0 s3 Hfd0 Hs3. rewrite Hc in Hrow, Hs3.
  assert (ready me None (plus b 1 none) E v0 (kview s3)) as Hr3 by (rewrite Hs3; apply ready_fdalloc; try done; apply Hp2).
  assert (v_procs (kview s3) !! me = Some (<[fd0 := file_ptr a]> r, true)) as Hrow3.
  { rewrite Hs3. simpl. apply list_lookup_insert_eq. by eapply lookup_lt_Some. }
  assert (cur s3 = me) as Hc3 by apply Hr3.
  apply tries_bind, (tries_fdalloc b s3 (<[fd0 := file_ptr a]> r)); [by rewrite Hc3|by rewrite length_insert| |]; cbv beta iota.
  - intros fd1 s4 Hfd1 Hs4. assert (ready me None none E v0 (kview s4)) as Hr4.
    { rewrite Hs4, Hc3. apply ready_fdalloc; try done. apply Hp2. }
    apply tries_bind. tries_frame kview. intros _ s5 Hs5. apply tries_bind. tries_frame kview. intros _ s6 Hs6.
    tries_step. by rewrite Hs6, Hs5.
  - apply tries_bind, (tries_set_fd s3 (<[fd0 := file_ptr a]> r)); [by rewrite Hc3|]. intros s4 Hs4. rewrite Hc3 in Hs4.
    apply tries_close_pair; [|by eapply pair_held_desc; [eapply pair_held_desc|]].
    rewrite Hs4. eapply ready_desc; [exact Hr3|done|apply list_lookup_insert_eq; by eapply lookup_lt_Some|by left|].
    intros j. rewrite hit_null, hit_ptr. unfold plus. lia.
Qed.
End Calls.
