(* ===== verification/RefProcs.v ===== *)
(** * [exit], [fork] and [wait]: the references to open files

    [exit] gives up every descriptor, one at a time, and may sleep at each;
    [fork] gives the child a reference for every descriptor of the parent. *)
From Stdlib Require Import ZArith Lia Bool.
From stdpp Require Import base numbers list strings.
From S2P Require Import Prelude Machine Cstring Kalloc Segments Vm Kstate Shm Proc Sched Sem FsState Bio Log Fs Pipe Ksys File Syscall Sysfile Exec Frame FsFrame KFrame Refs RefLogic RefFiles RefCalls.

Section Exit.
Context {I : KernelImage} {L : Literals} {P : ProcImage} {FI : FsImage} {W : Wakeups} {DS : DevSw} {DO : DevSwOk DS}.
Context {FP : FsPtrs} {FO : FsPtrsOk FP} {X : Mode} (me : nat).
#[local] Existing Instance kernel_fs.

Lemma rg_for_range (J : nat -> (nat -> option nat) -> kv -> kst ksys -> Prop) n : forall lo body Q E v0 s,
  J lo E v0 s ->
  (forall i E v0 s', (lo <= i < lo + n)%nat -> J i E v0 s' -> rg me (body i) (fun E v0 _ s'' => J (S i) E v0 s'') E v0 s') ->
  (forall E v0 s', J (lo + n)%nat E v0 s' -> Q E v0 tt s') -> rg me (for_range n lo body) Q E v0 s.
Proof.
  induction n as [|n IH]; intros lo body Q E v0 s HJ Hb HQ; cbn [for_range].
  { apply HQ. by rewrite Nat.add_0_r. }
  apply rg_bind. eapply rg_mono; [apply Hb; [lia|done]|]. intros E1 v1 [] s1 H1.
  apply IH; [done|intros; apply Hb; [lia|done]|]. intros E2 v2 s2 H2. apply HQ.
  by replace (lo + S n)%nat with (S lo + n)%nat by lia.
Qed.

(** ** [exit] *)
Lemma ready_stale E v0 v r fd j : in_exit -> ready me None none E v0 v -> v_procs v !! me = Some (r, true) -> r !! fd = Some (file_ptr j) ->
  ready me (Some fd) (plus j 1 none) E v0 v.
Proof.
  intros HX [H1 H2 H3 H4 _] Hrow Hfd. constructor; [done|done|done| |done].
  eapply counted_ext; [eapply (counted_stale _ _ _ me r fd); [done|done|apply setE_eq|done]|apply setE_setE|].
  intros i. simpl. rewrite hit_ptr. unfold plus, none. destruct (_ =? _)%nat; lia.
Qed.

Lemma ready_clear E v0 v r fd : ready me (Some fd) none E v0 v -> v_procs v !! me = Some (r, true) ->
  ready me None none E v0 (with_desc me (<[fd := 0]> r, true) v).
Proof.
  intros [H1 H2 H3 H4 _] Hrow. pose proof (lookup_lt_Some _ _ _ Hrow). constructor; [done| | | |done].
  - exists (<[fd := 0]> r). simpl. by rewrite list_lookup_insert_eq.
  - intros j x Hj Hx. simpl. rewrite list_lookup_insert_ne by done. by apply H3.
  - eapply counted_ext; [eapply (counted_clear _ _ _ me r fd); [done|done|apply setE_eq]|apply setE_setE|done].
Qed.

(** The first [i] descriptors of [me] are closed. *)
Definition closing (i : nat) (E : nat -> option nat) (v0 : kv) (s : kst ksys) : Prop :=
  ready me None none E v0 (kview s) /\
  exists r, v_procs (kview s) !! me = Some (r, true) /\ forall k, (k < i)%nat -> r !! k = Some 0.

Lemma rg_close_files E v0 s Q : in_exit -> ready me None none E v0 (kview s) ->
  (forall E v0 s', closing NOFILES E v0 s' -> Q E v0 tt s') -> rg me (close_files me) Q E v0 s.
Proof.
  intros HX Hr HQ. unfold close_files. apply (rg_for_range closing).
  { split; [done|]. destruct (rd_live _ _ _ _ _ _ Hr) as [r Hrow]. exists r. split; [done|lia]. }
  2:{ done. }
  clear -DO FO HX. intros fd E v0 s Hfd (Hr & r & Hrow & Hz).
  pose proof (procs_view _ _ _ _ Hrow) as (p & Hp & Hpr & _).
  destruct (ct_desc _ _ _ (rd_counted _ _ _ _ _ _ Hr) me _ Hrow) as [D1 D2 _]. simpl in D1, D2.
  apply rg_bind, rg_tries, tries_get_proc. intros q Hq. simplify_eq.
  destruct (lookup_lt_is_Some_2 (ofile p) fd) as [x Hx]; [lia|]. rewrite (nth_lookup_Some _ _ _ _ Hx).
  destruct (Forall_lookup_1 _ _ _ _ D2 Hx) as [->|(j & Hj & ->)].
  { apply rg_tries. split; [done|]. exists (ofile p). split; [done|]. intros k Hk.
    destruct (decide (k = fd)) as [->|]; [done|]. apply Hz. lia. }
  rewrite (proj2 (Z.eqb_neq _ 0)) by apply file_ptr_nonzero. cbn [negb when].
  apply rg_bind. change (Kstate.fileclose (file_ptr j)) with (File.fileclose (file_idx (file_ptr j))). rewrite file_idx_ptr.
  eapply rg_mono; [apply (rg_fileclose me j (Some fd)); [by eapply ready_stale|done]|]. intros E1 v1 _ s1 [H1 H1'].
  rewrite Hrow in H1'. apply rg_tries, (tries_set_ofile me s1 (ofile p)); [done|]. intros s2 Hs2. split.
  - rewrite Hs2. by apply ready_clear.
  - exists (<[fd := 0]> (ofile p)). rewrite Hs2. simpl. rewrite list_lookup_insert_eq by (by eapply lookup_lt_Some).
    split; [done|]. intros k Hk. destruct (decide (k = fd)) as [->|Hne].
    + apply list_lookup_insert_eq. by eapply lookup_lt_Some.
    + rewrite list_lookup_insert_ne by done. apply Hz. lia.
Qed.

Lemma k_exit_family i : leaves kview false (for_range NPROCS 0 (fun j => q <- get_proc (F := ksys) j ;;
  when (bool_decide (parent q = Some i)) (ini <- gets initproc ;; upd_proc j (set_parent ini) ;;;
    when (bool_decide (state q = ZOMBIE)) (wakeup1 (proc_ptr ini))))).
Proof. frame. Qed.

Lemma tries_set_state i st s r l (R : unit -> kst ksys -> Prop) : v_procs (kview s) !! i = Some (r, l) ->
  (forall s', kview s' = with_desc i (r, match st with UNUSED | ZOMBIE => false | _ => true end) (kview s) -> R tt s') ->
  tries (upd_proc i (set_state st)) R s.
Proof.
  intros Hi HR. apply procs_view in Hi as (p & Hp & Hr & _). apply tries_upd_proc. intros q Hq. simplify_eq.
  apply HR. rewrite (kview_with_desc s i p) by done. done.
Qed.

Lemma all_null r n : length r = n -> (forall k, (k < n)%nat -> r !! k = Some 0) -> r = replicate n 0.
Proof.
  intros Hl H. apply list_eq. intros k. destruct (decide (k < n)%nat) as [Hk|Hk].
  - rewrite (H k Hk). symmetry. by apply lookup_replicate_2.
  - rewrite !lookup_ge_None_2; [done| |]; rewrite ?length_replicate; lia.
Qed.

Lemma rg_exit_finish E v0 s (Q : (nat -> option nat) -> kv -> unit -> kst ksys -> Prop) :
  closing NOFILES E v0 s -> rg me (exit_finish me ;;; exited) Q E v0 s.
Proof.
  intros (Hr & r & Hrow & Hz). pose proof (rd_counted _ _ _ _ _ _ Hr) as Hct.
  destruct (ct_desc _ _ _ Hct me _ Hrow) as [D1 _ _]. simpl in D1.
  assert (r = replicate NOFILES 0) as -> by by apply all_null. apply rg_bind, rg_tries. unfold exit_finish.
  apply tries_bind. tries_frame kview. intros _ s1 Hs1. apply tries_bind. tries_frame kview. intros p s2 Hs2.
  apply tries_bind. tries_frame kview. intros _ s3 Hs3. apply tries_bind.
  apply (tries_leaves kview); [apply k_exit_family|]. intros _ s4 Hs4. rewrite Hs3, Hs2, Hs1 in Hs4. rewrite <- Hs4 in Hr, Hrow, Hct.
  eapply tries_set_state; [done|]. intros s5 Hs5. cbn [rg safe]. split.
  - intros j x Hj Hx. rewrite Hs5. simpl. rewrite list_lookup_insert_ne by done. by apply (rd_mine _ _ _ _ _ _ Hr).
  - rewrite Hs5. eapply counted_alive; [done|done|done|apply setE_eq].
Qed.

(** Code that keeps [me] ready keeps closed descriptors closed. *)
Lemma closing_keeps {A} (m : KS A) i E v0 s : keeps me m -> closing i E v0 s -> rg me m (fun E v0 _ s' => closing i E v0 s') E v0 s.
Proof.
  intros Hm (Hr & r & Hrow & Hz). eapply rg_mono; [by apply Hm|]. intros E1 v1 a s1 [H1 H1']. split; [done|].
  exists r. by rewrite H1'.
Qed.

(** The file system as [proc.c] sees it. *)
Lemma keeps_k_begin_op : keeps me Kstate.begin_op.
Proof. apply keeps_run_fs. frame. Qed.
Lemma keeps_k_end_op : keeps me Kstate.end_op.
Proof. apply keeps_run_fs. frame. Qed.
Lemma keeps_k_iput x : keeps me (Kstate.iput x).
Proof. apply keeps_run_fs. frame. Qed.
Lemma keeps_k_idup x : keeps me (Kstate.idup x).
Proof. cbn [Kstate.idup kernel_fs]. keep. Qed.
#[local] Hint Resolve keeps_k_begin_op keeps_k_end_op keeps_k_iput keeps_k_idup : keep.

(** [exit] does not return. *)
Lemma gone_exit s : gone (exit s).
Proof.
  unfold exit. apply gone_after. intros i s1. apply gone_after. intros ini s2. destruct (decide _); [done|].
  do 8 (apply gone_after; intros ? ?). done.
Qed.

Lemma rg_exit_body E v0 s Q : in_exit -> ready me None none E v0 (kview s) -> rg me exit Q E v0 s.
Proof.
  intros HX Hr. unfold exit. apply rg_myproc; [apply Hr|]. apply rg_bind, rg_tries. tries_step.
  destruct (decide _); [done|]. apply rg_bind, rg_close_files; [done|done|]. intros E1 v1 s1 H1.
  do 6 (apply rg_bind; eapply rg_mono; [apply (closing_keeps _ NOFILES); [keep|eassumption]|intros ? ? ? ? ?; cbv beta in *]).
  by apply rg_exit_finish.
Qed.
End Exit.

Section Procs.
Context {I : KernelImage} {L : Literals} {P : ProcImage} {FI : FsImage} {W : Wakeups} {DS : DevSw} {DO : DevSwOk DS}.
Context {FP : FsPtrs} {FO : FsPtrsOk FP} {X : Mode} (me : nat).
#[local] Existing Instance kernel_fs.
#[local] Hint Resolve keeps_k_idup : keep.

Lemma rg_exit E v0 s Q : ready me None none E v0 (kview s) -> rg me exit Q E v0 s.
Proof.
  intros Hr. eapply (rg_gone me _ _ (fun _ _ _ _ => True)); [apply gone_exit|]. apply (rg_exit_body (X := True)); [done|].
  by apply (ready_mode X).
Qed.

(** ** [shmget] and [manage_fork]: code that leaves everything alone, or exits *)
Definition stays {A} (m : KS A) : Prop := forall E v0 s, ready me None none E v0 (kview s) ->
  rg me m (fun E' v0' _ s' => E' = E /\ v0' = v0 /\ kview s' = kview s) E v0 s.

Lemma stays_leaves {A} (m : KS A) : leaves kview false m -> stays m.
Proof. intros H E v0 s _. by apply rg_tries, (tries_leaves kview). Qed.
Lemma stays_bind {A B} (m : KS A) (k : A -> KS B) : stays m -> (forall a, stays (k a)) -> stays (bind m k).
Proof.
  intros Hm Hk E v0 s Hr. apply rg_bind. eapply rg_mono; [by apply Hm|]. intros E1 v1 a s1 (-> & -> & Hv).
  eapply rg_mono; [apply Hk; by rewrite Hv|]. intros E2 v2 b s2 (-> & -> & Hv2). by rewrite Hv2.
Qed.
Lemma stays_when b (m : KS unit) : stays m -> stays (when b m).
Proof. intros H. destruct b; [done|]. by apply stays_leaves, leaves_ret. Qed.
Lemma stays_for_range n : forall lo body, (forall i, stays (body i)) -> stays (for_range n lo body).
Proof. induction n as [|n IH]; intros lo body H; [apply stays_leaves, leaves_ret|]. apply stays_bind; auto. Qed.
Lemma stays_for_find {A} n : forall lo (body : nat -> KS (option A)), (forall i, stays (body i)) -> stays (for_find n lo body).
Proof.
  induction n as [|n IH]; intros lo body H; [apply stays_leaves, leaves_ret|]. apply stays_bind; [done|].
  intros [a|]; [apply stays_leaves, leaves_ret|auto].
Qed.
Lemma stays_exit : stays exit.
Proof. intros E v0 s Hr. by apply rg_exit. Qed.

Ltac stay :=
  intros; repeat lazymatch goal with
  | |- stays exit => apply stays_exit
  | |- stays (bind _ _) => first [solve [apply stays_leaves; frame]|apply stays_bind; [|intros ?]]
  | |- stays (when _ _) => apply stays_when
  | |- stays (for_range _ _ _) => apply stays_for_range; intros ?
  | |- stays (for_find _ _ _) => apply stays_for_find; intros ?
  | |- stays (let _ := _ in _) => cbv zeta
  | |- stays (match ?x with _ => _ end) => first [solve [apply stays_leaves; frame]|destruct x]
  | _ => solve [apply stays_leaves; frame]
  end.

Lemma stays_shmget key : stays (shmget exit key).
Proof. unfold shmget. stay. Qed.
Lemma stays_manage_fork p c : stays (manage_fork exit p c).
Proof. unfold manage_fork, manage_fork_count. stay. Qed.

(** ** [allocproc] and [wait] *)
Lemma with_desc_twice i p q v : with_desc i p (with_desc i q v) = with_desc i p v.
Proof. unfold with_desc. simpl. by rewrite list_insert_insert_eq. Qed.

(** One step that leaves the view alone; [H] is about the view it started from. *)
Ltac pass_over H :=
  apply tries_bind; tries_frame kview; let s' := fresh "s" in let E := fresh in intros ? s' E; rewrite <- E in H; clear E.

Lemma tries_allocproc s (R : option nat -> kst ksys -> Prop) : (forall s', kview s' = kview s -> R None s') ->
  (forall i r s', v_procs (kview s) !! i = Some (r, false) -> kview s' = with_desc i (r, true) (kview s) -> R (Some i) s') ->
  tries allocproc R s.
Proof.
  intros HN HS. unfold allocproc. apply tries_bind. tries_frame kview. intros _ s1 Hs1.
  apply tries_bind, tries_for_find; cbv beta iota.
  2:{ apply tries_bind. tries_frame kview. intros _ s2 Hs2. apply HN. congruence. }
  intros i _. apply tries_bind, tries_get_proc. intros p Hp. tries_step. destruct (decide _) as [Hu|]; [|done].
  assert (v_procs (kview s1) !! i = Some (ofile p, false)) as Hi.
  { simpl. rewrite list_lookup_fmap, Hp. unfold pkey, live. simpl. by rewrite Hu. }
  apply tries_bind. eapply tries_set_state; [done|]. intros s2 Hs2.
  do 6 pass_over Hs2. match type of Hs2 with kview ?x = _ => rename x into sk end.
  assert (v_procs (kview sk) !! i = Some (ofile p, true)) as Hik.
  { rewrite Hs2. simpl. apply list_lookup_insert_eq. by eapply lookup_lt_Some. }
  rewrite Hs1 in Hi, Hs2. destruct (_ =? 0).
  - apply tries_bind. eapply tries_set_state; [done|]. intros s9 Hs9. apply HN.
    by rewrite Hs9, Hs2, with_desc_twice, with_desc_id.
  - do 6 pass_over Hs2. by eapply HS.
Qed.

Lemma k_wait_scan n : forall i c b, leaves kview false (wait_scan (F := ksys) n i c b).
Proof.
  induction n as [|n IH]; intros i c b; cbn [wait_scan]; [frame|]. apply leaves_tries. intros s.
  apply tries_bind, tries_get_proc. intros p Hp. destruct (negb _); [apply (tries_leaves kview); [apply IH|done]|].
  destruct (decide _) as [Hz|]; [|apply (tries_leaves kview); [apply IH|done]].
  assert (exists v, kview s = v) as [v Hv] by eauto. pose proof Hv as Hs. do 7 pass_over Hs.
  match type of Hs with kview ?x = _ => rename x into sk end. apply tries_bind. eapply tries_set_state.
  - rewrite Hs, <- Hv. simpl. rewrite list_lookup_fmap, Hp. reflexivity.
  - intros s9 Hs9. pass_over Hs9. tries_step. rewrite Hs9, Hs, <- Hv. apply with_desc_id. simpl. rewrite list_lookup_fmap, Hp.
    unfold pkey, live. simpl. by rewrite Hz.
Qed.

Lemma keeps_wait n : keeps me (wait (F := ksys) n).
Proof.
  unfold wait. apply keeps_myproc, keeps_bind; [keep|intros _]. induction n as [|n IH]; cbn [wait_loop]; keep.
  apply keeps_leaves, k_wait_scan.
Qed.

(** ** [fork] *)

(** A child: a slot that was not alive when [me] got the processor. *)
Record child (np : nat) (E : nat -> option nat) (v0 : kv) : Prop := {
  ch_other : np <> me;
  ch_closing : E np = None;
  ch_new : forall r, v_procs v0 !! np <> Some (r, true);
}.

Lemma ready_born E v0 v np r : ready me None none E v0 v -> v_procs v !! np = Some (r, false) ->
  ready me None none E v0 (with_desc np (r, true) v) /\ child np E v0 /\ r = replicate NOFILES 0.
Proof.
  intros [H1 [r0 H2] H3 H4 _] Hnp. pose proof (lookup_lt_Some _ _ _ Hnp). destruct (ct_desc _ _ _ H4 np _ Hnp) as [_ _ D3].
  destruct (D3 eq_refl) as [D4 D5]. simpl in D5. assert (np <> me) as Hne by congruence. rewrite setE_ne in D4 by done.
  assert (forall x, v_procs v0 !! np <> Some (x, true)) as Hnew.
  { intros x Hx. apply H3 in Hx; [congruence|done]. }
  split; [|split; [by constructor|done]]. constructor; [done| | | |done].
  - exists r0. simpl. by rewrite list_lookup_insert_ne.
  - intros j x Hj Hx. simpl. destruct (decide (np = j)) as [->|]; [by apply Hnew in Hx|].
    rewrite list_lookup_insert_ne by done. by apply H3.
  - eapply counted_alive; [done|done|done|by rewrite setE_ne].
Qed.

Lemma ready_child h E v0 v np r fd j : ready me None (plus j 1 h) E v0 v -> child np E v0 -> v_procs v !! np = Some (r, true) ->
  r !! fd = Some 0 -> (j < NFILE)%nat -> ready me None h E v0 (with_desc np (<[fd := file_ptr j]> r, true) v).
Proof.
  intros [H1 [r0 H2] H3 H4 _] [C1 C2 C3] Hnp Hfd Hj. constructor; [done| | | |done].
  - exists r0. simpl. by rewrite list_lookup_insert_ne.
  - intros i x Hi Hx. simpl. destruct (decide (np = i)) as [->|]; [by apply C3 in Hx|].
    rewrite list_lookup_insert_ne by done. by apply H3.
  - eapply counted_ext; [eapply (counted_desc _ _ v np r fd 0 (file_ptr j)); [done|done|by rewrite setE_ne|done|by right; exists j]|done|].
    intros i. simpl. rewrite hit_null, hit_ptr. unfold plus. lia.
Qed.

(** Descriptors below [i] of the child are set. *)
Definition copying np r E v0 (i : nat) (s : kst ksys) : Prop :=
  ready me None none E v0 (kview s) /\ v_procs (kview s) !! me = Some (r, true) /\
  exists rn, v_procs (kview s) !! np = Some (rn, true) /\ forall k, (i <= k < NOFILES)%nat -> rn !! k = Some 0.

Lemma tries_copy_one np r E v0 i s : child np E v0 -> copying np r E v0 i s -> (i < NOFILES)%nat ->
  tries (p <- get_proc me ;; let f := nth i (ofile p) 0 in
    when (negb (f =? 0)) (g <- Kstate.filedup f ;; upd_proc np (fun p => set_ofile (<[i := g]> (ofile p)) p)))
    (fun _ => copying np r E v0 (S i)) s.
Proof.
  intros Hch (Hr & Hrow & rn & Hnp & Hz) Hi.
  destruct (ct_desc _ _ _ (rd_counted _ _ _ _ _ _ Hr) me _ Hrow) as [D1 D2 _]. simpl in D1, D2.
  pose proof (procs_view _ _ _ _ Hrow) as (p & Hp & Hpr & _). subst r.
  apply tries_bind, tries_get_proc. intros q Hq. rewrite Hp in Hq. injection Hq as <-. cbv zeta.
  destruct (lookup_lt_is_Some_2 (ofile p) i) as [x Hx]; [lia|]. rewrite (nth_lookup_Some _ _ _ _ Hx).
  destruct (Forall_lookup_1 _ _ _ _ D2 Hx) as [->|(j & Hj & ->)].
  { split; [done|]. split; [done|]. exists rn. split; [done|]. intros k Hk. apply Hz. lia. }
  rewrite (proj2 (Z.eqb_neq _ 0)) by apply file_ptr_nonzero. cbn [negb when].
  destruct (counted_lookup _ _ _ j (rd_counted _ _ _ _ _ _ Hr) Hj) as (n & t & Hk & Hn & Hb). unfold none in Hn, Hb.
  pose proof (uses_pos (setE me None E) _ me (ofile p) true i j Hrow (setE_eq _ _ _) Hx) as Hpos.
  apply tries_bind. change (Kstate.filedup (file_ptr j)) with (d <- run_fs (File.filedup (file_idx (file_ptr j))) ;; ret (file_ptr d)).
  rewrite file_idx_ptr. apply tries_bind, (tries_run_filedup j s n t); [done|lia|]. intros s1 Hs1. tries_step.
  assert (ready me None (plus j 1 none) E v0 (kview s1)) as Hr1.
  { rewrite Hs1. eapply ready_file; [done|done|lia|]. intros k. unfold plus. destruct (_ =? _)%nat; lia. }
  apply (tries_set_ofile np s1 rn); [by rewrite Hs1|]. intros s2 Hs2. split; [|split].
  - rewrite Hs2. apply ready_child; [done|done|by rewrite Hs1|apply Hz; lia|done].
  - rewrite Hs2, Hs1. simpl. rewrite list_lookup_insert_ne by apply Hch. done.
  - exists (<[i := file_ptr j]> rn). rewrite Hs2, Hs1. simpl. rewrite list_lookup_insert_eq by (by eapply lookup_lt_Some).
    split; [done|]. intros k Hk'. rewrite list_lookup_insert_ne by lia. apply Hz. lia.
Qed.

Lemma tries_copy_files np E v0 s : child np E v0 -> ready me None none E v0 (kview s) ->
  v_procs (kview s) !! np = Some (replicate NOFILES 0, true) ->
  tries (copy_files me np) (fun _ s' => ready me None none E v0 (kview s')) s.
Proof.
  intros Hch Hr Hnp. destruct (rd_live _ _ _ _ _ _ Hr) as [r Hrow]. unfold copy_files.
  apply (tries_for_range (copying np r E v0)).
  - split; [done|]. split; [done|]. exists (replicate NOFILES 0). split; [done|]. intros k Hk. apply lookup_replicate_2. lia.
  - intros i s' Hi HJ. apply tries_copy_one; [done|done|lia].
  - by intros s' [H _].
Qed.

Lemma serves_set_runnable i : serves me (upd_proc i (set_state RUNNABLE)).
Proof.
  apply serves_tries. intros E v0 s Hr. destruct (v_procs (kview s) !! i) as [[r l]|] eqn:Hi.
  - eapply tries_set_state; [done|]. intros s' ->. destruct l; [by rewrite with_desc_id|].
    by destruct (ready_born _ _ _ _ _ Hr Hi).
  - simpl in Hi. rewrite list_lookup_fmap in Hi. apply tries_upd_proc. intros p Hp. by rewrite Hp in Hi.
Qed.
#[local] Hint Resolve serves_set_runnable : keep.

(** The child is on its way: its directory, its name, and it may run. *)
Lemma serves_fork_end np p c : serves me (i <- Kstate.idup (cwd p) ;; upd_proc np (set_cwd i) ;;;
  nm <- of_option (safestrcpy (name c) (name p) 16) ;; upd_proc np (set_name nm) ;;;
  let pd := pid c in acquire_ptable ;;; upd_proc np (set_state RUNNABLE) ;;; release_ptable ;;; ret pd).
Proof. serve. Qed.

Ltac rg_over := apply rg_bind, rg_tries; tries_frame kview.

Lemma serves_fork : serves me fork.
Proof.
  intros E v0 s Hr. unfold fork. apply rg_myproc; [apply Hr|]. apply rg_bind, rg_tries, tries_allocproc.
  { intros s1 Hs1. red. simpl. by rewrite Hs1. }
  intros np r s1 Hnp Hs1. destruct (ready_born _ _ _ _ _ Hr Hnp) as (Hr1 & Hch & ->).
  rg_over. intros p s2 H2. rg_over. intros d s3 H3. rg_over. intros _ s4 H4.
  assert (kview s4 = with_desc np (replicate NOFILES 0, true) (kview s)) as Hs4 by congruence.
  assert (v_procs (kview s4) !! np = Some (replicate NOFILES 0, true)) as Hnp4.
  { rewrite Hs4. simpl. apply list_lookup_insert_eq. by eapply lookup_lt_Some. }
  rewrite <- Hs4 in Hr1. destruct (d =? 0).
  - apply rg_tries. assert (exists v, kview s4 = v) as [v Hv] by eauto. pose proof Hv as Hs5. do 3 pass_over Hs5.
    match type of Hs5 with kview ?x = _ => rename x into sk end.
    apply tries_bind. eapply tries_set_state; [by rewrite Hs5, <- Hv|]. intros s9 Hs9. tries_step.
    by rewrite Hs9, Hs5, <- Hv, Hs4, with_desc_twice, with_desc_id.
  - rg_over. intros _ s5 H5. rg_over. intros _ s6 H6. rg_over. intros c s7 H7. rg_over. intros _ s8 H8.
    assert (kview s8 = kview s4) as Hs8 by congruence. rewrite <- Hs8 in Hr1, Hnp4.
    apply rg_bind. eapply rg_mono; [by apply stays_manage_fork|]. intros E9 v9 _ s9 (-> & -> & H9).
    rg_over. intros _ s10 H10. rewrite <- H9, <- H10 in Hr1, Hnp4.
    apply rg_bind, rg_tries. eapply tries_mono; [by apply (tries_copy_files np E v0)|]. intros [] s11 H11.
    by apply serves_fork_end.
Qed.
End Procs.
