(* ===== verification/RefProps.v ===== *)
(** * No system call gets a reference count wrong

    The remaining calls, [syscall], and the theorem: in whatever way the
    processes of the machine interleave, the count of every open file is the
    number of descriptors that refer to it. *)
From Stdlib Require Import ZArith Lia Bool.
From stdpp Require Import base numbers list relations strings.
From S2P Require Import Prelude Machine Cstring Kalloc Segments Vm Kstate Shm Proc Sched Sem FsState Bio Log LogCrash Fs Pipe Ksys File Syscall Sysfile Exec VmProps ShmProps ProcAlloc Console Frame FsFrame KFrame Devices Refs RefLogic RefFiles RefCalls RefProcs.

#[export] Hint Extern 1 (leaves fview _ (upd_file _ _)) => apply fs_upd_file; intros; reflexivity : frame.

Section Calls.
Context {I : KernelImage} {L : Literals} {P : ProcImage} {FI : FsImage} {W : Wakeups} {DS : DevSw} {DO : DevSwOk DS}.
Context {FP : FsPtrs} {FO : FsPtrsOk FP} {TI : TimeImage} {X : Mode} (me : nat).

Lemma keeps_sleep_pipe c p : keeps me (sleep c (Some (pipe_lockref p))).
Proof. apply keeps_sleep_lock; cbn [pipe_lockref lk_acquire lk_release]; frame. Qed.
Lemma keeps_sleep_sem c : keeps me (sleep (F := ksys) c (Some sem_lockref)).
Proof. apply keeps_sleep_lock; cbn [sem_lockref lk_acquire lk_release]; frame. Qed.
Lemma keeps_sleep_ticks c : keeps me (sleep c (Some ticks_lockref)).
Proof. apply keeps_sleep_lock; cbn [ticks_lockref lk_acquire lk_release]; frame. Qed.
#[local] Hint Resolve keeps_sleep_pipe keeps_sleep_sem keeps_sleep_ticks : keep.

(** ** [pipe.c], [file.c] *)
Lemma keeps_pipewrite_wait n p : keeps me (pipewrite_wait (F := ksys) n p).
Proof. induction n as [|n IH]; cbn [pipewrite_wait]; keep. Qed.
Lemma keeps_piperead_wait n p : keeps me (piperead_wait (F := ksys) n p).
Proof. induction n as [|n IH]; cbn [piperead_wait]; keep. Qed.
#[local] Hint Resolve keeps_pipewrite_wait keeps_piperead_wait : keep.
Lemma keeps_pipewrite_loop n : forall p a, keeps me (pipewrite_loop (F := ksys) n p a).
Proof. induction n as [|n IH]; intros p a; cbn [pipewrite_loop]; keep. Qed.
#[local] Hint Resolve keeps_pipewrite_loop : keep.
Lemma keeps_pipewrite p a n : keeps me (pipewrite (F := ksys) p a n).
Proof. unfold pipewrite. keep. Qed.
Lemma keeps_piperead p a n : keeps me (piperead (F := ksys) p a n).
Proof. unfold piperead. keep. Qed.
#[local] Hint Resolve keeps_pipewrite keeps_piperead : keep.
Lemma keeps_fileread i a n : keeps me (fileread i a n).
Proof. unfold fileread. keep. Qed.
Lemma keeps_filewrite_loop n : forall i a k j, keeps me (filewrite_loop n i a k j).
Proof. induction n as [|n IH]; intros i a k j; cbn [filewrite_loop]; unfold filewrite_round; keep. Qed.
#[local] Hint Resolve keeps_filewrite_loop : keep.
Lemma keeps_filewrite i a n : keeps me (filewrite i a n).
Proof. unfold filewrite. keep. Qed.
Lemma keeps_filestat i : keeps me (filestat i).
Proof. unfold filestat. keep. Qed.
#[local] Hint Resolve keeps_fileread keeps_filewrite keeps_filestat : keep.

(** ** [exec.c] *)
Lemma keeps_exec_bad d ip : keeps me (exec_bad d ip).
Proof. unfold exec_bad. keep. Qed.
Lemma keeps_loaduvm ip d a off n : keeps me (loaduvm (fun A => @on_mem ksys A) (readi_mem ip) d a off n).
Proof.
  unfold loaduvm. destruct (negb _); [keep|]. generalize (S (Z.to_nat (n / PGSIZE + 1))), 0. intros fuel.
  induction fuel as [|fuel IH]; intros i; cbn [loaduvm_loop]; unfold readi_mem; keep.
Qed.
#[local] Hint Resolve keeps_exec_bad keeps_loaduvm : keep.
Lemma keeps_exec_load n : forall ip d off k, keeps me (exec_load n ip d off k).
Proof. induction n as [|n IH]; intros ip d off k; cbn [exec_load]; unfold exec_segment; keep. Qed.
#[local] Hint Resolve keeps_exec_load : keep.
Lemma keeps_exec path argv : keeps me (exec path argv).
Proof. unfold exec, exec_finish. keep. Qed.
#[local] Hint Resolve keeps_exec : keep.

(** ** The calls *)
Lemma keeps_argfd n : keeps me (argfd n).
Proof. unfold argfd. keep. Qed.
#[local] Hint Resolve keeps_argfd : keep.
Lemma keeps_sys_sleep : keeps me sys_sleep.
Proof.
  unfold sys_sleep. keep. generalize wakeups. intros n. induction n as [|n IH]; cbn [sys_sleep_loop]; keep.
Qed.
Lemma keeps_sem_down n c : keeps me (sem_down (F := ksys) n c).
Proof. unfold sem_down. keep. induction n as [|n IH]; cbn [sem_wait]; keep. Qed.
#[local] Hint Resolve keeps_sys_sleep keeps_sem_down : keep.

Lemma serves_stays {A} (m : KS A) : stays me m -> serves me m.
Proof. intros H E v0 s Hr. eapply rg_mono; [by apply H|]. intros E1 v1 a s1 (-> & -> & Hv). by rewrite Hv. Qed.

Lemma serves_exit : serves me sys_exit.
Proof. unfold sys_exit. serve. apply serves_stays, stays_exit. Qed.
Lemma serves_shmget : serves me sys_shmget.
Proof. unfold sys_shmget. serve. apply serves_stays, stays_shmget. Qed.

(** The entries of the table. *)
Definition call_ok (o : option (KS Z)) : Prop := match o with Some f => serves me f | None => True end.

Lemma serves_syscalls : Forall call_ok syscalls.
Proof.
  unfold syscalls. repeat (apply Forall_cons; split); [done|..|constructor]; cbn [call_ok].
  - apply serves_fork.
  - apply serves_exit.
  - apply serves_keeps, keeps_wait.
  - apply serves_pipe.
  - unfold sys_read, rw_args. serve.
  - unfold sys_kill. serve.
  - unfold sys_exec. serve.
  - unfold sys_fstat. serve.
  - unfold sys_chdir. serve.
  - apply serves_dup.
  - unfold sys_getpid. serve.
  - unfold sys_sbrk. serve.
  - serve.
  - unfold sys_uptime. serve.
  - apply serves_open.
  - unfold sys_write, rw_args. serve.
  - unfold sys_mknod, mknod_args. serve.
  - unfold sys_unlink. serve.
  - unfold sys_link. serve.
  - unfold sys_mkdir. serve.
  - apply serves_close.
  - apply serves_shmget.
  - unfold sys_shmrem. serve.
  - unfold sys_sem_init. serve.
  - unfold sys_sem_up. serve.
  - unfold sys_sem_down. serve.
  - unfold sys_isActive. serve.
Qed.

Lemma serves_syscall : serves me syscall.
Proof.
  unfold syscall. do 2 (apply serves_bind; [serve|intros ?]). cbv zeta.
  destruct (_ && _); [|serve]. destruct (nth_lookup_or_length syscalls (Z.to_nat (i32 a0)) None) as [H|H].
  - pose proof (Forall_lookup_1 _ _ _ _ serves_syscalls H) as Hf. destruct (nth _ syscalls None) as [f|]; [|serve].
    apply serves_bind; [done|serve].
  - rewrite nth_overflow by done. serve.
Qed.

(** ** [trap] *)
Lemma keeps_yield : keeps me (yield (F := ksys)).
Proof.
  unfold yield. apply keeps_bind; [keep|intros _]. apply keeps_myproc, keeps_bind; [by apply keeps_set_state|intros _]. keep.
Qed.
Lemma serves_exit_if_killed : serves me exit_if_killed.
Proof.
  apply serves_stays. unfold exit_if_killed. apply stays_bind; [apply stays_leaves; frame|intros p]. apply stays_when, stays_exit.
Qed.
End Calls.

Section Trap.
Context {I : KernelImage} {L : Literals} {P : ProcImage} {FI : FsImage} {W : Wakeups} {DS : DevSw} {DO : DevSwOk DS}.
Context {FP : FsPtrs} {FO : FsPtrsOk FP} {TI : TimeImage} {DR : Drivers} {DK : DriversOk DR}.

Lemma k_trap_device n cs : leaves kview false (trap_device n cs).
Proof.
  unfold trap_device, tick. pose proof ide_frame. pose proof kbd_frame. pose proof uart_frame. pose proof eoi_frame. frame.
Qed.

Lemma serves_trap {X : Mode} me t : serves me (trap t).
Proof.
  pose proof (serves_exit_if_killed me) as He. unfold trap. apply serves_bind; [serve|intros n]. destruct (n =? _).
  - apply serves_bind; [done|intros _]. apply serves_bind; [serve|intros i]. apply serves_bind; [serve|intros _].
    apply serves_bind; [apply serves_syscall|done].
  - apply serves_bind; [serve|intros cs]. apply serves_bind; [apply serves_keeps, keeps_leaves, k_trap_device|intros _].
    apply serves_bind; [by apply serves_when|intros _]. apply serves_bind; [serve|intros p].
    apply serves_bind; [apply serves_keeps, keeps_when, keeps_yield|intros _]. by apply serves_when.
Qed.

(** ** The machine

    A process is in user mode, from where it enters the kernel with a trap, or
    it sleeps in the kernel and goes on there when it is resumed. *)
Definition task : Type := option (kst ksys -> res (kst ksys) unit).
Definition set_task (j : nat) (x : task) (T : nat -> task) : nat -> task := fun i => if (i =? j)%nat then x else T i.
Definition runs (T : nat -> task) (j : nat) (t : Z) : KS unit := match T j with None => trap t | Some resume => resume end.

Definition alive (j : nat) (s : kst ksys) : Prop := exists p, procs s !! j = Some p /\ live p = true.

(** Process [j] gets the processor.  User code and the scheduler may have
    changed anything that is not in the view: memory, registers, and which of
    the living processes are runnable. *)
Definition enters (j : nat) (s s1 : kst ksys) : Prop := kview s1 = mk_kv j (v_files (kview s)) (v_procs (kview s)).

Inductive mstep : kst ksys * (nat -> task) -> kst ksys * (nat -> task) -> Prop :=
| ms_return j t s T s1 a s' : alive j s -> enters j s s1 -> runs T j t s1 = Ok a s' -> mstep (s, T) (s', set_task j None T)
| ms_sleep j t s T s1 c s' k : alive j s -> enters j s s1 -> runs T j t s1 = Sleeping c s' k -> mstep (s, T) (s', set_task j (Some k) T)
| ms_exit j t s T s1 s' : alive j s -> enters j s s1 -> runs T j t s1 = Exited s' -> mstep (s, T) (s', set_task j None T).

(** Every process that sleeps goes on according to the rules from where its
    descriptors are as it left them; one that has given up the reference of a
    descriptor will never return to user mode. *)
#[local] Existing Instance to_user.
Definition returns (j : nat) : (nat -> option nat) -> kv -> unit -> kst ksys -> Prop :=
  fun E v0 _ s => ready j None none E v0 (kview s).
Definition task_ok (j : nat) (e : option nat) (v : kv) (x : task) : Prop :=
  match x with
  | None => e = None
  | Some k => match e with None => True | Some _ => forall s, gone (k s) end /\
      forall E s, resumed j e v E (kview s) -> safe j (returns j) E (kview s) (k s)
  end.
Record pool_ok (E : nat -> option nat) (s : kst ksys) (T : nat -> task) : Prop := {
  po_counted : counted E none (kview s);
  po_task : forall j r, v_procs (kview s) !! j = Some (r, true) -> task_ok j (E j) (kview s) (T j);
  po_dead : forall j r, v_procs (kview s) !! j = Some (r, false) -> T j = None;
}.

Lemma alive_view j s : alive j s -> exists r, v_procs (kview s) !! j = Some (r, true).
Proof. intros (p & Hp & Hl). exists (ofile p). simpl. rewrite list_lookup_fmap, Hp. unfold pkey. simpl. by rewrite Hl. Qed.

(** The process that gets the processor keeps to the rules. *)
Lemma pool_runs E s T j t s1 : pool_ok E s T -> alive j s -> enters j s s1 ->
  safe j (returns j) E (kview s1) (runs T j t s1).
Proof.
  intros [H1 H2 H3] (r & Hj)%alive_view He. pose proof (H2 j r Hj) as Ht. unfold runs.
  assert (counted E none (kview s1)) as Hc by (rewrite He; by destruct H1; constructor).
  assert (v_procs (kview s1) = v_procs (kview s)) as Hp by by rewrite He.
  destruct (T j) as [k|]; cbn [task_ok] in Ht.
  - destruct Ht as [_ Ht]. apply Ht. constructor; [by rewrite He|by rewrite Hp|]. eapply counted_ext; [done| |done]. intros i. symmetry. apply setE_self.
  - apply serves_trap. constructor; [by rewrite He|exists r; by rewrite Hp|by intros ? ?| |done].
    eapply counted_ext; [done| |done]. intros i. rewrite <- Ht. symmetry. apply setE_self.
Qed.

(** Whatever process [j] does, the others are where they were. *)
Lemma pool_others E s T j e s1 s' x : pool_ok E s T -> enters j s s1 -> mine j (kview s1) (kview s') ->
  counted (setE j e E) none (kview s') -> (forall r, v_procs (kview s') !! j = Some (r, true) -> task_ok j e (kview s') x) ->
  (forall r, v_procs (kview s') !! j = Some (r, false) -> x = None) -> pool_ok (setE j e E) s' (set_task j x T).
Proof.
  intros [H1 H2 H3] He Hm Hc Hx Hd. constructor; [done| |]; intros i r Hi; unfold set_task; destruct (Nat.eqb_spec i j) as [->|Hne].
  - rewrite setE_eq. by eapply Hx.
  - rewrite setE_ne by done. destruct (v_procs (kview s) !! i) as [[r0 []]|] eqn:E0.
    + assert (v_procs (kview s') !! i = Some (r0, true)) as Hi' by (apply Hm; [done|by rewrite He]).
      pose proof (H2 i r0 E0) as Ht. destruct (T i) as [k|]; [|done]. destruct Ht as [Hg Ht].
      split; [done|]. intros E1 s2 [W1 W2 W3]. apply Ht.
      constructor; [done|by rewrite W2, Hi'|done].
    + rewrite (H3 i r0 E0). by destruct (ct_desc _ _ _ H1 i _ E0) as [_ _ D]; apply D.
    + apply lookup_ge_None in E0. apply lookup_lt_Some in Hi. rewrite (ct_procs _ _ _ H1) in E0. rewrite (ct_procs _ _ _ Hc) in Hi. lia.
  - by eapply Hd.
  - destruct (v_procs (kview s) !! i) as [[r0 []]|] eqn:E0.
    + assert (v_procs (kview s') !! i = Some (r0, true)) as Hi' by (apply Hm; [done|by rewrite He]). congruence.
    + by eapply H3.
    + apply lookup_ge_None in E0. apply lookup_lt_Some in Hi. rewrite (ct_procs _ _ _ H1) in E0. rewrite (ct_procs _ _ _ Hc) in Hi. lia.
Qed.

Lemma pool_step E s T c' : pool_ok E s T -> mstep (s, T) c' -> exists E', pool_ok E' (fst c') (snd c').
Proof.
  intros Hp Hs. inversion Hs as [j t s0 T0 s1 a s' Ha He Hr|j t s0 T0 s1 c s' k Ha He Hr|j t s0 T0 s1 s' Ha He Hr]; subst;
    pose proof (pool_runs _ _ _ _ t _ Hp Ha He) as Hsafe; rewrite Hr in Hsafe; cbn [safe] in Hsafe; cbn [fst snd].
  - exists (setE j None E). destruct Hsafe as [R1 [r R2] R3 R4 _]. eapply pool_others; try done.
  - destruct Hsafe as (e & [R1 [r R2] R3 R4 R5] & Hk). exists (setE j e E). eapply pool_others; try done; [|intros; congruence].
    intros _ _. split; [|done]. destruct e; [|done]. by destruct R5.
  - destruct Hsafe as [M1 M2]. exists (setE j None E). by eapply pool_others.
Qed.

Lemma pool_reach c c' : rtc mstep c c' -> forall E, pool_ok E (fst c) (snd c) -> exists E', pool_ok E' (fst c') (snd c').
Proof.
  induction 1 as [|[s T] c1 c2 H1 _ IH]; intros E Hp; [by exists E|]. destruct (pool_step E s T c1 Hp H1) as [E1 Hp1]. by apply (IH E1).
Qed.

Lemma pool_start s : counted (fun _ => None) none (kview s) -> pool_ok (fun _ => None) s (fun _ => None).
Proof. by intros H. Qed.
End Trap.

(** C4: references to open files are counted right.  Start the machine in a
    state where every count is the number of descriptors for the file, and let
    the processes enter the kernel with traps and system calls, sleep in it
    and be resumed in any order.  At every point where the processor changes
    hands each count is still the number of descriptors of all processes, in
    user mode or asleep, and free files have no type.  The one thing left out
    is a descriptor that a process is just closing in [exit] ([E]): such a
    process sleeps in the kernel, and however it is resumed it never returns
    from there, so nothing uses that descriptor again.  A descriptor of a
    process in user mode, or of one that may come back to it, always leads to a
    file with a positive count, and the kernel never stops with the messages of
    [filedup] and [fileclose] about a count that is too small. *)
Theorem references_counted {I : KernelImage} {L : Literals} {P : ProcImage} {FI : FsImage} {W : Wakeups} {DS : DevSw}
    {DO : DevSwOk DS} {FP : FsPtrs} {FO : FsPtrsOk FP} {TI : TimeImage} {DR : Drivers} {DK : DriversOk DR}
    (s0 s : kst ksys) (T : nat -> task) :
  counted (fun _ => None) none (kview s0) -> rtc mstep (s0, fun _ => None) (s, T) ->
  (exists E, counted E none (kview s) /\
     forall j fd, alive j s -> E j = Some fd -> exists k, T j = Some k /\ forall s', gone (k s')) /\
  (forall j p fd x, procs s !! j = Some p -> live p = true -> (forall k, T j = Some k -> exists s', ~ gone (k s')) -> ofile p !! fd = Some x -> x <> 0 ->
     exists f, ftable (fsys_of s) !! file_idx x = Some f /\ 1 <= f_ref f) /\
  (forall j t s1 w s2, alive j s -> enters j s s1 -> runs T j t s1 = Panic w s2 -> w <> "filedup"%string /\ w <> "fileclose"%string).
Proof.
  intros H0 Hr. destruct (pool_reach _ _ Hr _ (pool_start s0 H0)) as [E Hp]. cbn [fst snd] in Hp. destruct (Hp) as [Hc Ht _].
  assert (forall j fd, alive j s -> E j = Some fd -> exists k, T j = Some k /\ forall s', gone (k s')) as HE.
  { intros j fd (r & Hj)%alive_view HEj. pose proof (Ht j r Hj) as H. rewrite HEj in H. unfold task_ok in H.
    destruct (T j) as [k|]; [|done]. exists k. split; [done|apply H]. }
  split; [by exists E|]. split.
  - intros j p fd x Hj Hl HT Hfd Hx. assert (v_procs (kview s) !! j = Some (ofile p, true)) as Hv.
    { simpl. rewrite list_lookup_fmap, Hj. unfold pkey. simpl. by rewrite Hl. }
    assert (E j = None) as HEj.
    { destruct (E j) as [fd'|] eqn:HEj; [|done]. destruct (HE j fd') as (k & Hk & Hg); [by exists p|done|].
      destruct (HT k Hk) as [s' Hs']. by destruct (Hs' (Hg s')). }
    destruct (ct_desc _ _ _ Hc j _ Hv) as [_ D2 _].
    destruct (Forall_lookup_1 _ _ _ _ D2 Hfd) as [|(i & Hi & ->)]; [done|]. rewrite file_idx_ptr.
    destruct (counted_lookup _ _ _ i Hc Hi) as (n & ty & Hk & Hn & _). unfold none in Hn.
    pose proof (uses_pos E _ j (ofile p) true fd i Hv HEj Hfd) as Hpos.
    simpl in Hk. unfold fview in Hk. rewrite list_lookup_fmap in Hk. destruct (ftable (fsys_of s) !! i) as [f|]; [|done].
    exists f. split; [done|]. injection Hk as Hf _. lia.
  - intros j t s1 w s2 Ha He Hrun. pose proof (pool_runs _ _ _ _ t _ Hp Ha He) as Hs. rewrite Hrun in Hs. cbn [safe] in Hs.
    split; intros ->; discriminate Hs.
Qed.

(** ** A machine with a console and one process, which has a file open and
    calls [getpid] *)
Definition refs_ptrs : FsPtrs := {| ftable_file := 0x80111560; icache_inode := 0x80112a80; lit_pipe := 0 |}.

Lemma refs_ptrs_ok : FsPtrsOk refs_ptrs.
Proof. by constructor. Qed.

Section Demo.
#[local] Existing Instance Kalloc.demo_image.
#[local] Existing Instance demo_literals.
#[local] Existing Instance demo_proc_image.
#[local] Existing Instance LogCrash.demo_image.
#[local] Existing Instance refs_ptrs.
#[local] Existing Instance refs_ptrs_ok.
#[local] Instance refs_wakeups : Wakeups := {| wakeups := 1 |}.
#[local] Instance refs_console : ConsImage := {| input_r_addr := 0x80110000 |}.
#[local] Existing Instance console_devsw.
#[local] Instance refs_drivers : Drivers := console_drivers (ret tt) 0.
#[local] Instance refs_drivers_ok : DriversOk refs_drivers.
Proof. apply console_drivers_ok, leaves_ret. Qed.
#[local] Instance refs_time : TimeImage := {| ticks_addr := 0x80114c80 |}.

Definition refs_tf : Z := 0x80407000.
Definition refs_mem : memory := store32 (store32 (mem demo_space) (refs_tf + tf_trapno) T_SYSCALL) (refs_tf + tf_eax) 11.
Definition refs_row : list Z := <[0%nat := file_ptr 0]> (replicate NOFILES 0).
Definition refs_files : list file := <[0%nat := mk_file FD_INODE 1 true false 0 0 0]> (replicate NFILE zero_file).
Definition refs_kst : kst ksys :=
  mk_kst (set_mem refs_mem demo_space) (mk_shm false [] []) false
    (set_ofile refs_row (plain_proc RUNNING 1) :: replicate 63 (plain_proc UNUSED 0)) 2 None 0
    (mk_regs (V2P demo_dir) 0 0 0 0 0 null_seg)
    (mk_ksys (set_ftable refs_files (power_on 0 (fun _ => []))) 0 false (mk_sem false 0 0 0 0)).

(** No file is open. *)
Definition empty_view : kv := mk_kv 0 (replicate NFILE (0, FD_NONE)) ((replicate NOFILES 0, true) :: replicate 63 (replicate NOFILES 0, false)).

Lemma occ_null j : occ (file_ptr j) (replicate NOFILES 0) = 0.
Proof. unfold NOFILES, occ. cbn [replicate total foldr]. by rewrite hit_null. Qed.

Lemma empty_counted : counted (fun _ => None) none empty_view.
Proof.
  assert (forall i p, v_procs empty_view !! i = Some p -> fst p = replicate NOFILES 0) as Hz.
  { intros [|i] p Hp; [by injection Hp as <-|]. change (replicate 63 (replicate NOFILES 0, false) !! i = Some p) in Hp. apply lookup_replicate in Hp as [-> _]. done. }
  constructor; [done|done| | |].
  - intros i p Hp. pose proof (Hz i p Hp) as E. constructor; rewrite E; [done| |done].
    apply Forall_replicate. by left.
  - intros j k Hk. apply lookup_replicate in Hk as [-> _]. unfold none. rewrite Z.add_0_r. symmetry. unfold uses.
    assert (forall l, (forall i r, l !! i = Some r -> r = replicate NOFILES 0) -> total (occ (file_ptr j)) l = 0) as Ht.
    { induction l as [|r l IH]; intros Hl; [done|]. simpl. rewrite (Hl 0%nat r eq_refl), occ_null, IH; [done|].
      intros i. apply (Hl (S i)). }
    apply Ht. intros i r Hr. unfold rows in Hr. rewrite list_lookup_imap in Hr.
    destruct (v_procs empty_view !! i) as [p|] eqn:Ep; [|done]. injection Hr as <-. by apply (Hz i).
  - intros j k Hk _. by apply lookup_replicate in Hk as [-> _].
Qed.

Lemma refs_counted : counted (fun _ => None) none (kview refs_kst).
Proof.
  change (kview refs_kst) with (with_desc 0 (<[0%nat := file_ptr 0]> (replicate NOFILES 0), true) (with_file 0 (1, FD_INODE) empty_view)).
  eapply counted_ext; [eapply (counted_desc _ _ _ 0 _ 0 0); [eapply counted_file; [apply empty_counted|done|done]|done|done|done|]| |].
  - right. exists 0%nat. split; [unfold NFILE; lia|done].
  - done.
  - intros j. cbv beta. rewrite hit_null, hit_ptr. unfold plus, none. destruct (j =? 0)%nat; lia.
Qed.

Lemma references_counted_witness : exists s f, mstep (refs_kst, fun _ => None) (s, set_task 0 None (fun _ => None)) /\
  ftable (fsys_of s) !! 0%nat = Some f /\ 1 <= f_ref f.
Proof.
  assert (exists s, runs (fun _ => None) 0 refs_tf refs_kst = Ok tt s) as [s Hs] by (eexists; reflexivity).
  assert (mstep (refs_kst, fun _ => None) (s, set_task 0 None (fun _ => None))) as Hm.
  { eapply (ms_return 0 refs_tf _ _ refs_kst); [by eexists; split; [reflexivity|]|reflexivity|exact Hs]. }
  assert (v_procs (kview s) !! 0%nat = Some (refs_row, true)) as Hv.
  { injection Hs as <-. reflexivity. }
  destruct (procs_view _ _ _ _ Hv) as (p & Hp & Hr & Hl).
  destruct (references_counted refs_kst s (set_task 0 None (fun _ => None)) refs_counted (rtc_once _ _ Hm)) as (_ & H & _).
  destruct (H 0%nat p 0%nat (file_ptr 0)) as (f & Hf & H1); [done|done|done|by rewrite Hr|done|].
  exists s, f. split; [done|]. split; [|done]. by rewrite file_idx_ptr in Hf.
Defined.
End Demo.
