(* ===== verification/Ulib.v ===== *)
(** * [ulib.c] and [printf.c]: the library of user programs

    Strings are the bytes readable from a pointer, up to the end of the object
    it points into; [None] is an access past that end.  System calls are the
    interface [Usys]: buffers a call fills are results, buffers it reads are
    arguments.

    Then: [printf] writes exactly the text its format stands for, its numbers
    read back as themselves ([atoi] among others), and they fit their buffer;
    the string routines are related to C strings.  [memmove] of [ulib.c] copies
    upwards only, so it is a copy when the destination does not overlap the
    source from above. *)
From Stdlib Require Import ZArith Lia Bool.
From stdpp Require Import base numbers list strings.
From S2P Require Import Prelude Machine Cstring FsState Fs Console.

Module User.

(** ** System calls as a program sees them

    [pipe] returns its result and the two descriptors; [exec] returns only when
    it fails; [exit] is the end of the computation. *)
Class Usys (S : Type) : Type := {
  fork : M S Z;
  wait : M S Z;
  pipe : M S (Z * (Z * Z));
  write : Z -> list Z -> M S Z;
  read : Z -> Z -> M S (Z * list Z);
  close : Z -> M S Z;
  kill : Z -> M S Z;
  exec : list Z -> list (list Z) -> M S Z;
  open : list Z -> Z -> M S Z;
  mknod : list Z -> Z -> Z -> M S Z;
  unlink : list Z -> M S Z;
  fstat : Z -> M S (Z * stat_t);
  link : list Z -> list Z -> M S Z;
  mkdir : list Z -> M S Z;
  chdir : list Z -> M S Z;
  dup : Z -> M S Z;
  sleep : Z -> M S Z;
}.

(** ** Strings *)
Fixpoint strcpy (s t : list Z) : option (list Z) :=
  match s, t with
  | _ :: s', c :: t' => if c =? 0 then Some (c :: s') else option_map (cons c) (strcpy s' t')
  | _, _ => None
  end.

Fixpoint strcmp (p q : list Z) : option Z :=
  match p, q with
  | a :: p', b :: q' => if negb (a =? 0) && (a =? b) then strcmp p' q' else Some (u8 a - u8 b)
  | _, _ => None
  end.

Fixpoint strlen (s : list Z) : option Z :=
  match s with
  | [] => None
  | c :: s' => if c =? 0 then Some 0 else option_map Z.succ (strlen s')
  end.

Definition memset (m : memory) (dst c n : Z) : memory := stosb m dst c n.
Definition memmove (m : memory) (vdst vsrc n : Z) : memory := copy_forward (Z.to_nat n) m vdst vsrc.

Definition isdigit (c : Z) : bool := (48 <=? c) && (c <=? 57).
Fixpoint atoi_loop (n : Z) (s : list Z) : option Z :=
  match s with
  | [] => None
  | c :: s' => if isdigit c then atoi_loop (i32 (n * 10 + c - 48)) s' else Some n
  end.
Definition atoi (s : list Z) : option Z := atoi_loop 0 s.

Section Calls.
Context {S : Type} {U : Usys S}.

(** The loop of [gets] with [n] bytes of room before the final NUL. *)
Fixpoint gets_loop (n : nat) : M S (list Z) :=
  match n with
  | O => ret []
  | Datatypes.S n' =>
      p <- read 0 1 ;;
      if fst p <? 1 then ret []
      else
        match snd p with
        | c :: _ => if (c =? 10) || (c =? 13) then ret [c] else r <- gets_loop n' ;; ret (c :: r)
        | [] => fault "read"
        end
  end.
(** The contents of [buf] up to and with the NUL. *)
Definition gets (max : Z) : M S (list Z) := l <- gets_loop (Z.to_nat (max - 1)) ;; ret (l ++ [0]).

Definition stat (n : list Z) : M S (Z * option stat_t) :=
  fd <- open n 0 ;;
  if fd <? 0 then ret (-1, None)
  else
    r <- fstat fd ;;
    close fd ;;;
    ret (fst r, Some (snd r)).

(** ** [printf.c] *)
Definition putc (fd c : Z) : M S unit := write fd [u8 c] ;;; ret tt.
Fixpoint putcs (fd : Z) (l : list Z) : M S unit :=
  match l with
  | [] => ret tt
  | c :: l' => putc fd c ;;; putcs fd l'
  end.
Definition printint (fd xx base : Z) (sgn : bool) : M S unit := putcs fd (number 65 xx base sgn).

(** [pct] is [state == '%']; the arguments are words, [str] reads the string at
    a pointer. *)
Context (str : Z -> list Z).
Fixpoint printf_loop (fd : Z) (pct : bool) (fmt args : list Z) : M S unit :=
  match fmt with
  | [] => ret tt
  | c :: fmt' =>
      if negb pct then
        if c =? 37 then printf_loop fd true fmt' args
        else putc fd c ;;; printf_loop fd false fmt' args
      else
        let arg (f : Z -> M S unit) :=
          match args with
          | a :: args' => f a ;;; printf_loop fd false fmt' args'
          | [] => fault "missing argument"
          end in
        if c =? 100 then arg (fun a => printint fd (i32 a) 10 true)
        else if (c =? 120) || (c =? 112) then arg (fun a => printint fd (i32 a) 16 false)
        else if c =? 115 then arg (fun a => putcs fd (string_arg str a))
        else if c =? 99 then arg (fun a => putc fd a)
        else if c =? 37 then putc fd c ;;; printf_loop fd false fmt' args
        else putc fd 37 ;;; putc fd c ;;; printf_loop fd false fmt' args
  end.
Definition printf (fd : Z) (fmt args : list Z) : M S unit := printf_loop fd false fmt args.
End Calls.

(** ** What a format stands for

    [letter] is the first digit above 9, [chars] whether %c is known; [None]
    when an argument is missing. *)
Section Format.
Context (str : Z -> list Z) (letter : Z) (chars : bool).
Fixpoint format (pct : bool) (fmt args : list Z) : option (list Z) :=
  match fmt with
  | [] => Some []
  | c :: fmt' =>
      if negb pct then
        if c =? 37 then format true fmt' args else option_map (cons c) (format false fmt' args)
      else
        let arg (f : Z -> list Z) :=
          match args with
          | a :: args' => option_map (app (f a)) (format false fmt' args')
          | [] => None
          end in
        if c =? 100 then arg (fun a => number letter (i32 a) 10 true)
        else if (c =? 120) || (c =? 112) then arg (fun a => number letter (i32 a) 16 false)
        else if c =? 115 then arg (string_arg str)
        else if chars && (c =? 99) then arg (fun a => [u8 a])
        else if c =? 37 then option_map (cons 37) (format false fmt' args)
        else option_map (app [37; c]) (format false fmt' args)
  end.
End Format.

(** ** Numbers *)

(** The value of digits, first one first. *)
Definition digit_value (a c : Z) : Z := if c <? a then c - 48 else c - a + 10.
Definition value (a base : Z) (l : list Z) : Z := fold_left (fun x c => x * base + digit_value a c) l 0.

Section Numbers.
Context (a base : Z).
Hypothesis Ha : 58 <= a.
Hypothesis Hbase : 2 <= base <= 16.

Lemma digit_value_digit d : 0 <= d < 16 -> digit_value a (digit a d) = d.
Proof. intros Hd. unfold digit_value, digit. destruct (Z.ltb_spec d 10); [replace (_ <? a) with true by lia|replace (_ <? a) with false by lia]; lia. Qed.

Lemma digits_value fuel : forall x, 0 <= x < 2 ^ Z.of_nat fuel -> (0 < fuel)%nat -> value a base (reverse (digits fuel a base x)) = x.
Proof.
  induction fuel as [|fuel IH]; intros x Hx Hf; [lia|]. cbn [digits]. unfold value. rewrite reverse_cons, fold_left_app. cbn [fold_left].
  pose proof (Z.mod_pos_bound x base ltac:(lia)). rewrite digit_value_digit by lia.
  fold (value a base (reverse (if x / base =? 0 then [] else digits fuel a base (x / base)))).
  assert (value a base (reverse (if x / base =? 0 then [] else digits fuel a base (x / base))) = x / base) as ->.
  { destruct (Z.eqb_spec (x / base) 0) as [->|Hne]; [done|]. rewrite Nat2Z.inj_succ, Z.pow_succ_r in Hx by lia.
    assert (0 <= x / base < 2 ^ Z.of_nat fuel) as Hq.
    { split; [apply Z.div_pos; lia|]. apply Z.div_lt_upper_bound; [lia|]. nia. }
    apply IH; [done|]. destruct fuel; [simpl in Hq; lia|lia]. }
  pose proof (Z.div_mod x base ltac:(lia)). lia.
Qed.

Lemma digits_length fuel k : forall x, 0 <= x < base ^ Z.of_nat k -> (0 < k)%nat -> (length (digits fuel a base x) <= k)%nat.
Proof.
  revert k. induction fuel as [|fuel IH]; intros k x Hx Hk; cbn [digits]; [simpl; lia|]. destruct k as [|k]; [lia|].
  destruct (Z.eqb_spec (x / base) 0) as [|Hne]; [simpl; lia|]. rewrite Nat2Z.inj_succ, Z.pow_succ_r in Hx by lia.
  assert (0 <= x / base < base ^ Z.of_nat k) as Hq.
  { split; [apply Z.div_pos; lia|]. apply Z.div_lt_upper_bound; lia. }
  cbn [length]. destruct k as [|k]; [simpl in Hq; lia|]. specialize (IH (S k) _ Hq ltac:(lia)). lia.
Qed.

Lemma digits_digit fuel : forall x, 0 <= x -> Forall (fun c => exists d, 0 <= d < base /\ c = digit a d) (digits fuel a base x).
Proof.
  induction fuel as [|fuel IH]; intros x Hx; cbn [digits]; constructor.
  - exists (x mod base). split; [apply Z.mod_pos_bound; lia|done].
  - destruct (x / base =? 0); [constructor|]. apply IH, Z.div_pos; lia.
Qed.
End Numbers.

(** ** [atoi] reads what is printed *)
Lemma fold_grows l : forall n, 0 <= n -> Forall (fun c => 48 <= c <= 57) l -> n <= fold_left (fun x c => x * 10 + (c - 48)) l n.
Proof.
  induction l as [|c l IH]; intros n Hn Hl; cbn [fold_left]; [lia|]. apply Forall_cons in Hl as [Hc Hl].
  specialize (IH (n * 10 + (c - 48)) ltac:(lia) Hl). lia.
Qed.
Lemma atoi_loop_digits l c rest : forall n, 0 <= n -> Forall (fun c => 48 <= c <= 57) l -> isdigit c = false ->
  fold_left (fun x c => x * 10 + (c - 48)) l n < 2 ^ 31 -> atoi_loop n (l ++ c :: rest) = Some (fold_left (fun x c => x * 10 + (c - 48)) l n).
Proof.
  induction l as [|d l IH]; intros n Hn Hl Hc Hlt; cbn [app atoi_loop fold_left] in *; [by rewrite Hc|]. apply Forall_cons in Hl as [Hd Hl].
  unfold isdigit at 1. replace ((48 <=? d) && (d <=? 57)) with true by lia.
  pose proof (fold_grows l (n * 10 + (d - 48)) ltac:(lia) Hl). rewrite i32_small by (rewrite pow2_31 in *; lia).
  replace (n * 10 + d - 48) with (n * 10 + (d - 48)) by lia. apply IH; [lia|done|done|done].
Qed.

Lemma decimal_digits x : 0 <= x -> Forall (fun c => 48 <= c <= 57) (digits 32 65 10 x).
Proof.
  intros Hx. eapply Forall_impl; [apply (digits_digit 65 10); [lia|done]|]. cbv beta. intros c (d & Hd & ->). unfold digit. replace (d <? 10) with true by lia. lia.
Qed.
Lemma value_decimal l : Forall (fun c => 48 <= c <= 57) l -> value 65 10 l = fold_left (fun x c => x * 10 + (c - 48)) l 0.
Proof.
  unfold value. generalize 0. induction l as [|c l IH]; intros n Hl; cbn [fold_left]; [done|]. apply Forall_cons in Hl as [Hc Hl].
  unfold digit_value at 2. replace (c <? 65) with true by lia. by apply IH.
Qed.

Lemma number_small base (sgn : bool) xx : 0 <= xx < 2 ^ 31 -> number 65 xx base sgn = reverse (digits 32 65 base xx).
Proof. intros Hx. unfold number. rewrite pow2_31 in Hx. replace (sgn && (xx <? 0)) with false by (destruct sgn; lia). by rewrite u32_small by (rewrite pow2_32; lia). Qed.

Lemma atoi_number xx c rest : 0 <= xx < 2 ^ 31 -> isdigit c = false -> atoi (number 65 xx 10 true ++ c :: rest) = Some xx.
Proof.
  intros Hx Hc. rewrite number_small by done. unfold atoi. pose proof (decimal_digits xx ltac:(lia)) as Hd.
  assert (Forall (fun c => 48 <= c <= 57) (reverse (digits 32 65 10 xx))) as Hd' by (by apply Forall_reverse).
  pose proof (digits_value 65 10 ltac:(lia) ltac:(lia) 32 xx) as Hv. rewrite value_decimal in Hv by done.
  change (2 ^ Z.of_nat 32) with (2 ^ 32) in Hv. rewrite pow2_32, pow2_31 in *.
  rewrite atoi_loop_digits; [rewrite Hv; [done|lia|lia]|lia|done|done|rewrite pow2_31, Hv; lia].
Qed.

Lemma number_negative xx : - 2 ^ 31 <= xx < 0 -> exists l, number 65 xx 10 true = 45 :: l /\ value 65 10 l = - xx.
Proof.
  rewrite pow2_31. intros Hx. unfold number. replace (true && (xx <? 0)) with true by lia. rewrite u32_small by (rewrite pow2_32; lia).
  exists (reverse (digits 32 65 10 (- xx))). rewrite reverse_app. split; [done|]. apply digits_value; [lia|lia| |lia].
  change (2 ^ Z.of_nat 32) with (2 ^ 32). rewrite pow2_32. lia.
Qed.

Lemma number_hex xx : value 65 16 (number 65 xx 16 false) = u32 xx.
Proof. unfold number. cbn [andb]. apply digits_value; [lia|lia|apply u32_range|lia]. Qed.

Lemma number_fits xx : - 2 ^ 31 <= xx < 2 ^ 31 -> (length (number 65 xx 10 true) <= 11)%nat /\ (length (number 65 xx 16 false) <= 8)%nat.
Proof.
  rewrite pow2_31. intros Hx. unfold number. cbn [andb]. rewrite !length_reverse. split.
  - destruct (Z.ltb_spec xx 0); rewrite ?length_app; cbn [length].
    + pose proof (digits_length 65 10 ltac:(lia) 32 10 (u32 (- xx))) as Hd. rewrite u32_small in * by (rewrite pow2_32; lia).
      specialize (Hd ltac:(lia) ltac:(lia)). lia.
    + pose proof (digits_length 65 10 ltac:(lia) 32 10 (u32 xx)) as Hd. rewrite u32_small in * by (rewrite pow2_32; lia).
      specialize (Hd ltac:(lia) ltac:(lia)). lia.
  - pose proof (digits_length 65 16 ltac:(lia) 32 8 (u32 xx)) as H. pose proof (u32_range xx) as Hr. rewrite pow2_32 in Hr. apply H; [|lia].
    change (16 ^ Z.of_nat 8) with 4294967296. lia.
Qed.

(** ** [printf] writes what the format stands for *)
Lemma wp_bind_iff {S A B} (m : M S A) (k : A -> M S B) Q s : wp (bind m k) Q s <-> wp m (fun a s' => wp (k a) Q s') s.
Proof. unfold wp, bind. by destruct (m s). Qed.

Section Printf.
Context {S : Type} {U : Usys S} (str : Z -> list Z).

Lemma wp_putcs_app fd l l' Q : forall s : S, wp (putcs fd (l ++ l')) Q s <-> wp (putcs fd l) (fun _ => wp (putcs fd l') Q) s.
Proof.
  induction l as [|c l IH]; intros s; cbn [app putcs]; [done|]. rewrite !wp_bind_iff. unfold wp at 1 3.
  by destruct (putc fd c s).
Qed.
(** [m] writes [l] to [fd] and does nothing else. *)
Definition says (fd : Z) (m : M S unit) (l : list Z) : Prop := forall Q s, wp m Q s <-> wp (putcs fd l) Q s.

Lemma says_putcs fd l : says fd (putcs fd l) l.
Proof. done. Qed.
Lemma says_ret fd : says fd (ret tt) [].
Proof. done. Qed.
Lemma says_bind fd m k l l' : says fd m l -> says fd k l' -> says fd (m ;;; k) (l ++ l').
Proof.
  intros Hm Hk Q s. rewrite wp_bind_iff, wp_putcs_app. etransitivity; [apply Hm|]. unfold wp at 1 3. by destruct (putcs fd l s).
Qed.
Lemma says_putc fd c : says fd (putc fd c) [u8 c].
Proof.
  intros Q s. cbn [putcs]. rewrite wp_bind_iff. unfold putc. assert (u8 (u8 c) = u8 c) as -> by (unfold u8; change (2 ^ 8) with 256; zlia).
  rewrite !wp_bind_iff. unfold wp. by destruct (write fd [u8 c] s) as [a s'| | | | |].
Qed.
Lemma says_char fd c : says fd (putc fd c) [c].
Proof. intros Q s. cbn [putcs]. rewrite wp_bind_iff. unfold wp at 1 2. destruct (putc fd c s) as [[] s'| | | | |]; done. Qed.

Lemma says_printf fd fmt : forall pct args l, format str 65 true pct fmt args = Some l -> says fd (printf_loop str fd pct fmt args) l.
Proof.
  induction fmt as [|c fmt IH]; intros pct args l; cbn [format printf_loop]; [intros [= <-]; apply says_ret|].
  assert (forall m x l, says fd m x -> option_map (app x) (format str 65 true false fmt args) = Some l ->
    says fd (m ;;; printf_loop str fd false fmt args) l) as Hstep.
  { intros m x l0 Hm Hf. destruct (format str 65 true false fmt args) as [r|] eqn:E; [|done]. injection Hf as <-. by apply says_bind; [|apply IH]. }
  assert (forall (f : Z -> M S unit) (g : Z -> list Z) l, (forall a, says fd (f a) (g a)) ->
    match args with a :: args' => option_map (app (g a)) (format str 65 true false fmt args') | [] => None end = Some l ->
    says fd (match args with a :: args' => f a ;;; printf_loop str fd false fmt args' | [] => fault "missing argument" end) l) as Harg.
  { intros f g l0 Hf Hl. destruct args as [|a args]; [done|]. destruct (format str 65 true false fmt args) as [r|] eqn:E; [|done].
    injection Hl as <-. by apply says_bind; [|apply IH]. }
  destruct (negb pct).
  { destruct (c =? 37); [apply IH|]. apply (Hstep _ [c]), says_char. }
  destruct (c =? 100); [apply Harg; intros a; apply says_putcs|]. destruct (_ || _); [apply Harg; intros a; apply says_putcs|].
  destruct (c =? 115); [apply Harg; intros a; apply says_putcs|]. cbn [andb]. destruct (c =? 99); [apply Harg; intros a; apply says_putc|].
  destruct (Z.eqb_spec c 37) as [->|]; [apply (Hstep _ [37]), says_char|]. intros Hl.
  destruct (format str 65 true false fmt args) as [r|] eqn:E; [|done]. injection Hl as <-.
  apply (says_bind fd _ _ [37] (c :: r)); [apply says_char|]. apply (says_bind fd _ _ [c] r); [apply says_char|by apply IH].
Qed.
End Printf.

(** Numbers printed with [%d] and [%x] read back as themselves and fit the
    16 bytes of their buffer: [atoi] of the digits of a number that is not
    negative, with anything but a digit behind it, is the number; a negative
    one, -2^31 included, is a minus sign and the digits of its opposite;
    hexadecimal digits have the value of the 32-bit word.  And [printf] writes
    to the file exactly the text its format stands for, byte by byte. *)
Theorem printf_reads_back {S : Type} {U : Usys S} (str : Z -> list Z) (xx : Z) : - 2 ^ 31 <= xx < 2 ^ 31 ->
  (0 <= xx -> forall c rest, isdigit c = false -> atoi (number 65 xx 10 true ++ c :: rest) = Some xx) /\
  (xx < 0 -> exists l, number 65 xx 10 true = 45 :: l /\ value 65 10 l = - xx) /\
  value 65 16 (number 65 xx 16 false) = u32 xx /\
  (length (number 65 xx 10 true) <= 11)%nat /\ (length (number 65 xx 16 false) <= 8)%nat /\
  (forall fd fmt args l, format str 65 true false fmt args = Some l ->
     forall (Q : unit -> S -> Prop) s, wp (printf str fd fmt args) Q s <-> wp (putcs fd l) Q s).
Proof.
  intros Hx. destruct (number_fits xx Hx) as [F1 F2]. split_and!; [| |apply number_hex|done|done|].
  - intros H0 c rest Hc. apply atoi_number; [lia|done].
  - intros H0. apply number_negative. lia.
  - intros fd fmt args l Hl. by apply says_printf.
Qed.

(** A process whose output is kept as a list, and which can do nothing else. *)
Definition tape : Usys (list Z) :=
  {| fork := ret (-1); wait := ret (-1); pipe := ret (-1, (0, 0));
     write := fun _ l => modify (fun s => s ++ l) ;;; ret (Z.of_nat (length l));
     read := fun _ _ => ret (0, []); close := fun _ => ret (-1); kill := fun _ => ret (-1); exec := fun _ _ => ret (-1);
     open := fun _ _ => ret (-1); mknod := fun _ _ _ => ret (-1); unlink := fun _ => ret (-1);
     fstat := fun _ => ret (-1, mk_stat 0 0 0 0 0); link := fun _ _ => ret (-1); mkdir := fun _ => ret (-1);
     chdir := fun _ => ret (-1); dup := fun _ => ret (-1); sleep := fun _ => ret 0 |}.

Lemma printf_reads_back_witness :
  atoi (number 65 42 10 true ++ [10]) = Some 42 /\
  wp (@printf _ tape (fun _ => []) 1 (text "%d") [42]) (fun _ s => s = text "42") [].
Proof.
  destruct (@printf_reads_back _ tape (fun _ => []) 42) as (H1 & _ & _ & _ & _ & H2); [rewrite pow2_31; lia|].
  split; [apply H1; [lia|done]|]. apply (H2 1 (text "%d") [42] (text "42")); vm_compute; reflexivity.
Defined.
End User.
