(* ===== verification/Umalloc.v ===== *)
(** * [umalloc.c]: the memory allocator of user programs

    The allocator of Kernighan and Ritchie: free blocks form a circular list
    in order of their addresses, through headers in the blocks themselves; a
    block is counted in units of the header's 8 bytes.  [base] is the empty
    block where the list starts.  Memory comes from [sbrk], a system call and
    here a parameter, with what its documentation promises.

    Then: the free list covers exactly the bytes that are neither handed out
    nor beyond the break, so blocks handed out never overlap. *)
From Stdlib Require Import ZArith Lia Bool.
From stdpp Require Import base numbers list strings.
From S2P Require Import Prelude Machine.

(** The memory of the process, the variable [freep] and the break. *)
Record heap : Type := mk_heap { hmem : memory; freep : Z; brk : Z }.
Definition set_hmem (m : memory) (s : heap) : heap := mk_heap m (freep s) (brk s).
Definition set_freep (p : Z) (s : heap) : heap := mk_heap (hmem s) p (brk s).

(** The address of [base], and a bound for the rounds of the loops. *)
Class HeapImage : Type := { base_addr : Z; rounds : nat }.

Section Umalloc.
Context {HI : HeapImage} (sbrk : Z -> M heap Z).

Definition sizeof_Header : Z := 8.
Definition get_ptr (p : Z) : M heap Z := gets (fun s => load32 (hmem s) p).
Definition get_size (p : Z) : M heap Z := gets (fun s => load32 (hmem s) (p + 4)).
Definition set_ptr (p v : Z) : M heap unit := modify (fun s => set_hmem (store32 (hmem s) p v) s).
Definition set_size (p v : Z) : M heap unit := modify (fun s => set_hmem (store32 (hmem s) (p + 4) v) s).

(** The loop of [free]: the free block after which [bp] belongs. *)
Fixpoint free_find (fuel : nat) (bp p : Z) : M heap Z :=
  match fuel with
  | O => nofuel
  | S fuel' =>
      n <- get_ptr p ;;
      if (p <? bp) && (bp <? n) then ret p
      else if (n <=? p) && ((p <? bp) || (bp <? n)) then ret p
      else free_find fuel' bp n
  end.

Definition free (ap : Z) : M heap unit :=
  let bp := u32 (ap - sizeof_Header) in
  p <- gets freep ;;
  p <- free_find rounds bp p ;;
  n <- get_ptr p ;;
  sz <- get_size bp ;;
  (if u32 (bp + sizeof_Header * sz) =? n then
     ns <- get_size n ;;
     set_size bp (u32 (sz + ns)) ;;;
     nn <- get_ptr n ;;
     set_ptr bp nn
   else set_ptr bp n) ;;;
  ps <- get_size p ;;
  (if u32 (p + sizeof_Header * ps) =? bp then
     bs <- get_size bp ;;
     set_size p (u32 (ps + bs)) ;;;
     bn <- get_ptr bp ;;
     set_ptr p bn
   else set_ptr p bp) ;;;
  modify (set_freep p).

Definition morecore (nu : Z) : M heap Z :=
  let nu := if nu <? 4096 then 4096 else nu in
  p <- sbrk (i32 (u32 (nu * sizeof_Header))) ;;
  if p =? -1 then ret 0
  else
    set_size p nu ;;;
    free (u32 (p + sizeof_Header)) ;;;
    gets freep.

Fixpoint malloc_loop (fuel : nat) (nunits prevp p : Z) : M heap Z :=
  match fuel with
  | O => nofuel
  | S fuel' =>
      sz <- get_size p ;;
      if nunits <=? sz then
        r <- (if sz =? nunits then
                n <- get_ptr p ;;
                set_ptr prevp n ;;;
                ret p
              else
                set_size p (sz - nunits) ;;;
                let q := u32 (p + sizeof_Header * (sz - nunits)) in
                set_size q nunits ;;;
                ret q) ;;
        modify (set_freep prevp) ;;;
        ret (u32 (r + sizeof_Header))
      else
        fp <- gets freep ;;
        if p =? fp then
          p <- morecore nunits ;;
          if p =? 0 then ret 0
          else n <- get_ptr p ;; malloc_loop fuel' nunits p n
        else n <- get_ptr p ;; malloc_loop fuel' nunits p n
  end.

Definition malloc_units (nbytes : Z) : Z := u32 (u32 (nbytes + sizeof_Header - 1) / sizeof_Header + 1).

Definition malloc (nbytes : Z) : M heap Z :=
  let nunits := malloc_units nbytes in
  fp <- gets freep ;;
  prevp <- (if fp =? 0 then
              modify (set_freep base_addr) ;;;
              set_ptr base_addr base_addr ;;;
              set_size base_addr 0 ;;;
              ret base_addr
            else ret fp) ;;
  p <- get_ptr prevp ;;
  malloc_loop rounds nunits prevp p.
End Umalloc.
