(* ===== verification/UmallocProps.v ===== *)
(** * The free list of [umalloc.c]

    The free list is a list of blocks in ascending order that do not touch.
    [free] adds exactly the bytes of a block to it, [malloc] takes exactly the
    bytes it returns out of it, and nothing else in memory changes but headers
    of free blocks. *)
From Stdlib Require Import ZArith Lia Bool.
From stdpp Require Import base numbers list strings.
From S2P Require Import Prelude Machine Umalloc.

(** A block: its address and its size in units. *)
Abbreviation blk := (Z * Z)%type.
Implicit Types F L : list blk.

Definition hd_addr L (e : Z) : Z := match L with [] => e | b :: _ => fst b end.

(** Headers of [L] in memory, the last one pointing to [e]. *)
Fixpoint chain (m : memory) L (e : Z) : Prop :=
  match L with
  | [] => True
  | b :: L' => load32 m (fst b) = hd_addr L' e /\ load32 m (fst b + 4) = snd b /\ chain m L' e
  end.

(** In ascending order from above [lo], no two touch. *)
Fixpoint asc (lo : Z) F : Prop :=
  match F with
  | [] => True
  | b :: F' => lo < fst b /\ 1 <= snd b /\ asc (fst b + 8 * snd b) F'
  end.

Definition covered F (z : Z) : Prop := Exists (fun b => fst b <= z < fst b + 8 * snd b) F.
Definition apart F (a n : Z) : Prop := Forall (fun b => fst b + 8 * snd b <= a \/ a + 8 * n <= fst b) F.

Lemma hd_addr_app L1 L2 e : hd_addr (L1 ++ L2) e = hd_addr L1 (hd_addr L2 e).
Proof. by destruct L1. Qed.
Lemma chain_app m L1 L2 e : chain m (L1 ++ L2) e <-> chain m L1 (hd_addr L2 e) /\ chain m L2 e.
Proof. induction L1 as [|b L1 IH]; cbn [chain app]; [tauto|]. rewrite IH, hd_addr_app. tauto. Qed.

Lemma chain_frame m m' L e : Forall (fun b => forall x, fst b <= x < fst b + 8 -> m' x = m x) L -> chain m L e -> chain m' L e.
Proof.
  induction 1 as [|b L Hb _ IH]; cbn [chain]; [done|]. intros (H1 & H2 & H3). split_and!; [| |by apply IH].
  - rewrite (load32_agree m m'); [done|]. intros x Hx. apply Hb. lia.
  - rewrite (load32_agree m m'); [done|]. intros x Hx. apply Hb. lia.
Qed.

(** Where the last block of [F] ends. *)
Definition ends (lo : Z) F : Z := match last F with Some b => fst b + 8 * snd b | None => lo end.
Lemma ends_cons lo b F : ends lo (b :: F) = ends (fst b + 8 * snd b) F.
Proof. destruct F as [|c F]; [done|]. unfold ends. rewrite last_cons_cons. destruct (last (c :: F)) eqn:E; [done|]. by apply last_None in E. Qed.
Lemma ends_snoc lo F b : ends lo (F ++ [b]) = fst b + 8 * snd b.
Proof. unfold ends. by rewrite last_snoc. Qed.

Lemma asc_app lo F1 F2 : asc lo (F1 ++ F2) <-> asc lo F1 /\ asc (ends lo F1) F2.
Proof.
  revert lo. induction F1 as [|b F1 IH]; intros lo; cbn [asc app]; [tauto|]. rewrite IH, ends_cons. tauto.
Qed.

Lemma asc_weaken lo lo' F : lo' <= lo -> asc lo F -> asc lo' F.
Proof. destruct F; cbn [asc]; [done|]. intros ? (? & ? & ?). split; [lia|done]. Qed.

Lemma asc_above lo F : asc lo F -> Forall (fun b => lo < fst b /\ 1 <= snd b) F.
Proof.
  revert lo. induction F as [|b F IH]; intros lo; cbn [asc]; [constructor|]. intros (H1 & H2 & H3). constructor; [done|].
  eapply Forall_impl; [apply (IH _ H3)|]. simpl. intros c ?. lia.
Qed.

Lemma asc_ends lo F : asc lo F -> lo <= ends lo F /\ Forall (fun b => fst b + 8 <= ends lo F) F.
Proof.
  revert lo. induction F as [|b F IH]; intros lo; cbn [asc]; [unfold ends; simpl; split; [lia|constructor]|].
  intros (A1 & A2 & A3). rewrite ends_cons. destruct (IH _ A3) as [I1 I2]. split; [lia|]. constructor; [lia|done].
Qed.

Lemma asc_from lo lo' F : asc lo F -> Forall (fun b => lo' <= fst b) F -> asc (lo' - 1) F.
Proof. destruct F as [|b F]; [done|]. intros (? & ? & ?) [? _]%Forall_cons. cbn [asc]. split; [lia|done]. Qed.

(** A block apart from the list has its place in it. *)
Lemma split_at lo F a n : asc lo F -> apart F a n -> 1 <= n -> exists F1 F2, F = F1 ++ F2 /\
  Forall (fun b => fst b + 8 * snd b <= a) F1 /\ Forall (fun b => a + 8 * n <= fst b) F2.
Proof.
  revert lo. induction F as [|b F IH]; intros lo H Ha Hn; [by exists [], []|]. destruct H as (H1 & H2 & H3).
  apply Forall_cons in Ha as [Hb Ha]. destruct (IH _ H3 Ha Hn) as (F1 & F2 & -> & HF1 & HF2). destruct Hb as [Hb|Hb].
  - exists (b :: F1), F2. split; [done|]. split; [by constructor|done].
  - exists [], (b :: F1 ++ F2). split; [done|]. split; [done|]. constructor; [done|].
    eapply Forall_impl; [apply (asc_above _ _ H3)|]. simpl. intros c ?. lia.
Qed.

Section Heap.
Context {HI : HeapImage}.

Record rep (s : heap) F : Prop := {
  rp_chain : chain (hmem s) ((base_addr, 0) :: F) base_addr;
  rp_asc : asc (base_addr + 7) F;
  rp_top : Forall (fun b => fst b + 8 * snd b <= brk s) F;
  rp_brk : base_addr + 8 <= brk s <= 2 ^ 31;
  rp_base : 0 < base_addr;
  rp_freep : freep s ∈ base_addr :: (fst <$> F);
}.

Definition ring F : list blk := (base_addr, 0) :: F.
Definition nxt (n k : nat) : nat := if (S k =? n)%nat then 0%nat else S k.

Lemma chain_at m L e k b : chain m L e -> L !! k = Some b ->
  load32 m (fst b) = hd_addr (drop (S k) L) e /\ load32 m (fst b + 4) = snd b.
Proof.
  revert k. induction L as [|c L IH]; intros [|k] H Hk; simplify_eq/=; destruct H as (H1 & H2 & H3); [done|]. by apply IH.
Qed.

(** Following the list from entry [k]. *)
Lemma ring_next s F k b : rep s F -> ring F !! k = Some b ->
  exists c, ring F !! nxt (length (ring F)) k = Some c /\ load32 (hmem s) (fst b) = fst c /\ load32 (hmem s) (fst b + 4) = snd b.
Proof.
  intros Hr Hk. destruct (chain_at _ _ _ _ _ (rp_chain _ _ Hr) Hk) as [H1 H2]. pose proof (lookup_lt_Some _ _ _ Hk) as Hlt.
  unfold nxt. destruct (Nat.eqb_spec (S k) (length (ring F))) as [E|E].
  - exists (base_addr, 0). split; [done|]. split; [|done]. rewrite H1, drop_ge; [done|]. unfold ring in E. lia.
  - destruct (lookup_lt_is_Some_2 (ring F) (S k)) as [c Hc]; [lia|]. exists c. split; [done|]. split; [|done].
    rewrite H1. unfold ring in Hc. by rewrite (drop_S _ _ _ Hc).
Qed.

Lemma asc_lt lo F j k b c : asc lo F -> F !! j = Some b -> F !! k = Some c -> (j < k)%nat -> fst b + 8 * snd b < fst c.
Proof.
  revert lo j k. induction F as [|d F IH]; intros lo [|j] [|k] H Hb Hc Hjk; simplify_eq/=; try lia; destruct H as (H1 & H2 & H3).
  - apply asc_above in H3. rewrite Forall_lookup in H3. by destruct (H3 _ _ Hc).
  - apply (IH _ _ _ H3 Hb Hc). lia.
Qed.

Lemma ring_lt s F j k b c : rep s F -> ring F !! j = Some b -> ring F !! k = Some c -> (j < k)%nat -> fst b < fst c.
Proof.
  intros Hr Hb Hc Hjk. destruct k as [|k]; [lia|]. simpl in Hc. pose proof (asc_above _ _ (rp_asc _ _ Hr)) as Ha.
  rewrite Forall_lookup in Ha. destruct (Ha _ _ Hc). destruct j as [|j]; simpl in Hb.
  - injection Hb as <-. simpl. lia.
  - pose proof (asc_lt _ _ _ _ _ _ (rp_asc _ _ Hr) Hb Hc ltac:(lia)). destruct (Ha _ _ Hb). lia.
Qed.

(** ** [free] finds the place of a block *)
Section Find.
Context (s : heap) (F1 F2 : list blk) (bp : Z).
Hypothesis Hr : rep s (F1 ++ F2).
Hypothesis Hbp : base_addr < bp.
Hypothesis H1 : Forall (fun b => fst b < bp) F1.
Hypothesis H2 : Forall (fun b => bp < fst b) F2.

Lemma below k b : ring (F1 ++ F2) !! k = Some b -> (k <= length F1)%nat -> fst b < bp.
Proof.
  destruct k as [|k]; simpl; intros Hk Hle; [by injection Hk as <-|]. rewrite lookup_app_l in Hk by lia.
  rewrite Forall_lookup in H1. by eapply H1.
Qed.
Lemma above k b : ring (F1 ++ F2) !! k = Some b -> (length F1 < k)%nat -> bp < fst b.
Proof.
  destruct k as [|k]; simpl; intros Hk Hle; [lia|]. rewrite lookup_app_r in Hk by lia.
  rewrite Forall_lookup in H2. by eapply H2.
Qed.

(** Steps from entry [k] to the one before [bp]. *)
Definition dist (n k i : nat) : nat := (if k <=? i then i - k else n - k + i)%nat.

Lemma wp_free_find p : ring (F1 ++ F2) !! length F1 = Some p -> forall fuel k b (Q : Z -> heap -> Prop),
  ring (F1 ++ F2) !! k = Some b -> (dist (length (ring (F1 ++ F2))) k (length F1) < fuel)%nat ->
  Q (fst p) s -> wp (free_find fuel bp (fst b)) Q s.
Proof.
  intros Hp fuel. induction fuel as [|fuel IH]; intros k b Q Hk Hd HQ; [lia|]. cbn [free_find].
  destruct (ring_next s _ k b Hr Hk) as (c & Hc & Hn & _). wp_step. unfold get_ptr. wp_step. rewrite Hn.
  pose proof (lookup_lt_Some _ _ _ Hk) as Hlt. set (n := length (ring (F1 ++ F2))) in *. unfold nxt in Hc. unfold dist in Hd.
  destruct (Nat.lt_trichotomy k (length F1)) as [Hlt1|[->|Hgt]].
  - (* before the place *)
    rewrite (proj2 (Nat.leb_le _ _)) in Hd by lia.
    assert (S k <> n) as Hne by (apply lookup_lt_Some in Hp; lia). rewrite (proj2 (Nat.eqb_neq _ _)) in Hc by done.
    pose proof (below _ _ Hc ltac:(lia)). pose proof (ring_lt _ _ _ _ _ _ Hr Hk Hc ltac:(lia)).
    replace ((fst b <? bp) && (bp <? fst c)) with false by lia. replace (fst c <=? fst b) with false by lia. cbn [andb].
    apply (IH (S k)); [done| |done]. unfold dist. rewrite (proj2 (Nat.leb_le _ _)) by lia. lia.
  - (* the place *)
    assert (p = b) as -> by congruence. pose proof (below _ _ Hk ltac:(lia)) as Hb.
    destruct (Nat.eqb_spec (S (length F1)) n) as [E|E].
    + injection Hc as <-. simpl. replace ((fst b <? bp) && (bp <? base_addr)) with false by lia.
      destruct (length F1) as [|l] eqn:El; simpl in Hk; [injection Hk as <-; simpl; by replace ((base_addr <=? base_addr) && _) with true by lia|].
      pose proof (ring_lt s _ 0 (S l) (base_addr, 0) b Hr eq_refl Hk ltac:(lia)). simpl in *.
      by replace ((base_addr <=? fst b) && _) with true by lia.
    + pose proof (above _ _ Hc ltac:(lia)). by replace ((fst b <? bp) && (bp <? fst c)) with true by lia.
  - (* after it *)
    rewrite (proj2 (Nat.leb_gt _ _)) in Hd by lia. pose proof (above _ _ Hk Hgt) as Hb.
    replace ((fst b <? bp) && (bp <? fst c)) with false by lia. destruct (Nat.eqb_spec (S k) n) as [E|E].
    + injection Hc as <-. simpl. replace ((base_addr <=? fst b) && ((fst b <? bp) || (bp <? base_addr))) with false by lia.
      apply (IH 0%nat (base_addr, 0)); [done| |done]. unfold dist. simpl. lia.
    + pose proof (ring_lt _ _ _ _ _ _ Hr Hk Hc ltac:(lia)). replace (fst c <=? fst b) with false by lia. cbn [andb].
      apply (IH (S k)); [done| |done]. unfold dist. rewrite (proj2 (Nat.leb_gt _ _)) by lia. lia.
Qed.
End Find.

(** ** [free] joins a block with its neighbours *)

(** The block [(a, n)] joined with the start of [F]: its size, and the rest. *)
Definition join_next (a n : Z) F : Z * list blk :=
  match F with
  | b :: F' => if a + 8 * n =? fst b then (n + snd b, F') else (n, F)
  | [] => (n, [])
  end.

Definition join_code (bp nx : Z) : M heap unit :=
  sz <- get_size bp ;;
  if u32 (bp + sizeof_Header * sz) =? nx then
    ns <- get_size nx ;;
    set_size bp (u32 (sz + ns)) ;;;
    nn <- get_ptr nx ;;
    set_ptr bp nn
  else set_ptr bp nx.

Lemma wp_join_code s F bp n (Q : unit -> heap -> Prop) :
  0 < base_addr < bp -> 1 <= n -> bp + 8 * n <= brk s <= 2 ^ 31 -> asc (bp + 8 * n - 1) F ->
  Forall (fun b => fst b + 8 * snd b <= brk s) F -> chain (hmem s) F base_addr -> load32 (hmem s) (bp + 4) = n ->
  (forall m, chain m ((bp, fst (join_next bp n F)) :: snd (join_next bp n F)) base_addr ->
     (forall x, x < bp \/ bp + 8 <= x -> m x = hmem s x) -> Q tt (set_hmem m s)) ->
  wp (join_code bp (hd_addr F base_addr)) Q s.
Proof.
  intros Hbase Hn Hbrk Hasc Htop Hch Hsz HQ. rewrite pow2_31 in Hbrk. unfold join_code, get_size, get_ptr, set_size, set_ptr, sizeof_Header.
  wp_step. wp_step. rewrite Hsz, u32_small by (rewrite pow2_32; lia). destruct F as [|b F]; cbn [hd_addr].
  { rewrite (proj2 (Z.eqb_neq _ _)) by lia. wp_step. apply HQ; cbn [join_next fst snd chain hd_addr].
    - rewrite load32_store32_eq, load32_store32_ne, u32_small by (rewrite ?pow2_32; lia). done.
    - intros x Hx. apply store32_out. lia. }
  destruct Hasc as (A1 & A2 & A3). apply Forall_cons in Htop as [T1 T2]. destruct Hch as (C1 & C2 & C3). cbn [join_next] in HQ.
  pose proof (asc_above _ _ A3) as Hab.
  destruct (Z.eqb_spec (bp + 8 * n) (fst b)) as [E|E]; cbn [fst snd] in HQ.
  - wp_step. wp_step. rewrite C2. wp_step. wp_step. wp_step. wp_step. cbn [hmem set_hmem].
    rewrite load32_store32_ne, C1, u32_small by (rewrite ?pow2_32; lia).
    assert (0 <= hd_addr F base_addr < 2 ^ 32) as Hh.
    { rewrite pow2_32. destruct F as [|c F]; cbn [hd_addr]; [lia|]. apply Forall_cons in T2 as [T2 _]. apply Forall_cons in Hab as [? _]. lia. }
    wp_step. apply HQ.
    + cbn [chain fst snd hmem set_hmem]. rewrite load32_store32_eq, load32_store32_ne, load32_store32_eq, u32_small, u32_small by (rewrite ?pow2_32; lia).
      split; [done|]. split; [done|]. apply (chain_frame (hmem s)); [|done]. eapply Forall_impl; [exact Hab|]. simpl. intros c Hc x Hx.
      cbn [hmem set_hmem]. rewrite !store32_out by lia. done.
    + intros x Hx. cbn [hmem set_hmem]. rewrite !store32_out by lia. done.
  - wp_step. apply HQ.
    + cbn [chain fst snd hd_addr]. rewrite load32_store32_eq, load32_store32_ne, u32_small by (rewrite ?pow2_32; lia).
      split; [done|]. split; [done|]. rewrite !load32_store32_ne by lia. split; [done|]. split; [done|].
      apply (chain_frame (hmem s)); [|done]. eapply Forall_impl; [exact Hab|]. simpl. intros c Hc x Hx. rewrite store32_out by lia. done.
    + intros x Hx. apply store32_out. lia.
Qed.

Definition link_code (p bp : Z) : M heap unit :=
  ps <- get_size p ;;
  if u32 (p + sizeof_Header * ps) =? bp then
    bs <- get_size bp ;;
    set_size p (u32 (ps + bs)) ;;;
    bn <- get_ptr bp ;;
    set_ptr p bn
  else set_ptr p bp.

(** The end of the list up to [p], and the block [(bp, n)] before [R]. *)
Definition join_prev (p : blk) (bp n : Z) (R : list blk) : list blk :=
  if fst p + 8 * snd p =? bp then (fst p, snd p + n) :: R else p :: (bp, n) :: R.

Lemma wp_link_code s G p bp n R (Q : unit -> heap -> Prop) :
  0 < fst p -> 0 <= snd p -> fst p + 8 <= bp -> fst p + 8 * snd p <= bp -> 1 <= n -> bp + 8 * n <= brk s <= 2 ^ 31 ->
  0 < base_addr < 2 ^ 31 ->
  Forall (fun b => fst b + 8 <= fst p) G -> asc (bp + 8 * n) R -> Forall (fun b => fst b + 8 * snd b <= brk s) R ->
  chain (hmem s) G (fst p) -> load32 (hmem s) (fst p + 4) = snd p -> chain (hmem s) ((bp, n) :: R) base_addr ->
  (forall m, chain m (G ++ join_prev p bp n R) base_addr ->
     (forall x, x < fst p \/ fst p + 8 <= x -> m x = hmem s x) -> Q tt (set_hmem m s)) ->
  wp (link_code (fst p) bp) Q s.
Proof.
  intros Hp Hnp Hpb Hpe Hn Hbrk Hbase HG HR HT HcG Hsz (C1 & C2 & C3) HQ. cbn [fst snd] in C1, C2. rewrite pow2_31 in *.
  unfold link_code, get_size, get_ptr, set_size, set_ptr, sizeof_Header, join_prev in *.
  assert (0 <= hd_addr R base_addr < 2 ^ 32) as Hh.
  { rewrite pow2_32. destruct R as [|c R]; cbn [hd_addr]; [lia|]. destruct HR as (? & ? & _). apply Forall_cons in HT as [? _]. lia. }
  pose proof (asc_above _ _ HR) as Hab. rewrite pow2_32 in Hh.
  wp_step. wp_step. rewrite Hsz, u32_small by (rewrite pow2_32; lia).
  assert (forall v w, chain (store32 (store32 (hmem s) (fst p + 4) v) (fst p) w) R base_addr) as HcR.
  { intros v w. apply (chain_frame (hmem s)); [|done]. eapply Forall_impl; [exact Hab|]. simpl. intros c Hc x Hx.
    rewrite !store32_out by lia. done. }
  destruct (Z.eqb_spec (fst p + 8 * snd p) bp) as [E|E].
  - wp_step. wp_step. rewrite C2. wp_step. wp_step. wp_step. wp_step. cbn [hmem set_hmem].
    rewrite load32_store32_ne, C1, u32_small by (rewrite ?pow2_32; lia). wp_step. apply HQ; cbn [hmem set_hmem].
    + apply chain_app. split.
      * apply (chain_frame (hmem s)); [|done]. eapply Forall_impl; [exact HG|]. simpl. intros c Hc x Hx. rewrite !store32_out by lia. done.
      * cbn [chain fst snd]. rewrite load32_store32_eq, load32_store32_ne, load32_store32_eq, !u32_small by (rewrite ?pow2_32; lia). done.
    + intros x Hx. rewrite !store32_out by lia. done.
  - wp_step. apply HQ; cbn [hmem set_hmem].
    + apply chain_app. split.
      * apply (chain_frame (hmem s)); [|done]. eapply Forall_impl; [exact HG|]. simpl. intros c Hc x Hx. rewrite !store32_out by lia. done.
      * cbn [chain fst snd hd_addr]. rewrite load32_store32_eq, u32_small by (rewrite ?pow2_32; lia). rewrite !load32_store32_ne by lia.
        split; [done|]. split; [done|]. split; [done|]. split; [done|]. apply (chain_frame (hmem s)); [|done].
        eapply Forall_impl; [exact Hab|]. simpl. intros c Hc x Hx. rewrite !store32_out by lia. done.
    + intros x Hx. rewrite !store32_out by lia. done.
Qed.

(** ** The law of [free] *)
Lemma covered_app F1 F2 z : covered (F1 ++ F2) z <-> covered F1 z \/ covered F2 z.
Proof. apply Exists_app. Qed.
Lemma covered_cons b F z : covered (b :: F) z <-> fst b <= z < fst b + 8 * snd b \/ covered F z.
Proof. apply Exists_cons. Qed.

Lemma join_next_spec a n F : 1 <= n -> asc (a + 8 * n - 1) F ->
  let (n', R) := join_next a n F in
  n <= n' /\ asc (a + 8 * n') R /\ (length R <= length F)%nat /\
  (forall z, a <= z < a + 8 * n' \/ covered R z <-> a <= z < a + 8 * n \/ covered F z) /\
  (forall top, a + 8 * n <= top -> Forall (fun b => fst b + 8 * snd b <= top) F ->
     a + 8 * n' <= top /\ Forall (fun b => fst b + 8 * snd b <= top) R).
Proof.
  intros Hn HF. destruct F as [|b F]; cbn [join_next].
  { split_and!; [lia|done|done|done|]. intros top ? ?. split; [lia|done]. }
  destruct HF as (A1 & A2 & A3). destruct (Z.eqb_spec (a + 8 * n) (fst b)) as [E|E].
  - replace (a + 8 * (n + snd b)) with (fst b + 8 * snd b) by lia. split_and!; [lia|done|simpl; lia| |].
    + intros z. rewrite covered_cons. split; intros [H|H]; [destruct (Z_lt_dec z (fst b)); [left; lia|right; left; lia]|by right; right| |].
      * left. lia.
      * destruct H as [H|H]; [left; lia|by right].
    + intros top Ht HT. by apply Forall_cons in HT.
  - split_and!; [lia| |done|done|].
    + cbn [asc]. split; [lia|done].
    + intros top Ht HT. split; [lia|done].
Qed.

Lemma join_prev_covered p bp n R z : 0 <= snd p -> 0 <= n -> fst p + 8 * snd p <= bp ->
  covered (join_prev p bp n R) z <-> covered (p :: (bp, n) :: R) z.
Proof.
  intros Hp Hn Hle. unfold join_prev. destruct (Z.eqb_spec (fst p + 8 * snd p) bp) as [E|E]; [|done].
  rewrite !covered_cons. cbn [fst snd]. split; intros H.
  - destruct H as [H|H]; [destruct (Z_lt_dec z bp); [left; lia|right; left; lia]|by right; right].
  - destruct H as [H|[H|H]]; [left; lia|left; lia|by right].
Qed.

(** What [free] of the block [(bp, n)] makes of the list [F]. *)
Record freed (F : list blk) (bp n : Z) (F' : list blk) : Prop := {
  fr_asc : asc (base_addr + 7) F';
  fr_covered : forall z, covered F' z <-> covered F z \/ bp <= z < bp + 8 * n;
  fr_top : forall top, bp + 8 * n <= top -> Forall (fun b => fst b + 8 * snd b <= top) F -> Forall (fun b => fst b + 8 * snd b <= top) F';
  fr_large : Exists (fun b => n <= snd b) F';
  fr_length : (length F' <= S (length F))%nat;
}.

(** The list with the block put in after [p], the last of [(base, 0) :: F1]. *)
Lemma freed_insert F1 F2 G p bp n : asc (base_addr + 7) (F1 ++ F2) -> ring F1 = G ++ [p] -> 1 <= n -> base_addr + 8 <= bp ->
  Forall (fun b => fst b + 8 * snd b <= bp) F1 -> Forall (fun b => bp + 8 * n <= fst b) F2 ->
  exists F', ring F' = G ++ join_prev p bp (fst (join_next bp n F2)) (snd (join_next bp n F2)) /\
    freed (F1 ++ F2) bp n F' /\ fst p ∈ base_addr :: (fst <$> F').
Proof.
  intros Hasc HG Hn Hbp H1 H2. apply asc_app in Hasc as [A1 A2].
  pose proof (asc_from _ _ _ A2 H2) as A2'.
  pose proof (join_next_spec bp n F2 Hn A2') as Hj. destruct (join_next bp n F2) as [n' R]. cbn [fst snd].
  destruct Hj as (J1 & J2 & J3 & J4 & J5). destruct G as [|g G]; cbn [app ring] in HG.
  - injection HG as <- ->. unfold join_prev. cbn [fst snd]. rewrite (proj2 (Z.eqb_neq _ _)) by lia.
    exists ((bp, n') :: R). split; [done|]. split; [|by left]. constructor.
    + cbn [asc fst snd]. split; [lia|]. split; [lia|done].
    + intros z. rewrite covered_cons. cbn [fst snd app]. rewrite (J4 z). tauto.
    + intros top Ht HT. destruct (J5 top Ht HT). by constructor.
    + by left.
    + simpl. lia.
  - injection HG as <- ->. apply asc_app in A1 as [A0 (A3 & A4 & _)]. apply Forall_app in H1 as [H0 H3].
    apply Forall_cons in H3 as [H3 _]. exists (G ++ join_prev p bp n' R). split; [done|]. rewrite ends_snoc in A2. split.
    + constructor.
      * apply asc_app. split; [done|]. unfold join_prev. destruct (Z.eqb_spec (fst p + 8 * snd p) bp) as [E|E]; cbn [asc fst snd].
        -- split; [done|]. split; [lia|]. by replace (fst p + 8 * (snd p + n')) with (bp + 8 * n') by lia.
        -- split; [done|]. split; [done|]. split; [lia|]. split; [lia|done].
      * intros z. rewrite covered_app, join_prev_covered, !covered_cons, !covered_app, covered_cons by lia. cbn [fst snd].
        pose proof (J4 z). assert (covered [] z <-> False) as -> by apply Exists_nil. tauto.
      * intros top Ht HT. rewrite <- app_assoc in HT. apply Forall_app in HT as [HT1 HT2]. apply Forall_app in HT2 as [HT2 HT3].
        apply Forall_cons in HT2 as [HT2 _]. destruct (J5 top Ht HT3) as [J6 J7]. apply Forall_app. split; [done|].
        unfold join_prev. destruct (Z.eqb_spec (fst p + 8 * snd p) bp) as [E|E]; repeat (constructor; [simpl; lia|]); done.
      * apply Exists_app. right. unfold join_prev. destruct (_ =? _); [left; simpl; lia|right; by left].
      * rewrite !length_app. unfold join_prev. destruct (_ =? _); simpl; lia.
    + right. rewrite fmap_app. apply elem_of_app. right. unfold join_prev. destruct (_ =? _); by left.
Qed.

Lemma free_code ap : free ap =
  (p <- gets freep ;; p <- free_find rounds (u32 (ap - sizeof_Header)) p ;; n <- get_ptr p ;;
   join_code (u32 (ap - sizeof_Header)) n ;;; (link_code p (u32 (ap - sizeof_Header)) ;;; modify (set_freep p))).
Proof. reflexivity. Qed.

Lemma rep_freep s F : rep s F -> exists k b, ring F !! k = Some b /\ freep s = fst b.
Proof.
  intros Hr. pose proof (rp_freep _ _ Hr) as Hin. change (freep s ∈ fst <$> ring F) in Hin.
  apply list_elem_of_fmap in Hin as (b & -> & Hin). apply list_elem_of_lookup in Hin as [k Hk]. eauto.
Qed.

(** Nothing but the header of [base] and free blocks differs. *)
Definition same_but (F : list blk) (m m' : memory) : Prop :=
  forall z, ~ (base_addr <= z < base_addr + 8) -> ~ covered F z -> m' z = m z.

(** The headers before and after the place of [bp]. *)
Lemma rep_split s F1 F2 bp G p : rep s (F1 ++ F2) -> ring F1 = G ++ [p] -> base_addr + 8 <= bp ->
  Forall (fun b => fst b + 8 * snd b <= bp) F1 ->
  chain (hmem s) G (fst p) /\ load32 (hmem s) (fst p) = hd_addr F2 base_addr /\ load32 (hmem s) (fst p + 4) = snd p /\
  chain (hmem s) F2 base_addr /\ ring (F1 ++ F2) !! length F1 = Some p /\ base_addr <= fst p /\ fst p + 8 <= bp /\
  0 <= snd p /\ fst p + 8 * snd p <= bp /\ Forall (fun b => fst b + 8 <= fst p) G /\
  (forall z, fst p <= z < fst p + 8 -> base_addr <= z < base_addr + 8 \/ covered (F1 ++ F2) z).
Proof.
  intros Hr HG Hbp H1. pose proof (rp_chain _ _ Hr) as Hc. change (chain (hmem s) (ring F1 ++ F2) base_addr) in Hc.
  rewrite HG in Hc. rewrite <- app_assoc in Hc. apply chain_app in Hc as [C1 C2]. destruct C2 as (C2 & C3 & C4).
  split; [done|]. split; [done|]. split; [done|]. split; [done|].
  assert (length G = length F1) as HL by (apply (f_equal length) in HG; rewrite length_app in HG; simpl in HG; lia).
  assert (ring (F1 ++ F2) = G ++ p :: F2) as HR by (change (ring F1 ++ F2 = G ++ p :: F2); by rewrite HG, <- app_assoc).
  split; [by rewrite HR, <- HL, list_lookup_middle|].
  pose proof (rp_asc _ _ Hr) as Ha. apply asc_app in Ha as [Ha _]. destruct G as [|g G]; cbn [app ring] in HG.
  - injection HG as <- ->. cbn [fst snd]. split_and!; [lia..|constructor|]. intros z Hz. by left.
  - injection HG as <- ->. apply asc_app in Ha as [A1 A2]. pose proof (asc_above _ _ A1) as Hab. destruct A2 as (A2 & A3 & _).
    apply Forall_app in H1 as [_ H1]. apply Forall_cons in H1 as [H1 _].
    assert (base_addr + 7 < fst p /\ Forall (fun b => fst b + 8 <= fst p) G) as [HA HB].
    { destruct (asc_ends _ _ A1) as [I1 I2]. split; [lia|]. eapply Forall_impl; [exact I2|]. simpl. intros b ?. lia. }
    split_and!; [lia..| |].
    + constructor; [simpl; lia|done].
    + intros z Hz. right. rewrite covered_app, covered_app, covered_cons. left. right. left. lia.
Qed.

Lemma wp_free s F bp n (Q : unit -> heap -> Prop) :
  rep s F -> base_addr + 8 <= bp -> 1 <= n -> bp + 8 * n <= brk s -> apart F bp n -> load32 (hmem s) (bp + 4) = n ->
  (length F < rounds)%nat ->
  (forall m p F', rep (mk_heap m p (brk s)) F' -> freed F bp n F' -> same_but F' (hmem s) m -> Q tt (mk_heap m p (brk s))) ->
  wp (free (bp + 8)) Q s.
Proof.
  intros Hr Hbp Hn Htop Hap Hsz Hf HQ. destruct (split_at _ _ _ _ (rp_asc _ _ Hr) Hap Hn) as (F1 & F2 & -> & H1 & H2).
  destruct (exists_last (l := ring F1)) as (G & p & HG); [done|].
  destruct (rep_split s F1 F2 bp G p Hr HG Hbp H1) as (C1 & C2 & C3 & C4 & Cp & P1 & P2 & P3 & P4 & P5 & P6).
  pose proof (rp_brk _ _ Hr) as Hbrk. rewrite pow2_31 in Hbrk. pose proof (rp_base _ _ Hr) as Hbase.
  pose proof (rp_asc _ _ Hr) as Hasc. pose proof (rp_top _ _ Hr) as HT. pose proof HT as HT2. apply Forall_app in HT2 as [_ HT2].
  destruct (freed_insert F1 F2 G p bp n Hasc HG Hn Hbp H1 H2) as (F' & HF' & HFr & Hin).
  pose proof (asc_from _ _ _ (proj2 (proj1 (asc_app _ _ _) Hasc)) H2) as A2.
  pose proof (join_next_spec bp n F2 Hn A2) as J. destruct (join_next bp n F2) as [n' R] eqn:EJ. destruct J as (J1 & J2 & _ & _ & J5).
  destruct (J5 _ Htop HT2) as [J6 J7]. cbn [fst snd] in HF'.
  rewrite free_code. unfold sizeof_Header. replace (bp + 8 - 8) with bp by lia. rewrite u32_small by (rewrite pow2_32; lia).
  destruct (rep_freep _ _ Hr) as (k & b & Hk & Hb). wp_step. wp_step. rewrite Hb. wp_step.
  apply (wp_free_find s F1 F2 bp Hr ltac:(lia)) with (p := p) (k := k); [| |done|done| |].
  { eapply Forall_impl; [apply Forall_and; split; [exact H1|]|].
    - apply (asc_above _ _ (proj1 (proj1 (asc_app _ _ _) Hasc))).
    - simpl. intros c ?. lia. }
  { eapply Forall_impl; [exact H2|]. simpl. intros c ?. lia. }
  { pose proof (lookup_lt_Some _ _ _ Hk). unfold dist, ring in *. cbn [length] in *. rewrite length_app in *. destruct (Nat.leb_spec k (length F1)); lia. }
  wp_step. unfold get_ptr. wp_step. rewrite C2. wp_step. apply (wp_join_code s F2 bp n); try done; [lia|rewrite pow2_31; lia|].
  intros m1 M1 M2. rewrite EJ in M1. cbn [fst snd] in M1. wp_step.
  apply (wp_link_code _ G p bp n' R); cbn [hmem set_hmem brk]; try done; try (rewrite ?pow2_31; lia).
  { apply (chain_frame (hmem s)); [|done]. eapply Forall_impl; [exact P5|]. simpl. intros c Hc x Hx. apply M2. lia. }
  { rewrite <- C3. apply load32_agree. intros x Hx. apply M2. lia. }
  intros m2 N1 N2. wp_step. cbn [hmem set_hmem set_freep brk] in *. apply (HQ m2 (fst p) F'); [|done|].
  - constructor; cbn [hmem freep brk]; [by change ((base_addr, 0) :: F') with (ring F'); rewrite HF'|apply HFr| |rewrite pow2_31; lia|done|done].
    by apply (fr_top _ _ _ _ HFr).
  - intros z Hz Hc. rewrite (fr_covered _ _ _ _ HFr) in Hc. rewrite N2, M2; [done|lia|].
    destruct (Z_le_dec (fst p) z); [|lia]. destruct (Z_lt_dec z (fst p + 8)); [|lia]. destruct (P6 z); [lia|tauto|tauto].
Qed.

(** ** [malloc] takes a block of the list *)

(** The block [(r, n)] has come out of [F], or of the memory between the break
    of [s] and that of [s']. *)
Record got (s : heap) F (n r : Z) (s' : heap) F' : Prop := {
  gt_rep : rep s' F';
  gt_header : load32 (hmem s') (r + 4) = n;
  gt_range : base_addr + 8 <= r /\ r + 8 * n <= brk s' /\ brk s <= brk s';
  gt_covered : forall z, covered F' z \/ r <= z < r + 8 * n <-> covered F z \/ brk s <= z < brk s';
  gt_apart : forall z, covered F' z -> ~ (r <= z < r + 8 * n);
  gt_same : forall z, z < brk s -> ~ (base_addr <= z < base_addr + 8) -> ~ covered F' z -> ~ (r <= z < r + 8 * n) ->
    hmem s' z = hmem s z;
}.

Lemma covered_asc lo F z : asc lo F -> covered F z -> lo < z.
Proof.
  intros Ha%asc_above Hc. unfold covered in Hc. rewrite Exists_exists in Hc. destruct Hc as (b & Hb & Hz).
  rewrite Forall_forall in Ha. specialize (Ha b Hb). lia.
Qed.
Lemma covered_top top F z : Forall (fun b => fst b + 8 * snd b <= top) F -> covered F z -> z < top.
Proof.
  intros Ha Hc. unfold covered in Hc. rewrite Exists_exists in Hc. destruct Hc as (b & Hb & Hz).
  rewrite Forall_forall in Ha. specialize (Ha b Hb). simpl in Ha. lia.
Qed.
Lemma asc_ends_lt lo F b : asc lo (F ++ [b]) -> Forall (fun c => fst c + 8 * snd c <= fst b) F.
Proof.
  revert lo. induction F as [|c F IH]; intros lo; cbn [asc app]; [constructor|]. intros (H1 & H2 & H3). constructor; [|by eapply IH].
  apply asc_above in H3. apply Forall_app in H3 as [_ H3]. apply Forall_cons in H3 as [? _]. lia.
Qed.
Lemma ends_covered lo F z : asc lo F -> covered F z -> z < ends lo F.
Proof.
  revert lo. induction F as [|b F IH]; intros lo; cbn [asc]; [by intros _ ?%Exists_nil|]. intros (A1 & A2 & A3).
  rewrite covered_cons, ends_cons. intros [H|H]; [|by apply IH]. pose proof (proj1 (asc_ends _ _ A3)). lia.
Qed.

Section Take.
Context (s : heap) (F1 F2 G : list blk) (p b : blk) (n : Z).
Hypothesis Hr : rep s (F1 ++ b :: F2).
Hypothesis HG : ring F1 = G ++ [p].
Hypothesis Hn : 1 <= n <= snd b.

Lemma take_facts : base_addr + 8 <= fst b /\ Forall (fun c => fst c + 8 * snd c <= fst b) F1 /\ asc (base_addr + 7) F1 /\
  ends (base_addr + 7) F1 < fst b /\ asc (fst b + 8 * snd b) F2 /\ fst b + 8 * snd b <= brk s /\
  Forall (fun c => fst c + 8 * snd c <= brk s) F1 /\ Forall (fun c => fst c + 8 * snd c <= brk s) F2.
Proof.
  pose proof (rp_asc _ _ Hr) as Ha. pose proof (asc_above _ _ Ha) as Hab. apply Forall_app in Hab as [_ [? _]%Forall_cons].
  pose proof (rp_top _ _ Hr) as [T1 [T2 T3]%Forall_cons]%Forall_app. split; [lia|]. split.
  { apply (asc_ends_lt (base_addr + 7)). apply asc_app. apply asc_app in Ha as (? & ? & ? & ?). split; [done|]. by split_and!. }
  apply asc_app in Ha as (? & ? & ? & ?). by split_and!.
Qed.

(** The whole block. *)
Lemma take_all : snd b = n -> forall m', m' = store32 (hmem s) (fst p) (hd_addr F2 base_addr) ->
  got s (F1 ++ b :: F2) n (fst b) (mk_heap m' (fst p) (brk s)) (F1 ++ F2).
Proof.
  intros <- m' ->. destruct take_facts as (B1 & B2 & B3 & B4 & B5 & B6 & B7 & B8). pose proof (rp_brk _ _ Hr) as Hbrk. rewrite pow2_31 in Hbrk.
  destruct (rep_split s F1 (b :: F2) (fst b) G p Hr HG B1 B2) as (C1 & C2 & C3 & C4 & Cp & P1 & P2 & P3 & P4 & P5 & P6).
  pose proof (rp_base _ _ Hr) as Hbase. destruct C4 as (C4 & C5 & C6). pose proof (asc_above _ _ B5) as Hab.
  assert (0 <= hd_addr F2 base_addr < 2 ^ 32) as Hh.
  { rewrite pow2_32. destruct F2 as [|c F2']; cbn [hd_addr]; [lia|]. apply Forall_cons in B8 as [? _]. apply Forall_cons in Hab as [? _]. lia. }
  constructor; cbn [hmem brk].
  - constructor; cbn [hmem brk freep]; [|apply asc_app; split; [done|]|by apply Forall_app|rewrite pow2_31; lia|done|].
    + change (chain (store32 (hmem s) (fst p) (hd_addr F2 base_addr)) (ring F1 ++ F2) base_addr). rewrite HG, <- app_assoc.
      apply chain_app. split; [|cbn [app chain]; split_and!].
      * apply (chain_frame (hmem s)); [|done]. eapply Forall_impl; [exact P5|]. simpl. intros c Hc x Hx. apply store32_out. lia.
      * by rewrite load32_store32_eq, u32_small.
      * by rewrite load32_store32_ne by lia.
      * apply (chain_frame (hmem s)); [|done]. eapply Forall_impl; [exact Hab|]. simpl. intros c Hc x Hx. apply store32_out. lia.
    + apply asc_weaken with (fst b + 8 * snd b); [lia|done].
    + change (fst p ∈ fst <$> (ring F1 ++ F2)). rewrite HG, !fmap_app. apply elem_of_app. left. apply elem_of_app. right. by left.
  - by rewrite load32_store32_ne by lia.
  - lia.
  - intros z. rewrite !covered_app, covered_cons. split; [tauto|]. intros [?|?]; [tauto|lia].
  - intros z [Hz|Hz]%covered_app; [pose proof (ends_covered _ _ _ B3 Hz)|pose proof (covered_asc _ _ _ B5 Hz)]; lia.
  - intros z _ Hz Hc Hb. apply store32_out. destruct (Z_le_dec (fst p) z); [|lia]. destruct (Z_lt_dec z (fst p + 4)); [|lia].
    destruct (P6 z) as [|Hz']; [lia|done|]. rewrite covered_app in Hc. rewrite covered_app, covered_cons in Hz'. tauto.
Qed.

(** Its tail. *)
Lemma take_tail : n < snd b -> forall m', m' = store32 (store32 (hmem s) (fst b + 4) (snd b - n)) (fst b + 8 * (snd b - n) + 4) n ->
  got s (F1 ++ b :: F2) n (fst b + 8 * (snd b - n)) (mk_heap m' (fst p) (brk s)) (F1 ++ (fst b, snd b - n) :: F2).
Proof.
  intros Hlt m' ->. destruct take_facts as (B1 & B2 & B3 & B4 & B5 & B6 & B7 & B8). pose proof (rp_brk _ _ Hr) as Hbrk. rewrite pow2_31 in Hbrk.
  destruct (rep_split s F1 (b :: F2) (fst b) G p Hr HG B1 B2) as (C1 & C2 & C3 & C4 & Cp & P1 & P2 & P3 & P4 & P5 & P6).
  pose proof (rp_base _ _ Hr) as Hbase. destruct C4 as (C4 & C5 & C6). pose proof (asc_above _ _ B5) as Hab.
  constructor; cbn [hmem brk].
  - constructor; cbn [hmem brk freep]; [|apply asc_app; split; [done|]|apply Forall_app; split; [done|constructor; [simpl; lia|done]]|rewrite pow2_31; lia|done|].
    + match goal with |- chain ?m _ _ => change (chain m (ring F1 ++ (fst b, snd b - n) :: F2) base_addr) end. rewrite HG, <- app_assoc.
      apply chain_app. cbn [app chain hd_addr fst snd] in *. split_and!.
      * apply (chain_frame (hmem s)); [|done]. eapply Forall_impl; [exact P5|]. simpl. intros c Hc x Hx. rewrite !store32_out by lia. done.
      * by rewrite !load32_store32_ne by lia.
      * by rewrite !load32_store32_ne by lia.
      * by rewrite !load32_store32_ne by lia.
      * rewrite load32_store32_ne, load32_store32_eq, u32_small by (rewrite ?pow2_32; lia). done.
      * apply (chain_frame (hmem s)); [|done]. eapply Forall_impl; [exact Hab|]. simpl. intros c Hc x Hx. rewrite !store32_out by lia. done.
    + cbn [asc fst snd]. split; [lia|]. split; [lia|]. apply asc_weaken with (fst b + 8 * snd b); [lia|done].
    + match goal with |- _ ∈ ?l => change (fst p ∈ fst <$> (ring F1 ++ (fst b, snd b - n) :: F2)) end.
      rewrite HG, !fmap_app. apply elem_of_app. left. apply elem_of_app. right. by left.
  - rewrite load32_store32_eq, u32_small by (rewrite ?pow2_32; lia). done.
  - lia.
  - intros z. rewrite !covered_app, !covered_cons. cbn [fst snd]. split.
    + intros [[?|[?|?]]|?]; [tauto|left; right; left; lia|tauto|left; right; left; lia].
    + intros [[?|[?|?]]|?]; [tauto| |tauto|lia]. destruct (Z_lt_dec z (fst b + 8 * (snd b - n))); [left; right; left; lia|right; lia].
  - intros z [Hz|[Hz|Hz]%covered_cons]%covered_app; [pose proof (ends_covered _ _ _ B3 Hz)|simpl in Hz|pose proof (covered_asc _ _ _ B5 Hz)]; lia.
  - intros z _ Hz Hc Hb. rewrite covered_app, covered_cons in Hc. cbn [fst snd] in Hc. rewrite !store32_out; [done|lia|].
    destruct (Z_le_dec (fst b) z); [|lia]. destruct (Z_lt_dec z (fst b + 8)); [|lia]. exfalso. apply Hc. right. left. lia.
Qed.
End Take.

(** The loop has come to a block that is large enough. *)
Lemma wp_take sbrk s F n kp a b fuel (Q : Z -> heap -> Prop) :
  rep s F -> 1 <= n -> ring F !! kp = Some a -> ring F !! nxt (length (ring F)) kp = Some b -> n <= snd b ->
  (forall r s' F', got s F n r s' F' -> Q (r + 8) s') -> wp (malloc_loop sbrk (S fuel) n (fst a) (fst b)) Q s.
Proof.
  intros Hr Hn Ha Hb Hle HQ. pose proof (lookup_lt_Some _ _ _ Ha) as Hlt. unfold nxt in Hb.
  destruct (Nat.eqb_spec (S kp) (length (ring F))) as [E|E]; [injection Hb as <-; simpl in Hle; lia|].
  pose proof (ring_next s F (S kp) b Hr Hb) as (c & Hc & H1 & H2). simpl in Hb.
  rewrite <- (take_drop_middle F kp b Hb) in Hr, HQ. set (F1 := take kp F) in *. set (F2 := drop (S kp) F) in *.
  assert (length F1 = kp) as HL by (unfold F1; apply lookup_lt_Some in Hb; rewrite length_take; lia).
  destruct (exists_last (l := ring F1)) as (G & p & HG); [done|].
  destruct (take_facts s F1 F2 b Hr) as (B1 & B2 & _ & _ & B5 & B6 & _ & B8).
  destruct (rep_split s F1 (b :: F2) (fst b) G p Hr HG B1 B2) as (_ & _ & _ & C4 & Cp & _ & P2 & _). destruct C4 as (C4 & C5 & C6).
  assert (a = p) as ->. { rewrite HL in Cp. unfold F1, F2 in Cp. rewrite take_drop_middle in Cp by done. congruence. }
  pose proof (rp_brk _ _ Hr) as Hbrk. rewrite pow2_31 in Hbrk. pose proof (rp_base _ _ Hr) as Hbase.
  cbn [malloc_loop]. unfold get_size, get_ptr, set_size, set_ptr, sizeof_Header. wp_step. wp_step. rewrite H2.
  rewrite (proj2 (Z.leb_le _ _)) by done. wp_step. destruct (Z.eqb_spec (snd b) n) as [En|En].
  - wp_step. wp_step. wp_step. wp_step. wp_step. wp_step. wp_step. wp_step. rewrite u32_small by (rewrite pow2_32; lia). rewrite C4.
    eapply HQ. apply (take_all s F1 F2 G p b n Hr HG); [lia|done|done].
  - wp_step. wp_step. wp_step. wp_step. wp_step. wp_step. wp_step. wp_step.
    rewrite (u32_small (fst b + 8 * (snd b - n))), u32_small by (rewrite ?pow2_32; lia). eapply HQ. apply (take_tail s F1 F2 G p b n Hr HG); [lia|lia|done].
Qed.

Lemma dist_nxt n k j : (k < n)%nat -> (j < n)%nat -> j <> k -> dist n (nxt n k) j = (dist n k j - 1)%nat /\ (0 < dist n k j)%nat.
Proof.
  intros Hk Hj Hne. unfold dist, nxt. destruct (Nat.eqb_spec (S k) n), (Nat.leb_spec k j); try lia.
  - destruct (Nat.leb_spec 0 j); lia.
  - destruct (Nat.leb_spec (S k) j); lia.
  - destruct (Nat.leb_spec (S k) j); lia.
Qed.

(** The search goes once around the list, from after entry [kp] to that of
    [freep]; then memory is asked for. *)
Lemma wp_search sbrk s F n f c (Q : Z -> heap -> Prop) :
  rep s F -> 1 <= n -> ring F !! f = Some c -> freep s = fst c ->
  (forall r s' F', got s F n r s' F' -> Q (r + 8) s') ->
  forall fuel kp a b, ring F !! kp = Some a -> ring F !! nxt (length (ring F)) kp = Some b ->
  (dist (length (ring F)) (nxt (length (ring F)) kp) f < fuel)%nat ->
  (forall fuel', (fuel <= fuel' + S (dist (length (ring F)) (nxt (length (ring F)) kp) f))%nat ->
     (forall j d, ring F !! j = Some d ->
        (dist (length (ring F)) (nxt (length (ring F)) kp) j <= dist (length (ring F)) (nxt (length (ring F)) kp) f)%nat -> snd d < n) ->
     wp (p <- morecore sbrk n ;; if p =? 0 then ret 0 else q <- get_ptr p ;; malloc_loop sbrk fuel' n p q) Q s) ->
  wp (malloc_loop sbrk fuel n (fst a) (fst b)) Q s.
Proof.
  intros Hr Hn Hf Hfp HQ fuel. set (N := length (ring F)) in *. pose proof (lookup_lt_Some _ _ _ Hf) as HfN. fold N in HfN.
  induction fuel as [|fuel IH]; intros kp a b Ha Hb Hd Hm; [lia|].
  destruct (Z_le_dec n (snd b)) as [Hle|Hgt]; [by eapply wp_take|]. cbn [malloc_loop].
  pose proof (lookup_lt_Some _ _ _ Hb) as HbN. fold N in HbN. destruct (ring_next s F _ b Hr Hb) as (d & Hd1 & H1 & H2).
  unfold get_size at 1. wp_step. wp_step. rewrite H2, (proj2 (Z.leb_gt _ _)) by lia. wp_step. wp_step. rewrite Hfp.
  destruct (decide (nxt N kp = f)) as [E|E].
  - assert (b = c) as -> by congruence. rewrite Z.eqb_refl. apply Hm.
    + lia.
    + intros j e Hj. rewrite E. unfold dist at 2. rewrite Nat.leb_refl, Nat.sub_diag. intros Hle.
      assert (j = f) as -> by (apply lookup_lt_Some in Hj; unfold dist in Hle; destruct (Nat.leb_spec f j); fold N in Hj; lia).
      assert (e = c) as -> by congruence. lia.
  - rewrite (proj2 (Z.eqb_neq _ _)).
    2:{ intros Heq. apply Nat.lt_gt_cases in E as [E|E]; [pose proof (ring_lt s F _ _ _ _ Hr Hb Hf E)|pose proof (ring_lt s F _ _ _ _ Hr Hf Hb E)]; lia. }
    unfold get_ptr. wp_step. wp_step. rewrite H1. destruct (dist_nxt N (nxt N kp) f HbN HfN ltac:(done)) as [D1 D2].
    apply (IH (nxt N kp)); [done|done|lia|]. fold N. intros fuel' Hle Hsmall. apply Hm; [lia|].
    intros j e Hj Hjd. destruct (decide (j = nxt N kp)) as [->|Hne]; [assert (e = b) as -> by congruence; lia|].
    apply (Hsmall j e Hj). pose proof (lookup_lt_Some _ _ _ Hj) as HjN. fold N in HjN. destruct (dist_nxt N (nxt N kp) j HbN ltac:(done) ltac:(done)). lia.
Qed.
End Heap.
