(* ===== verification/UmallocSpec.v ===== *)
(** * What [malloc] and [free] promise

    The heap is tiled by the blocks handed out and the free blocks.  The client
    may write to the blocks it has; [malloc] hands out a block of memory that
    was free or new, [free] takes one back, and neither changes a byte of any
    other block handed out.  Memory comes from [sbrk], by the interface
    [Sbrk]. *)
From Stdlib Require Import ZArith Lia Bool.
From stdpp Require Import base numbers list strings.
From S2P Require Import Prelude Machine Umalloc UmallocProps.
Implicit Types F A : list blk.

(** [sbrk n] for a positive [n]: it fails and nothing changes, or the break
    moves up by [n], below [KERNBASE], and the old break is returned. *)
Class Sbrk (sbrk : Z -> M heap Z) : Prop :=
  sbrk_grows : forall n s (Q : Z -> heap -> Prop), 0 < n -> 0 < brk s -> Q (-1) s ->
    (forall m, brk s + n <= KERNBASE -> (forall z, z < brk s -> m z = hmem s z) -> Q (brk s) (mk_heap m (freep s) (brk s + n))) ->
    wp (sbrk n) Q s.

Section Spec.
Context {HI : HeapImage} (sbrk : Z -> M heap Z) {HS : Sbrk sbrk}.

(** ** More memory *)
Record grown (s : heap) F (n : Z) (s' : heap) F' : Prop := {
  gr_rep : rep s' F';
  gr_brk : brk s <= brk s';
  gr_covered : forall z, covered F' z <-> covered F z \/ brk s <= z < brk s';
  gr_same : forall z, z < brk s -> ~ (base_addr <= z < base_addr + 8) -> ~ covered F' z -> hmem s' z = hmem s z;
  gr_large : Exists (fun b => n <= snd b) F';
  gr_length : (length F' <= S (length F))%nat;
}.

Lemma rep_grow s F m p b : rep s F -> brk s <= b <= 2 ^ 31 -> (forall z, z < brk s -> m z = hmem s z) -> p = freep s ->
  rep (mk_heap m p b) F.
Proof.
  intros Hr Hb Hm ->. pose proof (rp_brk _ _ Hr). pose proof (rp_top _ _ Hr) as HT. pose proof (asc_above _ _ (rp_asc _ _ Hr)) as Hab.
  assert (Forall (fun c => fst c + 8 <= brk s) F) as H8.
  { rewrite Forall_forall in HT, Hab |- *. intros c Hc. specialize (HT c Hc). specialize (Hab c Hc). simpl in *. lia. }
  constructor; cbn [hmem freep brk]; [|apply Hr| |lia|apply Hr|apply Hr].
  - apply (chain_frame (hmem s)); [|apply Hr]. constructor; [simpl; intros x Hx; apply Hm; lia|].
    eapply Forall_impl; [exact H8|]. simpl. intros c Hc x Hx. apply Hm. lia.
  - eapply Forall_impl; [exact HT|]. simpl. intros c ?. lia.
Qed.

Lemma wp_morecore s F n (Q : Z -> heap -> Prop) : rep s F -> 1 <= n -> 8 * n < 2 ^ 31 -> (length F < rounds)%nat -> Q 0 s ->
  (forall s' F', grown s F n s' F' -> Q (freep s') s') -> wp (morecore sbrk n) Q s.
Proof.
  intros Hr Hn Hlt Hf HQ0 HQ. unfold morecore, sizeof_Header. cbv zeta.
  assert (exists nu, (if n <? 4096 then 4096 else n) = nu /\ n <= nu /\ 1 <= nu /\ 8 * nu < 2 ^ 31) as (nu & -> & H1 & H2 & H3).
  { destruct (Z.ltb_spec n 4096); eexists; (split; [done|]); rewrite ?pow2_31 in *; lia. }
  pose proof (rp_brk _ _ Hr) as Hbrk. pose proof (rp_base _ _ Hr) as Hbase. rewrite pow2_31 in *.
  rewrite u32_small, i32_small by (rewrite ?pow2_32, ?pow2_31; lia). wp_step. apply sbrk_grows; [lia|lia| |].
  { rewrite Z.eqb_refl. by wp_step. }
  intros m Hk Hm. unfold KERNBASE in Hk. rewrite (proj2 (Z.eqb_neq _ _)) by lia. unfold set_size. wp_step. wp_step. cbn [hmem set_hmem freep brk].
  rewrite u32_small by (rewrite pow2_32; lia). wp_step. set (m1 := store32 m (brk s + 4) nu).
  assert (forall z, z < brk s -> m1 z = hmem s z) as Hm1 by (intros z Hz; unfold m1; rewrite store32_out by lia; by apply Hm).
  apply (wp_free _ F _ nu); cbn [brk hmem freep set_hmem]; [|lia|lia|lia| |unfold m1; by rewrite load32_store32_eq, u32_small by (rewrite pow2_32; lia)|done|].
  { apply (rep_grow s); [done|rewrite pow2_31; simpl; lia|done|done]. }
  { eapply Forall_impl; [apply (rp_top _ _ Hr)|]. simpl. intros c ?. by left. }
  intros m2 p F' Hr' HF' Hs. wp_step. apply (HQ _ F'). cbn [brk hmem set_hmem] in *. constructor; cbn [brk hmem]; [done|lia| | | |apply HF'].
  - intros z. rewrite (fr_covered _ _ _ _ HF'). by replace (nu * 8) with (8 * nu) by lia.
  - intros z Hz Hb Hc. rewrite Hs by done. by apply Hm1.
  - eapply Exists_impl; [apply (fr_large _ _ _ _ HF')|]. simpl. intros c ?. lia.
Qed.

Lemma got_trans s F n s2 F2 n' r s' F' : grown s F n' s2 F2 -> got s2 F2 n r s' F' -> got s F n r s' F'.
Proof.
  intros Hg Ht. pose proof (gt_range _ _ _ _ _ _ Ht). pose proof (gr_brk _ _ _ _ _ Hg). constructor; [apply Ht|apply Ht|lia| |apply Ht|].
  - intros z. rewrite (gt_covered _ _ _ _ _ _ Ht), (gr_covered _ _ _ _ _ Hg). split.
    + intros [[?|?]|?]; [by left|right; lia|right; lia].
    + intros [?|?]; [tauto|]. destruct (Z_lt_dec z (brk s2)); [left; right; lia|right; lia].
  - intros z Hz Hb Hc Hn. rewrite (gt_same _ _ _ _ _ _ Ht) by (done || lia). apply (gr_same _ _ _ _ _ Hg); [done|done|].
    intros H2. destruct (proj2 (gt_covered _ _ _ _ _ _ Ht z) (or_introl H2)); done.
Qed.

(** ** [malloc] with the list set up *)
Lemma dist_around n k j : (k < n)%nat -> (j < n)%nat -> (dist n (nxt n k) j <= dist n (nxt n k) k < n)%nat.
Proof.
  intros Hk Hj. unfold dist, nxt. destruct (Nat.eqb_spec (S k) n) as [E|E].
  - rewrite !(proj2 (Nat.leb_le 0 _)) by lia. lia.
  - rewrite (proj2 (Nat.leb_gt (S k) k)) by lia. destruct (Nat.leb_spec (S k) j); lia.
Qed.

Lemma wp_malloc_loop s F n f c b (Q : Z -> heap -> Prop) : rep s F -> 1 <= n -> 8 * n < 2 ^ 31 -> (2 * length F + 3 < rounds)%nat ->
  ring F !! f = Some c -> freep s = fst c -> ring F !! nxt (length (ring F)) f = Some b -> Q 0 s ->
  (forall r s' F', got s F n r s' F' -> Q (r + 8) s') -> wp (malloc_loop sbrk rounds n (fst c) (fst b)) Q s.
Proof.
  intros Hr Hn H8 Hf Hc Hfp Hb HQ0 HQ. pose proof (lookup_lt_Some _ _ _ Hc) as HcN.
  pose proof (dist_around _ f f HcN HcN) as [_ Hd]. cbn [ring length] in Hd, HcN.
  apply (wp_search sbrk s F n f c) with (kp := f); try done; [simpl; lia|]. intros fuel' Hfuel _. cbn [ring length] in Hfuel.
  wp_step. apply (wp_morecore s F); [done|done|done|lia| |].
  { rewrite Z.eqb_refl. by wp_step. }
  intros s2 F2 Hg. pose proof (gr_rep _ _ _ _ _ Hg) as Hr2. destruct (rep_freep _ _ Hr2) as (f2 & c2 & Hc2 & Hfp2). rewrite Hfp2.
  pose proof (lookup_lt_Some _ _ _ Hc2) as Hc2N. pose proof (dist_around _ f2 f2 Hc2N Hc2N) as [_ Hd2]. pose proof (gr_length _ _ _ _ _ Hg).
  destruct (ring_next s2 F2 f2 c2 Hr2 Hc2) as (b2 & Hb2 & Hn2 & _).
  assert (fst c2 <> 0) as Hnz.
  { pose proof (rp_base _ _ Hr2). destruct f2 as [|f2]; [injection Hc2 as <-; simpl; lia|].
    pose proof (ring_lt s2 F2 0 (S f2) (base_addr, 0) c2 Hr2 eq_refl Hc2 ltac:(lia)). simpl in *. lia. }
  rewrite (proj2 (Z.eqb_neq _ _)) by done. unfold get_ptr. wp_step. wp_step. rewrite Hn2.
  apply (wp_search sbrk s2 F2 n f2 c2 Q Hr2 Hn Hc2 Hfp2) with (kp := f2); [|done|done|cbn [ring length] in *; lia|].
  - intros r s' F' Hgot. apply (HQ r s' F'). by eapply got_trans.
  - intros fuel2 _ Hsmall. exfalso. pose proof (gr_large _ _ _ _ _ Hg) as Hl. apply Exists_exists in Hl as (d & Hd3 & Hle).
    apply list_elem_of_lookup in Hd3 as [j Hj]. assert (ring F2 !! S j = Some d) as Hj' by done.
    pose proof (Hsmall (S j) d Hj' (proj1 (dist_around _ f2 (S j) Hc2N (lookup_lt_Some _ _ _ Hj')))). lia.
Qed.

(** ** The heap of a client *)
Fixpoint disj A : Prop :=
  match A with
  | [] => True
  | b :: A' => (forall z, fst b <= z < fst b + 8 * snd b -> ~ covered A' z) /\ disj A'
  end.

#[export] Instance covered_perm z : Proper ((≡ₚ) ==> iff) (fun A => covered A z).
Proof. intros A A' H. unfold covered. by rewrite H. Qed.
#[export] Instance disj_perm : Proper ((≡ₚ) ==> iff) disj.
Proof.
  assert (forall A A', A ≡ₚ A' -> disj A -> disj A') as Hp.
  { induction 1 as [|b A A' HA IH|b c A|A A' A'' _ IH1 _ IH2]; cbn [disj]; [done| | |tauto].
    - intros [H1 H2]. split; [|by apply IH]. intros z Hz Hc. by apply (H1 z Hz), (covered_perm z _ _ HA).
    - intros (H1 & H2 & H3). split_and!; [|intros z Hz Hc; apply (H1 z Hz), covered_cons; by right|done].
      intros z Hz [Hc|Hc]%covered_cons; [apply (H1 z Hc), covered_cons; by left|by apply (H2 z Hz)]. }
  intros A A' H. split; apply Hp; [done|by symmetry].
Qed.

(** The blocks [A] handed out and the free blocks [F] make up the memory from
    [lo] to the break, and no byte is in two of them. *)
Record tiles (lo : Z) (s : heap) A F : Prop := {
  tl_rep : rep s F;
  tl_headers : Forall (fun b => 1 <= snd b /\ load32 (hmem s) (fst b + 4) = snd b) A;
  tl_disj : disj A;
  tl_apart : forall z, covered F z -> ~ covered A z;
  tl_all : forall z, lo <= z < brk s <-> covered F z \/ covered A z;
}.

(** Before the first call of [malloc] there is no list. *)
Definition heap_ok (lo : Z) (s : heap) A : Prop :=
  0 < base_addr /\ base_addr + 8 <= lo <= brk s /\ brk s <= KERNBASE /\
  ((freep s = 0 /\ A = [] /\ lo = brk s) \/ exists F, tiles lo s A F).

(** No byte of the blocks differs. *)
Definition kept A (m m' : memory) : Prop := forall z, covered A z -> m' z = m z.

Lemma apart_points lo F a n : asc lo F -> 1 <= n -> (forall z, covered F z -> ~ (a <= z < a + 8 * n)) -> apart F a n.
Proof.
  intros Ha%asc_above Hn Hz. unfold apart. rewrite Forall_forall in Ha |- *. intros b Hb. specialize (Ha b Hb). simpl in Ha.
  assert (forall z, fst b <= z < fst b + 8 * snd b -> ~ (a <= z < a + 8 * n)) as Hd.
  { intros z H1. apply Hz. unfold covered. rewrite Exists_exists. by exists b. }
  destruct (Z_le_dec (fst b + 8 * snd b) a); [by left|]. right. destruct (Z_le_dec (fst b) a); [destruct (Hd a); lia|].
  destruct (Z_le_dec (a + 8 * n) (fst b)); [done|]. destruct (Hd (fst b)); lia.
Qed.

Lemma asc_length lo top F : asc lo F -> lo <= top -> Forall (fun b => fst b + 8 * snd b <= top) F -> 8 * Z.of_nat (length F) <= top - lo.
Proof.
  revert lo. induction F as [|b F IH]; intros lo; cbn [asc length]; [lia|]. intros (H1 & H2 & H3) Hlo [H4 H5]%Forall_cons.
  specialize (IH _ H3 H4 H5). lia.
Qed.

Lemma headers_kept A m m' : Forall (fun b => 1 <= snd b /\ load32 m (fst b + 4) = snd b) A -> kept A m m' ->
  Forall (fun b => 1 <= snd b /\ load32 m' (fst b + 4) = snd b) A.
Proof.
  unfold kept, covered. rewrite !Forall_forall. intros H Hk b Hb. destruct (H b Hb) as [H1 H2]. split; [done|]. rewrite <- H2.
  apply load32_agree. intros x Hx. apply Hk. rewrite Exists_exists. exists b. split; [done|lia].
Qed.

Lemma tiles_free lo s b A F : tiles lo s (b :: A) F -> base_addr + 8 <= lo -> (length F < rounds)%nat ->
  wp (free (fst b + 8)) (fun _ s' => (exists F', tiles lo s' A F') /\ brk s' = brk s /\ kept A (hmem s) (hmem s')) s.
Proof.
  intros [Hr Hh Hd Ha Hall] Hlo Hf. apply Forall_cons in Hh as [[Hb1 Hb2] Hh]. destruct Hd as [Hd1 Hd2].
  assert (forall z, fst b <= z < fst b + 8 * snd b -> lo <= z < brk s) as Hin by (intros z Hz; apply Hall; right; apply covered_cons; by left).
  pose proof (Hin (fst b) ltac:(lia)). pose proof (Hin (fst b + 8 * snd b - 1) ltac:(lia)).
  apply (wp_free s F (fst b) (snd b)); try done; [lia|lia| |].
  { apply (apart_points (base_addr + 7)); [apply Hr|done|]. intros z Hz Hzb. apply (Ha z Hz), covered_cons. by left. }
  intros m p F' Hr' HF' Hs. cbn [brk hmem].
  assert (kept A (hmem s) m) as Hk.
  { intros z Hz. assert (lo <= z < brk s) by (apply Hall; right; apply covered_cons; by right). apply Hs; [lia|].
    intros [Hc|Hc]%(fr_covered _ _ _ _ HF'); [apply (Ha z Hc), covered_cons; by right|by apply (Hd1 z Hc)]. }
  split; [|done]. exists F'. constructor; cbn [brk hmem]; [done|by apply (headers_kept A (hmem s))|done| |].
  - intros z [Hc|Hc]%(fr_covered _ _ _ _ HF'); [intros Hz; apply (Ha z Hc), covered_cons; by right|by apply Hd1].
  - intros z. rewrite (Hall z), (fr_covered _ _ _ _ HF'), covered_cons. tauto.
Qed.

Lemma tiles_got lo s A F n r s' F' : tiles lo s A F -> base_addr + 8 <= lo <= brk s -> 1 <= n -> got s F n r s' F' ->
  tiles lo s' ((r, n) :: A) F' /\ kept A (hmem s) (hmem s').
Proof.
  intros [Hr Hh Hd Ha Hall] Hlo Hn [G1 G2 G3 G4 G5 G6].
  assert (forall z, covered A z -> lo <= z < brk s /\ ~ covered F' z /\ ~ (r <= z < r + 8 * n)) as HA.
  { intros z Hz. assert (lo <= z < brk s) as Hb by (apply Hall; by right). split; [done|].
    assert (~ (covered F' z \/ r <= z < r + 8 * n)) as Hno; [|tauto]. rewrite G4. intros [Hc|Hc]; [by apply (Ha z)|lia]. }
  assert (kept A (hmem s) (hmem s')) as Hk by (intros z Hz; destruct (HA z Hz) as (? & ? & ?); apply G6; (done || lia)).
  split; [|done]. constructor; [done| | | |].
  - constructor; [done|by apply (headers_kept A (hmem s))].
  - split; [|done]. cbn [fst snd]. intros z Hz Hc. by apply (HA z Hc).
  - intros z Hz [Hc|Hc]%covered_cons; [by apply (G5 z)|by destruct (HA z Hc) as (_ & ? & _)].
  - intros z. rewrite covered_cons. cbn [fst snd]. specialize (Hall z). specialize (G4 z).
    assert (lo <= z < brk s' <-> lo <= z < brk s \/ brk s <= z < brk s') as -> by lia. tauto.
Qed.

Lemma malloc_units_small nbytes : 0 <= nbytes <= 2 ^ 31 - 16 ->
  1 <= malloc_units nbytes /\ 8 * malloc_units nbytes < 2 ^ 31 /\ nbytes <= 8 * (malloc_units nbytes - 1) < nbytes + 8.
Proof.
  unfold malloc_units, sizeof_Header. rewrite pow2_31. intros Hn. rewrite (u32_small (nbytes + 8 - 1)) by (rewrite pow2_32; lia).
  rewrite u32_small by (rewrite pow2_32; zlia). zlia.
Qed.

(** The free list fits between [base] and the break. *)
Lemma rep_length s F : rep s F -> 8 * Z.of_nat (length F) <= 2 ^ 31.
Proof.
  intros Hr. pose proof (rp_brk _ _ Hr). pose proof (rp_base _ _ Hr).
  pose proof (asc_length _ (brk s) _ (rp_asc _ _ Hr) ltac:(lia) (rp_top _ _ Hr)). lia.
Qed.

Lemma tiles_ok lo s A F : tiles lo s A F -> base_addr + 8 <= lo <= brk s -> heap_ok lo s A.
Proof.
  intros Ht Hlo. pose proof (rp_brk _ _ (tl_rep _ _ _ _ Ht)). rewrite pow2_31 in *. pose proof (rp_base _ _ (tl_rep _ _ _ _ Ht)).
  unfold heap_ok, KERNBASE. split_and!; [lia..|]. right. by exists F.
Qed.

Hypothesis Hrounds : 2 ^ 29 + 8 <= Z.of_nat rounds.

Lemma tiles_malloc lo s A F n (Q : Z -> heap -> Prop) : tiles lo s A F -> base_addr + 8 <= lo <= brk s -> 1 <= n -> 8 * n < 2 ^ 31 ->
  Q 0 s -> (forall r s', 0 < r -> heap_ok lo s' ((r, n) :: A) -> kept A (hmem s) (hmem s') -> Q (r + 8) s') ->
  wp (p <- get_ptr (freep s) ;; malloc_loop sbrk rounds n (freep s) p) Q s.
Proof.
  intros Ht Hlo Hn H8 HQ0 HQ. pose proof (tl_rep _ _ _ _ Ht) as Hr. destruct (rep_freep _ _ Hr) as (f & c & Hc & Hfp).
  destruct (ring_next s F f c Hr Hc) as (b & Hb & Hnx & _). unfold get_ptr. wp_step. wp_step. rewrite Hfp, Hnx.
  apply (wp_malloc_loop s F n f c b); try done.
  { pose proof (rep_length _ _ Hr). rewrite pow2_31, ?pow2_29 in *. lia. }
  intros r s' F' Hg. destruct (tiles_got _ _ _ _ _ _ _ _ Ht Hlo Hn Hg) as [T1 T2]. pose proof (gt_range _ _ _ _ _ _ Hg).
  pose proof (rp_base _ _ Hr). apply HQ; [lia| |done]. eapply tiles_ok; [done|lia].
Qed.

(** The first call makes the list, with no block. *)
Lemma tiles_init s m : 0 < base_addr -> base_addr + 8 <= brk s <= KERNBASE -> m = store32 (store32 (hmem s) base_addr base_addr) (base_addr + 4) 0 ->
  tiles (brk s) (mk_heap m base_addr (brk s)) [] [].
Proof.
  unfold KERNBASE. intros H0 Hb ->. assert (forall z, covered [] z <-> False) as Hnil by (intros z; apply Exists_nil).
  constructor; cbn [hmem brk]; [|constructor|done|intros z; by rewrite Hnil|intros z; rewrite Hnil; split; [lia|tauto]].
  constructor; cbn [hmem brk freep]; [|done|constructor|rewrite pow2_31; lia|done|by left].
  cbn [chain fst snd hd_addr]. rewrite load32_store32_ne, !load32_store32_eq, !u32_small by (rewrite ?pow2_32; lia). done.
Qed.

Lemma malloc_ok lo s A nbytes : heap_ok lo s A -> 0 <= nbytes <= 2 ^ 31 - 16 ->
  wp (malloc sbrk nbytes) (fun r s' => kept A (hmem s) (hmem s') /\
    (r = 0 /\ heap_ok lo s' A \/
     exists n, 8 < r /\ nbytes <= 8 * (n - 1) < nbytes + 8 /\ heap_ok lo s' ((r - 8, n) :: A))) s.
Proof.
  intros (H0 & Hlo & Hk & Hok) Hn. destruct (malloc_units_small nbytes Hn) as (U1 & U2 & U3). unfold malloc. cbv zeta.
  wp_step. wp_step. wp_step. destruct Hok as [(Hf & -> & ->)|[F Ht]].
  - rewrite Hf, Z.eqb_refl. unfold set_ptr at 1, set_size at 1. wp_step. wp_step. wp_step. wp_step. wp_step. wp_step. wp_step.
    unfold set_hmem, set_freep. cbn [hmem freep brk].
    match goal with |- wp _ _ (mk_heap ?m _ _) => pose proof (tiles_init s m H0 ltac:(lia) eq_refl) as Ht end.
    assert (forall m m', kept [] m m') as Hkept by (intros m m' z Hz; by apply Exists_nil in Hz).
    apply (tiles_malloc _ _ _ _ _ _ Ht); cbn [brk]; [lia|done|done| |].
    + split; [done|]. left. split; [done|]. apply (tiles_ok _ _ _ _ Ht). simpl. lia.
    + intros r s' Hr Hs' _. split; [done|]. right. eexists. split; [lia|]. split; [done|]. by replace (r + 8 - 8) with r by lia.
  - assert (freep s <> 0) as Hnz.
    { pose proof (tl_rep _ _ _ _ Ht) as Hr. pose proof (asc_above _ _ (rp_asc _ _ Hr)) as Hab. rewrite Forall_forall in Hab.
      pose proof (rp_freep _ _ Hr) as [->|(b & -> & Hb)%list_elem_of_fmap]%elem_of_cons; [lia|]. specialize (Hab b Hb). simpl in Hab. lia. }
    rewrite (proj2 (Z.eqb_neq _ _)) by done. wp_step. apply (tiles_malloc lo s A F); [done|lia|done|done| |].
    + split; [done|]. left. split; [done|]. apply (tiles_ok _ _ _ _ Ht). lia.
    + intros r s' Hr Hs' HK. split; [done|]. right. eexists. split; [lia|]. split; [done|]. by replace (r + 8 - 8) with r by lia.
Qed.

Lemma free_ok lo s A b A' : heap_ok lo s A -> A ≡ₚ b :: A' ->
  wp (free (fst b + 8)) (fun _ s' => heap_ok lo s' A' /\ kept A' (hmem s) (hmem s')) s.
Proof.
  intros (H0 & Hlo & Hk & Hok) HA. destruct Hok as [(_ & -> & _)|[F Ht]]; [by apply Permutation_nil_cons in HA|].
  destruct Ht as [Hr Hh Hd Hap Hall]. rewrite HA in Hh, Hd.
  assert (tiles lo s (b :: A') F) as Ht.
  { constructor; [done|done|done| |]; intros z; [intros Hz Hc; apply (Hap z Hz)|rewrite (Hall z)]; rewrite (covered_perm z _ _ HA); done. }
  eapply wp_mono; [apply (tiles_free _ _ _ _ _ Ht); [lia|]|].
  - pose proof (rep_length _ _ Hr). rewrite pow2_31 in *. change (2 ^ 29) with 536870912 in Hrounds. lia.
  - cbv beta. intros [] s' ([F' Ht'] & Hb & HK). split; [|done]. apply (tiles_ok _ _ _ _ Ht'). lia.
Qed.

(** A client writes to the data of a block it has. *)
Lemma write_ok lo s A b A' z v : heap_ok lo s A -> A ≡ₚ b :: A' -> fst b + 8 <= z < fst b + 8 * snd b ->
  heap_ok lo (set_hmem (store8 (hmem s) z v) s) A /\ kept A' (hmem s) (store8 (hmem s) z v).
Proof.
  intros (H0 & Hlo & Hk & Hok) HA Hz. destruct Hok as [(_ & -> & _)|[F Ht]]; [by apply Permutation_nil_cons in HA|].
  destruct Ht as [Hr Hh Hd Hap Hall]. assert (covered A z) as HzA by (apply (covered_perm z _ _ HA), covered_cons; left; lia).
  assert (disj (b :: A')) as [Hd1 _] by (by rewrite <- HA).
  assert (kept A' (hmem s) (store8 (hmem s) z v)) as HK.
  { intros x Hx. apply store8_ne. intros ->. apply (Hd1 z); [lia|done]. }
  split; [|done]. pose proof (proj2 (Hall z) (or_intror HzA)) as Hzr.
  apply (tiles_ok _ _ _ F); [|done]. constructor; cbn [set_hmem hmem brk]; [| |done|done|done].
  - destruct Hr. constructor; cbn [set_hmem hmem brk freep]; try done. apply (chain_frame (hmem s)); [|done].
    constructor; [simpl; intros x Hx; apply store8_ne; lia|]. pose proof (asc_above _ _ rp_asc) as Hab. rewrite Forall_forall in Hab |- *.
    intros c Hc x Hx. apply store8_ne. intros ->. apply (Hap z); [|done]. unfold covered. rewrite Exists_exists. exists c. specialize (Hab c Hc).
    split; [done|lia].
  - rewrite HA in Hh |- *. apply Forall_cons in Hh as [[Hb1 Hb2] Hh]. constructor; [|by apply (headers_kept A' (hmem s))].
    split; [done|]. rewrite <- Hb2. apply load32_agree. intros x Hx. apply store8_ne. lia.
Qed.

(** C24: The user allocator keeps the heap tiled by the blocks handed out and
    the free blocks, with no byte in two blocks and none lost.  [malloc], the
    first call included, returns 0 with the blocks of the client as they were,
    or a new block with room for the request, up to the header's unit; [free]
    of a block, in any order, takes it back; a client's write to its own block
    keeps the heap in order.  None of the three changes a byte of any other
    block handed out, and the searches end. *)
Theorem malloc_free_tile lo s A : heap_ok lo s A ->
  (forall nbytes, 0 <= nbytes <= 2 ^ 31 - 16 ->
     wp (malloc sbrk nbytes) (fun r s' => kept A (hmem s) (hmem s') /\
       (r = 0 /\ heap_ok lo s' A \/
        exists n, 8 < r /\ nbytes <= 8 * (n - 1) < nbytes + 8 /\ heap_ok lo s' ((r - 8, n) :: A))) s) /\
  (forall b A', A ≡ₚ b :: A' -> wp (free (fst b + 8)) (fun _ s' => heap_ok lo s' A' /\ kept A' (hmem s) (hmem s')) s) /\
  (forall b A' z v, A ≡ₚ b :: A' -> fst b + 8 <= z < fst b + 8 * snd b ->
     heap_ok lo (set_hmem (store8 (hmem s) z v) s) A /\ kept A' (hmem s) (store8 (hmem s) z v)).
Proof.
  intros Hok. split_and!; [intros nbytes; by apply malloc_ok|intros b A'; by apply free_ok|intros b A' z v; by apply write_ok].
Qed.
End Spec.

(** ** A witness *)

(** A process that may grow up to [KERNBASE]. *)
Definition sbrk_below (n : Z) : M heap Z :=
  b <- gets brk ;;
  if KERNBASE <? b + n then ret (-1)
  else modify (fun s => mk_heap (hmem s) (freep s) (b + n)) ;;; ret b.

#[local] Instance sbrk_below_ok : Sbrk sbrk_below.
Proof.
  intros n s Q Hn Hb HQ0 HQ. unfold sbrk_below. wp_step. wp_step. destruct (Z.ltb_spec KERNBASE (brk s + n)); wp_step; [done|].
  wp_step. wp_step. by apply HQ.
Qed.

Definition heap_image : HeapImage := {| base_addr := 2048; rounds := Z.to_nat (2 ^ 30) |}.
#[local] Existing Instance heap_image.
Lemma heap_image_rounds : 2 ^ 29 + 8 <= Z.of_nat rounds.
Proof. cbn [rounds heap_image]. rewrite Z2Nat.id by lia. lia. Qed.

(** A process whose program ends at 12288, before its first [malloc]. *)
Definition new_heap : heap := mk_heap (fun _ => 0) 0 12288.
Lemma new_heap_ok : heap_ok 12288 new_heap [].
Proof. unfold heap_ok, KERNBASE. cbn [base_addr heap_image brk new_heap freep]. split_and!; [lia..|]. by left. Qed.

Lemma malloc_free_tile_witness : heap_ok 12288 new_heap [] /\
  wp (malloc sbrk_below 100) (fun r s' => kept [] (hmem new_heap) (hmem s') /\
    (r = 0 /\ heap_ok 12288 s' [] \/ exists n, 8 < r /\ 100 <= 8 * (n - 1) < 100 + 8 /\ heap_ok 12288 s' [(r - 8, n)])) new_heap.
Proof.
  split; [apply new_heap_ok|]. destruct (malloc_free_tile sbrk_below heap_image_rounds 12288 new_heap [] new_heap_ok) as [H _].
  apply (H 100). split; discriminate.
Defined.
