(* ===== verification/Mp.v ===== *)
(** * Finding and starting the processors

    [mp.c] and [mp.h]: the search of the firmware's memory for the tables that
    describe the machine, and [mpinit], which reads them.  The tables are bytes
    of the memory; the two ports of the interrupt-mode register are an
    interface.

    Of [main.c]: the page table the processors boot with ([entrypgdir]) and
    [startothers].  A processor that is started reads its stack, its entry
    point and its page directory from the words below the code at 0x7000;
    [started] records what each of them finds there when it comes up. *)
From Stdlib Require Import ZArith Lia Bool.
From stdpp Require Import base numbers list strings sets.
From S2P Require Import Prelude Machine Cstring Kalloc.

Definition NCPU : nat := 8.
Definition MPPROC : Z := 0x00.
Definition MPBUS : Z := 0x01.
Definition MPIOAPIC : Z := 0x02.
Definition MPIOINTR : Z := 0x03.
Definition MPLINTR : Z := 0x04.
Definition sizeof_mp : Z := 16.
Definition sizeof_mpconf : Z := 44.
Definition sizeof_mpproc : Z := 20.
Definition sizeof_mpioapic : Z := 8.

Class Ports (HW : Type) : Type := {
  port_out : Z -> Z -> HW -> HW;
  port_in : Z -> HW -> Z * HW;
}.

(** ** The search *)
Definition bytes_of (m : memory) (a : Z) (n : nat) : list Z := (fun i => load8 m (a + Z.of_nat i)) <$> seq 0 n.
Definition sum (m : memory) (addr : Z) (len : nat) : Z := u8 (foldr Z.add 0 (bytes_of m addr len)).
Definition signature (m : memory) (a : Z) (sig : list Z) : bool :=
  bool_decide (memcmp (bytes_of m a 4) sig 4 = Some 0).
Definition sig_mp : list Z := [95; 77; 80; 95].     (* _MP_ *)
Definition sig_conf : list Z := [80; 67; 77; 80].   (* PCMP *)

Fixpoint mpsearch1_loop (fuel : nat) (m : memory) (p e : Z) : Z :=
  match fuel with
  | O => 0
  | S fuel' =>
      if p <? e then
        if signature m p sig_mp && (sum m p (Z.to_nat sizeof_mp) =? 0) then p
        else mpsearch1_loop fuel' m (u32 (p + sizeof_mp)) e
      else 0
  end.
Definition mpsearch1 (m : memory) (a len : Z) : Z :=
  let addr := P2V a in
  mpsearch1_loop (Z.to_nat len) m addr (u32 (addr + len)).

Definition mpsearch (m : memory) : Z :=
  let bda := P2V 0x400 in
  let p := Z.shiftl (Z.lor (Z.shiftl (load8 m (bda + 0x0F)) 8) (load8 m (bda + 0x0E))) 4 in
  let mp :=
    if negb (p =? 0) then mpsearch1 m p 1024
    else mpsearch1 m (u32 (Z.lor (Z.shiftl (load8 m (bda + 0x14)) 8) (load8 m (bda + 0x13)) * 1024 - 1024)) 1024 in
  if negb (mp =? 0) then mp else mpsearch1 m 0xF0000 0x10000.

(** The addresses of the two structures. *)
Definition mpconfig (m : memory) : option (Z * Z) :=
  let mp := mpsearch m in
  if (mp =? 0) || (load32 m (mp + 4) =? 0) then None
  else
    let conf := P2V (load32 m (mp + 4)) in
    let version := load8 m (conf + 6) in
    if negb (signature m conf sig_conf) then None
    else if negb (version =? 1) && negb (version =? 4) then None
    else if negb (sum m conf (Z.to_nat (load8 m (conf + 4) + 2 ^ 8 * load8 m (conf + 5))) =? 0) then None
    else Some (conf, mp).

(** ** Reading the table *)
Record mpstate (HW : Type) : Type := mk_mpstate {
  mp_mem : memory;
  apicids : list Z;   (* the field of each of the [NCPU] entries of [cpus] *)
  ncpu : nat;
  ioapicid : Z;
  lapic : Z;
  mp_hw : HW;
}.
Arguments mk_mpstate {HW}. Arguments mp_mem {HW}. Arguments apicids {HW}. Arguments ncpu {HW}.
Arguments ioapicid {HW}. Arguments lapic {HW}. Arguments mp_hw {HW}.

Section Init.
Context {HW : Type} {PT : Ports HW}.
Abbreviation MP := (M (mpstate HW)).

Definition set_lapic (v : Z) (s : mpstate HW) := mk_mpstate (mp_mem s) (apicids s) (ncpu s) (ioapicid s) v (mp_hw s).
Definition set_ioapicid (v : Z) (s : mpstate HW) := mk_mpstate (mp_mem s) (apicids s) (ncpu s) v (lapic s) (mp_hw s).
Definition set_mp_hw (v : HW) (s : mpstate HW) := mk_mpstate (mp_mem s) (apicids s) (ncpu s) (ioapicid s) (lapic s) v.
Definition add_cpu (id : Z) (s : mpstate HW) :=
  if (ncpu s <? NCPU)%nat then mk_mpstate (mp_mem s) (<[ncpu s := id]> (apicids s)) (S (ncpu s)) (ioapicid s) (lapic s) (mp_hw s) else s.

(** An entry of another type leaves the switch, not the loop. *)
Fixpoint mpinit_loop (fuel : nat) (p e : Z) (ismp : bool) : MP bool :=
  if p <? e then
    match fuel with
    | O => nofuel
    | S fuel' =>
        m <- gets mp_mem ;;
        let type := load8 m p in
        if type =? MPPROC then
          modify (add_cpu (load8 m (p + 1))) ;;;
          mpinit_loop fuel' (u32 (p + sizeof_mpproc)) e ismp
        else if type =? MPIOAPIC then
          modify (set_ioapicid (load8 m (p + 1))) ;;;
          mpinit_loop fuel' (u32 (p + sizeof_mpioapic)) e ismp
        else if (type =? MPBUS) || (type =? MPIOINTR) || (type =? MPLINTR) then
          mpinit_loop fuel' (u32 (p + 8)) e ismp
        else mpinit_loop fuel' p e false
    end
  else ret ismp.

Definition mpinit (fuel : nat) : MP unit :=
  m <- gets mp_mem ;;
  match mpconfig m with
  | None => panic "Expect to run on an SMP"
  | Some (conf, mp) =>
      modify (set_lapic (load32 m (conf + 36))) ;;;
      ismp <- mpinit_loop fuel (u32 (conf + sizeof_mpconf)) (u32 (conf + (load8 m (conf + 4) + 2 ^ 8 * load8 m (conf + 5)))) true ;;
      if negb ismp then panic "Didn't find a suitable machine"
      else
        when (negb (load8 m (mp + 12) =? 0)) (
          modify (fun s => set_mp_hw (port_out 0x22 0x70 (mp_hw s)) s) ;;;
          modify (fun s => let (r, h) := port_in 0x23 (mp_hw s) in set_mp_hw (port_out 0x23 (Z.lor r 1) h) s))
  end.
End Init.

(** ** The search finds the first structure *)
Lemma memcmp_eq n : forall l k, length l = n -> length k = n -> memcmp l k n = Some 0 <-> l = k.
Proof.
  induction n as [|n IH]; intros [|a l] [|b k] Hl Hk; try done. cbn [memcmp]. injection Hl as Hl. injection Hk as Hk.
  destruct (Z.eqb_spec a b) as [->|Hne]; cbn [negb].
  - rewrite IH by done. split; [by intros ->|by intros [= ->]].
  - split; [intros [= H]; lia|by intros [= H]].
Qed.
Lemma signature_eq m a sig : length sig = 4%nat -> signature m a sig = true <-> bytes_of m a 4 = sig.
Proof. intros Hl. unfold signature. rewrite bool_decide_eq_true. by apply memcmp_eq. Qed.

(** A floating pointer structure. *)
Definition floating (m : memory) (p : Z) : Prop := bytes_of m p 4 = sig_mp /\ sum m p 16 = 0.
(** [r] is the first one in [n] paragraphs from [p], or 0. *)
Definition first_floating (m : memory) (p : Z) (n : nat) (r : Z) : Prop :=
  (exists k, (k < n)%nat /\ r = p + 16 * Z.of_nat k /\ floating m r /\ forall j, (j < k)%nat -> ~ floating m (p + 16 * Z.of_nat j)) \/
  r = 0 /\ forall j, (j < n)%nat -> ~ floating m (p + 16 * Z.of_nat j).

Lemma mpsearch1_loop_first m n : forall fuel p, (n < fuel)%nat -> 0 <= p -> p + 16 * Z.of_nat n < 2 ^ 32 ->
  first_floating m p n (mpsearch1_loop fuel m p (p + 16 * Z.of_nat n)).
Proof.
  induction n as [|n IH]; intros [|fuel] p Hf Hp Hn; try lia; cbn [mpsearch1_loop].
  { destruct (Z.ltb_spec p (p + 16 * Z.of_nat 0)); [lia|]. right. split; [done|lia]. }
  destruct (Z.ltb_spec p (p + 16 * Z.of_nat (S n))); [|lia]. change (Z.to_nat sizeof_mp) with 16%nat.
  assert (signature m p sig_mp && (sum m p 16 =? 0) = true <-> floating m p) as Hc.
  { rewrite andb_true_iff, signature_eq, Z.eqb_eq by done. done. }
  destruct (signature m p sig_mp && (sum m p 16 =? 0)).
  - left. exists 0%nat. split_and!; [lia|lia|by apply Hc|lia].
  - assert (~ floating m p) as H0 by (intros Hx; by apply Hc in Hx). rewrite u32_small by (unfold sizeof_mp; lia). unfold sizeof_mp.
    replace (p + 16 * Z.of_nat (S n)) with (p + 16 + 16 * Z.of_nat n) by lia.
    assert (forall j, p + 16 + 16 * Z.of_nat j = p + 16 * Z.of_nat (S j)) as Hj by lia.
    destruct (IH fuel (p + 16)) as [(k & H1 & H2 & H3 & H4)|[H1 H2]]; [lia|lia|lia| |].
    + left. exists (S k). split_and!; [lia|by rewrite H2, Hj|done|]. intros [|j] Hlt; [by rewrite Z.mul_0_r, Z.add_0_r|]. rewrite <- Hj. apply H4. lia.
    + right. split; [done|]. intros [|j] Hlt; [by rewrite Z.mul_0_r, Z.add_0_r|]. rewrite <- Hj. apply H2. lia.
Qed.
Lemma mpsearch1_first m a n : 0 <= a -> a + 16 * Z.of_nat n < 2 ^ 31 -> (0 < n)%nat ->
  first_floating m (a + KERNBASE) n (mpsearch1 m a (16 * Z.of_nat n)).
Proof.
  intros H1 H2 H3. rewrite pow2_31 in H2. unfold mpsearch1, P2V, KERNBASE. cbv zeta. rewrite !u32_small by (rewrite pow2_32; lia).
  apply mpsearch1_loop_first; rewrite ?pow2_32; lia.
Qed.

(** ** The table as the firmware writes it

    [rest] are the bytes [mpinit] does not look at. *)
Inductive mpentry : Type :=
| Processor (apicid : Z) (rest : list Z)
| IoApic (apicno : Z) (rest : list Z)
| OtherEntry (type : Z) (rest : list Z).
Definition encode_entry (x : mpentry) : list Z :=
  match x with
  | Processor id rest => MPPROC :: id :: rest
  | IoApic no rest => MPIOAPIC :: no :: rest
  | OtherEntry ty rest => ty :: rest
  end.
Definition entry_ok (x : mpentry) : Prop :=
  match x with
  | Processor id rest => length rest = 18%nat
  | IoApic no rest => length rest = 6%nat
  | OtherEntry ty rest => ty ∈ [MPBUS; MPIOINTR; MPLINTR] /\ length rest = 7%nat
  end.
Definition processors (xs : list mpentry) : list Z := omap (fun x => match x with Processor id _ => Some id | _ => None end) xs.
Definition ioapics (xs : list mpentry) : list Z := omap (fun x => match x with IoApic no _ => Some no | _ => None end) xs.

(** The bytes [l] are at [a]. *)
Definition stored (m : memory) (a : Z) (l : list Z) : Prop := forall i b, l !! i = Some b -> load8 m (a + Z.of_nat i) = b.
Lemma stored_app m a l k : stored m a (l ++ k) -> stored m a l /\ stored m (a + Z.of_nat (length l)) k.
Proof.
  intros H. split; intros i b Hi; [apply H; by apply lookup_app_l_Some|]. specialize (H (length l + i)%nat b).
  rewrite lookup_app_r, Nat.add_comm, Nat.add_sub in H by lia. specialize (H Hi). by replace (a + Z.of_nat (length l) + Z.of_nat i) with (a + Z.of_nat (i + length l)) by lia.
Qed.

Lemma last_cons_default (a d : Z) l : List.last (a :: l) d = List.last l a.
Proof. revert a d. induction l as [|b l IH]; intros a d; [done|]. transitivity (List.last (b :: l) d); [done|]. by rewrite (IH b d), (IH b a). Qed.

Section Table.
Context {HW : Type} {PT : Ports HW}.

(** What reading the entries does. *)
Definition take_entry (s : mpstate HW) (x : mpentry) : mpstate HW :=
  match x with Processor id _ => add_cpu id s | IoApic no _ => set_ioapicid no s | OtherEntry _ _ => s end.
Lemma take_entry_mem s x : mp_mem (take_entry s x) = mp_mem s.
Proof. destruct x; cbn [take_entry]; unfold add_cpu; try done. by destruct (_ <? _)%nat. Qed.
Lemma mpinit_step x fuel p e ismp s : entry_ok x -> stored (mp_mem s) p (encode_entry x) -> 0 <= p ->
  p + Z.of_nat (length (encode_entry x)) < 2 ^ 32 -> p < e ->
  mpinit_loop (S fuel) p e ismp s = mpinit_loop fuel (p + Z.of_nat (length (encode_entry x))) e ismp (take_entry s x).
Proof.
  intros Hx Hb Hp Hle He. cbn [mpinit_loop]. rewrite (proj2 (Z.ltb_lt _ _)) by lia. unfold bind at 1, gets at 1. cbn [bind_res]. cbv zeta.
  pose proof (Hb 0%nat) as Hb0. pose proof (Hb 1%nat) as Hb1. rewrite Z.add_0_r in Hb0. change (Z.of_nat 1) with 1 in Hb1.
  destruct x as [id rest|no rest|ty rest]; cbn [encode_entry take_entry length entry_ok] in *; rewrite (Hb0 _ eq_refl).
  - cbn [Z.eqb MPPROC]. rewrite (Hb1 _ eq_refl), Hx in *. unfold sizeof_mpproc. rewrite u32_small by lia. done.
  - change (MPIOAPIC =? MPPROC) with false. change (MPIOAPIC =? MPIOAPIC) with true. cbv iota. rewrite (Hb1 _ eq_refl), Hx in *.
    unfold sizeof_mpioapic. rewrite u32_small by lia. done.
  - destruct Hx as [Hty Hx]. rewrite Hx in *. assert (u32 (p + 8) = p + 8) as -> by (apply u32_small; lia).
    repeat (apply elem_of_cons in Hty as [->|Hty]; [done|]). by apply elem_of_nil in Hty.
Qed.
Lemma encode_entry_pos x : 0 < Z.of_nat (length (encode_entry x)).
Proof. destruct x; cbn; lia. Qed.

Lemma wp_mpinit_loop xs : forall fuel p s (Q : bool -> mpstate HW -> Prop), Forall entry_ok xs ->
  stored (mp_mem s) p (concat (encode_entry <$> xs)) -> 0 <= p -> p + Z.of_nat (length (concat (encode_entry <$> xs))) < 2 ^ 32 ->
  (length xs <= fuel)%nat -> Q true (fold_left take_entry xs s) ->
  wp (mpinit_loop fuel p (p + Z.of_nat (length (concat (encode_entry <$> xs)))) true) Q s.
Proof.
  induction xs as [|x xs IH]; intros fuel p s Q Hok Hst Hp Hle Hf HQ; cbn [fmap list_fmap concat length] in *.
  { destruct fuel; cbn [mpinit_loop]; rewrite (proj2 (Z.ltb_ge _ _)) by lia; by wp_step. }
  destruct fuel as [|fuel]; [lia|]. apply Forall_cons in Hok as [Hx Hok]. apply stored_app in Hst as [Hst Hst']. rewrite length_app, Nat2Z.inj_add in *.
  pose proof (encode_entry_pos x). unfold wp. rewrite (mpinit_step x) by (done || lia). rewrite Z.add_assoc.
  apply IH; [done|by rewrite take_entry_mem|lia|lia|lia|done].
Qed.

(** An entry of an unknown type, and the loop never ends. *)
Lemma mpinit_loop_stuck xs ty rest : 4 < ty -> forall fuel p e (s : mpstate HW) ismp, Forall entry_ok xs ->
  stored (mp_mem s) p (concat (encode_entry <$> xs) ++ ty :: rest) -> 0 <= p ->
  p + Z.of_nat (length (concat (encode_entry <$> xs) ++ ty :: rest)) <= e -> e < 2 ^ 32 ->
  exists s', mpinit_loop fuel p e ismp s = NoFuel s'.
Proof.
  intros Hty. induction xs as [|x xs IH]; intros fuel p e s ismp Hok Hst Hp Hle He; cbn [fmap list_fmap concat app] in *.
  - cbn [length] in Hle. pose proof (Hst 0%nat ty eq_refl) as H0. rewrite Z.add_0_r in H0. revert ismp. induction fuel as [|fuel IHf]; intros ismp; cbn [mpinit_loop];
      rewrite (proj2 (Z.ltb_lt _ _)) by lia; [by exists s|]. unfold bind at 1, gets at 1. cbn [bind_res]. cbv zeta. rewrite H0.
    unfold MPPROC, MPIOAPIC, MPBUS, MPIOINTR, MPLINTR. rewrite !(proj2 (Z.eqb_neq ty _)) by lia. apply IHf.
  - rewrite <- app_assoc in *. apply Forall_cons in Hok as [Hx Hok]. apply stored_app in Hst as [Hst Hst']. rewrite length_app, Nat2Z.inj_add in Hle.
    pose proof (encode_entry_pos x). destruct fuel as [|fuel].
    + cbn [mpinit_loop]. rewrite (proj2 (Z.ltb_lt _ _)) by lia. by exists s.
    + rewrite (mpinit_step x) by (done || lia). apply IH; [done|by rewrite take_entry_mem|lia|lia|done].
Qed.

Lemma take_entries xs : forall s, length (apicids s) = NCPU -> (ncpu s <= NCPU)%nat ->
  let s' := fold_left take_entry xs s in
  take (ncpu s') (apicids s') = take NCPU (take (ncpu s) (apicids s) ++ processors xs) /\
  ncpu s' = Nat.min NCPU (ncpu s + length (processors xs)) /\ ioapicid s' = List.last (ioapics xs) (ioapicid s) /\
  length (apicids s') = NCPU /\ mp_mem s' = mp_mem s /\ lapic s' = lapic s /\ mp_hw s' = mp_hw s.
Proof.
  induction xs as [|x xs IH]; intros s Hl Hn; cbv zeta; cbn [fold_left].
  { cbn [processors ioapics omap list_omap List.last length]. rewrite app_nil_r, take_take, Nat.add_0_r. split_and!; try done; [f_equal; lia|lia]. }
  assert (length (apicids (take_entry s x)) = NCPU /\ (ncpu (take_entry s x) <= NCPU)%nat) as [Hl' Hn'].
  { destruct x; cbn [take_entry]; try done. unfold add_cpu. destruct (Nat.ltb_spec (ncpu s) NCPU); [|done]. cbn [apicids ncpu]. rewrite length_insert. split; [done|lia]. }
  destruct (IH _ Hl' Hn') as (I1 & I2 & I3 & I4 & I5 & I6 & I7). rewrite I1, I2, I3, I4, I5, I6, I7. clear IH I1 I2 I3 I4 I5 I6 I7.
  destruct x as [id rest|no rest|ty rest]; cbn [take_entry processors ioapics omap list_omap].
  - fold (processors xs). fold (ioapics xs). unfold add_cpu. destruct (Nat.ltb_spec (ncpu s) NCPU) as [Hlt|Hge]; cbn [apicids ncpu ioapicid mp_mem lapic mp_hw length].
    + split_and!; try done; try lia. rewrite (take_S_r _ _ id) by (apply list_lookup_insert_eq; lia). rewrite take_insert_ge, <- app_assoc by lia. done.
    + split_and!; try done; try lia. rewrite !take_app_le by (rewrite length_take; lia). done.
  - fold (processors xs). fold (ioapics xs). cbn [set_ioapicid apicids ncpu ioapicid mp_mem lapic mp_hw]. split_and!; try done. by rewrite last_cons_default.
  - done.
Qed.

(** The configuration table at [conf], with the body [l]. *)
Definition table_at (m : memory) (conf : Z) (l : list Z) : Prop :=
  stored m (conf + sizeof_mpconf) l /\ load8 m (conf + 4) + 2 ^ 8 * load8 m (conf + 5) = sizeof_mpconf + Z.of_nat (length l) /\
  0 <= conf /\ conf + sizeof_mpconf + Z.of_nat (length l) < 2 ^ 32.
(** External interrupts are masked through the mode register, if there is one. *)
Definition imcr (m : memory) (mp : Z) (h : HW) : HW :=
  if load8 m (mp + 12) =? 0 then h else let (r, h') := port_in 0x23 (port_out 0x22 0x70 h) in port_out 0x23 (Z.lor r 1) h'.

Lemma wp_mpinit conf mp xs fuel s (Q : unit -> mpstate HW -> Prop) : mpconfig (mp_mem s) = Some (conf, mp) -> Forall entry_ok xs ->
  table_at (mp_mem s) conf (concat (encode_entry <$> xs)) -> (length xs <= fuel)%nat ->
  (let s' := fold_left take_entry xs (set_lapic (load32 (mp_mem s) (conf + 36)) s) in Q tt (set_mp_hw (imcr (mp_mem s) mp (mp_hw s')) s')) ->
  wp (mpinit fuel) Q s.
Proof.
  intros Hc Hok (T1 & T2 & T3 & T4) Hf HQ. unfold mpinit. wp_step. wp_step. rewrite Hc. wp_step. wp_step. rewrite T2. unfold sizeof_mpconf in *.
  rewrite !u32_small by lia. rewrite Z.add_assoc. wp_step. apply wp_mpinit_loop; [done|done|lia|lia|done|]. cbn [negb].
  set (s' := fold_left _ _ _) in *. cbv zeta in HQ. unfold imcr in HQ. unfold when. destruct (load8 (mp_mem s) (mp + 12) =? 0); cbn [negb].
  - wp_step. by destruct s'.
  - wp_step. wp_step. wp_step. cbn [mp_hw set_mp_hw mp_mem apicids ncpu ioapicid lapic]. by destruct (port_in 0x23 (port_out 0x22 0x70 (mp_hw s'))).
Qed.
End Table.

(** C21: [mpinit] finds the machine's processors.  (1) [mpsearch1] returns the first
    structure with the right signature and checksum on a 16-byte boundary of its range,
    or 0.  (2) Given the table the firmware wrote, [mpinit] records the local APICs of
    its processor entries in order, as many as [cpus] holds, the last I/O APIC and the
    address of the local APIC, whatever the other entries are, and masks external
    interrupts where the machine has a mode register.  (3) Given a table with an entry
    of a type above 4, [mpinit] does not report an unsuitable machine: it never ends,
    whatever the fuel. *)
Theorem mpinit_reads_tables {HW : Type} {PT : Ports HW} (s : mpstate HW) :
  (forall a n, 0 <= a -> a + 16 * Z.of_nat n < 2 ^ 31 -> (0 < n)%nat ->
     first_floating (mp_mem s) (a + KERNBASE) n (mpsearch1 (mp_mem s) a (16 * Z.of_nat n))) /\
  (mpconfig (mp_mem s) = None -> forall fuel, mpinit fuel s = Panic "Expect to run on an SMP" s) /\
  forall conf mp, mpconfig (mp_mem s) = Some (conf, mp) -> length (apicids s) = NCPU -> ncpu s = O ->
    (forall xs fuel, Forall entry_ok xs -> table_at (mp_mem s) conf (concat (encode_entry <$> xs)) -> (length xs <= fuel)%nat ->
       wp (mpinit fuel) (fun _ s' =>
         ncpu s' = Nat.min NCPU (length (processors xs)) /\ take (ncpu s') (apicids s') = take NCPU (processors xs) /\
         ioapicid s' = List.last (ioapics xs) (ioapicid s) /\ lapic s' = load32 (mp_mem s) (conf + 36) /\
         mp_mem s' = mp_mem s /\ mp_hw s' = imcr (mp_mem s) mp (mp_hw s)) s) /\
    (forall xs ty rest fuel, Forall entry_ok xs -> 4 < ty -> table_at (mp_mem s) conf (concat (encode_entry <$> xs) ++ ty :: rest) ->
       exists s', mpinit fuel s = NoFuel s').
Proof.
  split_and!; [intros a n; apply mpsearch1_first| |].
  { intros Hc fuel. unfold mpinit, bind at 1, gets. cbn [bind_res]. by rewrite Hc. }
  intros conf mp Hc Hl Hn. split.
  - intros xs fuel Hok Ht Hf. eapply wp_mpinit; [done|done|done|done|]. cbv zeta.
    destruct (take_entries xs (set_lapic (load32 (mp_mem s) (conf + 36)) s)) as (I1 & I2 & I3 & I4 & I5 & I6 & I7); [done|cbn; lia|].
    cbn [set_mp_hw mp_mem apicids ncpu ioapicid lapic mp_hw]. rewrite I1, I2, I3, I5, I6, I7. cbn [set_lapic mp_mem apicids ncpu ioapicid lapic mp_hw]. by rewrite Hn.
  - intros xs ty rest fuel Hok Hty (T1 & T2 & T3 & T4). unfold mpinit, bind at 1, gets at 1. cbn [bind_res]. rewrite Hc.
    unfold bind at 1, modify at 1. cbn [bind_res]. rewrite T2. unfold sizeof_mpconf in *. rewrite !u32_small by lia.
    destruct (mpinit_loop_stuck xs ty rest Hty fuel (conf + 44) (conf + (44 + Z.of_nat (length (concat (encode_entry <$> xs) ++ ty :: rest))))
      (set_lapic (load32 (mp_mem s) (conf + 36)) s) true) as [s' Hs']; [done|done|lia|lia|lia|]. exists s'. unfold bind at 1. by rewrite Hs'.
Qed.

(** Firmware with two processors and an I/O APIC. *)
Definition firm_entries : list mpentry := [Processor 0 (replicate 18 0); Processor 5 (replicate 18 0); IoApic 1 (replicate 6 0)].
Definition firm_bytes : list Z :=
  sig_mp ++ [0; 1; 15; 0; 1; 4; 144; 0; 0; 0; 0; 0] ++ replicate 240 0 ++
  sig_conf ++ [92; 0; 4; 135] ++ replicate 26 0 ++ [3; 0; 0; 0; 0xE0; 0xFE] ++ replicate 4 0 ++ concat (encode_entry <$> firm_entries).
Definition firm_mem : memory := fun a => if a <? P2V 0xF0000 then 0 else nth (Z.to_nat (a - P2V 0xF0000)) firm_bytes 0.
Definition firm_state : mpstate unit := mk_mpstate firm_mem (replicate NCPU 0) 0 0 0 tt.
#[local] Instance no_ports : Ports unit := {| port_out := fun _ _ h => h; port_in := fun _ h => (0, h) |}.
Lemma firm_config : mpconfig firm_mem = Some (P2V 0xF0100, P2V 0xF0000).
Proof. by vm_compute. Qed.
Lemma firm_table : table_at firm_mem (P2V 0xF0100) (concat (encode_entry <$> firm_entries)).
Proof.
  split_and!; [|by vm_compute..]. intros i b Hi. pose proof (lookup_lt_Some _ _ _ Hi) as Hlt. change (length _) with 48%nat in Hlt.
  assert (forallb (fun i => bool_decide (Some (load8 firm_mem (P2V 0xF0100 + sizeof_mpconf + Z.of_nat i)) = concat (encode_entry <$> firm_entries) !! i)) (seq 0 48) = true)
    as Hall by (by vm_compute).
  rewrite forallb_forall in Hall. specialize (Hall i). rewrite in_seq in Hall. specialize (Hall ltac:(lia)). apply bool_decide_eq_true in Hall. congruence.
Qed.
Lemma mpinit_reads_tables_witness :
  wp (mpinit 3) (fun _ s' => ncpu s' = 2%nat /\ take 2 (apicids s') = [0; 5] /\ ioapicid s' = 1) firm_state.
Proof.
  destruct (mpinit_reads_tables firm_state) as (_ & _ & H). destruct (H _ _ firm_config eq_refl eq_refl) as [H1 _].
  eapply wp_mono; [apply (H1 firm_entries 3%nat); [|exact firm_table|reflexivity]|].
  - repeat constructor.
  - intros _ s' (E1 & E2 & E3 & _). rewrite E1 in E2. split_and!; [exact E1|exact E2|exact E3].
Defined.

(** * Starting the other processors *)

Definition PTE_PS : Z := 0x080.
(** The entries [0] and [KERNBASE>>PDXSHIFT]. *)
Definition entrypgdir : list Z :=
  <[Z.to_nat (Z.shiftr KERNBASE PDXSHIFT) := Z.lor (Z.lor PTE_P PTE_W) PTE_PS]>
    (<[0%nat := Z.lor (Z.lor PTE_P PTE_W) PTE_PS]> (replicate (Z.to_nat NPDENTRIES) 0)).

Class SmpImage : Type := {
  entryother_start : Z;
  entryother_size : Z;
  mpenter_addr : Z;
  entrypgdir_addr : Z;
}.

Record smp : Type := mk_smp { sm_km : kmem_t; started : list (Z * list Z) }.
Definition set_sm_km v s := mk_smp v (started s).

Section Start.
Context {I : KernelImage} {SI : SmpImage}.
Abbreviation SM := (M smp).

Definition on_km {A} (m : M kmem_t A) : SM A := lift sm_km set_sm_km m.
Definition ap_code : Z := P2V 0x7000.

(** [lapicstartap] and the wait for the processor: when it returns the
    processor has read its three words. *)
Definition start_processor (apicid addr : Z) : SM unit :=
  modify (fun s => let m := mem (sm_km s) in
    mk_smp (sm_km s) (started s ++ [(apicid, [load32 m (P2V addr - 4); load32 m (P2V addr - 8); load32 m (P2V addr - 12)])])).

(** [cpus] are the local APICs found, [me] is that of the boot processor. *)
Fixpoint start_each (me : Z) (cpus : list Z) : SM unit :=
  match cpus with
  | [] => ret tt
  | c :: cpus' =>
      (if c =? me then ret tt
       else
         stack <- on_km kalloc ;;
         on_km (write32 (ap_code - 4) (stack + KSTACKSIZE)) ;;;
         on_km (write32 (ap_code - 8) mpenter_addr) ;;;
         on_km (write32 (ap_code - 12) (V2P entrypgdir_addr)) ;;;
         start_processor c (V2P ap_code)) ;;;
      start_each me cpus'
  end.
Definition startothers (me : Z) (cpus : list Z) : SM unit :=
  on_km (memmoveM ap_code entryother_start entryother_size) ;;;
  start_each me cpus.

(** ** The theorem *)
Context `{!KernelImageOk I}.

(** Low memory is not in the pool. *)
Lemma low_write k fl m' : kmem_inv k fl -> (forall x, 0x80100000 <= x -> m' x = mem k x) -> kmem_inv (set_mem m' k) fl.
Proof.
  intros Hk Hm. apply kmem_inv_write; [done|]. intros q x Hq Hx. apply Hm. destruct Hk as [_ _ Hv _].
  pose proof (proj1 (Forall_forall _ _) Hv q Hq) as Hq'. apply valid_page_bounds in Hq'. lia.
Qed.

(** What the processors find: stacks from the pool in order. *)
Definition ap_words (stack : Z) : list Z := [u32 (stack + KSTACKSIZE); u32 mpenter_addr; u32 (V2P entrypgdir_addr)].

Lemma wp_start_each me cpus : forall s fl (Q : unit -> smp -> Prop), kmem_inv (sm_km s) fl ->
  let others := filter (fun c => c <> me) cpus in (length others <= length fl)%nat ->
  (forall k', kmem_inv k' (drop (length others) fl) -> (forall x, ap_code <= x < ap_code + PGSIZE -> mem k' x = mem (sm_km s) x) ->
     Q tt (mk_smp k' (started s ++ zip others (ap_words <$> fl)))) ->
  wp (start_each me cpus) Q s.
Proof.
  induction cpus as [|c cpus IH]; intros s fl Q Hk others Hlen HQ; subst others; cbn [start_each].
  { wp_step. destruct s as [k l]. cbn [filter list_filter length drop zip_with] in HQ. change (zip [] (ap_words <$> fl)) with (@nil (Z * list Z)) in HQ. rewrite app_nil_r in HQ. by apply HQ. }
  rewrite filter_cons in Hlen, HQ. destruct (Z.eqb_spec c me) as [Hc|Hc].
  { rewrite decide_False in Hlen, HQ by (by intros H). wp_step. wp_step. by apply (IH s fl). }
  rewrite decide_True in Hlen, HQ by done. cbn [length] in *. destruct fl as [|p fl]; [cbn in Hlen; lia|].
  wp_step. wp_step. apply wp_lift, (wp_kalloc _ (p :: fl)); [done|]. intros k1 K1 M1 _. cbn [spec_kalloc fst snd] in *.
  wp_step. apply wp_lift. unfold write32 at 1. wp_step. wp_step. apply wp_lift. unfold write32 at 1. wp_step. wp_step. apply wp_lift. unfold write32 at 1. wp_step.
  unfold start_processor. wp_step. cbn [set_sm_km sm_km started mem set_mem].
  set (m2 := store32 _ _ (V2P entrypgdir_addr)).
  assert (forall x, x < ap_code - 12 \/ ap_code <= x -> m2 x = mem k1 x) as Hout by (intros x Hx; subst m2; rewrite !store32_out by lia; done).
  assert (load32 m2 (ap_code - 4) = u32 (p + KSTACKSIZE) /\ load32 m2 (ap_code - 8) = u32 mpenter_addr /\ load32 m2 (ap_code - 12) = u32 (V2P entrypgdir_addr)) as (L1 & L2 & L3).
  { subst m2. split_and!.
    - rewrite !load32_store32_ne by lia. apply load32_store32_eq.
    - rewrite load32_store32_ne by lia. apply load32_store32_eq.
    - apply load32_store32_eq. }
  change (P2V (V2P ap_code)) with ap_code. rewrite L1, L2, L3.
  apply (IH _ fl); cbn [sm_km started].
  - assert (kmem_inv (set_mem m2 k1) fl) as HK by (apply low_write; [done|]; intros x Hx; apply Hout; right; unfold ap_code; change (P2V 0x7000) with 0x80007000; lia). exact HK.
  - cbn in Hlen. lia.
  - intros k' K2 M2. rewrite <- app_assoc. apply (HQ k'); [done|]. intros x Hx. rewrite M2 by done. cbn [mem set_mem]. rewrite Hout by lia. by rewrite M1.
Qed.
End Start.

(** Translation through a directory of 4-megabyte pages. *)
Definition translate_ps (dir : list Z) (va : Z) : option Z :=
  e ← dir !! Z.to_nat (PDX va);
  if (Z.land e PTE_P =? 0) || (Z.land e PTE_PS =? 0) then None else Some (Z.land e (u32 (Z.lnot 0x3FFFFF)) + va mod 2 ^ 22).

Lemma entrypgdir_lookup k : (k < 1024)%nat -> entrypgdir !! k = Some (if decide (k = 0 \/ k = 512)%nat then 0x83 else 0).
Proof.
  intros Hk. unfold entrypgdir. change (Z.to_nat (Z.shiftr KERNBASE PDXSHIFT)) with 512%nat. change (Z.to_nat NPDENTRIES) with 1024%nat.
  change (Z.lor (Z.lor PTE_P PTE_W) PTE_PS) with 0x83. destruct (decide (k = 512%nat)) as [->|H1].
  { rewrite list_lookup_insert_eq by (by rewrite length_insert, length_replicate; lia). done. }
  rewrite list_lookup_insert_ne by done. destruct (decide (k = 0%nat)) as [->|H2].
  { rewrite list_lookup_insert_eq by (rewrite length_replicate; lia). done. }
  rewrite list_lookup_insert_ne by done. rewrite lookup_replicate_2 by lia. rewrite decide_False by lia. done.
Qed.
Lemma entry_translate va : 0 <= va < 2 ^ 32 -> translate_ps entrypgdir va =
  if va <? 2 ^ 22 then Some va else if (KERNBASE <=? va) && (va <? KERNBASE + 2 ^ 22) then Some (va - KERNBASE) else None.
Proof.
  intros Hva. rewrite pow2_32 in Hva. unfold translate_ps. rewrite PDX_eq. change (2 ^ 22) with 4194304. unfold KERNBASE.
  rewrite (Z.mod_small (va / 4194304)) by zlia. rewrite entrypgdir_lookup by zlia. cbn [mbind option_bind].
  destruct (Z.ltb_spec va 4194304); [|destruct (Z.leb_spec 0x80000000 va), (Z.ltb_spec va (0x80000000 + 4194304))]; cbn [andb];
    [rewrite decide_True by (left; zlia)|rewrite decide_True by (right; zlia)|rewrite decide_False by zlia..]; try done.
  - change (Z.land 0x83 (u32 (Z.lnot 0x3FFFFF))) with 0. cbn. f_equal. zlia.
  - change (Z.land 0x83 (u32 (Z.lnot 0x3FFFFF))) with 0. cbn. f_equal. zlia.
Qed.

(** The other processors come up, each on a stack of its own.  With a free
    page for each, [startothers] starts every processor of the table but the one that
    runs, in order and once; it finds the code of [entryother.S] at 0x7000 and below it
    the top of a page taken from the pool for it alone, the entry point
    [mpenter] and the boot page directory.  That directory maps exactly the first four
    megabytes of physical memory, at their own addresses and at [KERNBASE]. *)
Theorem startothers_stacks {I : KernelImage} {IO : KernelImageOk I} {SI : SmpImage} (me : Z) (cpus : list Z) (s : smp) (fl : list Z) :
  let others := filter (fun c => c <> me) cpus in
  kmem_inv (sm_km s) fl -> (length others <= length fl)%nat -> started s = [] -> 0 <= entryother_size <= PGSIZE ->
  wp (startothers me cpus) (fun _ s' =>
    started s' = zip others (ap_words <$> fl) /\ kmem_inv (sm_km s') (drop (length others) fl) /\
    (forall i, 0 <= i < entryother_size -> mem (sm_km s') (ap_code + i) = load8 (mem (sm_km s)) (entryother_start + i)) /\
    (forall va, 0 <= va < 2 ^ 32 -> translate_ps entrypgdir va =
       if va <? 2 ^ 22 then Some va else if (KERNBASE <=? va) && (va <? KERNBASE + 2 ^ 22) then Some (va - KERNBASE) else None)) s.
Proof.
  intros others Hk Hlen Hst Hsz. unfold startothers. wp_step. apply wp_lift. unfold memmoveM. wp_step. set (m1 := memmove _ _ _ _).
  assert (kmem_inv (set_mem m1 (sm_km s)) fl) as Hk1.
  { apply low_write; [done|]. intros x Hx. subst m1. rewrite memmove_eq by lia. unfold ap_code. change (P2V 0x7000) with 0x80007000. unfold PGSIZE in Hsz.
    destruct (Z.leb_spec 0x80007000 x), (Z.ltb_spec x (0x80007000 + entryother_size)); (done || lia). }
  apply (wp_start_each me cpus _ fl); [exact Hk1|done|]. intros k' K1 M1. cbn [set_sm_km sm_km started]. rewrite Hst. cbn [app].
  split_and!; [done|done| |].
  - intros i Hi. rewrite M1 by lia. cbn [set_sm_km sm_km mem set_mem]. subst m1. rewrite memmove_eq by lia.
    destruct (Z.leb_spec ap_code (ap_code + i)), (Z.ltb_spec (ap_code + i) (ap_code + entryother_size)); cbn [andb]; try lia. f_equal. lia.
  - apply entry_translate.
Qed.

(** A kernel image with two free pages and three processors. *)
Definition boot_words : SmpImage := {| entryother_start := 0x8010a48c; entryother_size := 138; mpenter_addr := 0x80103a10; entrypgdir_addr := 0x80109000 |}.
Definition two_pages : kmem_t := mk_kmem false false 0x80200000 (store32 (fun _ => 0) 0x80200000 0x80201000).
Lemma two_pages_inv : @kmem_inv demo_image two_pages [0x80200000; 0x80201000].
Proof.
  constructor; [done| |repeat constructor; by vm_compute|repeat constructor; set_solver by lia].
  constructor; [done|]. cbn [mem two_pages]. rewrite load32_store32_eq. change (u32 0x80201000) with 0x80201000. constructor; [done|].
  rewrite load32_store32_ne by lia. constructor.
Qed.
Lemma startothers_stacks_witness :
  wp (@startothers boot_words 1 [0; 1; 2]) (fun _ s' => fst <$> started s' = [0; 2]) (mk_smp two_pages []).
Proof.
  eapply wp_mono; [apply (@startothers_stacks demo_image demo_image_ok boot_words 1 [0; 1; 2] (mk_smp two_pages []) [0x80200000; 0x80201000] two_pages_inv);
    [apply Nat.leb_le; reflexivity|reflexivity|cbn; unfold PGSIZE; lia]|].
  intros u s1 [Hs _]. by rewrite Hs.
Defined.
