(* ===== verification/Apic.v ===== *)
(** * The interrupt controllers and the clock

    [lapic.c], [ioapic.c] and [picirq.c].  The registers of the two interrupt
    controllers in memory ([Mmio]) and the ports ([Ports]) are interfaces;
    [RtcOk] and [IoapicOk] state what the documentation of the devices promises.

    Then: the clock is read whole, and interrupts are routed one by one. *)
From Stdlib Require Import ZArith Lia Bool.
From stdpp Require Import base numbers list strings.
From S2P Require Import Prelude Machine Mp.

Class Mmio (HW : Type) : Type := {
  mmio_set : Z -> Z -> HW -> HW;
  mmio_get : Z -> HW -> Z * HW;
}.

Definition T_IRQ0 : Z := 32.
Definition IRQ_TIMER : Z := 0.
Definition IRQ_ERROR : Z := 19.
Definition IRQ_SPURIOUS : Z := 31.

(** Registers of the local APIC, as indices of words. *)
Definition ID : Z := 0x0020 / 4.
Definition VER : Z := 0x0030 / 4.
Definition TPR : Z := 0x0080 / 4.
Definition EOI : Z := 0x00B0 / 4.
Definition SVR : Z := 0x00F0 / 4.
Definition ENABLE : Z := 0x00000100.
Definition ESR : Z := 0x0280 / 4.
Definition ICRLO : Z := 0x0300 / 4.
Definition INIT : Z := 0x00000500.
Definition STARTUP : Z := 0x00000600.
Definition DELIVS : Z := 0x00001000.
Definition ASSERT : Z := 0x00004000.
Definition LEVEL : Z := 0x00008000.
Definition BCAST : Z := 0x00080000.
Definition ICRHI : Z := 0x0310 / 4.
Definition TIMER : Z := 0x0320 / 4.
Definition X1 : Z := 0x0000000B.
Definition PERIODIC : Z := 0x00020000.
Definition PCINT : Z := 0x0340 / 4.
Definition LINT0 : Z := 0x0350 / 4.
Definition LINT1 : Z := 0x0360 / 4.
Definition ERROR : Z := 0x0370 / 4.
Definition MASKED : Z := 0x00010000.
Definition TICR : Z := 0x0380 / 4.
Definition TDCR : Z := 0x03E0 / 4.

Definition CMOS_PORT : Z := 0x70.
Definition CMOS_RETURN : Z := 0x71.
Definition CMOS_STATA : Z := 0x0a.
Definition CMOS_STATB : Z := 0x0b.
Definition CMOS_UIP : Z := Z.shiftl 1 7.
Definition SECS : Z := 0x00.
Definition MINS : Z := 0x02.
Definition HOURS : Z := 0x04.
Definition DAY : Z := 0x07.
Definition MONTH : Z := 0x08.
Definition YEAR : Z := 0x09.

Definition IOAPIC : Z := 0xFEC00000.
Definition ioapic_reg : Z := IOAPIC.
Definition ioapic_data : Z := IOAPIC + 16.
Definition REG_ID : Z := 0x00.
Definition REG_VER : Z := 0x01.
Definition REG_TABLE : Z := 0x10.
Definition INT_DISABLED : Z := 0x00010000.

Definition IO_PIC1 : Z := 0x20.
Definition IO_PIC2 : Z := 0xA0.

Record rtcdate : Type := mk_rtcdate { second : Z; minute : Z; hour : Z; day : Z; month : Z; year : Z }.
#[global] Instance rtcdate_eq_dec : EqDecision rtcdate.
Proof. solve_decision. Defined.

(** [lapic_base] is the pointer [lapic], set by [mpinit]. *)
Record apic (HW : Type) : Type := mk_apic { ap_mem : memory; lapic_base : Z; ap_hw : HW }.
Arguments mk_apic {HW}. Arguments ap_mem {HW}. Arguments lapic_base {HW}. Arguments ap_hw {HW}.

Section Controllers.
Context {HW : Type} {PT : Ports HW} {MM : Mmio HW}.
Abbreviation AP := (M (apic HW)).

Definition set_ap_mem (m : memory) (s : apic HW) := mk_apic m (lapic_base s) (ap_hw s).
Definition set_ap_hw (h : HW) (s : apic HW) := mk_apic (ap_mem s) (lapic_base s) h.
Definition out_port (p v : Z) : AP unit := modify (fun s => set_ap_hw (port_out p v (ap_hw s)) s).
Definition in_port (p : Z) : AP Z := fun s => let (r, h) := port_in p (ap_hw s) in Ok r (set_ap_hw h s).
Definition set_reg (a v : Z) : AP unit := modify (fun s => set_ap_hw (mmio_set a v (ap_hw s)) s).
Definition get_reg (a : Z) : AP Z := fun s => let (r, h) := mmio_get a (ap_hw s) in Ok r (set_ap_hw h s).

(** ** The local APIC *)
Definition lapic_reg (index : Z) : AP Z := a <- gets lapic_base ;; get_reg (a + 4 * index).
Definition lapicw (index value : Z) : AP unit :=
  a <- gets lapic_base ;;
  set_reg (a + 4 * index) value ;;;
  lapic_reg ID ;;;
  ret tt.

Fixpoint wait_delivered (fuel : nat) : AP unit :=
  match fuel with
  | O => nofuel
  | S fuel' => r <- lapic_reg ICRLO ;; if Z.land r DELIVS =? 0 then ret tt else wait_delivered fuel'
  end.
Definition lapicinit (fuel : nat) : AP unit :=
  a <- gets lapic_base ;;
  if a =? 0 then ret tt
  else
    lapicw SVR (Z.lor ENABLE (T_IRQ0 + IRQ_SPURIOUS)) ;;;
    lapicw TDCR X1 ;;;
    lapicw TIMER (Z.lor PERIODIC (T_IRQ0 + IRQ_TIMER)) ;;;
    lapicw TICR 10000000 ;;;
    lapicw LINT0 MASKED ;;;
    lapicw LINT1 MASKED ;;;
    v <- lapic_reg VER ;;
    when (4 <=? Z.land (Z.shiftr v 16) 0xFF) (lapicw PCINT MASKED) ;;;
    lapicw ERROR (T_IRQ0 + IRQ_ERROR) ;;;
    lapicw ESR 0 ;;;
    lapicw ESR 0 ;;;
    lapicw EOI 0 ;;;
    lapicw ICRHI 0 ;;;
    lapicw ICRLO (Z.lor (Z.lor BCAST INIT) LEVEL) ;;;
    wait_delivered fuel ;;;
    lapicw TPR 0.

Definition lapicid : AP Z :=
  a <- gets lapic_base ;;
  if a =? 0 then ret 0 else r <- lapic_reg ID ;; ret (Z.shiftr r 24).
Definition lapiceoi : AP unit :=
  a <- gets lapic_base ;;
  when (negb (a =? 0)) (lapicw EOI 0).
Definition microdelay (us : Z) : AP unit := ret tt.

Definition store16 (m : memory) (a v : Z) : memory := store8 (store8 m a v) (a + 1) (Z.shiftr v 8).
Definition lapicstartap (apicid addr : Z) : AP unit :=
  out_port CMOS_PORT 0xF ;;;
  out_port (CMOS_PORT + 1) 0x0A ;;;
  let wrv := P2V (Z.lor (Z.shiftl 0x40 4) 0x67) in
  modify (fun s => set_ap_mem (store16 (store16 (ap_mem s) wrv 0) (wrv + 2) (u16 (Z.shiftr addr 4))) s) ;;;
  lapicw ICRHI (Z.shiftl apicid 24) ;;;
  lapicw ICRLO (Z.lor (Z.lor INIT LEVEL) ASSERT) ;;;
  microdelay 200 ;;;
  lapicw ICRLO (Z.lor INIT LEVEL) ;;;
  microdelay 100 ;;;
  for_range 2 0 (fun _ =>
    lapicw ICRHI (Z.shiftl apicid 24) ;;;
    lapicw ICRLO (Z.lor STARTUP (Z.shiftr addr 12)) ;;;
    microdelay 200).

(** ** The clock *)
Definition cmos_read (reg : Z) : AP Z :=
  out_port CMOS_PORT reg ;;;
  microdelay 200 ;;;
  in_port CMOS_RETURN.

Definition fill_rtcdate : AP rtcdate :=
  se <- cmos_read SECS ;;
  mi <- cmos_read MINS ;;
  ho <- cmos_read HOURS ;;
  da <- cmos_read DAY ;;
  mo <- cmos_read MONTH ;;
  ye <- cmos_read YEAR ;;
  ret (mk_rtcdate se mi ho da mo ye).

Fixpoint stable_date (fuel : nat) : AP rtcdate :=
  match fuel with
  | O => nofuel
  | S fuel' =>
      t1 <- fill_rtcdate ;;
      a <- cmos_read CMOS_STATA ;;
      if negb (Z.land a CMOS_UIP =? 0) then stable_date fuel'
      else
        t2 <- fill_rtcdate ;;
        if bool_decide (t1 = t2) then ret t1 else stable_date fuel'
  end.

Definition CONV (x : Z) : Z := u32 (Z.shiftr x 4 * 10 + Z.land x 0xf).
Definition conv_date (t : rtcdate) : rtcdate :=
  mk_rtcdate (CONV (second t)) (CONV (minute t)) (CONV (hour t)) (CONV (day t)) (CONV (month t)) (CONV (year t)).
Definition cmostime (fuel : nat) : AP rtcdate :=
  sb <- cmos_read CMOS_STATB ;;
  let bcd := Z.land sb (Z.shiftl 1 2) =? 0 in
  t1 <- stable_date fuel ;;
  let t1 := if bcd then conv_date t1 else t1 in
  ret (mk_rtcdate (second t1) (minute t1) (hour t1) (day t1) (month t1) (u32 (year t1 + 2000))).

(** ** The I/O APIC *)
Definition ioapicread (reg : Z) : AP Z := set_reg ioapic_reg reg ;;; get_reg ioapic_data.
Definition ioapicwrite (reg data : Z) : AP unit := set_reg ioapic_reg reg ;;; set_reg ioapic_data data.

(** The message about a different [id] is left out. *)
Definition ioapicinit : AP unit :=
  v <- ioapicread REG_VER ;;
  let maxintr := Z.land (Z.shiftr v 16) 0xFF in
  ioapicread REG_ID ;;;
  for_range (S (Z.to_nat maxintr)) 0 (fun i =>
    ioapicwrite (REG_TABLE + 2 * Z.of_nat i) (Z.lor INT_DISABLED (T_IRQ0 + Z.of_nat i)) ;;;
    ioapicwrite (REG_TABLE + 2 * Z.of_nat i + 1) 0).

Definition ioapicenable (irq cpunum : Z) : AP unit :=
  ioapicwrite (REG_TABLE + 2 * irq) (T_IRQ0 + irq) ;;;
  ioapicwrite (REG_TABLE + 2 * irq + 1) (u32 (Z.shiftl cpunum 24)).

(** ** The old interrupt controllers *)
Definition picinit : AP unit := out_port (IO_PIC1 + 1) 0xFF ;;; out_port (IO_PIC2 + 1) 0xFF.
End Controllers.

(** * The clock is read whole, and interrupts are routed one by one *)

(** ** The clock

    [clock] is the date the clock holds, [mode] status register B, [age] how
    many reads ago the clock last moved on, [dates] all dates it has held, the
    latest first.  Once in a second, within [period] reads, the clock is
    updated.  Status register A announces the update from read [lead] on; it
    begins at read [quiet], which is at least the six reads of [fill_rtcdate]
    later (the documentation of the MC146818 promises 244 microseconds from the
    announcement to the update), and from then until the clock has moved on the
    registers of the date may have any value. *)
Definition field (d : rtcdate) (r : Z) : option Z :=
  if r =? SECS then Some (second d) else if r =? MINS then Some (minute d) else if r =? HOURS then Some (hour d)
  else if r =? DAY then Some (day d) else if r =? MONTH then Some (month d) else if r =? YEAR then Some (year d) else None.
Definition bcd (x : Z) : Z := 16 * (x / 10) + x mod 10.
Definition shown (mode x : Z) : Z := if Z.testbit mode 2 then x else bcd x.
(** Bit 1 of status register B: hours from 0 to 23, or from 1 to 12 with bit 7
    for the afternoon. *)
Definition shown_hour (mode x : Z) : Z :=
  if Z.testbit mode 1 then shown mode x
  else Z.lor (shown mode ((x + 11) mod 12 + 1)) (if x <? 12 then 0 else 0x80).
Definition shown_in (mode r x : Z) : Z := if r =? HOURS then shown_hour mode x else shown mode x.
Definition date_ok (d : rtcdate) : Prop := forall r x, field d r = Some x -> 0 <= x < 100.

Class RtcOk {HW : Type} (PT : Ports HW) (sel mode : HW -> Z) (clock : HW -> rtcdate) (age : HW -> nat) (dates : HW -> list rtcdate)
    (lead quiet period : nat) : Prop := {
  rtc_lead : (26 <= lead)%nat;
  rtc_quiet : (lead + 6 <= quiet)%nat;
  rtc_age : forall h, (age h < period)%nat;
  rtc_dates : forall h, date_ok (clock h);
  rtc_select : forall r h, let h' := port_out CMOS_PORT r h in
    sel h' = r /\ mode h' = mode h /\ clock h' = clock h /\ age h' = age h /\ dates h' = dates h;
  rtc_read : forall h, let (v, h') := port_in CMOS_RETURN h in
    mode h' = mode h /\
    (clock h' = clock h /\ age h' = S (age h) /\ dates h' = dates h \/ (quiet <= age h)%nat /\ age h' = O /\ dates h' = clock h' :: dates h) /\
    ((age h < quiet)%nat -> forall x, field (clock h) (sel h) = Some x -> v = shown_in (mode h) (sel h) x) /\
    (sel h = CMOS_STATA -> Z.land v CMOS_UIP = 0 <-> (age h < lead)%nat) /\
    (sel h = CMOS_STATB -> v = mode h);
}.

Section Clock.
Context {HW : Type} {PT : Ports HW} {MM : Mmio HW} (sel mode : HW -> Z) (clock : HW -> rtcdate) (age : HW -> nat) (dates : HW -> list rtcdate).
Context (lead quiet period : nat) {RO : RtcOk PT sel mode clock age dates lead quiet period}.

Abbreviation hw s := (ap_hw s).
Definition show_date (m : Z) (d : rtcdate) : rtcdate :=
  mk_rtcdate (shown m (second d)) (shown m (minute d)) (shown_hour m (hour d)) (shown m (day d)) (shown m (month d)) (shown m (year d)).

(** What [n] reads may do: nothing, or one move of the clock. *)
Inductive passed (n : nat) (h h' : HW) : Prop :=
| passed_still : clock h' = clock h -> age h' = (age h + n)%nat -> dates h' = dates h -> passed n h h'
| passed_moved : (quiet < age h + n)%nat -> (age h' < n)%nat -> dates h' = clock h' :: dates h -> passed n h h'.

Lemma wp_cmos_read r s (Q : Z -> apic HW -> Prop) :
  (forall v h, mode h = mode (hw s) -> passed 1 (hw s) h ->
     ((age (hw s) < quiet)%nat -> forall x, field (clock (hw s)) r = Some x -> v = shown_in (mode (hw s)) r x) ->
     (r = CMOS_STATA -> Z.land v CMOS_UIP = 0 <-> (age (hw s) < lead)%nat) -> (r = CMOS_STATB -> v = mode (hw s)) -> Q v (set_ap_hw h s)) ->
  wp (cmos_read r) Q s.
Proof.
  intros HQ. unfold cmos_read. wp_step. unfold out_port. wp_step. wp_step. unfold microdelay. wp_step. unfold in_port, wp. cbn [set_ap_hw ap_hw].
  destruct (rtc_select r (hw s)) as (S1 & S2 & S3 & S4 & S5). pose proof (rtc_read (port_out CMOS_PORT r (hw s))) as Hr.
  destruct (port_in CMOS_RETURN (port_out CMOS_PORT r (hw s))) as [v h]. rewrite S1, S2, S3, S4, S5 in Hr. destruct Hr as (R1 & R2 & R3 & R4 & R5).
  apply HQ; [done| |done|done|done]. destruct R2 as [(E1 & E2 & E3)|(E1 & E2 & E3)]; [left; [done|lia|done]|right; [lia|lia|done]].
Qed.

Lemma passed_trans n m h h1 h2 : (n + m <= quiet)%nat -> passed n h h1 -> passed m h1 h2 -> passed (n + m) h h2.
Proof.
  intros Hl [C1 A1 D1|A1 B1 D1] [C2 A2 D2|A2 B2 D2]; [left|right|right|lia]; try congruence; try lia.
Qed.

(** The clock does not move before the update. *)
Lemma passed_early n h h' : passed n h h' -> (age h + n <= quiet)%nat -> clock h' = clock h /\ age h' = (age h + n)%nat.
Proof. intros [C A D|A B D] Hq; [done|lia]. Qed.

(** Six reads that end before the update give the date, others may give anything. *)
Lemma wp_fill_rtcdate s (Q : rtcdate -> apic HW -> Prop) :
  (forall t h, mode h = mode (hw s) -> passed 6 (hw s) h ->
     ((age (hw s) + 6 <= quiet)%nat -> t = show_date (mode (hw s)) (clock (hw s))) -> Q t (set_ap_hw h s)) ->
  wp fill_rtcdate Q s.
Proof.
  intros HQ. pose proof rtc_lead as Hlead. pose proof rtc_quiet as Hquiet. unfold fill_rtcdate.
  wp_step. apply wp_cmos_read. intros v1 h1 M1 P1 F1 _ _. wp_step. apply wp_cmos_read. cbn [set_ap_hw ap_hw]. intros v2 h2 M2 P2 F2 _ _.
  wp_step. apply wp_cmos_read. cbn [set_ap_hw ap_hw]. intros v3 h3 M3 P3 F3 _ _. wp_step. apply wp_cmos_read. cbn [set_ap_hw ap_hw]. intros v4 h4 M4 P4 F4 _ _.
  wp_step. apply wp_cmos_read. cbn [set_ap_hw ap_hw]. intros v5 h5 M5 P5 F5 _ _. wp_step. apply wp_cmos_read. cbn [set_ap_hw ap_hw]. intros v6 h6 M6 P6 F6 _ _. wp_step.
  pose proof (passed_trans 1 1 _ _ _ ltac:(lia) P1 P2) as Q2. pose proof (passed_trans 2 1 _ _ _ ltac:(lia) Q2 P3) as Q3.
  pose proof (passed_trans 3 1 _ _ _ ltac:(lia) Q3 P4) as Q4. pose proof (passed_trans 4 1 _ _ _ ltac:(lia) Q4 P5) as Q5.
  apply (HQ _ h6); [congruence|exact (passed_trans 5 1 _ _ _ ltac:(lia) Q5 P6)|]. intros Ha.
  destruct (passed_early _ _ _ P1 ltac:(lia)) as [C1 A1]. destruct (passed_early _ _ _ Q2 ltac:(lia)) as [C2 A2].
  destruct (passed_early _ _ _ Q3 ltac:(lia)) as [C3 A3]. destruct (passed_early _ _ _ Q4 ltac:(lia)) as [C4 A4].
  destruct (passed_early _ _ _ Q5 ltac:(lia)) as [C5 A5].
  rewrite M5, M4, M3, M2, M1, C5 in F6. rewrite M4, M3, M2, M1, C4 in F5. rewrite M3, M2, M1, C3 in F4. rewrite M2, M1, C2 in F3. rewrite M1, C1 in F2.
  unfold show_date. by rewrite (F1 ltac:(lia) _ eq_refl), (F2 ltac:(lia) _ eq_refl), (F3 ltac:(lia) _ eq_refl), (F4 ltac:(lia) _ eq_refl),
    (F5 ltac:(lia) _ eq_refl), (F6 ltac:(lia) _ eq_refl).
Qed.

(** A date the clock has shown since [h0]. *)
Definition seen_since (h0 h : HW) (d : rtcdate) : Prop := exists l, dates h = l ++ dates h0 /\ d ∈ l ++ [clock h0].
Lemma seen_now h : seen_since h h (clock h).
Proof. exists []. split; [done|by left]. Qed.
Lemma seen_passed n h0 h h' d : seen_since h0 h d -> passed n h h' -> seen_since h0 h' d.
Proof.
  intros (l & Hl & Hd) [C A D|A B D]; [exists l; split; [congruence|done]|]. exists (clock h' :: l). split; [by rewrite D, Hl|by right].
Qed.
Lemma seen_clock n h0 h h' : seen_since h0 h (clock h) -> passed n h h' -> seen_since h0 h' (clock h').
Proof.
  intros (l & Hl & Hd) [C A D|A B D]; [exists l; split; [congruence|by rewrite C]|]. exists (clock h' :: l). split; [by rewrite D, Hl|by left].
Qed.

(** Rounds of the loop left, for a clock that last moved [a] reads ago. *)
Definition rounds (fuel a : nat) : Prop := (1 <= fuel /\ a + 13 < lead \/ period + 14 <= 7 * fuel + a)%nat.
Lemma rounds_next fuel n h h' : (7 <= n <= 13)%nat -> rounds (S fuel) (age h) -> (age h + 13 < lead -> False)%nat -> passed n h h' -> rounds fuel (age h').
Proof.
  intros Hn [[_ H]|H] Hno [C A D|A B D]; try (exfalso; auto; fail); pose proof rtc_lead; pose proof (rtc_age h).
  - right. lia.
  - left. lia.
Qed.

(** When status register A shows no update the second six reads are right;
    the first ones may be anything, but they are compared with them. *)
Lemma wp_stable_date fuel : forall h0 s (Q : rtcdate -> apic HW -> Prop), rounds fuel (age (hw s)) -> seen_since h0 (hw s) (clock (hw s)) ->
  (forall d h, mode h = mode (hw s) -> seen_since h0 h d -> date_ok d -> Q (show_date (mode (hw s)) d) (set_ap_hw h s)) -> wp (stable_date fuel) Q s.
Proof.
  induction fuel as [|fuel IH]; intros h0 s Q Hf Hc HQ.
  { exfalso. pose proof (rtc_age (hw s)). destruct Hf as [Hf|Hf]; lia. }
  pose proof rtc_lead as Hlead. pose proof rtc_quiet as Hquiet. cbn [stable_date].
  wp_step. apply wp_fill_rtcdate. intros t1 h1 M1 P1 F1. wp_step. apply wp_cmos_read.
  cbn [set_ap_hw ap_hw]. intros v h2 M2 P2 _ F2 _. specialize (F2 eq_refl). pose proof (passed_trans 6 1 _ _ _ ltac:(lia) P1 P2) as P7.
  destruct (Z.eqb_spec (Z.land v CMOS_UIP) 0) as [Hu|Hu]; cbn [negb].
  2: { apply (IH h0); cbn [set_ap_hw ap_hw].
    - eapply (rounds_next _ 7); [lia|exact Hf| |exact P7]. intros Ha. apply Hu, F2. destruct P1 as [C A D|A B D]; lia.
    - by eapply seen_clock.
    - intros d h Hm Hs Hok. rewrite M2, M1. apply (HQ d h); [congruence|done|done]. }
  apply F2 in Hu. destruct (passed_early _ _ _ P2 ltac:(lia)) as [C2 A2].
  wp_step. apply wp_fill_rtcdate. cbn [set_ap_hw ap_hw]. intros t2 h3 M3 P3 F3. pose proof (passed_trans 7 6 _ _ _ ltac:(lia) P7 P3) as P13.
  specialize (F3 ltac:(lia)). case_bool_decide as Ht.
  - wp_step. rewrite Ht, F3, M2, M1. apply (HQ (clock h2) h3); [congruence| |apply rtc_dates]. eapply seen_passed; [|exact P3]. by eapply seen_clock.
  - apply (IH h0); cbn [set_ap_hw ap_hw].
    + eapply (rounds_next _ 13); [lia|exact Hf| |exact P13]. intros Ha. apply Ht. destruct (passed_early _ _ _ P1 ltac:(lia)) as [C1 A1].
      by rewrite (F1 ltac:(lia)), F3, M2, M1, C2, C1.
    + by eapply seen_clock.
    + intros d h Hm Hs Hok. rewrite M3, M2, M1. apply (HQ d h); [congruence|done|done].
Qed.

Lemma conv_bcd x : 0 <= x < 100 -> CONV (bcd x) = x.
Proof.
  intros Hx. unfold CONV, bcd. rewrite Z.shiftr_div_pow2 by lia. change 0xf with (Z.ones 4). rewrite Z.land_ones by lia. change (2 ^ 4) with 16.
  rewrite u32_small by (rewrite pow2_32; zlia). zlia.
Qed.
Lemma conv_show m d : Z.testbit m 1 = true -> Z.testbit m 2 = false -> date_ok d -> conv_date (show_date m d) = d.
Proof.
  intros H1 H2 Hd. unfold date_ok, field in Hd. destruct d as [a b c e f g]. cbn in Hd. unfold conv_date, show_date, shown_hour, shown.
  rewrite H1, H2. cbn [second minute hour day month year].
  by rewrite !conv_bcd by ((by apply (Hd SECS)) || (by apply (Hd MINS)) || (by apply (Hd HOURS)) || (by apply (Hd DAY)) || (by apply (Hd MONTH)) || (by apply (Hd YEAR))).
Qed.

Lemma wp_cmostime fuel s (Q : rtcdate -> apic HW -> Prop) : Z.testbit (mode (hw s)) 1 = true -> (period + 14 <= 7 * fuel)%nat ->
  (forall d h, seen_since (hw s) h d -> Q (mk_rtcdate (second d) (minute d) (hour d) (day d) (month d) (year d + 2000)) (set_ap_hw h s)) -> wp (cmostime fuel) Q s.
Proof.
  intros H24 Hf HQ. unfold cmostime. wp_step. apply wp_cmos_read. intros v h1 M1 P1 _ _ F1. rewrite (F1 eq_refl). cbv zeta. wp_step.
  apply (wp_stable_date _ (hw s)); cbn [set_ap_hw ap_hw]; [right; lia|eapply seen_clock; [apply seen_now|exact P1]|]. intros d h Hm Hs Hok. wp_step. rewrite M1.
  change (Z.shiftl 1 2) with (2 ^ 2). rewrite land_pow2 by lia.
  specialize (HQ d h Hs). pose proof (Hok YEAR (year d) eq_refl). unfold show_date, shown_hour. rewrite H24.
  destruct (Z.testbit (mode (hw s)) 2) eqn:H2; cbn [negb].
  - unfold shown. rewrite H2. cbn [second minute hour day month year]. rewrite u32_small by (rewrite pow2_32; lia). exact HQ.
  - pose proof (conv_show (mode (hw s)) d H24 H2 Hok) as Hconv. unfold show_date, shown_hour in Hconv. rewrite H24 in Hconv. rewrite Hconv.
    rewrite u32_small by (rewrite pow2_32; lia). exact HQ.
Qed.
End Clock.

(** C22: the clock is read whole.  For a clock that counts 24 hours, and with
    fuel for one period of it, [cmostime] returns a date the clock has held
    since the call, its digits converted where the clock counts in decimal
    digits, and never a mixture of the date before and after an update or what
    the registers hold while the clock is being updated, wherever the update
    falls between the thirteen reads of a round. *)
Theorem cmostime_reads_clock {HW : Type} {PT : Ports HW} (sel mode : HW -> Z) (clock : HW -> rtcdate) (age : HW -> nat)
    (dates : HW -> list rtcdate) (lead quiet period : nat) {RO : RtcOk PT sel mode clock age dates lead quiet period} (fuel : nat) (s : apic HW) :
  Z.testbit (mode (ap_hw s)) 1 = true -> (period + 14 <= 7 * fuel)%nat ->
  wp (cmostime fuel) (fun r s' => exists d, seen_since clock dates (ap_hw s) (ap_hw s') d /\
    r = mk_rtcdate (second d) (minute d) (hour d) (day d) (month d) (year d + 2000)) s.
Proof. intros H24 Hf. eapply (wp_cmostime sel mode clock age dates lead quiet period); [done|done|]. intros d h Hd. by exists d. Qed.

(** ** The I/O APIC

    [isel] is the register selected, [ireg] the registers. *)
Class IoapicOk {HW : Type} (MM : Mmio HW) (isel : HW -> Z) (ireg : HW -> Z -> Z) : Prop := {
  io_select : forall r h, isel (mmio_set ioapic_reg r h) = r /\ forall q, ireg (mmio_set ioapic_reg r h) q = ireg h q;
  io_write : forall v h, REG_TABLE <= isel h ->
    isel (mmio_set ioapic_data v h) = isel h /\ forall q, ireg (mmio_set ioapic_data v h) q = if q =? isel h then v else ireg h q;
  io_read : forall h, let (v, h') := mmio_get ioapic_data h in v = ireg h (isel h) /\ isel h' = isel h /\ forall q, ireg h' q = ireg h q;
}.

(** An entry of the redirection table, as the controller reads it. *)
Record route : Type := mk_route { rt_masked : bool; rt_vector : Z; rt_cpu : Z }.
Definition route_at (reg : Z -> Z) (i : Z) : route :=
  mk_route (Z.testbit (reg (REG_TABLE + 2 * i)) 16) (Z.land (reg (REG_TABLE + 2 * i)) 0xFF) (Z.shiftr (reg (REG_TABLE + 2 * i + 1)) 24).

Section Routing.
Context {HW : Type} {MM : Mmio HW} (isel : HW -> Z) (ireg : HW -> Z -> Z) {IO : IoapicOk MM isel ireg}.

Lemma wp_ioapicwrite r v s (Q : unit -> apic HW -> Prop) : REG_TABLE <= r ->
  (forall h, (forall q, ireg h q = if q =? r then v else ireg (ap_hw s) q) -> Q tt (set_ap_hw h s)) -> wp (ioapicwrite r v) Q s.
Proof.
  intros Hr HQ. unfold ioapicwrite, set_reg. wp_step. wp_step. wp_step. destruct (io_select r (ap_hw s)) as [S1 S2]. cbn [set_ap_hw ap_hw].
  destruct (io_write v (mmio_set ioapic_reg r (ap_hw s))) as [W1 W2]; [lia|]. apply (HQ (mmio_set ioapic_data v (mmio_set ioapic_reg r (ap_hw s)))).
  intros q. by rewrite W2, S1, S2.
Qed.
Lemma wp_ioapicread r s (Q : Z -> apic HW -> Prop) : (forall h, (forall q, ireg h q = ireg (ap_hw s) q) -> Q (ireg (ap_hw s) r) (set_ap_hw h s)) -> wp (ioapicread r) Q s.
Proof.
  intros HQ. unfold ioapicread, set_reg. wp_step. wp_step. unfold get_reg, wp. cbn [set_ap_hw ap_hw]. destruct (io_select r (ap_hw s)) as [S1 S2].
  pose proof (io_read (mmio_set ioapic_reg r (ap_hw s))) as Hr. destruct (mmio_get ioapic_data (mmio_set ioapic_reg r (ap_hw s))) as [v h].
  destruct Hr as (-> & R1 & R2). rewrite S1, S2. apply (HQ h). intros q. by rewrite R2, S2.
Qed.

(** Two writes set one entry. *)
Lemma wp_set_route i lo hi s (Q : unit -> apic HW -> Prop) : 0 <= i ->
  (forall h, (forall j, route_at (ireg h) j = if j =? i then mk_route (Z.testbit lo 16) (Z.land lo 0xFF) (Z.shiftr hi 24) else route_at (ireg (ap_hw s)) j) -> Q tt (set_ap_hw h s)) ->
  wp (ioapicwrite (REG_TABLE + 2 * i) lo ;;; ioapicwrite (REG_TABLE + 2 * i + 1) hi) Q s.
Proof.
  intros Hi HQ. wp_step. apply wp_ioapicwrite; [lia|]. intros h1 H1. apply wp_ioapicwrite; [lia|]. cbn [set_ap_hw ap_hw]. intros h2 H2. apply (HQ h2).
  intros j. unfold route_at. rewrite !H2, !H1. destruct (Z.eqb_spec j i) as [->|Hne].
  - rewrite Z.eqb_refl, (proj2 (Z.eqb_neq (REG_TABLE + 2 * i) (REG_TABLE + 2 * i + 1))), Z.eqb_refl by lia. done.
  - rewrite !(proj2 (Z.eqb_neq _ _)) by lia. done.
Qed.
End Routing.

(** Interrupts are routed one by one.  [ioapicinit] leaves every interrupt of
    the I/O APIC masked, with its own vector and no processor; [ioapicenable] then
    unmasks one, with that vector, for one processor, and touches no other. *)
Theorem ioapic_routes {HW : Type} {MM : Mmio HW} (isel : HW -> Z) (ireg : HW -> Z -> Z) {IO : IoapicOk MM isel ireg} (s : apic HW) :
  let n := Z.land (Z.shiftr (ireg (ap_hw s) REG_VER) 16) 0xFF in
  wp ioapicinit (fun _ s' => forall i, 0 <= i < 224 -> i <= n -> route_at (ireg (ap_hw s')) i = mk_route true (T_IRQ0 + i) 0) s /\
  forall irq cpu, 0 <= irq < 224 -> 0 <= cpu < 256 ->
    wp (ioapicenable irq cpu) (fun _ s' => forall i, route_at (ireg (ap_hw s')) i =
      if i =? irq then mk_route false (T_IRQ0 + irq) cpu else route_at (ireg (ap_hw s)) i) s.
Proof.
  intros n. assert (forall i, 0 <= i < 224 -> Z.land (T_IRQ0 + i) 0xFF = T_IRQ0 + i /\ Z.testbit (T_IRQ0 + i) 16 = false /\
    Z.land (Z.lor INT_DISABLED (T_IRQ0 + i)) 0xFF = T_IRQ0 + i /\ Z.testbit (Z.lor INT_DISABLED (T_IRQ0 + i)) 16 = true) as Hv.
  { intros i Hi. unfold T_IRQ0. change 0xFF with (Z.ones 8). rewrite Z.lor_spec, Z.land_lor_distr_l, !Z.land_ones by lia. change (INT_DISABLED mod 2 ^ 8) with 0.
    rewrite Z.lor_0_l. change (2 ^ 8) with 256. rewrite Z.mod_small by lia. split_and!; try done. apply Z.bits_above_log2; [lia|]. apply Z.log2_lt_pow2; lia. }
  split.
  - unfold ioapicinit. wp_step. apply (wp_ioapicread isel ireg). intros h1 H1. fold n. cbv zeta. wp_step. apply (wp_ioapicread isel ireg). cbn [set_ap_hw ap_hw]. intros h2 H2.
    apply (wp_for_range (fun k s' => forall i, 0 <= i < 224 -> i < Z.of_nat k -> route_at (ireg (ap_hw s')) i = mk_route true (T_IRQ0 + i) 0)).
    + lia.
    + intros k s' Hk IH. apply (wp_set_route isel ireg); [lia|]. intros h Hh i Hi Hlt. cbn [set_ap_hw ap_hw]. rewrite Hh. destruct (Z.eqb_spec i (Z.of_nat k)) as [->|Hne].
      * destruct (Hv (Z.of_nat k) Hi) as (_ & _ & -> & ->). done.
      * apply IH; lia.
    + intros s' Hs i Hi Hle. apply Hs; [done|]. assert (0 <= n) by (apply Z.land_nonneg; right; lia). lia.
  - intros irq cpu Hi Hc. unfold ioapicenable. apply (wp_set_route isel ireg); [lia|]. intros h Hh i. cbn [set_ap_hw ap_hw]. rewrite Hh.
    destruct (Hv irq Hi) as (-> & -> & _). rewrite Z.shiftl_mul_pow2, u32_small, Z.shiftr_div_pow2, Z.div_mul by (rewrite ?pow2_32; lia). done.
Qed.

(** A clock of decimal digits that is updated every hundred reads; the last four
    of them fall into the update and give nonsense. *)
Record tick_hw : Type := mk_tick { tk_sel : Z; tk_age : nat; tk_n : nat }.
Definition tick_mode (h : tick_hw) : Z := 2.
Definition tick_date (n : nat) : rtcdate := mk_rtcdate (Z.of_nat n mod 60) 30 12 15 11 26.
Definition tick_clock (h : tick_hw) : rtcdate := tick_date (tk_n h).
Definition tick_age (h : tick_hw) : nat := Nat.min 99 (tk_age h).
Definition tick_dates (h : tick_hw) : list rtcdate := tick_date <$> rev (seq 0 (S (tk_n h))).
Definition tick_value (h : tick_hw) : Z :=
  if tk_sel h =? CMOS_STATA then (if (tick_age h <? 90)%nat then 0x26 else 0xa6)
  else if tk_sel h =? CMOS_STATB then 2
  else if (96 <=? tick_age h)%nat then 0xff
  else match field (tick_clock h) (tk_sel h) with Some x => bcd x | None => 0 end.
Definition tick_ports : Ports tick_hw := {|
  port_out := fun p v h => if p =? CMOS_PORT then mk_tick v (tk_age h) (tk_n h) else h;
  port_in := fun _ h =>
    (tick_value h, if (99 <=? tick_age h)%nat then mk_tick (tk_sel h) 0 (S (tk_n h)) else mk_tick (tk_sel h) (S (tk_age h)) (tk_n h));
|}.
Lemma tick_reads h x : (tick_age h < 96)%nat -> field (tick_clock h) (tk_sel h) = Some x -> tick_value h = shown_in 2 (tk_sel h) x.
Proof.
  intros Ha Hx. unfold tick_value. rewrite (proj2 (Nat.leb_gt _ _) Ha), Hx. destruct (Z.eqb_spec (tk_sel h) CMOS_STATA) as [E|_]; [by rewrite E in Hx|].
  destruct (Z.eqb_spec (tk_sel h) CMOS_STATB) as [E|_]; [by rewrite E in Hx|]. unfold shown_in, shown_hour. by destruct (_ =? HOURS).
Qed.
Lemma tick_ok : RtcOk tick_ports tk_sel tick_mode tick_clock tick_age tick_dates 90 96 100.
Proof.
  constructor.
  - lia.
  - lia.
  - intros h. unfold tick_age. lia.
  - intros h r x. unfold field. cbn [tick_clock tick_date second minute hour day month year].
    repeat (destruct (r =? _); [intros [= <-]; zlia|]). done.
  - intros r h. done.
  - intros h. cbn [port_in tick_ports]. split; [done|]. split.
    + destruct (Nat.leb_spec 99 (tick_age h)) as [H|H]; [right|left].
      * split_and!; [lia|done|]. unfold tick_dates, tick_clock. cbn [tk_n]. by rewrite (seq_S (S (tk_n h))), rev_app_distr.
      * split_and!; [done| |done]. unfold tick_age in *. cbn [tk_age]. lia.
    + split_and!; [intros Ha x; by apply tick_reads| |by unfold tick_value; intros ->].
      intros E. unfold tick_value. rewrite E. cbn [Z.eqb CMOS_STATA Pos.eqb].
      destruct (Nat.ltb_spec (tick_age h) 90); split; (done || lia).
Qed.
Lemma cmostime_reads_clock_witness :
  wp (@cmostime _ tick_ports 17) (fun r _ => hour r = 12 /\ year r = 2026) (mk_apic (fun _ => 0) 0 (mk_tick 0 85 7)).
Proof.
  eapply wp_mono; [apply (@cmostime_reads_clock _ tick_ports tk_sel tick_mode tick_clock tick_age tick_dates 90 96 100 tick_ok); [reflexivity|lia]|].
  intros r s' (d & (l & Hl & Hd) & ->).
  assert (exists k, d = tick_date k) as [k ->]; [|done]. apply elem_of_app in Hd as [Hd|Hd%list_elem_of_singleton]; [|by exists 7%nat].
  assert (d ∈ tick_dates (ap_hw s')) as Hd' by (rewrite Hl; apply elem_of_app; by left). apply list_elem_of_fmap in Hd' as (k & -> & _). by exists k.
Defined.

(** Registers that hold what is written. *)
Definition plain_ioapic : Mmio (Z * (Z -> Z)) := {|
  mmio_set := fun a v h => if a =? ioapic_reg then (v, snd h) else (fst h, fun q => if q =? fst h then v else snd h q);
  mmio_get := fun _ h => (snd h (fst h), h);
|}.
Lemma plain_ioapic_ok : IoapicOk plain_ioapic fst snd.
Proof. by constructor. Qed.
Lemma ioapic_routes_witness :
  wp (@ioapicenable _ plain_ioapic 1 2) (fun _ s' => route_at (snd (ap_hw s')) 1 = mk_route false 33 2) (mk_apic (fun _ => 0) 0 (0, fun _ => 0)).
Proof.
  destruct (@ioapic_routes _ plain_ioapic fst snd plain_ioapic_ok (mk_apic (fun _ => 0) 0 (0, fun _ => 0))) as [_ H].
  eapply wp_mono; [apply (H 1 2); lia|]. intros u s1 Hs. by rewrite Hs.
Defined.
