(* ===== verification/Boot.v ===== *)
(** * The boot loader

    [bootmain.c]: the kernel's ELF image is read from the disk, sector by
    sector, to the physical addresses its program headers name.  The loader
    runs before paging: memory is addressed by physical addresses.

    Then what the loader needs of the disk ([BootDisk]), the bytes each step
    leaves in memory, and the theorem about the whole image. *)
From Stdlib Require Import ZArith Lia Bool Sorted.
From stdpp Require Import base numbers list strings.
From S2P Require Import Prelude Machine FsState Ide Exec.

Definition SECTSIZE : Z := 512.
Definition elf_scratch : Z := 0x10000.
Definition load16 (m : memory) (a : Z) : Z := load8 m a + 2 ^ 8 * load8 m (a + 1).
(** A sector stored by [insl]. *)
Definition store_block (m : memory) (dst : Z) (x : block) : memory :=
  fun a => if (dst <=? a) && (a <? dst + SECTSIZE) then nth (Z.to_nat (a - dst)) x 0 else m a.

Record boot (HW : Type) : Type := mk_boot { bmem : memory; bhw : HW }.
Arguments mk_boot {HW}. Arguments bmem {HW}. Arguments bhw {HW}.

Section Loader.
Context {HW : Type} {A : Ata HW}.
Abbreviation BT := (M (boot HW)).

Definition set_bmem (m : memory) (s : boot HW) : boot HW := mk_boot m (bhw s).
Definition set_bhw (h : HW) (s : boot HW) : boot HW := mk_boot (bmem s) h.
Definition boot_out (port v : Z) : BT unit := modify (fun s => set_bhw (outb port v (bhw s)) s).
Definition boot_in (port : Z) : BT Z := fun s => let (r, h) := inb port (bhw s) in Ok r (set_bhw h s).

Fixpoint waitdisk_loop (fuel : nat) : BT unit :=
  match fuel with
  | O => nofuel
  | S fuel' =>
      r <- boot_in 0x1F7 ;;
      if Z.land r 0xC0 =? 0x40 then ret tt else waitdisk_loop fuel'
  end.
Definition waitdisk : BT unit := waitdisk_loop (S polls).

Definition readsect (dst offset : Z) : BT unit :=
  waitdisk ;;;
  boot_out 0x1F2 1 ;;;
  boot_out 0x1F3 (u8 offset) ;;;
  boot_out 0x1F4 (u8 (Z.shiftr offset 8)) ;;;
  boot_out 0x1F5 (u8 (Z.shiftr offset 16)) ;;;
  boot_out 0x1F6 (u8 (Z.lor (Z.shiftr offset 24) 0xE0)) ;;;
  boot_out 0x1F7 0x20 ;;;
  waitdisk ;;;
  fun s => let (x, h) := insl 0x1F0 (bhw s) in Ok tt (mk_boot (store_block (bmem s) dst x) h).

Fixpoint readseg_loop (fuel : nat) (pa epa offset : Z) : BT unit :=
  if pa <? epa then
    match fuel with
    | O => nofuel
    | S fuel' => readsect pa offset ;;; readseg_loop fuel' (u32 (pa + SECTSIZE)) epa (u32 (offset + 1))
    end
  else ret tt.
Definition readseg (pa count offset : Z) : BT unit :=
  let epa := u32 (pa + count) in
  let pa := u32 (pa - offset mod SECTSIZE) in
  readseg_loop (Z.to_nat ((epa - pa) / SECTSIZE + 1)) pa epa (offset / SECTSIZE + 1).

(** The program headers from [ph] up to [eph]; at most [n] of them. *)
Fixpoint load_segments (n : nat) (ph eph : Z) : BT unit :=
  if ph <? eph then
    match n with
    | O => nofuel
    | S n' =>
        m <- gets bmem ;;
        let pa := load32 m (ph + 12) in
        let filesz := load32 m (ph + 16) in
        readseg pa filesz (load32 m (ph + 4)) ;;;
        m <- gets bmem ;;
        let memsz := load32 m (ph + 20) in
        let filesz := load32 m (ph + 16) in
        when (filesz <? memsz) (modify (fun s => set_bmem (stosb (bmem s) (u32 (pa + filesz)) 0 (memsz - filesz)) s)) ;;;
        load_segments n' (u32 (ph + sizeof_proghdr)) eph
    end
  else ret tt.

(** The address jumped to, or nothing when [bootmain] returns. *)
Definition bootmain : BT (option Z) :=
  readseg elf_scratch 4096 0 ;;;
  m <- gets bmem ;;
  if negb (load32 m elf_scratch =? ELF_MAGIC) then ret None
  else
    let ph := u32 (elf_scratch + load32 m (elf_scratch + 28)) in
    let phnum := load16 m (elf_scratch + 44) in
    load_segments (Z.to_nat phnum) ph (u32 (ph + sizeof_proghdr * phnum)) ;;;
    m <- gets bmem ;;
    ret (Some (load32 m (elf_scratch + 24))).
End Loader.

(** * The kernel is put where its headers say *)

(** ** The disk

    Disk 0 of the controller, asked for one sector at a time: [Fetching n] is a
    command for sector [n], whose bytes can be read once the controller is not
    busy. *)
Inductive bphase : Type := Rest | Fetching (n : Z).
Class BootDisk {HW : Type} (A : Ata HW) (sector : HW -> Z -> block) (phase : HW -> bphase) (reg : HW -> Z -> Z) (busy : HW -> nat) : Prop := {
  bd_busy : forall h, (busy h <= polls)%nat;
  bd_status : forall h, let (r, h') := inb 0x1F7 h in
    phase h' = phase h /\ (forall n, sector h' n = sector h n) /\
    match busy h with
    | O => Z.land r (Z.lor IDE_BSY IDE_DRDY) = IDE_DRDY /\ busy h' = O
    | S k => Z.land r (Z.lor IDE_BSY IDE_DRDY) <> IDE_DRDY /\ busy h' = k
    end;
  bd_out : forall p v h, 0x1F2 <= p <= 0x1F6 -> phase h = Rest -> busy h = O ->
    phase (outb p v h) = Rest /\ busy (outb p v h) = O /\ (forall n, sector (outb p v h) n = sector h n) /\
    (forall q, reg (outb p v h) q = if q =? p then v else reg h q);
  bd_read : forall h, phase h = Rest -> busy h = O -> reg h 0x1F2 = 1 -> Z.land (reg h 0x1F6) 0xF0 = 0xE0 ->
    (forall n, sector (outb 0x1F7 IDE_CMD_READ h) n = sector h n) /\
    phase (outb 0x1F7 IDE_CMD_READ h) =
      Fetching (reg h 0x1F3 + 2 ^ 8 * reg h 0x1F4 + 2 ^ 16 * reg h 0x1F5 + 2 ^ 24 * Z.land (reg h 0x1F6) 15);
  bd_fetch : forall h n, phase h = Fetching n -> busy h = O ->
    let (x, h') := insl 0x1F0 h in x = sector h n /\ phase h' = Rest /\ (forall n, sector h' n = sector h n);
}.

Section Load.
Context {HW : Type} {A : Ata HW} (sector : HW -> Z -> block) (phase : HW -> bphase) (reg : HW -> Z -> Z) (busy : HW -> nat).
Context {BD : BootDisk A sector phase reg busy} (disk : Z -> block).

(** The disk holds [disk] and is in phase [p]. *)
Definition on_disk (p : bphase) (h : HW) : Prop := phase h = p /\ forall n, sector h n = disk n.

Lemma wp_waitdisk_loop fuel : forall p s (Q : unit -> boot HW -> Prop), (busy (bhw s) < fuel)%nat -> on_disk p (bhw s) ->
  (forall h, on_disk p h -> busy h = O -> Q tt (set_bhw h s)) -> wp (waitdisk_loop fuel) Q s.
Proof.
  induction fuel as [|fuel IH]; intros p s Q Hf [H1 H2] HQ; [lia|]. cbn [waitdisk_loop]. wp_step. pose proof (bd_status (bhw s)) as Hs.
  unfold wp at 1, boot_in. destruct (inb 0x1F7 (bhw s)) as [r h'] eqn:E. destruct Hs as (S1 & S2 & S3).
  assert (on_disk p h') as Hd by (split; [congruence|intros n; by rewrite S2]). change 0xC0 with (Z.lor IDE_BSY IDE_DRDY). change 0x40 with IDE_DRDY.
  destruct (busy (bhw s)) as [|k] eqn:Eb; destruct S3 as [S3 S4].
  - rewrite (proj2 (Z.eqb_eq _ _) S3). wp_step. by apply HQ.
  - rewrite (proj2 (Z.eqb_neq _ _) S3). apply (IH p); [cbn; lia|done|]. intros h Hh Hb. by apply HQ.
Qed.
Lemma wp_waitdisk p s (Q : unit -> boot HW -> Prop) : on_disk p (bhw s) ->
  (forall h, on_disk p h -> busy h = O -> Q tt (set_bhw h s)) -> wp waitdisk Q s.
Proof. intros Hd HQ. apply (wp_waitdisk_loop _ p); [|done|done]. pose proof (bd_busy (bhw s)). lia. Qed.

Lemma sector_address o : 0 <= o < 2 ^ 24 ->
  u8 o + 2 ^ 8 * u8 (Z.shiftr o 8) + 2 ^ 16 * u8 (Z.shiftr o 16) + 2 ^ 24 * Z.land (u8 (Z.lor (Z.shiftr o 24) 0xE0)) 15 = o /\
  Z.land (u8 (Z.lor (Z.shiftr o 24) 0xE0)) 0xF0 = 0xE0.
Proof.
  intros Ho. rewrite !Z.shiftr_div_pow2 by lia. change (2 ^ 24) with 16777216 in *. rewrite (Z.div_small o 16777216) by lia.
  change (u8 (Z.lor 0 224)) with 224. split; [|done]. change (Z.land 224 15) with 0. unfold u8. change (2 ^ 8) with 256. change (2 ^ 16) with 65536. zlia.
Qed.

Lemma wp_boot_out port v s (Q : unit -> boot HW -> Prop) : 0x1F2 <= port <= 0x1F6 -> on_disk Rest (bhw s) -> busy (bhw s) = O ->
  (forall h, on_disk Rest h -> busy h = O -> (forall q, reg h q = if q =? port then v else reg (bhw s) q) -> Q tt (set_bhw h s)) ->
  wp (boot_out port v) Q s.
Proof.
  intros Hp [H1 H2] Hb HQ. unfold boot_out. wp_step. destruct (bd_out port v (bhw s) Hp H1 Hb) as (O1 & O2 & O3 & O4).
  apply HQ; [split; [done|intros n; by rewrite O3]|done|done].
Qed.

Lemma wp_readsect dst o s (Q : unit -> boot HW -> Prop) : 0 <= o < 2 ^ 24 -> on_disk Rest (bhw s) ->
  (forall h, on_disk Rest h -> Q tt (mk_boot (store_block (bmem s) dst (disk o)) h)) -> wp (readsect dst o) Q s.
Proof.
  intros Ho Hd HQ. destruct (sector_address o Ho) as [Ha Hl]. unfold readsect. wp_step. apply (wp_waitdisk Rest); [done|]. intros h1 D1 B1.
  wp_step. apply wp_boot_out; [lia|done|done|]. intros h2 D2 B2 R2. wp_step. apply wp_boot_out; [lia|done|done|]. intros h3 D3 B3 R3.
  wp_step. apply wp_boot_out; [lia|done|done|]. intros h4 D4 B4 R4. wp_step. apply wp_boot_out; [lia|done|done|]. intros h5 D5 B5 R5.
  wp_step. apply wp_boot_out; [lia|done|done|]. intros h6 D6 B6 R6. cbn [set_bhw bhw bmem] in *.
  assert (forall q, reg h6 q = if q =? 0x1F6 then u8 (Z.lor (Z.shiftr o 24) 0xE0) else if q =? 0x1F5 then u8 (Z.shiftr o 16)
    else if q =? 0x1F4 then u8 (Z.shiftr o 8) else if q =? 0x1F3 then u8 o else if q =? 0x1F2 then 1 else reg h1 q) as HR
    by (intros q; by rewrite R6, R5, R4, R3, R2).
  destruct D6 as [P6 M6]. destruct (bd_read h6 P6 B6) as [C1 C2]; [by rewrite HR|by rewrite HR|]. rewrite !HR in C2. cbn [Z.eqb Pos.eqb] in C2. rewrite Ha in C2.
  wp_step. unfold boot_out. wp_step. cbn [set_bhw bhw bmem]. wp_step.
  apply (wp_waitdisk (Fetching o)); [split; [done|intros n; cbn [bhw]; by rewrite C1]|]. intros h7 [P7 M7] B7. pose proof (bd_fetch h7 o P7 B7) as Hf.
  unfold wp. cbn [set_bhw bhw bmem]. destruct (insl 0x1F0 h7) as [x h8]. destruct Hf as (-> & F2 & F3). rewrite M7. apply HQ. split; [done|]. intros n. by rewrite F3.
Qed.

(** ** Segments

    The image starts at sector 1. *)
Definition img (i : Z) : Z := nth (Z.to_nat (i mod SECTSIZE)) (disk (1 + i / SECTSIZE)) 0.
(** [n] bytes of the image, from [src] on, copied to [lo]. *)
Definition copied (m : memory) (lo n src : Z) (m' : memory) : Prop :=
  forall x, m' x = if (lo <=? x) && (x <? lo + n) then img (src + (x - lo)) else m x.

Lemma wp_readseg_loop k : forall fuel pa epa q s (Q : unit -> boot HW -> Prop), (k <= fuel)%nat ->
  epa <= pa + 512 * Z.of_nat k -> (k = O \/ pa + 512 * Z.of_nat k < epa + 512) -> 0 <= pa -> pa + 512 * Z.of_nat k < 2 ^ 32 ->
  0 < q -> q + Z.of_nat k < 2 ^ 24 -> on_disk Rest (bhw s) ->
  (forall m' h, on_disk Rest h -> copied (bmem s) pa (512 * Z.of_nat k) (512 * (q - 1)) m' -> Q tt (mk_boot m' h)) ->
  wp (readseg_loop fuel pa epa q) Q s.
Proof.
  induction k as [|k IH]; intros fuel pa epa q s Q Hf H1 H2 H3 H4 H5 H6 Hd HQ.
  { destruct fuel; cbn [readseg_loop]; destruct (Z.ltb_spec pa epa); try lia; wp_step; destruct s as [m h]; apply HQ; try done; intros x;
    destruct (Z.leb_spec pa x), (Z.ltb_spec x (pa + 512 * Z.of_nat 0)); (done || lia). }
  destruct fuel as [|fuel]; [lia|]. cbn [readseg_loop]. destruct (Z.ltb_spec pa epa); [|lia]. change (2 ^ 24) with 16777216 in *.
  wp_step. apply wp_readsect; [lia|done|]. intros h Hh. rewrite !u32_small by (rewrite ?pow2_32 in *; unfold SECTSIZE in *; lia).
  apply IH; cbn [bhw bmem]; unfold SECTSIZE in *; try lia; [done|]. intros m' h' Hh' Hc. apply HQ; [done|]. intros x. rewrite Hc. unfold store_block, SECTSIZE.
  destruct (Z.leb_spec (pa + 512) x), (Z.leb_spec pa x), (Z.ltb_spec x (pa + 512 + 512 * Z.of_nat k)), (Z.ltb_spec x (pa + 512 * Z.of_nat (S k))),
    (Z.ltb_spec x (pa + 512)); cbn [andb]; try lia; try done.
  - f_equal. lia.
  - unfold img, SECTSIZE. replace (512 * (q - 1) + (x - pa)) with ((x - pa) + (q - 1) * 512) by lia. rewrite Z.mod_add, Z.div_add by lia.
    rewrite Z.mod_small, Z.div_small by lia. f_equal. f_equal. lia.
Qed.

(** A segment: its place in the image and in memory. *)
Record segment : Type := mk_segment { sg_off : Z; sg_pa : Z; sg_filesz : Z; sg_memsz : Z }.
Definition sg_lo (p : segment) : Z := sg_pa p - sg_off p mod SECTSIZE.
(** What [readseg] writes ends here: a whole number of sectors. *)
Definition sg_hi (p : segment) : Z := sg_lo p + 512 * ((sg_filesz p + sg_off p mod SECTSIZE + 511) / 512).
Definition sg_end (p : segment) : Z := sg_pa p + Z.max (sg_filesz p) (sg_memsz p).
Record fits (p : segment) : Prop := {
  ft_off : 0 <= sg_off p < 2 ^ 32;
  ft_size : 0 <= sg_filesz p < 2 ^ 32 /\ 0 <= sg_memsz p < 2 ^ 32;
  ft_lo : 0 <= sg_lo p;
  ft_hi : sg_hi p < 2 ^ 32 /\ sg_end p < 2 ^ 32;
}.

Lemma wp_readseg p s (Q : unit -> boot HW -> Prop) : fits p -> on_disk Rest (bhw s) ->
  (forall m' h, on_disk Rest h -> copied (bmem s) (sg_lo p) (sg_hi p - sg_lo p) (sg_off p - sg_off p mod SECTSIZE) m' -> Q tt (mk_boot m' h)) ->
  wp (readseg (sg_pa p) (sg_filesz p) (sg_off p)) Q s.
Proof.
  intros [F1 F2 F3 F4] Hd HQ. unfold sg_hi, sg_end, sg_lo, SECTSIZE in *. rewrite pow2_32 in *. unfold readseg, SECTSIZE. cbv zeta.
  pose proof (Z.mod_pos_bound (sg_off p) 512 ltac:(lia)) as Hr. set (r := sg_off p mod 512) in *. set (k := (sg_filesz p + r + 511) / 512) in *.
  assert (512 * k <= sg_filesz p + r + 511 < 512 * k + 512) as Hk by (subst k; zlia).
  rewrite !u32_small by (rewrite pow2_32; lia).
  apply (wp_readseg_loop (Z.to_nat k)); rewrite ?Z2Nat.id by lia; rewrite ?pow2_32; change (2 ^ 24) with 16777216; try lia; try done.
  - apply Z2Nat.inj_le; [lia|subst k; zlia|subst k; zlia].
  - subst k. zlia.
  - subst k r. zlia.
  - intros m' h Hh Hc. apply HQ; [done|]. intros x. rewrite (Hc x). replace (sg_pa p - r + (sg_pa p - r + 512 * k - (sg_pa p - r))) with (sg_pa p - r + 512 * k) by lia.
    replace (512 * (sg_off p / 512 + 1 - 1)) with (sg_off p - r) by (subst r; zlia). done.
Qed.

(** The program headers at [a] of a memory, and [n] of them in the image. *)
Definition segment_at (m : memory) (a : Z) : segment :=
  mk_segment (load32 m (a + 4)) (load32 m (a + 12)) (load32 m (a + 16)) (load32 m (a + 20)).
Fixpoint segments (n : nat) (a : Z) : list segment :=
  match n with O => [] | S n' => segment_at img a :: segments n' (a + sizeof_proghdr) end.

(** The segment is in memory, its tail zeroed. *)
Definition loaded (m : memory) (p : segment) : Prop :=
  (forall i, 0 <= i < sg_filesz p -> m (sg_pa p + i) = img (sg_off p + i)) /\
  (forall i, sg_filesz p <= i < sg_memsz p -> m (sg_pa p + i) = 0).
(** The first page of the image is in the scratch space. *)
Definition scratch (m : memory) : Prop := forall x, 0 <= x < 4096 -> m (elf_scratch + x) = img x.
Definition clear_of_scratch (p : segment) : Prop := Z.max (sg_hi p) (sg_end p) <= elf_scratch \/ elf_scratch + 4096 <= sg_lo p.
(** Segments in increasing order. *)
Definition before (p q : segment) : Prop := sg_end p <= sg_lo q.

Lemma scratch_load32 m a : scratch m -> 0 <= a -> a + 4 <= 4096 -> load32 m (elf_scratch + a) = load32 img a.
Proof.
  intros Hs H1 H2. unfold load32, load8. rewrite <- !Z.add_assoc, !Hs by lia. done.
Qed.
Lemma scratch_segment m a : scratch m -> 0 <= a -> a + 32 <= 4096 -> segment_at m (elf_scratch + a) = segment_at img a.
Proof. intros Hs H1 H2. unfold segment_at. rewrite <- !Z.add_assoc, !scratch_load32 by (done || lia). done. Qed.

(** What loading one segment does to memory. *)
Definition bss (p : segment) (m : memory) : memory :=
  if sg_filesz p <? sg_memsz p then stosb m (sg_pa p + sg_filesz p) 0 (sg_memsz p - sg_filesz p) else m.
Lemma segment_loaded p m m' : fits p -> copied m (sg_lo p) (sg_hi p - sg_lo p) (sg_off p - sg_off p mod SECTSIZE) m' ->
  loaded (bss p m') p /\ (forall x, x < sg_lo p \/ Z.max (sg_hi p) (sg_end p) <= x -> bss p m' x = m x) /\ (clear_of_scratch p -> scratch m -> scratch m').
Proof.
  intros [F1 F2 F3 F4] Hc. unfold copied in Hc. pose proof (Z.mod_pos_bound (sg_off p) SECTSIZE ltac:(done)) as Hr.
  assert (sg_pa p + sg_filesz p <= sg_hi p) as Hhi by (unfold sg_hi, sg_lo in *; zlia).
  assert (forall x, bss p m' x = if (sg_filesz p <? sg_memsz p) && (sg_pa p + sg_filesz p <=? x) && (x <? sg_pa p + sg_memsz p) then 0 else m' x) as Hb.
  { intros x. unfold bss. destruct (sg_filesz p <? sg_memsz p); [|done]. unfold stosb. replace (sg_pa p + sg_filesz p + (sg_memsz p - sg_filesz p)) with (sg_pa p + sg_memsz p) by lia. done. }
  replace (sg_lo p + (sg_hi p - sg_lo p)) with (sg_hi p) in Hc by lia. split_and!; [split|..].
  - intros i Hi. rewrite Hb, Hc. unfold sg_lo in *. destruct (Z.leb_spec (sg_pa p + sg_filesz p) (sg_pa p + i)); [lia|]. rewrite andb_false_r. cbn [andb].
    destruct (Z.leb_spec (sg_pa p - sg_off p mod SECTSIZE) (sg_pa p + i)), (Z.ltb_spec (sg_pa p + i) (sg_hi p)); cbn [andb]; try lia. f_equal. lia.
  - intros i Hi. rewrite Hb. destruct (Z.ltb_spec (sg_filesz p) (sg_memsz p)), (Z.leb_spec (sg_pa p + sg_filesz p) (sg_pa p + i)), (Z.ltb_spec (sg_pa p + i) (sg_pa p + sg_memsz p)); (done || lia).
  - intros x Hx. rewrite Hb, Hc. unfold sg_end in Hx.
    destruct (Z.ltb_spec (sg_filesz p) (sg_memsz p)), (Z.leb_spec (sg_pa p + sg_filesz p) x), (Z.ltb_spec x (sg_pa p + sg_memsz p)),
      (Z.leb_spec (sg_lo p) x), (Z.ltb_spec x (sg_hi p)); cbn [andb]; try done; unfold sg_lo in *; lia.
  - intros Hcl Hs x Hx. rewrite Hc. unfold clear_of_scratch in Hcl.
    destruct (Z.leb_spec (sg_lo p) (elf_scratch + x)), (Z.ltb_spec (elf_scratch + x) (sg_hi p)); cbn [andb]; try lia; by apply Hs.
Qed.

Lemma wp_load_segments n : forall a s (L : list segment) (Q : unit -> boot HW -> Prop), 0 <= a -> a + 32 * Z.of_nat n <= 4096 ->
  scratch (bmem s) -> on_disk Rest (bhw s) -> Forall fits (segments n a) -> Forall clear_of_scratch (segments n a) ->
  StronglySorted before (segments n a) -> (forall p q, p ∈ L -> q ∈ segments n a -> before p q) -> (forall p, p ∈ L -> loaded (bmem s) p) ->
  (forall m' h, on_disk Rest h -> scratch m' -> (forall p, p ∈ L ++ segments n a -> loaded m' p) -> Q tt (mk_boot m' h)) ->
  wp (load_segments n (elf_scratch + a) (elf_scratch + a + 32 * Z.of_nat n)) Q s.
Proof.
  induction n as [|n IH]; intros a s L Q Ha Hn Hs Hd Hf Hc Hsort HL Hload HQ; cbn [load_segments segments] in *.
  { rewrite (proj2 (Z.ltb_ge _ _)) by lia. wp_step. destruct s as [m h]. rewrite app_nil_r in HQ. by apply HQ. }
  destruct (Z.ltb_spec (elf_scratch + a) (elf_scratch + a + 32 * Z.of_nat (S n))); [|lia].
  apply Forall_cons in Hf as [Hf Hfs]. apply Forall_cons in Hc as [Hc Hcs]. apply StronglySorted_inv in Hsort as [Hsort Hfst].
  set (p := segment_at img a) in *. wp_step. wp_step. cbv zeta.
  assert (forall m, scratch m -> load32 m (elf_scratch + a + 12) = sg_pa p /\ load32 m (elf_scratch + a + 16) = sg_filesz p /\
    load32 m (elf_scratch + a + 4) = sg_off p /\ load32 m (elf_scratch + a + 20) = sg_memsz p) as Hp.
  { intros m Hm. rewrite <- !Z.add_assoc, !scratch_load32 by (done || lia). done. }
  destruct (Hp _ Hs) as (-> & -> & -> & _). wp_step. apply wp_readseg; [done|done|]. intros m1 h1 D1 C1.
  destruct (segment_loaded p _ _ Hf C1) as (S1 & S2 & S3). specialize (S3 Hc Hs). wp_step. wp_step. cbn [bmem]. destruct (Hp _ S3) as (_ & -> & _ & ->).
  assert (scratch (bss p m1)) as S4.
  { intros x Hx. unfold clear_of_scratch in Hc. rewrite S2 by lia. by apply Hs. }
  assert (forall Q' : unit -> boot HW -> Prop, Q' tt (mk_boot (bss p m1) h1) ->
    wp (when (sg_filesz p <? sg_memsz p) (modify (fun s => set_bmem (stosb (bmem s) (u32 (sg_pa p + sg_filesz p)) 0 (sg_memsz p - sg_filesz p)) s))) Q' (mk_boot m1 h1)) as Hw.
  { intros Q' HQ'. unfold bss, when in *. destruct (Z.ltb_spec (sg_filesz p) (sg_memsz p)); [|by wp_step]. wp_step. unfold set_bmem. cbn [bmem bhw].
    rewrite u32_small; [done|]. destruct Hf as [F1 F2 F3 F4]. unfold sg_end, sg_lo in *. pose proof (Z.mod_pos_bound (sg_off p) SECTSIZE ltac:(done)). lia. }
  wp_step. apply Hw. rewrite u32_small by (rewrite pow2_32; unfold elf_scratch, sizeof_proghdr; lia).
  replace (elf_scratch + a + sizeof_proghdr) with (elf_scratch + (a + sizeof_proghdr)) by lia.
  replace (elf_scratch + a + 32 * Z.of_nat (S n)) with (elf_scratch + (a + sizeof_proghdr) + 32 * Z.of_nat n) by (unfold sizeof_proghdr; lia).
  apply (IH _ _ (L ++ [p])); cbn [bmem bhw]; try done; try (unfold sizeof_proghdr; lia).
  - intros q r Hq Hr. apply elem_of_app in Hq as [Hq|Hq%list_elem_of_singleton]; [apply HL; [done|by right]|subst q].
    by apply (proj1 (Forall_forall _ _) Hfst).
  - intros q Hq. apply elem_of_app in Hq as [Hq|Hq%list_elem_of_singleton]; [|by subst q].
    pose proof (HL q p Hq ltac:(by left)) as Hbef. unfold before, sg_end in Hbef. destruct (Hload q Hq) as [L1 L2].
    split; intros i Hi; rewrite S2 by lia; [by apply L1|by apply L2].
  - intros m' h D2 Hs2 Hl2. apply HQ; [done|done|]. by rewrite <- app_assoc in Hl2.
Qed.

Definition kernel_segments : list segment := segments (Z.to_nat (load16 img 44)) (load32 img 28).

Lemma wp_bootmain s (Q : option Z -> boot HW -> Prop) : on_disk Rest (bhw s) ->
  (load32 img 0 <> ELF_MAGIC -> forall s', Q None s') ->
  (load32 img 0 = ELF_MAGIC -> load32 img 28 + 32 * load16 img 44 <= 4096 /\ Forall fits kernel_segments /\
     Forall clear_of_scratch kernel_segments /\ StronglySorted before kernel_segments /\
     forall s', (forall p, p ∈ kernel_segments -> loaded (bmem s') p) -> Q (Some (load32 img 24)) s') ->
  wp bootmain Q s.
Proof.
  intros Hd HN HS. unfold bootmain. wp_step. apply (wp_readseg (mk_segment 0 elf_scratch 4096 0)); [by split; cbn|done|].
  intros m1 h1 D1 C1. assert (scratch m1) as Hs.
  { intros x Hx. rewrite (C1 (elf_scratch + x)). unfold sg_hi, sg_lo, SECTSIZE, elf_scratch. cbn [sg_off sg_pa sg_filesz]. change (0 mod 512) with 0.
    change ((4096 + 0 + 511) / 512) with 8. destruct (Z.leb_spec (0x10000 - 0) (0x10000 + x)), (Z.ltb_spec (0x10000 + x) (0x10000 - 0 + (0x10000 - 0 + 512 * 8 - (0x10000 - 0)))); cbn [andb]; try lia.
    f_equal. lia. }
  wp_step. wp_step. cbn [bmem]. replace elf_scratch with (elf_scratch + 0) at 1 by lia. rewrite scratch_load32 by (done || lia).
  destruct (Z.eqb_spec (load32 img 0) ELF_MAGIC) as [He|He]; cbn [negb]; [|wp_step; by apply HN]. destruct (HS He) as (H1 & H2 & H3 & H4 & H5). clear HN HS.
  pose proof (load32_range img 28) as R1. cbv zeta. rewrite scratch_load32 by (done || lia).
  assert (load16 m1 (elf_scratch + 44) = load16 img 44) as -> by (unfold load16, load8; rewrite <- !Z.add_assoc, !Hs by lia; done).
  assert (0 <= load16 img 44) as R2 by (unfold load16; pose proof (load8_range img 44); pose proof (load8_range img (44 + 1)); lia).
  rewrite !u32_small by (rewrite pow2_32; unfold elf_scratch, sizeof_proghdr; lia).
  replace (elf_scratch + load32 img 28 + sizeof_proghdr * load16 img 44) with (elf_scratch + load32 img 28 + 32 * Z.of_nat (Z.to_nat (load16 img 44))) by (unfold sizeof_proghdr; lia).
  wp_step. apply (wp_load_segments _ _ _ []); cbn [bmem bhw]; try done; try lia.
  - intros p q Hp. by apply elem_of_nil in Hp.
  - intros p Hp. by apply elem_of_nil in Hp.
  - intros m' h D2 S2 L2. wp_step. wp_step. wp_step. cbn [bmem]. rewrite scratch_load32 by (done || lia). apply H5. intros p Hp. by apply L2.
Qed.
End Load.

(** C20: the boot loader loads the kernel.  From a disk that works, [bootmain]
    returns when the image does not start with the ELF magic number.
    Otherwise, if the program headers are in the first page of the image and
    the segments, as [readseg] rounds them to whole sectors, stay within 32
    bits and clear of the scratch page, in increasing order, it jumps to the
    entry point of the header with every segment in place: the bytes of the
    file at its physical address and zeros up to its size in memory. *)
Theorem bootmain_loads {HW : Type} {A : Ata HW} (sector : HW -> Z -> block) (phase : HW -> bphase) (reg : HW -> Z -> Z)
    (busy : HW -> nat) {BD : BootDisk A sector phase reg busy} (disk : Z -> block) (s : boot HW) : on_disk sector phase disk Rest (bhw s) ->
  (load32 (img disk) 0 <> ELF_MAGIC -> wp bootmain (fun r _ => r = None) s) /\
  (load32 (img disk) 0 = ELF_MAGIC -> load32 (img disk) 28 + 32 * load16 (img disk) 44 <= 4096 ->
   Forall fits (kernel_segments disk) -> Forall clear_of_scratch (kernel_segments disk) -> StronglySorted before (kernel_segments disk) ->
   wp bootmain (fun r s' => r = Some (load32 (img disk) 24) /\ forall p, p ∈ kernel_segments disk -> loaded disk (bmem s') p) s).
Proof.
  intros Hd. split; intros Hm; [|intros H1 H2 H3 H4]; (eapply (wp_bootmain sector phase reg busy); [exact Hd|intros Hm'|intros Hm']); try done.
Qed.

(** A disk that is busy once after a command, with an image of one segment. *)
Record boot_hw : Type := mk_boot_hw { dh_reg : Z -> Z; dh_phase : bphase; dh_busy : bool }.
Definition boot_header : block :=
  le32 ELF_MAGIC ++ replicate 20 0 ++ le32 0x10000C ++ le32 52 ++ replicate 12 0 ++ le32 1 ++ replicate 4 0 ++
  le32 1 ++ le32 512 ++ le32 0x100000 ++ le32 0x100000 ++ le32 3 ++ le32 5.
Definition boot_disk (n : Z) : block := if n =? 1 then boot_header else if n =? 2 then [7; 8; 9] else [].
Definition boot_ata : Ata boot_hw := {|
  outb := fun p v h =>
    if p =? 0x1F7 then
      mk_boot_hw (dh_reg h) (Fetching (dh_reg h 0x1F3 + 2 ^ 8 * dh_reg h 0x1F4 + 2 ^ 16 * dh_reg h 0x1F5 + 2 ^ 24 * Z.land (dh_reg h 0x1F6) 15)) true
    else mk_boot_hw (fun q => if q =? p then v else dh_reg h q) (dh_phase h) (dh_busy h);
  inb := fun _ h => ((if dh_busy h then 0x80 else 0x40), mk_boot_hw (dh_reg h) (dh_phase h) false);
  outsl := fun _ _ h => h;
  insl := fun _ h => (match dh_phase h with Fetching n => boot_disk n | Rest => [] end, mk_boot_hw (dh_reg h) Rest (dh_busy h));
  complete := fun h => h;
  polls := 1;
|}.
Definition boot_busy (h : boot_hw) : nat := if dh_busy h then 1 else 0.
Lemma boot_disk_ok : BootDisk boot_ata (fun _ => boot_disk) dh_phase dh_reg boot_busy.
Proof.
  constructor; unfold boot_busy; cbn.
  - intros h. destruct (dh_busy h); lia.
  - intros h. by destruct (dh_busy h).
  - intros p v h Hp H1 H2. destruct (Z.eqb_spec p 0x1F7); [lia|]. cbn. done.
  - done.
  - intros h n -> _. done.
Qed.

Lemma bootmain_loads_witness :
  wp (@bootmain _ boot_ata) (fun r s' => r = Some 0x10000C /\ bmem s' 0x100001 = 8 /\ bmem s' 0x100004 = 0) (mk_boot (fun _ => 1) (mk_boot_hw (fun _ => 0) Rest false)).
Proof.
  destruct (@bootmain_loads _ boot_ata (fun _ => boot_disk) dh_phase dh_reg boot_busy boot_disk_ok boot_disk (mk_boot (fun _ => 1) (mk_boot_hw (fun _ => 0) Rest false)))
    as [_ H]; [by split|].
  assert (kernel_segments boot_disk = [mk_segment 512 0x100000 3 5]) as Hk by (by vm_compute). rewrite Hk in H.
  eapply wp_mono; [apply H; [by vm_compute|apply Z.leb_le; reflexivity| | |by repeat constructor]|].
  - apply Forall_singleton. repeat split; (apply Z.leb_le || apply Z.ltb_lt); reflexivity.
  - apply Forall_singleton. right. apply Z.leb_le. reflexivity.
  - intros r s' [-> Hl]. destruct (Hl _ ltac:(by left)) as [L1 L2]. split_and!; [by vm_compute| |].
    + change 0x100001 with (0x100000 + 1). etransitivity; [apply (L1 1); cbn; lia|by vm_compute].
    + change 0x100004 with (0x100000 + 4). apply (L2 4). cbn. lia.
Defined.
