(* ===== verification/Grep.v ===== *)
(** * [grep.c]: the regular-expression matcher

    Strings are the bytes before the final 0.  The backtracking matcher of the
    program is shown equivalent to the language of the expression: a sequence
    of characters, [.] and starred ones, anchored by [^] and [$].

    The loop of the program over its input is in [GrepRun]. *)
From Stdlib Require Import ZArith Lia Bool.
From stdpp Require Import base numbers list.
From S2P Require Import Prelude.

Definition DOT : Z := 46.
Definition STAR : Z := 42.
Definition DOLLAR : Z := 36.
Definition CARET : Z := 94.
Definition NEWLINE : Z := 10.

(** ** The matcher *)

(** The loop of [matchstar]; [here] is [matchhere] on the rest. *)
Fixpoint matchstar_loop (here : list Z -> bool) (c : Z) (text : list Z) : bool :=
  if here text then true
  else match text with
       | [] => false
       | t :: text' => if (t =? c) || (c =? DOT) then matchstar_loop here c text' else false
       end.

Fixpoint matchhere (re text : list Z) {struct re} : bool :=
  match re with
  | [] => true
  | c :: re1 =>
      let next :=
        if (c =? DOLLAR) && (match re1 with [] => true | _ => false end)
        then match text with [] => true | _ => false end
        else match text with
             | [] => false
             | t :: text' => if (c =? DOT) || (c =? t) then matchhere re1 text' else false
             end in
      match re1 with
      | r :: re2 => if r =? STAR then matchstar_loop (matchhere re2) c text else next
      | [] => next
      end
  end.

Definition matchstar (c : Z) (re text : list Z) : bool := matchstar_loop (matchhere re) c text.

(** The loop of [match]. *)
Fixpoint match_from (re text : list Z) : bool :=
  if matchhere re text then true
  else match text with [] => false | _ :: text' => match_from re text' end.

Definition match_ (re text : list Z) : bool :=
  match re with
  | c :: re' => if c =? CARET then matchhere re' text else match_from re text
  | [] => match_from re text
  end.

(** [strchr(p, '\n')]: the line and what follows it. *)
Fixpoint split_line (l : list Z) : option (list Z * list Z) :=
  match l with
  | [] => None
  | c :: l' =>
      if c =? 0 then None
      else if c =? NEWLINE then Some ([], l') else option_map (fun r => (c :: fst r, snd r)) (split_line l')
  end.

(** ** Expressions and their language *)
Inductive atom : Type := Any | Lit (c : Z).
Inductive item : Type := One (a : atom) | Many (a : atom).

Definition atom_of (c : Z) : atom := if c =? DOT then Any else Lit c.
Definition accepts (a : atom) (c : Z) : Prop := match a with Any => True | Lit c' => c = c' end.

(** The items of an expression, and whether it ends in [$]. *)
Fixpoint items (re : list Z) : list item * bool :=
  match re with
  | [] => ([], false)
  | c :: re1 =>
      match re1 with
      | r :: re2 =>
          if r =? STAR then let (l, e) := items re2 in (Many (atom_of c) :: l, e)
          else let (l, e) := items re1 in (One (atom_of c) :: l, e)
      | [] => if c =? DOLLAR then ([], true) else ([One (atom_of c)], false)
      end
  end.

(** The words of a sequence of items. *)
Inductive word : list item -> list Z -> Prop :=
| word_nil : word [] []
| word_one a l c w : accepts a c -> word l w -> word (One a :: l) (c :: w)
| word_many a l u w : Forall (accepts a) u -> word l w -> word (Many a :: l) (u ++ w).

(** A word of the expression at the start of the text, up to the end if
    anchored there. *)
Definition begins (re text : list Z) : Prop :=
  exists w rest, text = w ++ rest /\ word (fst (items re)) w /\ (snd (items re) = true -> rest = []).
(** ... and anywhere in it, unless anchored. *)
Definition contains (re text : list Z) : Prop :=
  match re with
  | c :: re' => if c =? CARET then begins re' text else exists pre post, text = pre ++ post /\ begins re post
  | [] => True
  end.

Lemma accepts_eqb c t : ((t =? c) || (c =? DOT)) = true <-> accepts (atom_of c) t.
Proof.
  unfold atom_of. rewrite orb_true_iff, !Z.eqb_eq. destruct (Z.eqb_spec c DOT) as [->|Hn]; simpl; [tauto|].
  split; [intros [->|]; done|by left].
Qed.

Lemma matchstar_loop_spec here c text :
  matchstar_loop here c text = true <->
  exists u v, text = u ++ v /\ Forall (accepts (atom_of c)) u /\ here v = true.
Proof.
  induction text as [|t text IH]; cbn [matchstar_loop].
  - destruct (here []) eqn:E; split; intros H; try done.
    + by exists [], [].
    + destruct H as (u & v & Huv & _ & Hv). symmetry in Huv. apply app_eq_nil in Huv as [-> ->]. congruence.
  - destruct (here (t :: text)) eqn:E; [split; [intros _; by exists [], (t :: text)|done]|].
    destruct ((t =? c) || (c =? DOT)) eqn:Ec.
    + rewrite IH. split; intros (u & v & Huv & Hu & Hv).
      * exists (t :: u), v. split; [by rewrite Huv|]. split; [constructor; [by apply accepts_eqb|done]|done].
      * destruct u as [|x u]; [cbn in Huv; subst v; congruence|]. injection Huv as -> ->.
        exists u, v. split; [done|]. split; [by inversion Hu|done].
    + split; [done|]. intros (u & v & Huv & Hu & Hv).
      destruct u as [|x u]; [cbn in Huv; subst v; congruence|]. injection Huv as -> ->.
      inversion Hu as [|? ? Hx]; subst. apply accepts_eqb in Hx. congruence.
Qed.

(** The language, one item at a time. *)
Lemma begins_star c re text : begins (c :: STAR :: re) text <->
  exists u v, text = u ++ v /\ Forall (accepts (atom_of c)) u /\ begins re v.
Proof.
  unfold begins. cbn [items]. rewrite Z.eqb_refl. destruct (items re) as [l e]. cbn [fst snd]. split.
  - intros (w & rest & -> & Hw & He). inversion Hw as [| |? ? u w' Hu Hw']; subst.
    exists u, (w' ++ rest). split; [by rewrite app_assoc|]. split; [done|]. by exists w', rest.
  - intros (u & v & -> & Hu & w & rest & -> & Hw & He). exists (u ++ w), rest.
    split; [by rewrite app_assoc|]. split; [by constructor|done].
Qed.

Lemma begins_one c re text : (c <> DOLLAR \/ re <> []) -> (forall r re', re = r :: re' -> r <> STAR) ->
  (begins (c :: re) text <-> exists t v, text = t :: v /\ accepts (atom_of c) t /\ begins re v).
Proof.
  intros Hd Hs. unfold begins.
  assert (items (c :: re) = (One (atom_of c) :: fst (items re), snd (items re))) as ->.
  { cbn [items]. destruct re as [|r re'].
    - rewrite (proj2 (Z.eqb_neq c DOLLAR)) by (by destruct Hd). done.
    - rewrite (proj2 (Z.eqb_neq r STAR)) by (by eapply Hs). by destruct (items (r :: re')). }
  cbn [fst snd]. split.
  - intros (w & rest & -> & Hw & He). inversion Hw as [|? ? t w' Ht Hw'|]; subst.
    exists t, (w' ++ rest). split_and!; [done..|]. by exists w', rest.
  - intros (t & v & -> & Ht & w & rest & -> & Hw & He). exists (t :: w), rest. split_and!; [done|by constructor|done].
Qed.

Lemma begins_end text : begins [DOLLAR] text <-> text = [].
Proof.
  unfold begins. cbn. split.
  - intros (w & rest & -> & Hw & He). inversion Hw; subst. by rewrite He.
  - intros ->. exists [], []. split_and!; [done|constructor|done].
Qed.

Lemma begins_nil text : begins [] text.
Proof. exists [], text. split_and!; [done|constructor|done]. Qed.

Lemma matchhere_spec n : forall re text, (length re <= n)%nat -> matchhere re text = true <-> begins re text.
Proof.
  induction n as [|n IH]; intros [|c re] text Hn; try (cbn in Hn; lia);
    try (split; [intros _; apply begins_nil|done]). cbn [length] in Hn.
  assert ((forall r re', re = r :: re' -> r <> STAR) ->
    (if (c =? DOLLAR) && (match re with [] => true | _ => false end)
     then match text with [] => true | _ => false end
     else match text with [] => false | t :: text' => if (c =? DOT) || (c =? t) then matchhere re text' else false end) = true
    <-> begins (c :: re) text) as Hnext.
  { intros Hs. destruct (decide (c = DOLLAR /\ re = [])) as [[-> ->]|Hd].
    - rewrite begins_end. cbn [andb]. rewrite Z.eqb_refl. by destruct text.
    - rewrite begins_one; [|destruct (decide (c = DOLLAR)); [right; intros ->; tauto|by left]|done].
      replace ((c =? DOLLAR) && match re with [] => true | _ => false end) with false.
      2:{ destruct (Z.eqb_spec c DOLLAR), re; try done. tauto. }
      destruct text as [|t text]; [split; [done|by intros (? & ? & ? & _)]|].
      rewrite (orb_comm (c =? DOT)), (Z.eqb_sym c t). destruct ((t =? c) || (c =? DOT)) eqn:Ec.
      + rewrite IH by lia. split; [intros Hb; exists t, text; split_and!; [done|by apply accepts_eqb|done]|].
        by intros (? & ? & [= <- <-] & _ & Hb).
      + split; [done|]. intros (? & ? & [= <- <-] & Ha & _). apply accepts_eqb in Ha. congruence. }
  destruct re as [|r re]; [apply Hnext; by intros|]. cbn [matchhere]. cbn [matchhere] in Hnext.
  destruct (Z.eqb_spec r STAR) as [->|Hr]; [|apply Hnext; by intros ? ? [= <- _]].
  rewrite matchstar_loop_spec, begins_star. cbn [length] in Hn.
  split; intros (u & v & Huv & Hu & Hv); exists u, v; split_and!; try done; apply IH; (done || lia).
Qed.

Lemma match_from_spec re text : match_from re text = true <-> exists pre post, text = pre ++ post /\ begins re post.
Proof.
  induction text as [|t text IH]; cbn [match_from];
    (destruct (matchhere re _) eqn:E; [apply (matchhere_spec _ _ _ (le_n _)) in E; split; [intros _; eexists [], _; split; [reflexivity|exact E]|done]|]).
  - split; [done|]. intros (pre & post & Hp & Hb). symmetry in Hp. apply app_eq_nil in Hp as [-> ->].
    apply (matchhere_spec _ _ _ (le_n _)) in Hb. congruence.
  - rewrite IH. split; intros (pre & post & Hp & Hb).
    + exists (t :: pre), post. by rewrite Hp.
    + destruct pre as [|x pre]; [cbn in Hp; subst post; apply (matchhere_spec _ _ _ (le_n _)) in Hb; congruence|].
      injection Hp as -> ->. by exists pre, post.
Qed.

(** C29: the matcher decides the language of the expression.  For every
    expression and text, [matchhere] answers 1 exactly when a word of the
    expression is at the start of the text (and reaches its end, after [$]),
    [matchstar] exactly when some repetitions of the character and then such
    a word are, and [match] exactly when such a word is anywhere in the text,
    or at its start after [^]. *)
Theorem match_language (c : Z) (re text : list Z) :
  (matchhere re text = true <-> begins re text) /\
  (matchstar c re text = true <-> begins (c :: STAR :: re) text) /\
  (match_ re text = true <-> contains re text).
Proof.
  pose proof (fun re text => matchhere_spec (length re) re text (le_n _)) as Hh. split_and!; [apply Hh| |].
  - rewrite begins_star. unfold matchstar. rewrite matchstar_loop_spec.
    split; intros (u & v & ? & ? & Hv); exists u, v; (split_and!; [done..|]); by apply Hh.
  - unfold match_, contains. destruct re as [|r re].
    + rewrite match_from_spec. split; [done|]. intros _. exists [], text. split; [done|apply begins_nil].
    + destruct (r =? CARET); [apply Hh|apply match_from_spec].
Qed.
