(* ===== verification/Sh.v ===== *)
(** * [sh.c]: the command parser of the shell

    The parser works on a buffer: pointers into it are indices, [es] is the
    index of the final 0.  Commands are nodes of the heap, named by the order
    in which [malloc] handed them out; the fields of a node are changed in
    place, as the code does.  A null [argv] entry is [None].  [avail] is the
    number of nodes [malloc] can provide, the shell's [panic] is [panic].

    Reading the buffer at an index up to [es] is defined; the state is never
    driven past it. *)
From Stdlib Require Import ZArith Lia Bool.
From stdpp Require Import base numbers list strings.
From S2P Require Import Prelude.

Definition MAXARGS : nat := 10.
Definition O_RDONLY : Z := 0.
Definition O_WRONLY : Z := 1.
Definition O_CREATE : Z := 0x200.

Inductive node : Type :=
| Exec (argv eargv : list (option nat))
| Redir (cmd : nat) (file efile : nat) (mode fd : Z)
| Pipe (left right : nat)
| List (left right : nat)
| Back (cmd : nat).

(** [ps] is the pointer the functions share, [text] the bytes of the line
    with the final 0. *)
Record shell : Type := mk_shell { ps : nat; text : list Z; heap : list node }.
Definition set_ps v s := mk_shell v (text s) (heap s).
Definition set_text v s := mk_shell (ps s) v (heap s).
Definition set_heap v s := mk_shell (ps s) (text s) v.

Abbreviation SH := (M shell).

(** ** Characters *)
Definition whitespace : list Z := [32; 9; 13; 10; 11].
Definition symbols : list Z := [60; 124; 62; 38; 59; 40; 41].
Definition BAR : Z := 124.
Definition LPAREN : Z := 40.
Definition RPAREN : Z := 41.
Definition SEMI : Z := 59.
Definition AMP : Z := 38.
Definition LESS : Z := 60.
Definition GREATER : Z := 62.
Definition PLUS : Z := 43.
Definition LETTER_A : Z := 97.

(** [strchr(l, c) != 0]. *)
Fixpoint strchr (l : list Z) (c : Z) : bool :=
  match l with
  | [] => false
  | x :: l' => if x =? c then true else strchr l' c
  end.

(** Advance from [s] while [s < es] and the test holds; [n] is [es - s]. *)
Fixpoint skip_while (test : Z -> bool) (n : nat) (t : list Z) (s : nat) : nat :=
  match n with
  | O => s
  | S n' => if test (nth s t 0) then skip_while test n' t (S s) else s
  end.
Definition skip (test : Z -> bool) (t : list Z) (es s : nat) : nat := skip_while test (es - s) t s.

(** The C string at the start of some bytes. *)
Fixpoint until_nul (l : list Z) : list Z :=
  match l with [] => [] | c :: l' => if c =? 0 then [] else c :: until_nul l' end.

Definition white (c : Z) : bool := strchr whitespace c.
Definition plain (c : Z) : bool := negb (strchr whitespace c) && negb (strchr symbols c).

Section Shell.
Context (es avail : nat).

(** ** Tokens *)

(** The token at [s]: what it is and where it ends. *)
Definition token_at (t : list Z) (s : nat) : Z * nat :=
  let c := nth s t 0 in
  if c =? 0 then (c, s)
  else if (c =? BAR) || (c =? LPAREN) || (c =? RPAREN) || (c =? SEMI) || (c =? AMP) || (c =? LESS) then (c, S s)
  else if c =? GREATER then
    if nth (S s) t 0 =? GREATER then (PLUS, S (S s)) else (c, S s)
  else (LETTER_A, skip plain t es s).

(** The token and its two ends [*q] and [*eq]. *)
Definition gettoken : SH (Z * nat * nat) :=
  st <- gets id ;;
  let q := skip white (text st) es (ps st) in
  let (r, eq) := token_at (text st) q in
  modify (set_ps (skip white (text st) es eq)) ;;;
  ret (r, q, eq).

Definition peek (toks : list Z) : SH bool :=
  st <- gets id ;;
  let s := skip white (text st) es (ps st) in
  modify (set_ps s) ;;;
  let c := nth s (text st) 0 in
  ret (negb (c =? 0) && strchr toks c).

(** ** Constructors *)
Definition malloc (n : node) : SH nat :=
  h <- gets heap ;;
  if (length h <? avail)%nat then
    modify (set_heap (h ++ [n])) ;;;
    ret (length h)
  else fault "malloc".

Definition execcmd : SH nat := malloc (Exec (replicate MAXARGS None) (replicate MAXARGS None)).
Definition redircmd (sub file efile : nat) (mode fd : Z) : SH nat := malloc (Redir sub file efile mode fd).
Definition pipecmd (l r : nat) : SH nat := malloc (Pipe l r).
Definition listcmd (l r : nat) : SH nat := malloc (List l r).
Definition backcmd (sub : nat) : SH nat := malloc (Back sub).

(** [cmd->argv\[i\] = q; cmd->eargv\[i\] = eq]. *)
Definition set_arg (cmd i : nat) (q eq : option nat) : SH unit :=
  h <- gets heap ;;
  match h !! cmd with
  | Some (Exec argv eargv) => modify (set_heap (<[cmd := Exec (<[i := q]> argv) (<[i := eq]> eargv)]> h))
  | _ => fault "not an execcmd"
  end.

(** ** Parsing

    The loops consume a token per round, so the length of the line bounds
    their rounds. *)
Fixpoint parseredirs_loop (n : nat) (cmd : nat) : SH nat :=
  b <- peek [LESS; GREATER] ;;
  if negb b then ret cmd
  else
    match n with
    | O => nofuel
    | S n' =>
        t1 <- gettoken ;;
        t2 <- gettoken ;;
        let '(tok, _, _) := t1 in
        let '(r, q, eq) := t2 in
        if negb (r =? LETTER_A) then panic "missing file for redirection"
        else
          cmd <- (if tok =? LESS then redircmd cmd q eq O_RDONLY 0
                  else if tok =? GREATER then redircmd cmd q eq (Z.lor O_WRONLY O_CREATE) 1
                  else if tok =? PLUS then redircmd cmd q eq (Z.lor O_WRONLY O_CREATE) 1
                  else ret cmd) ;;
          parseredirs_loop n' cmd
    end.
Definition parseredirs (cmd : nat) : SH nat := parseredirs_loop (S es) cmd.

(** The loop of [parseexec] over the arguments of [cmd]. *)
Fixpoint parseargs (n : nat) (cmd argc ret_ : nat) : SH nat :=
  b <- peek [BAR; RPAREN; AMP; SEMI] ;;
  if b : bool then set_arg cmd argc None None ;;; ret ret_
  else
    match n with
    | O => nofuel
    | S n' =>
        t <- gettoken ;;
        let '(tok, q, eq) := t in
        if tok =? 0 then set_arg cmd argc None None ;;; ret ret_
        else if negb (tok =? LETTER_A) then panic "syntax"
        else
          set_arg cmd argc (Some q) (Some eq) ;;;
          if (MAXARGS <=? S argc)%nat then panic "too many args"
          else
            ret_ <- parseredirs ret_ ;;
            parseargs n' cmd (S argc) ret_
    end.

(** [parseblock] with [parseline] as [line]. *)
Definition parseblock (line : SH nat) : SH nat :=
  b <- peek [LPAREN] ;;
  if negb b then panic "parseblock"
  else
    gettoken ;;;
    cmd <- line ;;
    b <- peek [RPAREN] ;;
    if negb b then panic "syntax - missing )"
    else
      gettoken ;;;
      parseredirs cmd.

Definition parseexec (line : SH nat) : SH nat :=
  b <- peek [LPAREN] ;;
  if b : bool then parseblock line
  else
    cmd <- execcmd ;;
    r <- parseredirs cmd ;;
    parseargs (S es) cmd 0 r.

(** [parsepipe] calls itself after each bar. *)
Fixpoint parsepipe (n : nat) (line : SH nat) : SH nat :=
  cmd <- parseexec line ;;
  b <- peek [BAR] ;;
  if negb b then ret cmd
  else
    match n with
    | O => nofuel
    | S n' =>
        gettoken ;;;
        r <- parsepipe n' line ;;
        pipecmd cmd r
    end.

Fixpoint parseback (n : nat) (cmd : nat) : SH nat :=
  b <- peek [AMP] ;;
  if negb b then ret cmd
  else
    match n with
    | O => nofuel
    | S n' =>
        gettoken ;;;
        cmd <- backcmd cmd ;;
        parseback n' cmd
    end.

(** [parseline] calls itself after a semicolon and, through [parseblock],
    after an opening parenthesis. *)
Fixpoint parseline (n : nat) : SH nat :=
  match n with
  | O => nofuel
  | S n' =>
      cmd <- parsepipe (S es) (parseline n') ;;
      cmd <- parseback (S es) cmd ;;
      b <- peek [SEMI] ;;
      if negb b then ret cmd
      else
        gettoken ;;;
        r <- parseline n' ;;
        listcmd cmd r
  end.

(** ** NUL-terminating the strings, in place *)
Definition put_nul (i : nat) : SH unit :=
  modify (fun s => set_text (<[i := 0]> (text s)) s).

Fixpoint nul_args (argv eargv : list (option nat)) : SH unit :=
  match argv, eargv with
  | Some _ :: argv', Some e :: eargv' => put_nul e ;;; nul_args argv' eargv'
  | Some _ :: _, _ => fault "eargv"
  | None :: _, _ => ret tt
  | [], _ => fault "argv"
  end.

Fixpoint nulterminate (n : nat) (cmd : nat) : SH unit :=
  match n with
  | O => nofuel
  | S n' =>
      h <- gets heap ;;
      match h !! cmd with
      | None => fault "dangling command"
      | Some (Exec argv eargv) => nul_args argv eargv
      | Some (Redir sub _ efile _ _) => nulterminate n' sub ;;; put_nul efile
      | Some (Pipe l r) => nulterminate n' l ;;; nulterminate n' r
      | Some (List l r) => nulterminate n' l ;;; nulterminate n' r
      | Some (Back sub) => nulterminate n' sub
      end
  end.

(** With something left the code prints it before its [panic]. *)
Definition parse_body : SH nat :=
  cmd <- parseline (S es) ;;
  peek [] ;;;
  s <- gets ps ;;
  if negb (s =? es)%nat then panic "leftovers"
  else
    h <- gets heap ;;
    nulterminate (length h) cmd ;;;
    ret cmd.
End Shell.

(** [parsecmd] on a line, with room for [avail] nodes. *)
Definition parsecmd (avail : nat) (line : list Z) : res shell nat :=
  parse_body (length line) avail (mk_shell 0 (line ++ [0]) []).
