(* ===== verification/Programs.v ===== *)
(** * Small user programs

    [cat.c], [wc.c], [echo.c], [kill.c], [ln.c], [mkdir.c], [rm.c], [ls.c],
    [init.c] and [zombie.c] over the system calls of [Ulib].  The arguments are
    [argv] after [argv[0]], strings the bytes before the final NUL; a loop that
    runs until its input ends carries fuel.

    Then: however the kernel cuts a file or a pipe into the results of [read],
    [cat] copies all of it in order and [wc] prints the number of its lines,
    words and bytes. *)
From Stdlib Require Import ZArith Lia Bool.
From stdpp Require Import base numbers list strings.
From S2P Require Import Prelude Machine Cstring FsState Fs Console Ulib Sh.
Import User.

(** The words 1, 2, ... stand for the addresses of [strs]. *)
Definition strings (strs : list (list Z)) (a : Z) : list Z := nth (Z.to_nat (a - 1)) strs [].
Definition line (s : string) : list Z := Console.text s ++ [10].

Section Programs.
Context {S : Type} {U : Usys S}.

Definition say (fd : Z) (fmt : list Z) (strs : list (list Z)) (args : list Z) : M S unit := printf (strings strs) fd fmt args.

(** ** [cat.c] *)
Fixpoint cat_loop (fuel : nat) (fd : Z) : M S unit :=
  match fuel with
  | O => nofuel
  | Datatypes.S fuel' =>
      p <- read fd 512 ;;
      let n := fst p in
      if 0 <? n then
        r <- write 1 (take (Z.to_nat n) (snd p)) ;;
        if negb (r =? n) then say 1 (line "cat: write error") [] [] ;;; exited
        else cat_loop fuel' fd
      else if n <? 0 then say 1 (line "cat: read error") [] [] ;;; exited
      else ret tt
  end.

Fixpoint cat_files (fuel : nat) (argv : list (list Z)) : M S unit :=
  match argv with
  | [] => exited
  | a :: argv' =>
      fd <- open a 0 ;;
      if fd <? 0 then say 1 (line "cat: cannot open %s") [a] [1] ;;; exited
      else
        cat_loop fuel fd ;;;
        close fd ;;;
        cat_files fuel argv'
  end.
Definition cat_main (fuel : nat) (argv : list (list Z)) : M S unit :=
  match argv with
  | [] => cat_loop fuel 0 ;;; exited
  | _ => cat_files fuel argv
  end.

(** ** [wc.c] *)
Record counts : Type := mk_counts { wc_l : Z; wc_w : Z; wc_c : Z; inword : bool }.

(** One round of the inner loop. *)
Definition wc_char (k : counts) (b : Z) : counts :=
  let c := i32 (wc_c k + 1) in
  let l := if b =? 10 then i32 (wc_l k + 1) else wc_l k in
  if strchr [32; 13; 9; 10; 11] b then mk_counts l (wc_w k) c false
  else if negb (inword k) then mk_counts l (i32 (wc_w k + 1)) c true
  else mk_counts l (wc_w k) c (inword k).

Fixpoint wc_loop (fuel : nat) (fd : Z) (k : counts) : M S (Z * counts) :=
  match fuel with
  | O => nofuel
  | Datatypes.S fuel' =>
      p <- read fd 512 ;;
      if 0 <? fst p then wc_loop fuel' fd (fold_left wc_char (take (Z.to_nat (fst p)) (snd p)) k)
      else ret (fst p, k)
  end.
Definition wc (fuel : nat) (fd : Z) (name : list Z) : M S unit :=
  r <- wc_loop fuel fd (mk_counts 0 0 0 false) ;;
  if fst r <? 0 then say 1 (line "wc: read error") [] [] ;;; exited
  else
    let k := snd r in
    say 1 (line "%d %d %d %s") [name] [u32 (wc_l k); u32 (wc_w k); u32 (wc_c k); 1].

Fixpoint wc_files (fuel : nat) (argv : list (list Z)) : M S unit :=
  match argv with
  | [] => exited
  | a :: argv' =>
      fd <- open a 0 ;;
      if fd <? 0 then say 1 (line "wc: cannot open %s") [a] [1] ;;; exited
      else
        wc fuel fd a ;;;
        close fd ;;;
        wc_files fuel argv'
  end.
Definition wc_main (fuel : nat) (argv : list (list Z)) : M S unit :=
  match argv with
  | [] => wc fuel 0 [] ;;; exited
  | _ => wc_files fuel argv
  end.

(** ** [echo.c], [kill.c], [ln.c], [mkdir.c], [rm.c] *)
Fixpoint echo_main (argv : list (list Z)) : M S unit :=
  match argv with
  | [] => exited
  | a :: argv' =>
      say 1 (Console.text "%s%s") [a; match argv' with [] => [10] | _ => [32] end] [1; 2] ;;;
      echo_main argv'
  end.

Fixpoint kill_each (argv : list (list Z)) : M S unit :=
  match argv with
  | [] => exited
  | a :: argv' =>
      match atoi (a ++ [0]) with
      | Some p => kill p ;;; kill_each argv'
      | None => fault "atoi"
      end
  end.
Definition kill_main (argv : list (list Z)) : M S unit :=
  match argv with
  | [] => say 2 (line "usage: kill pid...") [] [] ;;; exited
  | _ => kill_each argv
  end.

Definition ln_main (argv : list (list Z)) : M S unit :=
  match argv with
  | [old; new] =>
      r <- link old new ;;
      when (r <? 0) (say 2 (line "link %s %s: failed") [old; new] [1; 2]) ;;;
      exited
  | _ => say 2 (line "Usage: ln old new") [] [] ;;; exited
  end.

(** The loops of [mkdir.c] and [rm.c]: up to the first failure. *)
Fixpoint each (call : list Z -> M S Z) (msg : list Z) (argv : list (list Z)) : M S unit :=
  match argv with
  | [] => exited
  | a :: argv' =>
      r <- call a ;;
      if r <? 0 then say 2 msg [a] [1] ;;; exited else each call msg argv'
  end.
Definition mkdir_main (argv : list (list Z)) : M S unit :=
  match argv with
  | [] => say 2 (line "Usage: mkdir files...") [] [] ;;; exited
  | _ => each mkdir (line "mkdir: %s failed to create") argv
  end.
Definition rm_main (argv : list (list Z)) : M S unit :=
  match argv with
  | [] => say 2 (line "Usage: rm files...") [] [] ;;; exited
  | _ => each unlink (line "rm: %s failed to delete") argv
  end.

(** ** [ls.c] *)

(** What follows the last slash, padded to 14 characters. *)
Fixpoint after_slash (path best : list Z) : list Z :=
  match path with
  | [] => best
  | c :: path' => after_slash path' (if c =? 47 then path' else best)
  end.
Definition fmtname (path : list Z) : list Z :=
  let p := after_slash path path in
  if (DIRSIZ <=? length p)%nat then p else p ++ replicate (DIRSIZ - length p) 32.

Definition ls_print (path : list Z) (st : stat_t) : M S unit :=
  say 1 (line "%s %d %d %d") [fmtname path] [1; u32 (st_type st); u32 (st_ino st); u32 (st_size st)].

(** The entries of a directory; [p] is the path with its slash. *)
Fixpoint ls_dir (fuel : nat) (fd : Z) (p : list Z) : M S unit :=
  match fuel with
  | O => nofuel
  | Datatypes.S fuel' =>
      r <- read fd 16 ;;
      if negb (fst r =? 16) then ret tt
      else if get16 (snd r) 0 =? 0 then ls_dir fuel' fd p
      else
        let buf := p ++ cstr DIRSIZ (drop 2 (snd r)) in
        st <- stat buf ;;
        match st with
        | (r, Some st) =>
            (if r <? 0 then say 1 (line "ls: cannot stat %s") [buf] [1] else ls_print buf st) ;;; ls_dir fuel' fd p
        | (_, None) => say 1 (line "ls: cannot stat %s") [buf] [1] ;;; ls_dir fuel' fd p
        end
  end.

Definition ls (fuel : nat) (path : list Z) : M S unit :=
  fd <- open path 0 ;;
  if fd <? 0 then say 2 (line "ls: cannot open %s") [path] [1]
  else
    r <- fstat fd ;;
    if fst r <? 0 then
      say 2 (line "ls: cannot stat %s") [path] [1] ;;;
      close fd ;;;
      ret tt
    else
      (if st_type (snd r) =? T_FILE then ls_print path (snd r)
       else if st_type (snd r) =? T_DIR then
         if 512 <? Z.of_nat (length path) + 1 + Z.of_nat DIRSIZ + 1 then say 1 (line "ls: path too long") [] []
         else ls_dir fuel fd (path ++ [47])
       else ret tt) ;;;
      close fd ;;;
      ret tt.
Fixpoint ls_each (fuel : nat) (argv : list (list Z)) : M S unit :=
  match argv with
  | [] => exited
  | a :: argv' => ls fuel a ;;; ls_each fuel argv'
  end.
Definition ls_main (fuel : nat) (argv : list (list Z)) : M S unit :=
  match argv with
  | [] => ls fuel [46] ;;; exited
  | _ => ls_each fuel argv
  end.

(** ** [init.c], [zombie.c] *)
Definition O_RDWR : Z := 2.

Fixpoint init_wait (fuel : nat) (pid : Z) : M S unit :=
  match fuel with
  | O => nofuel
  | Datatypes.S fuel' =>
      wpid <- wait ;;
      if (0 <=? wpid) && negb (wpid =? pid) then say 1 (line "zombie!") [] [] ;;; init_wait fuel' pid else ret tt
  end.
Fixpoint init_loop (fuel : nat) : M S unit :=
  match fuel with
  | O => nofuel
  | Datatypes.S fuel' =>
      say 1 (line "init: starting sh") [] [] ;;;
      pid <- fork ;;
      if pid <? 0 then say 1 (line "init: fork failed") [] [] ;;; exited
      else if pid =? 0 then
        exec (Console.text "sh") [Console.text "sh"] ;;;
        say 1 (line "init: exec sh failed") [] [] ;;;
        exited
      else init_wait fuel pid ;;; init_loop fuel'
  end.
Definition init_main (fuel : nat) : M S unit :=
  fd <- open (Console.text "console") O_RDWR ;;
  when (fd <? 0) (mknod (Console.text "console") 1 1 ;;; open (Console.text "console") O_RDWR ;;; ret tt) ;;;
  dup 0 ;;;
  dup 0 ;;;
  init_loop fuel.

Definition zombie_main : M S unit :=
  pid <- fork ;;
  when (0 <? pid) (sleep 5 ;;; ret tt) ;;;
  exited.
End Programs.

(** ** Files and pipes read in pieces

    What [read] on [fd] and [write] on the standard output do: [left] is what
    the file still has, [out] what has been written.  A [read] returns some of
    the bytes that are left, at least one of them, and 0 at the end. *)
Class Stream {S : Type} (U : Usys S) (fd : Z) (left out : S -> list Z) : Prop := {
  stream_read : forall n (s : S) (Q : Z * list Z -> S -> Prop), 0 < n ->
    (left s = [] -> forall s', left s' = [] -> out s' = out s -> Q (0, []) s') ->
    (forall k s', (1 <= k <= length (left s))%nat -> Z.of_nat k <= n -> left s' = drop k (left s) -> out s' = out s ->
       Q (Z.of_nat k, take k (left s)) s') ->
    wp (read fd n) Q s;
  stream_write : forall l (s : S) (Q : Z -> S -> Prop),
    (forall s', left s' = left s -> out s' = out s ++ l -> Q (Z.of_nat (length l)) s') -> wp (write 1 l) Q s;
}.

(** Words: maximal runs of characters that are not white space. *)
Definition space (b : Z) : bool := strchr [32; 13; 9; 10; 11] b.
Fixpoint words (cur l : list Z) : list (list Z) :=
  match l with
  | [] => match cur with [] => [] | _ => [cur] end
  | b :: l' => if space b then match cur with [] => words [] l' | _ => cur :: words [] l' end else words (cur ++ [b]) l'
  end.
Definition lines (l : list Z) : nat := length (filter (fun b => b = 10) l).

Section Streams.
Context {S : Type} {U : Usys S} (fd : Z) (left out : S -> list Z) {ST : Stream U fd left out}.

Lemma wp_cat_loop fuel : forall s (Q : unit -> S -> Prop), (length (left s) < fuel)%nat ->
  (forall s', left s' = [] -> out s' = out s ++ left s -> Q tt s') -> wp (cat_loop fuel fd) Q s.
Proof.
  induction fuel as [|fuel IH]; intros s Q Hf HQ; [lia|]. cbn [cat_loop]. wp_step. apply stream_read; [lia| |].
  - intros Hl s' H1 H2. cbn [fst]. change (wp (ret tt) Q s'). apply HQ; [done|]. by rewrite Hl, app_nil_r.
  - intros k s1 Hk _ H1 H2. cbv zeta. cbn [fst snd]. rewrite (proj2 (Z.ltb_lt _ _)) by lia. wp_step. rewrite Nat2Z.id.
    apply stream_write. intros s2 H3 H4. rewrite take_take, Nat.min_id, length_take, Nat.min_l in * by lia. rewrite Z.eqb_refl. cbn [negb].
    apply IH; [rewrite H3, H1, length_drop; lia|]. intros s' H5 H6. apply HQ; [done|].
    rewrite H6, H4, H2, H3, H1, <- app_assoc. f_equal. apply take_drop.
Qed.

Lemma wp_wc_loop fuel : forall k s (Q : Z * counts -> S -> Prop), (length (left s) < fuel)%nat ->
  (forall s', left s' = [] -> out s' = out s -> Q (0, fold_left wc_char (left s) k) s') -> wp (wc_loop fuel fd k) Q s.
Proof.
  induction fuel as [|fuel IH]; intros k s Q Hf HQ; [lia|]. cbn [wc_loop]. wp_step. apply stream_read; [lia| |].
  - intros Hl s' H1 H2. cbn [fst]. change (wp (ret (0, k)) Q s'). wp_step. rewrite Hl in HQ. by apply HQ.
  - intros j s1 Hj _ H1 H2. cbn [fst snd]. rewrite (proj2 (Z.ltb_lt _ _)) by lia. rewrite Nat2Z.id, take_take, Nat.min_id.
    apply IH; [rewrite H1, length_drop; lia|]. intros s' H3 H4. rewrite H1, <- fold_left_app, take_drop. apply HQ; [done|congruence].
Qed.

Lemma wp_putcs_stream l : forall s (Q : unit -> S -> Prop),
  (forall s', left s' = left s -> out s' = out s ++ map u8 l -> Q tt s') -> wp (putcs 1 l) Q s.
Proof.
  induction l as [|c l IH]; intros s Q HQ; cbn [putcs]; [apply HQ; [done|by rewrite app_nil_r]|]. wp_step. unfold putc. wp_step.
  apply stream_write. intros s1 H1 H2. wp_step. apply IH. intros s' H3 H4. apply HQ; [congruence|]. rewrite H4, H2, <- app_assoc. done.
Qed.
End Streams.

(** ** The counts of [wc] *)
Lemma wc_fold l : forall k, 0 <= wc_l k -> 0 <= wc_w k -> 0 <= wc_c k -> wc_l k + Z.of_nat (length l) < 2 ^ 31 ->
  wc_w k + Z.of_nat (length l) < 2 ^ 31 -> wc_c k + Z.of_nat (length l) < 2 ^ 31 ->
  forall cur, (cur = [] <-> inword k = false) ->
  wc_l (fold_left wc_char l k) = wc_l k + Z.of_nat (lines l) /\ wc_c (fold_left wc_char l k) = wc_c k + Z.of_nat (length l) /\
  wc_w (fold_left wc_char l k) = wc_w k + Z.of_nat (length (words cur l)) - (if inword k then 1 else 0).
Proof.
  rewrite pow2_31. induction l as [|b l IH]; intros k H1 H2 H3 H4 H5 H6 cur Hcur; cbn [fold_left length words].
  { unfold lines. rewrite filter_nil. cbn [length]. destruct (inword k); [|rewrite (proj2 Hcur eq_refl); simpl; lia].
    destruct cur; [discriminate (proj1 Hcur eq_refl)|simpl; lia]. }
  cbn [length] in *. assert (lines (b :: l) = ((if (b =? 10)%Z then 1 else 0) + lines l)%nat) as ->.
  { unfold lines. destruct (Z.eqb_spec b 10); [by rewrite filter_cons_True|by rewrite filter_cons_False]. }
  fold (space b). unfold wc_char at 2 4 6. fold (space b). rewrite !i32_small by (rewrite pow2_31; lia).
  set (nl := if b =? 10 then wc_l k + 1 else wc_l k). assert (nl = wc_l k + Z.of_nat (if b =? 10 then 1 else 0)) as Hnl by (subst nl; destruct (b =? 10); lia).
  clearbody nl. rewrite Nat2Z.inj_add.
  assert (forall w iw cur', 0 <= w <= wc_w k + 1 -> (cur' = [] <-> iw = false) ->
    wc_l (fold_left wc_char l (mk_counts nl w (wc_c k + 1) iw)) = nl + Z.of_nat (lines l) /\
    wc_c (fold_left wc_char l (mk_counts nl w (wc_c k + 1) iw)) = wc_c k + 1 + Z.of_nat (length l) /\
    wc_w (fold_left wc_char l (mk_counts nl w (wc_c k + 1) iw)) = w + Z.of_nat (length (words cur' l)) - (if iw then 1 else 0)) as IH'.
  { intros w iw cur' Hw Hc. apply (IH (mk_counts nl w (wc_c k + 1) iw)); cbn [wc_l wc_w wc_c inword]; try done; destruct (b =? 10); lia. }
  destruct (space b) eqn:Es; [|destruct (inword k) eqn:Ew; cbn [negb]].
  - destruct (IH' (wc_w k) false [] ltac:(lia) ltac:(done)) as (-> & -> & ->). split_and!; [lia|lia|]. destruct cur as [|x cur].
    + rewrite (proj1 Hcur eq_refl). lia.
    + destruct (inword k); [cbn [length]; lia|]. discriminate (proj2 Hcur eq_refl).
  - destruct (IH' (wc_w k) true (cur ++ [b]) ltac:(lia)) as (-> & -> & ->); [|split_and!; lia].
    split; [intros H; by apply app_eq_nil in H as [_ ?]|done].
  - destruct (IH' (wc_w k + 1) true (cur ++ [b]) ltac:(lia)) as (-> & -> & ->); [|split_and!; lia].
    split; [intros H; by apply app_eq_nil in H as [_ ?]|done].
Qed.

Definition counts_text (l : list Z) (name : list Z) : list Z :=
  number 65 (Z.of_nat (lines l)) 10 true ++ [32] ++ number 65 (Z.of_nat (length (words [] l))) 10 true ++ [32] ++
  number 65 (Z.of_nat (length l)) 10 true ++ [32] ++ name ++ [10].

Lemma format_counts a b c name :
  format (strings [name]) 65 true false (line "%d %d %d %s") [a; b; c; 1] =
  Some (number 65 (i32 a) 10 true ++ [32] ++ number 65 (i32 b) 10 true ++ [32] ++ number 65 (i32 c) 10 true ++ [32] ++ name ++ [10]).
Proof. reflexivity. Qed.

Lemma i32_u32_small x : 0 <= x < 2 ^ 31 -> i32 (u32 x) = x.
Proof. rewrite pow2_31. intros Hx. by rewrite u32_small, i32_small by (rewrite ?pow2_32, ?pow2_31; lia). Qed.

Lemma number_bytes x : 0 <= x < 2 ^ 31 -> bytes (number 65 x 10 true).
Proof.
  intros Hx. rewrite number_small by done. apply Forall_reverse. eapply Forall_impl; [apply decimal_digits; lia|]. simpl. intros c ?. lia.
Qed.
Lemma map_u8_bytes l : bytes l -> map u8 l = l.
Proof.
  induction 1 as [|c l Hc _ IH]; [done|]. cbn [map]. rewrite IH. f_equal. unfold u8. change (2 ^ 8) with 256. zlia.
Qed.

Lemma words_length cur l : (length (words cur l) <= length l + match cur with [] => 0 | _ => 1 end)%nat.
Proof.
  revert cur. induction l as [|b l IH]; intros cur; cbn [words]; [destruct cur; simpl; lia|]. destruct (space b).
  - pose proof (IH []) as H. destruct cur; cbn [length] in *; lia.
  - pose proof (IH (cur ++ [b])) as H. destruct (cur ++ [b]) eqn:E; [by apply app_eq_nil in E as [_ ?]|]. cbn [length] in *. destruct cur; lia.
Qed.
Lemma lines_length l : (lines l <= length l)%nat.
Proof. apply length_filter. Qed.

(** C31: however the kernel cuts the bytes of a file or a pipe into the results
    of [read], [cat] writes exactly those bytes in order, and [wc] prints the
    numbers of newlines, of maximal runs of non-blank characters and of bytes
    of the whole, in decimal, and the name; a word that goes over the end of a
    piece counts once. *)
Theorem cat_wc_pieces {S : Type} {U : Usys S} (fd : Z) (left out : S -> list Z) {ST : Stream U fd left out}
    (fuel : nat) (name : list Z) (s : S) :
  (length (left s) < fuel)%nat -> Z.of_nat (length (left s)) < 2 ^ 31 -> bytes name ->
  wp (cat_loop fuel fd) (fun _ s' => left s' = [] /\ out s' = out s ++ left s) s /\
  wp (wc fuel fd name) (fun _ s' => left s' = [] /\ out s' = out s ++ counts_text (left s) name) s.
Proof.
  intros Hf Hlen Hname. split; [by apply (wp_cat_loop fd left out)|]. unfold wc. wp_step. apply (wp_wc_loop fd left out); [done|].
  intros s1 H1 H2. cbn [fst snd]. change (0 <? 0) with false. cbv iota. unfold say.
  destruct (wc_fold (left s) (mk_counts 0 0 0 false)) with (cur := @nil Z) as (C1 & C2 & C3); cbn [wc_l wc_w wc_c inword]; try done; try lia.
  cbn [wc_l wc_w wc_c inword] in *. rewrite C1, C2, C3. pose proof (lines_length (left s)). pose proof (words_length [] (left s)) as Hw. cbn beta iota in Hw.
  pose proof (format_counts (u32 (0 + Z.of_nat (lines (left s)))) (u32 (0 + Z.of_nat (length (words [] (left s))) - 0)) (u32 (0 + Z.of_nat (length (left s)))) name) as Hfmt.
  apply (says_printf _ 1 _ _ _ _ Hfmt). apply (wp_putcs_stream fd left out). intros s' H3 H4. split; [congruence|]. rewrite H4, H2. f_equal.
  rewrite Z.sub_0_r, !Z.add_0_l, !i32_u32_small by lia. apply map_u8_bytes.
  repeat (apply Forall_app; split); try (apply number_bytes; lia); try done; repeat constructor; lia.
Qed.

(** A file as the bytes that are left, read 3 at a time, and the output. *)
Definition file_sys : Usys (list Z * list Z) :=
  {| fork := ret (-1); wait := ret (-1); pipe := ret (-1, (0, 0));
     write := fun _ l => modify (fun s => (fst s, snd s ++ l)) ;;; ret (Z.of_nat (length l));
     read := fun _ n => l <- Prelude.gets fst ;; let k := Nat.min 3 (Nat.min (Z.to_nat n) (length l)) in
               modify (fun s => (drop k (fst s), snd s)) ;;; ret (Z.of_nat k, take k l);
     close := fun _ => ret 0; kill := fun _ => ret (-1); exec := fun _ _ => ret (-1);
     open := fun _ _ => ret (-1); mknod := fun _ _ _ => ret (-1); unlink := fun _ => ret (-1);
     fstat := fun _ => ret (-1, mk_stat 0 0 0 0 0); link := fun _ _ => ret (-1); mkdir := fun _ => ret (-1);
     chdir := fun _ => ret (-1); dup := fun _ => ret (-1); sleep := fun _ => ret 0 |}.
Lemma file_stream : Stream file_sys 0 fst snd.
Proof.
  constructor.
  - intros n [l o] Q Hn H0 H1. cbn [read file_sys]. wp_step. wp_step. cbn [fst] in *. wp_step. wp_step. wp_step. cbn [fst snd] in *.
    set (k := Nat.min 3 (Nat.min (Z.to_nat n) (length l))). destruct (decide (l = [])) as [->|Hl].
    + replace k with 0%nat by (subst k; cbn [length]; lia). by apply H0.
    + assert (length l <> 0%nat) by (by destruct l). apply H1; cbn [fst snd]; [lia|lia|done|done].
  - intros l [i o] Q HQ. cbn [write file_sys]. wp_step. wp_step. wp_step. by apply HQ.
Qed.

Lemma cat_wc_pieces_witness :
  wp (@wc _ file_sys 20 0 [120]) (fun _ s' => fst s' = [] /\ snd s' = counts_text [104; 105; 32; 116; 104; 101; 114; 101; 10] [120])
    ([104; 105; 32; 116; 104; 101; 114; 101; 10], []) /\
  counts_text [104; 105; 32; 116; 104; 101; 114; 101; 10] [120] = Console.text "1 2 9 x" ++ [10].
Proof.
  split; [|vm_compute; reflexivity].
  destruct (@cat_wc_pieces _ file_sys 0 fst snd file_stream 20 [120] ([104; 105; 32; 116; 104; 101; 114; 101; 10], [])) as [_ H];
    [simpl; lia|by vm_compute|repeat constructor; lia|]. exact H.
Defined.
