(* ===== verification/GrepRun.v ===== *)
(** * [grep.c]: the loop over the input, and [main]

    [buf] holds the bytes kept from earlier reads.  The lines up to the last
    newline are looked at; what follows it is kept, unless there was no newline
    at all.

    Then: when every [read] brings a newline, [grep] prints exactly the lines
    that match, in order. *)
From Stdlib Require Import ZArith Lia Bool.
From stdpp Require Import base numbers list strings.
From S2P Require Import Prelude Machine Cstring FsState Fs Console Ulib Programs Grep.
Import User.

Section Run.
Context {S : Type} {U : Usys S}.

(** The inner loop: what remains at [p]. *)
Fixpoint grep_lines (fuel : nat) (pattern p : list Z) : M S (list Z) :=
  match fuel with
  | O => nofuel
  | Datatypes.S fuel' =>
      match split_line p with
      | None => ret p
      | Some (line, rest) =>
          when (match_ pattern line) (write 1 (line ++ [NEWLINE]) ;;; ret tt) ;;;
          grep_lines fuel' pattern rest
      end
  end.

Fixpoint grep (fuel : nat) (pattern : list Z) (fd : Z) (buf : list Z) : M S unit :=
  match fuel with
  | O => nofuel
  | Datatypes.S fuel' =>
      r <- read fd (1024 - Z.of_nat (length buf) - 1) ;;
      if 0 <? fst r then
        let buf := buf ++ take (Z.to_nat (fst r)) (snd r) in
        p <- grep_lines (Datatypes.S (length buf)) pattern buf ;;
        grep fuel' pattern fd (if decide (p = buf) then [] else p)
      else ret tt
  end.

Fixpoint grep_files (fuel : nat) (pattern : list Z) (argv : list (list Z)) : M S unit :=
  match argv with
  | [] => exited
  | a :: argv' =>
      fd <- open a 0 ;;
      if fd <? 0 then say 1 (line "grep: cannot open %s") [a] [1] ;;; exited
      else
        grep fuel pattern fd [] ;;;
        close fd ;;;
        grep_files fuel pattern argv'
  end.
(** [argv] after [argv[0]]. *)
Definition grep_main (fuel : nat) (argv : list (list Z)) : M S unit :=
  match argv with
  | [] => say 2 (line "usage: grep pattern [file ...]") [] [] ;;; exited
  | [pattern] => grep fuel pattern 0 [] ;;; exited
  | pattern :: files => grep_files fuel pattern files
  end.
End Run.

(** ** Input in pieces

    [pieces] are the results of the calls of [read] still to come, [out] what
    has been written. *)
Class Pieces {S : Type} (U : Usys S) (fd : Z) (pieces : S -> list (list Z)) (out : S -> list Z) : Prop := {
  pieces_end : forall n (s : S) (Q : Z * list Z -> S -> Prop), pieces s = [] ->
    (forall s', pieces s' = [] -> out s' = out s -> Q (0, []) s') -> wp (read fd n) Q s;
  pieces_read : forall n (s : S) r rs (Q : Z * list Z -> S -> Prop), pieces s = r :: rs -> Z.of_nat (length r) <= n ->
    (forall s', pieces s' = rs -> out s' = out s -> Q (Z.of_nat (length r), r) s') -> wp (read fd n) Q s;
  pieces_write : forall l (s : S) (Q : Z -> S -> Prop),
    (forall s', pieces s' = pieces s -> out s' = out s ++ l -> Q (Z.of_nat (length l)) s') -> wp (write 1 l) Q s;
}.

(** The lines that end in a newline, [cur] before the text. *)
Fixpoint complete (cur l : list Z) : list (list Z) :=
  match l with
  | [] => []
  | b :: l' => if b =? NEWLINE then cur :: complete [] l' else complete (cur ++ [b]) l'
  end.
Definition printed (pattern : list Z) (ls : list (list Z)) : list Z :=
  concat (map (fun l => l ++ [NEWLINE]) (filter (fun l => match_ pattern l = true) ls)).

Lemma complete_line w : NEWLINE ∉ w -> forall cur rest, complete cur (w ++ NEWLINE :: rest) = (cur ++ w) :: complete [] rest.
Proof.
  induction w as [|b w IH]; intros Hw cur rest; cbn [app complete]; [by rewrite app_nil_r|]. apply not_elem_of_cons in Hw as [Hb Hw].
  rewrite (proj2 (Z.eqb_neq b NEWLINE)) by congruence. rewrite IH by done. by rewrite <- app_assoc.
Qed.
Lemma complete_none w : NEWLINE ∉ w -> forall cur, complete cur w = [].
Proof.
  induction w as [|b w IH]; intros Hw cur; cbn [complete]; [done|]. apply not_elem_of_cons in Hw as [Hb Hw].
  rewrite (proj2 (Z.eqb_neq b NEWLINE)) by congruence. by apply IH.
Qed.
Lemma printed_cons pattern w ls :
  printed pattern (w :: ls) = (if match_ pattern w then w ++ [NEWLINE] else []) ++ printed pattern ls.
Proof.
  unfold printed. destruct (match_ pattern w) eqn:E; [by rewrite filter_cons_True|]. rewrite filter_cons_False by congruence. done.
Qed.
Lemma printed_app pattern l1 l2 : printed pattern (l1 ++ l2) = printed pattern l1 ++ printed pattern l2.
Proof. unfold printed. by rewrite filter_app, map_app, concat_app. Qed.

Lemma split_line_spec p : 0 ∉ p ->
  match split_line p with
  | None => NEWLINE ∉ p
  | Some (w, rest) => p = w ++ NEWLINE :: rest /\ NEWLINE ∉ w
  end.
Proof.
  induction p as [|c p IH]; intros H0; cbn [split_line]; [apply not_elem_of_nil|]. apply not_elem_of_cons in H0 as [Hc H0].
  rewrite (proj2 (Z.eqb_neq c 0)) by congruence. destruct (Z.eqb_spec c NEWLINE) as [->|Hn]; [by split; [|apply not_elem_of_nil]|].
  specialize (IH H0). destruct (split_line p) as [[w rest]|]; cbn [option_map fst snd].
  - destruct IH as [-> IH]. split; [done|]. apply not_elem_of_cons. by split; [congruence|].
  - apply not_elem_of_cons. by split; [congruence|].
Qed.

Section Spec.
Context {S : Type} {U : Usys S} (fd : Z) (pieces : S -> list (list Z)) (out : S -> list Z) {PC : Pieces U fd pieces out}.
Context (pattern : list Z).
Implicit Types s : S.

Lemma wp_grep_lines fuel : forall p s (Q : list Z -> S -> Prop), 0 ∉ p -> (length p < fuel)%nat ->
  (forall body p' s', p = body ++ p' -> NEWLINE ∉ p' -> pieces s' = pieces s -> out s' = out s ++ printed pattern (complete [] p) ->
     (forall more, complete [] (p ++ more) = complete [] p ++ complete [] (p' ++ more)) -> Q p' s') ->
  wp (grep_lines fuel pattern p) Q s.
Proof.
  induction fuel as [|fuel IH]; intros p s Q H0 Hf HQ; [lia|]. cbn [grep_lines]. pose proof (split_line_spec p H0) as Hs.
  destruct (split_line p) as [[w rest]|].
  - destruct Hs as [-> Hw]. apply not_elem_of_app in H0 as [_ [_ H0]%not_elem_of_cons]. rewrite length_app in Hf. cbn [length] in Hf.
    assert (forall s1, pieces s1 = pieces s -> out s1 = out s ++ (if match_ pattern w then w ++ [NEWLINE] else []) ->
      wp (grep_lines fuel pattern rest) Q s1) as Hgo.
    { intros s1 P1 O1. apply IH; [done|lia|]. intros body p' s2 -> Hp' P2 O2 Hmore. apply (HQ (w ++ NEWLINE :: body)); [by rewrite <- app_assoc|done|congruence| |].
      - rewrite O2, O1, complete_line, printed_cons by done. by rewrite <- app_assoc.
      - intros more. rewrite <- !app_assoc. cbn [app]. rewrite !complete_line by done. cbn [app]. f_equal.
        apply Hmore. }
    wp_step. destruct (match_ pattern w) eqn:E; cbn [when].
    + wp_step. apply pieces_write. intros s1 P1 O1. wp_step. by apply Hgo.
    + wp_step. apply Hgo; [done|by rewrite app_nil_r].
  - wp_step. apply (HQ [] p); [done|done|done| |].
    + rewrite complete_none by done. by rewrite app_nil_r.
    + intros more. by rewrite (complete_none p).
Qed.

(** A piece of at most 512 bytes with a newline and no NUL. *)
Definition good_piece (r : list Z) : Prop := NEWLINE ∈ r /\ 0 ∉ r /\ (length r <= 512)%nat.

Lemma kept_short buf r body p' : buf ++ r = body ++ p' -> NEWLINE ∈ r -> NEWLINE ∉ p' -> (length p' < length r)%nat.
Proof.
  intros He Hr Hp. destruct (decide (length p' < length r)%nat) as [|Hge]; [done|]. exfalso. apply Hp.
  pose proof (f_equal length He) as Hl. rewrite !length_app in Hl.
  assert (p' = drop (length body) buf ++ r) as ->; [|apply elem_of_app; by right].
  rewrite <- drop_app_le by lia. rewrite He. by rewrite drop_app_length.
Qed.

Lemma wp_grep fuel : forall buf s (Q : unit -> S -> Prop), (length (pieces s) < fuel)%nat -> NEWLINE ∉ buf -> 0 ∉ buf ->
  (length buf <= 511)%nat -> Forall good_piece (pieces s) ->
  (forall s', out s' = out s ++ printed pattern (complete [] (buf ++ concat (pieces s))) -> Q tt s') ->
  wp (grep fuel pattern fd buf) Q s.
Proof.
  induction fuel as [|fuel IH]; intros buf s Q Hf Hn H0 Hl Hgood HQ; [lia|]. cbn [grep]. wp_step.
  destruct (pieces s) as [|r rs] eqn:Ep.
  - apply (pieces_end (pieces := pieces) (out := out)); [done|]. intros s1 P1 O1. cbn [fst]. change (wp (ret tt) Q s1). apply HQ.
    cbn [concat]. rewrite app_nil_r, complete_none by done. by rewrite app_nil_r.
  - apply Forall_cons in Hgood as [(Hr & Hr0 & Hrl) Hgood]. apply (pieces_read (out := out) _ s r rs); [done|lia|]. intros s1 P1 O1. cbn [fst snd].
    rewrite (proj2 (Z.ltb_lt _ _)) by (destruct r; [by apply not_elem_of_nil in Hr|cbn; lia]). rewrite Nat2Z.id, firstn_all. cbv zeta. wp_step.
    apply wp_grep_lines; [apply not_elem_of_app; done|lia|]. intros body p' s2 He Hp P2 O2 Hmore.
    rewrite decide_False by (intros ->; apply Hp, elem_of_app; by right). pose proof (kept_short _ _ _ _ He Hr Hp) as Hshort.
    apply IH; [rewrite P2, P1; cbn [length] in Hf; lia|done| |lia|by rewrite P2, P1|].
    + intros Hin. assert (0 ∈ buf ++ r) as [?|?]%elem_of_app; [|done|done]. rewrite He. apply elem_of_app. by right.
    + intros s3 O3. apply HQ. cbn [concat]. rewrite O3, O2, O1, P2, P1, app_assoc, Hmore, printed_app, app_assoc. done.
Qed.
End Spec.

(** A file in pieces and the output. *)
Definition piece_sys : Usys (list (list Z) * list Z) :=
  {| fork := ret (-1); wait := ret (-1); pipe := ret (-1, (0, 0));
     write := fun _ l => modify (fun s => (fst s, snd s ++ l)) ;;; ret (Z.of_nat (length l));
     read := fun _ _ => fun s =>
       match fst s with [] => Ok (0, []) s | r :: rs => Ok (Z.of_nat (length r), r) (rs, snd s) end;
     close := fun _ => ret 0; kill := fun _ => ret (-1); exec := fun _ _ => ret (-1);
     open := fun _ _ => ret (-1); mknod := fun _ _ _ => ret (-1); unlink := fun _ => ret (-1);
     fstat := fun _ => ret (-1, mk_stat 0 0 0 0 0); link := fun _ _ => ret (-1); mkdir := fun _ => ret (-1);
     chdir := fun _ => ret (-1); dup := fun _ => ret (-1); sleep := fun _ => ret 0 |}.
Lemma piece_sys_ok : Pieces piece_sys 0 fst snd.
Proof.
  constructor; cbn [read write piece_sys].
  - intros n [ps o] Q Hp HQ. cbn [fst] in Hp. subst ps. by apply HQ.
  - intros n [ps o] r rs Q Hp _ HQ. cbn [fst] in Hp. subst ps. by apply HQ.
  - intros l [ps o] Q HQ. wp_step. wp_step. wp_step. by apply HQ.
Qed.

(** C30: [grep] prints the lines that match.  When every [read] brings a newline,
    no NUL and at most 512 bytes, [grep] writes exactly the lines of its input
    that match the pattern, in order, each once, also those that arrive in two
    reads; an unfinished last line is left out.  A read without a newline breaks
    this: given "ab" and then "c", newline, it prints nothing for the pattern
    that starts with "ab", though the line "abc" matches. *)
Theorem grep_prints_matches {S : Type} {U : Usys S} (fd : Z) (pieces : S -> list (list Z)) (out : S -> list Z)
    {PC : Pieces U fd pieces out} (fuel : nat) (pattern : list Z) (s : S) :
  (length (pieces s) < fuel)%nat -> Forall good_piece (pieces s) ->
  wp (grep fuel pattern fd []) (fun _ s' => out s' = out s ++ printed pattern (complete [] (concat (pieces s)))) s /\
  (match_ [94; 97; 98] [97; 98; 99] = true /\
   wp (@grep _ piece_sys 3 [94; 97; 98] 0 []) (fun _ s' => snd s' = []) ([[97; 98]; [99; 10]], [])).
Proof.
  intros Hf Hgood. split; [|by split; vm_compute].
  apply (wp_grep fd pieces out); [done|apply not_elem_of_nil|apply not_elem_of_nil|cbn; lia|done|done].
Qed.

Lemma grep_prints_matches_witness :
  wp (@grep _ piece_sys 3 [94; 97; 98] 0 []) (fun _ s' => snd s' = [97; 98; 99; 10]) ([[120; 10; 97; 98]; [99; 10]], []).
Proof.
  destruct (@grep_prints_matches _ piece_sys 0 fst snd piece_sys_ok 3 [94; 97; 98] ([[120; 10; 97; 98]; [99; 10]], [])) as [H _];
    [cbn; lia|repeat constructor; try (cbn; lia); by apply (bool_decide_unpack _)|]. exact H.
Defined.
