(* ===== verification/ShProps.v ===== *)
(** * The shell's parser always returns, with a well-formed command

    The invariant of the parser's state, the effect of each parsing function
    on it, and what holds of the commands and strings that [parsecmd]
    delivers. *)
From Stdlib Require Import ZArith Lia Bool.
From stdpp Require Import base numbers list strings sets.
From S2P Require Import Prelude Sh.

(** ** Skipping *)
Lemma skip_while_spec test t n : forall s,
  (s <= skip_while test n t s <= s + n)%nat /\
  (forall i, (s <= i < skip_while test n t s)%nat -> test (nth i t 0) = true) /\
  ((skip_while test n t s < s + n)%nat -> test (nth (skip_while test n t s) t 0) = false).
Proof.
  induction n as [|n IH]; intros s; cbn [skip_while].
  { split; [lia|]. split; [intros; lia|lia]. }
  destruct (test (nth s t 0)) eqn:E; [|split; [lia|]; split; [intros; lia|done]].
  destruct (IH (S s)) as (H1 & H2 & H3). split; [lia|]. split.
  - intros i Hi. destruct (decide (i = s)) as [->|]; [done|]. apply H2. lia.
  - intros Hlt. apply H3. lia.
Qed.

Lemma skip_spec test t es s : (s <= es)%nat ->
  (s <= skip test t es s <= es)%nat /\
  (forall i, (s <= i < skip test t es s)%nat -> test (nth i t 0) = true) /\
  ((skip test t es s < es)%nat -> test (nth (skip test t es s) t 0) = false).
Proof.
  intros Hs. unfold skip. destruct (skip_while_spec test t (es - s) s) as (H1 & H2 & H3).
  split; [lia|]. split; [done|]. intros Hlt. apply H3. lia.
Qed.

Section Props.
Context (line : list Z) (avail : nat).
Context (nonzero : Forall (fun c => c <> 0) line).

Abbreviation es := (length line).
Definition chars : list Z := line ++ [0].

Lemma nth_chars i : (i < es)%nat -> nth i chars 0 <> 0.
Proof.
  intros Hi. unfold chars. rewrite app_nth1 by done. rewrite Forall_forall in nonzero. apply nonzero.
  apply list_elem_of_In, nth_In, Hi.
Qed.
Lemma nth_end : nth es chars 0 = 0.
Proof. unfold chars. rewrite app_nth2 by lia. by rewrite Nat.sub_diag. Qed.

(** A word of the line: the indices [q] up to [e]. *)
Record word_at (q e : nat) : Prop := {
  w_order : (q < e <= es)%nat;
  w_plain : forall i, (q <= i < e)%nat -> plain (nth i chars 0) = true;
  w_end : (e < es)%nat -> plain (nth e chars 0) = false;
}.

(** The first [argc] entries are words, the others null. *)
Record args_ok (argc : nat) (argv eargv : list (option nat)) : Prop := {
  a_len : length argv = MAXARGS /\ length eargv = MAXARGS;
  a_max : (argc < MAXARGS)%nat;
  a_words : forall i, (i < argc)%nat -> exists q e, argv !! i = Some (Some q) /\ eargv !! i = Some (Some e) /\ word_at q e;
  a_rest : forall i, (argc <= i < MAXARGS)%nat -> argv !! i = Some None;
}.

(** A node refers to older nodes only. *)
Definition node_ok (i : nat) (n : node) : Prop :=
  match n with
  | Exec argv eargv => exists argc, args_ok argc argv eargv
  | Redir sub file efile mode fd =>
      (sub < i)%nat /\ word_at file efile /\
      (fd = 0 /\ mode = O_RDONLY \/ fd = 1 /\ mode = Z.lor O_WRONLY O_CREATE)
  | Pipe l r => (l < i)%nat /\ (r < i)%nat
  | List l r => (l < i)%nat /\ (r < i)%nat
  | Back sub => (sub < i)%nat
  end.
Definition heap_ok (h : list node) : Prop := forall i n, h !! i = Some n -> node_ok i n.

Record sh_ok (s : shell) : Prop := {
  so_text : text s = chars;
  so_ps : (ps s <= es)%nat;
  so_heap : heap_ok (heap s);
}.

(** From [s] to [s']: the pointer moves on, and at most [2 * distance + k]
    nodes are made. *)
Record went (k : nat) (s s' : shell) : Prop := {
  g_ok : sh_ok s';
  g_ps : (ps s <= ps s')%nat;
  g_heap : (length (heap s) <= length (heap s') <= length (heap s) + 2 * (ps s' - ps s) + k)%nat;
}.
(** There is memory for what may still come. *)
Definition room (k : nat) (s : shell) : Prop := (length (heap s) + 2 * (es - ps s) + k <= avail)%nat.

(** The parser returns with [Q], or stops with a message. *)
Definition wps {A} (m : SH A) (Q : A -> shell -> Prop) (s : shell) : Prop := wpx m Q (fun _ _ => True) s.

Lemma wps_bind {A B} (m : SH A) (k : A -> SH B) Q s : wps m (fun a s' => wps (k a) Q s') s -> wps (bind m k) Q s.
Proof. apply wpx_bind. Qed.
Lemma wps_ret {A} (a : A) (Q : A -> shell -> Prop) s : Q a s -> wps (ret a) Q s.
Proof. exact id. Qed.
Lemma wps_mono {A} (m : SH A) (Q Q' : A -> shell -> Prop) s :
  wps m Q s -> (forall a s', Q a s' -> Q' a s') -> wps m Q' s.
Proof. intros H HQ. eapply wpx_mono; [exact H|exact HQ|done]. Qed.
Lemma wps_panic {A} w (Q : A -> shell -> Prop) s : wps (panic w) Q s.
Proof. done. Qed.

(** ** Tokens *)
Record moved (s s' : shell) : Prop := {
  m_text : text s' = text s;
  m_heap : heap s' = heap s;
  m_ps : (ps s <= ps s' <= es)%nat;
}.

Lemma white_end s : (ps s <= es)%nat -> text s = chars ->
  let q := skip white (text s) es (ps s) in (ps s <= q <= es)%nat /\ (nth q chars 0 = 0 <-> q = es).
Proof.
  intros Hp Ht q. destruct (skip_spec white (text s) es (ps s) Hp) as (H1 & _ & _). fold q in H1. split; [done|].
  split; [|intros ->; apply nth_end]. intros Hz. destruct (decide (q = es)); [done|]. exfalso. eapply nth_chars; [|exact Hz]. lia.
Qed.

(** The next character is a token of its own. *)
Definition stands (s : shell) : Prop := (ps s < es)%nat /\ white (nth (ps s) chars 0) = false.

Lemma strchr_black toks c : forallb (fun x => negb (white x)) toks = true -> strchr toks c = true -> white c = false.
Proof.
  induction toks as [|x toks IH]; [done|]. cbn [forallb strchr]. intros [Hx Ht]%andb_prop.
  destruct (Z.eqb_spec x c) as [->|]; [intros _; by apply negb_true_iff|by apply IH].
Qed.

Lemma wps_peek toks (Q : bool -> shell -> Prop) s : forallb (fun x => negb (white x)) toks = true -> sh_ok s ->
  (forall b s', sh_ok s' -> moved s s' -> (b = true -> stands s') -> Q b s') -> wps (peek es toks) Q s.
Proof.
  intros Hw [Ht Hp Hh] HQ. unfold peek. apply wps_bind. apply (wps_ret s). apply wps_bind.
  destruct (white_end s Hp Ht) as [H1 H2]. apply HQ.
  - constructor; cbn; [done|lia|done].
  - constructor; cbn; [done|done|lia].
  - intros Hb. apply andb_prop in Hb as [Hb Hc]. unfold stands. cbn [ps set_ps]. rewrite Ht in *.
    apply negb_true_iff, Z.eqb_neq in Hb. split; [|by eapply strchr_black].
    destruct (decide (skip white chars es (ps s) = es)) as [E|]; [|lia]. exfalso. by apply Hb, H2.
Qed.

Lemma strchr_false l c : strchr l c = false <-> c ∉ l.
Proof.
  induction l as [|x l IH]; cbn [strchr]; [split; [by intros _ ?%not_elem_of_nil|done]|].
  rewrite not_elem_of_cons, <- IH. destruct (Z.eqb_spec x c) as [->|Hn]; [split; [done|tauto]|].
  split; [intros H; split; [by intros ->|done]|tauto].
Qed.

(** A word token starts with a plain character. *)
Lemma token_at_spec q : (q <= es)%nat -> ((q < es)%nat -> white (nth q chars 0) = false) ->
  let (r, e) := token_at es chars q in
  (q <= e <= es)%nat /\ ((q < es)%nat -> (q < e)%nat) /\ (r <> 0 -> (q < e)%nat) /\ (r = LETTER_A -> word_at q e).
Proof.
  intros Hq Hw. unfold token_at. set (c := nth q chars 0) in *.
  destruct (Z.eqb_spec c 0) as [Hc|Hc].
  { split; [lia|]. split; [intros Hlt; by apply nth_chars in Hlt|]. split; [done|by rewrite Hc]. }
  assert (q < es)%nat as Hlt.
  { destruct (decide (q = es)) as [E|]; [|lia]. exfalso. apply Hc. unfold c. rewrite E. apply nth_end. }
  specialize (Hw Hlt).
  destruct ((c =? BAR) || (c =? LPAREN) || (c =? RPAREN) || (c =? SEMI) || (c =? AMP) || (c =? LESS)) eqn:Esym.
  { split_and!; try lia. intros E. rewrite E in Esym. done. }
  destruct (Z.eqb_spec c GREATER) as [Eg|Hg].
  - destruct (Z.eqb_spec (nth (S q) chars 0) GREATER) as [E2|_].
    + split_and!; try lia; try done. destruct (decide (S q = es)) as [E|]; [|lia]. rewrite E, nth_end in E2. done.
    + split_and!; try lia. by rewrite Eg.
  - destruct (skip_spec plain chars es q Hq) as (H1 & H2 & H3). fold c in H2, H3.
    assert (plain c = true) as Hplain.
    { unfold plain. unfold white in Hw. rewrite Hw. cbn [negb andb]. apply negb_true_iff, strchr_false.
      unfold symbols. repeat (apply orb_false_elim in Esym as [Esym ?]).
      repeat match goal with H : (_ =? _) = false |- _ => apply Z.eqb_neq in H end.
      unfold BAR, LPAREN, RPAREN, SEMI, AMP, LESS, GREATER in *. set_solver. }
    assert (q < skip plain chars es q)%nat as Hgt.
    { destruct (decide (skip plain chars es q = q)) as [E|]; [|lia]. rewrite E in H3. fold c in H3.
      rewrite H3 in Hplain; [done|lia]. }
    split_and!; try lia. intros _. constructor; [lia|done|done].
Qed.

Record token (s s' : shell) (r : Z) (q e : nat) : Prop := {
  k_order : (ps s <= q <= e)%nat /\ (e <= ps s')%nat;
  k_stands : stands s -> (ps s < ps s')%nat;
  k_some : r <> 0 -> (q < e)%nat;
  k_word : r = LETTER_A -> word_at q e;
}.

Lemma wps_gettoken (Q : Z * nat * nat -> shell -> Prop) s : sh_ok s ->
  (forall r q e s', sh_ok s' -> moved s s' -> token s s' r q e -> Q (r, q, e) s') -> wps (gettoken es) Q s.
Proof.
  intros [Ht Hp Hh] HQ. unfold gettoken. apply wps_bind, (wps_ret s).
  destruct (skip_spec white (text s) es (ps s) Hp) as (H1 & H2 & H3). rewrite Ht in *.
  set (q := skip white chars es (ps s)) in *. pose proof (token_at_spec q ltac:(lia) H3) as Hk.
  destruct (token_at es chars q) as [r e]. destruct Hk as (K1 & K2 & K3 & K4).
  destruct (skip_spec white chars es e ltac:(lia)) as (W1 & _ & _). apply wps_bind. apply HQ.
  - constructor; cbn; [done|lia|done].
  - constructor; cbn; [done|done|lia].
  - constructor; cbn [ps set_ps]; [lia| |done|done]. intros [S1 S2].
    assert (q = ps s) as Eq; [|lia]. destruct (decide (q = ps s)); [done|]. exfalso.
    assert (white (nth (ps s) chars 0) = true) as Hc by (apply H2; lia). congruence.
Qed.

(** ** Nodes *)
Lemma heap_ok_snoc h n : heap_ok h -> node_ok (length h) n -> heap_ok (h ++ [n]).
Proof.
  intros Hh Hn i m Hi. apply lookup_app_Some in Hi as [Hi|[Hge Hi]]; [by apply Hh|].
  apply list_lookup_singleton_Some in Hi as [Hi <-]. by replace i with (length h) by lia.
Qed.
Lemma heap_ok_insert h i n : heap_ok h -> node_ok i n -> heap_ok (<[i := n]> h).
Proof.
  intros Hh Hn j m Hj. apply list_lookup_insert_Some in Hj as [(-> & <- & _)|[_ Hj]]; [done|by apply Hh].
Qed.

Lemma wps_malloc n (Q : nat -> shell -> Prop) s : sh_ok s -> (length (heap s) < avail)%nat -> node_ok (length (heap s)) n ->
  (forall s', sh_ok s' -> ps s' = ps s -> heap s' = heap s ++ [n] -> Q (length (heap s)) s') -> wps (malloc avail n) Q s.
Proof.
  intros [Ht Hp Hh] Hroom Hn HQ. unfold malloc. apply wps_bind, (wps_ret (heap s)).
  rewrite (proj2 (Nat.ltb_lt _ _) Hroom). apply wps_bind. apply HQ; [|done|done].
  constructor; [done|done|]. by apply heap_ok_snoc.
Qed.

(** The heap only grew, by a node per character at most. *)
Record extends (s s' : shell) : Prop := {
  x_ok : sh_ok s';
  x_ps : (ps s <= ps s')%nat;
  x_heap : heap s `prefix_of` heap s';
  x_len : (length (heap s') <= length (heap s) + (ps s' - ps s))%nat;
}.
Lemma extends_moved s s' : sh_ok s' -> moved s s' -> extends s s'.
Proof. intros Hok [H1 H2 H3]. constructor; [done|lia|by rewrite H2|rewrite H2; lia]. Qed.
Lemma extends_trans s1 s2 s3 : extends s1 s2 -> extends s2 s3 -> extends s1 s3.
Proof. intros [A1 A2 A3 A4] [B1 B2 B3 B4]. constructor; [done|lia|by etrans|lia]. Qed.
Lemma extends_len s s' : extends s s' -> (length (heap s) <= length (heap s'))%nat.
Proof. intros [_ _ H _]. by apply prefix_length. Qed.

Lemma wps_redirs n : forall cmd s (Q : nat -> shell -> Prop), sh_ok s -> (es - ps s < n)%nat -> (cmd < length (heap s))%nat ->
  (length (heap s) + (es - ps s) <= avail)%nat ->
  (forall r s', extends s s' -> (r < length (heap s'))%nat -> Q r s') -> wps (parseredirs_loop es avail n cmd) Q s.
Proof.
  induction n as [|n IH]; intros cmd s Q Hok Hn Hcmd Hroom HQ; [lia|]. cbn [parseredirs_loop].
  apply wps_bind, wps_peek; [done|done|]. intros b s1 Hok1 Hm1 Hst. pose proof (extends_moved _ _ Hok1 Hm1) as Hx1.
  destruct Hm1 as [Ht1 Hh1 Hp1]. destruct b; cbn [negb]; [|apply HQ; [done|by rewrite Hh1]].
  specialize (Hst eq_refl). apply wps_bind, wps_gettoken; [done|]. intros tok q1 e1 s2 Hok2 Hm2 Hk2.
  pose proof (extends_moved _ _ Hok2 Hm2) as Hx2. destruct Hm2 as [Ht2 Hh2 Hp2]. pose proof (k_stands _ _ _ _ _ Hk2 Hst) as Hadv.
  apply wps_bind, wps_gettoken; [done|]. intros r q e s3 Hok3 Hm3 Hk3.
  pose proof (extends_moved _ _ Hok3 Hm3) as Hx3. destruct Hm3 as [Ht3 Hh3 Hp3].
  destruct (Z.eqb_spec r LETTER_A) as [Hr|_]; cbn [negb]; [|apply wps_panic].
  pose proof (k_word _ _ _ _ _ Hk3 Hr) as Hword.
  pose proof (extends_trans _ _ _ Hx1 (extends_trans _ _ _ Hx2 Hx3)) as Hx.
  assert (forall c' s4, extends s3 s4 \/ (ps s4 = ps s3 /\ sh_ok s4 /\ exists nd, heap s4 = heap s3 ++ [nd]) -> (c' < length (heap s4))%nat ->
    wps (parseredirs_loop es avail n c') Q s4) as Hgo.
  { intros c' s4 Hx4 Hc'. assert (extends s s4) as Hx'.
    { destruct Hx4 as [Hx4|(Hps & Hok4 & nd & Hh4)]; [by eapply extends_trans|].
      destruct Hx as [A1 A2 A3 A4]. constructor; [done|lia| |rewrite Hh4, length_app; cbn; rewrite Hh3, Hh2, Hh1 in *; lia].
      rewrite Hh4. by apply prefix_app_r. }
    assert (ps s3 <= ps s4)%nat as Hps4 by (destruct Hx4 as [Hx4|(Hps & _)]; [apply Hx4|lia]).
    pose proof (x_len _ _ Hx'). pose proof (so_ps _ (x_ok _ _ Hx')). pose proof (x_ps _ _ Hx').
    apply IH; [apply Hx'|lia|done|lia|]. intros r' s5 Hx5 Hr'. apply HQ; [by eapply extends_trans|done]. }
  assert (forall mode fd, fd = 0 /\ mode = O_RDONLY \/ fd = 1 /\ mode = Z.lor O_WRONLY O_CREATE ->
    wps (redircmd avail cmd q e mode fd) (fun c' s4 => wps (parseredirs_loop es avail n c') Q s4) s3) as Hred.
  { intros mode fd Hfd. apply wps_malloc; [done|rewrite Hh3, Hh2, Hh1; lia|rewrite Hh3, Hh2, Hh1; by split|].
    intros s4 Hok4 Hps4 Hh4. apply Hgo; [right; by eauto|]. rewrite Hh4, length_app. cbn. lia. }
  apply wps_bind. destruct (tok =? LESS); [apply Hred; by left|]. destruct (tok =? GREATER); [apply Hred; by right|].
  destruct (tok =? PLUS); [apply Hred; by right|]. apply wps_ret, Hgo; [left; by apply extends_moved; [|constructor; [..|split; [|apply Hok3]]]|].
  by rewrite Hh3, Hh2, Hh1.
Qed.

(** ** Arguments *)
Lemma args_none : args_ok 0 (replicate MAXARGS None) (replicate MAXARGS None).
Proof.
  constructor; [by rewrite length_replicate|unfold MAXARGS; lia|intros; lia|]. intros i Hi. apply lookup_replicate. split; [done|lia].
Qed.
Lemma args_add argc argv eargv q e : args_ok argc argv eargv -> word_at q e -> (S argc < MAXARGS)%nat ->
  args_ok (S argc) (<[argc := Some q]> argv) (<[argc := Some e]> eargv).
Proof.
  intros [[L1 L2] H2 H3 H4] Hw Hlt. constructor; [by rewrite !length_insert|done| |].
  - intros i Hi. destruct (decide (i = argc)) as [->|Hne].
    + exists q, e. rewrite !list_lookup_insert_eq by lia. done.
    + rewrite !list_lookup_insert_ne by done. apply H3. lia.
  - intros i Hi. rewrite list_lookup_insert_ne by lia. apply H4. lia.
Qed.
Lemma args_end argc argv eargv : args_ok argc argv eargv ->
  args_ok argc (<[argc := None]> argv) (<[argc := None]> eargv).
Proof.
  intros [[L1 L2] H2 H3 H4]. constructor; [by rewrite !length_insert|done| |].
  - intros i Hi. rewrite !list_lookup_insert_ne by lia. by apply H3.
  - intros i Hi. destruct (decide (i = argc)) as [->|Hne]; [by rewrite list_lookup_insert_eq by lia|].
    rewrite list_lookup_insert_ne by done. by apply H4.
Qed.

Lemma wps_set_arg cmd i q e argv eargv (Q : unit -> shell -> Prop) s : heap s !! cmd = Some (Exec argv eargv) ->
  Q tt (set_heap (<[cmd := Exec (<[i := q]> argv) (<[i := e]> eargv)]> (heap s)) s) -> wps (set_arg cmd i q e) Q s.
Proof. intros Hh HQ. unfold set_arg. apply wps_bind, (wps_ret (heap s)). by rewrite Hh. Qed.

Lemma sh_ok_args s cmd argc argv eargv : sh_ok s -> args_ok argc argv eargv ->
  sh_ok (set_heap (<[cmd := Exec argv eargv]> (heap s)) s).
Proof. intros [H1 H2 H3] Ha. constructor; [done|done|]. apply heap_ok_insert; [done|by exists argc]. Qed.

Lemma went_extends k s s' : extends s s' -> went k s s'.
Proof. intros Hx. pose proof (extends_len _ _ Hx). destruct Hx. constructor; [done|done|lia]. Qed.

(** [went 0] with a node per character, and node [cmd] filled in. *)
Definition grew (s s' : shell) : Prop :=
  sh_ok s' /\ (ps s <= ps s')%nat /\ (length (heap s) <= length (heap s') <= length (heap s) + (ps s' - ps s))%nat.

Lemma wps_args_end cmd argc argv eargv r s0 s (Q : nat -> shell -> Prop) : sh_ok s -> moved s0 s ->
  heap s0 !! cmd = Some (Exec argv eargv) -> args_ok argc argv eargv -> (r < length (heap s0))%nat ->
  (forall r s', grew s0 s' -> (r < length (heap s'))%nat -> Q r s') ->
  wps (set_arg cmd argc None None ;;; ret r) Q s.
Proof.
  intros Hok [Ht Hh Hp] Hcmd Ha Hr HQ. apply wps_bind. eapply wps_set_arg; [by rewrite Hh|].
  apply HQ; [|cbn; by rewrite length_insert, Hh].
  split; [by eapply sh_ok_args, args_end|]. cbn. rewrite length_insert, Hh. lia.
Qed.

Lemma wps_parseargs n : forall cmd argc r argv eargv s (Q : nat -> shell -> Prop), sh_ok s -> (es - ps s < n)%nat ->
  heap s !! cmd = Some (Exec argv eargv) -> args_ok argc argv eargv -> (r < length (heap s))%nat ->
  (length (heap s) + (es - ps s) <= avail)%nat ->
  (forall r s', grew s s' -> (r < length (heap s'))%nat -> Q r s') -> wps (parseargs es avail n cmd argc r) Q s.
Proof.
  induction n as [|n IH]; intros cmd argc r argv eargv s Q Hok Hn Hcmd Ha Hr Hroom HQ; [lia|]. cbn [parseargs].
  apply wps_bind, wps_peek; [done|done|]. intros b s1 Hok1 Hm1 _. destruct b; [by eapply wps_args_end|].
  apply wps_bind, wps_gettoken; [done|]. intros tok q e s2 Hok2 Hm2 Hk.
  assert (moved s s2) as Hm.
  { destruct Hm1, Hm2. constructor; [congruence|congruence|lia]. }
  destruct (Z.eqb_spec tok 0) as [_|Htok]; [by eapply wps_args_end|].
  destruct (Z.eqb_spec tok LETTER_A) as [Hw|_]; cbn [negb]; [|apply wps_panic].
  pose proof (k_word _ _ _ _ _ Hk Hw) as Hword. pose proof (k_some _ _ _ _ _ Hk Htok) as Hsome.
  pose proof (k_order _ _ _ _ _ Hk) as Hord. destruct Hm1 as [_ _ Hp1], Hm as [Ht Hh Hp].
  apply wps_bind. eapply wps_set_arg; [by rewrite Hh|]. rewrite Hh.
  destruct (Nat.leb_spec MAXARGS (S argc)) as [_|Hlt]; [apply wps_panic|].
  set (s3 := set_heap _ s2). pose proof (args_add _ _ _ _ _ Ha Hword Hlt) as Ha3.
  assert (sh_ok s3) as Hok3 by (unfold s3; rewrite <- Hh; by eapply sh_ok_args).
  assert (length (heap s3) = length (heap s)) as Hl3 by (cbn; by rewrite length_insert).
  assert (ps s3 = ps s2) as Hp3 by done.
  apply wps_bind, wps_redirs; [done|lia|lia|lia|]. intros r4 s4 Hx4 Hr4.
  pose proof (extends_len _ _ Hx4) as Hl4. destruct Hx4 as [X1 X2 X3 X4].
  eapply IH; [done| | |exact Ha3|done| |].
  - lia.
  - eapply prefix_lookup_Some; [|exact X3]. cbn. apply list_lookup_insert_eq. by eapply lookup_lt_Some.
  - pose proof (so_ps _ X1). lia.
  - intros r' s' (G1 & G2 & G3) Hr'. apply HQ; [|done]. split; [done|]. lia.
Qed.

(** ** Commands *)
Definition parses (n : nat) (m : SH nat) : Prop := forall s (Q : nat -> shell -> Prop),
  sh_ok s -> (es - ps s < n)%nat -> room 1 s ->
  (forall r s', went 1 s s' -> (r < length (heap s'))%nat -> Q r s') -> wps m Q s.

Lemma went_moved k s s' s'' : moved s s' -> went k s' s'' -> went k s s''.
Proof. intros [_ H1 H2] [H3 H4 H5]. rewrite H1 in H5. constructor; [done|lia|lia]. Qed.

(** A loop or a call that goes on from a later state. *)
Ltac track := repeat match goal with
  | H : moved _ _ |- _ => destruct H as [?Htx ?Hhp ?Hpm]
  | H : went _ _ _ |- _ => let E := fresh "Hend" in pose proof (so_ps _ (g_ok _ _ _ H)) as E; destruct H as [?Hwo ?Hwp ?Hwh]
  | H : extends _ _ |- _ =>
      let E := fresh "Hend" in let L := fresh "Hlen" in
      pose proof (so_ps _ (x_ok _ _ H)) as E; pose proof (extends_len _ _ H) as L; destruct H as [?Hxo ?Hxp ?Hxh ?Hxl]
  | H : grew _ _ |- _ => let E := fresh "Hend" in destruct H as (?Hgo & ?Hgp & ?Hgl); pose proof (so_ps _ Hgo) as E
  end; unfold room in *.
Ltac tlia := track; repeat match goal with H : heap _ = heap _ |- _ => rewrite ?H in *; clear H end; lia.

Lemma parses_block n line0 : parses n line0 -> parses (S n) (parseblock es avail line0).
Proof.
  intros Hline s Q Hok Hn Hroom HQ. unfold parseblock.
  apply wps_bind, wps_peek; [done|done|]. intros b s1 Hok1 Hm1 Hst. destruct b; cbn [negb]; [|apply wps_panic].
  specialize (Hst eq_refl). apply wps_bind, wps_gettoken; [done|]. intros r q e s2 Hok2 Hm2 Hk2.
  pose proof (k_stands _ _ _ _ _ Hk2 Hst) as Hadv. clear Hk2. destruct Hst as [Hst _].
  apply wps_bind, Hline; [done|tlia|tlia|]. intros cmd s3 Hw3 Hcmd. pose proof (g_ok _ _ _ Hw3) as Hok3.
  apply wps_bind, wps_peek; [done|done|]. intros b s4 Hok4 Hm4 _. destruct b; cbn [negb]; [|apply wps_panic].
  apply wps_bind, wps_gettoken; [done|]. intros r' q' e' s5 Hok5 Hm5 _.
  apply wps_redirs; [done|lia|tlia|tlia|]. intros r6 s6 Hx6 Hr6. apply HQ; [|done].
  constructor; [apply Hx6|tlia|tlia].
Qed.

Lemma parses_exec n line0 : parses n line0 -> parses (S n) (parseexec es avail line0).
Proof.
  intros Hline s Q Hok Hn Hroom HQ. unfold parseexec.
  apply wps_bind, wps_peek; [done|done|]. intros b s1 Hok1 Hm1 _. destruct b.
  - apply (parses_block n line0 Hline); [done|tlia|tlia|]. intros r s2 Hw Hr. apply HQ; [by eapply went_moved|done].
  - apply wps_bind, wps_malloc; [done|tlia|exists 0%nat; apply args_none|]. intros s2 Hok2 Hp2 Hh2.
    assert (length (heap s2) = S (length (heap s))) as Hl2.
    { rewrite Hh2, length_app. destruct Hm1 as [_ -> _]. cbn. lia. }
    assert (heap s2 !! length (heap s1) = Some (Exec (replicate MAXARGS None) (replicate MAXARGS None))) as Hnode.
    { rewrite Hh2. by apply list_lookup_middle. }
    pose proof (lookup_lt_Some _ _ _ Hnode) as Hlt. clear Hh2.
    apply wps_bind, wps_redirs; [done|lia|done|tlia|]. intros r s3 Hx3 Hr3.
    pose proof (prefix_lookup_Some _ _ _ _ Hnode (x_heap _ _ Hx3)) as Hnode3.
    eapply wps_parseargs; [apply Hx3|lia|exact Hnode3|apply args_none|done|tlia|].
    intros r' s4 Hg Hr'. apply HQ; [|done]. constructor; [apply Hg|tlia|tlia].
Qed.

Lemma parses_pipe n line0 : parses n line0 -> forall m s (Q : nat -> shell -> Prop), sh_ok s -> (es - ps s < S n)%nat ->
  (es - ps s < m)%nat -> room 1 s ->
  (forall r s', went 1 s s' -> (r < length (heap s'))%nat -> Q r s') -> wps (parsepipe es avail m line0) Q s.
Proof.
  intros Hline. induction m as [|m IH]; intros s Q Hok Hn Hm Hroom HQ; [lia|]. cbn [parsepipe].
  apply wps_bind, (parses_exec n line0 Hline); [done|lia|done|]. intros cmd s1 Hw1 Hcmd. pose proof (g_ok _ _ _ Hw1) as Hok1.
  apply wps_bind, wps_peek; [done|done|]. intros b s2 Hok2 Hm2 Hst. destruct b; cbn [negb].
  - specialize (Hst eq_refl). apply wps_bind, wps_gettoken; [done|]. intros r q e s3 Hok3 Hm3 Hk3.
    pose proof (k_stands _ _ _ _ _ Hk3 Hst) as Hadv. clear Hk3. destruct Hst as [Hst _].
    apply wps_bind, IH; [done|tlia|tlia|tlia|]. intros r4 s4 Hw4 Hr4. pose proof (g_ok _ _ _ Hw4) as Hok4.
    apply wps_malloc; [done|tlia|split; [tlia|done]|]. intros s5 Hok5 Hp5 Hh5.
    assert (length (heap s5) = S (length (heap s4))) as Hl5 by (rewrite Hh5, length_app; cbn; lia). clear Hh5.
    apply HQ; [|lia]. constructor; [done|tlia|tlia].
  - apply wps_ret, HQ; [|tlia]. constructor; [done|tlia|tlia].
Qed.

Lemma wps_parseback m : forall cmd s (Q : nat -> shell -> Prop), sh_ok s -> (es - ps s < m)%nat ->
  (cmd < length (heap s))%nat -> room 0 s ->
  (forall r s', went 0 s s' -> (r < length (heap s'))%nat -> Q r s') -> wps (parseback es avail m cmd) Q s.
Proof.
  induction m as [|m IH]; intros cmd s Q Hok Hn Hcmd Hroom HQ; [lia|]. cbn [parseback].
  apply wps_bind, wps_peek; [done|done|]. intros b s1 Hok1 Hm1 Hst. destruct b; cbn [negb].
  - specialize (Hst eq_refl). apply wps_bind, wps_gettoken; [done|]. intros r q e s2 Hok2 Hm2 Hk2.
    pose proof (k_stands _ _ _ _ _ Hk2 Hst) as Hadv. clear Hk2. destruct Hst as [Hst _].
    apply wps_bind, wps_malloc; [done|tlia|simpl; tlia|]. intros s3 Hok3 Hp3 Hh3.
    assert (length (heap s3) = S (length (heap s2))) as Hl3 by (rewrite Hh3, length_app; cbn; lia). clear Hh3.
    apply IH; [done|tlia|lia|tlia|]. intros r' s' Hw Hr'. apply HQ; [|done]. constructor; [apply Hw|tlia|tlia].
  - apply wps_ret, HQ; [|tlia]. constructor; [done|tlia|tlia].
Qed.

Lemma parses_line n : parses n (parseline es avail n).
Proof.
  induction n as [|n IH]; intros s Q Hok Hn Hroom HQ; [lia|]. cbn [parseline].
  apply wps_bind, (parses_pipe n _ IH); [done|done|lia|done|]. intros cmd s1 Hw1 Hcmd. pose proof (g_ok _ _ _ Hw1) as Hok1.
  apply wps_bind, wps_parseback; [done|lia|done|tlia|]. intros cmd2 s2 Hw2 Hcmd2. pose proof (g_ok _ _ _ Hw2) as Hok2.
  apply wps_bind, wps_peek; [done|done|]. intros b s3 Hok3 Hm3 Hst. destruct b; cbn [negb].
  - specialize (Hst eq_refl). apply wps_bind, wps_gettoken; [done|]. intros r q e s4 Hok4 Hm4 Hk4.
    pose proof (k_stands _ _ _ _ _ Hk4 Hst) as Hadv. clear Hk4. destruct Hst as [Hst _].
    apply wps_bind, IH; [done|tlia|tlia|]. intros r5 s5 Hw5 Hr5. pose proof (g_ok _ _ _ Hw5) as Hok5.
    apply wps_malloc; [done|tlia|split; [tlia|done]|]. intros s6 Hok6 Hp6 Hh6.
    assert (length (heap s6) = S (length (heap s5))) as Hl6 by (rewrite Hh6, length_app; cbn; lia). clear Hh6.
    apply HQ; [|lia]. constructor; [done|tlia|tlia].
  - apply wps_ret, HQ; [|tlia]. constructor; [done|tlia|tlia].
Qed.

(** ** Ending the strings *)

(** The word from [q] to [e] is an argument or a file name of command [c]. *)
Inductive string_of (h : list node) : nat -> nat -> nat -> Prop :=
| str_arg c argv eargv i q e : h !! c = Some (Exec argv eargv) -> argv !! i = Some (Some q) -> eargv !! i = Some (Some e) ->
    string_of h c q e
| str_file c sub file efile mode fd : h !! c = Some (Redir sub file efile mode fd) -> string_of h c file efile
| str_redir c sub file efile mode fd q e : h !! c = Some (Redir sub file efile mode fd) -> string_of h sub q e ->
    string_of h c q e
| str_pipe_l c l r q e : h !! c = Some (Pipe l r) -> string_of h l q e -> string_of h c q e
| str_pipe_r c l r q e : h !! c = Some (Pipe l r) -> string_of h r q e -> string_of h c q e
| str_list_l c l r q e : h !! c = Some (List l r) -> string_of h l q e -> string_of h c q e
| str_list_r c l r q e : h !! c = Some (List l r) -> string_of h r q e -> string_of h c q e
| str_back c sub q e : h !! c = Some (Back sub) -> string_of h sub q e -> string_of h c q e.

(** The line with zeroes in places where no word is. *)
Record zeroed (t : list Z) : Prop := {
  z_len : length t = S es;
  z_nth : forall i, nth i t 0 = nth i chars 0 \/ (nth i t 0 = 0 /\ ((i < es)%nat -> plain (nth i chars 0) = false));
}.
(** What a round of [nulterminate] does. *)
Record ended (h : list node) (s s' : shell) : Prop := {
  n_heap : heap s = h /\ heap s' = h;
  n_zeroed : zeroed (text s');
  n_mono : forall i, nth i (text s) 0 = 0 -> nth i (text s') 0 = 0;
}.

Lemma ended_refl h s : heap s = h -> zeroed (text s) -> ended h s s.
Proof. intros H1 H2. by constructor. Qed.
Lemma ended_trans h s1 s2 s3 : ended h s1 s2 -> ended h s2 s3 -> ended h s1 s3.
Proof. intros [[A1 A2] A3 A4] [[B1 B2] B3 B4]. constructor; [done|done|auto]. Qed.

Lemma wp_put_nul h q e s (Q : unit -> shell -> Prop) : heap s = h -> zeroed (text s) -> word_at q e ->
  (forall s', ended h s s' -> nth e (text s') 0 = 0 -> Q tt s') -> wp (Sh.put_nul e) Q s.
Proof.
  intros Hh [Z1 Z2] [W1 W2 W3] HQ. apply wp_modify.
  assert (forall i, nth i (<[e := 0]> (text s)) 0 = if decide (i = e) then 0 else nth i (text s) 0) as Hn.
  { intros i. rewrite !nth_lookup. destruct (decide (i = e)) as [->|Hne].
    - by rewrite list_lookup_insert_eq by lia.
    - by rewrite list_lookup_insert_ne. }
  apply HQ; [|cbn; rewrite Hn; by rewrite decide_True]. constructor; [done| |].
  - constructor; cbn [text set_text]; [by rewrite length_insert|]. intros i. rewrite Hn.
    destruct (decide (i = e)) as [->|]; [right; by split|apply Z2].
  - intros i Hi. cbn [text set_text]. rewrite Hn. by destruct (decide (i = e)).
Qed.

Lemma wp_nul_args h argc argv : forall eargv s (Q : unit -> shell -> Prop), heap s = h -> zeroed (text s) ->
  (length argv = length eargv) -> (argc < length argv)%nat ->
  (forall i, (i < argc)%nat -> exists q e, argv !! i = Some (Some q) /\ eargv !! i = Some (Some e) /\ word_at q e) ->
  (forall i, (argc <= i < length argv)%nat -> argv !! i = Some None) ->
  (forall s', ended h s s' -> (forall i q e, argv !! i = Some (Some q) -> eargv !! i = Some (Some e) -> nth e (text s') 0 = 0) -> Q tt s') ->
  wp (nul_args argv eargv) Q s.
Proof.
  revert argc. induction argv as [|a argv IH]; intros argc eargv s Q Hh Hz Hl Hargc Hw Hr HQ; [cbn in Hargc; lia|].
  destruct eargv as [|ea eargv]; [done|]. cbn [length] in *. destruct argc as [|argc].
  - pose proof (Hr 0%nat ltac:(lia)) as [= ->]. apply wp_ret, HQ; [by apply ended_refl|].
    intros i q e Hi _. rewrite Hr in Hi; [done|]. apply lookup_lt_Some in Hi. cbn in Hi. lia.
  - destruct (Hw 0%nat) as (q & e & [= ->] & [= ->] & Hword); [lia|]. cbn [nul_args]. wp_step.
    apply (wp_put_nul h q); [done|done|done|]. intros s1 He1 Hz1.
    apply (IH argc); [apply He1|apply He1|lia|lia| | |].
    + intros i Hi. destruct (Hw (S i)) as (q' & e' & H1 & H2 & H3); [lia|]. by exists q', e'.
    + intros i Hi. apply (Hr (S i)). lia.
    + intros s2 He2 Hend. apply HQ; [by eapply ended_trans|]. intros [|i] q' e'; cbn.
      * intros [= <-] [= <-]. by apply He2.
      * by apply Hend.
Qed.

Lemma wp_nulterminate h n : heap_ok h -> forall c s (Q : unit -> shell -> Prop), heap s = h -> zeroed (text s) ->
  (c < n)%nat -> (c < length h)%nat ->
  (forall s', ended h s s' -> (forall q e, string_of h c q e -> nth e (text s') 0 = 0) -> Q tt s') ->
  wp (nulterminate n c) Q s.
Proof.
  intros Hok. induction n as [|n IH]; intros c s Q Hh Hz Hn Hc HQ; [lia|]. cbn [nulterminate]. wp_step. apply wp_gets.
  rewrite Hh. destruct (lookup_lt_is_Some_2 h c Hc) as [nd Hnd]. rewrite Hnd. pose proof (Hok c nd Hnd) as Hno.
  assert (forall l r, (l < c)%nat -> (r < c)%nat ->
    (forall q e, string_of h c q e -> string_of h l q e \/ string_of h r q e) ->
    wp (nulterminate n l ;;; nulterminate n r) Q s) as Htwo.
  { intros l r Hl Hr Hstr. wp_step. apply IH; [done|done|lia|lia|]. intros s1 He1 Hs1.
    apply IH; [apply He1|apply He1|lia|lia|]. intros s2 He2 Hs2. apply HQ; [by eapply ended_trans|].
    intros q e Hqe. destruct (Hstr q e Hqe) as [Hq|Hq]; [apply He2; by eapply Hs1|by eapply Hs2]. }
  destruct nd as [argv eargv|sub file efile mode fd|l r|l r|sub]; cbn [node_ok] in Hno.
  - destruct Hno as (argc & [[L1 L2] H2 H3 H4]). apply (wp_nul_args h argc); [done|done|lia|lia|done|rewrite L1; done|].
    intros s' He Hs. apply HQ; [done|]. intros q e Hqe. inversion Hqe; simplify_eq. by eapply Hs.
  - destruct Hno as (Hsub & Hword & _). wp_step. apply IH; [done|done|lia|lia|]. intros s1 He1 Hs1.
    apply (wp_put_nul h file); [apply He1|apply He1|done|]. intros s2 He2 Hz2. apply HQ; [by eapply ended_trans|].
    intros q e Hqe. inversion Hqe; simplify_eq; [done|]. apply He2. by eapply Hs1.
  - destruct Hno. apply Htwo; [done|done|]. intros q e Hqe. inversion Hqe; simplify_eq; tauto.
  - destruct Hno. apply Htwo; [done|done|]. intros q e Hqe. inversion Hqe; simplify_eq; tauto.
  - apply IH; [done|done|lia|lia|]. intros s' He Hs. apply HQ; [done|]. intros q e Hqe. inversion Hqe; simplify_eq. by eapply Hs.
Qed.

(** ** The parser's result *)

Lemma until_nul_app w r : Forall (fun c => c <> 0) w -> until_nul (w ++ 0 :: r) = w.
Proof.
  induction 1 as [|c w Hc Hw IH]; [done|]. cbn. rewrite (proj2 (Z.eqb_neq c 0) Hc). by rewrite IH.
Qed.

Lemma zeroed_string t q e : zeroed t -> word_at q e -> nth e t 0 = 0 ->
  until_nul (drop q t) = take (e - q) (drop q line).
Proof.
  intros [Z1 Z2] [W1 W2 W3] He.
  assert (drop q t = take (e - q) (drop q line) ++ 0 :: drop (S e) t) as ->.
  { rewrite <- (take_drop (e - q) (drop q t)), drop_drop. replace (q + (e - q))%nat with e by lia.
    assert (t !! e = Some 0) as Hlk.
    { rewrite nth_lookup in He. destruct (lookup_lt_is_Some_2 t e) as [x Hx]; [lia|]. rewrite Hx in He. cbn in He. congruence. }
    rewrite (drop_S _ _ _ Hlk). f_equal. apply list_eq. intros i.
    destruct (decide (i < e - q)%nat) as [Hi|Hi]; [|rewrite !lookup_take_ge by lia; done].
    rewrite !lookup_take_lt, !lookup_drop by done.
    destruct (lookup_lt_is_Some_2 t (q + i)) as [x Hx]; [lia|]. destruct (lookup_lt_is_Some_2 line (q + i)) as [y Hy]; [lia|].
    rewrite Hx, Hy. f_equal. assert (nth (q + i) chars 0 = y) as Hc.
    { unfold chars. rewrite app_nth1 by lia. by rewrite nth_lookup, Hy. }
    destruct (Z2 (q + i)%nat) as [E|[_ E]].
    - rewrite nth_lookup, Hx in E. cbn in E. congruence.
    - rewrite W2 in E by lia. exfalso. specialize (E ltac:(lia)). done. }
  apply until_nul_app. apply Forall_take, Forall_drop. exact nonzero.
Qed.

Lemma string_word h c q e : heap_ok h -> string_of h c q e -> word_at q e.
Proof.
  intros Hok. induction 1 as [c argv eargv i q e Hc Hq He|c sub file efile mode fd Hc| | | | | |]; try done.
  - destruct (Hok _ _ Hc) as (argc & [_ H2 H3 H4]). destruct (decide (i < argc)%nat) as [Hi|Hi].
    + destruct (H3 i Hi) as (q' & e' & E1 & E2 & Hw). by simplify_eq.
    + rewrite H4 in Hq; [done|]. apply lookup_lt_Some in Hq.
      destruct (Hok _ _ Hc) as (argc' & [[L1 _] _ _ _]). lia.
  - by destruct (Hok _ _ Hc) as (_ & ? & _).
Qed.

Lemma chars_zeroed : zeroed chars.
Proof. constructor; [unfold chars; rewrite length_app; cbn; lia|by left]. Qed.

(** What [parsecmd] delivers. *)
Record parsed (c : nat) (s : shell) : Prop := {
  p_cmd : (c < length (heap s))%nat;
  p_heap : heap_ok (heap s);
  p_text : zeroed (text s);
  p_strings : forall q e, string_of (heap s) c q e ->
    word_at q e /\ until_nul (drop q (text s)) = take (e - q) (drop q line);
}.

Lemma wps_parse_body : (2 * es + 1 <= avail)%nat ->
  wps (parse_body es avail) parsed (mk_shell 0 chars []).
Proof.
  intros Hav. assert (sh_ok (mk_shell 0 chars [])) as Hok.
  { constructor; cbn; [done|lia|]. by intros i n Hi. }
  unfold parse_body. apply wps_bind, parses_line; [done|cbn; lia|unfold room; cbn; lia|]. intros cmd s1 Hw1 Hcmd.
  apply wps_bind, wps_peek; [done|apply Hw1|]. intros b s2 Hok2 Hm2 _.
  apply wps_bind, (wps_ret (ps s2)). destruct (Nat.eqb_spec (ps s2) es) as [_|_]; cbn [negb]; [|apply wps_panic].
  apply wps_bind, (wps_ret (heap s2)). apply wps_bind. eapply wpx_of_wp, (wp_nulterminate (heap s2)).
  - apply Hok2.
  - done.
  - rewrite (so_text _ Hok2). apply chars_zeroed.
  - by rewrite (m_heap _ _ Hm2).
  - by rewrite (m_heap _ _ Hm2).
  - intros s3 [[_ N2] N3 N4] Hs. apply wps_ret. constructor; rewrite ?N2; [by rewrite (m_heap _ _ Hm2)|apply Hok2|done|].
    intros q e Hqe. pose proof (string_word _ _ _ _ (so_heap _ Hok2) Hqe) as Hword.
    split; [done|]. apply zeroed_string; [done|done|]. by eapply Hs.
Qed.
End Props.

(** C26: the shell's parser terminates.  On every line without a 0 byte, with
    memory for [2 n + 1] nodes for a line of [n] bytes, [parsecmd] comes to an
    end: it returns a command, or stops with an error message.  It never
    dereferences a null or dangling command and never runs on. *)
Theorem parsecmd_terminates (line : list Z) (avail : nat) :
  Forall (fun c => c <> 0) line -> (2 * length line + 1 <= avail)%nat ->
  (exists c s, parsecmd avail line = Ok c s) \/ (exists msg s, parsecmd avail line = Panic msg s).
Proof.
  intros Hnz Hav. pose proof (wps_parse_body line avail Hnz Hav) as H. unfold wps, wpx in H. unfold parsecmd.
  change (line ++ [0]) with (chars line). destruct (parse_body _ _ _); try done; eauto.
Qed.

Lemma parsecmd_parsed (line : list Z) (avail c : nat) (s : shell) :
  Forall (fun c => c <> 0) line -> (2 * length line + 1 <= avail)%nat -> parsecmd avail line = Ok c s -> parsed line c s.
Proof.
  intros Hnz Hav Hrun. pose proof (wps_parse_body line avail Hnz Hav) as H. unfold wps, wpx in H.
  unfold parsecmd in Hrun. change (line ++ [0]) with (chars line) in Hrun. by rewrite Hrun in H.
Qed.

(** C25: the commands the parser returns are well formed.  Every node refers to
    nodes made before it, so the commands have no cycles; an [execcmd] has
    fewer than [MAXARGS] arguments followed by null pointers; a redirection is
    of the standard input for reading or of the standard output for writing
    and creating; every argument
    and file name of the command is a word of the line, and after
    [nulterminate] the C string at its start is exactly that word. *)
Theorem parsecmd_well_formed (line : list Z) (avail c : nat) (s : shell) :
  Forall (fun c => c <> 0) line -> (2 * length line + 1 <= avail)%nat -> parsecmd avail line = Ok c s ->
  parsed line c s.
Proof. apply parsecmd_parsed. Qed.

(** The line [ls|a>b]. *)
Definition demo_line : list Z := [108; 115; 124; 97; 62; 98].
Lemma demo_line_nonzero : Forall (fun c => c <> 0) demo_line.
Proof. repeat constructor; discriminate. Qed.

Lemma parsecmd_terminates_witness : exists c s, parsecmd 20 demo_line = Ok c s.
Proof.
  destruct (parsecmd_terminates demo_line 20 demo_line_nonzero) as [H|(msg & s & H)]; [cbn; lia|exact H|].
  vm_compute in H. discriminate H.
Defined.

Lemma parsecmd_well_formed_witness : exists c s, parsecmd 20 demo_line = Ok c s /\ parsed demo_line c s.
Proof.
  destruct (parsecmd 20 demo_line) as [c s| | | | |] eqn:E; try (vm_compute in E; discriminate E).
  exists c, s. split; [reflexivity|].
  apply (parsecmd_well_formed demo_line 20 c s demo_line_nonzero); [cbn; lia|exact E].
Defined.
