(* ===== verification/ShRun.v ===== *)
(** * [sh.c]: running commands

    [runcmd], [getcmd], [main], [panic] and [fork1] over the system calls of
    [Ulib], on the nodes the parser of [Sh] builds.  A process is followed
    through its calls; [fork] returns 0 in the child and the child's number in
    the parent, so the choices of its results are the processes of a command.

    Then the meaning of a command, [spawns]: the programs it runs, each with its
    arguments and its table of descriptors.  The laws the shell relies on are the
    interface [Desk]; a concrete desk is an instance.  [runcmd] runs the jobs of
    its command and no others, and the shell runs the jobs of the lines typed
    to it. *)
From Stdlib Require Import ZArith Lia Bool.
From stdpp Require Import base numbers list strings.
From S2P Require Import Prelude Machine Cstring FsState Fs Console Ulib Sh Programs ShProps.
Import User.

Definition str_at (t : list Z) (q : nat) : list Z := until_nul (drop q t).

(** The strings up to the null pointer; [None] when there is no such pointer. *)
Fixpoint args_at (t : list Z) (argv : list (option nat)) : option (list (list Z)) :=
  match argv with
  | [] => None
  | None :: _ => Some []
  | Some q :: argv' => option_map (cons (str_at t q)) (args_at t argv')
  end.

Section Run.
Context {S : Type} {U : Usys S}.

Definition sh_panic {A} (msg : list Z) : M S A := say 2 (line "%s") [msg] [1] ;;; exited.

Definition fork1 : M S Z :=
  pid <- fork ;;
  when (pid =? -1) (sh_panic (Console.text "fork")) ;;;
  ret pid.

(** The nodes are those of the heap [h], their strings in the line [t]. *)
Fixpoint runcmd (fuel : nat) (h : list node) (t : list Z) (cmd : option nat) : M S unit :=
  match fuel with
  | O => nofuel
  | Datatypes.S fuel' =>
      match cmd with
      | None => exited
      | Some c =>
          match h !! c with
          | None => fault "dangling command"
          | Some (Exec argv _) =>
              match args_at t argv with
              | None => fault "argv"
              | Some [] => exited
              | Some (a :: argv) =>
                  exec a (a :: argv) ;;;
                  say 2 (line "exec %s failed") [a] [1] ;;;
                  exited
              end
          | Some (Redir sub file _ mode fd) =>
              close fd ;;;
              r <- open (str_at t file) mode ;;
              if r <? 0 then say 2 (line "open %s failed") [str_at t file] [1] ;;; exited
              else
                runcmd fuel' h t (Some sub) ;;;
                exited
          | Some (List l r) =>
              pid <- fork1 ;;
              when (pid =? 0) (runcmd fuel' h t (Some l)) ;;;
              wait ;;;
              runcmd fuel' h t (Some r) ;;;
              exited
          | Some (Pipe l r) =>
              p <- pipe ;;
              let '(res, (p0, p1)) := p in
              when (res <? 0) (sh_panic (Console.text "pipe")) ;;;
              pid <- fork1 ;;
              when (pid =? 0) (
                close 1 ;;;
                dup p1 ;;;
                close p0 ;;;
                close p1 ;;;
                runcmd fuel' h t (Some l)) ;;;
              pid <- fork1 ;;
              when (pid =? 0) (
                close 0 ;;;
                dup p0 ;;;
                close p0 ;;;
                close p1 ;;;
                runcmd fuel' h t (Some r)) ;;;
              close p0 ;;;
              close p1 ;;;
              wait ;;;
              wait ;;;
              exited
          | Some (Back sub) =>
              pid <- fork1 ;;
              when (pid =? 0) (runcmd fuel' h t (Some sub)) ;;;
              exited
          end
      end
  end.

(** The result and the line, the C string in [buf]. *)
Definition getcmd (nbuf : Z) : M S (Z * list Z) :=
  say 2 (Console.text "$ ") [] [] ;;;
  buf <- gets nbuf ;;
  let l := until_nul buf in
  ret (match l with [] => -1 | _ => 0 end, l).

(** [parsecmd] in the process: its messages are printed, then it exits. *)
Definition parse_line (avail : nat) (l : list Z) : M S (nat * shell) :=
  match parsecmd avail l with
  | Ok c sh => ret (c, sh)
  | Panic w sh =>
      if String.eqb w "leftovers" then
        say 2 (line "leftovers: %s") [str_at (Sh.text sh) (ps sh)] [1] ;;;
        sh_panic (Console.text "syntax")
      else sh_panic (Console.text w)
  | Exited _ => exited
  | Sleeping _ _ _ => fault "sleep"
  | Fault w _ => fault w
  | NoFuel _ => nofuel
  end.

(** The loop that opens the console until three descriptors are open. *)
Fixpoint open_console (fuel : nat) : M S unit :=
  match fuel with
  | O => nofuel
  | Datatypes.S fuel' =>
      fd <- open (Console.text "console") O_RDWR ;;
      if 0 <=? fd then
        if 3 <=? fd then close fd ;;; ret tt else open_console fuel'
      else ret tt
  end.

Definition is_cd (l : list Z) : bool := bool_decide (take 3 l = Console.text "cd ").

Fixpoint command_loop (fuel avail : nat) : M S unit :=
  match fuel with
  | O => nofuel
  | Datatypes.S fuel' =>
      g <- getcmd 100 ;;
      if fst g <? 0 then exited
      else
        let buf := snd g in
        if is_cd buf then
          let path := drop 3 (take (length buf - 1) buf) in
          r <- chdir path ;;
          when (r <? 0) (say 2 (line "cannot cd %s") [path] [1]) ;;;
          command_loop fuel' avail
        else
          pid <- fork1 ;;
          when (pid =? 0) (
            p <- parse_line avail buf ;;
            runcmd (Datatypes.S (length (heap (snd p)))) (heap (snd p)) (Sh.text (snd p)) (Some (fst p))) ;;;
          wait ;;;
          command_loop fuel' avail
  end.
Definition sh_main (fuel avail : nat) : M S unit :=
  open_console fuel ;;;
  command_loop fuel avail.
End Run.

(** ** Descriptors *)
Inductive desc : Type :=
| Old (n : nat)
| Opened (path : list Z) (mode : Z)
| ReadEnd (k : nat)
| WriteEnd (k : nat).
Abbreviation table := (list (option desc)).

Fixpoint lowest (T : table) : option nat :=
  match T with
  | [] => None
  | None :: _ => Some 0%nat
  | Some _ :: T' => option_map Datatypes.S (lowest T')
  end.

#[export] Instance desc_eq_dec : EqDecision desc.
Proof. solve_decision. Defined.

Definition unused (k : nat) (T : table) : Prop := Some (ReadEnd k) ∉ T /\ Some (WriteEnd k) ∉ T.

(** A program, its arguments and the descriptors it starts with. *)
Record job : Type := mk_job { j_path : list Z; j_argv : list (list Z); j_tab : table }.

(** ** The jobs of a command

    A redirection puts the file in the place of a descriptor.  The two sides of a
    pipeline have the ends of a new pipe as standard output and standard input,
    and no other descriptor of it. *)
Inductive spawns (h : list node) (t : list Z) : table -> nat -> job -> Prop :=
| sp_exec T c argv eargv a l : h !! c = Some (Exec argv eargv) -> args_at t argv = Some (a :: l) ->
    spawns h t T c (mk_job a (a :: l) T)
| sp_redir T c sub file efile mode fd j : h !! c = Some (Redir sub file efile mode fd) ->
    spawns h t (<[Z.to_nat fd := Some (Opened (str_at t file) mode)]> T) sub j -> spawns h t T c j
| sp_list_left T c l r j : h !! c = Some (List l r) -> spawns h t T l j -> spawns h t T c j
| sp_list_right T c l r j : h !! c = Some (List l r) -> spawns h t T r j -> spawns h t T c j
| sp_pipe_left T c l r k j : h !! c = Some (Pipe l r) -> unused k T ->
    spawns h t (<[1%nat := Some (WriteEnd k)]> T) l j -> spawns h t T c j
| sp_pipe_right T c l r k j : h !! c = Some (Pipe l r) -> unused k T ->
    spawns h t (<[0%nat := Some (ReadEnd k)]> T) r j -> spawns h t T c j
| sp_back T c sub j : h !! c = Some (Back sub) -> spawns h t T sub j -> spawns h t T c j.

(** The standard descriptors are open. *)
Definition std (T : table) : Prop := forall i, (i < 3)%nat -> exists d, T !! i = Some (Some d).

(** ** What the shell relies on

    [tab] is the table of the process, [image] the program it became, [input]
    what can still be read from its standard input.  Calls keep the image and
    leave at most the input they found. *)
Record calm {S : Type} (tab : S -> table) (image : S -> option job) (input : S -> list Z) (T : table) (s s' : S) : Prop := {
  calm_tab : tab s' = T;
  calm_image : image s' = image s;
  calm_input : input s' `suffix_of` input s;
}.

(** [wpe m Q E s]: the computation returns with [Q] or ends the process with
    [E]. *)
Definition wpe {S A} (m : M S A) (Q : A -> S -> Prop) (E : S -> Prop) (s : S) : Prop :=
  match m s with Ok a s' => Q a s' | Exited s' => E s' | _ => False end.

(** Descriptors are allotted lowest first; [pipe], [open], [fork] and [exec] may
    fail, the console opens as long as there is a descriptor for it. *)
Class Desk {S : Type} (U : Usys S) (tab : S -> table) (image : S -> option job) (input : S -> list Z) : Prop := {
  desk_close : forall fd (s : S) (Q : Z -> S -> Prop), 0 <= fd ->
    (forall r s', calm tab image input (<[Z.to_nat fd := None]> (tab s)) s s' -> Q r s') -> wp (close fd) Q s;
  desk_open : forall path mode (s : S) (Q : Z -> S -> Prop),
    (forall s', (path = Console.text "console" -> lowest (tab s) = None) -> calm tab image input (tab s) s s' -> Q (-1) s') ->
    (forall i s', lowest (tab s) = Some i -> calm tab image input (<[i := Some (Opened path mode)]> (tab s)) s s' ->
       Q (Z.of_nat i) s') -> wp (open path mode) Q s;
  desk_dup : forall fd d i (s : S) (Q : Z -> S -> Prop), 0 <= fd -> tab s !! Z.to_nat fd = Some (Some d) ->
    lowest (tab s) = Some i ->
    (forall r s', calm tab image input (<[i := Some d]> (tab s)) s s' -> Q r s') -> wp (dup fd) Q s;
  desk_pipe : forall (s : S) (Q : Z * (Z * Z) -> S -> Prop),
    (forall p s', calm tab image input (tab s) s s' -> Q (-1, p) s') ->
    (forall i j k s', lowest (tab s) = Some i -> lowest (<[i := Some (ReadEnd k)]> (tab s)) = Some j -> unused k (tab s) ->
       calm tab image input (<[j := Some (WriteEnd k)]> (<[i := Some (ReadEnd k)]> (tab s))) s s' ->
       Q (0, (Z.of_nat i, Z.of_nat j)) s') -> wp pipe Q s;
  desk_fork : forall (s : S) (Q : Z -> S -> Prop),
    (forall pid s', -1 <= pid -> calm tab image input (tab s) s s' -> Q pid s') -> wp fork Q s;
  desk_wait : forall (s : S) (Q : Z -> S -> Prop),
    (forall r s', calm tab image input (tab s) s s' -> Q r s') -> wp wait Q s;
  desk_chdir : forall path (s : S) (Q : Z -> S -> Prop),
    (forall r s', calm tab image input (tab s) s s' -> Q r s') -> wp (chdir path) Q s;
  desk_write : forall fd l (s : S) (Q : Z -> S -> Prop),
    (forall r s', calm tab image input (tab s) s s' -> Q r s') -> wp (write fd l) Q s;
  desk_read : forall (s : S) (Q : Z * list Z -> S -> Prop),
    (forall r s', r < 1 -> calm tab image input (tab s) s s' -> Q (r, []) s') ->
    (forall c rest s', input s = c :: rest -> input s' = rest -> calm tab image input (tab s) s s' -> Q (1, [c]) s') ->
    wp (read 0 1) Q s;
  desk_exec : forall path argv (s : S) (Q : Z -> S -> Prop) (E : S -> Prop),
    (forall s', calm tab image input (tab s) s s' -> Q (-1) s') ->
    (forall s', image s' = Some (mk_job path argv (tab s)) -> E s') -> wpe (exec path argv) Q E s;
}.

(** ** Allotting the lowest descriptor *)
Lemma lowest_free T i : lowest T = Some i -> T !! i = Some None.
Proof.
  revert i. induction T as [|[d|] T IH]; intros i; cbn [lowest]; [done| |by intros [= <-]].
  destruct (lowest T) as [j|]; [|done]. intros [= <-]. by apply IH.
Qed.
Lemma lowest_least T i : T !! i = Some None -> (forall n, (n < i)%nat -> exists d, T !! n = Some (Some d)) -> lowest T = Some i.
Proof.
  revert i. induction T as [|x T IH]; intros i Hi Hlow; [done|]. destruct i as [|i].
  { injection Hi as ->. done. }
  destruct (Hlow 0%nat ltac:(lia)) as [d [= ->]]. cbn [lowest]. rewrite (IH i); [done|done|].
  intros n Hn. by apply (Hlow (Datatypes.S n)); lia.
Qed.
Lemma lowest_full T i : lowest T = None -> (i < length T)%nat -> exists d, T !! i = Some (Some d).
Proof.
  revert i. induction T as [|[d|] T IH]; intros i; cbn [lowest length]; [lia| |done]. destruct (lowest T) eqn:E; [done|].
  intros _ Hi. destruct i as [|i]; [by exists d|]. apply IH; [done|lia].
Qed.

Lemma std_length T : std T -> (2 < length T)%nat.
Proof. intros HT. destruct (HT 2%nat ltac:(lia)) as [d Hd]. by apply lookup_lt_Some in Hd. Qed.
Lemma std_insert T i d : std T -> std (<[i := Some d]> T).
Proof.
  intros HT n Hn. destruct (decide (n = i)) as [->|].
  - exists d. apply list_lookup_insert_eq. pose proof (std_length T HT). lia.
  - destruct (HT n Hn) as [e He]. exists e. by rewrite list_lookup_insert_ne.
Qed.
Lemma std_close T i : std T -> (3 <= i)%nat -> std (<[i := None]> T).
Proof. intros HT Hi n Hn. destruct (HT n Hn) as [e He]. exists e. by rewrite list_lookup_insert_ne by lia. Qed.
Lemma std_lowest T i : std T -> lowest T = Some i -> (3 <= i)%nat.
Proof.
  intros HT Hi%lowest_free. destruct (decide (3 <= i)%nat); [done|]. destruct (HT i ltac:(lia)) as [d Hd]. congruence.
Qed.
Lemma std_lowest_closed T i : std T -> (i < 3)%nat -> lowest (<[i := None]> T) = Some i.
Proof.
  intros HT Hi. pose proof (std_length T HT). apply lowest_least; [apply list_lookup_insert_eq; lia|].
  intros n Hn. destruct (HT n ltac:(lia)) as [e He]. exists e. by rewrite list_lookup_insert_ne by lia.
Qed.

(** The table between [pipe] and the closing of its ends. *)
Definition piped (k i j : nat) (T : table) : table := <[j := Some (WriteEnd k)]> (<[i := Some (ReadEnd k)]> T).

Lemma insert_same (T : table) i x y : <[i := x]> (<[i := y]> T) = <[i := x]> T.
Proof. apply list_insert_insert_eq. Qed.

Section Piped.
Context (T : table) (k i j : nat).
Hypothesis HT : std T.
Hypothesis Hi : lowest T = Some i.
Hypothesis Hj : lowest (<[i := Some (ReadEnd k)]> T) = Some j.

Lemma piped_bounds : (3 <= i)%nat /\ (3 <= j)%nat /\ i <> j /\ (i < length T)%nat /\ (j < length T)%nat.
Proof.
  pose proof (std_lowest _ _ HT Hi) as H1. pose proof (std_lowest _ _ (std_insert T i _ HT) Hj) as H2.
  pose proof (lowest_free _ _ Hi) as H3. pose proof (lowest_free _ _ Hj) as H4.
  apply lookup_lt_Some in H3 as H5. apply lookup_lt_Some in H4 as H6. rewrite length_insert in H6. split_and!; try done.
  intros ->. by rewrite list_lookup_insert_eq in H4.
Qed.
Lemma piped_std : std (piped k i j T).
Proof. unfold piped. by apply std_insert, std_insert. Qed.

(** Closing both ends leaves the table as it was, but for a descriptor the
    child has replaced. *)
Lemma piped_closed : <[j := None]> (<[i := None]> (piped k i j T)) = T.
Proof.
  destruct piped_bounds as (H1 & H2 & H3 & H4 & H5). unfold piped.
  rewrite (list_insert_insert_ne _ i j) by done. rewrite (insert_same _ i).
  rewrite (insert_same _ j), (list_insert_insert_ne _ j i) by done.
  rewrite (list_insert_id T j), list_insert_id; [done|by apply lowest_free|].
  pose proof (lowest_free _ _ Hj) as H. by rewrite list_lookup_insert_ne in H.
Qed.
Lemma piped_child n d : (n < 3)%nat ->
  <[j := None]> (<[i := None]> (<[n := Some d]> (<[n := None]> (piped k i j T)))) = <[n := Some d]> T.
Proof.
  intros Hn. destruct piped_bounds as (H1 & H2 & H3 & H4 & H5).
  rewrite insert_same, (list_insert_insert_ne _ i n), (list_insert_insert_ne _ j n) by lia. f_equal. apply piped_closed.
Qed.
Lemma piped_lookup n : (n < 3)%nat -> <[n := None]> (piped k i j T) !! i = Some (Some (ReadEnd k)) /\
  <[n := None]> (piped k i j T) !! j = Some (Some (WriteEnd k)).
Proof.
  intros Hn. destruct piped_bounds as (H1 & H2 & H3 & H4 & H5). unfold piped. rewrite !(list_lookup_insert_ne _ n) by lia. split.
  - rewrite list_lookup_insert_ne by done. by apply list_lookup_insert_eq.
  - apply list_lookup_insert_eq. by rewrite length_insert.
Qed.
End Piped.

(** ** Rules for [wpe] *)
Section Rules.
Context {S : Type}.
Lemma wpe_bind {A B} (m : M S A) (k : A -> M S B) Q E s : wpe m (fun a s' => wpe (k a) Q E s') E s -> wpe (bind m k) Q E s.
Proof. unfold wpe, bind. by destruct (m s). Qed.
Lemma wpe_of_wp {A} (m : M S A) Q E s : wp m Q s -> wpe m Q E s.
Proof. unfold wp, wpe. by destruct (m s). Qed.
Lemma wpe_mono {A} (m : M S A) (Q Q' : A -> S -> Prop) (E E' : S -> Prop) s :
  wpe m Q E s -> (forall a s', Q a s' -> Q' a s') -> (forall s', E s' -> E' s') -> wpe m Q' E' s.
Proof. unfold wpe. destruct (m s); auto. Qed.
Lemma wpe_exited {A} (Q : A -> S -> Prop) (E : S -> Prop) s : E s -> wpe exited Q E s.
Proof. exact id. Qed.
Lemma wpe_ret {A} (a : A) (Q : A -> S -> Prop) (E : S -> Prop) s : Q a s -> wpe (ret a) Q E s.
Proof. exact id. Qed.
(** A child that does not return, and its parent. *)
Lemma wpe_child (b : bool) (m : M S unit) (Q : unit -> S -> Prop) (E : S -> Prop) s :
  (b = true -> wpe m (fun _ _ => False) E s) -> (b = false -> Q tt s) -> wpe (when b m) Q E s.
Proof. intros Ht Hf. destruct b; [|by apply Hf]. eapply wpe_mono; [by apply Ht|done|done]. Qed.
End Rules.

Section Sound.
Context {S : Type} {U : Usys S} (tab : S -> table) (image : S -> option job) (input : S -> list Z) {DK : Desk U tab image input}.
Implicit Types s : S.
Abbreviation calm := (calm tab image input).

Lemma calm_trans T1 T2 s s1 s2 : calm T1 s s1 -> calm T2 s1 s2 -> calm T2 s s2.
Proof. intros [A1 A2 A3] [B1 B2 B3]. constructor; [done|congruence|by etrans]. Qed.

Lemma wp_putcs_desk fd l : forall s (Q : unit -> S -> Prop), (forall s', calm (tab s) s s' -> Q tt s') -> wp (putcs fd l) Q s.
Proof.
  induction l as [|c l IH]; intros s Q HQ; cbn [putcs]; [by apply HQ|]. wp_step. unfold putc. wp_step. apply desk_write.
  intros r s1 H1. wp_step. apply IH. intros s2 H2. apply HQ. rewrite (calm_tab _ _ _ _ _ _ H1) in H2. by eapply calm_trans.
Qed.
Lemma wp_say fd fmt strs args l s (Q : unit -> S -> Prop) : format (strings strs) 65 true false fmt args = Some l ->
  (forall s', calm (tab s) s s' -> Q tt s') -> wp (say fd fmt strs args) Q s.
Proof. intros Hf HQ. apply (says_printf _ _ _ _ _ _ Hf). by apply wp_putcs_desk. Qed.
Lemma wpe_sh_panic {A} msg (Q : A -> S -> Prop) (E : S -> Prop) s :
  (forall s', calm (tab s) s s' -> E s') -> wpe (sh_panic msg) Q E s.
Proof. intros HE. apply wpe_bind, wpe_of_wp. eapply wp_say; [reflexivity|]. intros s' Hc. by apply wpe_exited, HE. Qed.
Lemma wpe_fork1 (Q : Z -> S -> Prop) (E : S -> Prop) s :
  (forall pid s', 0 <= pid -> calm (tab s) s s' -> Q pid s') -> (forall s', calm (tab s) s s' -> E s') -> wpe fork1 Q E s.
Proof.
  intros HQ HE. apply wpe_bind, wpe_of_wp, desk_fork. intros pid s1 Hpid H1. apply wpe_bind, wpe_child.
  - intros _. apply wpe_sh_panic. intros s2 H2. rewrite (calm_tab _ _ _ _ _ _ H1) in H2. by eapply HE, calm_trans.
  - intros Hne. apply wpe_ret, HQ; [lia|done].
Qed.

(** ** [runcmd] runs only the jobs of its command *)
Context (line : list Z) (h : list node) (t : list Z).
Hypothesis Hok : heap_ok line h.

(** The process ends: as a job of [c], or without running a program. *)
Definition ends (T : table) (c : nat) (s : S) : Prop :=
  match image s with None => True | Some j => spawns h t T c j end.
Lemma ends_calm T c s s' T' : calm T' s s' -> image s = None -> ends T c s'.
Proof. intros [_ H _] Hi. unfold ends. by rewrite H, Hi. Qed.

Lemma args_at_ok argc argv eargv : args_ok line argc argv eargv -> exists l, args_at t argv = Some l.
Proof.
  intros [[H1 _] H2 _ H4]. pose proof (H4 argc ltac:(lia)) as Hn. clear H1 H2 H4. revert argc Hn.
  induction argv as [|[q|] argv IH]; intros argc Hn; [done| |by eexists]. destruct argc as [|argc]; [done|].
  destruct (IH argc Hn) as [l Hl]. cbn [args_at]. rewrite Hl. by eexists.
Qed.

(** [runcmd] is right for the nodes below [n]. *)
Definition runs (n : nat) (run : option nat -> M S unit) : Prop :=
  forall c s, (c < n)%nat -> std (tab s) -> image s = None -> wpe (run (Some c)) (fun _ _ => False) (ends (tab s) c) s.

Lemma runs_as n run T c sub s : runs n run -> (sub < n)%nat -> std (tab s) -> image s = None ->
  (forall j, spawns h t (tab s) sub j -> spawns h t T c j) -> wpe (run (Some sub)) (fun (_ : unit) _ => False) (ends T c) s.
Proof.
  intros Hrun Hn HT Hi Hsp. eapply wpe_mono; [by apply Hrun|done|]. intros s' He. unfold ends in *. destruct (image s'); [by apply Hsp|done].
Qed.

(** What a process is after a few calls. *)
Definition at_table (T : table) (s : S) : Prop := tab s = T /\ image s = None.
Lemma at_calm T T' s s' : at_table T s -> calm T' s s' -> at_table T' s'.
Proof. intros [_ Hi] [H1 H2 _]. split; [done|congruence]. Qed.
Lemma at_ends T T' c s : at_table T s -> ends T' c s.
Proof. intros [_ Hi]. unfold ends. by rewrite Hi. Qed.

Lemma at_close fd T s (Q : Z -> S -> Prop) E : 0 <= fd -> at_table T s ->
  (forall r s', at_table (<[Z.to_nat fd := None]> T) s' -> Q r s') -> wpe (close fd) Q E s.
Proof. intros Hfd Hs HQ. apply wpe_of_wp, desk_close; [done|]. intros r s' Hc. apply HQ. destruct Hs as [<- ?]. by eapply at_calm. Qed.
Lemma at_wait T s (Q : Z -> S -> Prop) E : at_table T s -> (forall r s', at_table T s' -> Q r s') -> wpe wait Q E s.
Proof. intros Hs HQ. apply wpe_of_wp, desk_wait. intros r s' Hc. apply HQ. destruct Hs as [<- ?]. by eapply at_calm. Qed.
Lemma at_fork1 T s (Q : Z -> S -> Prop) (E : S -> Prop) : at_table T s ->
  (forall s', at_table T s' -> E s') -> (forall pid s', at_table T s' -> Q pid s') -> wpe fork1 Q E s.
Proof.
  intros Hs HE HQ. destruct Hs as [<- ?].
  apply wpe_fork1; [intros pid s' _ Hc; apply HQ; by eapply at_calm|intros s' Hc; apply HE; by eapply at_calm].
Qed.
Lemma at_dup fd d i T s (Q : Z -> S -> Prop) E : 0 <= fd -> at_table T s -> T !! Z.to_nat fd = Some (Some d) -> lowest T = Some i ->
  (forall r s', at_table (<[i := Some d]> T) s' -> Q r s') -> wpe (dup fd) Q E s.
Proof.
  intros Hfd Hs Hd Hl HQ. destruct Hs as [<- ?]. eapply wpe_of_wp, desk_dup; [done|exact Hd|exact Hl|].
  intros r s' Hc. apply HQ. by eapply at_calm.
Qed.
Lemma at_say fd fmt strs args l T s (Q : unit -> S -> Prop) E : at_table T s ->
  format (strings strs) 65 true false fmt args = Some l -> (forall s', at_table T s' -> Q tt s') -> wpe (say fd fmt strs args) Q E s.
Proof. intros Hs Hf HQ. eapply wpe_of_wp, wp_say; [exact Hf|]. intros s' Hc. apply HQ. destruct Hs as [<- ?]. by eapply at_calm. Qed.
Lemma at_panic {A} msg T s (Q : A -> S -> Prop) (E : S -> Prop) : at_table T s -> (forall s', at_table T s' -> E s') -> wpe (sh_panic msg) Q E s.
Proof. intros Hs HE. apply wpe_sh_panic. intros s' Hc. apply HE. destruct Hs as [<- ?]. by eapply at_calm. Qed.

Lemma runs_at n run T T' c sub s : runs n run -> (sub < n)%nat -> std T' -> at_table T' s ->
  (forall j, spawns h t T' sub j -> spawns h t T c j) -> wpe (run (Some sub)) (fun (_ : unit) _ => False) (ends T c) s.
Proof. intros Hrun Hn HT [<- Hi] Hsp. by eapply runs_as. Qed.

(** The child of a pipeline: its end of the pipe in the place of descriptor [n],
    the descriptors of the pipe closed. *)
Lemma wpe_pipe_child n run T k i j m d (src : nat) c sub s : runs m run -> (sub < m)%nat -> (n < 3)%nat ->
  std T -> lowest T = Some i -> lowest (<[i := Some (ReadEnd k)]> T) = Some j -> at_table (piped k i j T) s ->
  <[n := None]> (piped k i j T) !! src = Some (Some d) ->
  (forall x, spawns h t (<[n := Some d]> T) sub x -> spawns h t T c x) ->
  wpe (close (Z.of_nat n) ;;; dup (Z.of_nat src) ;;; close (Z.of_nat i) ;;; close (Z.of_nat j) ;;; run (Some sub))
    (fun (_ : unit) _ => False) (ends T c) s.
Proof.
  intros Hrun Hsub Hn HT Hi Hj Hs Hsrc Hsp. pose proof (piped_std T k i j HT) as Hstd.
  apply wpe_bind, (at_close _ (piped k i j T)); [lia|done|]. rewrite Nat2Z.id. intros _ s1 H1.
  eapply wpe_bind, at_dup; [lia|exact H1|by rewrite Nat2Z.id|by apply std_lowest_closed|]. intros _ s2 H2.
  eapply wpe_bind, at_close; [lia|exact H2|]. rewrite Nat2Z.id. intros _ s3 H3.
  eapply wpe_bind, at_close; [lia|exact H3|]. rewrite Nat2Z.id. intros _ s4 H4. rewrite piped_child in H4 by done.
  eapply runs_at; [exact Hrun|done| |exact H4|done]. by apply std_insert.
Qed.

Lemma wpe_run_pipe n run c l r T s : runs n run -> h !! c = Some (Pipe l r) -> (l < n)%nat -> (r < n)%nat -> std T -> at_table T s ->
  wpe (p <- pipe ;;
       let '(res, (p0, p1)) := p in
       when (res <? 0) (sh_panic (Console.text "pipe")) ;;;
       pid <- fork1 ;;
       when (pid =? 0) (close 1 ;;; dup p1 ;;; close p0 ;;; close p1 ;;; run (Some l)) ;;;
       pid <- fork1 ;;
       when (pid =? 0) (close 0 ;;; dup p0 ;;; close p0 ;;; close p1 ;;; run (Some r)) ;;;
       close p0 ;;; close p1 ;;; wait ;;; wait ;;; exited) (fun (_ : unit) _ => False) (ends T c) s.
Proof.
  intros Hrun Hc Hl Hr HT Hs. destruct Hs as [<- Him]. apply wpe_bind, wpe_of_wp, desk_pipe.
  { intros [p0 p1] s1 H1. cbn [when]. apply wpe_bind, wpe_sh_panic. intros s2 H2. eapply ends_calm; [exact H2|].
    by rewrite (calm_image _ _ _ _ _ _ H1). }
  intros i j k s1 Hi Hj Hk H1. pose proof (piped_lookup (tab s) k i j HT Hi Hj) as Hlk.
  assert (at_table (piped k i j (tab s)) s1) as Hs1 by (eapply at_calm; [by split|exact H1]). clear H1.
  change (0 <? 0) with false. cbn [when]. apply wpe_bind, wpe_ret. eapply wpe_bind, at_fork1; [exact Hs1|intros; by eapply at_ends|].
  intros p s2 Hs2. apply wpe_bind, wpe_child; intros _.
  { eapply (wpe_pipe_child 1); [exact Hrun|exact Hl|lia|done|done|exact Hj|done|by apply Hlk; lia|]. intros x Hx. by eapply sp_pipe_left. }
  eapply wpe_bind, at_fork1; [exact Hs2|intros; by eapply at_ends|]. intros p' s3 Hs3. apply wpe_bind, wpe_child; intros _.
  { eapply (wpe_pipe_child 0); [exact Hrun|exact Hr|lia|done|done|exact Hj|done|by apply Hlk; lia|]. intros x Hx. by eapply sp_pipe_right. }
  eapply wpe_bind, at_close; [lia|exact Hs3|]. intros _ s4 Hs4. eapply wpe_bind, at_close; [lia|exact Hs4|]. intros _ s5 Hs5.
  eapply wpe_bind, at_wait; [exact Hs5|]. intros _ s6 Hs6. eapply wpe_bind, at_wait; [exact Hs6|]. intros _ s7 Hs7.
  by eapply wpe_exited, at_ends.
Qed.

Lemma wpe_run_redir n run c sub file efile mode fd T s : runs n run -> h !! c = Some (Redir sub file efile mode fd) -> (sub < n)%nat ->
  (0 <= fd < 3) -> std T -> at_table T s ->
  wpe (close fd ;;;
       r <- open (str_at t file) mode ;;
       if r <? 0 then say 2 (Programs.line "open %s failed") [str_at t file] [1] ;;; exited
       else run (Some sub) ;;; exited) (fun (_ : unit) _ => False) (ends T c) s.
Proof.
  intros Hrun Hc Hsub Hfd HT Hs. eapply wpe_bind, at_close; [lia|exact Hs|]. intros _ s1 Hs1.
  apply wpe_bind, wpe_of_wp, desk_open.
  - intros s2 _ H2. cbn [Z.ltb Z.compare]. destruct Hs1 as [Ht1 Hi1].
    eapply wpe_bind, at_say; [eapply at_calm; [by split|exact H2]|reflexivity|]. intros s3 Hs3. by eapply wpe_exited, at_ends.
  - intros i s2 Hi H2. rewrite (proj1 Hs1) in *. rewrite std_lowest_closed in Hi by (done || lia). injection Hi as <-.
    rewrite insert_same in H2. rewrite (proj2 (Z.ltb_ge _ _)) by lia. apply wpe_bind.
    eapply wpe_mono; [eapply runs_at; [exact Hrun|exact Hsub| |eapply at_calm; [exact Hs1|exact H2]|]|done|done].
    + by apply std_insert.
    + intros j Hj. by eapply sp_redir.
Qed.

Lemma wpe_run_exec c argv eargv T s : h !! c = Some (Exec argv eargv) -> at_table T s ->
  wpe (match args_at t argv with
       | None => fault "argv"
       | Some [] => exited
       | Some (a :: argv) => exec a (a :: argv) ;;; say 2 (Programs.line "exec %s failed") [a] [1] ;;; exited
       end) (fun (_ : unit) _ => False) (ends T c) s.
Proof.
  intros Hc Hs. destruct (Hok _ _ Hc) as [argc Hargs]. destruct (args_at_ok _ _ _ Hargs) as [l Hl]. rewrite Hl.
  destruct l as [|a l]; [by eapply wpe_exited, at_ends|]. destruct Hs as [<- Hi]. apply wpe_bind, desk_exec.
  - intros s1 H1. eapply wpe_bind, at_say; [eapply at_calm; [by split|exact H1]|reflexivity|]. intros s2 Hs2. by eapply wpe_exited, at_ends.
  - intros s1 H1. unfold ends. rewrite H1. by eapply sp_exec.
Qed.

Lemma wpe_runcmd fuel : forall c s, (c < fuel)%nat -> (c < length h)%nat -> std (tab s) -> image s = None ->
  wpe (runcmd fuel h t (Some c)) (fun _ _ => False) (ends (tab s) c) s.
Proof.
  induction fuel as [|fuel IH]; intros c s Hf Hc HT Hi; [lia|]. cbn [runcmd].
  destruct (lookup_lt_is_Some_2 h c Hc) as [nd Hnd]. rewrite Hnd. pose proof (Hok c nd Hnd) as Hn.
  assert (runs c (runcmd fuel h t)) as Hrun by (intros c' s' Hc' HT' Hi'; apply IH; [lia|lia|done|done]).
  assert (at_table (tab s) s) as Hs by done.
  destruct nd as [argv eargv|sub file efile mode fd|l r|l r|sub]; cbn [node_ok] in Hn.
  - by eapply wpe_run_exec.
  - destruct Hn as (Hsub & _ & Hfd). eapply wpe_run_redir; [exact Hrun|done|done|lia|done|done].
  - destruct Hn. by eapply wpe_run_pipe.
  - destruct Hn as [Hl Hr]. eapply wpe_bind, at_fork1; [exact Hs|intros; by eapply at_ends|]. intros p s1 Hs1.
    apply wpe_bind, wpe_child; intros _; [eapply runs_at; [exact Hrun|exact Hl|exact HT|done|]; intros j Hj; by eapply sp_list_left|].
    eapply wpe_bind, at_wait; [exact Hs1|]. intros _ s2 Hs2. apply wpe_bind.
    eapply wpe_mono; [eapply runs_at; [exact Hrun|exact Hr|exact HT|done|]; intros j Hj; by eapply sp_list_right|done|done].
  - eapply wpe_bind, at_fork1; [exact Hs|intros; by eapply at_ends|]. intros p s1 Hs1.
    apply wpe_bind, wpe_child; intros _; [|by eapply wpe_exited, at_ends].
    eapply runs_at; [exact Hrun|exact Hn|exact HT|done|]. intros j Hj. by eapply sp_back.
Qed.
End Sound.

(** ** A desk

    [d_picks] are the results of [fork] and the names of the pipes, in the order
    in which they are asked for; programs always start. *)
Record desk : Type := mk_desk { d_tab : table; d_image : option job; d_input : list Z; d_picks : list Z }.

#[export] Instance unused_dec k T : Decision (unused k T).
Proof. unfold unused. apply _. Defined.

Definition on_tab (f : table -> table) : M desk unit := modify (fun s => mk_desk (f (d_tab s)) (d_image s) (d_input s) (d_picks s)).
Definition pick : M desk (option Z) := fun s =>
  match d_picks s with
  | [] => Ok None s
  | z :: o => Ok (Some z) (mk_desk (d_tab s) (d_image s) (d_input s) o)
  end.
Definition allot (d : desc) : M desk Z :=
  T <- Prelude.gets d_tab ;;
  match lowest T with
  | Some i => on_tab (fun T => <[i := Some d]> T) ;;; ret (Z.of_nat i)
  | None => ret (-1)
  end.
Definition desk_sys : Usys desk :=
  {| fork := p <- pick ;; ret (match p with Some z => Z.max (-1) z | None => -1 end);
     wait := ret 1;
     pipe :=
       T <- Prelude.gets d_tab ;;
       p <- pick ;;
       match p, lowest T with
       | Some z, Some i =>
           let k := Z.to_nat z in
           match lowest (<[i := Some (ReadEnd k)]> T) with
           | Some j =>
               if decide (unused k T) then
                 on_tab (fun T => <[j := Some (WriteEnd k)]> (<[i := Some (ReadEnd k)]> T)) ;;;
                 ret (0, (Z.of_nat i, Z.of_nat j))
               else ret (-1, (0, 0))
           | None => ret (-1, (0, 0))
           end
       | _, _ => ret (-1, (0, 0))
       end;
     write := fun _ l => ret (Z.of_nat (length l));
     read := fun _ _ => fun s =>
       match d_input s with
       | [] => Ok (0, []) s
       | c :: l => Ok (1, [c]) (mk_desk (d_tab s) (d_image s) l (d_picks s))
       end;
     close := fun fd => on_tab (fun T => <[Z.to_nat fd := None]> T) ;;; ret 0; kill := fun _ => ret (-1);
     exec := fun path argv s => Exited (mk_desk (d_tab s) (Some (mk_job path argv (d_tab s))) (d_input s) (d_picks s));
     open := fun path mode => allot (Opened path mode); mknod := fun _ _ _ => ret (-1); unlink := fun _ => ret (-1);
     fstat := fun _ => ret (-1, mk_stat 0 0 0 0 0); link := fun _ _ => ret (-1); mkdir := fun _ => ret (-1);
     chdir := fun _ => ret (-1);
     dup := fun fd => T <- Prelude.gets d_tab ;; match T !! Z.to_nat fd with Some (Some d) => allot d | _ => ret (-1) end;
     sleep := fun _ => ret 0 |}.

Lemma desk_calm T s o : calm d_tab d_image d_input T s (mk_desk T (d_image s) (d_input s) o).
Proof. by constructor. Qed.
Lemma desk_allot d s (Q : Z -> desk -> Prop) :
  (lowest (d_tab s) = None -> Q (-1) s) ->
  (forall i s', lowest (d_tab s) = Some i -> calm d_tab d_image d_input (<[i := Some d]> (d_tab s)) s s' -> Q (Z.of_nat i) s') ->
  wp (allot d) Q s.
Proof.
  intros H1 H2. unfold allot, on_tab. wp_step. wp_step. destruct (lowest (d_tab s)) as [i|] eqn:E; wp_step; [|by apply H1].
  wp_step. wp_step. apply H2; [done|apply desk_calm].
Qed.
Lemma desk_pick s (Q : option Z -> desk -> Prop) :
  (forall p s', calm d_tab d_image d_input (d_tab s) s s' -> Q p s') -> wp pick Q s.
Proof. intros HQ. unfold wp, pick. destruct (d_picks s) as [|z o]; apply HQ; [by constructor|apply desk_calm]. Qed.

Lemma desk_ok : Desk desk_sys d_tab d_image d_input.
Proof.
  constructor; cbn [fork wait pipe write read close exec open chdir dup desk_sys]; unfold on_tab.
  - intros fd s Q _ HQ. wp_step. wp_step. wp_step. apply HQ, desk_calm.
  - intros path mode s Q H1 H2. apply desk_allot; [|done]. intros Hl. apply H1; [done|by constructor].
  - intros fd d i s Q _ Hd Hi HQ. wp_step. wp_step. rewrite Hd. apply desk_allot; [congruence|]. intros i' s' Hi' Hc.
    assert (i' = i) as -> by congruence. by apply HQ.
  - intros s Q H1 H2. wp_step. wp_step. wp_step. apply desk_pick. intros p s1 Hc. destruct p as [z|]; [|by wp_step; apply H1].
    destruct (lowest (d_tab s)) as [i|] eqn:Ei; [|by wp_step; apply H1].
    destruct (lowest (<[i := _]> _)) as [j|] eqn:Ej; [|by wp_step; apply H1].
    destruct (decide (unused (Z.to_nat z) (d_tab s))) as [Hu|]; [|by wp_step; apply H1].
    wp_step. wp_step. wp_step. eapply (H2 i j (Z.to_nat z)); [done|done|done|]. destruct Hc as [<- C2 C3]. by constructor.
  - intros s Q HQ. wp_step. apply desk_pick. intros p s1 Hc. wp_step. apply HQ; [|done]. destruct p; lia.
  - intros s Q HQ. wp_step. apply HQ. by constructor.
  - intros path s Q HQ. wp_step. apply HQ. by constructor.
  - intros fd l s Q HQ. wp_step. apply HQ. by constructor.
  - intros s Q H1 H2. unfold wp. destruct (d_input s) as [|c l] eqn:E; [apply H1; [lia|by constructor]|].
    apply (H2 c l); [done|done|]. constructor; [done|done|]. cbn [d_input]. rewrite E. apply suffix_cons_r. done.
  - intros path argv s Q E _ HE. by apply HE.
Qed.

(** ** Every job of a command is run

    The calls of the desk, exactly. *)
#[local] Existing Instance desk_sys.
Section Exact.
Context (T : table) (im : option job) (inp o : list Z).
Abbreviation here := (mk_desk T im inp).

Lemma exact_close fd (Q : Z -> desk -> Prop) E : Q 0 (mk_desk (<[Z.to_nat fd := None]> T) im inp o) -> wpe (close fd) Q E (here o).
Proof. exact id. Qed.
Lemma exact_wait (Q : Z -> desk -> Prop) E : Q 1 (here o) -> wpe wait Q E (here o).
Proof. exact id. Qed.
Lemma exact_fork1 z (Q : Z -> desk -> Prop) E : 0 <= z -> Q z (here o) -> wpe fork1 Q E (here (z :: o)).
Proof.
  intros Hz HQ. unfold fork1. apply wpe_bind. cbn [fork desk_sys]. apply wpe_bind. apply (wpe_ret (Some z)). apply wpe_ret.
  rewrite Z.max_r by lia. rewrite (proj2 (Z.eqb_neq z (-1))) by lia. apply wpe_bind. by apply (wpe_ret tt), wpe_ret.
Qed.
Lemma exact_allot i d (Q : Z -> desk -> Prop) E : lowest T = Some i -> Q (Z.of_nat i) (mk_desk (<[i := Some d]> T) im inp o) ->
  wpe (allot d) Q E (here o).
Proof. intros Hi HQ. unfold allot. apply wpe_bind, wpe_ret. cbn [d_tab]. rewrite Hi. exact HQ. Qed.
Lemma exact_dup fd d i (Q : Z -> desk -> Prop) E : T !! Z.to_nat fd = Some (Some d) -> lowest T = Some i ->
  Q (Z.of_nat i) (mk_desk (<[i := Some d]> T) im inp o) -> wpe (dup fd) Q E (here o).
Proof. intros Hd Hi HQ. cbn [dup desk_sys]. apply wpe_bind, wpe_ret. cbn [d_tab]. rewrite Hd. by apply (exact_allot i). Qed.
Lemma exact_pipe i j k (Q : Z * (Z * Z) -> desk -> Prop) E : lowest T = Some i -> lowest (<[i := Some (ReadEnd k)]> T) = Some j ->
  unused k T -> Q (0, (Z.of_nat i, Z.of_nat j)) (mk_desk (piped k i j T) im inp o) -> wpe pipe Q E (here (Z.of_nat k :: o)).
Proof.
  intros Hi Hj Hk HQ. cbn [pipe desk_sys]. apply wpe_bind, wpe_ret. apply wpe_bind, (wpe_ret (Some (Z.of_nat k))). cbn [d_tab].
  rewrite Hi, Nat2Z.id, Hj. rewrite decide_True by done. exact HQ.
Qed.
End Exact.

(** Room for a pipe. *)
Definition roomy (T : table) : Prop := exists i j, i <> j /\ T !! i = Some None /\ T !! j = Some None.
Lemma lowest_exists T i : T !! i = Some None -> exists n, lowest T = Some n.
Proof.
  intros Hi. destruct (lowest T) as [n|] eqn:E; [by exists n|]. destruct (lowest_full T i E) as [d Hd]; [by apply lookup_lt_Some in Hi|]. congruence.
Qed.
Lemma roomy_lowest T : roomy T -> exists i, lowest T = Some i /\ forall d, exists j, lowest (<[i := Some d]> T) = Some j.
Proof.
  intros (i & j & Hne & Hi & Hj). destruct (lowest_exists T i Hi) as [n Hn]. exists n. split; [done|]. intros d.
  destruct (decide (n = i)) as [->|Hni].
  - apply (lowest_exists _ j). by rewrite list_lookup_insert_ne.
  - apply (lowest_exists _ i). by rewrite list_lookup_insert_ne.
Qed.
Lemma roomy_insert T n x : std T -> roomy T -> (n < 3)%nat -> roomy (<[n := x]> T).
Proof.
  intros HT (i & j & Hne & Hi & Hj) Hn.
  assert (forall m, T !! m = Some None -> n <> m) as Hout.
  { intros m Hm <-. destruct (HT n Hn) as [d Hd]. congruence. }
  exists i, j. rewrite !list_lookup_insert_ne by (by apply Hout). done.
Qed.

(** With some choices the process becomes the job. *)
Definition becomes (fuel : nat) (h : list node) (t : list Z) (T : table) (inp : list Z) (c : nat) (j : job) : Prop :=
  exists o, wpe (runcmd fuel h t (Some c)) (fun _ _ => False) (fun s' => d_image s' = Some j) (mk_desk T None inp o).

Lemma pipe_child_becomes n (run : M desk unit) T k i j d (src : nat) inp o x : (n < 3)%nat ->
  std T -> lowest T = Some i -> lowest (<[i := Some (ReadEnd k)]> T) = Some j ->
  <[n := None]> (piped k i j T) !! src = Some (Some d) ->
  wpe run (fun _ _ => False) (fun s' => d_image s' = Some x) (mk_desk (<[n := Some d]> T) None inp o) ->
  wpe (close (Z.of_nat n) ;;; dup (Z.of_nat src) ;;; close (Z.of_nat i) ;;; close (Z.of_nat j) ;;; run)
    (fun _ _ => False) (fun s' => d_image s' = Some x) (mk_desk (piped k i j T) None inp o).
Proof.
  intros Hn HT Hi Hj Hsrc Hrun. pose proof (piped_std T k i j HT) as Hstd.
  apply wpe_bind, exact_close. rewrite Nat2Z.id. eapply wpe_bind, exact_dup; [by rewrite Nat2Z.id|by apply std_lowest_closed|].
  apply wpe_bind, exact_close, wpe_bind, exact_close. rewrite !Nat2Z.id, piped_child by done. exact Hrun.
Qed.

Lemma spawns_becomes line h t inp T c j : heap_ok line h -> spawns h t T c j ->
  forall fuel, (c < fuel)%nat -> std T -> roomy T -> becomes fuel h t T inp c j.
Proof.
  intros Hok. induction 1 as [T c argv eargv a l Hc Ha|T c sub file efile mode fd j Hc Hj IH|T c l r j Hc Hj IH|T c l r j Hc Hj IH
    |T c l r k j Hc Hk Hj IH|T c l r k j Hc Hk Hj IH|T c sub j Hc Hj IH]; intros [|fuel] Hf HT Hroom; try lia;
    unfold becomes; cbn [runcmd]; rewrite Hc; pose proof (Hok _ _ Hc) as Hn; cbn [node_ok] in Hn;
    try (destruct (roomy_lowest T Hroom) as (p0 & Hp0 & Hp1); destruct (Hp1 (ReadEnd k)) as [p1 Hp1']; clear Hp1; destruct (piped_lookup T k p0 p1 HT Hp0 Hp1') with (n := 0%nat) as [L0 _];
         [lia|]; destruct (piped_lookup T k p0 p1 HT Hp0 Hp1') with (n := 1%nat) as [_ L1]; [lia|]).
  - exists []. rewrite Ha. done.
  - destruct Hn as (Hsub & _ & Hfd). destruct (IH fuel) as [o Ho]; [lia|by apply std_insert|by apply roomy_insert; [..|lia]|]. exists o.
    apply wpe_bind, exact_close. eapply wpe_bind. cbn [open desk_sys]. eapply exact_allot; [apply std_lowest_closed; [done|lia]|].
    rewrite insert_same, (proj2 (Z.ltb_ge _ _)) by lia. apply wpe_bind. eapply wpe_mono; [exact Ho|done|done].
  - destruct (IH fuel) as [o Ho]; [lia|done|done|]. exists (0 :: o). apply wpe_bind, exact_fork1; [lia|]. apply wpe_bind.
    eapply wpe_mono; [exact Ho|done|done].
  - destruct (IH fuel) as [o Ho]; [lia|done|done|]. exists (1 :: o). apply wpe_bind, exact_fork1; [lia|]. apply wpe_bind, (wpe_ret tt).
    apply wpe_bind, exact_wait, wpe_bind. eapply wpe_mono; [exact Ho|done|done].
  - destruct (IH fuel) as [o Ho]; [lia|by apply std_insert|by apply roomy_insert; [..|lia]|]. exists (Z.of_nat k :: 0 :: o).
    eapply wpe_bind, exact_pipe; [done|done|done|]. apply wpe_bind, (wpe_ret tt), wpe_bind, exact_fork1; [lia|]. apply wpe_bind.
    eapply wpe_mono; [eapply (pipe_child_becomes 1); [lia|done|done|done|exact L1|exact Ho]|done|done].
  - destruct (IH fuel) as [o Ho]; [lia|by apply std_insert|by apply roomy_insert; [..|lia]|]. exists (Z.of_nat k :: 1 :: 0 :: o).
    eapply wpe_bind, exact_pipe; [done|done|done|]. apply wpe_bind, (wpe_ret tt), wpe_bind, exact_fork1; [lia|]. apply wpe_bind, (wpe_ret tt).
    apply wpe_bind, exact_fork1; [lia|]. apply wpe_bind.
    eapply wpe_mono; [eapply (pipe_child_becomes 0); [lia|done|done|done|exact L0|exact Ho]|done|done].
  - destruct (IH fuel) as [o Ho]; [lia|done|done|]. exists (0 :: o). apply wpe_bind, exact_fork1; [lia|]. apply wpe_bind.
    eapply wpe_mono; [exact Ho|done|done].
Qed.

(** ** The shell *)

(** The first [n] descriptors of a table, the free ones taken by [d]. *)
Fixpoint fill (n : nat) (d : desc) (T : table) : table :=
  match n, T with
  | Datatypes.S n', x :: T' => Some (default d x) :: fill n' d T'
  | _, _ => T
  end.
Definition console_desc : desc := Opened (Console.text "console") O_RDWR.

Lemma fill_lookup n d T : forall i, fill n d T !! i = (if decide (i < n)%nat then (fun x => Some (default d x)) <$> T !! i else T !! i).
Proof.
  revert T. induction n as [|n IH]; intros T i; [by rewrite decide_False by lia|]. destruct T as [|x T]; cbn [fill].
  - rewrite !lookup_nil. by destruct (decide _).
  - destruct i as [|i]; [done|]. rewrite !lookup_cons_ne_0 by done. cbn [Nat.pred]. rewrite IH.
    destruct (decide (i < n)%nat), (decide (Datatypes.S i < Datatypes.S n)%nat); (done || lia).
Qed.
Lemma fill_std d T : std T -> fill 3 d T = T.
Proof.
  intros HT. apply list_eq. intros i. rewrite fill_lookup. destruct (decide (i < 3)%nat) as [Hi|]; [|done].
  destruct (HT i Hi) as [e He]. by rewrite He.
Qed.
Lemma fill_insert d T i : T !! i = Some None -> (i < 3)%nat -> fill 3 d (<[i := Some d]> T) = fill 3 d T.
Proof.
  intros Hi Hlt. apply list_eq. intros n. rewrite !fill_lookup. destruct (decide (n = i)) as [->|Hne].
  - rewrite list_lookup_insert_eq by (by apply lookup_lt_Some in Hi). rewrite Hi, !decide_True by done. done.
  - by rewrite list_lookup_insert_ne.
Qed.
Lemma std_fill d T : (3 <= length T)%nat -> std (fill 3 d T).
Proof.
  intros HT i Hi. rewrite fill_lookup, decide_True by done. destruct (lookup_lt_is_Some_2 T i) as [x ->]; [lia|]. by eexists.
Qed.
Lemma lowest_below T i n : lowest T = Some i -> (n < i)%nat -> exists d, T !! n = Some (Some d).
Proof.
  revert i n. induction T as [|[d|] T IH]; intros i n; cbn [lowest]; [done| |intros [= <-]; lia].
  destruct (lowest T) as [m|]; [|done]. intros [= <-] Hn. destruct n as [|n]; [by exists d|]. apply (IH m); [done|lia].
Qed.

Section Main.
Context {S : Type} {U : Usys S} (tab : S -> table) (image : S -> option job) (input : S -> list Z) {DK : Desk U tab image input}.
Implicit Types s : S.
Abbreviation calm := (calm tab image input).

(** Three descriptors are open afterwards. *)
Lemma wp_open_console fuel : forall k s (Q : unit -> S -> Prop), (4 <= fuel + k)%nat -> (k <= 3)%nat -> (3 <= length (tab s))%nat ->
  (forall n, (n < k)%nat -> exists d, tab s !! n = Some (Some d)) ->
  (forall s', calm (fill 3 console_desc (tab s)) s s' -> Q tt s') -> wp (open_console fuel) Q s.
Proof.
  induction fuel as [|fuel IH]; intros k s Q Hf Hk Hlen Hlow HQ; [lia|]. cbn [open_console]. wp_step. apply desk_open.
  - intros s1 Hfull Hc. cbn [Z.leb Z.compare]. wp_step. apply HQ. rewrite fill_std; [done|]. intros i Hi.
    apply lowest_full; [by apply Hfull|lia].
  - intros i s1 Hi Hc. rewrite (proj2 (Z.leb_le _ _)) by lia. pose proof (lowest_free _ _ Hi) as Hfree.
    destruct (Z.leb_spec 3 (Z.of_nat i)) as [H3|H3].
    + wp_step. apply desk_close; [lia|]. intros r s2 Hc2. wp_step. apply HQ. rewrite Nat2Z.id, (calm_tab _ _ _ _ _ _ Hc), insert_same in Hc2.
      rewrite (list_insert_id _ _ _ Hfree) in Hc2. rewrite fill_std; [by eapply calm_trans|].
      intros n Hn. apply (lowest_below _ _ _ Hi). lia.
    + pose proof (calm_tab _ _ _ _ _ _ Hc) as Ht. apply (IH (Datatypes.S i)); [|lia|by rewrite Ht, length_insert| |].
      * destruct (decide (i < k)%nat) as [Hik|]; [|lia]. destruct (Hlow i Hik) as [d Hd]. congruence.
      * intros n Hn. rewrite Ht. destruct (decide (n = i)) as [->|]; [rewrite list_lookup_insert_eq by lia; by eexists|].
        rewrite list_lookup_insert_ne by done. apply (lowest_below _ _ _ Hi). lia.
      * intros s2 Hc2. apply HQ. rewrite Ht, fill_insert in Hc2 by (done || lia). by eapply calm_trans.
Qed.

(** A line is a piece of the input. *)
Lemma wp_gets_loop n : forall s (Q : list Z -> S -> Prop),
  (forall l rest s', (length l <= n)%nat -> input s = l ++ rest -> input s' `suffix_of` rest -> calm (tab s) s s' -> Q l s') ->
  wp (gets_loop n) Q s.
Proof.
  induction n as [|n IH]; intros s Q HQ; cbn [gets_loop].
  { wp_step. by apply (HQ [] (input s)). }
  wp_step. apply desk_read.
  - intros r s1 Hr Hc. cbn [fst]. rewrite (proj2 (Z.ltb_lt _ _)) by lia. wp_step. apply (HQ [] (input s)); [cbn; lia|done|apply Hc|done].
  - intros c rest s1 Hs Hs1 Hc. cbn [fst snd]. change (1 <? 1) with false. cbv iota. destruct (_ || _).
    + wp_step. apply (HQ [c] rest); [cbn; lia|done|by rewrite Hs1|done].
    + wp_step. apply IH. intros l rest' s2 Hl Hr Hsuf Hc2. wp_step. apply (HQ (c :: l) rest'); [cbn; lia| |done|].
      * rewrite Hs, <- Hs1, Hr. done.
      * rewrite (calm_tab _ _ _ _ _ _ Hc) in Hc2. by eapply calm_trans.
Qed.

Lemma until_nul_snoc l : until_nul (l ++ [0]) = until_nul l.
Proof. induction l as [|c l IH]; [done|]. cbn. by rewrite IH. Qed.
Lemma until_nul_nonzero l : Forall (fun c => c <> 0) (until_nul l).
Proof. induction l as [|c l IH]; cbn; [constructor|]. destruct (Z.eqb_spec c 0); by constructor. Qed.
Lemma until_nul_length l : (length (until_nul l) <= length l)%nat.
Proof. induction l as [|c l IH]; cbn; [lia|]. destruct (c =? 0); cbn; lia. Qed.

Lemma wp_getcmd s (Q : Z * list Z -> S -> Prop) :
  (forall pre l post s', (length l <= 99)%nat -> input s = pre ++ l ++ post -> input s' `suffix_of` post -> calm (tab s) s s' ->
     Q (match until_nul l with [] => -1 | _ => 0 end, until_nul l) s') -> wp (getcmd 100) Q s.
Proof.
  intros HQ. unfold getcmd. wp_step. eapply (wp_say tab image input); [reflexivity|]. intros s1 Hc. wp_step. unfold gets. wp_step.
  apply wp_gets_loop. intros l rest s2 Hl Hs1 Hs2 Hc2. wp_step. wp_step. rewrite until_nul_snoc.
  destruct (calm_input _ _ _ _ _ _ Hc) as [pre Hpre]. apply (HQ pre l rest); [done|by rewrite Hpre, Hs1|done|].
  rewrite (calm_tab _ _ _ _ _ _ Hc) in Hc2. by eapply calm_trans.
Qed.

Context (avail : nat).
Hypothesis Havail : (199 <= avail)%nat.

(** The end of the process: as a job of a line of the input [I] that is no [cd]
    and parses as a command, with the descriptors [T] of the shell; or without
    running a program. *)
Definition typed_job (T : table) (I : list Z) (s : S) : Prop :=
  match image s with
  | None => True
  | Some j => exists pre l post c sh, I = pre ++ l ++ post /\ is_cd (until_nul l) = false /\
      parsecmd avail (until_nul l) = Ok c sh /\ spawns (heap sh) (Sh.text sh) T c j
  end.
Lemma desk_typed_none T I s : image s = None -> typed_job T I s.
Proof. unfold typed_job. by intros ->. Qed.
Lemma typed_suffix T I I' s : I' `suffix_of` I -> typed_job T I' s -> typed_job T I s.
Proof.
  intros [x ->]. unfold typed_job. destruct (image s) as [j|]; [|done]. intros (pre & l & post & c & sh & -> & H).
  exists (x ++ pre), l, post, c, sh. by rewrite <- app_assoc.
Qed.

(** The child with the line. *)
Lemma wpe_run_line l s (I : list Z) pre post : (length l <= 99)%nat -> I = pre ++ l ++ post -> is_cd (until_nul l) = false ->
  std (tab s) -> image s = None ->
  wpe (p <- parse_line avail (until_nul l) ;;
       runcmd (Datatypes.S (length (heap (snd p)))) (heap (snd p)) (Sh.text (snd p)) (Some (fst p)))
    (fun _ _ => False) (typed_job (tab s) I) s.
Proof.
  intros Hl HI Hcd HT Hi. pose proof (until_nul_length l) as Hlen. pose proof (until_nul_nonzero l) as Hnz.
  pose proof (wps_parse_body (until_nul l) avail Hnz ltac:(lia)) as Hp. apply wpe_bind. unfold parse_line, parsecmd.
  change (until_nul l ++ [0]) with (chars (until_nul l)). unfold wps, wpx in Hp. destruct (parse_body _ _ _) as [c sh|w sh| | | |] eqn:E; try done.
  - apply wpe_ret. cbn [fst snd]. destruct Hp as [P1 P2 _ _].
    eapply wpe_mono; [eapply (wpe_runcmd tab image input); [exact P2|lia|done|done|done]|done|].
    intros s' He. unfold ends, typed_job in *. destruct (image s') as [j|]; [|done]. by exists pre, l, post, c, sh.
  - assert (forall msg s1, image s1 = None -> wpe (sh_panic msg) (fun (_ : nat * shell) (_ : S) => False) (typed_job (tab s) I) s1) as Hend.
    { intros msg s1 H1. apply (wpe_sh_panic tab image input). intros s2 H2. apply desk_typed_none. by rewrite (calm_image _ _ _ _ _ _ H2). }
    destruct (String.eqb w "leftovers"); [|eapply wpe_mono; [by apply Hend|done|done]]. eapply wpe_bind, wpe_of_wp, (wp_say tab image input); [reflexivity|].
    intros s1 Hc. eapply wpe_mono; [apply Hend; by rewrite (calm_image _ _ _ _ _ _ Hc)|done|done].
Qed.

Lemma wpe_command_loop fuel : forall s, (length (input s) < fuel)%nat -> std (tab s) -> image s = None ->
  wpe (command_loop fuel avail) (fun _ _ => False) (typed_job (tab s) (input s)) s.
Proof.
  induction fuel as [|fuel IH]; intros s Hf HT Hi; [lia|]. cbn [command_loop]. apply wpe_bind, wpe_of_wp, wp_getcmd.
  intros pre l post s1 Hl Hin Hs1 Hc. cbn [fst snd]. destruct (decide (until_nul l = [])) as [->|Hne].
  { apply wpe_exited, desk_typed_none. by rewrite (calm_image _ _ _ _ _ _ Hc). }
  replace (match until_nul l with [] => -1 | _ => 0 end) with 0 by (by destruct (until_nul l)). change (0 <? 0) with false. cbv iota zeta.
  assert (forall s2, calm (tab s) s1 s2 -> wpe (command_loop fuel avail) (fun _ _ => False) (typed_job (tab s) (input s)) s2) as Hnext.
  { intros s2 Hc2. pose proof (calm_trans tab image input _ _ _ _ _ Hc Hc2) as [C1 C2 C3]. rewrite <- C1. destruct Hc2 as [_ _ Hsuf].
    assert (length l <> 0%nat) by (by destruct l). pose proof (suffix_length _ _ Hs1). pose proof (suffix_length _ _ Hsuf).
    pose proof (f_equal length Hin) as Hlen. rewrite !length_app in Hlen.
    eapply wpe_mono; [apply IH; [lia|by rewrite C1|congruence]|done|]. intros s' Ht. by eapply typed_suffix. }
  pose proof (calm_tab _ _ _ _ _ _ Hc) as Ht1. pose proof (calm_image _ _ _ _ _ _ Hc) as Hi1.
  destruct (is_cd (until_nul l)) eqn:Hcd.
  - apply wpe_bind, wpe_of_wp, desk_chdir. intros r s2 Hc2. rewrite Ht1 in Hc2. destruct (r <? 0); cbn [when].
    + eapply wpe_bind, wpe_of_wp, (wp_say tab image input); [reflexivity|]. intros s3 Hc3.
      rewrite (calm_tab _ _ _ _ _ _ Hc2) in Hc3. apply Hnext. by eapply calm_trans.
    + by apply wpe_bind, (wpe_ret tt), Hnext.
  - eapply wpe_bind, (wpe_fork1 tab image input).
    2: { intros s2 Hc2. apply desk_typed_none. by rewrite (calm_image _ _ _ _ _ _ Hc2), Hi1. }
    intros pid s2 _ Hc2. pose proof (calm_image _ _ _ _ _ _ Hc2) as Hi2. pose proof (calm_tab _ _ _ _ _ _ Hc2) as Ht2. rewrite Ht1 in Ht2, Hc2.
    apply wpe_bind, wpe_child; intros _.
    + rewrite <- Ht2. eapply wpe_run_line; [done|exact Hin|done|by rewrite Ht2|congruence].
    + apply wpe_bind, wpe_of_wp, desk_wait. intros r s3 Hc3. apply Hnext. rewrite Ht2 in Hc3. by eapply calm_trans.
Qed.
End Main.

(** C27: [runcmd] runs the jobs of its command, all of them and no others.  On a
    command the parser returned, with the three standard descriptors open: (1)
    over every system that keeps the laws of descriptors, whatever [fork],
    [pipe], [open] and [exec] answer, [runcmd] never returns, and a process that
    ends as a program runs one of the command with exactly its arguments and
    descriptors: redirections in place, the sides of a pipeline joined by one
    new pipe, none of its other descriptors left open; (2) with two descriptors
    free, each job of the command is run by some process. *)
Theorem runcmd_jobs (line : list Z) (avail c : nat) (sh : shell) (T : table) :
  Forall (fun c => c <> 0) line -> (2 * length line + 1 <= avail)%nat -> parsecmd avail line = Ok c sh -> std T ->
  (forall (S : Type) (U : Usys S) tab image input (DK : Desk U tab image input) (s : S), tab s = T -> image s = None ->
     wpe (runcmd (Datatypes.S (length (heap sh))) (heap sh) (Sh.text sh) (Some c)) (fun _ _ => False)
       (fun s' => forall j, image s' = Some j -> spawns (heap sh) (Sh.text sh) T c j) s) /\
  (forall inp j, roomy T -> spawns (heap sh) (Sh.text sh) T c j ->
     becomes (Datatypes.S (length (heap sh))) (heap sh) (Sh.text sh) T inp c j).
Proof.
  intros Hnz Hav Hrun HT. destruct (parsecmd_parsed _ _ _ _ Hnz Hav Hrun) as [P1 P2 _ _]. split.
  - intros S U tab image input DK s Hs Hi. subst T.
    eapply wpe_mono; [eapply (wpe_runcmd tab image input); [exact P2|lia|done|done|done]|done|].
    intros s' He j Hj. unfold ends in He. by rewrite Hj in He.
  - intros inp j Hroom Hj. eapply spawns_becomes; [exact P2|done|lia|done|done].
Qed.

(** C28: the shell, from the start of [main].  With a table of at least three
    descriptors and memory for 199 nodes, over every system that keeps the laws
    of descriptors, with fuel beyond the input: [main] never returns, never
    stops at an error of its own, and a process that ends as a program runs a
    job of a line of the input which is no [cd] and parses as a command, with
    the shell's descriptors, the missing ones of 0, 1 and 2 opened on the
    console. *)
Theorem shell_runs_lines (S : Type) (U : Usys S) (tab : S -> table) (image : S -> option job) (input : S -> list Z)
    (DK : Desk U tab image input) (fuel avail : nat) (s : S) :
  (length (input s) < fuel)%nat -> (4 <= fuel)%nat -> (3 <= length (tab s))%nat -> (199 <= avail)%nat -> image s = None ->
  wpe (sh_main fuel avail) (fun _ _ => False) (typed_job image avail (fill 3 console_desc (tab s)) (input s)) s.
Proof.
  intros Hf H4 Hlen Hav Hi. unfold sh_main. apply wpe_bind, wpe_of_wp, (wp_open_console tab image input _ 0); [lia|lia|done|lia|].
  intros s1 [C1 C2 C3]. rewrite <- C1. pose proof (suffix_length _ _ C3).
  eapply wpe_mono; [apply (wpe_command_loop tab image input); [done|lia|rewrite C1; by apply std_fill|congruence]|done|].
  intros s' Ht. by eapply typed_suffix.
Qed.

(** The line [ls|a>b] with three descriptors open and four free. *)
Definition demo_descs : table := [Some (Old 0); Some (Old 1); Some (Old 2); None; None; None; None].
Lemma demo_std : std demo_descs.
Proof. intros i Hi. destruct i as [|[|[|]]]; [by exists (Old 0)|by exists (Old 1)|by exists (Old 2)|lia]. Qed.

(** The right side reads the pipe and writes the file [b]. *)
Lemma runcmd_jobs_witness :
  exists c sh, parsecmd 20 demo_line = Ok c sh /\
  becomes (Datatypes.S (length (heap sh))) (heap sh) (Sh.text sh) demo_descs [] c
    (mk_job [97] [[97]] [Some (ReadEnd 5); Some (Opened [98] (Z.lor O_WRONLY O_CREATE)); Some (Old 2); None; None; None; None]).
Proof.
  eexists _, _. split; [vm_compute; reflexivity|].
  eapply (runcmd_jobs demo_line 20); [apply demo_line_nonzero|cbn; lia|vm_compute; reflexivity|apply demo_std|by exists 3%nat, 4%nat|].
  eapply (sp_pipe_right _ _ _ _ _ _ 5); [reflexivity|by apply (bool_decide_unpack (unused 5 demo_descs))|].
  eapply sp_redir; [reflexivity|]. eapply sp_exec; [reflexivity|vm_compute; reflexivity].
Defined.

(** The same line typed to a shell with one descriptor: the process picked is the
    right side of the pipeline. *)
Definition bare_table : table := [Some (Old 0); None; None; None; None; None; None].
Definition demo_desk : desk := mk_desk bare_table None (demo_line ++ [10]) [0; 5; 1; 0].

Lemma shell_runs_lines_witness :
  wpe (sh_main 20 199) (fun _ _ => False)
    (typed_job d_image 199 (fill 3 console_desc (d_tab demo_desk)) (d_input demo_desk)) demo_desk /\
  exists s', sh_main 20 199 demo_desk = Exited s' /\
    d_image s' = Some (mk_job [97] [[97]]
      [Some (ReadEnd 5); Some (Opened [98] (Z.lor O_WRONLY O_CREATE)); Some console_desc; None; None; None; None]).
Proof.
  split; [|eexists; split; vm_compute; reflexivity].
  apply (shell_runs_lines desk desk_sys d_tab d_image d_input desk_ok 20 199 demo_desk); try reflexivity; cbn; lia.
Defined.
